(* ===== verification/_CoqProject ===== *)
-Q . S2P
Prelude.v
PyStr.v
PyPath.v
PyTime.v
PyFloat.v
Json.v
PyVal.v
Sha256.v
Regex.v
Utf8.v
PyRe.v
PyNet.v
Redaction.v
AuditPayload.v
SecretLeases.v
SecretLeasesFacts.v
ProviderFailures.v
Porcelain.v
Status.v
Scheduler.v
Capacity.v
DockerPull.v
MonitorModels.v
FeedbackPolicy.v
CiClass.v
MonitorState.v
Decide.v
Samples.v
DecideSafety.v
MonitorRuns.v
Store.v
Operations.v
Cleanup.v
FailureCausality.v
WorkspaceRepo.v
Claims.v
OperatorReset.v
SchedulerQuery.v
SchedulerAgree.v
Lifecycle.v
Admission.v
Constraints.v
Controls.v
ControlsFacts.v
GcPlan.v
GcPlanFacts.v
GcWorktrees.v
GcRun.v
GcRunFacts.v
Readiness.v
OwnedPaths.v
OwnedPathsFacts.v
OwnedPathConflicts.v
OverlapGraph.v
ScopePolicy.v
SupplyChain.v
Findings.v
Staleness.v
StalenessFacts.v
MergeQueue.v
MergeQueueFacts.v
MergeGate.v
SupplyPolicy.v
SupplyFacts.v
MergeGateFacts.v
Breaker.v
Recovery.v
Dispatch.v
DispatchFacts.v
RecoveryFacts.v
FailureRecovery.v
CallbackTargets.v
Callbacks.v
CallbackDrain.v
CallbackFacts.v
WriterLock.v
QualityGates.v
Commands.v
