(* ===== verification/Prelude.v ===== *)
(** * Agent Workspace Fabric: a verification library

    Agent Workspace Fabric (AWF, [src/src/awf]) runs coding agents in isolated
    workspaces.  A control plane keeps a row per workspace and moves it through a
    lifecycle; a scheduler orders the queued rows and admits those that fit the node;
    workers claim rows under leases and fencing epochs; a monitor polls the pull
    request a workspace opened and decides, poll after poll, whether to merge, wait,
    repair or call a human; a merge side keeps a candidate per attempt, with what
    makes it stale, ready or blocked; operators cancel, stop, validate, rebase and destroy
    workspaces; policies keep concurrent workspaces out of each other's files, agents
    out of the files that guard the repository and unpinned packages out of a merge; a
    lock keeps the writers of a worktree apart and a watchdog ends the commands that run
    in it; secrets are leased to workspaces and masked in what leaves them; subscribers
    are called back when something happens; and a collector deletes what ended
    workspaces leave on disk. This library models those parts. Source paths below are
    relative to [src/src/awf].

    ** How the parts interact

    A queued row has a score ([Scheduler]), by which SQL orders and pages the
    candidates ([SchedulerQuery]); dispatching reads the pages and drops the rows whose
    provider is cooling down ([Dispatch]); the rows that fit the free capacity
    ([Capacity]) are claimed one after the other ([Admission]).  A claim ([Claims]) is
    a compare-and-set on the lifecycle ([WorkspaceRepo]) guarded by the state machine
    ([Status]); each transition carries its task attempt, merge candidate and resource
    reservations along ([Store]).  Reaching [monitoring_pr] opens the merge candidate
    and starts the monitor.  Each poll builds a snapshot ([MonitorModels]) and calls
    [decide] ([Decide]) on it, the persisted monitor state ([MonitorState]) and the
    configuration; the feedback policy ([FeedbackPolicy]) says which conversations
    still need work and the CI classifiers ([CiClass], with the detector of failed image
    pulls in [DockerPull]) what a failed check means.
    The runner records the outcome in the state ([MonitorRuns]), which the next
    [decide] reads.

    When [decide] says merge, a last gate ([MergeGate]) reads the candidate's findings
    ([Findings]), which the staleness service ([Staleness]), the scope policy
    ([ScopePolicy]) and the supply-chain policy ([SupplyPolicy], over the commands that
    [SupplyChain] reads) reconcile, and its validation, and derives the readiness flags
    ([Readiness]) that the merge queue ([MergeQueue]) orders candidates by.

    An operator's request ([Controls]) is answered by the operation ([Operations]) that its
    idempotency key or an equal request in flight already has, or creates one, and moves
    the workspace through the same transitions; a request that takes the stack down runs
    the cleaner ([Cleanup]), destroying revokes the leases first, and what fails then is
    kept apart from what had failed before ([FailureCausality]).  Only a return to the
    monitor ([OperatorReset]) moves a workspace outside the state machine.

    Before a workspace is created its declared paths are compared with those of the
    live ones ([OwnedPaths], [OwnedPathConflicts]), and operators see the same
    comparison for all live pairs ([OverlapGraph]); what it changes, as git reports it
    ([Porcelain]), is compared with what it declared ([ScopePolicy]), and with the files
    that only their owner may change ([QualityGates]), which also decides what a retry of a
    failed attempt takes over.  Whoever writes to a worktree holds its lock ([WriterLock]), and
    a command that prints nothing or does not end is timed out ([Commands]).

    When an agent fails, its output is classified ([ProviderFailures]) and masked
    ([Redaction]) into the metadata of the failure, on which the recovery decides
    ([Recovery], composed with the classification in [FailureRecovery]): the model
    provider is put on a cooldown ([Breaker]) while its workspace is retried or moved to
    a fallback.

    A workspace holds the secrets of its profile under leases ([SecretLeases]), each
    change of which appends an audit event whose payload is masked ([AuditPayload]).
    An event enqueues a delivery for each subscription that asks for it ([Callbacks]); a
    drain posts the due deliveries ([CallbackDrain]) to the addresses that the target's
    validation ([CallbackTargets]) resolved it to.

    The collector selects ended workspaces ([GcPlan]) and, for those whose containers it
    can stop, revokes the leases, lets git remove the worktrees ([GcWorktrees]), deletes the
    directories, releases the reservations and marks the rows ([GcRun]).

    ** Files

    Foundations.
    - [Prelude]: results, boolean equality and membership, list filters, Python's
      [dict.fromkeys], [sorted] and grouping, tactics and the hint database [awf].
    - [PyStr], [PyPath], [PyTime], [PyFloat], [Json], [PyVal], [Sha256], [Regex], [PyRe],
      [Utf8], [PyNet]: the parts of Python's language and standard library the code
      computes with: text, instants and durations, binary64 floats, compact JSON, dynamic
      values, SHA-256, [re] as a language ([Regex]) and as a backtracking search with
      groups and look-around ([PyRe]), paths, UTF-8 with [surrogateescape], and
      [ipaddress] with [urllib.parse].

    Lifecycle.
    - [Status]: [db/enums.py], [control/state_machine.py].
    - [Store]: the columns of [db/models.py] the lifecycle touches and the
      operations of [db/repositories/task_repo.py], [quality_repo.py] and
      [workspace_recovery.py] on them.  A transaction is a function from a [Db] to
      a new one or to the exception that aborts it.
    - [WorkspaceRepo]: transitions and events of [db/repositories/workspace_repo.py].
    - [Claims]: [db/repositories/workspace_repo_claims.py],
      [control/blocked_transition.py] and the claim handlers of
      [control/worker/claims.py], with concrete tables.
    - [OperatorReset]: the resets of [service/controls_helpers.py] and
      [service/controls_guide.py].
    - [Lifecycle]: the step relation over all these operations, and its theorems.
    - [Constraints]: the unique constraints of the schema, and its theorems.

    Operator controls.
    - [Operations]: the operations of [db/repositories/workspace_repo_callbacks.py].
    - [Cleanup]: [node/cleanup.py], the teardown of a project in
      [node/compose_manager.py] and the older results of [service/controls_helpers.py].
    - [FailureCausality]: [service/failure_causality.py].
    - [Controls], [ControlsFacts]: [service/controls.py] with [controls_helpers.py],
      [controls_types.py], [controls_errors.py] and [controls_stack_release.py], and the
      attention columns of [db/repositories/workspace_repo_attention.py].

    Garbage collection.
    - [GcPlan], [GcPlanFacts]: the plan of [service/gc.py], with [gc_classify.py],
      [gc_predicates.py], [gc_companions.py] and [gc_results.py].
    - [GcWorktrees]: the default remover of [service/gc_worktrees.py], and its theorem.
    - [GcRun], [GcRunFacts]: the runs of [service/gc.py], with [gc_auth_overlay.py].

    Scheduling.
    - [Scheduler]: [service/scheduler.py].
    - [SchedulerQuery]: [db/repositories/_scheduler.py] on PostgreSQL,
      [workspace_repo_scheduler.py], the cursor of [control/worker/scheduling.py].
    - [SchedulerAgree]: the two scores agree.
    - [Capacity]: [service/resource_capacity.py] and the arithmetic of
      [control/worker/resource_broker.py].
    - [Admission]: the claim pass of [control/worker/claims.py].
    - [Dispatch], [DispatchFacts]: [control/worker/scheduler_methods.py].

    Pull-request monitor.
    - [MonitorModels]: [runtime/pr_monitor_models.py], [pr_monitor_actions.py],
      [monitor_state_keys.py].
    - [FeedbackPolicy]: [runtime/feedback_policy.py] and its theorems.
    - [DockerPull]: [runtime/_docker_pull_detection.py] and its theorems.
    - [CiClass]: [runtime/pr_monitor_ci_classification.py].
    - [MonitorState]: state, configuration and retry budgets of
      [runtime/pr_monitor.py].
    - [Decide]: [decide] of [runtime/pr_monitor.py], one definition per gate, in
      source order.
    - [Samples]: concrete snapshots.
    - [DecideSafety]: what a single decision guarantees.
    - [MonitorRuns]: the state updates of [runtime/pr_monitor_runner], and what successive
      polls guarantee.

    Merging.
    - [Readiness]: [runtime/merge_eligibility.py] and the readiness flags of
      [db/repositories/quality_repo.py].
    - [Findings]: the stale reasons and policy findings of [quality_repo.py].
    - [Staleness], [StalenessFacts]: [service/staleness.py].
    - [MergeQueue], [MergeQueueFacts]: [service/merge_queue.py].
    - [MergeGate], [MergeGateFacts]: [runtime/pr_monitor_runner/gates.py],
      [sync_base_support.py] and the writers of a candidate in [quality_repo.py].

    Policies.
    - [OwnedPaths], [OwnedPathsFacts], [OwnedPathConflicts]: [fnmatch],
      [common/owned_paths.py], the overlap test of [db/repositories/base.py] and
      the conflict listing of [workspace_repo_host_ports.py].
    - [OverlapGraph]: [service/overlap_graph.py].
    - [ScopePolicy]: [service/scope_policy.py].
    - [Porcelain]: [runtime/git_porcelain.py],
      [runtime/pr_monitor_runner/path_parsing.py] and the diff parser of
      [control/protected_file_diffs.py].
    - [SupplyChain]: the commands and lockfiles of [service/supply_chain_policy.py] with
      [supply_chain_policy_helpers.py], and [shlex]; [SupplyPolicy]: the guardrails of a
      profile, the evaluation and the refresh; [SupplyFacts]: their theorems.
    - [QualityGates]: [control/quality_gates.py], [quality_gates_common.py] and the
      quarantine of [service/conformance_salvage.py].
    - [Breaker]: the circuit breakers of [db/repositories/system_repo.py].
    - [Recovery], [RecoveryFacts]: [service/provider_recovery.py].
    - [ProviderFailures]: [adapters/provider_failures.py], [failure_reasons.py];
      [FailureRecovery]: a failed run, from its output to the recovery decision.

    Secrets.
    - [Redaction]: [common/redaction.py], [token_patterns.py].
    - [AuditPayload]: [common/audit.py].
    - [SecretLeases], [SecretLeasesFacts]: [service/secret_leases.py] on
      [db/repositories/workspace_repo_secrets.py], with the audit events of both.

    Callbacks.
    - [CallbackTargets]: [common/callback_targets.py] and the
      resolution of a target in [service/callbacks.py].
    - [Callbacks]: [common/callback_events.py], the subscriptions and deliveries of
      [db/repositories/workspace_repo_callbacks.py], the restore guards of
      [workspace_recovery.py], and registering and enqueuing in [service/callbacks.py].
    - [CallbackDrain], [CallbackFacts]: the drain of [service/callbacks.py].

    Node.
    - [WriterLock]: [runtime/worktree_writer_lock.py]: the system calls of the threads, and
      the frames of the tasks.
    - [Commands]: the watchdog of [common/commands.py] and what a run ends with.

    ** What the theorems show

    - Merging is safe: [decide_merge_iff] is the exact condition of a merge, and
      [merge_leaves_no_feedback] that every conversation of either feed then has a
      final verdict for its current text; [abort_causes], [address_comments_batch]
      and [auto_merge_only_final] pin the other outcomes.  [merge_gate_exact] is the
      exact condition of the last gate.
    - The monitor makes progress: a recorded repair batch is not handed out again
      ([batch_makes_progress]), a rerun spends exactly one attempt of its budget
      ([rerun_budget]), fruitless base syncs stop ([sync_base_bounded]), and a
      failed batch is rolled back to the operator's ruling
      ([rollback_restores_ruling]).
    - Feedback is identified correctly: [canonical_view_correct],
      [preferred_copy_best], [resolution_body_conversation], [feedback_routing] and
      [thread_counts_partition].
    - A failed job is only retried for a pull that Docker could not finish
      ([retry_needs_pull_failure]), whatever else is in its log ([noise_does_not_matter]),
      and not for one the registry refused ([denied_pull_reported]).
    - The lifecycle is sound: [state_machine_shape] is the map itself;
      [lifecycle_invariant] is the invariant of every sequence of control-plane steps,
      resets by an operator included, and [lifecycle_monotone] of those without one;
      [dialects_agree] makes the two database
      dialects one transition; [constraints_kept], [transition_outcomes],
      [monitoring_opens_candidate] and [terminal_transition_releases] say what a
      transition does to the other tables and when it fails.
    - Claims exclude: [paused_claim_single_winner], [fenced_forever],
      [monitor_lease_exclusive].
    - Controls do what they report: [controls_follow_lifecycle] refines every control to
      steps of the control plane; [request_answered_once] and [version_admits_once] are
      about repeated and concurrent requests in any later state; [stack_release_reported],
      [destroy_settles] and [cleanup_complete] about what a teardown leaves behind and says.
    - The collector deletes what it may and nothing else: [gc_plan_safe] and
      [gc_plan_exact] say what a plan selects, [gc_plan_fair] that a limited one starves
      nobody; [gc_removals_permitted] bounds what a run does to the file system,
      [gc_follows_containers] what it does to credentials, [gc_marks_exact] what it marks;
      [gc_success_settles] says what a reported success means and [remover_reports_all]
      that no worktree goes unreported.
    - Scheduling is faithful to its order: [score_bounds] and [sql_score_agrees] are about
      one score; [dispatch_takes_the_first] says that pages, cursors and filters together
      are the specification "the first free rows of the sorted queue", and
      [dispatch_ends_soundly] what holds of any scores and a moving clock.
      [admission_within_limits] and [admission_refuses_for_cause] are about capacity.
    - Candidates are kept in order: [readiness_flags], [attempt_validated_iff],
      [candidate_writes_keep_flags], [findings_refine_set], [staleness_exact],
      [refresh_candidate_spec], [sync_base_resolves]; the queue serializes conflicting
      candidates, has a head, and its batched form agrees with the single one
      ([queue_serializes], [queue_has_head], [queue_page_agrees], [ready_reason_exact]).
    - Policies see every conflict: [no_missed_conflict], [live_conflict_reported],
      [interworkspace_owned_paths_exact], [overlap_reason], [normalize_shape],
      [scope_findings_exact], [owned_file_in_scope], [policy_combination],
      [overlap_graph_well_formed], [overlap_graph_agrees]; and one
      defect, [wildcard_named_file_unreported].  Paths are read back from git exactly:
      [quoted_path_reads_back], [status_formats_agree], [name_status_exact].
      The supply-chain policy reports exactly what its guardrails forbid
      ([supply_findings_exact]), through shells and wrappers ([handed_commands_evaluated],
      [wrappers_hide_nothing], [quoted_words_read_back]), and stores it
      ([refresh_stores_verdict]); two defects are [malformed_url_hides_findings] and
      [attached_output_misread].  The gate of protected files fails closed ([gate_exact]),
      a retry leaves behind exactly what it blocks ([quarantine_exact]), and one defect is
      [leading_wildcard_opens_gate].
      Breakers trip and expire as configured: [breaker_trips], [breaker_reads_agree].
    - Provider recovery ends and stays within its policy: [recovery_terminates],
      [recovery_targets]; a failure that repeats without progress stops the run in place
      ([repeated_failure_stops]).
    - Secrets are kept: masking hides every secret it finds and nothing else
      ([redaction_masks]), also when the text is cut into slices of bytes
      ([byte_slices_agree]).  Each lease is in the state that its audit trail says
      ([leases_audited]), issuing again changes nothing ([issue_idempotent]), and a
      revoked lease stays revoked until issued again ([revoked_until_issued]).
    - Callbacks reach their subscribers and nobody else: [requests_reach_public] is about
      the addresses, [queued_exactly_once] about the subscriptions, [attempts_bounded]
      about the number of requests and [callbacks_sound] is the invariant of the tables.

    - Writers of a worktree exclude each other under every interleaving, failure and death
      ([writer_lock_exclusive]), never block each other for good ([writers_finish]), and
      nest and lend their sections safely ([sections_exclusive]).
    - A command is timed out for cause ([timeout_justified]) and in time
      ([watchdog_in_time]), and the verdict reaches the caller ([verdict_survives]).

    ** Bounds and fuel

    - [star_ends] of [Regex] has the length of the remaining text as fuel;
      [ends_matches] proves that it is enough.  [month_day] of [PyTime] has one unit
      for each month that can precede the last, and the loops of [Sha256] run once
      for each block and schedule word.  [dispatch_from] of [Dispatch] has one unit per
      page; [dispatch_ends_soundly] proves that one per row of the table is enough.
      [finditer] of [PyRe] advances or forbids an empty match at each step;
      [finditer_fuel] proves that more than twice the length of the text, and one, is
      enough.  [hex_str] of [PyNet] writes the at most 32 digits of a 128-bit address.
      [strip_prefixes] of [SupplyChain] has one unit per token, which [strip_fuel] proves
      enough, and the reader of a Node package's version the length of its text; a command
      is followed through at most four shells, as in the code.
      Other recursions are structural.
    - Characters are the code points U+0000 to U+00FF, except in [Utf8], [Porcelain] and the
      byte offsets of [Redaction], where they are all of Unicode.  [int(text)] has no limit on the number of digits,
      where CPython stops at 4300; the scheduler, which depends on it, has the limit.
    - Integers are unbounded, as in Python; SQL integers are clamped to 32 bits where the
      code does so; the durations and float comparisons of the monitor and the capacity
      arithmetic are IEEE binary64.
    - SHA-256 is computed.  Theorems that need its digests to separate texts speak
      of the digest, not of the text.

    ** What is left out

    - Payloads of events, the [updated_at] stamp of a workspace, and columns no modelled
      operation reads.  The lifecycle and the merge side read different columns of a
      candidate and model a row each.
    - A transaction reads the clock once, and [transition] runs on the current row;
      concurrency is the interleaving of whole transactions, as under the row locks
      and guarded updates of the source.
    - The SQL conditions over tables that are not modelled are booleans: whether a
      worker-restart recovery operation is active, and the node scope of a claim.
    - The SQLite expressions of the scheduler, the retry around its transactions, the
      advisory lock of the capacity pass and the queries that load its totals; the paged
      response of the merge queue.
    - The expiry of the merge-block marker, which parses an ISO instant.
      [datetime.fromisoformat] is a variable elsewhere.
    - Whether a posted reply landed is a variable of the section that uses it, and the
      registry-timeout detector an argument of [Decide], which [CiClass] instantiates.
    - The classifiers of pyproject and workflow changes are the interface [Classifiers] of
      [QualityGates]; the git commands of the salvage are its argument [load].
    - In [WriterLock] an open file that is unlocked and closed is one step, a join of threads
      is immediate, and that a helper task ends before the frame it borrows from, as its
      callers arrange, is a condition of the steps.  In [Commands] the clock is in whole
      ticks, and the child, its pipes and the decoding of its output are left out.
    - The overflow of a [timedelta] beyond the year 9999.
    - The thread pool, the DNS resolver and the HTTP client of the callbacks, which are
      parameters, and the listings of subscriptions and deliveries.  The tables of special
      networks are those of CPython 3.12.4 and later.
    - Docker, the file system and git are functions over an abstract world in [Cleanup], and
      [Cleanup] states the documented behaviour of the engine it relies on.  What other
      transactions write while a destroy waits for the cleaner is a parameter, as is the
      failure evidence that a query collects from the events.  A workspace's return to its
      monitor is modelled as the rows it writes ([OperatorReset]), not as a control with
      its key and hints.
    - The file system, Docker and git are functions over an abstract world in [GcPlan] to
      [GcRun] too, and what other sessions commit between the phases of a run is a
      parameter.  Resolving a path raises only [OSError]; the compose teardowns, which
      overlap, are taken in the order of their results; the entry point that builds the
      callbacks, the byte estimates, the payloads and the removal of orphans are left out.
    - Everything that only talks to the outside: agents, git, containers, forges,
      the HTTP, command-line and MCP servers, and the console.

    ** Plan

    Next: the controls that return a workspace to its monitor and their hints; log streams
    and the keys of workspaces; the classifiers of workflow and pyproject changes, over
    parsed documents; the listing of owned-path reservations; the cursor of the merge queue's
    pages; the SQLite dialect of the scheduler. *)

From Stdlib Require Export ZArith Lia Bool Ascii.
From stdpp Require Export base decidable option list gmap strings sorting pretty.

#[local] Open Scope Z_scope.
#[export] Set Warnings "-clear-no-such-hyp".

(** ** Results

    A Python call that may raise is a value of [result E A]: [Ok] carries the
    returned value, [Err] the exception.  The binds are written in full in the
    definitions that use them, with the notation below. *)

Inductive result (E A : Type) : Type :=
| Ok (a : A)
| Err (e : E).
Arguments Ok {E A} a.
Arguments Err {E A} e.

Declare Scope awf_scope.
Delimit Scope awf_scope with awf.

Definition rbind {E A B : Type} (r : result E A) (k : A -> result E B) : result E B :=
  match r with
  | Ok a => k a
  | Err e => Err e
  end.

Notation "x <-? r ;; k" := (rbind r (fun x => k))
  (at level 100, r at next level, right associativity) : awf_scope.
#[global] Open Scope awf_scope.

Definition is_ok {E A : Type} (r : result E A) : bool :=
  match r with Ok _ => true | Err _ => false end.

(** ** Tactics *)

(** Split every boolean conjunction, disjunction and negation in the context. *)
Ltac bool_simpl :=
  repeat match goal with
  | H : _ && _ = true |- _ => apply andb_true_iff in H as [? ?]
  | H : _ || _ = false |- _ => apply orb_false_iff in H as [? ?]
  | H : negb _ = true |- _ => apply negb_true_iff in H
  | H : negb _ = false |- _ => apply negb_false_iff in H
  | H : bool_decide _ = true |- _ => apply bool_decide_eq_true in H
  | H : bool_decide _ = false |- _ => apply bool_decide_eq_false in H
  end.

(** Case on the scrutinee of the first [match] or [if] of the goal. *)
Ltac case_goal :=
  match goal with
  | |- context [match ?x with _ => _ end] =>
      lazymatch x with
      | context [match _ with _ => _ end] => fail
      | _ => destruct x eqn:?
      end
  end.

(** Case on the scrutinee of the first [match] or [if] of a hypothesis. *)
Ltac case_in H :=
  match type of H with
  | context [match ?x with _ => _ end] =>
      lazymatch x with
      | context [match _ with _ => _ end] => fail
      | _ => destruct x eqn:?
      end
  end.

(** Decide every [if] of [H] and discard the branches that contradict it. *)
Ltac branches H := repeat (case_in H; try discriminate H); simplify_eq.

Create HintDb awf discriminated.

(** ** Boolean equality from [EqDecision] *)

Definition eqb {A : Type} `{EqDecision A} (x y : A) : bool := bool_decide (x = y).

Lemma eqb_true {A : Type} `{EqDecision A} (x y : A) : eqb x y = true <-> x = y.
Proof. apply bool_decide_eq_true. Qed.

Lemma eqb_false {A : Type} `{EqDecision A} (x y : A) : eqb x y = false <-> x <> y.
Proof. apply bool_decide_eq_false. Qed.

Lemma eqb_refl {A : Type} `{EqDecision A} (x : A) : eqb x x = true.
Proof. by apply eqb_true. Qed.

(** Python's [x in (a, b, ...)] on a finite collection. *)
Definition mem {A : Type} `{EqDecision A} (x : A) (l : list A) : bool :=
  existsb (eqb x) l.

#[global] Arguments eqb : simpl never.
#[global] Arguments mem : simpl never.

Lemma mem_true {A : Type} `{EqDecision A} (x : A) (l : list A) :
  mem x l = true <-> x ∈ l.
Proof.
  unfold mem. rewrite existsb_exists, list_elem_of_In. split.
  - intros (y & Hy & He). rewrite eqb_true in He. by subst.
  - intros Hx. exists x. split; [done | apply eqb_refl].
Qed.

Lemma mem_false {A : Type} `{EqDecision A} (x : A) (l : list A) :
  mem x l = false <-> x ∉ l.
Proof. rewrite <- mem_true. destruct (mem x l); naive_solver. Qed.

(** ** Filtering with a boolean predicate *)

Lemma elem_of_bfilter {A : Type} (f : A -> bool) (l : list A) (x : A) :
  x ∈ List.filter f l <-> f x = true /\ x ∈ l.
Proof. rewrite !list_elem_of_In, filter_In. tauto. Qed.

Lemma bfilter_sublist {A : Type} (f : A -> bool) (l : list A) :
  sublist (List.filter f l) l.
Proof.
  induction l as [|a l IH]; simpl; [constructor|].
  destruct (f a); by constructor.
Qed.

Lemma NoDup_bfilter {A : Type} (f : A -> bool) (l : list A) :
  NoDup l -> NoDup (List.filter f l).
Proof. intros H. eapply sublist_NoDup; [exact H | apply bfilter_sublist]. Qed.

Lemma sublist_map {A B : Type} (f : A -> B) (l k : list A) :
  sublist l k -> sublist (map f l) (map f k).
Proof. induction 1; simpl; by constructor. Qed.

Lemma bfilter_twice {A : Type} (f g : A -> bool) (l : list A) :
  List.filter g (List.filter f l) = List.filter (fun x => f x && g x) l.
Proof. induction l as [|x l IH]; simpl; [done|]. destruct (f x); simpl; by rewrite IH. Qed.

Lemma bfilter_perm {A : Type} (f : A -> bool) (l k : list A) :
  l ≡ₚ k -> List.filter f l ≡ₚ List.filter f k.
Proof.
  induction 1 as [|x l k H IH|x y l|l k m _ IH1 _ IH2]; simpl; [done| | |by etrans].
  - destruct (f x); [by constructor|done].
  - destruct (f x), (f y); try done. apply perm_swap.
Qed.

Lemma bfilter_nil {A : Type} (f : A -> bool) (l : list A) :
  List.filter f l = [] <-> forall x, x ∈ l -> f x = false.
Proof.
  induction l as [|a l IH]; simpl.
  - split; [intros _ x Hx; by apply elem_of_nil in Hx | done].
  - destruct (f a) eqn:E; split; intros H.
    + discriminate.
    + specialize (H a (list_elem_of_here _ _)). congruence.
    + intros x [->|Hx]%elem_of_cons; [done | by apply IH].
    + apply IH. intros x Hx. apply H. by right.
Qed.

(** *** [any] and [all] *)

Lemma existsb_elem {A : Type} (f : A -> bool) (l : list A) :
  existsb f l = true <-> exists x, x ∈ l /\ f x = true.
Proof. rewrite existsb_exists. by setoid_rewrite <- list_elem_of_In. Qed.

Lemma existsb_none {A : Type} (f : A -> bool) (l : list A) :
  existsb f l = false <-> forall x, x ∈ l -> f x = false.
Proof.
  rewrite <- not_true_iff_false, existsb_elem. split.
  - intros H x Hx. apply not_true_iff_false. eauto.
  - intros H (x & Hx & Hf). by rewrite (H x Hx) in Hf.
Qed.

Lemma omap_nil {A B : Type} (f : A -> option B) (l : list A) :
  omap f l = [] <-> forall x, x ∈ l -> f x = None.
Proof.
  split.
  - intros H x Hx. destruct (f x) as [b|] eqn:E; [|done].
    assert (Hb : b ∈ omap f l) by (apply list_elem_of_omap; eauto). by rewrite H in Hb; apply elem_of_nil in Hb.
  - intros H. apply elem_of_nil_inv. intros b (x & Hx & E)%list_elem_of_omap. by rewrite H in E.
Qed.

Lemma forallb_elem {A : Type} (f : A -> bool) (l : list A) :
  forallb f l = true <-> forall x, x ∈ l -> f x = true.
Proof. rewrite forallb_forall. by setoid_rewrite <- list_elem_of_In. Qed.

Lemma forallb_not {A : Type} (f : A -> bool) (l : list A) :
  forallb f l = false <-> exists x, x ∈ l /\ f x = false.
Proof.
  induction l as [|a l IH]; simpl.
  - split; [done|]. by intros (x & Hx%elem_of_nil & _).
  - rewrite andb_false_iff, IH. setoid_rewrite elem_of_cons. naive_solver.
Qed.

(** A list computed pointwise by partial functions that agree is unique. *)
Lemma Forall2_Some_det {A B : Type} (P Q : A -> option B) (l : list A) (k k' : list B) :
  Forall2 (fun a b => P a = Some b) l k -> Forall2 (fun a b => Q a = Some b) l k' ->
  (forall a, a ∈ l -> P a = Q a) -> k = k'.
Proof.
  intros H. revert k'. induction H as [|a b l k Hab H IH]; intros k' H' He; inversion H'; subst.
  - done.
  - f_equal; [|apply IH; [done|]; intros x Hx; apply He; by right].
    specialize (He a (list_elem_of_here _ _)). congruence.
Qed.

(** ** [dict.fromkeys]: the distinct elements in first-occurrence order *)

Fixpoint fromkeys {A : Type} `{EqDecision A} (l : list A) : list A :=
  match l with
  | [] => []
  | x :: l' => x :: List.filter (fun y => negb (eqb x y)) (fromkeys l')
  end.

Lemma elem_of_fromkeys {A : Type} `{EqDecision A} (l : list A) (x : A) :
  x ∈ fromkeys l <-> x ∈ l.
Proof.
  induction l as [|a l IH]; simpl; [done|].
  rewrite !elem_of_cons, elem_of_bfilter, IH, negb_true_iff, eqb_false.
  destruct (decide (a = x)); naive_solver.
Qed.

Lemma NoDup_fromkeys {A : Type} `{EqDecision A} (l : list A) : NoDup (fromkeys l).
Proof.
  induction l as [|a l IH]; simpl; [constructor|]. constructor.
  - rewrite elem_of_bfilter, eqb_refl. naive_solver.
  - by apply NoDup_bfilter.
Qed.

Lemma bfilter_id {A : Type} (f : A -> bool) (l : list A) :
  (forall x, x ∈ l -> f x = true) -> List.filter f l = l.
Proof.
  induction l as [|a l IH]; intros H; simpl; [done|].
  rewrite (H a (list_elem_of_here _ _)). f_equal. apply IH.
  intros x Hx. apply H. by right.
Qed.

Lemma fromkeys_NoDup_id {A : Type} `{EqDecision A} (l : list A) :
  NoDup l -> fromkeys l = l.
Proof.
  induction 1 as [|a l Ha Hl IH]; simpl; [done|]. rewrite IH. f_equal.
  apply bfilter_id. intros x Hx. apply negb_true_iff, eqb_false. by intros ->.
Qed.

#[export] Hint Resolve NoDup_fromkeys : awf.

(** ** Python's [sorted]: a stable sort by a boolean order on keys *)

Section Sorting.
Context {A : Type} (leb : A -> A -> bool).

Fixpoint insert_sorted (x : A) (l : list A) : list A :=
  match l with
  | [] => [x]
  | y :: l' => if leb x y then x :: y :: l' else y :: insert_sorted x l'
  end.

(** Inserting from the right keeps equal keys in their original order. *)
Definition sorted_by (l : list A) : list A := foldr insert_sorted [] l.

Lemma insert_sorted_perm (x : A) (l : list A) : insert_sorted x l ≡ₚ x :: l.
Proof.
  induction l as [|y l IH]; simpl; [done|].
  destruct (leb x y); [done|]. rewrite IH. by apply Permutation_swap.
Qed.

Lemma sorted_by_perm (l : list A) : sorted_by l ≡ₚ l.
Proof. induction l as [|x l IH]; simpl; [done|]. by rewrite insert_sorted_perm, IH. Qed.

Lemma elem_of_sorted_by (l : list A) (x : A) : x ∈ sorted_by l <-> x ∈ l.
Proof. by rewrite (sorted_by_perm l). Qed.

Lemma NoDup_sorted_by (l : list A) : NoDup l -> NoDup (sorted_by l).
Proof. by rewrite (sorted_by_perm l). Qed.

Context (leb_total : forall x y, leb x y = true \/ leb y x = true).
Context (leb_trans : forall x y z, leb x y = true -> leb y z = true -> leb x z = true).

Let R (x y : A) : Prop := leb x y = true.

Lemma insert_sorted_sorted (x : A) (l : list A) :
  StronglySorted R l -> StronglySorted R (insert_sorted x l).
Proof.
  induction 1 as [|y l Hl IH Hy]; simpl; [by repeat constructor|].
  destruct (leb x y) eqn:E.
  - constructor; [by constructor|]. constructor; [done|].
    eapply Forall_impl; [exact Hy|]. intros z Hz. by eapply leb_trans.
  - constructor; [done|]. rewrite insert_sorted_perm. constructor; [|done].
    destruct (leb_total x y) as [H'|H']; [congruence|done].
Qed.

Lemma sorted_by_sorted (l : list A) : StronglySorted R (sorted_by l).
Proof. induction l; simpl; [constructor | by apply insert_sorted_sorted]. Qed.

(** The sort of a permuted input is the same list when the order is
    antisymmetric on the elements: the result does not depend on the order
    in which the elements were presented. *)
Lemma sorted_by_canonical (l l' : list A) :
  (forall x y, x ∈ l -> y ∈ l -> leb x y = true -> leb y x = true -> x = y) ->
  l ≡ₚ l' -> sorted_by l = sorted_by l'.
Proof.
  intros Ha Hp. apply (StronglySorted_unique_strong R).
  - intros x y. rewrite !elem_of_sorted_by, <- Hp. apply Ha.
  - apply sorted_by_sorted.
  - apply sorted_by_sorted.
  - by rewrite !sorted_by_perm.
Qed.
(** Sorting a sorted list, or a part of one, changes nothing. *)
Lemma sorted_by_id (l : list A) : StronglySorted R l -> sorted_by l = l.
Proof.
  induction 1 as [|x l Hl IH Hx]; simpl; [done|]. rewrite IH. destruct l as [|y l]; [done|].
  simpl. by rewrite (Forall_inv Hx).
Qed.

Lemma sorted_by_sublist (l l' : list A) :
  StronglySorted R l' -> l `sublist_of` l' -> StronglySorted R l.
Proof.
  intros Hs. revert l. induction Hs as [|x l' Hl IH Hx]; intros l Hsub.
  - apply sublist_nil_r in Hsub as ->. constructor.
  - apply sublist_cons_r in Hsub as [Hsub|(k & -> & Hsub)]; [by apply IH|].
    constructor; [by apply IH|]. apply Forall_forall. intros y Hy.
    apply (proj1 (Forall_forall _ _) Hx). by apply (sublist_subseteq k l').
Qed.

Lemma sorted_by_filter (p : A -> bool) (l : list A) :
  (forall x y, x ∈ l -> y ∈ l -> leb x y = true -> leb y x = true -> x = y) ->
  sorted_by (List.filter p l) = List.filter p (sorted_by l).
Proof.
  intros Ha.
  rewrite <- (sorted_by_id (List.filter p (sorted_by l)))
    by (apply (sorted_by_sublist _ (sorted_by l)); auto using sorted_by_sorted, bfilter_sublist).
  apply sorted_by_canonical.
  - intros x y Hx Hy. apply elem_of_bfilter in Hx as [_ Hx], Hy as [_ Hy]. by apply Ha.
  - symmetry. apply bfilter_perm, sorted_by_perm.
Qed.
End Sorting.

(** ** Grouping: [groups.setdefault(key, []).append(x)] over a list *)

Section Grouping.
Context {K A : Type} `{Countable K} (key : A -> K).

Definition add_to_group (m : gmap K (list A)) (x : A) : gmap K (list A) :=
  <[key x := default [] (m !! key x) ++ [x]]> m.

Definition group_by (l : list A) : gmap K (list A) := fold_left add_to_group l ∅.

(** A group holds the elements of its key, in their original order. *)
Lemma group_by_from (l : list A) (m : gmap K (list A)) (k : K) :
  default [] (fold_left add_to_group l m !! k)
  = default [] (m !! k) ++ List.filter (fun x => eqb (key x) k) l.
Proof.
  revert m. induction l as [|x l IH]; intros m; simpl; [by rewrite app_nil_r|].
  rewrite IH. unfold add_to_group. destruct (decide (key x = k)) as [<-|Hne].
  - rewrite lookup_insert_eq, eqb_refl. simpl. by rewrite <- app_assoc.
  - rewrite lookup_insert_ne by done. by rewrite (proj2 (eqb_false _ _) Hne).
Qed.

Lemma group_by_lookup (l : list A) (k : K) :
  default [] (group_by l !! k) = List.filter (fun x => eqb (key x) k) l.
Proof. unfold group_by. by rewrite group_by_from, lookup_empty. Qed.

Lemma group_by_dom (l : list A) (k : K) :
  is_Some (group_by l !! k) <-> exists x, x ∈ l /\ key x = k.
Proof.
  assert (Hgen : forall m, is_Some (fold_left add_to_group l m !! k) <->
                           is_Some (m !! k) \/ exists x, x ∈ l /\ key x = k).
  { induction l as [|x l IH]; intros m; simpl.
    - split; [by left|]. intros [Hm|(x & Hx & _)]; [done|by apply elem_of_nil in Hx].
    - rewrite IH. unfold add_to_group. setoid_rewrite elem_of_cons.
      destruct (decide (key x = k)) as [Hk|Hne].
      + rewrite <- Hk, lookup_insert_eq. split; [|by left; eexists]. intros _. right. eauto.
      + rewrite lookup_insert_ne by done. naive_solver. }
  unfold group_by. rewrite Hgen, lookup_empty. split; [|by right].
  intros [[? [=]]|Hx]; done.
Qed.
End Grouping.
