(* ===== verification/PyStr.v ===== *)
(** * Python strings and integers in text

    A Python [str] is a [string] whose characters are the code points U+0000 to
    U+00FF; code points above that range are outside the model.  The functions
    below are the [str] methods, [int(...)] and [str(int)] that the modelled
    code calls, with Python's conventions at the edges (empty separators,
    trailing line breaks, underscores between digits). *)

From S2P Require Import Prelude.
#[local] Open Scope Z_scope.

#[global] Arguments String.append !_ _ / : simpl nomatch.

Definition code (c : ascii) : Z := Z.of_N (Ascii.N_of_ascii c).
Definition char (n : Z) : ascii := Ascii.ascii_of_N (Z.to_N n).

(** [str.isspace] on one Latin-1 code point. *)
Definition is_space (c : ascii) : bool :=
  ((9 <=? code c) && (code c <=? 13)) || ((28 <=? code c) && (code c <=? 32))
  || (code c =? 133) || (code c =? 160).

Definition is_digit (c : ascii) : bool := (48 <=? code c) && (code c <=? 57).

(** [str.lower] and [str.upper] on one Latin-1 code point. *)
Definition lower_char (c : ascii) : ascii :=
  if ((65 <=? code c) && (code c <=? 90))
     || ((192 <=? code c) && (code c <=? 222) && negb (code c =? 215))
  then char (code c + 32) else c.

Definition upper_char (c : ascii) : string :=
  if code c =? 223 then "SS"
  else if ((97 <=? code c) && (code c <=? 122))
          || ((224 <=? code c) && (code c <=? 254) && negb (code c =? 247))
  then String (char (code c - 32)) "" else String c "".

Fixpoint lower (s : string) : string :=
  match s with "" => "" | String c s' => String (lower_char c) (lower s') end.

Fixpoint upper (s : string) : string :=
  match s with "" => "" | String c s' => upper_char c +:+ upper s' end.

(** ** Stripping *)

Fixpoint lstrip (s : string) : string :=
  match s with
  | "" => ""
  | String c s' => if is_space c then lstrip s' else s
  end.

Fixpoint rstrip_by (p : ascii -> bool) (s : string) : string :=
  match s with
  | "" => ""
  | String c s' =>
      match rstrip_by p s' with
      | "" => if p c then "" else String c ""
      | t => String c t
      end
  end.

Definition rstrip (s : string) : string := rstrip_by is_space s.
Definition strip (s : string) : string := rstrip (lstrip s).

(** ** Prefixes, suffixes, substrings *)

Fixpoint starts_with (p s : string) : bool :=
  match p, s with
  | "", _ => true
  | String a p', String b s' => Ascii.eqb a b && starts_with p' s'
  | _, "" => false
  end.

Fixpoint drop_str (n : nat) (s : string) : string :=
  match n, s with
  | S n', String _ s' => drop_str n' s'
  | _, _ => s
  end.

Fixpoint take_str (n : nat) (s : string) : string :=
  match n, s with
  | S n', String c s' => String c (take_str n' s')
  | _, _ => ""
  end.

Definition str_len (s : string) : nat := String.length s.

Definition ends_with (p s : string) : bool :=
  (str_len p <=? str_len s)%nat && String.eqb (drop_str (str_len s - str_len p) s) p.

(** [removeprefix] *)
Definition remove_prefix (p s : string) : string :=
  if starts_with p s then drop_str (str_len p) s else s.

(** [sub in s] *)
Fixpoint contains (sub s : string) : bool :=
  starts_with sub s || match s with "" => false | String _ s' => contains sub s' end.

(** [s.find(c)] for one character: the index of the first occurrence. *)
Fixpoint find_char (c : ascii) (s : string) : option nat :=
  match s with
  | "" => None
  | String a s' => if Ascii.eqb a c then Some O else S <$> find_char c s'
  end.

(** [s.replace(old, new)] for a non-empty [old]: [skip] counts the characters
    of the occurrence being consumed. *)
Fixpoint replace_go (old new : string) (skip : nat) (s : string) : string :=
  match s with
  | "" => ""
  | String c s' =>
      match skip with
      | S k => replace_go old new k s'
      | O => if starts_with old s
             then new +:+ replace_go old new (str_len old - 1) s'
             else String c (replace_go old new O s')
      end
  end.

Definition replace (old new s : string) : string := replace_go old new O s.

(** [s.replace(old, new, 1)] *)
Fixpoint replace_first (old new s : string) : string :=
  if starts_with old s then new +:+ drop_str (str_len old) s
  else match s with "" => "" | String c s' => String c (replace_first old new s') end.

Fixpoint map_char (f : ascii -> ascii) (s : string) : string :=
  match s with "" => "" | String c s' => String (f c) (map_char f s') end.

Definition backslash : ascii := char 92.
Definition slash : ascii := char 47.
Definition quote : ascii := char 34.

(** [s.replace("\\", "/")] *)
Definition backslash_to_slash (s : string) : string :=
  map_char (fun c => if Ascii.eqb c backslash then slash else c) s.

(** ** Splitting and joining *)

(** [s.split(sep)] for a one-character separator: never the empty list. *)
Fixpoint split_on (sep : ascii) (s : string) : list string :=
  match s with
  | "" => [""]
  | String c s' =>
      if Ascii.eqb c sep then "" :: split_on sep s'
      else match split_on sep s' with
           | [] => [String c ""]
           | w :: ws => String c w :: ws
           end
  end.

Fixpoint join (sep : string) (l : list string) : string :=
  match l with
  | [] => ""
  | [w] => w
  | w :: l' => w +:+ sep +:+ join sep l'
  end.

Definition is_linebreak (c : ascii) : bool :=
  ((10 <=? code c) && (code c <=? 13)) || ((28 <=? code c) && (code c <=? 30))
  || (code c =? 133).

(** [s.splitlines()]: a carriage return followed by a line feed is one break,
    and a trailing break opens no further line. *)
Fixpoint splitlines (s : string) : list string :=
  match s with
  | "" => []
  | String c s' =>
      if is_linebreak c then
        match s' with
        | String d s'' =>
            if (code c =? 13) && (code d =? 10) then "" :: splitlines s''
            else "" :: splitlines s'
        | "" => [""]
        end
      else match splitlines s' with
           | [] => [String c ""]
           | l :: ls => String c l :: ls
           end
  end.

(** [s.rpartition(c)]: the text before and after the last [c], when there is one. *)
Definition rpartition (c : ascii) (s : string) : option (string * string) :=
  match rev (split_on c s) with
  | last :: a :: before => Some (join (String c "") (rev (a :: before)), last)
  | _ => None
  end.

(** [s.split()]: the words between whitespace. *)
Fixpoint words (s : string) : list string :=
  match s with
  | "" => []
  | String c s' =>
      if is_space c then words s'
      else match s' with
           | "" => [String c ""]
           | String d _ =>
               if is_space d then String c "" :: words s'
               else match words s' with
                    | w :: ws => String c w :: ws
                    | [] => [String c ""]
                    end
           end
  end.

(** [s.split(sep, maxsplit=1)[1]] when [sep in s] *)
Fixpoint after_first (sep s : string) : option string :=
  if starts_with sep s then Some (drop_str (str_len sep) s)
  else match s with "" => None | String _ s' => after_first sep s' end.

(** ** Integers in text *)

(** The digits of [int(text)]: single underscores are allowed between digits;
    [gap] says that a digit must follow. *)
Fixpoint int_digits (acc : Z) (gap : bool) (s : string) : option Z :=
  match s with
  | "" => if gap then None else Some acc
  | String c s' =>
      if is_digit c then int_digits (10 * acc + (code c - 48)) false s'
      else if (code c =? 95) && negb gap then int_digits acc true s'
      else None
  end.

(** [int(text)]; [None] is the ValueError. *)
Definition py_int (s : string) : option Z :=
  match strip s with
  | String c s' =>
      if code c =? 45 then Z.opp <$> int_digits 0 true s'
      else if code c =? 43 then int_digits 0 true s'
      else int_digits 0 true (String c s')
  | "" => None
  end.

(** [str(n)] *)
Definition py_str (n : Z) : string := pretty n.

(** [sorted(...)] and tuple comparison use code-point order. *)
Definition str_leb (x y : string) : bool :=
  match String.compare x y with Gt => false | _ => true end.

Definition str_ltb (x y : string) : bool := negb (str_leb y x).

(** ** Lemmas *)

Lemma starts_with_spec (p s : string) :
  starts_with p s = true <-> exists r, s = p +:+ r.
Proof.
  revert s. induction p as [|a p IH]; intros s; simpl.
  - split; [intros _; by exists s | done].
  - destruct s as [|b s]; [split; [done | intros [r [=]]]|].
    rewrite andb_true_iff, Ascii.eqb_eq, IH. split.
    + intros [-> [r ->]]. by exists r.
    + intros [r [= -> ->]]. eauto.
Qed.

Lemma starts_with_app (p r : string) : starts_with p (p +:+ r) = true.
Proof. apply starts_with_spec. eauto. Qed.

Lemma str_app_assoc (x y z : string) : (x +:+ y) +:+ z = x +:+ (y +:+ z).
Proof. induction x as [|c x IH]; [done|]. simpl. by f_equal. Qed.

Lemma str_app_nil_r (x : string) : x +:+ "" = x.
Proof. induction x as [|c x IH]; [done|]. simpl. by f_equal. Qed.

Lemma str_len_app (x y : string) : str_len (x +:+ y) = (str_len x + str_len y)%nat.
Proof. unfold str_len. induction x as [|c x IH]; [done|]. simpl. by f_equal. Qed.

Lemma str_app_inj_l (p x y : string) : p +:+ x = p +:+ y -> x = y.
Proof. induction p as [|c p IH]; simpl; [done | intros [=]; auto]. Qed.

(** Two prefixes of one string are comparable. *)
Lemma prefixes_comparable (p q s : string) :
  starts_with p s = true -> starts_with q s = true ->
  starts_with p q = true \/ starts_with q p = true.
Proof.
  revert q s. induction p as [|a p IH]; intros [|b q] s; simpl; auto.
  destruct s as [|c s]; [done|]. rewrite !andb_true_iff, !Ascii.eqb_eq.
  intros [-> Hp] [-> Hq]. destruct (IH q s Hp Hq); auto.
Qed.

Lemma starts_with_trans (p q s : string) :
  starts_with p q = true -> starts_with q s = true -> starts_with p s = true.
Proof.
  rewrite !starts_with_spec. intros [r ->] [r' ->]. exists (r +:+ r').
  apply str_app_assoc.
Qed.

Lemma starts_with_refl (s : string) : starts_with s s = true.
Proof. rewrite starts_with_spec. exists "". by rewrite str_app_nil_r. Qed.

Lemma drop_str_app (p s : string) : drop_str (str_len p) (p +:+ s) = s.
Proof. unfold str_len. induction p as [|c p IH]; simpl; [by destruct s | done]. Qed.

Lemma split_on_nonempty (c : ascii) (s : string) : split_on c s <> [].
Proof.
  destruct s as [|a s]; simpl; [done|]. destruct (Ascii.eqb a c); [done|].
  by destruct (split_on c s).
Qed.

(** Joining what [split] returned gives the text back. *)
Lemma join_split (c : ascii) (s : string) : join (String c "") (split_on c s) = s.
Proof.
  induction s as [|a s IH]; simpl; [done|].
  pose proof (split_on_nonempty c s) as Hne.
  destruct (Ascii.eqb_spec a c) as [->|Hac].
  - destruct (split_on c s) as [|w ws]; [done|]. simpl. f_equal. exact IH.
  - destruct (split_on c s) as [|w ws]; [done|].
    destruct ws; simpl in *; by rewrite <- IH.
Qed.

(** The character [c] occurs in [s]. *)
Fixpoint has_char (c : ascii) (s : string) : bool :=
  match s with "" => false | String a s' => Ascii.eqb a c || has_char c s' end.

Lemma split_on_no_sep (c : ascii) (s w : string) :
  w ∈ split_on c s -> has_char c w = false.
Proof.
  revert w. induction s as [|a s IH]; intros w; simpl.
  - by intros ->%list_elem_of_singleton.
  - destruct (Ascii.eqb a c) eqn:E.
    + intros [->|Hw]%elem_of_cons; [done | by apply IH].
    + pose proof (split_on_nonempty c s). destruct (split_on c s) as [|v vs]; [done|].
      intros [->|Hw]%elem_of_cons; simpl.
      * rewrite E. simpl. apply IH. by left.
      * apply IH. by right.
Qed.

Lemma split_on_word (c : ascii) (w : string) :
  has_char c w = false -> split_on c w = [w].
Proof.
  induction w as [|a w IH]; simpl; [done|]. rewrite orb_false_iff.
  intros [-> Hw]. by rewrite IH.
Qed.

Lemma split_on_app (c : ascii) (w s : string) :
  has_char c w = false -> split_on c (w +:+ String c s) = w :: split_on c s.
Proof.
  induction w as [|a w IH]; simpl.
  - by rewrite Ascii.eqb_refl.
  - rewrite orb_false_iff. intros [-> Hw]. by rewrite IH.
Qed.

(** Splitting what [join] built from separator-free words gives them back. *)
Lemma split_join (c : ascii) (l : list string) :
  l <> [] -> (forall w, w ∈ l -> has_char c w = false) ->
  split_on c (join (String c "") l) = l.
Proof.
  induction l as [|w l IH]; [done|]. intros _ Hl.
  destruct l as [|v l].
  - apply split_on_word, Hl. by left.
  - change (split_on c (w +:+ String c (join (String c "") (v :: l))) = w :: v :: l).
    rewrite split_on_app by (apply Hl; by left). f_equal. apply IH; [done|].
    intros u Hu. apply Hl. by right.
Qed.

Lemma split_on_sep (c : ascii) (a b : string) :
  split_on c (a +:+ String c b) = split_on c a ++ split_on c b.
Proof.
  induction a as [|x a IH]; simpl.
  - rewrite Ascii.eqb_refl. done.
  - destruct (Ascii.eqb x c); rewrite IH; [done|].
    pose proof (split_on_nonempty c a). by destruct (split_on c a).
Qed.

Lemma rpartition_last (c : ascii) (a b : string) :
  has_char c b = false -> rpartition c (a +:+ String c b) = Some (a, b).
Proof.
  intros Hb. unfold rpartition. rewrite split_on_sep, (split_on_word c b) by done.
  rewrite rev_app_distr. pose proof (join_split c a) as Ha. pose proof (split_on_nonempty c a) as Hn.
  cbn [rev app]. destruct (rev (split_on c a)) as [|x l] eqn:E.
  - destruct Hn. by apply (f_equal (@rev string)) in E; rewrite rev_involutive in E.
  - f_equal. f_equal. rewrite <- Ha. f_equal.
    by apply (f_equal (@rev string)) in E; rewrite rev_involutive in E.
Qed.

(** *** Order on strings *)

Lemma str_leb_total (x y : string) : str_leb x y = true \/ str_leb y x = true.
Proof.
  unfold str_leb. rewrite (String.compare_antisym x y).
  destruct (String.compare y x); simpl; auto.
Qed.

Lemma str_leb_antisym (x y : string) : str_leb x y = true -> str_leb y x = true -> x = y.
Proof.
  unfold str_leb. rewrite (String.compare_antisym x y).
  destruct (String.compare y x) eqn:E; simpl; try done.
  intros _ _. symmetry. by apply String.compare_eq_iff.
Qed.

Lemma str_leb_trans (x y z : string) :
  str_leb x y = true -> str_leb y z = true -> str_leb x z = true.
Proof.
  unfold str_leb. revert y z.
  induction x as [|a x IH]; intros [|b y] [|c z]; simpl; try done.
  unfold Ascii.compare.
  destruct (N.compare_spec (Ascii.N_of_ascii a) (Ascii.N_of_ascii b));
  destruct (N.compare_spec (Ascii.N_of_ascii b) (Ascii.N_of_ascii c));
  destruct (N.compare_spec (Ascii.N_of_ascii a) (Ascii.N_of_ascii c));
  intros; try done; try (exfalso; lia); eauto.
Qed.

Lemma str_ltb_leb (x y : string) : str_ltb x y = true <-> str_leb x y = true /\ x <> y.
Proof.
  unfold str_ltb. rewrite negb_true_iff. split.
  - intros H. split; [destruct (str_leb_total x y); congruence|].
    intros ->. destruct (str_leb_total y y); congruence.
  - intros [H Hne]. apply not_true_iff_false. intros H'. by apply Hne, str_leb_antisym.
Qed.

(** *** [int(str(n)) = n] *)

Fixpoint all_chars (p : ascii -> bool) (s : string) : bool :=
  match s with "" => true | String c s' => p c && all_chars p s' end.

Lemma all_chars_impl (p q : ascii -> bool) (s : string) :
  (forall c, p c = true -> q c = true) -> all_chars p s = true -> all_chars q s = true.
Proof.
  intros H. induction s as [|c s IH]; simpl; [done|].
  rewrite !andb_true_iff. naive_solver.
Qed.

Lemma all_chars_app (p : ascii -> bool) (s t : string) :
  all_chars p (s +:+ t) = all_chars p s && all_chars p t.
Proof. induction s as [|c s IH]; simpl; [done|]. by rewrite IH, andb_assoc. Qed.

Lemma rstrip_by_id (p : ascii -> bool) (s : string) :
  all_chars (fun c => negb (p c)) s = true -> rstrip_by p s = s.
Proof.
  induction s as [|c s IH]; simpl; [done|]. rewrite andb_true_iff, negb_true_iff.
  intros [Hc Hs]. rewrite (IH Hs), Hc. by destruct s.
Qed.

Lemma strip_id (s : string) :
  all_chars (fun c => negb (is_space c)) s = true -> strip s = s.
Proof.
  intros H. unfold strip, rstrip. rewrite rstrip_by_id; destruct s as [|c s]; simpl in *;
    try done; apply andb_true_iff in H as [Hc Hs]; apply negb_true_iff in Hc;
    rewrite Hc; simpl; [done|]. by rewrite Hc, Hs.
Qed.

Lemma rstrip_by_twice (p : ascii -> bool) (s : string) :
  rstrip_by p (rstrip_by p s) = rstrip_by p s.
Proof.
  induction s as [|c s IH]; simpl; [done|].
  destruct (rstrip_by p s) as [|d t] eqn:E.
  - destruct (p c) eqn:Ec; simpl; [done|]. by rewrite Ec.
  - cbn [rstrip_by] in *. by rewrite IH.
Qed.

Lemma lstrip_head (s : string) :
  match lstrip s with "" => True | String c _ => is_space c = false end.
Proof. induction s as [|c s IH]; simpl; [done|]. by destruct (is_space c) eqn:E. Qed.

Lemma strip_twice (s : string) : strip (strip s) = strip s.
Proof.
  unfold strip, rstrip. pose proof (lstrip_head s) as H.
  destruct (lstrip s) as [|c t]; [done|].
  assert (E : lstrip (rstrip_by is_space (String c t)) = rstrip_by is_space (String c t)).
  { simpl. destruct (rstrip_by is_space t); simpl; rewrite H; simpl; by rewrite ?H. }
  by rewrite E, rstrip_by_twice.
Qed.

Lemma is_digit_not_space (c : ascii) : is_digit c = true -> negb (is_space c) = true.
Proof.
  unfold is_digit, is_space. rewrite andb_true_iff, negb_true_iff, !orb_false_iff,
    !andb_false_iff, !Z.leb_le, !Z.leb_gt, !Z.eqb_neq. lia.
Qed.

Lemma pretty_char_digit (d : N) :
  (d < 10)%N -> is_digit (pretty_N_char d) = true /\ code (pretty_N_char d) - 48 = Z.of_N d.
Proof.
  intros Hd. assert (exists n, (n < 10)%nat /\ d = N.of_nat n) as (n & Hn & ->).
  { exists (N.to_nat d). lia. }
  do 10 (destruct n as [|n]; [done|]). lia.
Qed.

Lemma pretty_go_digits (x : N) (s : string) :
  all_chars is_digit s = true -> all_chars is_digit (pretty_N_go x s) = true.
Proof.
  revert s. induction (N.lt_wf_0 x) as [x _ IH]; intros s Hs.
  destruct (N.eq_0_gt_0_cases x) as [->|Hx]; [done|].
  rewrite pretty_N_go_step by done. apply IH; [by apply N.div_lt|]. simpl.
  destruct (pretty_char_digit (x mod 10)) as [-> _]; [by apply N.mod_lt | done].
Qed.

Lemma int_digits_pretty_go (x : N) (s : string) (gap : bool) :
  int_digits 0 gap (pretty_N_go x s)
  = int_digits (Z.of_N x) (if decide (x = 0%N) then gap else false) s.
Proof.
  revert s. induction (N.lt_wf_0 x) as [x _ IH]; intros s.
  destruct (N.eq_0_gt_0_cases x) as [->|Hx]; [done|].
  rewrite pretty_N_go_step by done. rewrite IH by (by apply N.div_lt). simpl.
  destruct (pretty_char_digit (x mod 10)) as [-> ->]; [by apply N.mod_lt|].
  rewrite (decide_False (P := x = 0%N)) by lia. f_equal.
  rewrite N2Z.inj_mod, N2Z.inj_div. change (Z.of_N 10) with 10.
  rewrite <- Z.div_mod by lia. done.
Qed.

Lemma pretty_pos_int (p : positive) :
  int_digits 0 true (pretty p) = Some (Z.pos p) /\ all_chars is_digit (pretty p) = true
  /\ pretty p <> "".
Proof.
  change (pretty p) with (pretty_N_go (N.pos p) ""). split_and!.
  - rewrite int_digits_pretty_go. done.
  - by apply pretty_go_digits.
  - intros H. pose proof (int_digits_pretty_go (N.pos p) "" true) as He.
    rewrite H in He. done.
Qed.

(** Printing an integer and reading it back is the identity. *)
Lemma py_int_str (n : Z) : py_int (py_str n) = Some n.
Proof.
  unfold py_int, py_str. destruct n as [|p|p]; [done| |].
  - change (pretty (Z.pos p)) with (pretty p).
    destruct (pretty_pos_int p) as (Hv & Hd & Hne). rewrite strip_id.
    2:{ eapply all_chars_impl; [apply is_digit_not_space | exact Hd]. }
    destruct (pretty p) as [|c s]; [done|]. simpl in Hd.
    apply andb_true_iff in Hd as [Hc _]. unfold is_digit in Hc.
    apply andb_true_iff in Hc as [H1 H2]. apply Z.leb_le in H1, H2.
    rewrite (proj2 (Z.eqb_neq (code c) 45)), (proj2 (Z.eqb_neq (code c) 43)) by lia. done.
  - change (pretty (Z.neg p)) with (String "-" (pretty p)).
    destruct (pretty_pos_int p) as (Hv & Hd & Hne). rewrite strip_id.
    2:{ simpl. eapply all_chars_impl; [apply is_digit_not_space | exact Hd]. }
    simpl. rewrite Hv. done.
Qed.

Lemma py_str_inj (n m : Z) : py_str n = py_str m -> n = m.
Proof. apply (inj pretty). Qed.

#[export] Hint Resolve str_leb_total str_leb_antisym str_leb_trans : awf.
