(* ===== verification/PyPath.v ===== *)
(** * POSIX paths of [pathlib]

    A path is its [parts]; nothing here touches a file system. *)

From S2P Require Import Prelude PyStr.

(** [Path.parts]: the first part of an absolute path is ["/"]. *)
Abbreviation path := (list string).

Definition parts_of (s : string) : path :=
  List.filter (fun p => negb (mem p [""; "."])) (split_on slash s).

(** [Path(s)] and [base / s] *)
Definition Path (s : string) : path :=
  if starts_with "/" s then "/" :: parts_of s else parts_of s.
Definition div (base : path) (s : string) : path :=
  if starts_with "/" s then Path s else base ++ Path s.

(** [.parent] and [.name]; the root and the empty path are their own parents. *)
Definition parent (p : path) : path :=
  match p with
  | [] => []
  | [x] => if eqb x "/" then p else []
  | _ => removelast p
  end.
Definition path_name (p : path) : string :=
  match last p with Some x => if eqb x "/" then "" else x | None => "" end.

(** [p.relative_to(root)] does not raise. *)
Definition is_relative_to (p root : path) : bool := eqb (take (length root) p) root.

(** [PurePosixPath(s).name] *)
Definition posix_name (s : string) : string := path_name (Path s).
