(* ===== verification/PyTime.v ===== *)
(** * Python datetimes

    A [datetime] is its local clock reading in microseconds since
    0001-01-01T00:00:00 and, when aware, its UTC offset in microseconds.  Time
    zones with a varying offset are represented by the offset in force. *)

From S2P Require Import Prelude PyStr.
#[local] Open Scope Z_scope.

Record datetime := Datetime {
  dt_us : Z;
  dt_offset : option Z;
}.

#[export] Instance datetime_eq_dec : EqDecision datetime.
Proof. solve_decision. Defined.

Definition us_per_second : Z := 1000000.

(** [value.replace(tzinfo=UTC)] *)
Definition replace_tzinfo_utc (d : datetime) : datetime :=
  {| dt_us := dt_us d; dt_offset := Some 0 |}.

(** [value.astimezone(UTC)] of an aware value. *)
Definition astimezone_utc (us off : Z) : datetime :=
  {| dt_us := us - off; dt_offset := Some 0 |}.

(** The instant an aware datetime denotes. *)
Definition instant (d : datetime) : Z := dt_us d - default 0 (dt_offset d).

(** ** [isoformat] *)

Definition days_in_month (leap : bool) (m : Z) : Z :=
  if m =? 2 then (if leap then 29 else 28)
  else if mem m [4; 6; 9; 11] then 30 else 31.

(** The month and day of a 0-based day of the year. *)
Fixpoint month_day (fuel : nat) (leap : bool) (m d : Z) : Z * Z :=
  match fuel with
  | O => (m, d + 1)
  | S f =>
      if d <? days_in_month leap m then (m, d + 1)
      else month_day f leap (m + 1) (d - days_in_month leap m)
  end.

(** Year, month and day of a 0-based proleptic Gregorian ordinal. *)
Definition civil (days : Z) : Z * Z * Z :=
  let n400 := days / 146097 in
  let r400 := days mod 146097 in
  let n100 := Z.min 3 (r400 / 36524) in
  let r100 := r400 - n100 * 36524 in
  let n4 := r100 / 1461 in
  let r4 := r100 mod 1461 in
  let n1 := Z.min 3 (r4 / 365) in
  let day := r4 - n1 * 365 in
  let year := n400 * 400 + n100 * 100 + n4 * 4 + n1 + 1 in
  let leap := (year mod 4 =? 0) && (negb (year mod 100 =? 0) || (year mod 400 =? 0)) in
  let '(m, d) := month_day 11 leap 1 day in
  (year, m, d).

(** [%0<width>d] of a non-negative number. *)
Definition zero_pad (width : nat) (n : Z) : string :=
  let s := py_str n in
  String.concat "" (replicate (width - str_len s) "0") +:+ s.

Definition iso_time (us : Z) : string :=
  let secs := us / us_per_second in
  let frac := us mod us_per_second in
  zero_pad 2 (secs / 3600) +:+ ":" +:+ zero_pad 2 (secs / 60 mod 60) +:+ ":"
  +:+ zero_pad 2 (secs mod 60)
  +:+ (if frac =? 0 then "" else "." +:+ zero_pad 6 frac).

Definition iso_offset (off : Z) : string :=
  let a := Z.abs off in
  let secs := a / us_per_second in
  let frac := a mod us_per_second in
  (if off <? 0 then "-" else "+") +:+ zero_pad 2 (secs / 3600) +:+ ":"
  +:+ zero_pad 2 (secs / 60 mod 60)
  +:+ (if (secs mod 60 =? 0) && (frac =? 0) then ""
       else ":" +:+ zero_pad 2 (secs mod 60)
            +:+ (if frac =? 0 then "" else "." +:+ zero_pad 6 frac)).

Definition isoformat (d : datetime) : string :=
  let day := 86400 * us_per_second in
  let '(y, m, dd) := civil (dt_us d / day) in
  zero_pad 4 y +:+ "-" +:+ zero_pad 2 m +:+ "-" +:+ zero_pad 2 dd +:+ "T"
  +:+ iso_time (dt_us d mod day)
  +:+ match dt_offset d with None => "" | Some off => iso_offset off end.

Example isoformat_epoch :
  isoformat {| dt_us := 719162 * 86400 * 1000000; dt_offset := Some 0 |}
  = "1970-01-01T00:00:00+00:00".
Proof. vm_compute. reflexivity. Qed.

Example isoformat_leap_day :
  isoformat {| dt_us := (738944 * 86400 + 12 * 3600 + 34 * 60 + 56) * 1000000 + 7;
               dt_offset := None |}
  = "2024-02-29T12:34:56.000007".
Proof. vm_compute. reflexivity. Qed.
