(* ===== verification/PyFloat.v ===== *)
(** * Python floats

    A Python [float] is an IEEE binary64 number: a [spec_float] of the Standard
    Library at precision 53 and exponent range 1024, with its correctly rounded
    operations.  [float(str)], [str.format] with [.6f] and the conversions from
    integers are written over exact integer arithmetic. *)

From S2P Require Import Prelude PyStr.
From Stdlib Require Export SpecFloat.
#[local] Open Scope Z_scope.

Definition float : Type := spec_float.

Definition fadd (x y : float) : float := SFadd 53 1024 x y.
Definition fsub (x y : float) : float := SFsub 53 1024 x y.
Definition fmul (x y : float) : float := SFmul 53 1024 x y.
Definition fltb (x y : float) : bool := SFltb x y.
Definition fleb (x y : float) : bool := SFleb x y.

(** [float(n)], and the literal [num / den] correctly rounded. *)
Definition float_of_Z (n : Z) : float := binary_normalize 53 1024 n 0 false.

Definition float_of_ratio (neg : bool) (num den : Z) : float :=
  match num, den with
  | Zpos n, Zpos d => SFdiv 53 1024 (S754_finite neg n 0) (S754_finite false d 0)
  | _, _ => S754_zero neg
  end.

(** Python's two-argument [max] and [min] keep the first argument on ties and
    on unordered comparisons. *)
Definition fmax (x y : float) : float := if fltb x y then y else x.
Definition fmin (x y : float) : float := if fltb y x then y else x.

(** ** [float(text)] *)

Definition underscore : ascii := char 95.

(** Underscores are allowed only between digits, and are dropped. *)
Fixpoint drop_underscores (prev_digit : bool) (s : string) : option string :=
  match s with
  | EmptyString => Some EmptyString
  | String c s' =>
      if eqb c underscore then
        match s' with
        | String d _ => if prev_digit && is_digit d then drop_underscores false s' else None
        | EmptyString => None
        end
      else option_map (String c) (drop_underscores (is_digit c) s')
  end.

(** The value and length of the leading run of digits, and what follows. *)
Fixpoint digit_run (acc n : Z) (s : string) : Z * Z * string :=
  match s with
  | String c s' =>
      if is_digit c then digit_run (10 * acc + (code c - 48)) (n + 1) s' else (acc, n, s)
  | EmptyString => (acc, n, s)
  end.

Definition split_sign (s : string) : bool * string :=
  match s with
  | String c s' =>
      if code c =? 45 then (true, s') else if code c =? 43 then (false, s') else (false, s)
  | EmptyString => (false, s)
  end.

(** The exponent part: absent, or [e] with an optional sign and digits. *)
Definition exponent_part (s : string) : option Z :=
  match s with
  | EmptyString => Some 0
  | String c s' =>
      if eqb (lower_char c) "e"%char then
        let '(neg, d) := split_sign s' in
        let '(v, n, rest) := digit_run 0 0 d in
        if (0 <? n) && eqb rest "" then Some (if neg then - v else v) else None
      else None
  end.

Definition decimal (neg : bool) (mantissa exp10 : Z) : float :=
  if 0 <=? exp10 then float_of_ratio neg (mantissa * 10 ^ exp10) 1
  else float_of_ratio neg mantissa (10 ^ (- exp10)).

Definition py_float (text : string) : option float :=
  match drop_underscores false (strip text) with
  | None => None
  | Some t =>
      let '(neg, u) := split_sign t in
      if mem (lower u) ["inf"; "infinity"] then Some (S754_infinity neg)
      else if eqb (lower u) "nan" then Some S754_nan
      else
        let '(int_v, int_n, rest) := digit_run 0 0 u in
        let '(v, frac_n, tail) :=
          match rest with
          | String c r => if code c =? 46 then digit_run int_v 0 r else (int_v, 0, rest)
          | EmptyString => (int_v, 0, rest)
          end in
        if int_n + frac_n =? 0 then None
        else match exponent_part tail with
             | Some e => Some (decimal neg v (e - frac_n))
             | None => None
             end
  end.

(** ** [f"{x:.6f}"]: the exact value rounded half to even at six decimals *)

Definition round_half_even (num den : Z) : Z :=
  let q := num / den in
  let r := num mod den in
  if 2 * r <? den then q else if den <? 2 * r then q + 1
  else if Z.even q then q else q + 1.

Definition six_digits (n : Z) : string :=
  let s := py_str n in
  drop_str (str_len s) "000000" +:+ s.

Definition format_6f (x : float) : string :=
  match x with
  | S754_nan => "nan"
  | S754_infinity neg => (if neg then "-" else "") +:+ "inf"
  | S754_zero neg => (if neg then "-" else "") +:+ "0.000000"
  | S754_finite neg m e =>
      let n := if 0 <=? e then Zpos m * 2 ^ e * 1000000
               else round_half_even (Zpos m * 1000000) (2 ^ (- e)) in
      (if neg then "-" else "") +:+ py_str (n / 1000000) +:+ "."
      +:+ six_digits (n mod 1000000)
  end.

Definition f_1800 : float := Eval vm_compute in float_of_Z 1800.

Example py_float_decimal : py_float " 1_800.0 " = Some f_1800 /\ py_float "18e2" = Some f_1800.
Proof. split; vm_compute; reflexivity. Qed.

Example format_quarter : format_6f (float_of_ratio true 1 4) = "-0.250000".
Proof. vm_compute. reflexivity. Qed.

Example py_float_tenth : py_float "0.1" = Some (S754_finite false 7205759403792794 (-56)).
Proof. vm_compute. reflexivity. Qed.

Example py_float_bad :
  py_float "1__0" = None /\ py_float "." = None /\ py_float "1e" = None /\ py_float "" = None.
Proof. repeat split; vm_compute; reflexivity. Qed.

(** Bounds that survive NaN: the smaller of two values is one of them. *)
Lemma fmin_cases (x y : float) : fmin x y = x \/ (fmin x y = y /\ fltb y x = true).
Proof. unfold fmin. destruct (fltb y x); auto. Qed.
