(* ===== verification/Json.v ===== *)
(** * [json.dumps] with [separators=(",", ":")]

    The JSON values the modelled code serialises hold strings, booleans, nulls,
    arrays and objects.  The compact serialisation is injective and prefix-free,
    which is what the body hashes and retry-budget keys rely on. *)

From S2P Require Import Prelude PyStr.
#[local] Open Scope Z_scope.
#[local] Set Warnings "-register-all".

Inductive json : Type :=
| JNull
| JBool (b : bool)
| JStr (s : string)
| JArr (l : list json)
| JObj (l : list (string * json)).

Definition hex_digit (n : Z) : ascii := if n <? 10 then char (48 + n) else char (87 + n).

(** [ensure_ascii] escapes, one code point at a time. *)
Definition esc_char (c : ascii) : string :=
  let n := code c in
  if n =? 34 then String backslash (String quote "")
  else if n =? 92 then String backslash (String backslash "")
  else if n =? 10 then String backslash "n"
  else if n =? 13 then String backslash "r"
  else if n =? 9 then String backslash "t"
  else if n =? 12 then String backslash "f"
  else if n =? 8 then String backslash "b"
  else if (32 <=? n) && (n <=? 126) then String c ""
  else String backslash
         (String "u" (String "0" (String "0"
            (String (hex_digit (n / 16)) (String (hex_digit (n mod 16)) ""))))).

Fixpoint esc (s : string) : string :=
  match s with "" => "" | String c s' => esc_char c +:+ esc s' end.

Definition dumps_str (s : string) : string := String quote (esc s +:+ String quote "").

Section dumps_items.
Context {A : Type} (f : A -> string).

(** The items of an array or object after the first. *)
Fixpoint dumps_rest (l : list A) : string :=
  match l with [] => "" | x :: l' => String "," (f x +:+ dumps_rest l') end.

Definition dumps_items (l : list A) : string :=
  match l with [] => "" | x :: l' => f x +:+ dumps_rest l' end.
End dumps_items.

Fixpoint dumps (v : json) : string :=
  match v with
  | JNull => "null"
  | JBool true => "true"
  | JBool false => "false"
  | JStr s => dumps_str s
  | JArr l => String "[" (dumps_items dumps l +:+ "]")
  | JObj l =>
      String "{" (dumps_items (fun '(k, x) => dumps_str k +:+ String ":" (dumps x)) l +:+ "}")
  end.

(** [sort_keys=True] *)
Fixpoint sort_keys (v : json) : json :=
  match v with
  | JArr l => JArr (map sort_keys l)
  | JObj l =>
      JObj (sorted_by (fun x y => str_leb x.1 y.1) (map (fun '(k, x) => (k, sort_keys x)) l))
  | _ => v
  end.

(** ** Reading an escaped string back *)

Definition hex_value (c : ascii) : Z :=
  if code c <? 58 then code c - 48 else code c - 87.

Definition cons_fst (c : ascii) (r : option (string * string)) : option (string * string) :=
  match r with Some (s, rest) => Some (String c s, rest) | None => None end.

(** Reads up to the closing quote; returns the text and what follows it. *)
Fixpoint unesc (s : string) : option (string * string) :=
  match s with
  | "" => None
  | String c s1 =>
      if code c =? 34 then Some ("", s1)
      else if code c =? 92 then
        match s1 with
        | "" => None
        | String d s2 =>
            if code d =? 110 then cons_fst (char 10) (unesc s2)
            else if code d =? 114 then cons_fst (char 13) (unesc s2)
            else if code d =? 116 then cons_fst (char 9) (unesc s2)
            else if code d =? 102 then cons_fst (char 12) (unesc s2)
            else if code d =? 98 then cons_fst (char 8) (unesc s2)
            else if code d =? 117 then
              match s2 with
              | String _ (String _ (String h (String l s3))) =>
                  cons_fst (char (16 * hex_value h + hex_value l)) (unesc s3)
              | _ => None
              end
            else cons_fst d (unesc s2)
        end
      else cons_fst c (unesc s1)
  end.

Lemma unesc_char (c : ascii) (t : string) : unesc (esc_char c +:+ t) = cons_fst c (unesc t).
Proof. destruct c as [[] [] [] [] [] [] [] []]; reflexivity. Qed.

(** The string decoder inverts the encoder whatever follows. *)
Lemma unesc_esc (s rest : string) : unesc (esc s +:+ String quote rest) = Some (s, rest).
Proof.
  induction s as [|c s IH]; [reflexivity|]. simpl esc.
  by rewrite str_app_assoc, unesc_char, IH.
Qed.

Lemma dumps_str_inj (s t r r' : string) :
  dumps_str s +:+ r = dumps_str t +:+ r' -> s = t /\ r = r'.
Proof.
  unfold dumps_str. simpl. intros [= H]. rewrite !str_app_assoc in H. simpl in H.
  apply (f_equal unesc) in H. rewrite !unesc_esc in H. by simplify_eq.
Qed.

(** ** The serialisation is prefix-free *)

Definition prefix_free {A : Type} (f : A -> string) (x : A) : Prop :=
  forall y r r', f x +:+ r = f y +:+ r' -> x = y /\ r = r'.

Lemma dumps_rest_inj {A : Type} (f : A -> string) (close : ascii) (l l' : list A) (r r' : string) :
  Forall (prefix_free f) l -> close <> ","%char ->
  dumps_rest f l +:+ String close r = dumps_rest f l' +:+ String close r' ->
  l = l' /\ r = r'.
Proof.
  intros Hf Hc. revert l' r r'.
  induction Hf as [|x l Hx Hl IH]; intros [|y l'] r r'; simpl; intros [= H];
    simplify_eq; try done.
  rewrite !str_app_assoc in H. apply Hx in H as [-> H].
  by apply IH in H as [-> ->].
Qed.

Lemma dumps_items_inj {A : Type} (f : A -> string) (close : ascii) (l l' : list A) (r r' : string) :
  Forall (prefix_free f) l -> close <> ","%char ->
  (forall x s t, f x +:+ t <> String close s) ->
  dumps_items f l +:+ String close r = dumps_items f l' +:+ String close r' ->
  l = l' /\ r = r'.
Proof.
  intros Hf Hc Hne. destruct l as [|x l], l' as [|y l']; simpl; intros H.
  - by simplify_eq.
  - rewrite str_app_assoc in H. by destruct (Hne y r (dumps_rest f l' +:+ String close r')).
  - rewrite str_app_assoc in H. by destruct (Hne x r' (dumps_rest f l +:+ String close r)).
  - inversion Hf as [|? ? Hx Hl]; subst. rewrite !str_app_assoc in H.
    apply Hx in H as [-> H]. by apply dumps_rest_inj in H as [-> ->].
Qed.

Section json_ind.
Context (P : json -> Prop).
Context (HNull : P JNull) (HBool : forall b, P (JBool b)) (HStr : forall s, P (JStr s)).
Context (HArr : forall l, Forall P l -> P (JArr l)).
Context (HObj : forall l, Forall (fun kv => P kv.2) l -> P (JObj l)).

Fixpoint json_nested_ind (v : json) : P v :=
  match v with
  | JNull => HNull
  | JBool b => HBool b
  | JStr s => HStr s
  | JArr l =>
      HArr l ((fix go l : Forall P l :=
        match l with
        | [] => Forall_nil_2 P
        | x :: l' => Forall_cons_2 P x l' (json_nested_ind x) (go l')
        end) l)
  | JObj l =>
      HObj l ((fix go l : Forall (fun kv => P kv.2) l :=
        match l with
        | [] => Forall_nil_2 _
        | x :: l' => Forall_cons_2 _ x l' (json_nested_ind x.2) (go l')
        end) l)
  end.
End json_ind.

Lemma dumps_not_close (v : json) (s t : string) : dumps v +:+ t <> String "]" s.
Proof. destruct v as [|[]| | |]; done. Qed.

(** The compact serialisation determines the value, whatever text follows. *)
Lemma dumps_prefix_free (v : json) : prefix_free dumps v.
Proof.
  induction v as [|b|s|l IH|l IH] using json_nested_ind; intros w r r' H.
  - destruct w as [|[]| | |]; simpl in H; by simplify_eq.
  - destruct b, w as [|[]| | |]; simpl in H; by simplify_eq.
  - destruct w as [|[]|s'| |]; try (simpl in H; by simplify_eq).
    by apply dumps_str_inj in H as [-> ->].
  - destruct w as [|[]| |l'|]; simpl in H; simplify_eq. rewrite !str_app_assoc in H.
    apply dumps_items_inj in H as [-> ->]; [done..|]. apply dumps_not_close.
  - destruct w as [|[]| | |l']; simpl in H; simplify_eq. rewrite !str_app_assoc in H.
    apply dumps_items_inj in H as [-> ->]; [done| |done|].
    + eapply Forall_impl; [exact IH|]. intros [k x] Hx [k' y] t t' Ht. simpl in Hx.
      assert (Ht' : dumps_str k +:+ (String ":" (dumps x) +:+ t)
                    = dumps_str k' +:+ (String ":" (dumps y) +:+ t')).
      { rewrite <- !str_app_assoc. exact Ht. }
      clear Ht. apply dumps_str_inj in Ht' as [-> Ht].
      simpl in Ht. simplify_eq. by apply Hx in Ht as [-> ->].
    + by intros [k x] u t.
Qed.

Lemma dumps_inj (v w : json) : dumps v = dumps w -> v = w.
Proof.
  intros H. apply (dumps_prefix_free v w "" ""). by rewrite H.
Qed.
