(* ===== verification/PyVal.v ===== *)
(** * JSON documents as Python values

    What [json.loads] and the JSON columns of the database hold: dictionaries keep
    their insertion order, booleans are integers to [isinstance(value, int)], and
    floats are binary64.  The reads and updates below are those of [dict]. *)

From S2P Require Import Prelude PyStr PyFloat Json.
#[local] Open Scope Z_scope.
#[local] Set Warnings "-register-all".

(** ** Values *)

Inductive pyval : Type :=
| VNone
| VBool (b : bool)
| VInt (n : Z)
| VFloat (x : float)
| VStr (s : string)
| VList (l : list pyval)
| VDict (l : list (string * pyval)).

Notation "'dict'" := (list (string * pyval)).

(** [d.get(key)] *)
Definition get (d : dict) (key : string) : pyval :=
  match List.find (fun p => eqb p.1 key) d with Some p => p.2 | None => VNone end.

(** [key in d] *)
Definition has_key (d : dict) (key : string) : bool := existsb (fun p => eqb p.1 key) d.

(** [d[key] = value]: in place, or a new last key. *)
Fixpoint set_key (d : dict) (key : string) (v : pyval) : dict :=
  match d with
  | [] => [(key, v)]
  | (k, x) :: d' => if eqb k key then (k, v) :: d' else (k, x) :: set_key d' key v
  end.

(** [d.pop(key, None)] *)
Definition pop_key (d : dict) (key : string) : dict :=
  List.filter (fun p => negb (eqb p.1 key)) d.

(** [value if isinstance(value, Mapping) else {}] *)
Definition as_mapping (v : pyval) : dict := match v with VDict d => d | _ => [] end.

Definition truthy (v : pyval) : bool :=
  match v with
  | VNone => false
  | VBool b => b
  | VInt n => negb (n =? 0)
  | VFloat (S754_zero _) => false
  | VFloat _ => true
  | VStr s => negb (eqb s "")
  | VList l => match l with [] => false | _ => true end
  | VDict d => match d with [] => false | _ => true end
  end.

(** [x.is_integer()] with [int(x)]. *)
Definition float_int (x : float) : option Z :=
  match x with
  | S754_zero _ => Some 0
  | S754_finite neg m e =>
      let n := if neg then Z.neg m else Z.pos m in
      if 0 <=? e then Some (n * 2 ^ e)
      else if n mod 2 ^ (- e) =? 0 then Some (n / 2 ^ (- e)) else None
  | _ => None
  end.

Definition opt_str (o : option string) : pyval :=
  match o with Some s => VStr s | None => VNone end.

(** [isinstance(value, int)], with the integer: [bool] is a subclass of [int]. *)
Definition as_int (v : pyval) : option Z :=
  match v with
  | VInt n => Some n
  | VBool b => Some (Z.b2z b)
  | _ => None
  end.

(** The document without its numbers, for the readers that never look at them. *)
Fixpoint json_of (v : pyval) : json :=
  match v with
  | VNone | VInt _ | VFloat _ => JNull
  | VBool b => JBool b
  | VStr s => JStr s
  | VList l => JArr (map json_of l)
  | VDict l => JObj (map (fun '(k, x) => (k, json_of x)) l)
  end.

(** ** Lemmas *)

Lemma get_set_eq (d : dict) (key : string) (v : pyval) : get (set_key d key v) key = v.
Proof.
  unfold get. induction d as [|[k x] d IH]; simpl; [by rewrite eqb_refl|].
  destruct (eqb k key) eqn:E; simpl; by rewrite E.
Qed.

Lemma get_set_ne (d : dict) (key key' : string) (v : pyval) :
  key <> key' -> get (set_key d key v) key' = get d key'.
Proof.
  intros Hne. unfold get. induction d as [|[k x] d IH]; simpl.
  - by rewrite (proj2 (eqb_false key key') Hne).
  - destruct (eqb k key) eqn:E; simpl.
    + rewrite eqb_true in E. subst k. by rewrite (proj2 (eqb_false key key') Hne).
    + destruct (eqb k key'); [done|exact IH].
Qed.

Lemma get_pop_ne (d : dict) (key key' : string) : key <> key' -> get (pop_key d key) key' = get d key'.
Proof.
  intros Hne. unfold get, pop_key. induction d as [|[k x] d IH]; simpl; [done|].
  destruct (eqb k key) eqn:E; simpl; [|by destruct (eqb k key')].
  rewrite eqb_true in E. subst k. by rewrite (proj2 (eqb_false key key') Hne).
Qed.

(** ** [==] on documents: dictionaries compare whatever their order *)

Definition num_eqb (v w : pyval) : bool :=
  match v, w with
  | VFloat x, VFloat y => SFeqb x y
  | VFloat x, _ => match float_int x, as_int w with Some a, Some b => a =? b | _, _ => false end
  | _, VFloat y => match as_int v, float_int y with Some a, Some b => a =? b | _, _ => false end
  | _, _ => match as_int v, as_int w with Some a, Some b => a =? b | _, _ => false end
  end.

Definition find_key (d : dict) (key : string) : option pyval :=
  snd <$> List.find (fun p => eqb p.1 key) d.

Fixpoint py_eqb (v w : pyval) : bool :=
  match v, w with
  | VNone, VNone => true
  | VStr s, VStr t => eqb s t
  | VList l, VList k =>
      (fix go l k := match l, k with
                     | [], [] => true
                     | x :: l', y :: k' => py_eqb x y && go l' k'
                     | _, _ => false
                     end) l k
  | VDict d, VDict e =>
      (length d =? length e)%nat
      && forallb (fun p => match find_key e p.1 with
                           | Some y => py_eqb p.2 y
                           | None => false
                           end) d
  | (VBool _ | VInt _ | VFloat _), (VBool _ | VInt _ | VFloat _) => num_eqb v w
  | _, _ => false
  end.

(** Keys are distinct at every depth and no number is a NaN, as in any JSON document. *)
Fixpoint json_doc (v : pyval) : bool :=
  match v with
  | VFloat x => SFeqb x x
  | VList l => forallb json_doc l
  | VDict d => bool_decide (NoDup (map fst d)) && forallb (fun p => json_doc p.2) d
  | _ => true
  end.

Section pyval_ind.
Context (P : pyval -> Prop).
Context (HNone : P VNone) (HBool : forall b, P (VBool b)) (HInt : forall n, P (VInt n)).
Context (HFloat : forall x, P (VFloat x)) (HStr : forall s, P (VStr s)).
Context (HList : forall l, Forall P l -> P (VList l)).
Context (HDict : forall d, Forall (fun kv => P kv.2) d -> P (VDict d)).

Fixpoint pyval_nested_ind (v : pyval) : P v :=
  match v with
  | VNone => HNone
  | VBool b => HBool b
  | VInt n => HInt n
  | VFloat x => HFloat x
  | VStr s => HStr s
  | VList l =>
      HList l ((fix go l : Forall P l :=
        match l with
        | [] => Forall_nil_2 P
        | x :: l' => Forall_cons_2 P x l' (pyval_nested_ind x) (go l')
        end) l)
  | VDict d =>
      HDict d ((fix go d : Forall (fun kv => P kv.2) d :=
        match d with
        | [] => Forall_nil_2 _
        | x :: d' => Forall_cons_2 _ x d' (pyval_nested_ind x.2) (go d')
        end) d)
  end.
End pyval_ind.

Lemma find_key_in (d : dict) (p : string * pyval) :
  NoDup (map fst d) -> p ∈ d -> find_key d p.1 = Some p.2.
Proof.
  unfold find_key. induction d as [|q d IH]; simpl; [by intros _ ?%elem_of_nil|].
  intros [Hq Hd]%NoDup_cons [->|Hp]%elem_of_cons; [by rewrite eqb_refl|].
  destruct (eqb q.1 p.1) eqn:E; [|by apply IH]. exfalso. rewrite eqb_true in E.
  apply Hq. rewrite E. apply list_elem_of_fmap. eauto.
Qed.

Lemma py_eqb_refl (v : pyval) : json_doc v = true -> py_eqb v v = true.
Proof.
  induction v as [|b|n|x|s|l IH|d IH] using pyval_nested_ind; intros H.
  - done.
  - destruct b; done.
  - apply Z.eqb_refl.
  - done.
  - apply eqb_refl.
  - cbn [json_doc] in H. induction IH as [|x l Hx Hl IHl]; [done|]. cbn [forallb] in H.
    apply andb_true_iff in H as [Hdx Hdl]. cbn. rewrite Hx by done. by apply IHl.
  - cbn [json_doc] in H. apply andb_true_iff in H as [Hnd H].
    apply bool_decide_eq_true in Hnd. rewrite forallb_elem in H. cbn [py_eqb].
    rewrite Nat.eqb_refl. apply forallb_elem. intros p Hp. rewrite find_key_in by done.
    apply (proj1 (Forall_forall _ _) IH); [done|]. by apply H.
Qed.
