(* ===== verification/Regex.v ===== *)
(** * Regular expressions with word boundaries

    The patterns of Python's [re] that the classifiers search for: character
    classes, concatenation, alternation, bounded and unbounded repetition and
    [\b].  A search only asks whether some match exists, so matching is the set
    of positions a pattern can reach from a position; [ends] computes it and
    [matches] is its declarative meaning. *)

From S2P Require Import Prelude PyStr.
#[local] Open Scope Z_scope.

Inductive re : Type :=
| REps
| RChar (p : ascii -> bool)
| RSeq (a b : re)
| RAlt (a b : re)
| RStar (a : re)
| RWordB.

(** A position: the character before it, if any, and the text after it. *)
Definition pos : Type := option ascii * string.

(** [\w] on one Latin-1 code point: alphanumeric, or the underscore. *)
Definition is_word (c : ascii) : bool :=
  let n := code c in
  is_digit c || ((65 <=? n) && (n <=? 90)) || ((97 <=? n) && (n <=? 122)) || (n =? 95)
  || mem n [170; 178; 179; 181; 185; 186; 188; 189; 190]
  || ((192 <=? n) && negb (n =? 215) && negb (n =? 247)).

Definition word_before (p : pos) : bool :=
  match p.1 with Some c => is_word c | None => false end.
Definition word_after (p : pos) : bool :=
  match p.2 with String c _ => is_word c | EmptyString => false end.

Inductive matches : re -> pos -> pos -> Prop :=
| m_eps p : matches REps p p
| m_char f pr c s : f c = true -> matches (RChar f) (pr, String c s) (Some c, s)
| m_seq a b p q r : matches a p q -> matches b q r -> matches (RSeq a b) p r
| m_alt_l a b p q : matches a p q -> matches (RAlt a b) p q
| m_alt_r a b p q : matches b p q -> matches (RAlt a b) p q
| m_star_nil a p : matches (RStar a) p p
| m_star_cons a p q r : matches a p q -> matches (RStar a) q r -> matches (RStar a) p r
| m_wordb p : word_before p <> word_after p -> matches RWordB p p.

(** Iterate a step that consumes at least one character, [n] times at most. *)
Fixpoint star_ends (step : pos -> list pos) (n : nat) (p : pos) : list pos :=
  match n with
  | O => [p]
  | S n' =>
      p :: flat_map (fun q => if (str_len q.2 <? str_len p.2)%nat then star_ends step n' q else [])
             (step p)
  end.

Fixpoint ends (r : re) (p : pos) : list pos :=
  match r with
  | REps => [p]
  | RChar f =>
      match p.2 with
      | String c s => if f c then [(Some c, s)] else []
      | EmptyString => []
      end
  | RSeq a b => flat_map (ends b) (ends a p)
  | RAlt a b => ends a p ++ ends b p
  | RStar a => star_ends (ends a) (str_len p.2) p
  | RWordB => if xorb (word_before p) (word_after p) then [p] else []
  end.

(** [pattern.search(text)]: a match from some position. *)
Fixpoint search_from (r : re) (prev : option ascii) (s : string) : bool :=
  match ends r (prev, s) with
  | _ :: _ => true
  | [] => match s with
          | String c s' => search_from r (Some c) s'
          | EmptyString => false
          end
  end.

Definition search (r : re) (s : string) : bool := search_from r None s.

(** [pattern.fullmatch(text)] *)
Definition fullmatch (r : re) (s : string) : bool :=
  existsb (fun p => eqb p.2 "") (ends r (None, s)).

(** ** Derived forms *)

Fixpoint rword (s : string) : re :=
  match s with
  | EmptyString => REps
  | String c s' => RSeq (RChar (eqb c)) (rword s')
  end.

Definition rplus (a : re) : re := RSeq a (RStar a).
Definition ropt (a : re) : re := RAlt a REps.
Definition ralts (l : list re) : re :=
  match l with [] => RChar (fun _ => false) | a :: l' => fold_left RAlt l' a end.

(** [a{lo,lo+extra}] *)
Fixpoint rrepeat (lo extra : nat) (a : re) : re :=
  match lo with
  | S n => RSeq a (rrepeat n extra a)
  | O => (fix opts e := match e with O => REps | S e' => ropt (RSeq a (opts e')) end) extra
  end.

(** ** [ends] computes [matches] *)

Lemma flat_map_elem {A B : Type} (f : A -> list B) (l : list A) (y : B) :
  y ∈ flat_map f l <-> exists x, x ∈ l /\ y ∈ f x.
Proof. rewrite list_elem_of_In, in_flat_map. setoid_rewrite list_elem_of_In. done. Qed.

Lemma matches_len (r : re) (p q : pos) : matches r p q -> (str_len q.2 <= str_len p.2)%nat.
Proof. induction 1; simpl in *; lia. Qed.

(** A move that consumes nothing does not move. *)
Lemma matches_same (r : re) (p q : pos) :
  matches r p q -> (str_len q.2 = str_len p.2)%nat -> q = p.
Proof.
  induction 1 as [|? ? ? ? Hf|a b p q r H1 IH1 H2 IH2|? ? ? ? ? IH|? ? ? ? ? IH|
                  |a p q r H1 IH1 H2 IH2|]; simpl in *; auto; try lia;
    intros Hl; pose proof (matches_len _ _ _ H1); pose proof (matches_len _ _ _ H2);
    rewrite IH2 by lia; apply IH1; lia.
Qed.

Lemma star_ends_sound (a : re) (step : pos -> list pos) (n : nat) (p q : pos) :
  (forall p q, q ∈ step p -> matches a p q) ->
  q ∈ star_ends step n p -> matches (RStar a) p q.
Proof.
  intros Hs. revert p. induction n as [|n IH]; intros p; simpl.
  - intros ->%list_elem_of_singleton. constructor.
  - intros [->|(x & Hx & Hq)%flat_map_elem]%elem_of_cons; [constructor|].
    case_match; [|by apply elem_of_nil in Hq]. eapply m_star_cons; eauto.
Qed.

Lemma star_ends_complete (a : re) (step : pos -> list pos) (p q : pos) :
  (forall p q, matches a p q -> q ∈ step p) ->
  matches (RStar a) p q -> forall n, (str_len p.2 <= n)%nat -> q ∈ star_ends step n p.
Proof.
  intros Hs Hm. remember (RStar a) as r eqn:Er. revert Er.
  induction Hm as [| | | | |a0 p|a0 p q r H1 _ H2 IH2|]; intros [=]; subst; intros n Hn.
  - destruct n; simpl; left.
  - pose proof (matches_len _ _ _ H1) as Hl.
    destruct (decide (str_len q.2 = str_len p.2)) as [He|He].
    { rewrite (matches_same _ _ _ H1 He) in IH2. by apply IH2. }
    destruct n as [|n]; [lia|]. simpl. right. apply flat_map_elem. exists q.
    split; [by apply Hs|]. rewrite (proj2 (Nat.ltb_lt _ _)) by lia. apply IH2; [done|lia].
Qed.

Lemma ends_matches (r : re) (p q : pos) : q ∈ ends r p <-> matches r p q.
Proof.
  revert p q. induction r as [|f|a IHa b IHb|a IHa b IHb|a IHa|]; intros p q; simpl.
  - rewrite list_elem_of_singleton. split; [intros ->; constructor | by inversion 1].
  - destruct p as [pr [|c s]]; simpl; [split; [by intros ?%elem_of_nil | by inversion 1]|].
    destruct (f c) eqn:E.
    + rewrite list_elem_of_singleton. split; [intros ->; by constructor | by inversion 1].
    + split; [by intros ?%elem_of_nil | inversion 1; congruence].
  - rewrite flat_map_elem. setoid_rewrite IHa. setoid_rewrite IHb. split.
    + intros (x & ? & ?). by econstructor.
    + inversion 1; eauto.
  - rewrite elem_of_app, IHa, IHb. split; [intros [?|?]; by constructor | inversion 1; auto].
  - split.
    + apply star_ends_sound. intros. by apply IHa.
    + intros Hm. eapply star_ends_complete; [|exact Hm|done]. intros. by apply IHa.
  - destruct (xorb _ _) eqn:E.
    + rewrite list_elem_of_singleton. split; [intros ->; constructor | by inversion 1].
      intros Heq. by rewrite Heq, xorb_nilpotent in E.
    + apply xorb_eq in E. split; [by intros ?%elem_of_nil | inversion 1; congruence].
Qed.

(** The positions of a text, from a first one. *)
Fixpoint positions (prev : option ascii) (s : string) : list pos :=
  (prev, s) :: match s with String c s' => positions (Some c) s' | EmptyString => [] end.

Lemma search_from_spec (r : re) (prev : option ascii) (s : string) :
  search_from r prev s = true <-> exists p q, p ∈ positions prev s /\ matches r p q.
Proof.
  revert prev. induction s as [|c s IH]; intros prev; simpl;
    destruct (ends r _) as [|q l] eqn:E.
  1,3: assert (Hn : forall q, ~ matches r (prev, _) q)
    by (intros q Hq; apply ends_matches in Hq; rewrite E in Hq; by apply elem_of_nil in Hq).
  3,4: assert (Hq : matches r (prev, _) q) by (apply ends_matches; rewrite E; left).
  - split; [done|]. intros (p & q & ->%list_elem_of_singleton & Hm). by apply Hn in Hm.
  - rewrite IH. split; [intros (p & q & ? & ?); exists p, q; split; [by right|done]|].
    intros (p & q & [->|Hp]%elem_of_cons & Hm); [by apply Hn in Hm|eauto].
  - split; [|done]. intros _. exists (prev, ""), q. split; [left|done].
  - split; [|done]. intros _. exists (prev, String c s), q. split; [left|done].
Qed.

(** ** Full matches, and runs of one character class *)

Lemma fullmatch_spec (r : re) (s : string) :
  fullmatch r s = true <-> exists pr, matches r (None, s) (pr, "").
Proof.
  unfold fullmatch. rewrite existsb_elem. setoid_rewrite ends_matches. split.
  - intros ([pr t] & Hm & Ht). simpl in Ht. rewrite eqb_true in Ht. subst t. eauto.
  - intros (pr & Hm). exists (pr, ""). by rewrite eqb_refl.
Qed.

Lemma matches_char (f : ascii -> bool) (p q : pos) :
  matches (RChar f) p q -> exists c, p.2 = String c q.2 /\ f c = true.
Proof. inversion 1; subst; simpl; eauto. Qed.

Lemma matches_run (f : ascii -> bool) (p q : pos) :
  matches (RStar (RChar f)) p q -> exists w, p.2 = w +:+ q.2 /\ all_chars f w = true.
Proof.
  intros Hm. remember (RStar (RChar f)) as r eqn:Er. revert Er.
  induction Hm as [| | | | |a p|a p q r H1 _ _ IH2|]; intros [=]; subst; [by exists ""|].
  apply matches_char in H1 as (c & Hc & Hf). destruct (IH2 eq_refl) as (w & Hw & Ha).
  exists (String c w). rewrite Hc, Hw. simpl. by rewrite Hf.
Qed.

Lemma matches_runs (f : ascii -> bool) (p q : pos) :
  matches (rplus (RChar f)) p q -> exists c w, p.2 = String c w +:+ q.2 /\ f c = true /\
    all_chars f w = true.
Proof.
  unfold rplus. inversion 1 as [| |? ? ? u ? H1 H2| | | | |]; subst.
  apply matches_char in H1 as (c & Hc & Hf). apply matches_run in H2 as (w & Hw & Ha).
  exists c, w. by rewrite Hc, Hw.
Qed.

Lemma run_matches (f : ascii -> bool) (w t : string) (pr : option ascii) :
  all_chars f w = true -> exists pr', matches (RStar (RChar f)) (pr, w +:+ t) (pr', t).
Proof.
  revert pr. induction w as [|c w IH]; intros pr; simpl; [exists pr; constructor|].
  intros [Hc Hw]%andb_true_iff. destruct (IH (Some c) Hw) as (pr' & Hm).
  exists pr'. eapply m_star_cons; [by constructor|exact Hm].
Qed.

Lemma runs_match (f : ascii -> bool) (c : ascii) (w t : string) (pr : option ascii) :
  f c = true -> all_chars f w = true ->
  exists pr', matches (rplus (RChar f)) (pr, String c w +:+ t) (pr', t).
Proof.
  intros Hc Hw. destruct (run_matches f w t (Some c) Hw) as (pr' & Hm).
  exists pr'. eapply m_seq; [by constructor|exact Hm].
Qed.
