(* ===== verification/Utf8.v ===== *)
(** * UTF-8 with [surrogateescape]

    Text as the list of its code points, and the two codecs Python offers for it: bytes
    that are no valid UTF-8 decode to the surrogates U+DC80 to U+DCFF, which encode back
    to those bytes.  Unlike [PyStr], code points range over all of Unicode here. *)

From S2P Require Import Prelude.
#[local] Open Scope Z_scope.

(** The text of an ASCII literal. *)
Fixpoint codes (s : string) : list Z :=
  match s with
  | "" => []
  | String c s' => Z.of_N (Ascii.N_of_ascii c) :: codes s'
  end.

Definition SURROGATE_ESCAPE : Z := 56320.   (* U+DC00 *)

Definition is_escaped_byte (c : Z) : bool :=
  (SURROGATE_ESCAPE + 128 <=? c) && (c <=? SURROGATE_ESCAPE + 255).
Definition is_surrogate (c : Z) : bool := (55296 <=? c) && (c <=? 57343).

(** ** Encoding: [None] is the encoding error of another lone surrogate. *)

Definition encode_char (c : Z) : option (list Z) :=
  if c <? 128 then Some [c]
  else if c <? 2048 then Some [192 + c / 64; 128 + c mod 64]
  else if is_escaped_byte c then Some [c - SURROGATE_ESCAPE]
  else if is_surrogate c then None
  else if c <? 65536 then Some [224 + c / 4096; 128 + (c / 64) mod 64; 128 + c mod 64]
  else Some [240 + c / 262144; 128 + (c / 4096) mod 64; 128 + (c / 64) mod 64; 128 + c mod 64].

Fixpoint encode (text : list Z) : option (list Z) :=
  match text with
  | [] => Some []
  | c :: text' =>
      match encode_char c, encode text' with
      | Some bytes, Some rest => Some (bytes ++ rest)
      | _, _ => None
      end
  end.

(** ** Decoding *)

Definition continuation (b : Z) : bool := (128 <=? b) && (b <=? 191).

Definition two_bytes (b1 b2 : Z) : bool := (194 <=? b1) && (b1 <=? 223) && continuation b2.

(** No overlong form below U+0800, no surrogate. *)
Definition three_bytes (b1 b2 b3 : Z) : bool :=
  (224 <=? b1) && (b1 <=? 239) && continuation b2 && continuation b3
  && (if b1 =? 224 then 160 <=? b2 else true) && (if b1 =? 237 then b2 <=? 159 else true).

(** No overlong form below U+10000, nothing above U+10FFFF. *)
Definition four_bytes (b1 b2 b3 b4 : Z) : bool :=
  (240 <=? b1) && (b1 <=? 244) && continuation b2 && continuation b3 && continuation b4
  && (if b1 =? 240 then 144 <=? b2 else true) && (if b1 =? 244 then b2 <=? 143 else true).

(** A byte on its own: ASCII, or escaped. *)
Definition lone_byte (b : Z) : Z := if b <? 128 then b else SURROGATE_ESCAPE + b.

Fixpoint decode (bytes : list Z) : list Z :=
  match bytes with
  | [] => []
  | b1 :: l1 =>
      match l1 with
      | b2 :: l2 =>
          if two_bytes b1 b2 then ((b1 - 192) * 64 + (b2 - 128)) :: decode l2
          else
            match l2 with
            | b3 :: l3 =>
                if three_bytes b1 b2 b3
                then ((b1 - 224) * 4096 + (b2 - 128) * 64 + (b3 - 128)) :: decode l3
                else
                  match l3 with
                  | b4 :: l4 =>
                      if four_bytes b1 b2 b3 b4
                      then ((b1 - 240) * 262144 + (b2 - 128) * 4096 + (b3 - 128) * 64 + (b4 - 128))
                           :: decode l4
                      else lone_byte b1 :: decode l1
                  | [] => lone_byte b1 :: decode l1
                  end
            | [] => lone_byte b1 :: decode l1
            end
      | [] => lone_byte b1 :: decode l1
      end
  end.

Example decode_latin : decode (195 :: 169 :: codes ".py") = 233 :: codes ".py".
Proof. reflexivity. Qed.
Example decode_broken : decode [226; 130; 65] = [56546; 56450; 65].
Proof. reflexivity. Qed.

(** ** Escaping loses nothing *)

Definition is_byte (b : Z) : Prop := 0 <= b <= 255.

Lemma encode_lone (b : Z) : is_byte b -> encode_char (lone_byte b) = Some [b].
Proof.
  unfold is_byte, lone_byte, encode_char, is_escaped_byte, SURROGATE_ESCAPE. intros Hb.
  destruct (Z.ltb_spec b 128).
  - by rewrite (proj2 (Z.ltb_lt b 128)).
  - rewrite !(proj2 (Z.ltb_ge _ _)) by lia. rewrite !(proj2 (Z.leb_le _ _)) by lia.
    cbn [andb]. do 2 f_equal. lia.
Qed.

(** The digits of a sum in base 64. *)
Lemma base64 (hi lo : Z) :
  0 <= lo < 64 -> (hi * 64 + lo) / 64 = hi /\ (hi * 64 + lo) mod 64 = lo.
Proof.
  intros H. rewrite Z.div_add_l, Z.div_small by lia. split; [lia|].
  rewrite Z.add_comm, Z.mod_add by lia. by apply Z.mod_small.
Qed.

Lemma encode_two (b1 b2 : Z) :
  two_bytes b1 b2 = true -> encode_char ((b1 - 192) * 64 + (b2 - 128)) = Some [b1; b2].
Proof.
  unfold two_bytes, continuation. intros H. bool_simpl. unfold encode_char.
  rewrite (proj2 (Z.ltb_ge _ 128)), (proj2 (Z.ltb_lt _ 2048)) by lia.
  destruct (base64 (b1 - 192) (b2 - 128) ltac:(lia)) as [-> ->].
  do 2 f_equal; [lia|f_equal; lia].
Qed.

Lemma encode_three (b1 b2 b3 : Z) :
  three_bytes b1 b2 b3 = true ->
  encode_char ((b1 - 224) * 4096 + (b2 - 128) * 64 + (b3 - 128)) = Some [b1; b2; b3].
Proof.
  unfold three_bytes, continuation. intros H. bool_simpl.
  assert (Ho : b1 = 224 -> 160 <= b2) by (intros ->; cbn in *; lia).
  assert (Hs : b1 = 237 -> b2 <= 159) by (intros ->; cbn in *; lia).
  set (hi := (b1 - 224) * 64 + (b2 - 128)).
  replace ((b1 - 224) * 4096 + (b2 - 128) * 64 + (b3 - 128)) with (hi * 64 + (b3 - 128))
    by (unfold hi; lia).
  destruct (base64 (b1 - 224) (b2 - 128) ltac:(lia)) as [D1 M1].
  destruct (base64 hi (b3 - 128) ltac:(lia)) as [D2 M2]. fold hi in D1, M1.
  unfold encode_char, is_escaped_byte, is_surrogate, SURROGATE_ESCAPE.
  assert (Hr : 2048 <= hi * 64 + (b3 - 128) < 55296 \/ 57344 <= hi * 64 + (b3 - 128) < 65536)
    by (unfold hi in *; lia).
  repeat (match goal with |- context [?a <? ?b] => destruct (Z.ltb_spec a b); try lia end).
  repeat (match goal with |- context [?a <=? ?b] => destruct (Z.leb_spec a b); try lia end);
    cbn [andb];
    (replace 4096 with (64 * 64) by done; rewrite <- Z.div_div, D2, M2, D1, M1 by lia;
     do 2 f_equal; [lia|f_equal; [lia|f_equal; lia]]).
Qed.

Lemma encode_four (b1 b2 b3 b4 : Z) :
  four_bytes b1 b2 b3 b4 = true ->
  encode_char ((b1 - 240) * 262144 + (b2 - 128) * 4096 + (b3 - 128) * 64 + (b4 - 128))
  = Some [b1; b2; b3; b4].
Proof.
  unfold four_bytes, continuation. intros H. bool_simpl.
  assert (Ho : b1 = 240 -> 144 <= b2) by (intros ->; cbn in *; lia).
  set (top := (b1 - 240) * 64 + (b2 - 128)). set (hi := top * 64 + (b3 - 128)).
  replace ((b1 - 240) * 262144 + (b2 - 128) * 4096 + (b3 - 128) * 64 + (b4 - 128))
    with (hi * 64 + (b4 - 128)) by (unfold hi, top; lia).
  destruct (base64 (b1 - 240) (b2 - 128) ltac:(lia)) as [D1 M1]. fold top in D1, M1.
  destruct (base64 top (b3 - 128) ltac:(lia)) as [D2 M2]. fold hi in D2, M2.
  destruct (base64 hi (b4 - 128) ltac:(lia)) as [D3 M3].
  unfold encode_char, is_escaped_byte, is_surrogate, SURROGATE_ESCAPE.
  assert (Hr : 65536 <= hi * 64 + (b4 - 128)) by (unfold hi, top in *; lia).
  repeat (match goal with |- context [?a <? ?b] => destruct (Z.ltb_spec a b); try lia end).
  repeat (match goal with |- context [?a <=? ?b] => destruct (Z.leb_spec a b); try lia end);
    cbn [andb];
    (replace 262144 with (64 * (64 * 64)) by done; replace 4096 with (64 * 64) by done;
     rewrite <- !Z.div_div, D3, M3, D2, M2, D1, M1 by lia;
     do 2 f_equal; [lia|f_equal; [lia|f_equal; [lia|f_equal; lia]]]).
Qed.

Lemma encode_cons (c : Z) (text bytes rest : list Z) :
  encode_char c = Some bytes -> encode text = Some rest -> encode (c :: text) = Some (bytes ++ rest).
Proof. intros Hc Ht. simpl. by rewrite Hc, Ht. Qed.

Lemma encode_decode_length (n : nat) (bytes : list Z) :
  (length bytes <= n)%nat -> Forall is_byte bytes -> encode (decode bytes) = Some bytes.
Proof.
  revert bytes. induction n as [|n IH]; intros [|b1 l1] Hn Hb; simpl in Hn; try done; [lia|].
  apply Forall_cons in Hb as [H1 Hl1].
  assert (Hlone : encode (lone_byte b1 :: decode l1) = Some (b1 :: l1)).
  { apply (encode_cons _ _ [b1]); [by apply encode_lone|]. apply IH; [lia|done]. }
  destruct l1 as [|b2 l2]; [exact Hlone|].
  cbn [decode]. apply Forall_cons in Hl1 as [H2 Hl2]. simpl in Hn.
  destruct (two_bytes b1 b2) eqn:E2.
  { apply (encode_cons _ _ [b1; b2]); [by apply encode_two|]. apply IH; [lia|done]. }
  destruct l2 as [|b3 l3]; [exact Hlone|]. apply Forall_cons in Hl2 as [H3 Hl3]. simpl in Hn.
  destruct (three_bytes b1 b2 b3) eqn:E3.
  { apply (encode_cons _ _ [b1; b2; b3]); [by apply encode_three|]. apply IH; [lia|done]. }
  destruct l3 as [|b4 l4]; [exact Hlone|]. apply Forall_cons in Hl3 as [H4 Hl4]. simpl in Hn.
  destruct (four_bytes b1 b2 b3 b4) eqn:E4; [|exact Hlone].
  apply (encode_cons _ _ [b1; b2; b3; b4]); [by apply encode_four|]. apply IH; [lia|done].
Qed.

(** Decoding any bytes and encoding the text gives the bytes back. *)
Lemma encode_decode (bytes : list Z) : Forall is_byte bytes -> encode (decode bytes) = Some bytes.
Proof. by apply (encode_decode_length (length bytes)). Qed.
