(* ===== verification/PyRe.v ===== *)
(** * Python's [re] with captures

    The patterns the code compiles, parsed from the text they have in the source:
    alternation, groups (named, numbered, non-capturing), greedy and lazy repetition,
    classes, [\b], lookahead, fixed-width lookbehind, back-references and the conditional
    on a group.  [paths] lists the ways a pattern can match from a position in the order
    the backtracking engine tries them, so the first one is Python's match.  The engine's
    rule against repeating an empty iteration is a progress test, which is exact for
    bodies that do not match the empty text; no pattern of the library has another one. *)

From S2P Require Import Prelude PyStr Regex.
#[local] Open Scope Z_scope.

(** ** Patterns *)

Inductive pat : Type :=
| PEps
| PChar (f : ascii -> bool)
| PSeq (a b : pat)
| PAlt (a b : pat)
| PStar (greedy : bool) (a : pat)
| PGroup (n : nat) (a : pat)
| PBackref (icase : bool) (n : nat)
| PIf (n : nat) (yes no : pat)
| PAhead (neg : bool) (a : pat)
| PBehind (neg : bool) (width : nat) (a : pat)
| PWordB (neg : bool)
| PStart (multiline : bool)
| PEnd (multiline : bool)
| PTextEnd.

(** A position: its index, the text before it reversed, the text after it; and for each
    group its span's start with the text it matched. *)
Record at_pos : Type := {
  at_ : nat;
  before : string;
  rest : string;
  groups : list (nat * (nat * string))
}.

Definition start_of (text : string) : at_pos :=
  {| at_ := O; before := ""; rest := text; groups := [] |}.

Definition group_of (s : at_pos) (n : nat) : option (nat * string) :=
  snd <$> List.find (fun p => eqb p.1 n) (groups s).

Definition clear (s : at_pos) : at_pos :=
  {| at_ := at_ s; before := before s; rest := rest s; groups := [] |}.

(** One character forward and back. *)
Definition step (s : at_pos) : option (ascii * at_pos) :=
  match rest s with
  | EmptyString => None
  | String c t =>
      Some (c, {| at_ := S (at_ s); before := String c (before s); rest := t;
                  groups := groups s |})
  end.

Definition back (s : at_pos) : option at_pos :=
  match before s with
  | EmptyString => None
  | String c b =>
      Some {| at_ := pred (at_ s); before := b; rest := String c (rest s); groups := groups s |}
  end.

Fixpoint back_n (n : nat) (s : at_pos) : option at_pos :=
  match n with O => Some s | S n' => s' ← back s; back_n n' s' end.

Fixpoint step_n (n : nat) (s : at_pos) : at_pos :=
  match n with
  | O => s
  | S n' => match step s with Some (_, s') => step_n n' s' | None => s end
  end.

Definition first_is (f : ascii -> bool) (s : string) : bool :=
  match s with String c _ => f c | EmptyString => false end.

Definition newline : ascii := char 10.

(** [$] without [MULTILINE]: the end, or before a final line feed. *)
Definition at_end (multiline : bool) (s : at_pos) : bool :=
  match rest s with
  | EmptyString => true
  | String c t => eqb c newline && (multiline || eqb t "")
  end.

Definition at_start (multiline : bool) (s : at_pos) : bool :=
  match before s with EmptyString => true | String c _ => multiline && eqb c newline end.

Definition save (n : nat) (s q : at_pos) : at_pos :=
  {| at_ := at_ q; before := before q; rest := rest q;
     groups := (n, (at_ s, take_str (at_ q - at_ s) (rest s))) :: groups q |}.

Definition text_at (icase : bool) (w s : string) : bool :=
  if icase then starts_with (lower w) (lower s) else starts_with w s.

Section Star.
Context (go : at_pos -> list at_pos) (greedy : bool).

(** Iterations that make progress, [fuel] of them at most. *)
Fixpoint star_paths (fuel : nat) (s : at_pos) : list at_pos :=
  match fuel with
  | O => [s]
  | S fuel' =>
      let more := flat_map (fun q => if (at_ s <? at_ q)%nat then star_paths fuel' q else []) (go s) in
      if greedy then more ++ [s] else s :: more
  end.
End Star.

Fixpoint paths (r : pat) (s : at_pos) : list at_pos :=
  match r with
  | PEps => [s]
  | PChar f =>
      match step s with Some (c, q) => if f c then [q] else [] | None => [] end
  | PSeq a b => flat_map (paths b) (paths a s)
  | PAlt a b => paths a s ++ paths b s
  | PStar greedy a => star_paths (paths a) greedy (str_len (rest s)) s
  | PGroup n a => map (save n s) (paths a s)
  | PBackref icase n =>
      match group_of s n with
      | Some (_, w) => if text_at icase w (rest s) then [step_n (str_len w) s] else []
      | None => []
      end
  | PIf n yes no => if group_of s n is Some _ then paths yes s else paths no s
  | PAhead false a =>
      match paths a s with
      | q :: _ => [{| at_ := at_ s; before := before s; rest := rest s; groups := groups q |}]
      | [] => []
      end
  | PAhead true a => match paths a s with _ :: _ => [] | [] => [s] end
  | PBehind neg width a =>
      let found :=
        match back_n width s with
        | Some b => existsb (fun q => (at_ q =? at_ s)%nat) (paths a b)
        | None => false
        end in
      if xorb neg found then [s] else []
  | PWordB neg =>
      if xorb neg (xorb (first_is is_word (before s)) (first_is is_word (rest s))) then [s] else []
  | PStart multiline => if at_start multiline s then [s] else []
  | PEnd multiline => if at_end multiline s then [s] else []
  | PTextEnd => if eqb (rest s) "" then [s] else []
  end.

(** ** The operations on a compiled pattern *)

(** A match: where it starts and the position, with the groups, where it ends. *)
Record match_ : Type := { m_from : at_pos; m_to : at_pos }.

Definition m_start (m : match_) : nat := at_ (m_from m).
Definition m_end (m : match_) : nat := at_ (m_to m).
Definition m_text (m : match_) : string := take_str (m_end m - m_start m) (rest (m_from m)).

(** [m.group(n)] and its span; [None] for a group that took no part. *)
Definition m_group (m : match_) (n : nat) : option string := snd <$> group_of (m_to m) n.
Definition m_span (m : match_) (n : nat) : option (nat * nat) :=
  p ← group_of (m_to m) n; Some (p.1, (p.1 + str_len p.2)%nat).

(** The first way, or the first that moves. *)
Definition first_path (r : pat) (must_advance : bool) (s : at_pos) : option at_pos :=
  List.find (fun q => negb must_advance || negb (at_ q =? at_ s)%nat) (paths r s).

Fixpoint search_at (r : pat) (must_advance : bool) (fuel : nat) (s : at_pos) : option match_ :=
  match first_path r must_advance s with
  | Some q => Some {| m_from := s; m_to := q |}
  | None =>
      match fuel, step s with
      | S fuel', Some (_, s') => search_at r false fuel' s'
      | _, _ => None
      end
  end.

(** [pattern.search(text)], [pattern.match(text)], [pattern.fullmatch(text)] *)
Definition re_search (r : pat) (text : string) : option match_ :=
  search_at r false (str_len text) (start_of text).

Definition re_match (r : pat) (text : string) : option match_ :=
  q ← first_path r false (start_of text); Some {| m_from := start_of text; m_to := q |}.

Definition re_fullmatch (r : pat) (text : string) : option match_ :=
  q ← List.find (fun q => eqb (rest q) "") (paths r (start_of text));
  Some {| m_from := start_of text; m_to := q |}.

Definition found (o : option match_) : bool := if o is Some _ then true else false.

(** [pattern.finditer(text)]: after a match the search goes on at its end, and after an
    empty one it has to move. *)
Fixpoint finditer_at (r : pat) (fuel : nat) (must_advance : bool) (s : at_pos) : list match_ :=
  match fuel with
  | O => []
  | S fuel' =>
      match search_at r must_advance (str_len (rest s)) s with
      | Some m => m :: finditer_at r fuel' (m_start m =? m_end m)%nat (clear (m_to m))
      | None => []
      end
  end.

Definition finditer (r : pat) (text : string) : list match_ :=
  finditer_at r (2 * str_len text + 2) false (start_of text).

(** [pattern.sub(f, text)]: the text around the matches, and [f] of each. *)
Fixpoint sub_at (f : match_ -> string) (s : at_pos) (l : list match_) : string :=
  match l with
  | [] => rest s
  | m :: l' => take_str (m_start m - at_ s) (rest s) +:+ f m +:+ sub_at f (m_to m) l'
  end.

Definition re_sub (r : pat) (f : match_ -> string) (text : string) : string :=
  sub_at f (start_of text) (finditer r text).

(** ** Parsing a pattern *)

Record flags : Type := {
  f_ignorecase : bool;
  f_multiline : bool;
  f_dotall : bool;
  f_verbose : bool
}.

Definition NOFLAG : flags :=
  {| f_ignorecase := false; f_multiline := false; f_dotall := false; f_verbose := false |}.
Definition IGNORECASE : flags :=
  {| f_ignorecase := true; f_multiline := false; f_dotall := false; f_verbose := false |}.
Definition MULTILINE : flags :=
  {| f_ignorecase := false; f_multiline := true; f_dotall := false; f_verbose := false |}.
Definition DOTALL : flags :=
  {| f_ignorecase := false; f_multiline := false; f_dotall := true; f_verbose := false |}.
Definition VERBOSE : flags :=
  {| f_ignorecase := false; f_multiline := false; f_dotall := false; f_verbose := true |}.

(** [re.A | re.B] *)
Definition flag_or (x y : flags) : flags :=
  {| f_ignorecase := f_ignorecase x || f_ignorecase y;
     f_multiline := f_multiline x || f_multiline y;
     f_dotall := f_dotall x || f_dotall y;
     f_verbose := f_verbose x || f_verbose y |}.

(** The groups opened so far and their names. *)
Record opened : Type := { o_count : nat; o_names : list (string * nat) }.

Definition open_group (o : opened) (name : option string) : opened :=
  {| o_count := S (o_count o);
     o_names := match name with
                | Some x => (x, S (o_count o)) :: o_names o
                | None => o_names o
                end |}.

(** *** Characters *)

Definition eqc (a b : ascii) : bool := Ascii.eqb a b.

(** An ASCII letter in either case; other characters have one form here. *)
Definition fold (f : ascii -> bool) (c : ascii) : bool :=
  f c || f (lower_char c)
  || (((97 <=? code c) && (code c <=? 122)) && f (char (code c - 32))).

Definition one_char (fl : flags) (f : ascii -> bool) : pat :=
  PChar (if f_ignorecase fl then fold f else f).

(** The class a letter after a backslash stands for, inside and outside brackets. *)
Definition class_escape (c : ascii) : option (ascii -> bool) :=
  if eqc c "s" then Some is_space
  else if eqc c "S" then Some (fun x => negb (is_space x))
  else if eqc c "d" then Some is_digit
  else if eqc c "D" then Some (fun x => negb (is_digit x))
  else if eqc c "w" then Some is_word
  else if eqc c "W" then Some (fun x => negb (is_word x))
  else None.

(** The character a letter after a backslash stands for. *)
Definition char_escape (c : ascii) : option ascii :=
  if eqc c "n" then Some (char 10)
  else if eqc c "r" then Some (char 13)
  else if eqc c "t" then Some (char 9)
  else if eqc c "f" then Some (char 12)
  else if eqc c "v" then Some (char 11)
  else if eqc c "a" then Some (char 7)
  else if is_word c then None else Some c.

Definition hex_val (c : ascii) : option Z :=
  let n := code (lower_char c) in
  if is_digit c then Some (n - 48)
  else if (97 <=? n) && (n <=? 102) then Some (n - 87) else None.

(** One end of a range in brackets: a character, or a class that ends no range. *)
Definition set_item (s : string) : option ((ascii + (ascii -> bool)) * string) :=
  match s with
  | String c s1 =>
      if eqc c backslash then
        match s1 with
        | String e s2 =>
            if eqc e "b" then Some (inl (char 8), s2)
            else if eqc e "x" then
              match s2 with
              | String h (String l s3) =>
                  x ← hex_val h; y ← hex_val l; Some (inl (char (16 * x + y)), s3)
              | _ => None
              end
            else match class_escape e with
                 | Some f => Some (inr f, s2)
                 | None => d ← char_escape e; Some (inl d, s2)
                 end
        | EmptyString => None
        end
      else Some (inl c, s1)
  | EmptyString => None
  end.

Definition range (a b c : ascii) : bool := (code a <=? code c) && (code c <=? code b).

(** The items of a class up to its closing bracket, which is literal in first place. *)
Fixpoint set_items (fuel : nat) (first : bool) (s : string)
  : option ((ascii -> bool) * string) :=
  match fuel with
  | O => None
  | S n =>
      match s with
      | EmptyString => None
      | String c s1 =>
          if negb first && eqc c "]" then Some ((fun _ => false), s1)
          else
            '(a, s2) ← set_item s;
            '(f, s3) ←
              match a, s2 with
              | inl lo, String d (String e s') =>
                  if eqc d "-" && negb (eqc e "]") then
                    '(b, s4) ← set_item (String e s');
                    match b with
                    | inl hi => Some (range lo hi, s4)
                    | inr _ => None
                    end
                  else Some (eqc lo, s2)
              | inl lo, _ => Some (eqc lo, s2)
              | inr f, _ => Some (f, s2)
              end;
            '(g, s5) ← set_items n false s3;
            Some ((fun x => f x || g x), s5)
      end
  end.

Definition p_set (s : string) : option ((ascii -> bool) * string) :=
  match s with
  | String c s1 =>
      if eqc c "^" then
        '(f, r) ← set_items (str_len s) true s1; Some ((fun x => negb (f x)), r)
      else set_items (S (str_len s)) true s
  | EmptyString => None
  end.

(** *** Repetition *)

Fixpoint opts (greedy : bool) (n : nat) (a : pat) : pat :=
  match n with
  | O => PEps
  | S n' =>
      let more := PSeq a (opts greedy n' a) in
      if greedy then PAlt more PEps else PAlt PEps more
  end.

Fixpoint times (n : nat) (a tail : pat) : pat :=
  match n with O => tail | S n' => PSeq a (times n' a tail) end.

(** [a{lo,hi}]; [None] is no upper bound. *)
Definition repeat_pat (greedy : bool) (lo : nat) (hi : option nat) (a : pat) : pat :=
  times lo a (match hi with
              | Some h => opts greedy (h - lo) a
              | None => PStar greedy a
              end).

Fixpoint digits (s : string) : string * string :=
  match s with
  | String c s' => if is_digit c then let '(d, r) := digits s' in (String c d, r) else ("", s)
  | EmptyString => ("", "")
  end.

Definition number (d : string) : option nat := Z.to_nat <$> py_int d.

(** [lo,hi], [lo,] or [lo] before the closing brace. *)
Definition braces (s : string) : option (nat * option nat * string) :=
  let '(d1, s1) := digits s in
  match s1 with
  | String c s2 =>
      if eqc c "}" then n ← number d1; Some (n, Some n, s2)
      else if eqc c "," then
        let '(d2, s3) := digits s2 in
        match s3 with
        | String e s4 =>
            if eqc e "}" then
              let lo := default O (number d1) in
              if eqb d2 "" then Some (lo, None, s4)
              else hi ← number d2; Some (lo, Some hi, s4)
            else None
        | EmptyString => None
        end
      else None
  | EmptyString => None
  end.

Definition lazy_mark (s : string) : bool * string :=
  match s with
  | String c s' => if eqc c "?" then (false, s') else (true, s)
  | EmptyString => (true, "")
  end.

Definition quantify (a : pat) (s : string) : pat * string :=
  match s with
  | EmptyString => (a, "")
  | String c s1 =>
      let bounds :=
        if eqc c "*" then Some (O, None, s1)
        else if eqc c "+" then Some (1%nat, None, s1)
        else if eqc c "?" then Some (O, Some 1%nat, s1)
        else if eqc c "{" then braces s1
        else None in
      match bounds with
      | Some (lo, hi, s2) =>
          let '(greedy, s3) := lazy_mark s2 in (repeat_pat greedy lo hi a, s3)
      | None => (a, s)
      end
  end.

(** *** Groups *)

(** The text up to the character that ends a name. *)
Fixpoint name_until (c : ascii) (s : string) : option (string * string) :=
  match s with
  | EmptyString => None
  | String d s' =>
      if eqc c d then Some ("", s')
      else '(n, r) ← name_until c s'; Some (String d n, r)
  end.

Definition lookup_name (o : opened) (name : string) : option nat :=
  match List.find (fun p => eqb p.1 name) (o_names o) with
  | Some p => Some p.2
  | None => number name
  end.

(** The number of characters of every match, when they all agree. *)
Fixpoint width (r : pat) : option nat :=
  match r with
  | PEps | PWordB _ | PStart _ | PEnd _ | PTextEnd | PAhead _ _ | PBehind _ _ _ => Some O
  | PChar _ => Some 1%nat
  | PSeq a b => x ← width a; y ← width b; Some (x + y)%nat
  | PAlt a b => x ← width a; y ← width b; if (x =? y)%nat then Some x else None
  | PGroup _ a => width a
  | PStar _ _ | PBackref _ _ | PIf _ _ _ => None
  end.

Definition closing (s : string) : option string :=
  match s with
  | String c s' => if eqc c ")" then Some s' else None
  | EmptyString => None
  end.

(** [VERBOSE] ignores white space and comments between items. *)
Fixpoint skip_verbose (comment : bool) (s : string) : string :=
  match s with
  | EmptyString => ""
  | String c s' =>
      if comment then skip_verbose (negb (eqc c newline)) s'
      else if is_space c then skip_verbose false s'
      else if eqc c "#" then skip_verbose true s'
      else s
  end.

Definition skipped (fl : flags) (s : string) : string :=
  if f_verbose fl then skip_verbose false s else s.

Fixpoint p_alt (n : nat) (fl : flags) (o : opened) (s : string) {struct n}
  : option (pat * opened * string) :=
  match n with
  | O => None
  | S n' =>
      '(a, o1, r) ← p_seq n' fl o s;
      match r with
      | String c r' =>
          if eqc c "|" then '(b, o2, r2) ← p_alt n' fl o1 r'; Some (PAlt a b, o2, r2)
          else Some (a, o1, r)
      | EmptyString => Some (a, o1, r)
      end
  end
with p_seq (n : nat) (fl : flags) (o : opened) (s0 : string) {struct n}
  : option (pat * opened * string) :=
  match n with
  | O => None
  | S n' =>
      let s := skipped fl s0 in
      match s with
      | EmptyString => Some (PEps, o, s)
      | String c _ =>
          if eqc c "|" || eqc c ")" then Some (PEps, o, s)
          else
            '(a, o1, s1) ← p_atom n' fl o s;
            let '(q, s2) := quantify a (skipped fl s1) in
            '(b, o2, s3) ← p_seq n' fl o1 s2;
            Some (PSeq q b, o2, s3)
      end
  end
with p_atom (n : nat) (fl : flags) (o : opened) (s : string) {struct n}
  : option (pat * opened * string) :=
  match n with
  | O => None
  | S n' =>
      match s with
      | EmptyString => None
      | String c s1 =>
          if eqc c "[" then '(f, r) ← p_set s1; Some (one_char fl f, o, r)
          else if eqc c "." then
            Some (PChar (fun x => f_dotall fl || negb (eqc x newline)), o, s1)
          else if eqc c "^" then Some (PStart (f_multiline fl), o, s1)
          else if eqc c "$" then Some (PEnd (f_multiline fl), o, s1)
          else if eqc c backslash then
            match s1 with
            | String e s2 =>
                if eqc e "b" then Some (PWordB false, o, s2)
                else if eqc e "B" then Some (PWordB true, o, s2)
                else if eqc e "A" then Some (PStart false, o, s2)
                else if eqc e "Z" then Some (PTextEnd, o, s2)
                else if eqc e "x" then '(a, r) ← set_item s;
                  match a with inl x => Some (one_char fl (eqc x), o, r) | inr _ => None end
                else if is_digit e && negb (eqc e "0") then
                  Some (PBackref (f_ignorecase fl) (Z.to_nat (code e - 48)), o, s2)
                else match class_escape e with
                     | Some f => Some (PChar f, o, s2)
                     | None => d ← char_escape e; Some (one_char fl (eqc d), o, s2)
                     end
            | EmptyString => None
            end
          else if eqc c "(" then
            let group o1 k body :=
              '(a, o2, r) ← p_alt n' fl o1 body; r' ← closing r; Some (k a, o2, r') in
            if starts_with "?:" s1 then group o (fun a => a) (drop_str 2 s1)
            else if starts_with "?=" s1 then group o (PAhead false) (drop_str 2 s1)
            else if starts_with "?!" s1 then group o (PAhead true) (drop_str 2 s1)
            else if starts_with "?<=" s1 || starts_with "?<!" s1 then
              '(a, o2, r) ← p_alt n' fl o (drop_str 3 s1);
              r' ← closing r; w ← width a;
              Some (PBehind (starts_with "?<!" s1) w a, o2, r')
            else if starts_with "?P=" s1 then
              '(name, r) ← name_until ")" (drop_str 3 s1);
              k ← lookup_name o name; Some (PBackref (f_ignorecase fl) k, o, r)
            else if starts_with "?P<" s1 then
              '(name, r) ← name_until ">" (drop_str 3 s1);
              group (open_group o (Some name)) (PGroup (S (o_count o))) r
            else if starts_with "?(" s1 then
              '(name, r) ← name_until ")" (drop_str 2 s1);
              k ← lookup_name o name;
              '(a, o1, r1) ← p_seq n' fl o r;
              match r1 with
              | String d r2 =>
                  if eqc d "|" then
                    '(b, o2, r3) ← p_seq n' fl o1 r2; r4 ← closing r3; Some (PIf k a b, o2, r4)
                  else r2 ← closing r1; Some (PIf k a PEps, o1, r2)
              | EmptyString => None
              end
            else if first_is (eqc "?") s1 then None
            else group (open_group o None) (PGroup (S (o_count o))) s1
          else Some (one_char fl (eqc c), o, s1)
      end
  end.

(** A compiled pattern, with the numbers of its named groups. *)
Record regex : Type := { r_pat : pat; r_names : list (string * nat) }.

Definition re_parse (fl : flags) (s : string) : option regex :=
  '(a, o, r) ← p_alt (3 * str_len s + 3) fl {| o_count := O; o_names := [] |} s;
  if eqb r "" then Some {| r_pat := a; r_names := o_names o |} else None.

(** [re.compile(pattern, flags)]; a pattern that does not parse would raise at import,
    and matches nothing here. *)
Definition re_compile (fl : flags) (s : string) : regex :=
  default {| r_pat := PChar (fun _ => false); r_names := [] |} (re_parse fl s).

Coercion r_pat : regex >-> pat.

Definition parses (fl : flags) (s : string) : bool := if re_parse fl s is Some _ then true else false.

Definition group_number (r : regex) (name : string) : nat :=
  match List.find (fun p => eqb p.1 name) (r_names r) with Some p => p.2 | None => O end.

(** [m.group(name)] of a match of [r]. *)
Definition named (r : regex) (m : match_) (name : string) : option string :=
  m_group m (group_number r name).
Definition named_span (r : regex) (m : match_) (name : string) : option (nat * nat) :=
  m_span m (group_number r name).

Definition dq : string := String quote "".

(** ** Matches tile the text *)

(** [q] is reached from [s] by reading some text. *)
Definition moves (s q : at_pos) : Prop :=
  exists w, rest s = w +:+ rest q /\ at_ q = (at_ s + str_len w)%nat.

Lemma moves_refl (s q : at_pos) : rest q = rest s -> at_ q = at_ s -> moves s q.
Proof. intros Hr Ha. exists "". rewrite Hr, Ha. simpl. split; [done|lia]. Qed.

Lemma moves_trans (s q r : at_pos) : moves s q -> moves q r -> moves s r.
Proof.
  intros (v & Hv & Hq) (w & Hw & Hr). exists (v +:+ w).
  rewrite Hv, Hw, str_app_assoc, Hr, Hq, str_len_app. split; [done|lia].
Qed.

Lemma moves_step (s q : at_pos) (c : ascii) : step s = Some (c, q) -> moves s q.
Proof.
  unfold step. destruct (rest s) as [|d t] eqn:E; [done|]. intros [= <- <-].
  exists (String d ""). rewrite E. simpl. split; [done|lia].
Qed.

Lemma moves_step_n (n : nat) (s : at_pos) : moves s (step_n n s).
Proof.
  revert s. induction n as [|n IH]; intros s; simpl; [by apply moves_refl|].
  destruct (step s) as [[c q]|] eqn:E; [|by apply moves_refl].
  eapply moves_trans; [by eapply moves_step|apply IH].
Qed.

Lemma moves_len (s q : at_pos) : moves s q -> (at_ q + str_len (rest q) = at_ s + str_len (rest s))%nat.
Proof. intros (w & Hw & Hq). rewrite Hw, Hq, str_len_app. lia. Qed.

Lemma star_paths_moves (go : at_pos -> list at_pos) (greedy : bool) (n : nat) (s q : at_pos) :
  (forall s q, q ∈ go s -> moves s q) -> q ∈ star_paths go greedy n s -> moves s q.
Proof.
  intros Hgo. revert s. induction n as [|n IH]; intros s; simpl.
  - intros ->%list_elem_of_singleton. by apply moves_refl.
  - assert (Hmore : q ∈ flat_map (fun q => if (at_ s <? at_ q)%nat
                                          then star_paths go greedy n q else []) (go s) ->
                    moves s q).
    { intros (p & Hp & Hq)%flat_map_elem. case_match; [|by apply elem_of_nil in Hq].
      eapply moves_trans; [by apply Hgo|by apply IH]. }
    destruct greedy.
    + intros [Hq| ->%list_elem_of_singleton]%elem_of_app; [by apply Hmore|by apply moves_refl].
    + intros [->|Hq]%elem_of_cons; [by apply moves_refl|by apply Hmore].
Qed.

Lemma paths_moves (r : pat) (s q : at_pos) : q ∈ paths r s -> moves s q.
Proof.
  revert s q. induction r as [|f|a IHa b IHb|a IHa b IHb|g a IHa|n a IHa|ic n|n y IHy z IHz
                              |ahead a IHa|neg w a IHa|neg|m|m|]; intros s q; simpl.
  - intros ->%list_elem_of_singleton. by apply moves_refl.
  - destruct (step s) as [[c p]|] eqn:E; [|by intros ?%elem_of_nil].
    case_match; [|by intros ?%elem_of_nil]. intros ->%list_elem_of_singleton.
    by eapply moves_step.
  - intros (p & Hp & Hq)%flat_map_elem. eapply moves_trans; eauto.
  - intros [Hq|Hq]%elem_of_app; eauto.
  - by apply star_paths_moves.
  - intros (p & -> & Hp)%list_elem_of_fmap. by apply IHa in Hp.
  - case_match; [|by intros ?%elem_of_nil]. destruct p as [? w].
    case_match; [|by intros ?%elem_of_nil]. intros ->%list_elem_of_singleton. apply moves_step_n.
  - case_match; eauto.
  - destruct ahead; case_match; try (by intros ?%elem_of_nil);
      intros ->%list_elem_of_singleton; by apply moves_refl.
  - case_match; [|by intros ?%elem_of_nil]. intros ->%list_elem_of_singleton. by apply moves_refl.
  - case_match; [|by intros ?%elem_of_nil]. intros ->%list_elem_of_singleton. by apply moves_refl.
  - case_match; [|by intros ?%elem_of_nil]. intros ->%list_elem_of_singleton. by apply moves_refl.
  - case_match; [|by intros ?%elem_of_nil]. intros ->%list_elem_of_singleton. by apply moves_refl.
  - case_match; [|by intros ?%elem_of_nil]. intros ->%list_elem_of_singleton. by apply moves_refl.
Qed.

Lemma first_path_spec (r : pat) (adv : bool) (s q : at_pos) :
  first_path r adv s = Some q -> q ∈ paths r s /\ (adv = true -> at_ q <> at_ s).
Proof.
  unfold first_path. intros H. apply find_some in H as [Hq Hadv]. split.
  - by apply list_elem_of_In.
  - intros ->. simpl in Hadv. by apply negb_true_iff, Nat.eqb_neq in Hadv.
Qed.

(** A match is found at or after the position searched from; an empty match right there
    only when the search need not move. *)
Lemma search_at_spec (r : pat) (adv : bool) (n : nat) (s : at_pos) (m : match_) :
  search_at r adv n s = Some m ->
  moves s (m_from m) /\ m_to m ∈ paths r (m_from m) /\
  (adv = true -> at_ (m_to m) <> at_ s).
Proof.
  revert adv s. induction n as [|n IH]; intros adv s; simpl;
    destruct (first_path r adv s) as [q|] eqn:E.
  1,3: intros [= <-]; apply first_path_spec in E as [Hq Hadv];
    split_and!; [by apply moves_refl|done|exact Hadv].
  - by destruct (step s) as [[]|].
  - destruct (step s) as [[c s']|] eqn:Es; [|done]. intros H. apply IH in H as (H1 & H2 & _).
    assert (Hs : moves s s') by by eapply moves_step.
    split_and!; [by eapply moves_trans|done|]. intros _.
    unfold step in Es. destruct (rest s) eqn:Er; [done|]. injection Es as _ <-.
    apply paths_moves in H2 as (w & _ & Hw). destruct H1 as (v & _ & Hv). simpl in *. lia.
Qed.

(** The matches lie in the text one after the other. *)
Fixpoint tiles (s : at_pos) (l : list match_) : Prop :=
  match l with
  | [] => True
  | m :: l' => moves s (m_from m) /\ moves (m_from m) (m_to m) /\ tiles (m_to m) l'
  end.

Lemma tiles_clear (s : at_pos) (l : list match_) : tiles (clear s) l <-> tiles s l.
Proof. by destruct l. Qed.

Lemma finditer_tiles (r : pat) (n : nat) (adv : bool) (s : at_pos) :
  tiles s (finditer_at r n adv s).
Proof.
  revert adv s. induction n as [|n IH]; intros adv s; simpl; [done|].
  destruct (search_at r adv _ s) as [m|] eqn:E; [|done]. simpl.
  apply search_at_spec in E as (H1 & H2%paths_moves & _). split_and!; [done..|].
  apply tiles_clear, IH.
Qed.

(** Substituting each match by its own text gives the text back: nothing between the
    matches is lost or repeated. *)
Lemma take_str_app (w t : string) : take_str (str_len w) (w +:+ t) = w.
Proof. induction w as [|c w IH]; simpl; [by destruct t|]. by f_equal. Qed.

Lemma moves_text (s q : at_pos) : moves s q -> rest s = take_str (at_ q - at_ s) (rest s) +:+ rest q.
Proof.
  intros (w & Hw & Hq). rewrite Hq, Hw. replace (at_ s + str_len w - at_ s)%nat with (str_len w) by lia.
  by rewrite take_str_app.
Qed.

Lemma sub_at_same (s : at_pos) (l : list match_) : tiles s l -> sub_at m_text s l = rest s.
Proof.
  revert s. induction l as [|m l IH]; intros s; simpl; [done|]. intros (H1 & H2 & Hl).
  rewrite (IH _ Hl). unfold m_text, m_start, m_end.
  rewrite <- (moves_text _ _ H2). symmetry. by apply moves_text.
Qed.

(** [finditer] has fuel for every match. *)
Definition finditer_need (adv : bool) (s : at_pos) : nat :=
  (2 * str_len (rest s) + (if adv then 0 else 1))%nat.

Lemma finditer_fuel (r : pat) (n k : nat) (adv : bool) (s : at_pos) :
  (finditer_need adv s < n)%nat -> (finditer_need adv s < k)%nat ->
  finditer_at r n adv s = finditer_at r k adv s.
Proof.
  revert k adv s. induction n as [|n IH]; intros [|k] adv s Hn Hk; try lia. simpl.
  destruct (search_at r adv _ s) as [m|] eqn:E; [|done]. f_equal.
  apply search_at_spec in E as (H1 & H2%paths_moves & Hadv).
  apply moves_len in H1 as L1. apply moves_len in H2 as L2.
  destruct H1 as (v & _ & Hv), H2 as (w & _ & Hw).
  assert (Hneed : (finditer_need (m_start m =? m_end m)%nat (clear (m_to m))
                   < finditer_need adv s)%nat).
  { unfold finditer_need, m_start, m_end in *. simpl in *.
    destruct (Nat.eqb_spec (at_ (m_from m)) (at_ (m_to m))), adv; lia. }
  apply IH; lia.
Qed.

(** ** Groups lie in the text *)

Definition in_text (total : nat) (g : nat * (nat * string)) : Prop :=
  (g.2.1 + str_len g.2.2 <= total)%nat.

(** The groups read so far lie in the text, of which [s] is a position. *)
Definition groups_in (total : nat) (s : at_pos) : Prop :=
  (at_ s + str_len (rest s))%nat = total /\ Forall (in_text total) (groups s).

Lemma str_len_take (n : nat) (s : string) : (n <= str_len s)%nat -> str_len (take_str n s) = n.
Proof.
  revert s. induction n as [|n IH]; intros [|c s] H; simpl in *; try lia. by rewrite IH by lia.
Qed.

Lemma star_paths_groups (go : at_pos -> list at_pos) (greedy : bool) (total n : nat) (s q : at_pos) :
  (forall s q, q ∈ go s -> groups_in total s -> groups_in total q) ->
  q ∈ star_paths go greedy n s -> groups_in total s -> groups_in total q.
Proof.
  intros Hgo. revert s. induction n as [|n IH]; intros s; simpl.
  - by intros ->%list_elem_of_singleton.
  - assert (Hmore : q ∈ flat_map (fun q => if (at_ s <? at_ q)%nat
                                          then star_paths go greedy n q else []) (go s) ->
                    groups_in total s -> groups_in total q).
    { intros (p & Hp & Hq)%flat_map_elem Hs. case_match; [|by apply elem_of_nil in Hq]. eauto. }
    destruct greedy.
    + intros [Hq| ->%list_elem_of_singleton]%elem_of_app; [by apply Hmore|done].
    + intros [->|Hq]%elem_of_cons; [done|by apply Hmore].
Qed.

Lemma groups_in_move (total : nat) (s q : at_pos) :
  moves s q -> groups q = groups s -> groups_in total s -> groups_in total q.
Proof. intros Hm%moves_len Hg [Ht Hs]. unfold groups_in. by rewrite Hm, Hg. Qed.

Lemma step_groups (s q : at_pos) (c : ascii) : step s = Some (c, q) -> groups q = groups s.
Proof. unfold step. destruct (rest s); [done|]. by intros [= _ <-]. Qed.

Lemma step_n_groups (n : nat) (s : at_pos) : groups (step_n n s) = groups s.
Proof.
  revert s. induction n as [|n IH]; intros s; simpl; [done|].
  destruct (step s) as [[c q]|] eqn:E; [|done]. rewrite IH. by eapply step_groups.
Qed.

Lemma paths_groups (r : pat) (total : nat) (s q : at_pos) :
  q ∈ paths r s -> groups_in total s -> groups_in total q.
Proof.
  revert s q. induction r as [|f|a IHa b IHb|a IHa b IHb|g a IHa|n a IHa|ic n|n y IHy z IHz
                              |ahead a IHa|neg w a IHa|neg|m|m|]; intros s q; simpl.
  1: by intros ->%list_elem_of_singleton.
  - destruct (step s) as [[c p]|] eqn:E; [|by intros ?%elem_of_nil].
    case_match; [|by intros ?%elem_of_nil]. intros ->%list_elem_of_singleton.
    apply groups_in_move; [by eapply moves_step|by eapply step_groups].
  - intros (p & Hp & Hq)%flat_map_elem ?. eauto.
  - intros [Hq|Hq]%elem_of_app; eauto.
  - by apply star_paths_groups.
  - intros (p & -> & Hp)%list_elem_of_fmap Hs. destruct (IHa _ _ Hp Hs) as [Ht Hg], Hs as [Hs _].
    split; [done|]. simpl. constructor; [|done]. unfold in_text. simpl.
    apply paths_moves in Hp as (w & Hw & Hp). rewrite Hw in Hs. rewrite str_len_app in Hs.
    rewrite Hp, Hw.
    replace (at_ s + str_len w - at_ s)%nat with (str_len w) by lia. rewrite take_str_app. lia.
  - case_match; [|by intros ?%elem_of_nil]. destruct p as [? w].
    case_match; [|by intros ?%elem_of_nil]. intros ->%list_elem_of_singleton.
    apply groups_in_move; [apply moves_step_n|apply step_n_groups].
  - case_match; eauto.
  - destruct ahead; case_match; try (by intros ?%elem_of_nil);
      intros ->%list_elem_of_singleton Hs; [done|].
    destruct (IHa s a0) as [_ Hg]; [|done|by split; [apply Hs|]]. rewrite H. left.
  - case_match; [|by intros ?%elem_of_nil]. by intros ->%list_elem_of_singleton.
  - case_match; [|by intros ?%elem_of_nil]. by intros ->%list_elem_of_singleton.
  - case_match; [|by intros ?%elem_of_nil]. by intros ->%list_elem_of_singleton.
  - case_match; [|by intros ?%elem_of_nil]. by intros ->%list_elem_of_singleton.
  - case_match; [|by intros ?%elem_of_nil]. by intros ->%list_elem_of_singleton.
Qed.

Lemma search_at_groups (r : pat) (total : nat) (adv : bool) (n : nat) (s : at_pos) (m : match_) :
  search_at r adv n s = Some m -> groups_in total s ->
  groups_in total (m_from m) /\ groups_in total (m_to m).
Proof.
  revert adv s. induction n as [|n IH]; intros adv s; simpl;
    destruct (first_path r adv s) as [q|] eqn:E.
  1,3: intros [= <-] Hs; apply first_path_spec in E as [Hq _]; simpl;
    split; [done|by eapply paths_groups].
  - by destruct (step s) as [[]|].
  - destruct (step s) as [[c s']|] eqn:Es; [|done]. intros H Hs. apply IH in H; [done|].
    eapply groups_in_move; [by eapply moves_step|by eapply step_groups|done].
Qed.

Lemma finditer_groups (r : pat) (text : string) (m : match_) :
  m ∈ finditer r text ->
  groups_in (str_len text) (m_from m) /\ groups_in (str_len text) (m_to m).
Proof.
  unfold finditer. assert (Hs : groups_in (str_len text) (start_of text)) by done.
  revert Hs. generalize (start_of text), false, (2 * str_len text + 2)%nat.
  intros s b n. revert s b. induction n as [|n IH]; intros s b Hs; simpl.
  - by intros ?%elem_of_nil.
  - destruct (search_at r b _ s) as [m'|] eqn:E; [|by intros ?%elem_of_nil].
    apply (search_at_groups _ (str_len text)) in E; [|done].
    intros [->|Hm]%elem_of_cons; [done|].
    eapply IH; [|exact Hm]. destruct E as [_ [Ht _]]. by split; [|constructor].
Qed.

(** The span of a group, and of the match, lie in the text. *)
Lemma group_in_text (r : pat) (text : string) (m : match_) (n a b : nat) :
  m ∈ finditer r text -> m_span m n = Some (a, b) -> (a <= b <= str_len text)%nat.
Proof.
  intros [_ [_ Hg]]%finditer_groups. unfold m_span, group_of.
  destruct (List.find _ _) as [g|] eqn:E; [|done]. intros [= <- <-].
  apply find_some in E as [E _]. rewrite <- list_elem_of_In in E.
  apply (proj1 (Forall_forall _ _) Hg) in E. unfold in_text in E. destruct g as [? [? ?]].
  simpl in *. lia.
Qed.

Lemma match_in_text (r : pat) (text : string) (m : match_) :
  m ∈ finditer r text -> (m_end m <= str_len text)%nat.
Proof. intros [_ [Ht _]]%finditer_groups. unfold m_end. lia. Qed.
