(* ===== verification/PyNet.v ===== *)
(** * IP addresses and URLs

    [ipaddress.ip_address], the special-purpose registries behind [is_global] and
    [is_multicast] (CPython 3.12.4 and later), and [urllib.parse.urlsplit] with the parts of
    its result.  The text is Latin-1: no such character expands to a URL delimiter, so the
    NFKC check of a network location never raises. *)

From S2P Require Import Prelude PyStr.
#[local] Open Scope Z_scope.
#[local] Set Warnings "-register-all".

(** ** Text *)

(** [s.partition(c)]: the separator is there when the flag is set. *)
Definition partition (c : ascii) (s : string) : string * bool * string :=
  match find_char c s with
  | Some i => (take_str i s, true, drop_str (S i) s)
  | None => (s, false, "")
  end.

(** [s.rpartition(c)] of a separator that may be missing. *)
Definition rpart (c : ascii) (s : string) : string * bool * string :=
  match rpartition c s with
  | Some (before, after) => (before, true, after)
  | None => ("", false, s)
  end.

Definition colon : ascii := char 58.
Definition percent : ascii := char 37.
Definition at_sign : ascii := char 64.
Definition dot : ascii := char 46.
Definition open_bracket : ascii := char 91.
Definition close_bracket : ascii := char 93.

Definition printable (c : ascii) : bool :=
  let n := code c in
  ((32 <=? n) && (n <=? 126)) || ((161 <=? n) && negb (n =? 173)).

Definition hex_char (n : Z) : ascii := if n <? 10 then char (48 + n) else char (87 + n).

(** [f"{s!r}"] *)
Definition repr_char (q : ascii) (c : ascii) : string :=
  let n := code c in
  if (n =? 92) || Ascii.eqb c q then String backslash (String c "")
  else if n =? 9 then String backslash "t"
  else if n =? 10 then String backslash "n"
  else if n =? 13 then String backslash "r"
  else if printable c then String c ""
  else String backslash (String (char 120)
         (String (hex_char (n / 16)) (String (hex_char (n mod 16)) ""))).

Definition py_repr (s : string) : string :=
  let single := char 39 in
  let q := if has_char single s && negb (has_char quote s) then quote else single in
  String q (fold_right (fun c r => repr_char q c +:+ r) (String q "") (String.list_ascii_of_string s)).

(** [s.isdigit()] counts the superscript digits. *)
Definition is_py_digit (c : ascii) : bool :=
  is_digit c || mem (code c) [178; 179; 185].
Definition isdigit (s : string) : bool := negb (eqb s "") && all_chars is_py_digit s.

Definition hex_of (c : ascii) : option Z :=
  let n := code c in
  if is_digit c then Some (n - 48)
  else if (97 <=? n) && (n <=? 102) then Some (n - 87)
  else if (65 <=? n) && (n <=? 70) then Some (n - 55)
  else None.

(** ** Addresses *)

Inductive ip_addr : Type :=
| IPv4Address (n : Z)
| IPv6Address (n : Z) (scope_id : option string).

Fixpoint digits_value (acc : Z) (s : string) : Z :=
  match s with "" => acc | String c s' => digits_value (10 * acc + (code c - 48)) s' end.

Definition parse_octet (octet_str : string) : option Z :=
  if eqb octet_str "" || negb (all_chars is_digit octet_str) then None
  else if (3 <? str_len octet_str)%nat then None
  else if negb (eqb octet_str "0") && starts_with "0" octet_str then None
  else let n := digits_value 0 octet_str in if 255 <? n then None else Some n.

Definition ip4_from_string (s : string) : option Z :=
  match split_on dot s with
  | [a; b; c; d] =>
      a ← parse_octet a; b ← parse_octet b; c ← parse_octet c; d ← parse_octet d;
      Some (16777216 * a + 65536 * b + 256 * c + d)
  | _ => None
  end.

Fixpoint hextet_value (acc : Z) (s : string) : option Z :=
  match s with
  | "" => Some acc
  | String c s' => d ← hex_of c; hextet_value (16 * acc + d) s'
  end.

(** [int("", 16)] is an error too. *)
Definition parse_hextet (s : string) : option Z :=
  if eqb s "" || (4 <? str_len s)%nat then None else hextet_value 0 s.

Fixpoint hextets (acc : Z) (parts : list string) : option Z :=
  match parts with
  | [] => Some acc
  | p :: parts' => h ← parse_hextet p; hextets (65536 * acc + h) parts'
  end.

(** ['%x' % n] *)
Fixpoint hex_go (fuel : nat) (n : Z) : string :=
  match fuel with
  | O => ""
  | S f => if n <? 16 then String (hex_char n) ""
           else hex_go f (n / 16) +:+ String (hex_char (n mod 16)) ""
  end.
Definition hex_str (n : Z) : string := hex_go 32 n.

(** A trailing IPv4 address stands for two parts. *)
Definition expand_ipv4 (parts : list string) : option (list string) :=
  match rev parts with
  | last :: before =>
      if has_char dot last then
        n ← (if has_char slash last then None else ip4_from_string last);
        Some (rev before ++ [hex_str (n / 65536); hex_str (n mod 65536)])
      else Some parts
  | [] => Some parts
  end.

(** The indices of the empty parts that are not at an end. *)
Definition inner_empty (parts : list string) : list nat :=
  List.filter (fun i => eqb (nth i parts "") "") (seq 1 (length parts - 2)).

Definition ip6_from_string (s : string) : option Z :=
  let parts := split_on colon s in
  if (length parts <? 3)%nat then None
  else
    parts ← expand_ipv4 parts;
    if (9 <? length parts)%nat then None
    else match inner_empty parts with
         | [] =>
             if negb (length parts =? 8)%nat then None else hextets 0 parts
         | [i] =>
             let first_empty := eqb (nth 0 parts "") "" in
             let last_empty := eqb (List.last parts "") "" in
             let hi := (if first_empty then i - 1 else i)%nat in
             let lo := (length parts - i - 1 - (if last_empty then 1 else 0))%nat in
             if first_empty && negb (hi =? 0)%nat then None
             else if last_empty && negb (lo =? 0)%nat then None
             else if (8 <=? hi + lo)%nat then None
             else
               high ← hextets 0 (take hi parts);
               low ← hextets 0 (drop (length parts - lo) parts);
               Some (high * 2 ^ (16 * (8 - Z.of_nat hi)) + low)
         | _ => None
         end.

Definition ip_address (address : string) : option ip_addr :=
  if has_char slash address then None
  else match ip4_from_string address with
       | Some n => Some (IPv4Address n)
       | None =>
           let '(addr, sep, scope) := partition percent address in
           if sep && (eqb scope "" || has_char percent scope) then None
           else n ← ip6_from_string addr;
                Some (IPv6Address n (if sep then Some scope else None))
       end.

Definition ip_address_error (address : string) : string :=
  py_repr address +:+ " does not appear to be an IPv4 or IPv6 address".

Definition hextets_of (n : Z) : list Z :=
  map (fun i => (n / 2 ^ (16 * Z.of_nat i)) mod 65536) [7; 6; 5; 4; 3; 2; 1; 0]%nat.

(** The first longest run of zeros: its start and length. *)
Fixpoint zero_run (l : list Z) (i start len best best_len : nat) : nat * nat :=
  match l with
  | [] => (best, best_len)
  | h :: l' =>
      if h =? 0 then
        let start := if (len =? 0)%nat then i else start in
        let len := S len in
        if (best_len <? len)%nat then zero_run l' (S i) start len start len
        else zero_run l' (S i) start len best best_len
      else zero_run l' (S i) 0 0 best best_len
  end.

Definition compress (l : list Z) : list string :=
  let '(start, len) := zero_run l 0 0 0 0 0 in
  let words := map hex_str l in
  if (1 <? len)%nat then
    (if (start =? 0)%nat then [""] else [])
    ++ take start words ++ [""] ++ drop (start + len) words
    ++ (if (start + len =? length words)%nat then [""] else [])
  else words.

(** [str(address)] *)
Definition ip_str (a : ip_addr) : string :=
  match a with
  | IPv4Address n =>
      join "." (map py_str [n / 16777216; (n / 65536) mod 256; (n / 256) mod 256; n mod 256])
  | IPv6Address n scope =>
      join ":" (compress (hextets_of n))
      +:+ match scope with
          | Some s => if eqb s "" then "" else String percent s
          | None => ""
          end
  end.

(** ** Networks *)

(** [address in network], for a network given by its address and prefix length. *)
Definition in_net (width n : Z) (net : Z * Z) : bool :=
  Z.shiftr n (width - net.2) =? Z.shiftr net.1 (width - net.2).
Definition in_net4 : Z -> Z * Z -> bool := in_net 32.
Definition in_net6 : Z -> Z * Z -> bool := in_net 128.

Definition net_of (s : string) (prefixlen : Z) : Z * Z :=
  match ip_address s with
  | Some (IPv4Address n) | Some (IPv6Address n _) => (n, prefixlen)
  | None => (-1, prefixlen)
  end.

Definition ip4_private_networks : list (Z * Z) :=
  [net_of "0.0.0.0" 8; net_of "10.0.0.0" 8; net_of "127.0.0.0" 8; net_of "169.254.0.0" 16;
   net_of "172.16.0.0" 12; net_of "192.0.0.0" 24; net_of "192.0.0.170" 31; net_of "192.0.2.0" 24;
   net_of "192.168.0.0" 16; net_of "198.18.0.0" 15; net_of "198.51.100.0" 24;
   net_of "203.0.113.0" 24; net_of "240.0.0.0" 4; net_of "255.255.255.255" 32].
Definition ip4_private_exceptions : list (Z * Z) := [net_of "192.0.0.9" 32; net_of "192.0.0.10" 32].
Definition ip4_shared_network : Z * Z := net_of "100.64.0.0" 10.
Definition ip4_multicast_network : Z * Z := net_of "224.0.0.0" 4.

Definition ip6_private_networks : list (Z * Z) :=
  [net_of "::1" 128; net_of "::" 128; net_of "::ffff:0:0" 96; net_of "64:ff9b:1::" 48;
   net_of "100::" 64; net_of "2001::" 23; net_of "2001:db8::" 32; net_of "2002::" 16;
   net_of "fc00::" 7; net_of "fe80::" 10].
Definition ip6_private_exceptions : list (Z * Z) :=
  [net_of "2001:1::1" 128; net_of "2001:1::2" 128; net_of "2001:3::" 32; net_of "2001:4:112::" 48;
   net_of "2001:20::" 28; net_of "2001:30::" 28].
Definition ip6_multicast_network : Z * Z := net_of "ff00::" 8.

Definition ip4_is_private (n : Z) : bool :=
  existsb (in_net4 n) ip4_private_networks && negb (existsb (in_net4 n) ip4_private_exceptions).
Definition ip4_is_global (n : Z) : bool :=
  negb (in_net4 n ip4_shared_network) && negb (ip4_is_private n).

Definition ipv4_mapped (n : Z) : option Z :=
  if Z.shiftr n 32 =? 65535 then Some (Z.land n 4294967295) else None.

Definition ip6_is_private (n : Z) : bool :=
  match ipv4_mapped n with
  | Some m => ip4_is_private m
  | None =>
      existsb (in_net6 n) ip6_private_networks && negb (existsb (in_net6 n) ip6_private_exceptions)
  end.

(** Mapped addresses answer for their IPv4 address. *)
Definition is_global (a : ip_addr) : bool :=
  match a with
  | IPv4Address n => ip4_is_global n
  | IPv6Address n _ =>
      match ipv4_mapped n with Some m => ip4_is_global m | None => negb (ip6_is_private n) end
  end.

Definition is_multicast (a : ip_addr) : bool :=
  match a with
  | IPv4Address n => in_net4 n ip4_multicast_network
  | IPv6Address n _ =>
      match ipv4_mapped n with
      | Some m => in_net4 m ip4_multicast_network
      | None => in_net6 n ip6_multicast_network
      end
  end.

(** ** URLs *)

Record SplitResult : Type := {
  u_scheme : string;
  u_netloc : string;
  u_path : string;
  u_query : string;
  u_fragment : string
}.

Fixpoint lstrip_by (p : ascii -> bool) (s : string) : string :=
  match s with "" => "" | String c s' => if p c then lstrip_by p s' else s end.

Fixpoint filter_str (p : ascii -> bool) (s : string) : string :=
  match s with "" => "" | String c s' => if p c then String c (filter_str p s') else filter_str p s' end.

Definition is_alpha (c : ascii) : bool :=
  let n := code c in ((65 <=? n) && (n <=? 90)) || ((97 <=? n) && (n <=? 122)).
Definition is_scheme_char (c : ascii) : bool :=
  is_alpha c || is_digit c || mem (code c) [43; 45; 46].

(** A scheme starts with a letter, and its colon is not the first character. *)
Definition split_scheme (url : string) : string * string :=
  match find_char colon url with
  | Some (S i) =>
      let scheme := take_str (S i) url in
      match url with
      | String c _ =>
          if is_alpha c && all_chars is_scheme_char scheme
          then (lower scheme, drop_str (S (S i)) url) else ("", url)
      | "" => ("", url)
      end
  | _ => ("", url)
  end.

Fixpoint span_str (p : ascii -> bool) (s : string) : string * string :=
  match s with
  | "" => ("", "")
  | String c s' => if p c then let '(a, b) := span_str p s' in (String c a, b) else ("", s)
  end.

Definition split_netloc (url : string) : string * string :=
  span_str (fun c => negb (mem (code c) [47; 63; 35])) url.

Definition invalid_ipv6_url : string := "Invalid IPv6 URL".

(** [v] hexadecimal digits, a dot, and something. *)
Definition is_ip_future (hostname : string) : bool :=
  let '(version, rest) := span_str (fun c => if hex_of c is Some _ then true else false)
                            (drop_str 1 hostname) in
  negb (eqb version "")
  && match rest with
     | String c (String d r) => Ascii.eqb c dot && negb (has_char (char 10) (String d r))
     | _ => false
     end.

(** What is wrong with the host in brackets. *)
Definition check_bracketed_host (hostname : string) : option string :=
  if starts_with "v" hostname then
    if is_ip_future hostname then None else Some "IPvFuture address is invalid"
  else match ip_address hostname with
       | None => Some (ip_address_error hostname)
       | Some (IPv4Address _) => Some "An IPv4 address cannot be in brackets"
       | Some (IPv6Address _ _) => None
       end.

Definition check_bracketed_netloc (netloc : string) : option string :=
  let hostname_and_port := (rpart at_sign netloc).2 in
  let '(before_bracket, have_open_br, bracketed) := partition open_bracket hostname_and_port in
  if have_open_br then
    if negb (eqb before_bracket "") then Some invalid_ipv6_url
    else
      let '(hostname, _, port) := partition close_bracket bracketed in
      if negb (eqb port "") && negb (starts_with ":" port) then Some invalid_ipv6_url
      else check_bracketed_host hostname
  else check_bracketed_host (partition colon hostname_and_port).1.1.

Definition netloc_error (netloc : string) : option string :=
  match has_char open_bracket netloc, has_char close_bracket netloc with
  | true, true => check_bracketed_netloc netloc
  | false, false => None
  | _, _ => Some invalid_ipv6_url
  end.

(** [urlsplit(url)], or the message of its ValueError. *)
Definition urlsplit (url : string) : string + SplitResult :=
  let url := lstrip_by (fun c => code c <=? 32) url in
  let url := filter_str (fun c => negb (mem (code c) [9; 10; 13])) url in
  let '(scheme, url) := split_scheme url in
  let '(netloc, url) := if starts_with "//" url then split_netloc (drop_str 2 url) else ("", url) in
  match netloc_error netloc with
  | Some message => inl message
  | None =>
      let '(url, _, fragment) := partition (char 35) url in
      let '(path, _, query) := partition (char 63) url in
      inr {| u_scheme := scheme; u_netloc := netloc; u_path := path; u_query := query;
             u_fragment := fragment |}
  end.

Definition username (u : SplitResult) : option string :=
  let '(userinfo, have_info, _) := rpart at_sign (u_netloc u) in
  if have_info then Some (partition colon userinfo).1.1 else None.

Definition password (u : SplitResult) : option string :=
  let '(userinfo, have_info, _) := rpart at_sign (u_netloc u) in
  if have_info then
    let '(_, have_password, password) := partition colon userinfo in
    if have_password then Some password else None
  else None.

Definition hostinfo (u : SplitResult) : string * string :=
  let hostinfo := (rpart at_sign (u_netloc u)).2 in
  let '(_, have_open_br, bracketed) := partition open_bracket hostinfo in
  if have_open_br then
    let '(hostname, _, port) := partition close_bracket bracketed in
    (hostname, (partition colon port).2)
  else
    let '(hostname, _, port) := partition colon hostinfo in (hostname, port).

(** A zone is not lowered. *)
Definition hostname (u : SplitResult) : option string :=
  let h := (hostinfo u).1 in
  if eqb h "" then None
  else let '(name, found, zone) := partition percent h in
       Some (lower name +:+ (if found then String percent zone else "")).

(** [u.port]: [inl] is the ValueError. *)
Definition port (u : SplitResult) : unit + option Z :=
  let p := (hostinfo u).2 in
  if eqb p "" then inr None
  else if all_chars is_digit p then
    let n := digits_value 0 p in if n <=? 65535 then inr (Some n) else inl tt
  else inl tt.

(** [urlunsplit] of a URL with a network location and without fragment. *)
Definition urlunsplit (scheme netloc path query : string) : string :=
  let path := if negb (eqb path "") && negb (starts_with "/" path) then "/" +:+ path else path in
  let url := "//" +:+ netloc +:+ path in
  let url := if eqb scheme "" then url else scheme +:+ ":" +:+ url in
  if eqb query "" then url else url +:+ "?" +:+ query.
