(* ===== verification/Redaction.v ===== *)
(** * Redaction of secrets from text

    [common/token_patterns.py] and [common/redaction.py].  The secret spans of a text are
    those of the patterns, parsed here from the source's own text, and of the exact values a
    caller supplies; they are merged, and what a slice of the text overlaps of them is
    replaced by a marker.  Texts are of the code points U+0000 to U+00FF; the byte slices go
    through their UTF-8. *)

From S2P Require Import Prelude PyStr Regex Utf8 PyRe.
#[local] Open Scope Z_scope.
#[local] Set Warnings "-register-all".

(** ** Token patterns *)

Definition KNOWN_TOKEN_PATTERN : string :=
  "(?<![A-Za-z0-9_])("
  +:+ "gh[apousr]_[A-Za-z0-9_]*|"
  +:+ "github_pat_[A-Za-z0-9_]*|"
  +:+ "glpat-[A-Za-z0-9_-]*|"
  +:+ "eyJ[A-Za-z0-9_-]{8,}\.[A-Za-z0-9_-]{8,}\.[A-Za-z0-9_-]{8,}|"
  +:+ "sk-ant-[A-Za-z0-9_-]{8,}|"
  +:+ "sk-proj-[A-Za-z0-9_-]{8,}|"
  +:+ "sk-[A-Za-z0-9_-]{8,}|"
  +:+ "AIza[A-Za-z0-9_-]{12,}|"
  +:+ "ATATT[A-Za-z0-9_=.+/-]{8,}|"
  +:+ "xox[baprs]-[A-Za-z0-9-]*"
  +:+ ")(?![A-Za-z0-9_])".

Definition TOKEN_ASSIGNMENT_KEY_PATTERN : string :=
  "(?:[A-Za-z][A-Za-z0-9_]*_)?TOKEN"
  +:+ "|(?:[A-Za-z][A-Za-z0-9_]*_)?(?:API[_-]?KEY|ACCESS[_-]?KEY|PRIVATE[_-]?KEY)"
  +:+ "|(?:AUTH|GITHUB|GH)[_-]?TOKEN"
  +:+ "|PASSWORD|PASSWD|SECRET".

Definition TOKEN_ASSIGNMENT_PATTERN : string :=
  "\b(?P<key>"
  +:+ TOKEN_ASSIGNMENT_KEY_PATTERN
  +:+ ")\b"
  +:+ "(?P<separator>\s*[:=]\s*)"
  +:+ "(?P<quote>[\" +:+ dq +:+ "'])?"
  +:+ "(?P<value>"
  +:+ "(?=-----BEGIN [A-Z0-9 -]*PRIVATE KEY-----)"
  +:+ "-----BEGIN [A-Z0-9 -]*PRIVATE KEY-----[\s\S]*?"
  +:+ "-----END [A-Z0-9 -]*PRIVATE KEY-----"
  +:+ "|[^\s\" +:+ dq +:+ "'`,;)}\]]+"
  +:+ ")"
  +:+ "(?(quote)\s*(?P=quote)|)".

Definition PROVIDER_REF_PATTERN : string :=
  "(?<![A-Za-z0-9_-])"
  +:+ "(?:[A-Za-z][A-Za-z0-9+.-]*-)?(?:keyring|env|plain-file)://"
  +:+ "[^\s\" +:+ dq +:+ "'`,;)}\]]+".

Definition STRICT_KNOWN_TOKEN_PATTERN : string :=
  "(?<![A-Za-z0-9_])("
  +:+ "gh[apousr]_[A-Za-z0-9_]{8,}|"
  +:+ "github_pat_[A-Za-z0-9_]{8,}|"
  +:+ "glpat-[A-Za-z0-9_-]{6,}|"
  +:+ "eyJ[A-Za-z0-9_-]{8,}\.[A-Za-z0-9_-]{8,}\.[A-Za-z0-9_-]{8,}|"
  +:+ "sk-ant-[A-Za-z0-9_-]{8,}|"
  +:+ "sk-proj-[A-Za-z0-9_-]{8,}|"
  +:+ "sk-[A-Za-z0-9_-]{8,}|"
  +:+ "AIza[A-Za-z0-9_-]{12,}|"
  +:+ "ATATT[A-Za-z0-9_=.+/-]{8,}|"
  +:+ "xox[baprs]-[A-Za-z0-9-]{6,}"
  +:+ ")(?![A-Za-z0-9_])".

Definition compile_known_token_re (ignorecase match_truncated_provider_tokens : bool) : regex :=
  re_compile (if ignorecase then IGNORECASE else NOFLAG)
    (if match_truncated_provider_tokens then KNOWN_TOKEN_PATTERN else STRICT_KNOWN_TOKEN_PATTERN).

Definition compile_token_assignment_re : regex := re_compile IGNORECASE TOKEN_ASSIGNMENT_PATTERN.
Definition compile_provider_ref_re : regex := re_compile IGNORECASE PROVIDER_REF_PATTERN.

(** ** The patterns of the log redaction *)

Definition REDACTION_MARKER : string := "<redacted>".

Definition URL_CREDENTIAL_PATTERN : string := "(\bhttps?://)([^/\s:@]+(?::[^/\s@]+)?@)".
Definition AUTHORIZATION_PATTERN : string :=
  "(\bAuthorization\s*:\s*(?:Bearer|Basic)\s+)([A-Za-z0-9._~+/=-]{8,})".
Definition BEARER_PATTERN : string := "(\bBearer\s+)([A-Za-z0-9._~+/=-]{8,})".

Definition _URL_CREDENTIAL_RE : regex := re_compile IGNORECASE URL_CREDENTIAL_PATTERN.
Definition _AUTHORIZATION_RE : regex := re_compile IGNORECASE AUTHORIZATION_PATTERN.
Definition _BEARER_RE : regex := re_compile IGNORECASE BEARER_PATTERN.
Definition _TOKEN_ASSIGNMENT_RE : regex := compile_token_assignment_re.
Definition _PROVIDER_REF_RE : regex := compile_provider_ref_re.
Definition _KNOWN_TOKEN_RE : regex := compile_known_token_re false true.

(** Every pattern is in the parsed language. *)
Example redaction_patterns_parse :
  forallb (parses IGNORECASE)
    [URL_CREDENTIAL_PATTERN; AUTHORIZATION_PATTERN; BEARER_PATTERN; TOKEN_ASSIGNMENT_PATTERN;
     PROVIDER_REF_PATTERN; KNOWN_TOKEN_PATTERN; STRICT_KNOWN_TOKEN_PATTERN] = true.
Proof. vm_compute. reflexivity. Qed.

(** ** Spans *)

Definition span : Type := Z * Z.

Section Text.
Context {A : Type} `{EqDecision A}.

Fixpoint is_prefix (w l : list A) : bool :=
  match w, l with
  | [], _ => true
  | x :: w', y :: l' => eqb x y && is_prefix w' l'
  | _, [] => false
  end.

(** [find] from each cursor, which goes on one character after the last start. *)
Fixpoint occurrences (w : list A) (i : Z) (l : list A) : list span :=
  match l with
  | [] => []
  | _ :: l' =>
      if is_prefix w l then (i, i + Z.of_nat (length w)) :: occurrences w (i + 1) l'
      else occurrences w (i + 1) l'
  end.

(** [text[a:b]] for indices in range. *)
Definition slice (text : list A) (a b : Z) : list A :=
  take (Z.to_nat (b - a)) (drop (Z.to_nat a) text).

(** The loop over the spans, from [cursor]. *)
Fixpoint render (text marker : list A) (end_ : Z) (spans : list span) (cursor : Z) : list A :=
  let tail := if cursor <? end_ then slice text cursor end_ else [] in
  match spans with
  | [] => tail
  | (span_start, span_end) :: spans' =>
      if span_end <=? cursor then render text marker end_ spans' cursor
      else if end_ <=? span_start then tail
      else
        let literal_end := Z.min (Z.max span_start cursor) end_ in
        (if cursor <? literal_end then slice text cursor literal_end else [])
        ++ marker
        ++ render text marker end_ spans' (Z.max cursor (Z.min span_end end_))
  end.
End Text.

(** Tuples compare by the first component that differs. *)
Definition span_leb (x y : span) : bool := (x.1 <? y.1) || ((x.1 =? y.1) && (x.2 <=? y.2)).

(** One span against the last merged one, which heads the list. *)
Definition merge_step (merged : list span) (s : span) : list span :=
  match merged with
  | [] => [s]
  | (a, b) :: merged' =>
      if b <? s.1 then s :: merged else (a, Z.max b s.2) :: merged'
  end.

Definition _merge_redaction_spans (spans : list span) : list span :=
  rev (fold_left merge_step
         (sorted_by span_leb (List.filter (fun s => s.1 <? s.2) spans)) []).

Abbreviation text_list := String.list_ascii_of_string.
Abbreviation list_text := String.string_of_list_ascii.

(** [sorted({secret for secret in extra_secrets if len(secret) >= 4}, key=len)] *)
Definition exact_secrets (extra_secrets : list string) : list string :=
  sorted_by (fun x y => (str_len x <=? str_len y)%nat)
    (fromkeys (List.filter (fun s => (4 <=? str_len s)%nat) extra_secrets)).

Definition _exact_secret_redaction_spans (text : string) (extra_secrets : list string)
  : list span :=
  flat_map (fun secret => occurrences (text_list secret) 0 (text_list text))
    (exact_secrets extra_secrets).

Definition z_span (o : option (nat * nat)) : span :=
  match o with Some (a, b) => (Z.of_nat a, Z.of_nat b) | None => (0, 0) end.

Definition whole (m : match_) : span := (Z.of_nat (m_start m), Z.of_nat (m_end m)).
Definition group2 (m : match_) : span := z_span (m_span m 2).

(** The spans the patterns find, in source order. *)
Definition pattern_spans (text : string) : list span :=
  map (fun m => ((group2 m).1, (group2 m).2 - 1)) (finditer _URL_CREDENTIAL_RE text)
  ++ map group2 (finditer _AUTHORIZATION_RE text)
  ++ map whole (finditer _PROVIDER_REF_RE text)
  ++ map (fun m => z_span (named_span _TOKEN_ASSIGNMENT_RE m "value"))
       (finditer _TOKEN_ASSIGNMENT_RE text)
  ++ map group2 (finditer _BEARER_RE text)
  ++ map whole (finditer _KNOWN_TOKEN_RE text).

Definition _secret_redaction_spans (text : string) (extra_secrets : list string) : list span :=
  _merge_redaction_spans
    (_exact_secret_redaction_spans text extra_secrets ++ pattern_spans text).

Definition _render_redacted_slice (text : string) (start end_ : Z) (spans : list span) : string :=
  list_text (render (text_list text) (text_list REDACTION_MARKER) end_ spans start).

Definition len (text : string) : Z := Z.of_nat (str_len text).

Definition redact_secrets (text : string) (extra_secrets : list string) : string :=
  if eqb text "" then text
  else match _secret_redaction_spans text extra_secrets with
       | [] => text
       | spans => _render_redacted_slice text 0 (len text) spans
       end.

Definition redact_secrets_slice (text : string) (start end_ : Z) (extra_secrets : list string)
  : string :=
  if eqb text "" || (end_ <=? start) then ""
  else
    let safe_start := Z.min (Z.max start 0) (len text) in
    let safe_end := Z.min (Z.max end_ safe_start) (len text) in
    if safe_end <=? safe_start then ""
    else match _secret_redaction_spans text extra_secrets with
         | [] => list_text (slice (text_list text) safe_start safe_end)
         | spans => _render_redacted_slice text safe_start safe_end spans
         end.

(** ** Bytes *)

(** The bytes of a text of the model: no code point of it is a surrogate. *)
Definition utf8_width (codepoint : Z) : Z :=
  if (codepoint <? 128) || ((56448 <=? codepoint) && (codepoint <=? 56575)) then 1
  else if codepoint <? 2048 then 2
  else if codepoint <? 65536 then 3 else 4.

(** The loop that hands out the offset of each pending index as it reaches it. *)
Fixpoint offsets_from (pending : list Z) (text_index byte_index : Z) (text : list Z)
  : list (Z * Z) :=
  let here := List.filter (fun i => i =? text_index) pending in
  let later := List.filter (fun i => negb (i =? text_index)) pending in
  map (fun i => (i, byte_index)) here
  ++ match text with
     | [] => []
     | c :: text' => offsets_from later (text_index + 1) (byte_index + utf8_width c) text'
     end.

Definition _utf8_byte_offsets_for_text_indices (text : list Z) (indices : list Z)
  : list (Z * Z) :=
  let text_length := Z.of_nat (length text) in
  offsets_from
    (sorted_by Z.leb (fromkeys (List.filter (fun i => (0 <=? i) && (i <=? text_length)) indices)))
    0 0 text.

Definition offset_of (offsets : list (Z * Z)) (i : Z) : Z :=
  match List.find (fun p => p.1 =? i) offsets with Some p => p.2 | None => 0 end.

Definition REPLACEMENT : Z := 65533.

(** [bytes.decode("utf-8", errors="replace")]: one U+FFFD for each maximal prefix of a
    sequence that is not valid. *)
Fixpoint decode_replace (bytes : list Z) : list Z :=
  match bytes with
  | [] => []
  | b1 :: r1 =>
      if b1 <? 128 then b1 :: decode_replace r1
      else if (194 <=? b1) && (b1 <=? 223) then
        match r1 with
        | b2 :: r2 =>
            if continuation b2 then (b1 - 192) * 64 + (b2 - 128) :: decode_replace r2
            else REPLACEMENT :: decode_replace r1
        | [] => [REPLACEMENT]
        end
      else if (224 <=? b1) && (b1 <=? 239) then
        match r1 with
        | b2 :: r2 =>
            if continuation b2 && (if b1 =? 224 then 160 <=? b2 else true)
               && (if b1 =? 237 then b2 <=? 159 else true) then
              match r2 with
              | b3 :: r3 =>
                  if continuation b3 then
                    (b1 - 224) * 4096 + (b2 - 128) * 64 + (b3 - 128) :: decode_replace r3
                  else REPLACEMENT :: decode_replace r2
              | [] => [REPLACEMENT]
              end
            else REPLACEMENT :: decode_replace r1
        | [] => [REPLACEMENT]
        end
      else if (240 <=? b1) && (b1 <=? 244) then
        match r1 with
        | b2 :: r2 =>
            if continuation b2 && (if b1 =? 240 then 144 <=? b2 else true)
               && (if b1 =? 244 then b2 <=? 143 else true) then
              match r2 with
              | b3 :: r3 =>
                  if continuation b3 then
                    match r3 with
                    | b4 :: r4 =>
                        if continuation b4 then
                          (b1 - 240) * 262144 + (b2 - 128) * 4096 + (b3 - 128) * 64 + (b4 - 128)
                          :: decode_replace r4
                        else REPLACEMENT :: decode_replace r3
                    | [] => [REPLACEMENT]
                    end
                  else REPLACEMENT :: decode_replace r2
              | [] => [REPLACEMENT]
              end
            else REPLACEMENT :: decode_replace r1
        | [] => [REPLACEMENT]
        end
      else REPLACEMENT :: decode_replace r1
  end.

(** The pieces of bytes are decoded one by one. *)
Fixpoint render_bytes (bytes : list Z) (end_ : Z) (spans : list span) (cursor : Z) : list Z :=
  let tail := if cursor <? end_ then decode_replace (slice bytes cursor end_) else [] in
  match spans with
  | [] => tail
  | (span_start, span_end) :: spans' =>
      if span_end <=? cursor then render_bytes bytes end_ spans' cursor
      else if end_ <=? span_start then tail
      else
        let literal_end := Z.min (Z.max span_start cursor) end_ in
        (if cursor <? literal_end then decode_replace (slice bytes cursor literal_end) else [])
        ++ codes REDACTION_MARKER
        ++ render_bytes bytes end_ spans' (Z.max cursor (Z.min span_end end_))
  end.

Definition byte_spans (text : string) (spans : list span) : list span :=
  let offsets :=
    _utf8_byte_offsets_for_text_indices (codes text) (flat_map (fun s => [s.1; s.2]) spans) in
  map (fun s => (offset_of offsets s.1, offset_of offsets s.2)) spans.

(** The result is a text of code points: a cut character reads as U+FFFD. *)
Definition redact_secrets_byte_slice (text : string) (start end_ : Z)
    (extra_secrets : list string) : option (list Z) :=
  if eqb text "" || (end_ <=? start) then Some []
  else
    text_bytes ← encode (codes text);
    let size := Z.of_nat (length text_bytes) in
    let safe_start := Z.min (Z.max start 0) size in
    let safe_end := Z.min (Z.max end_ safe_start) size in
    if safe_end <=? safe_start then Some []
    else match _secret_redaction_spans text extra_secrets with
         | [] => Some (decode_replace (slice text_bytes safe_start safe_end))
         | spans =>
             Some (render_bytes text_bytes safe_end (byte_spans text spans) safe_start)
         end.

(** [redact_exact_secret_bytes]; [secrets] are the encoded values. *)
Definition _exact_secret_byte_redaction_spans (content : list Z) (extra_secrets : list string)
  : list span :=
  _merge_redaction_spans
    (flat_map (fun secret => occurrences (default [] (encode (codes secret))) 0 content)
       (exact_secrets extra_secrets)).

Definition redact_exact_secret_bytes (content : list Z) (extra_secrets : list string) : list Z :=
  match content with
  | [] => []
  | _ =>
      match _exact_secret_byte_redaction_spans content extra_secrets with
      | [] => content
      | spans => render content (codes REDACTION_MARKER) (Z.of_nat (length content)) spans 0
      end
  end.

(** ** Redaction masks exactly the secrets

    The specification masks a text character by character: every run of secret characters
    becomes one marker and the others stay.  Merging the spans and rendering slices of the
    text implements it, and the slices of its UTF-8 bytes are those of the characters. *)

(** ** The specification *)

Definition covered (spans : list span) (i : Z) : bool :=
  existsb (fun s => (s.1 <=? i) && (i <? s.2)) spans.

Section Mask.
Context {A : Type} (marker : list A) (secret : Z -> bool).

(** [inside]: the character before is secret, and masked already. *)
Fixpoint mask (i : Z) (inside : bool) (text : list A) : list A :=
  match text with
  | [] => []
  | x :: text' =>
      if secret i then (if inside then [] else marker) ++ mask (i + 1) true text'
      else x :: mask (i + 1) false text'
  end.

Lemma mask_nothing (i : Z) (inside : bool) (text : list A) :
  (forall j, i <= j < i + Z.of_nat (length text) -> secret j = false) -> mask i inside text = text.
Proof.
  revert i inside. induction text as [|x text IH]; intros i b H; simpl; [done|].
  simpl in H. rewrite H by lia. f_equal. apply IH. intros j Hj. apply H. lia.
Qed.

Lemma mask_inside (i : Z) (b b' : bool) (text : list A) :
  secret i = false \/ text = [] -> mask i b text = mask i b' text.
Proof. destruct text as [|x text]; simpl; [done|]. by intros [->|?]. Qed.

Lemma mask_app (i : Z) (b : bool) (l k : list A) :
  (forall j, i <= j < i + Z.of_nat (length l) -> secret j = false) ->
  mask i b (l ++ k) = l ++ mask (i + Z.of_nat (length l)) (if decide (l = []) then b else false) k.
Proof.
  revert i b. induction l as [|x l IH]; intros i b H; simpl.
  - by rewrite Z.add_0_r.
  - simpl in H. rewrite H by lia. f_equal. rewrite IH by (intros j Hj; apply H; lia).
    replace (i + 1 + Z.of_nat (length l)) with (i + Z.of_nat (S (length l))) by lia.
    by destruct (decide (l = [])).
Qed.

Lemma mask_run (i : Z) (l k : list A) :
  (forall j, i <= j < i + Z.of_nat (length l) -> secret j = true) ->
  mask i true (l ++ k) = mask (i + Z.of_nat (length l)) true k.
Proof.
  revert i. induction l as [|x l IH]; intros i H; simpl; [by rewrite Z.add_0_r|].
  simpl in H. rewrite H by lia. simpl. rewrite IH by (intros j Hj; apply H; lia).
  f_equal. lia.
Qed.

Lemma mask_run_start (i : Z) (l k : list A) :
  l <> [] -> (forall j, i <= j < i + Z.of_nat (length l) -> secret j = true) ->
  mask i false (l ++ k) = marker ++ mask (i + Z.of_nat (length l)) true k.
Proof.
  destruct l as [|x l]; [done|]. intros _ H. simpl in H |- *. rewrite H by lia.
  rewrite mask_run by (intros j Hj; apply H; lia). do 2 f_equal. lia.
Qed.
End Mask.

Lemma mask_ext {A : Type} (marker : list A) (f g : Z -> bool) (i : Z) (b : bool) (l : list A) :
  (forall j, i <= j < i + Z.of_nat (length l) -> f j = g j) ->
  mask marker f i b l = mask marker g i b l.
Proof.
  revert i b. induction l as [|x l IH]; intros i b H; simpl; [done|].
  simpl in H. rewrite (H i) by lia. rewrite !(IH (i + 1)) by (intros j Hj; apply H; lia). done.
Qed.

(** ** Slices *)

Lemma slice_length {A : Type} (l : list A) (a b : Z) :
  0 <= a -> a <= b -> b <= Z.of_nat (length l) -> length (slice l a b) = Z.to_nat (b - a).
Proof. intros. unfold slice. rewrite length_take, length_drop. lia. Qed.

Lemma slice_nil {A : Type} (l : list A) (a b : Z) : b <= a -> slice l a b = [].
Proof. intros. unfold slice. by replace (Z.to_nat (b - a)) with O by lia. Qed.

Lemma slice_split {A : Type} (l : list A) (a m b : Z) :
  0 <= a -> a <= m -> m <= b -> slice l a b = slice l a m ++ slice l m b.
Proof.
  intros. unfold slice.
  rewrite <- (take_drop (Z.to_nat (m - a)) (take (Z.to_nat (b - a)) (drop (Z.to_nat a) l))).
  rewrite take_take, skipn_firstn_comm, drop_drop. f_equal; [f_equal; lia|].
  f_equal; [lia|]. f_equal. lia.
Qed.

Lemma slice_whole {A : Type} (l : list A) : slice l 0 (Z.of_nat (length l)) = l.
Proof. unfold slice. rewrite drop_0, take_ge by lia. done. Qed.

(** ** Merged spans *)

(** Not empty, and some character between each and the next. *)
Fixpoint gapped (spans : list span) : Prop :=
  match spans with
  | [] => True
  | s :: spans' => s.1 < s.2 /\ Forall (fun t => s.2 < t.1) spans' /\ gapped spans'
  end.

Lemma gapped_snoc (l : list span) (s : span) :
  gapped (l ++ [s]) <-> gapped l /\ s.1 < s.2 /\ Forall (fun t => t.2 < s.1) l.
Proof.
  induction l as [|x l IH]; simpl.
  - split; [intros (? & _); done|]. intros (_ & ? & _). by repeat constructor.
  - rewrite IH, Forall_app, Forall_singleton, Forall_cons. tauto.
Qed.

Lemma covered_app (l k : list span) (i : Z) : covered (l ++ k) i = covered l i || covered k i.
Proof. apply existsb_app. Qed.

Lemma covered_rev (l : list span) (i : Z) : covered (rev l) i = covered l i.
Proof.
  induction l as [|s l IH]; simpl; [done|]. rewrite covered_app, IH. simpl. 
  by rewrite orb_false_r, orb_comm.
Qed.

(** The last merged span starts no later than the next span. *)
Definition starts_below (merged : list span) (z : Z) : Prop := Forall (fun s => s.1 <= z) merged.

Lemma merge_step_spec (merged : list span) (s : span) (i : Z) :
  gapped (rev merged) -> starts_below merged s.1 -> s.1 < s.2 ->
  gapped (rev (merge_step merged s)) /\ starts_below (merge_step merged s) s.1 /\
  covered (merge_step merged s) i = covered merged i || ((s.1 <=? i) && (i <? s.2)).
Proof.
  intros Hg Hb Hs. destruct merged as [|[a b] merged]; simpl.
  - split_and!; [done|constructor|done|by repeat constructor|by rewrite orb_false_r].
  - unfold starts_below in *. simpl in Hg. apply gapped_snoc in Hg as (Hg & Hab & Hl).
    apply Forall_cons in Hb as [Ha Hb]. simpl in *.
    destruct (Z.ltb_spec b s.1) as [Hlt|Hle].
    + split_and!.
      * simpl. apply gapped_snoc. split_and!; [by apply gapped_snoc|done|].
        apply Forall_app. split; [|by constructor].
        eapply Forall_impl; [exact Hl|]. simpl. intros t Ht. lia.
      * repeat (constructor; [simpl; lia|]). done.
      * apply orb_comm.
    + split_and!.
      * simpl. apply gapped_snoc. split_and!; [done|simpl; lia|done].
      * constructor; [done|]. done.
      * unfold covered. simpl.
        assert (Hi : (a <=? i) && (i <? b `max` s.2)
                     = (a <=? i) && (i <? b) || (s.1 <=? i) && (i <? s.2)) by lia.
        rewrite Hi. by destruct (existsb _ _); rewrite ?orb_true_r, ?orb_false_r.
Qed.

Lemma span_leb_total (x y : span) : span_leb x y = true \/ span_leb y x = true.
Proof. unfold span_leb. destruct x, y. simpl. lia. Qed.

Lemma span_leb_trans (x y z : span) :
  span_leb x y = true -> span_leb y z = true -> span_leb x z = true.
Proof. unfold span_leb. destruct x, y, z. simpl. lia. Qed.

Lemma merge_all (l merged : list span) (i : Z) :
  StronglySorted (fun x y => span_leb x y = true) l -> Forall (fun s => s.1 < s.2) l ->
  gapped (rev merged) -> Forall (fun s => starts_below merged s.1) l ->
  gapped (rev (fold_left merge_step l merged)) /\
  covered (fold_left merge_step l merged) i = covered merged i || covered l i.
Proof.
  intros Hs. revert merged. induction Hs as [|s l Hl IH Hsl]; intros merged Hne Hg Hb; simpl.
  - by rewrite orb_false_r.
  - apply Forall_cons in Hne as [Hs Hne]. apply Forall_cons in Hb as [Hb _].
    destruct (merge_step_spec merged s i Hg Hb Hs) as (Hg' & Hb' & Hc).
    destruct (IH (merge_step merged s)) as [H1 H2]; [done|done| |].
    + apply Forall_forall. intros t Ht. eapply Forall_impl; [exact Hb'|]. intros u Hu.
      apply (proj1 (Forall_forall _ _) Hsl) in Ht. unfold span_leb in Ht. simpl in *. lia.
    + split; [done|]. rewrite H2, Hc. by rewrite orb_assoc.
Qed.

(** Merging leaves gaps and changes no character's cover. *)
Lemma merge_spec (spans : list span) (i : Z) :
  gapped (_merge_redaction_spans spans) /\
  covered (_merge_redaction_spans spans) i = covered spans i.
Proof.
  unfold _merge_redaction_spans. rewrite covered_rev.
  assert (Hcov : covered (sorted_by span_leb (List.filter (fun s => s.1 <? s.2) spans)) i
                 = covered spans i).
  { apply eq_true_iff_eq. unfold covered. rewrite !existsb_elem.
    setoid_rewrite elem_of_sorted_by. setoid_rewrite elem_of_bfilter.
    split; [by intros (x & [_ ?] & ?); eauto|].
    intros (x & Hx & Hi). exists x. split; [split; [lia|done]|done]. }
  rewrite <- Hcov.
  destruct (merge_all (sorted_by span_leb (List.filter (fun s => s.1 <? s.2) spans)) [] i)
    as [Hg Hc]; [| |done| |].
  - apply sorted_by_sorted; [apply span_leb_total|apply span_leb_trans].
  - apply Forall_forall. intros s. rewrite elem_of_sorted_by, elem_of_bfilter. lia.
  - apply Forall_forall. intros. constructor.
  - by rewrite Hc.
Qed.

(** ** Rendering masks *)

Lemma covered_later (spans : list span) (b i : Z) :
  Forall (fun t => b < t.1) spans -> i <= b -> covered spans i = false.
Proof.
  intros H Hi. apply existsb_none. intros s Hs. apply (proj1 (Forall_forall _ _) H) in Hs. lia.
Qed.

Section Render.
Context {A : Type} (text marker : list A) (end_ : Z).
Context (Hend : end_ <= Z.of_nat (length text)).

Lemma render_tail (spans : list span) (cursor : Z) :
  0 <= cursor -> (forall j, cursor <= j < end_ -> covered spans j = false) ->
  (if cursor <? end_ then slice text cursor end_ else [])
  = mask marker (covered spans) cursor false (slice text cursor end_).
Proof.
  intros Hc H. destruct (Z.ltb_spec cursor end_).
  - rewrite mask_nothing; [done|]. intros j. rewrite slice_length by lia. intros. apply H. lia.
  - by rewrite slice_nil.
Qed.

(** From a cursor inside the first span that ends after it. *)
Lemma mask_span (spans : list span) (a b cursor : Z) :
  0 <= cursor -> cursor < b -> a < end_ -> cursor < end_ -> gapped ((a, b) :: spans) ->
  let c' := Z.max cursor (Z.min b end_) in
  mask marker (covered ((a, b) :: spans)) cursor false (slice text cursor end_)
  = (let l := Z.min (Z.max a cursor) end_ in
     if cursor <? l then slice text cursor l else [])
    ++ marker ++ mask marker (covered spans) c' false (slice text c' end_).
Proof.
  intros Hc Hb Ha He (Hab & Hlater & Hg). simpl in Hab, Hlater. cbv zeta.
  remember (Z.min (Z.max a cursor) end_) as l eqn:El.
  remember (Z.max cursor (Z.min b end_)) as c' eqn:Ec.
  assert (Hl : (if cursor <? l then slice text cursor l else []) = slice text cursor l).
  { destruct (Z.ltb_spec cursor l); [done|]. by rewrite slice_nil. }
  rewrite Hl, (slice_split text cursor l end_), (slice_split text l c' end_) by lia.
  assert (Hlen : forall u v, 0 <= u -> u <= v -> v <= end_ ->
                   Z.of_nat (length (slice text u v)) = v - u).
  { intros. rewrite slice_length by lia. lia. }
  rewrite mask_app; rewrite Hlen by lia.
  2: { intros j Hj. unfold covered. simpl.
       pose proof (covered_later spans b j Hlater ltac:(lia)) as Hn. unfold covered in Hn.
       rewrite Hn, orb_false_r. lia. }
  replace (cursor + (l - cursor)) with l by lia.
  replace (if decide (slice text cursor l = []) then false else false) with false
    by by destruct (decide _).
  rewrite mask_run_start.
  - rewrite Hlen by lia. replace (l + (c' - l)) with c' by lia. do 2 f_equal.
    rewrite (mask_inside _ _ _ true false).
    + apply mask_ext. intros j Hj. unfold covered. simpl.
      destruct (Z.ltb_spec j b); [|by rewrite andb_false_r].
      rewrite Hlen in Hj by lia. lia.
    + destruct (Z.leb_spec end_ c') as [|Hlt]; [right; by rewrite slice_nil|left].
      pose proof (covered_later spans b c' Hlater ltac:(lia)) as Hn. unfold covered in *. simpl.
      rewrite Hn, orb_false_r. lia.
  - intros Hnil. apply (f_equal length) in Hnil. rewrite slice_length in Hnil by lia.
    simpl in Hnil. lia.
  - intros j. rewrite Hlen by lia. intros Hj. unfold covered. simpl. lia.
Qed.

Lemma render_mask (spans : list span) (cursor : Z) :
  0 <= cursor -> gapped spans -> cursor < end_ \/ Forall (fun s => end_ <= s.1) spans ->
  render text marker end_ spans cursor
  = mask marker (covered spans) cursor false (slice text cursor end_).
Proof.
  revert cursor. induction spans as [|[a b] spans IH]; intros cursor Hc Hg Hce; simpl.
  - by apply render_tail.
  - pose proof Hg as (Hab & Hlater & Hg'). simpl in Hab, Hlater.
    destruct (Z.leb_spec b cursor) as [Hbc|Hbc].
    + rewrite (IH cursor Hc Hg').
      * apply mask_ext. intros j Hj. unfold covered. simpl.
        by replace ((a <=? j) && (j <? b)) with false by lia.
      * destruct Hce as [?|Hf]; [by left|right]. by apply Forall_cons in Hf as [_ Hf].
    + destruct (Z.leb_spec end_ a) as [Hea|Hea].
      * apply render_tail; [done|]. intros j Hj. unfold covered. simpl.
        pose proof (covered_later spans b j Hlater ltac:(lia)) as Hn. unfold covered in Hn.
       rewrite Hn, orb_false_r. lia.
      * assert (cursor < end_).
        { destruct Hce as [?|[Hf _]%Forall_cons]; [done|]. simpl in Hf. lia. }
        rewrite mask_span by done. f_equal. f_equal. apply IH; [lia|done|].
        destruct (Z.ltb_spec b end_); [left; lia|right].
        eapply Forall_impl; [exact Hlater|]. simpl. intros. lia.
Qed.
End Render.

(** ** What is secret in a text *)

(** A character of an occurrence of an exact value of four characters or more, or of a
    pattern's span. *)
Definition is_secret (text : string) (extra_secrets : list string) (i : Z) : bool :=
  covered (_exact_secret_redaction_spans text extra_secrets ++ pattern_spans text) i.

Lemma elem_of_occurrences {A : Type} `{EqDecision A} (w l : list A) (i : Z) (s : span) :
  s ∈ occurrences w i l <->
  exists k : nat, (k < length l)%nat /\ is_prefix w (drop k l) = true /\
    s = (i + Z.of_nat k, i + Z.of_nat k + Z.of_nat (length w)).
Proof.
  revert i. induction l as [|x l IH]; intros i; [simpl; split; [by intros ?%elem_of_nil|]|].
  { intros (k & Hk & _). simpl in Hk. lia. }
  assert (Hlater : s ∈ occurrences w (i + 1) l <->
    exists k : nat, (S k < length (x :: l))%nat /\ is_prefix w (drop (S k) (x :: l)) = true /\
      s = (i + Z.of_nat (S k), i + Z.of_nat (S k) + Z.of_nat (length w))).
  { rewrite IH. f_equiv. intros k. simpl. split; intros (? & ? & ->);
      (split_and!; [lia|done|f_equal; lia]). }
  cbn [occurrences]. destruct (is_prefix w (x :: l)) eqn:E; rewrite ?elem_of_cons, Hlater.
  - split.
    + intros [->|(k & ?)]; [exists O; rewrite drop_0; simpl; split_and!; [lia|done|f_equal; lia]|].
      by exists (S k).
    + intros ([|k] & Hk & Hp & ->); [left; f_equal; simpl; lia|right; by exists k].
  - split; [intros (k & ?); by exists (S k)|].
    intros ([|k] & Hk & Hp & ->); [by rewrite drop_0, E in Hp|by exists k].
Qed.

Lemma is_prefix_app {A : Type} `{EqDecision A} (w l : list A) :
  is_prefix w l = true <-> exists k, l = w ++ k.
Proof.
  revert l. induction w as [|x w IH]; intros l; simpl.
  - split; [by exists l|done].
  - destruct l as [|y l]; [split; [done|by intros (k & ?)]|].
    rewrite andb_true_iff, eqb_true, IH. split.
    + intros [-> (k & ->)]. by exists k.
    + intros (k & [= -> ->]). eauto.
Qed.

(** ** Redaction masks the secret characters *)

Lemma list_text_nil (l : list ascii) : list_text l = "" -> l = [].
Proof. by destruct l. Qed.

Lemma text_list_length (s : string) : length (text_list s) = str_len s.
Proof. induction s; simpl; [done|]. by f_equal. Qed.

Definition masked (text : string) (extra_secrets : list string) (a b : Z) : string :=
  list_text (mask (text_list REDACTION_MARKER) (is_secret text extra_secrets) a false
               (slice (text_list text) a b)).

Lemma slice_masked (text : string) (extra_secrets : list string) (a b : Z) :
  0 <= a < b -> b <= len text ->
  match _secret_redaction_spans text extra_secrets with
  | [] => list_text (slice (text_list text) a b)
  | spans => _render_redacted_slice text a b spans
  end = masked text extra_secrets a b.
Proof.
  intros Ha Hb. unfold masked, is_secret.
  assert (Hcov : forall i, covered (_secret_redaction_spans text extra_secrets) i
                 = covered (_exact_secret_redaction_spans text extra_secrets
                            ++ pattern_spans text) i) by (intros i; apply merge_spec).
  rewrite (mask_ext _ _ (covered (_secret_redaction_spans text extra_secrets)))
    by (intros j _; by rewrite Hcov).
  destruct (_secret_redaction_spans text extra_secrets) as [|s spans] eqn:E.
  - by rewrite mask_nothing.
  - unfold _render_redacted_slice. f_equal. apply render_mask.
    + unfold len in Hb. by rewrite text_list_length.
    + lia.
    + rewrite <- E. by apply (merge_spec _ 0).
    + left. lia.
Qed.

(** C31: [redact_secrets_slice] and [redact_secrets] implement masking: a slice, clamped to
    the text, comes out with each run of secret characters as one marker and every other
    character as it is, where the secret characters are those of the patterns' spans and of
    all occurrences, overlapping ones too, of the exact values. *)
Theorem redaction_masks (text : string) (extra_secrets : list string) (start end_ : Z) :
  let a := Z.min (Z.max start 0) (len text) in
  let b := Z.min (Z.max end_ a) (len text) in
  redact_secrets_slice text start end_ extra_secrets = masked text extra_secrets a b /\
  redact_secrets text extra_secrets = masked text extra_secrets 0 (len text) /\
  (forall w k, w ∈ extra_secrets -> (4 <= str_len w)%nat ->
     is_prefix (text_list w) (drop k (text_list text)) = true ->
     forall i, Z.of_nat k <= i < Z.of_nat k + len w -> is_secret text extra_secrets i = true) /\
  (forall s i, s ∈ pattern_spans text -> s.1 <= i < s.2 ->
     is_secret text extra_secrets i = true).
Proof.
  intros a b.
  assert (Hempty : forall a b, b <= a -> masked text extra_secrets a b = "").
  { intros u v Huv. unfold masked. by rewrite slice_nil. }
  split_and!.
  - unfold redact_secrets_slice. destruct (eqb text "") eqn:E; simpl.
    { rewrite eqb_true in E. symmetry. apply Hempty. unfold b, a, len. rewrite E. simpl. lia. }
    destruct (Z.leb_spec end_ start); simpl; [symmetry; apply Hempty; unfold b, a; lia|].
    fold a b. destruct (Z.leb_spec b a); [symmetry; by apply Hempty|].
    apply slice_masked; unfold b, a in *; lia.
  - unfold redact_secrets. destruct (eqb text "") eqn:E.
    { rewrite eqb_true in E. rewrite E at 1. symmetry. apply Hempty. unfold len. rewrite E. done. }
    rewrite <- slice_masked.
    + destruct (_secret_redaction_spans _ _); [|done]. unfold len.
      rewrite <- text_list_length, slice_whole.
      by rewrite String.string_of_list_ascii_of_string.
    + rewrite eqb_false in E. unfold len. destruct text; [done|simpl; lia].
    + done.
  - intros w k Hw H4 Hp i Hi. unfold is_secret. rewrite covered_app. apply orb_true_intro. left.
    apply existsb_elem. exists (0 + Z.of_nat k, 0 + Z.of_nat k + Z.of_nat (length (text_list w))).
    split; [|unfold len in Hi; simpl; rewrite text_list_length; lia].
    unfold _exact_secret_redaction_spans. apply flat_map_elem. exists w. split.
    + unfold exact_secrets. rewrite elem_of_sorted_by, elem_of_fromkeys, elem_of_bfilter.
      split; [by apply Nat.leb_le|done].
    + apply elem_of_occurrences. exists k. split_and!; [|done|done].
      destruct (Nat.lt_ge_cases k (length (text_list text))) as [|Hge]; [done|].
      rewrite drop_ge in Hp by done. destruct w; [simpl in H4; lia|done].
  - intros s i Hs Hi. unfold is_secret. rewrite covered_app. apply orb_true_intro. right.
    apply existsb_elem. exists s. split; [done|lia].
Qed.

(** ** Bytes *)

Definition latin1 (c : Z) : Prop := 0 <= c <= 255.

Definition bytes_of (c : Z) : list Z :=
  if c <? 128 then [c] else [192 + c / 64; 128 + c mod 64].

Definition text_bytes (text : list Z) : list Z := flat_map bytes_of text.

(** The byte offset of a character. *)
Definition offset (text : list Z) (i : Z) : Z :=
  Z.of_nat (length (text_bytes (take (Z.to_nat i) text))).

Lemma codes_map (s : string) : codes s = map (fun c => Z.of_N (Ascii.N_of_ascii c)) (text_list s).
Proof. induction s as [|c s IH]; simpl; [done|]. by rewrite IH. Qed.

Lemma codes_latin1 (s : string) : Forall latin1 (codes s).
Proof.
  induction s as [|c s IH]; simpl; constructor; [|done]. unfold latin1.
  pose proof (Ascii.N_ascii_bounded c). lia.
Qed.

Lemma latin1_bytes (c : Z) : latin1 c ->
  encode_char c = Some (bytes_of c) /\ utf8_width c = Z.of_nat (length (bytes_of c)).
Proof.
  unfold latin1, encode_char, bytes_of, utf8_width. intros H.
  destruct (Z.ltb_spec c 128); [done|].
  replace (c <? 2048) with true by lia.
  replace ((56448 <=? c) && (c <=? 56575)) with false by lia. done.
Qed.

Lemma encode_text (text : list Z) : Forall latin1 text -> encode text = Some (text_bytes text).
Proof.
  induction 1 as [|c text Hc _ IH]; simpl; [done|].
  by rewrite (proj1 (latin1_bytes c Hc)), IH.
Qed.

Lemma decode_text (text : list Z) : Forall latin1 text -> decode_replace (text_bytes text) = text.
Proof.
  induction 1 as [|c text Hc _ IH]; simpl; [done|]. unfold latin1 in Hc. unfold bytes_of.
  destruct (Z.ltb_spec c 128) as [Hlt|Hge]; simpl.
  - rewrite (proj2 (Z.ltb_lt _ _) Hlt). by rewrite IH.
  - pose proof (Z.div_mod c 64). pose proof (Z.mod_pos_bound c 64).
    assert (2 <= c / 64 <= 3) by (split; [apply Z.div_le_lower_bound|
      apply Z.lt_succ_r, Z.div_lt_upper_bound]; lia).
    replace (192 + c / 64 <? 128) with false by lia.
    replace ((194 <=? 192 + c / 64) && (192 + c / 64 <=? 223)) with true by lia.
    unfold continuation. replace ((128 <=? 128 + c mod 64) && (128 + c mod 64 <=? 191)) with true by lia.
    rewrite IH. f_equal. lia.
Qed.

Lemma bytes_of_length (c : Z) : (1 <= length (bytes_of c))%nat.
Proof. unfold bytes_of. case_match; simpl; lia. Qed.

Lemma text_bytes_app (l k : list Z) : text_bytes (l ++ k) = text_bytes l ++ text_bytes k.
Proof. apply flat_map_app. Qed.

Lemma text_bytes_length (l : list Z) : (length l <= length (text_bytes l))%nat.
Proof.
  induction l as [|c l IH]; simpl; [lia|]. rewrite length_app. pose proof (bytes_of_length c). lia.
Qed.

(** The bytes of a text up to and from a character. *)
Lemma bytes_slice (text : list Z) (a b : Z) :
  0 <= a <= b -> b <= Z.of_nat (length text) ->
  slice (text_bytes text) (offset text a) (offset text b) = text_bytes (slice text a b) /\
  offset text b = offset text a + Z.of_nat (length (text_bytes (slice text a b))).
Proof.
  intros Ha Hb.
  assert (Htake : take (Z.to_nat b) text = take (Z.to_nat a) text ++ slice text a b).
  { unfold slice. rewrite <- (take_drop (Z.to_nat a) (take (Z.to_nat b) text)).
    rewrite take_take, skipn_firstn_comm. do 2 f_equal; lia. }
  assert (Hoff : offset text b = offset text a + Z.of_nat (length (text_bytes (slice text a b)))).
  { unfold offset. rewrite Htake, text_bytes_app, length_app. lia. }
  split; [|done]. unfold slice at 1. rewrite Hoff.
  assert (Htext : text_bytes text
      = text_bytes (take (Z.to_nat a) text) ++ text_bytes (slice text a b)
        ++ text_bytes (drop (Z.to_nat b) text)).
  { rewrite app_assoc, <- !text_bytes_app, <- Htake. by rewrite take_drop. }
  rewrite Htext. unfold offset. rewrite drop_app_ge by lia. rewrite Nat2Z.id, Nat.sub_diag, drop_0.
  rewrite take_app_le by lia. apply take_ge. lia.
Qed.

Lemma offset_lt (text : list Z) (a b : Z) :
  0 <= a < b -> b <= Z.of_nat (length text) -> offset text a < offset text b.
Proof.
  intros Ha Hb. destruct (bytes_slice text a b) as [_ ->]; [lia|done|].
  pose proof (text_bytes_length (slice text a b)). rewrite slice_length in * by lia. lia.
Qed.

(** Comparing offsets compares the characters. *)
Lemma offset_leb (text : list Z) (a b : Z) :
  0 <= a -> 0 <= b -> a <= Z.of_nat (length text) -> b <= Z.of_nat (length text) ->
  (offset text a <=? offset text b) = (a <=? b).
Proof.
  intros. destruct (Z.leb_spec a b) as [Hab|Hab].
  - destruct (decide (a = b)) as [->|]; [lia|]. pose proof (offset_lt text a b). lia.
  - pose proof (offset_lt text b a). lia.
Qed.

Lemma offset_min (text : list Z) (a b : Z) :
  0 <= a -> 0 <= b -> a <= Z.of_nat (length text) -> b <= Z.of_nat (length text) ->
  Z.min (offset text a) (offset text b) = offset text (Z.min a b) /\
  Z.max (offset text a) (offset text b) = offset text (Z.max a b).
Proof.
  intros. pose proof (offset_leb text a b) as Hle. destruct (Z.leb_spec a b).
  - rewrite (Z.min_l a b), (Z.max_r a b) by lia. lia.
  - rewrite (Z.min_r a b), (Z.max_l a b) by lia. lia.
Qed.

Lemma find_app {A : Type} (f : A -> bool) (x y : list A) :
  List.find f (x ++ y) = match List.find f x with Some p => Some p | None => List.find f y end.
Proof. induction x as [|a x IH]; simpl; [done|]. by destruct (f a). Qed.

(** The indices handed out at [j]. *)
Lemma offset_here (pending : list Z) (i j k : Z) :
  i ∈ pending ->
  List.find (fun p : Z * Z => p.1 =? i)
    (map (fun u => (u, k)) (List.filter (fun u => u =? j) pending))
  = if i =? j then Some (i, k) else None.
Proof.
  intros Hi. destruct (List.find _ _) as [p|] eqn:E.
  - apply find_some in E as [E Hp]. rewrite <- list_elem_of_In in E.
    apply list_elem_of_fmap in E as (u & -> & [Hu _]%elem_of_bfilter). simpl in Hp.
    assert (u = i) as -> by lia. by rewrite Hu.
  - destruct (Z.eqb_spec i j) as [->|]; [|done].
    pose proof (find_none _ _ E (j, k)) as Hn. simpl in Hn. rewrite Z.eqb_refl in Hn.
    discriminate Hn. rewrite <- list_elem_of_In. apply list_elem_of_fmap. exists j.
    rewrite elem_of_bfilter. split; [done|]. split; [lia|done].
Qed.

(** The loop hands every pending index its offset. *)
Lemma offsets_from_spec (pending : list Z) (i j k : Z) (text : list Z) :
  Forall latin1 text -> i ∈ pending -> j <= i <= j + Z.of_nat (length text) ->
  offset_of (offsets_from pending j k text) i = k + offset text (i - j).
Proof.
  intros Ht. revert pending j k. induction Ht as [|c text Hc Ht IH]; intros pending j k Hi Hj;
    simpl in Hj; unfold offset_of; cbn [offsets_from]; rewrite find_app, offset_here by done.
  - replace (i =? j) with true by lia. replace (i - j) with 0 by lia. simpl.
    unfold offset. simpl. lia.
  - destruct (Z.eqb_spec i j) as [->|Hne].
    { simpl. rewrite Z.sub_diag. unfold offset. simpl. lia. }
    fold (offset_of (offsets_from
      (List.filter (fun u => negb (u =? j)) pending) (j + 1) (k + utf8_width c) text) i).
    rewrite IH; [|apply elem_of_bfilter; split; [lia|done]|lia].
    rewrite (proj2 (latin1_bytes c Hc)). unfold offset.
    replace (Z.to_nat (i - j)) with (S (Z.to_nat (i - (j + 1)))) by lia. simpl.
    rewrite length_app. lia.
Qed.

Definition in_range (text : list Z) (s : span) : Prop :=
  0 <= s.1 /\ s.1 < s.2 /\ s.2 <= Z.of_nat (length text).

(** The pieces of bytes read as the pieces of characters. *)
Lemma render_bytes_text (text : list Z) (end_ : Z) (spans : list span) (cursor : Z) :
  Forall latin1 text -> Forall (in_range text) spans ->
  0 <= cursor <= end_ -> end_ <= Z.of_nat (length text) ->
  render_bytes (text_bytes text) (offset text end_)
    (map (fun s => (offset text s.1, offset text s.2)) spans) (offset text cursor)
  = render text (codes REDACTION_MARKER) end_ spans cursor.
Proof.
  intros Ht Hs. revert cursor.
  assert (Hpiece : forall a b, 0 <= a -> 0 <= b -> a <= Z.of_nat (length text) ->
    b <= Z.of_nat (length text) ->
    (if offset text a <? offset text b
     then decode_replace (slice (text_bytes text) (offset text a) (offset text b)) else [])
    = (if a <? b then slice text a b else [])).
  { intros a b ????. rewrite !Z.ltb_antisym, offset_leb by done.
    destruct (Z.leb_spec b a) as [|Hab]; [done|]. simpl.
    destruct (bytes_slice text a b) as [-> _]; [lia|done|]. apply decode_text.
    unfold slice. by apply Forall_take, Forall_drop. }
  induction Hs as [|[a b] spans [Ha [Hab Hb]] _ IH]; intros cursor Hc He; simpl in *.
  - apply Hpiece; lia.
  - rewrite !offset_leb by lia. destruct (b <=? cursor); [by apply IH|].
    destruct (end_ <=? a); [apply Hpiece; lia|].
    rewrite (proj2 (offset_min text a cursor ltac:(lia) ltac:(lia) ltac:(lia) ltac:(lia))).
    rewrite (proj1 (offset_min text (Z.max a cursor) end_ ltac:(lia) ltac:(lia) ltac:(lia) ltac:(lia))).
    rewrite (proj1 (offset_min text b end_ ltac:(lia) ltac:(lia) ltac:(lia) ltac:(lia))).
    rewrite (proj2 (offset_min text cursor (Z.min b end_) ltac:(lia) ltac:(lia) ltac:(lia) ltac:(lia))).
    rewrite Hpiece by lia. by rewrite IH by lia.
Qed.

(** ** The spans of a text are in it *)

Lemma span_of_group (text : string) (r : regex) (m : match_) (n : nat) :
  m ∈ finditer r text -> 0 <= (z_span (m_span m n)).1 /\ (z_span (m_span m n)).2 <= len text.
Proof.
  intros Hm. destruct (m_span m n) as [[a b]|] eqn:E; simpl; [|unfold len; lia].
  apply (group_in_text r text) in E; [|done]. unfold len. lia.
Qed.

Lemma pattern_span_in (text : string) (s : span) :
  s ∈ pattern_spans text -> s.1 < s.2 -> 0 <= s.1 /\ s.2 <= len text.
Proof.
  unfold pattern_spans. rewrite !elem_of_app, !list_elem_of_fmap.
  assert (Hw : forall r m, m ∈ finditer r text -> 0 <= (whole m).1 /\ (whole m).2 <= len text).
  { intros r m Hm. simpl. apply match_in_text in Hm. unfold len. lia. }
  intros [(m & -> & Hm)|[(m & -> & Hm)|[(m & -> & Hm)|[(m & -> & Hm)|[(m & -> & Hm)|
    (m & -> & Hm)]]]]] Hs.
  - apply (span_of_group _ _ _ 2) in Hm. unfold group2. simpl. lia.
  - by apply (span_of_group _ _ _ 2) in Hm.
  - by apply Hw in Hm.
  - by apply (span_of_group text _ m (group_number _TOKEN_ASSIGNMENT_RE "value")) in Hm.
  - by apply (span_of_group _ _ _ 2) in Hm.
  - by apply Hw in Hm.
Qed.

Lemma merge_bounds (hi : Z) (spans : list span) :
  Forall (fun s => s.1 < s.2 -> 0 <= s.1 /\ s.2 <= hi) spans ->
  Forall (fun s => 0 <= s.1 /\ s.1 < s.2 /\ s.2 <= hi) (_merge_redaction_spans spans).
Proof.
  intros Hs. unfold _merge_redaction_spans. apply Forall_rev.
  assert (Hfold : forall l merged : list span,
    Forall (fun s => 0 <= s.1 /\ s.1 < s.2 /\ s.2 <= hi) l ->
    Forall (fun s => 0 <= s.1 /\ s.1 < s.2 /\ s.2 <= hi) merged ->
    Forall (fun s => 0 <= s.1 /\ s.1 < s.2 /\ s.2 <= hi) (fold_left merge_step l merged)).
  { intros l. induction l as [|s l IH]; intros merged Hl Hm; simpl; [done|].
    apply Forall_cons in Hl as [Hx Hl]. apply IH; [done|].
    destruct merged as [|[a b] merged]; simpl; [by constructor|].
    apply Forall_cons in Hm as [Hab Hm]. simpl in Hab.
    case_match; constructor; [done|by constructor|simpl; lia|done]. }
  apply Hfold; [|constructor]. apply Forall_forall.
  intros s. rewrite elem_of_sorted_by, elem_of_bfilter. intros [Hlt Hin].
  pose proof (proj1 (Forall_forall _ _) Hs s Hin) as Hb. simpl in Hb. lia.
Qed.

Lemma codes_length (text : string) : Z.of_nat (length (codes text)) = len text.
Proof. by rewrite codes_map, length_map, text_list_length. Qed.

Lemma merged_in (text : string) (extra_secrets : list string) :
  Forall (in_range (codes text)) (_secret_redaction_spans text extra_secrets).
Proof.
  eapply Forall_impl; [apply (merge_bounds (len text))|].
  - apply Forall_app. split; apply Forall_forall; intros s Hs Hlt; [|by apply pattern_span_in].
    apply flat_map_elem in Hs as (w & _ & Hs).
    apply elem_of_occurrences in Hs as (k & Hk & Hp & ->). simpl in *.
    apply is_prefix_app in Hp as (t & Ht). apply (f_equal length) in Ht.
    rewrite length_drop, length_app in Ht. unfold len.
    rewrite !text_list_length in *. lia.
  - intros s Hs. unfold in_range. by rewrite codes_length.
Qed.

(** ** Byte slices are the slices of characters *)

Lemma map_slice {A B : Type} (f : A -> B) (l : list A) (a b : Z) :
  map f (slice l a b) = slice (map f l) a b.
Proof. unfold slice. by rewrite <- firstn_map, <- skipn_map. Qed.

Lemma render_map {A B : Type} (f : A -> B) (text marker : list A) (end_ : Z) (spans : list span)
    (cursor : Z) :
  map f (render text marker end_ spans cursor)
  = render (map f text) (map f marker) end_ spans cursor.
Proof.
  assert (Hpiece : forall a b, map f (if a <? b then slice text a b else [])
                   = (if a <? b then slice (map f text) a b else [])).
  { intros a b. case_match; [apply map_slice|done]. }
  revert cursor. induction spans as [|[a b] spans IH]; intros cursor; simpl; [apply Hpiece|].
  destruct (b <=? cursor); [apply IH|]. destruct (end_ <=? a); [apply Hpiece|].
  by rewrite !map_app, Hpiece, IH.
Qed.

Lemma codes_list_text (l : list ascii) :
  codes (list_text l) = map (fun c => Z.of_N (Ascii.N_of_ascii c)) l.
Proof. by rewrite codes_map, String.list_ascii_of_string_of_list_ascii. Qed.

(** Both ends of a span are indices whose offsets are asked for. *)
Lemma byte_spans_offsets (text : string) (spans : list span) :
  Forall (in_range (codes text)) spans ->
  byte_spans text spans = map (fun s => (offset (codes text) s.1, offset (codes text) s.2)) spans.
Proof.
  intros Hs. unfold byte_spans. apply map_ext_in. intros s Hin%list_elem_of_In.
  pose proof (proj1 (Forall_forall _ _) Hs s Hin) as (H0 & H1 & H2).
  assert (Hoff : forall i, i ∈ [s.1; s.2] -> 0 <= i <= Z.of_nat (length (codes text)) ->
    offset_of (_utf8_byte_offsets_for_text_indices (codes text)
                 (flat_map (fun s => [s.1; s.2]) spans)) i = offset (codes text) i).
  { intros i Hi Hr. unfold _utf8_byte_offsets_for_text_indices.
    rewrite offsets_from_spec; [by rewrite Z.sub_0_r|apply codes_latin1| |lia].
    rewrite elem_of_sorted_by, elem_of_fromkeys, elem_of_bfilter. split; [lia|].
    apply flat_map_elem. eauto. }
  f_equal; apply Hoff; try lia; [left|right; left].
Qed.

(** Redacting a slice of the UTF-8 bytes whose ends are character boundaries is
    redacting the slice of characters: no marker moves, no character is cut or lost. *)
Theorem byte_slices_agree (text : string) (extra_secrets : list string) (a b : Z) :
  0 <= a -> a <= b -> b <= len text ->
  redact_secrets_byte_slice text (offset (codes text) a) (offset (codes text) b) extra_secrets
  = Some (codes (redact_secrets_slice text a b extra_secrets)).
Proof.
  intros Ha Hab Hb.
  assert (Hsize : Z.of_nat (length (text_bytes (codes text))) = offset (codes text) (len text)).
  { unfold offset. rewrite take_ge; [done|]. rewrite <- codes_length. lia. }
  unfold redact_secrets_byte_slice, redact_secrets_slice.
  destruct (eqb text "") eqn:E; [done|]. cbn [orb].
  pose proof (codes_length text) as Hlen. rewrite offset_leb by lia.
  destruct (Z.leb_spec b a) as [|Hlt]; [done|].
  rewrite encode_text by apply codes_latin1. cbn [mbind option_bind]. rewrite Hsize.
  assert (H0 : offset (codes text) 0 = 0) by done.
  assert (Hpos : 0 <= offset (codes text) a) by (unfold offset; lia).
  rewrite (Z.max_l _ 0), (Z.max_l a 0) by lia.
  rewrite (proj1 (offset_min (codes text) a (len text) ltac:(lia) ltac:(lia) ltac:(lia) ltac:(lia))).
  rewrite (Z.min_l a) by lia.
  rewrite (proj2 (offset_min (codes text) b a ltac:(lia) ltac:(lia) ltac:(lia) ltac:(lia))).
  rewrite (Z.max_l b a) by lia.
  rewrite (proj1 (offset_min (codes text) b (len text) ltac:(lia) ltac:(lia) ltac:(lia) ltac:(lia))).
  rewrite (Z.min_l b) by lia. rewrite offset_leb by lia.
  replace (b <=? a) with false by lia.
  pose proof (merged_in text extra_secrets) as Hin.
  destruct (_secret_redaction_spans text extra_secrets) as [|s spans]; f_equal.
  - destruct (bytes_slice (codes text) a b) as [-> _]; [lia|lia|].
    rewrite decode_text, codes_list_text, map_slice, <- codes_map; [done|].
    unfold slice. apply Forall_take, Forall_drop, codes_latin1.
  - rewrite byte_spans_offsets, render_bytes_text by (done || lia || apply codes_latin1).
    unfold _render_redacted_slice. rewrite codes_list_text, render_map. by rewrite <- !codes_map.
Qed.

(** The sample has an accented letter, which takes two bytes, before a token. *)
Definition sample_text : string := String (char 233) " TOKEN=abcd " +:+ String (char 233) "".

Lemma byte_slices_agree_witness :
  redact_secrets_byte_slice sample_text 3 14 []
  = Some (codes (redact_secrets_slice sample_text 2 13 [])) /\
  redact_secrets_slice sample_text 2 13 [] = "TOKEN=<redacted> ".
Proof.
  split; [|vm_compute; reflexivity].
  exact (byte_slices_agree sample_text [] 2 13 ltac:(lia) ltac:(lia) ltac:(vm_compute; discriminate)).
Defined.

Lemma redaction_masks_witness :
  redact_secrets "see deploykeydeploy now" ["deploy"; "keydep"] = "see <redacted> now" /\
  redact_secrets "see deploykeydeploy now" ["deploy"; "keydep"]
  = masked "see deploykeydeploy now" ["deploy"; "keydep"] 0 23 /\
  forall i, 4 <= i < 10 -> is_secret "see deploykeydeploy now" ["deploy"; "keydep"] i = true.
Proof.
  split; [vm_compute; reflexivity|].
  destruct (redaction_masks "see deploykeydeploy now" ["deploy"; "keydep"] 0 23)
    as (_ & Hall & Hexact & _).
  split; [exact Hall|]. intros i Hi.
  apply (Hexact "deploy" 4%nat); [left|simpl; lia|reflexivity|].
  change (len "deploy") with 6. lia.
Defined.
