(* ===== verification/AuditPayload.v ===== *)
(** * Audit payloads

    [common/audit.py]: what the control plane stores on its audit events and on secret
    leases has its token-like values redacted, by key or by shape, and its strings
    bounded.  A document of the model holds no tuples and no sets. *)

From S2P Require Import Prelude PyStr Regex PyRe PyVal Redaction.
#[local] Open Scope Z_scope.
#[local] Set Warnings "-register-all".

Definition AUDIT_SCHEMA : string := "control_audit.v1".
Definition AUDIT_MARKER : string := "[redacted]".
Definition _MAX_STRING_LENGTH : nat := 1000.

(** ** Patterns *)

Definition SENSITIVE_NON_TOKEN_KEY_PATTERN : string :=
  "(authorization|bearer|password|passwd|secret|api[_-]?key|access[_-]?key)".
Definition TOKEN_USAGE_METADATA_KEY_PATTERN : string :=
  "(?:^|[_-])(?:input|output|total|prompt|completion|cached|reasoning)"
  +:+ "[_-]?tokens?(?:[_-](?:count|used|usage))?$"
  +:+ "|(?:^|[_-])tokens?[_-](?:count|used|usage)$".
Definition AUDIT_URL_CREDENTIAL_PATTERN : string :=
  "(\b[a-z][a-z0-9+.-]*://)([^/\s:@]+(?::[^/\s@]+)?@)".
Definition AUDIT_AUTHORIZATION_PATTERN : string :=
  "(\bAuthorization\s*:\s*(?:Bearer|Basic)\s+)([A-Za-z0-9._~+/=\-]{8,})".
Definition AUDIT_BEARER_PATTERN : string := "(\bBearer\s+)([A-Za-z0-9._~+/=\-]{8,})".

Definition _SENSITIVE_NON_TOKEN_KEY_RE : regex := re_compile IGNORECASE SENSITIVE_NON_TOKEN_KEY_PATTERN.
Definition _SENSITIVE_TOKEN_KEY_RE : regex := re_compile IGNORECASE "token".
Definition _TOKEN_USAGE_METADATA_KEY_RE : regex :=
  re_compile IGNORECASE TOKEN_USAGE_METADATA_KEY_PATTERN.
Definition AUDIT_URL_CREDENTIAL_RE : regex := re_compile IGNORECASE AUDIT_URL_CREDENTIAL_PATTERN.
Definition AUDIT_AUTHORIZATION_RE : regex := re_compile IGNORECASE AUDIT_AUTHORIZATION_PATTERN.
Definition AUDIT_BEARER_RE : regex := re_compile IGNORECASE AUDIT_BEARER_PATTERN.

Example audit_patterns_parse :
  forallb (parses IGNORECASE)
    [SENSITIVE_NON_TOKEN_KEY_PATTERN; TOKEN_USAGE_METADATA_KEY_PATTERN;
     AUDIT_URL_CREDENTIAL_PATTERN; AUDIT_AUTHORIZATION_PATTERN; AUDIT_BEARER_PATTERN] = true.
Proof. vm_compute. reflexivity. Qed.

(** ** Redaction *)

Definition _is_sensitive_key (key : string) : bool :=
  if found (re_search _SENSITIVE_NON_TOKEN_KEY_RE key) then true
  else found (re_search _SENSITIVE_TOKEN_KEY_RE key)
       && negb (found (re_search _TOKEN_USAGE_METADATA_KEY_RE key)).

Definition group1 (m : match_) : string := default "" (m_group m 1).

Definition _redact_assignment (m : match_) : string :=
  let q := default "" (named _TOKEN_ASSIGNMENT_RE m "quote") in
  default "" (named _TOKEN_ASSIGNMENT_RE m "key")
  +:+ default "" (named _TOKEN_ASSIGNMENT_RE m "separator") +:+ q +:+ AUDIT_MARKER +:+ q.

Definition _redact_string (value : string) (limit : nat) : string :=
  let r1 := re_sub AUDIT_URL_CREDENTIAL_RE (fun m => group1 m +:+ AUDIT_MARKER +:+ "@") value in
  let r2 := re_sub AUDIT_AUTHORIZATION_RE (fun m => group1 m +:+ AUDIT_MARKER) r1 in
  let r3 := re_sub _TOKEN_ASSIGNMENT_RE _redact_assignment r2 in
  let r4 := re_sub AUDIT_BEARER_RE (fun m => group1 m +:+ AUDIT_MARKER) r3 in
  let r5 := re_sub _KNOWN_TOKEN_RE (fun _ => AUDIT_MARKER) r4 in
  if (limit <? str_len r5)%nat then take_str limit r5 +:+ "...[truncated]" else r5.

#[global] Arguments _is_sensitive_key : simpl never.
#[global] Arguments _redact_string : simpl never.

Fixpoint redact_audit_value (value : pyval) : pyval :=
  match value with
  | VDict d =>
      VDict (map (fun '(key, item) =>
                    (key, if _is_sensitive_key key then VStr AUDIT_MARKER
                          else redact_audit_value item)) d)
  | VList l => VList (map redact_audit_value l)
  | VStr s => VStr (_redact_string s _MAX_STRING_LENGTH)
  | _ => value
  end.

Definition redact_audit_text (value : string) (limit : nat) : string := _redact_string value limit.

(** [None] values of mappings and lists go. *)
Definition is_none (v : pyval) : bool := match v with VNone => true | _ => false end.

Fixpoint _drop_none (value : pyval) : pyval :=
  match value with
  | VDict d =>
      VDict (List.filter (fun p => negb (is_none p.2)) (map (fun '(k, x) => (k, _drop_none x)) d))
  | VList l => VList (List.filter (fun x => negb (is_none x)) (map _drop_none l))
  | _ => value
  end.

(** [payload.update(extra)] *)
Definition dict_update (d extra : dict) : dict := fold_left (fun d p => set_key d p.1 p.2) extra d.

Record AuditFields : Type := {
  au_actor : string; au_action : string; au_outcome : string; au_reason_code : string;
  au_source : option string; au_operation_id : option string; au_operation_type : option string;
  au_pr_number : option Z; au_pr_url : option string;
  au_source_head_sha : option string; au_source_base_sha : option string;
  au_target_branch : option string; au_remote_branch : option string;
  au_branch_name : option string
}.

Definition opt_int (o : option Z) : pyval := match o with Some n => VInt n | None => VNone end.

Definition build_audit_payload (a : AuditFields) (evidence extra : option dict) : pyval :=
  let payload :=
    [("schema", VStr AUDIT_SCHEMA);
     ("actor", VStr (au_actor a));
     ("source", match au_source a with
                | Some s => if eqb s "" then VStr (au_actor a) else VStr s
                | None => VStr (au_actor a)
                end);
     ("action", VStr (au_action a));
     ("outcome", VStr (au_outcome a));
     ("reason_code", VStr (au_reason_code a));
     ("operation_id", opt_str (au_operation_id a));
     ("operation_type", opt_str (au_operation_type a));
     ("pr_number", opt_int (au_pr_number a));
     ("pr_url", opt_str (au_pr_url a));
     ("source_head_sha", opt_str (au_source_head_sha a));
     ("source_base_sha", opt_str (au_source_base_sha a));
     ("target_branch", opt_str (au_target_branch a));
     ("remote_branch", opt_str (au_remote_branch a));
     ("branch_name", opt_str (au_branch_name a))] in
  let payload := match extra with Some e => dict_update payload e | None => payload end in
  let payload :=
    match evidence with Some e => set_key payload "evidence" (VDict e) | None => payload end in
  _drop_none (redact_audit_value (VDict payload)).

(** ** What a redacted document holds *)

Definition STRING_BOUND : nat := 1014.   (* the limit and the truncation mark *)

(** At every depth: a sensitive key has the marker for its value, a string is bounded. *)
Fixpoint clean (v : pyval) : bool :=
  match v with
  | VDict d =>
      forallb (fun '(k, x) => if _is_sensitive_key k then
                                match x with VStr s => eqb s AUDIT_MARKER | _ => false end
                              else clean x) d
  | VList l => forallb clean l
  | VStr s => (str_len s <=? STRING_BOUND)%nat
  | _ => true
  end.

Lemma redact_string_bound (s : string) (limit : nat) :
  (str_len (_redact_string s limit) <= limit + 14)%nat.
Proof.
  unfold _redact_string. generalize (re_sub _KNOWN_TOKEN_RE (fun _ => AUDIT_MARKER)).
  intros last. cbv zeta. case_match eqn:H; [apply Nat.ltb_lt in H|apply Nat.ltb_ge in H; lia].
  rewrite str_len_app, str_len_take by lia. simpl. lia.
Qed.

Lemma redact_clean (v : pyval) : clean (redact_audit_value v) = true.
Proof.
  induction v as [| | | |s|l IH|d IH] using pyval_nested_ind; [done..| | |].
  - cbn [redact_audit_value clean]. apply Nat.leb_le.
    apply (redact_string_bound s _MAX_STRING_LENGTH).
  - cbn [redact_audit_value clean]. apply forallb_elem.
    intros x (y & -> & Hy)%list_elem_of_fmap. by apply (proj1 (Forall_forall _ _) IH).
  - cbn [redact_audit_value clean]. apply forallb_elem.
    intros x ([k y] & -> & Hy)%list_elem_of_fmap.
    apply (proj1 (Forall_forall _ _) IH) in Hy. cbn [snd] in Hy.
    cbn beta iota. destruct (_is_sensitive_key k); [apply eqb_refl|exact Hy].
Qed.

(** Redaction keeps a document a document. *)
Lemma redact_json (v : pyval) : json_doc v = true -> json_doc (redact_audit_value v) = true.
Proof.
  induction v as [| | | |s|l IH|d IH] using pyval_nested_ind; try done;
    cbn [redact_audit_value json_doc].
  - rewrite !forallb_elem. intros H x (y & -> & Hy)%list_elem_of_fmap.
    apply (proj1 (Forall_forall _ _) IH); [done|]. by apply H.
  - rewrite !andb_true_iff, !forallb_elem. intros [Hnd H]. split.
    + apply bool_decide_eq_true. apply bool_decide_eq_true in Hnd.
      rewrite map_map. erewrite map_ext; [exact Hnd|]. by intros [? ?].
    + intros x ([k y] & -> & Hy)%list_elem_of_fmap. cbn [snd].
      destruct (_is_sensitive_key k); [done|].
      apply (proj1 (Forall_forall _ _) IH _ Hy). by apply (H (k, y)).
Qed.
