(* ===== verification/SecretLeases.v ===== *)
(** * Secret leases

    [service/secret_leases.py], [db/repositories/workspace_repo_secrets.py] and the lease
    helpers of [db/repositories/base.py]: the control-plane record of a secret a profile
    declares, from its issue over its mount to its expiry or revocation, and the audit
    events that follow it.  The table has one lease for a declaration of a workspace; an
    operation is a function on the table and the trail of audit events. *)

From S2P Require Import Prelude PyStr PyTime PyVal Sha256 AuditPayload.
#[local] Open Scope Z_scope.
#[local] Set Warnings "-register-all".

Definition SECRET_LEASE_AUDIT_SCHEMA : string := "secret_lease_audit.v1".
Definition SECRET_LEASE_STATUS_ISSUED : string := "issued".
Definition SECRET_LEASE_STATUS_MOUNTED : string := "mounted".
Definition SECRET_LEASE_STATUS_EXPIRED : string := "expired".
Definition SECRET_LEASE_STATUS_REVOKED : string := "revoked".
Definition _SECRET_LEASE_ACTIVE_STATUSES : list string :=
  [SECRET_LEASE_STATUS_ISSUED; SECRET_LEASE_STATUS_MOUNTED].
Definition _SECRET_LEASE_REVOCABLE_STATUSES : list string :=
  [SECRET_LEASE_STATUS_ISSUED; SECRET_LEASE_STATUS_MOUNTED; SECRET_LEASE_STATUS_EXPIRED].

(** ** Rows *)

Record Lease : Type := {
  sl_workspace_id : string;
  sl_attempt_id : option string;
  sl_secret_name : string;
  sl_kind : string;
  sl_target : string;
  sl_mode : string;
  sl_required : bool;
  sl_provider : option string;
  sl_ref_digest : option string;
  sl_status : string;
  sl_issued_at : datetime;
  sl_mounted_at : option datetime;
  sl_expires_at : option datetime;
  sl_revoked_at : option datetime;
  sl_revoke_reason_code : option string;
  sl_issue_metadata : dict;
  sl_mount_metadata : dict
}.

Record SecretLeaseIssue : Type := {
  si_secret_name : string;
  si_kind : string;
  si_target : string;
  si_mode : string;
  si_required : bool;
  si_provider : option string;
  si_ref_digest : option string;
  si_expires_at : option datetime;
  si_issue_metadata : dict;
  si_attempt_id : option string
}.

(** A [workspace.secret_lease] event: the workspace, the reason and the payload. *)
Record LeaseEvent : Type := {
  le_workspace_id : string;
  le_reason_code : string;
  le_payload : dict
}.

Record LeaseDb : Type := {
  leases : gmap string Lease;
  lease_workspaces : gset string;
  trail : list LeaseEvent
}.

Definition key : Type := string * string * string.

Definition _secret_lease_declaration_key (secret_name kind target : string) : key :=
  (secret_name, kind, target).
Definition lease_key (l : Lease) : key :=
  _secret_lease_declaration_key (sl_secret_name l) (sl_kind l) (sl_target l).
Definition issue_key (i : SecretLeaseIssue) : key :=
  _secret_lease_declaration_key (si_secret_name i) (si_kind i) (si_target i).

(** ** Helpers of [base.py] *)

Definition _sanitize_metadata (metadata : dict) : dict :=
  match redact_audit_value (VDict metadata) with VDict d => d | _ => [] end.

Definition _declared_lease_requires_reissue (lease : Lease) (issue : SecretLeaseIssue) : bool :=
  if negb (mem (sl_status lease) _SECRET_LEASE_ACTIVE_STATUSES) then true
  else
    negb (eqb (sl_attempt_id lease) (si_attempt_id issue))
    || negb (eqb (sl_mode lease) (si_mode issue))
    || negb (eqb (sl_required lease) (si_required issue))
    || negb (eqb (sl_provider lease) (si_provider issue))
    || negb (eqb (sl_ref_digest lease) (si_ref_digest issue))
    || negb (py_eqb (VDict (sl_issue_metadata lease))
               (VDict (_sanitize_metadata (si_issue_metadata issue)))).

Definition _reissue_declared_lease (lease : Lease) (issue : SecretLeaseIssue) (now : datetime)
  : Lease :=
  {| sl_workspace_id := sl_workspace_id lease; sl_attempt_id := si_attempt_id issue;
     sl_secret_name := sl_secret_name lease; sl_kind := sl_kind lease;
     sl_target := sl_target lease; sl_mode := si_mode issue; sl_required := si_required issue;
     sl_provider := si_provider issue; sl_ref_digest := si_ref_digest issue;
     sl_status := SECRET_LEASE_STATUS_ISSUED; sl_issued_at := now; sl_mounted_at := None;
     sl_expires_at := si_expires_at issue; sl_revoked_at := None; sl_revoke_reason_code := None;
     sl_issue_metadata := _sanitize_metadata (si_issue_metadata issue);
     sl_mount_metadata := [] |}.

Definition opt_time (o : option datetime) : pyval :=
  match o with Some t => VStr (isoformat t) | None => VNone end.

Definition _lease_audit_payload (id : string) (lease : Lease) (action reason_code : string)
    (occurred_at : datetime) : dict :=
  List.filter (fun p => negb (is_none p.2))
    ([("schema", VStr SECRET_LEASE_AUDIT_SCHEMA);
      ("lease_id", VStr id);
      ("action", VStr action);
      ("reason_code", VStr reason_code);
      ("workspace_id", VStr (sl_workspace_id lease));
      ("attempt_id", opt_str (sl_attempt_id lease));
      ("secret_name", VStr (sl_secret_name lease));
      ("kind", VStr (sl_kind lease));
      ("target", VStr (sl_target lease));
      ("mode", VStr (sl_mode lease));
      ("required", VBool (sl_required lease));
      ("provider", opt_str (sl_provider lease));
      ("ref_digest", opt_str (sl_ref_digest lease));
      ("status", VStr (sl_status lease));
      ("issued_at", VStr (isoformat (sl_issued_at lease)));
      ("mounted_at", opt_time (sl_mounted_at lease));
      ("expires_at", opt_time (sl_expires_at lease));
      ("revoked_at", opt_time (sl_revoked_at lease));
      ("revoke_reason_code", opt_str (sl_revoke_reason_code lease));
      ("occurred_at", VStr (isoformat occurred_at))]
     ++ match sl_issue_metadata lease with
        | [] => []
        | m => [("issue_metadata", VDict (_sanitize_metadata m))]
        end
     ++ match sl_mount_metadata lease with
        | [] => []
        | m => [("mount_metadata", VDict (_sanitize_metadata m))]
        end).

(** ** Reads *)

Definition rows (db : LeaseDb) (f : Lease -> bool) : list (string * Lease) :=
  List.filter (fun p => f p.2) (map_to_list (leases db)).

(** [order_by(issued_at, id)] *)
Definition by_issue (x y : string * Lease) : bool :=
  (instant (sl_issued_at x.2) <? instant (sl_issued_at y.2))
  || ((instant (sl_issued_at x.2) =? instant (sl_issued_at y.2)) && str_leb x.1 y.1).

Definition _list_for_workspace_statuses (db : LeaseDb) (ws : string) (statuses : list string)
  : list (string * Lease) :=
  sorted_by by_issue
    (rows db (fun l => eqb (sl_workspace_id l) ws && mem (sl_status l) statuses)).

Definition list_for_workspace (db : LeaseDb) (ws : string) : list (string * Lease) :=
  sorted_by by_issue (rows db (fun l => eqb (sl_workspace_id l) ws)).

(** The unique constraint makes this the row, if there is one. *)
Definition _get_for_declaration (db : LeaseDb) (ws : string) (k : key) : option (string * Lease) :=
  head (rows db (fun l => eqb (sl_workspace_id l) ws && eqb (lease_key l) k)).

(** The dictionary of the leases a transaction has read, by declaration.  Its objects are
    the rows as the table has them; rows inserted by others since are missing from it. *)
Definition _leases_by_declaration_for_workspace (db : LeaseDb) (ws : string) : gmap key string :=
  list_to_map (map (fun p => (lease_key p.2, p.1)) (rows db (fun l => eqb (sl_workspace_id l) ws))).

(** ** Writes *)

Definition set_lease (db : LeaseDb) (id : string) (l : Lease) : LeaseDb :=
  {| leases := <[id := l]> (leases db); lease_workspaces := lease_workspaces db;
     trail := trail db |}.

Definition update_leases (db : LeaseDb) (ids : list string) (f : Lease -> Lease) : LeaseDb :=
  fold_left (fun db id => match leases db !! id with
                          | Some l => set_lease db id (f l)
                          | None => db
                          end) ids db.

(** One event a lease, with the row as it is when the events are written. *)
Definition _add_lease_events (db : LeaseDb) (ws : string) (ids : list string)
    (reason_code action : string) (now : datetime) : LeaseDb :=
  {| leases := leases db; lease_workspaces := lease_workspaces db;
     trail := trail db
       ++ omap (fun id => l ← leases db !! id;
                          Some {| le_workspace_id := ws; le_reason_code := reason_code;
                                  le_payload := _lease_audit_payload id l action reason_code now |})
            ids |}.

Definition new_lease (ws : string) (issue : SecretLeaseIssue) (now : datetime) : Lease :=
  {| sl_workspace_id := ws; sl_attempt_id := si_attempt_id issue;
     sl_secret_name := si_secret_name issue; sl_kind := si_kind issue;
     sl_target := si_target issue; sl_mode := si_mode issue; sl_required := si_required issue;
     sl_provider := si_provider issue; sl_ref_digest := si_ref_digest issue;
     sl_status := SECRET_LEASE_STATUS_ISSUED; sl_issued_at := now; sl_mounted_at := None;
     sl_expires_at := si_expires_at issue; sl_revoked_at := None; sl_revoke_reason_code := None;
     sl_issue_metadata := _sanitize_metadata (si_issue_metadata issue);
     sl_mount_metadata := [] |}.

(** An existing lease is reissued when it is no longer active or the declaration changed. *)
Definition refresh_lease (db : LeaseDb) (id : string) (l : Lease) (issue : SecretLeaseIssue)
    (now : datetime) : LeaseDb * string * bool :=
  if _declared_lease_requires_reissue l issue
  then (set_lease db id (_reissue_declared_lease l issue now), id, true)
  else (db, id, false).

(** [new_id] is what [new_secret_lease_id()] returns; the insert does nothing when the
    declaration has a row that the transaction had not read. *)
Definition _issue_declared_lease_if_absent (db : LeaseDb) (ws new_id : string)
    (issue : SecretLeaseIssue) (now : datetime) : LeaseDb * string * bool :=
  match _get_for_declaration db ws (issue_key issue) with
  | None => (set_lease db new_id (new_lease ws issue now), new_id, true)
  | Some (id, l) => refresh_lease db id l issue now
  end.

(** The loop over the issues, each with the id a new row would take. *)
Fixpoint issue_loop (db : LeaseDb) (ws : string) (now : datetime) (seen : gmap key string)
    (issues : list (SecretLeaseIssue * string)) : LeaseDb * list string * list string :=
  match issues with
  | [] => (db, [], [])
  | (issue, new_id) :: issues' =>
      let '(db1, id, issued) :=
        match seen !! issue_key issue with
        | Some id =>
            match leases db !! id with
            | Some l => refresh_lease db id l issue now
            | None => (db, id, false)
            end
        | None => _issue_declared_lease_if_absent db ws new_id issue now
        end in
      let '(db2, results, events) :=
        issue_loop db1 ws now (<[issue_key issue := id]> seen) issues' in
      (db2, id :: results, if issued then id :: events else events)
  end.

(** [seen] is the dictionary read at the start of the transaction.  Without an issue to
    record the code adds no event; [_add_lease_events] on no lease adds none either. *)
Definition issue_declared_leases (db : LeaseDb) (ws : string) (seen : gmap key string)
    (issues : list (SecretLeaseIssue * string)) (now : datetime) : LeaseDb * list string :=
  let '(db', results, events) := issue_loop db ws now seen issues in
  (_add_lease_events db' ws events "SECRET_LEASE_ISSUED" "issue" now, results).

Definition with_status (l : Lease) (status : string) : Lease :=
  {| sl_workspace_id := sl_workspace_id l; sl_attempt_id := sl_attempt_id l;
     sl_secret_name := sl_secret_name l; sl_kind := sl_kind l; sl_target := sl_target l;
     sl_mode := sl_mode l; sl_required := sl_required l; sl_provider := sl_provider l;
     sl_ref_digest := sl_ref_digest l; sl_status := status; sl_issued_at := sl_issued_at l;
     sl_mounted_at := sl_mounted_at l; sl_expires_at := sl_expires_at l;
     sl_revoked_at := sl_revoked_at l; sl_revoke_reason_code := sl_revoke_reason_code l;
     sl_issue_metadata := sl_issue_metadata l; sl_mount_metadata := sl_mount_metadata l |}.

Definition mounted (now : datetime) (metadata : dict) (l : Lease) : Lease :=
  {| sl_workspace_id := sl_workspace_id l; sl_attempt_id := sl_attempt_id l;
     sl_secret_name := sl_secret_name l; sl_kind := sl_kind l; sl_target := sl_target l;
     sl_mode := sl_mode l; sl_required := sl_required l; sl_provider := sl_provider l;
     sl_ref_digest := sl_ref_digest l; sl_status := SECRET_LEASE_STATUS_MOUNTED;
     sl_issued_at := sl_issued_at l; sl_mounted_at := Some now;
     sl_expires_at := sl_expires_at l; sl_revoked_at := sl_revoked_at l;
     sl_revoke_reason_code := sl_revoke_reason_code l;
     sl_issue_metadata := sl_issue_metadata l; sl_mount_metadata := metadata |}.

Definition revoked (now : datetime) (reason_code : string) (l : Lease) : Lease :=
  {| sl_workspace_id := sl_workspace_id l; sl_attempt_id := sl_attempt_id l;
     sl_secret_name := sl_secret_name l; sl_kind := sl_kind l; sl_target := sl_target l;
     sl_mode := sl_mode l; sl_required := sl_required l; sl_provider := sl_provider l;
     sl_ref_digest := sl_ref_digest l; sl_status := SECRET_LEASE_STATUS_REVOKED;
     sl_issued_at := sl_issued_at l; sl_mounted_at := sl_mounted_at l;
     sl_expires_at := sl_expires_at l; sl_revoked_at := Some now;
     sl_revoke_reason_code := Some reason_code;
     sl_issue_metadata := sl_issue_metadata l; sl_mount_metadata := sl_mount_metadata l |}.

Definition mark_issued_mounted (db : LeaseDb) (ws : string) (now : datetime)
    (mount_metadata : option dict) : LeaseDb * list string :=
  let ids := map fst (_list_for_workspace_statuses db ws [SECRET_LEASE_STATUS_ISSUED]) in
  let sanitized_metadata := _sanitize_metadata (default [] mount_metadata) in
  let db := update_leases db ids (mounted now sanitized_metadata) in
  (_add_lease_events db ws ids "SECRET_LEASE_MOUNTED" "mount" now, ids).

Definition revoke_workspace_leases (db : LeaseDb) (ws : string) (now : datetime)
    (reason_code : string) : LeaseDb * list string :=
  let ids := map fst (_list_for_workspace_statuses db ws _SECRET_LEASE_REVOCABLE_STATUSES) in
  let db := update_leases db ids (revoked now reason_code) in
  (_add_lease_events db ws ids "SECRET_LEASE_REVOKED" "revoke" now, ids).

Definition is_due (now : datetime) (l : Lease) : bool :=
  mem (sl_status l) _SECRET_LEASE_ACTIVE_STATUSES
  && match sl_expires_at l with Some e => instant e <=? instant now | None => false end.

(** [order_by(workspace_id, issued_at)]; the order of equal rows is the table's. *)
Definition by_workspace (x y : string * Lease) : bool :=
  str_ltb (sl_workspace_id x.2) (sl_workspace_id y.2)
  || (eqb (sl_workspace_id x.2) (sl_workspace_id y.2)
      && (instant (sl_issued_at x.2) <=? instant (sl_issued_at y.2))).

(** The groups in the order of their first lease. *)
Definition _group_leases_by_workspace (l : list (string * Lease))
  : list (string * list (string * Lease)) :=
  map (fun ws => (ws, List.filter (fun p => eqb (sl_workspace_id p.2) ws) l))
    (fromkeys (map (fun p => sl_workspace_id p.2) l)).

Definition expire_due_leases (db : LeaseDb) (now : datetime) : LeaseDb * list string :=
  let due := sorted_by by_workspace (rows db (is_due now)) in
  let ids := map fst due in
  let db1 := update_leases db ids (fun l => with_status l SECRET_LEASE_STATUS_EXPIRED) in
  (fold_left (fun db g =>
                if bool_decide (g.1 ∈ lease_workspaces db) then
                  _add_lease_events db g.1 (map fst g.2) "SECRET_LEASE_EXPIRED" "expire" now
                else db)
     (_group_leases_by_workspace due) db1, ids).

(** ** The service *)

Definition DEFAULT_SECRET_LEASE_TTL_SECONDS : Z := 12 * 60 * 60.

Record ProfileSecret : Type := {
  ps_name : string; ps_target : string; ps_kind : string; ps_mode : string;
  ps_required : bool; ps_provider : option string; ps_ref : option string
}.

Record SecretProfile : Type := {
  wp_name : string; wp_source : string; wp_secrets : list ProfileSecret
}.

Definition _coerce_now (now : datetime) : datetime :=
  match dt_offset now with None => replace_tzinfo_utc now | Some _ => now end.

Definition _profile_secret_ref_digest (s : ProfileSecret) : option string :=
  match ps_ref s with
  | None => None
  | Some ref =>
      let provider := match ps_provider s with
                      | Some p => if eqb p "" then "unspecified" else p
                      | None => "unspecified"
                      end in
      Some ("sha256:" +:+ sha256_hex (provider +:+ String (char 0) ref))
  end.

Definition _lease_issue_from_profile_secret (s : ProfileSecret) (profile : SecretProfile)
    (declaration_index : Z) (expires_at : datetime) : SecretLeaseIssue :=
  {| si_secret_name := ps_name s; si_kind := ps_kind s; si_target := ps_target s;
     si_mode := ps_mode s; si_required := ps_required s; si_provider := ps_provider s;
     si_ref_digest := _profile_secret_ref_digest s; si_expires_at := Some expires_at;
     si_issue_metadata :=
       [("schema", VStr "secret_lease_issue_metadata.v1");
        ("profile_name", VStr (wp_name profile));
        ("profile_source", VStr (wp_source profile));
        ("declaration_index", VInt declaration_index)];
     si_attempt_id := None |}.

Definition add_seconds (d : datetime) (n : Z) : datetime :=
  {| dt_us := dt_us d + us_per_second * n; dt_offset := dt_offset d |}.

(** The issues of a profile, numbered from 0. *)
Definition profile_issues (profile : SecretProfile) (now : datetime) (ttl_seconds : Z)
  : list SecretLeaseIssue :=
  let expires_at := add_seconds (_coerce_now now) ttl_seconds in
  imap (fun i s => _lease_issue_from_profile_secret s profile (Z.of_nat i) expires_at)
    (wp_secrets profile).

Definition issue_profile_secret_leases (db : LeaseDb) (ws : string) (profile : SecretProfile)
    (new_ids : list string) (now : datetime) (ttl_seconds : Z) : LeaseDb * list string :=
  match profile_issues profile now ttl_seconds with
  | [] => (db, [])
  | issues =>
      issue_declared_leases db ws (_leases_by_declaration_for_workspace db ws)
        (combine issues new_ids) (_coerce_now now)
  end.

Definition record_secret_lease_mounts (db : LeaseDb) (ws : string) (now : datetime)
    (mount_metadata : option dict) : LeaseDb * list string :=
  mark_issued_mounted db ws (_coerce_now now) mount_metadata.

Definition expire_due_secret_leases (db : LeaseDb) (now : datetime) : LeaseDb * list string :=
  expire_due_leases db (_coerce_now now).

Definition revoke_workspace_secret_leases (db : LeaseDb) (ws : string) (now : datetime)
    (reason_code : string) : LeaseDb * list string :=
  revoke_workspace_leases db ws (_coerce_now now) reason_code.

(** [lease.issue_metadata.get("declaration_index")], 0 when it is no integer. *)
Definition declaration_index (l : Lease) : Z :=
  default 0 (as_int (get (sl_issue_metadata l) "declaration_index")).

Definition _lease_projection_leb (x y : string * Lease) : bool :=
  let dx := instant (sl_issued_at x.2) in
  let dy := instant (sl_issued_at y.2) in
  (dx <? dy)
  || ((dx =? dy)
      && ((declaration_index x.2 <? declaration_index y.2)
          || ((declaration_index x.2 =? declaration_index y.2) && str_leb x.1 y.1))).

Definition workspace_secret_lease_status (db : LeaseDb) (ws : string) : list (string * Lease) :=
  sorted_by _lease_projection_leb (list_for_workspace db ws).

#[global] Arguments _lease_audit_payload : simpl never.
#[global] Arguments _sanitize_metadata : simpl never.
#[global] Arguments _declared_lease_requires_reissue : simpl never.
