(* ===== verification/SecretLeasesFacts.v ===== *)
(** * Secret leases are unique, audited and revocable

    Invariants of every sequence of issues, mounts, expiries and revocations: a declaration
    has one lease, a lease's timestamps agree with its status, and the last audit event of a
    lease shows the row as it is.  Issuing is idempotent and makes no second lease
    for a declaration that the transaction's first read had missed; what is revoked stays so until it is issued again. *)

From S2P Require Import Prelude PyStr PyTime PyVal AuditPayload SecretLeases.
#[local] Open Scope Z_scope.
#[local] Set Warnings "-register-all".

(** ** The invariant *)

Definition unique_declarations (db : LeaseDb) : Prop :=
  forall i j l m, leases db !! i = Some l -> leases db !! j = Some m ->
    sl_workspace_id l = sl_workspace_id m -> lease_key l = lease_key m -> i = j.

(** The timestamps a status goes with. *)
Definition lease_wf (l : Lease) : Prop :=
  sl_status l = SECRET_LEASE_STATUS_ISSUED /\
    sl_mounted_at l = None /\ sl_revoked_at l = None /\ sl_mount_metadata l = [] \/
  sl_status l = SECRET_LEASE_STATUS_MOUNTED /\ is_Some (sl_mounted_at l) /\ sl_revoked_at l = None \/
  sl_status l = SECRET_LEASE_STATUS_EXPIRED /\ is_Some (sl_expires_at l) /\ sl_revoked_at l = None \/
  sl_status l = SECRET_LEASE_STATUS_REVOKED /\ is_Some (sl_revoked_at l) /\
    is_Some (sl_revoke_reason_code l).

Definition about (id : string) (e : LeaseEvent) : bool :=
  match get (le_payload e) "lease_id" with VStr s => eqb s id | _ => false end.

(** The last event of the trail about a lease. *)
Definition last_about (db : LeaseDb) (id : string) : option LeaseEvent :=
  last (List.filter (about id) (trail db)).

(** The last event shows the row as it is. *)
Definition audited (db : LeaseDb) (id : string) : Prop :=
  forall l, leases db !! id = Some l ->
    exists action reason now,
      last_about db id
      = Some {| le_workspace_id := sl_workspace_id l; le_reason_code := reason;
                le_payload := _lease_audit_payload id l action reason now |}.

Record rows_ok (db : LeaseDb) : Prop := {
  ok_unique : unique_declarations db;
  ok_wf : map_Forall (fun _ l => lease_wf l) (leases db);
  ok_workspace : map_Forall (fun _ l => sl_workspace_id l ∈ lease_workspaces db) (leases db)
}.

Definition lease_inv (db : LeaseDb) : Prop := rows_ok db /\ forall id, audited db id.

(** ** Audit events *)

Lemma about_event (id i : string) (l : Lease) (ws reason action : string) (now : datetime) :
  about id {| le_workspace_id := ws; le_reason_code := reason;
              le_payload := _lease_audit_payload i l action reason now |} = eqb i id.
Proof. reflexivity. Qed.

Lemma last_repeated {A : Type} (x : A) (l : list A) : l <> [] -> Forall (eq x) l -> last l = Some x.
Proof.
  induction l as [|y l IH]; [done|]. intros _ [<- Hl]%Forall_cons. destruct l as [|z l]; [done|].
  rewrite last_cons_cons. by apply IH.
Qed.

Lemma last_app_ne {A : Type} (l k : list A) : k <> [] -> last (l ++ k) = last k.
Proof. intros Hk. rewrite last_app. destruct (last k) eqn:E; [done|]. by apply last_None in E. Qed.

Section Events.
Context (db : LeaseDb) (ws reason action : string) (ids : list string) (now : datetime).
Let db' := _add_lease_events db ws ids reason action now.

Lemma events_in (id : string) (l : Lease) :
  id ∈ ids -> leases db !! id = Some l ->
  last_about db' id
  = Some {| le_workspace_id := ws; le_reason_code := reason;
            le_payload := _lease_audit_payload id l action reason now |}.
Proof.
  intros Hid Hl. unfold last_about, db'. cbn [trail _add_lease_events]. rewrite List.filter_app.
  rewrite last_app_ne.
  - apply last_repeated.
    + intros Hn. apply (proj1 (bfilter_nil _ _)) with (x := {| le_workspace_id := ws;
        le_reason_code := reason;
        le_payload := _lease_audit_payload id l action reason now |}) in Hn.
      * rewrite about_event, eqb_refl in Hn. done.
      * apply list_elem_of_omap. exists id. by rewrite Hl.
    + apply Forall_forall. intros e [Ha He]%elem_of_bfilter.
      apply list_elem_of_omap in He as (i & Hi & He).
      destruct (leases db !! i) as [m|] eqn:Em; [|done]. injection He as <-.
      rewrite about_event, eqb_true in Ha. subst i. by simplify_eq.
  - intros Hn. apply (proj1 (bfilter_nil _ _)) with (x := {| le_workspace_id := ws;
        le_reason_code := reason;
        le_payload := _lease_audit_payload id l action reason now |}) in Hn.
    + rewrite about_event, eqb_refl in Hn. done.
    + apply list_elem_of_omap. exists id. by rewrite Hl.
Qed.

Lemma events_out (id : string) : id ∉ ids -> last_about db' id = last_about db id.
Proof.
  intros Hid. unfold last_about, db'. cbn [trail _add_lease_events]. rewrite List.filter_app.
  replace (List.filter (about id) (omap _ ids)) with (@nil LeaseEvent); [by rewrite app_nil_r|].
  symmetry. apply bfilter_nil. intros e He. apply list_elem_of_omap in He as (i & Hi & He).
  destruct (leases db !! i) as [m|] eqn:Em; [|done]. injection He as <-.
  rewrite about_event. apply eqb_false. by intros ->.
Qed.
End Events.

(** ** Bulk updates *)

Lemma update_trail (ids : list string) (f : Lease -> Lease) (db : LeaseDb) :
  trail (update_leases db ids f) = trail db /\
  lease_workspaces (update_leases db ids f) = lease_workspaces db.
Proof.
  unfold update_leases. revert db. induction ids as [|id ids IH]; intros db; simpl; [done|].
  destruct (IH (match leases db !! id with Some l => set_lease db id (f l) | None => db end))
    as [-> ->]. by destruct (leases db !! id).
Qed.

Lemma update_rows (ids : list string) (f : Lease -> Lease) (db : LeaseDb) (id : string) :
  NoDup ids ->
  leases (update_leases db ids f) !! id
  = if bool_decide (id ∈ ids) then f <$> leases db !! id else leases db !! id.
Proof.
  unfold update_leases. intros Hn. revert db. induction Hn as [|i ids Hi Hn IH]; intros db; simpl.
  - done.
  - rewrite IH. clear IH. destruct (leases db !! i) as [l|] eqn:El; cbn [leases set_lease].
    + destruct (decide (i = id)) as [->|Hne].
      * rewrite bool_decide_false by done. rewrite bool_decide_true by left.
        by rewrite lookup_insert_eq, El.
      * rewrite lookup_insert_ne by done.
        replace (bool_decide (id ∈ i :: ids)) with (bool_decide (id ∈ ids)); [done|].
        apply bool_decide_ext. rewrite elem_of_cons. naive_solver.
    + destruct (decide (i = id)) as [->|Hne].
      * rewrite El. by destruct (bool_decide (id ∈ ids)), (bool_decide (id ∈ id :: ids)).
      * replace (bool_decide (id ∈ i :: ids)) with (bool_decide (id ∈ ids)); [done|].
        apply bool_decide_ext. rewrite elem_of_cons. naive_solver.
Qed.

Lemma elem_of_rows (db : LeaseDb) (f : Lease -> bool) (id : string) (l : Lease) :
  (id, l) ∈ rows db f <-> f l = true /\ leases db !! id = Some l.
Proof. unfold rows. rewrite elem_of_bfilter, elem_of_map_to_list. done. Qed.

Lemma rows_ids (db : LeaseDb) (f : Lease -> bool) : NoDup (map fst (rows db f)).
Proof.
  eapply sublist_NoDup; [apply (NoDup_fst_map_to_list (leases db))|].
  apply sublist_map, bfilter_sublist.
Qed.

Lemma sorted_rows_ids (db : LeaseDb) (leb : string * Lease -> string * Lease -> bool)
    (f : Lease -> bool) :
  NoDup (map fst (sorted_by leb (rows db f))) /\
  forall id, id ∈ map fst (sorted_by leb (rows db f)) <->
             exists l, leases db !! id = Some l /\ f l = true.
Proof.
  split.
  - rewrite (sorted_by_perm leb (rows db f)). apply rows_ids.
  - intros id. rewrite list_elem_of_fmap. split.
    + intros ([i l] & -> & Hp). rewrite elem_of_sorted_by, elem_of_rows in Hp. naive_solver.
    + intros (l & Hl & Hf). exists (id, l). rewrite elem_of_sorted_by, elem_of_rows. done.
Qed.

(** An update that keeps a lease's workspace and declaration keeps the table well formed. *)
Lemma update_ok (db : LeaseDb) (ids : list string) (f : Lease -> Lease) :
  NoDup ids -> rows_ok db ->
  (forall l, sl_workspace_id (f l) = sl_workspace_id l /\ lease_key (f l) = lease_key l) ->
  (forall id l, id ∈ ids -> leases db !! id = Some l -> lease_wf l -> lease_wf (f l)) ->
  rows_ok (update_leases db ids f).
Proof.
  intros Hn [Hu Hw Hk] Hf Hwf.
  assert (Hold : forall id l, leases (update_leases db ids f) !! id = Some l ->
    exists l0, leases db !! id = Some l0 /\ sl_workspace_id l = sl_workspace_id l0 /\
      lease_key l = lease_key l0 /\ lease_wf l).
  { intros id l. rewrite update_rows by done. case_bool_decide as Hid.
    - intros (l0 & Hl0 & ->)%fmap_Some. exists l0. destruct (Hf l0) as [-> ->].
      split_and!; [done..|]. eapply Hwf; [done..|]. by apply (Hw id).
    - intros Hl. exists l. split_and!; [done..|]. by apply (Hw id). }
  split.
  - intros i j l m Hl Hm Hws Hkey.
    destruct (Hold _ _ Hl) as (l0 & Hl0 & E1 & E2 & _), (Hold _ _ Hm) as (m0 & Hm0 & E3 & E4 & _).
    apply (Hu i j l0 m0); congruence.
  - intros id l Hl. by destruct (Hold _ _ Hl) as (? & ? & ? & ? & ?).
  - intros id l Hl. destruct (Hold _ _ Hl) as (l0 & Hl0 & -> & _).
    rewrite (proj2 (update_trail ids f db)). by apply (Hk id).
Qed.

(** An operation on some leases of a workspace, with an event for each. *)
Lemma bulk_inv (db : LeaseDb) (ws reason action : string) (ids : list string) (now : datetime)
    (f : Lease -> Lease) :
  lease_inv db -> NoDup ids ->
  (forall l, sl_workspace_id (f l) = sl_workspace_id l /\ lease_key (f l) = lease_key l) ->
  (forall id l, id ∈ ids -> leases db !! id = Some l -> sl_workspace_id l = ws /\
     (lease_wf l -> lease_wf (f l))) ->
  lease_inv (_add_lease_events (update_leases db ids f) ws ids reason action now).
Proof.
  intros [Hok Ha] Hn Hf Hids. split.
  - destruct (update_ok db ids f Hn Hok Hf) as [Hu Hw Hk]; [naive_solver|]. by split.
  - intros id l Hl. cbn [leases _add_lease_events] in Hl.
    destruct (decide (id ∈ ids)) as [Hin|Hout].
    + rewrite (events_in _ _ _ _ _ _ _ l) by done.
      rewrite update_rows, bool_decide_true in Hl by done.
      apply fmap_Some in Hl as (l0 & Hl0 & ->). destruct (Hids _ _ Hin Hl0) as [<- _].
      destruct (Hf l0) as [-> _]. eauto.
    + rewrite events_out by done. rewrite update_rows, bool_decide_false in Hl by done.
      unfold last_about. rewrite (proj1 (update_trail ids f db)). by apply Ha.
Qed.

(** ** Mounting, revoking, expiring *)

Lemma listed_ids (db : LeaseDb) (ws : string) (statuses : list string) (id : string) (l : Lease) :
  id ∈ map fst (_list_for_workspace_statuses db ws statuses) -> leases db !! id = Some l ->
  sl_workspace_id l = ws /\ sl_status l ∈ statuses.
Proof.
  intros Hid Hl. apply (sorted_rows_ids db by_issue) in Hid as (l' & Hl' & Hf). simplify_eq.
  apply andb_true_iff in Hf as [Hws Hs]. rewrite eqb_true in Hws. by rewrite mem_true in Hs.
Qed.

Lemma mount_inv (db : LeaseDb) (ws : string) (now : datetime) (metadata : option dict) :
  lease_inv db -> lease_inv (mark_issued_mounted db ws now metadata).1.
Proof.
  intros Hi. apply bulk_inv; [done|apply sorted_rows_ids|done|].
  intros id l Hid Hl. destruct (listed_ids _ _ _ _ _ Hid Hl) as [Hws Hs]. split; [done|].
  apply list_elem_of_singleton in Hs. unfold lease_wf. rewrite Hs.
  intros [(_ & _ & Hr & _)|[(?&_)|[(?&_)|(?&_)]]]; try done. right. left.
  cbn. by split_and!.
Qed.

Lemma revoke_inv (db : LeaseDb) (ws : string) (now : datetime) (reason : string) :
  lease_inv db -> lease_inv (revoke_workspace_leases db ws now reason).1.
Proof.
  intros Hi. apply bulk_inv; [done|apply sorted_rows_ids|done|].
  intros id l Hid Hl. destruct (listed_ids _ _ _ _ _ Hid Hl) as [Hws _]. split; [done|].
  intros _. unfold lease_wf. do 3 right. cbn. by split_and!.
Qed.

Lemma groups_inv (gs : list (string * list (string * Lease))) (db : LeaseDb) (now : datetime) :
  rows_ok db ->
  (forall g id l, g ∈ gs -> id ∈ map fst g.2 -> leases db !! id = Some l ->
     sl_workspace_id l = g.1) ->
  (forall id, audited db id \/ exists g, g ∈ gs /\ id ∈ map fst g.2) ->
  lease_inv (fold_left (fun db g =>
               if bool_decide (g.1 ∈ lease_workspaces db) then
                 _add_lease_events db g.1 (map fst g.2) "SECRET_LEASE_EXPIRED" "expire" now
               else db) gs db).
Proof.
  revert db. induction gs as [|g gs IH]; intros db Hok Hws Ha; cbn [fold_left].
  - split; [done|]. intros id. destruct (Ha id) as [|(g & Hg & _)]; [done|].
    by apply elem_of_nil in Hg.
  - case_bool_decide as Hk.
    + apply IH.
      * by destruct Hok.
      * intros g' id l Hg'. apply Hws. by right.
      * intros id. destruct (decide (id ∈ map fst g.2)) as [Hin|Hout].
        -- left. intros l Hl. rewrite (events_in _ _ _ _ _ _ _ l) by done.
           rewrite <- (Hws g id l); [eauto|left|done|done].
        -- destruct (Ha id) as [Hid|(g' & [->|Hg']%elem_of_cons & Hin)]; [|done|eauto].
           left. intros l Hl. rewrite events_out by done. by apply Hid.
    + apply IH; [done|intros g' id l Hg'; apply Hws; by right|].
      intros id. destruct (Ha id) as [|(g' & [->|Hg']%elem_of_cons & Hin)]; [by left| |eauto].
      left. intros l Hl. destruct Hk. rewrite <- (Hws g id l); [|left|done|done].
      by apply (ok_workspace _ Hok id).
Qed.

Lemma elem_of_group (l : list (string * Lease)) (g : string * list (string * Lease)) :
  g ∈ _group_leases_by_workspace l ->
  forall p, p ∈ g.2 <-> p ∈ l /\ sl_workspace_id p.2 = g.1.
Proof.
  intros (ws & -> & _)%list_elem_of_fmap p. cbn. rewrite elem_of_bfilter, eqb_true. tauto.
Qed.

Lemma in_some_group (l : list (string * Lease)) (p : string * Lease) :
  p ∈ l -> exists g, g ∈ _group_leases_by_workspace l /\ p ∈ g.2.
Proof.
  intros Hp. eexists. split.
  - apply list_elem_of_fmap. exists (sl_workspace_id p.2). split; [done|].
    apply elem_of_fromkeys, list_elem_of_fmap. eauto.
  - cbn. apply elem_of_bfilter. by rewrite eqb_refl.
Qed.

Lemma expire_inv (db : LeaseDb) (now : datetime) :
  lease_inv db -> lease_inv (expire_due_leases db now).1.
Proof.
  intros [Hok Ha]. unfold expire_due_leases. cbn [fst].
  set (due := sorted_by by_workspace (rows db (is_due now))).
  destruct (sorted_rows_ids db by_workspace (is_due now)) as [Hn Hids]. fold due in Hn, Hids.
  assert (Hrows : forall id l, leases (update_leases db (map fst due)
      (fun l => with_status l SECRET_LEASE_STATUS_EXPIRED)) !! id = Some l ->
    exists l0, leases db !! id = Some l0 /\ sl_workspace_id l = sl_workspace_id l0).
  { intros id l. rewrite update_rows by done. case_bool_decide; [|eauto].
    intros (l0 & Hl0 & ->)%fmap_Some. eauto. }
  apply groups_inv.
  - apply update_ok; [done..|]. intros id l Hid Hl Hwf.
    apply Hids in Hid as (l' & Hl' & Hd). assert (l' = l) as -> by congruence.
    apply andb_true_iff in Hd as [Hs He].
    rewrite mem_true in Hs. unfold lease_wf in *. do 2 right. left. cbn.
    split_and!; [done|by destruct (sl_expires_at l)|].
    apply elem_of_cons in Hs as [Hs|Hs%list_elem_of_singleton]; rewrite Hs in Hwf;
      by destruct Hwf as [(_ & _ & ? & _)|[(? & _ & ?)|[(? & _)|(? & _)]]].
  - intros g id l Hg (p & -> & Hp)%list_elem_of_fmap Hl.
    apply (elem_of_group _ _ Hg) in Hp as [Hp Hws]. apply Hrows in Hl as (l0 & Hl0 & ->).
    destruct p as [id m]. unfold due in Hp. rewrite elem_of_sorted_by, elem_of_rows in Hp.
    cbn in *. destruct Hp as [_ Hm]. by simplify_eq.
  - intros id. destruct (decide (id ∈ map fst due)) as [Hin|Hout]; [right|left].
    + apply list_elem_of_fmap in Hin as (p & -> & Hp). apply in_some_group in Hp as (g & Hg & Hp).
      exists g. split; [done|]. apply list_elem_of_fmap. eauto.
    + intros l. rewrite update_rows, bool_decide_false by done. intros Hl.
      unfold last_about. rewrite (proj1 (update_trail _ _ _)). by apply Ha.
Qed.

(** ** Issuing *)

(** The dictionary of a transaction: it may miss rows that other transactions inserted since
    it was read, and the rows it has are as the table has them. *)
Definition valid_seen (db : LeaseDb) (ws : string) (seen : gmap key string) : Prop :=
  forall k id, seen !! k = Some id ->
    exists l, leases db !! id = Some l /\ sl_workspace_id l = ws /\ lease_key l = k.

Lemma get_spec (db : LeaseDb) (ws : string) (k : key) (id : string) (l : Lease) :
  unique_declarations db ->
  _get_for_declaration db ws k = Some (id, l) <->
  leases db !! id = Some l /\ sl_workspace_id l = ws /\ lease_key l = k.
Proof.
  intros Hu. unfold _get_for_declaration.
  set (f := fun l => eqb (sl_workspace_id l) ws && eqb (lease_key l) k).
  assert (Hin : forall i m, (i, m) ∈ rows db f <->
            leases db !! i = Some m /\ sl_workspace_id m = ws /\ lease_key m = k).
  { intros i m. rewrite elem_of_rows. unfold f. rewrite andb_true_iff, !eqb_true. tauto. }
  rewrite <- Hin. destruct (rows db f) as [|[i m] t] eqn:E; cbn [head].
  - split; [done|]. by intros ?%elem_of_nil.
  - split; [intros [= -> ->]; left|]. intros H.
    assert (Hi : (i, m) ∈ (i, m) :: t) by left. rewrite Hin in H, Hi.
    destruct H as (Hl & Hw & Hk), Hi as (Hm & Hw' & Hk').
    assert (i = id) as -> by (apply (Hu _ _ m l); congruence). congruence.
Qed.

Lemma get_none (db : LeaseDb) (ws : string) (k : key) (id : string) (l : Lease) :
  unique_declarations db -> _get_for_declaration db ws k = None ->
  leases db !! id = Some l -> sl_workspace_id l = ws -> lease_key l <> k.
Proof.
  intros Hu Hn Hl Hw Hk. rewrite (proj2 (get_spec db ws k id l Hu)) in Hn; done.
Qed.

Lemma reissued_current (l : Lease) (issue : SecretLeaseIssue) (now : datetime) (ws : string) :
  json_doc (VDict (si_issue_metadata issue)) = true ->
  _declared_lease_requires_reissue (_reissue_declared_lease l issue now) issue = false /\
  _declared_lease_requires_reissue (new_lease ws issue now) issue = false.
Proof.
  intros Hj. assert (Hs : py_eqb (VDict (_sanitize_metadata (si_issue_metadata issue)))
                            (VDict (_sanitize_metadata (si_issue_metadata issue))) = true).
  { apply py_eqb_refl. by apply (redact_json (VDict (si_issue_metadata issue))). }
  unfold _declared_lease_requires_reissue.
  cbn [sl_status sl_attempt_id sl_mode sl_required sl_provider sl_ref_digest sl_issue_metadata
       _reissue_declared_lease new_lease].
  rewrite Hs, !eqb_refl. done.
Qed.

Lemma set_lease_ok (db : LeaseDb) (id : string) (l : Lease) :
  rows_ok db -> lease_wf l -> sl_workspace_id l ∈ lease_workspaces db ->
  (forall i m, leases db !! i = Some m -> sl_workspace_id m = sl_workspace_id l ->
     lease_key m = lease_key l -> i = id) ->
  rows_ok (set_lease db id l).
Proof.
  intros [Hu Hw Hk] Hl Hws Hsame. split; cbn.
  - intros i j m n. cbn. rewrite !lookup_insert_Some.
    intros [[<- <-]|[_ Hm]] [[<- <-]|[_ Hn]] Hwmn Hkmn; [done| | |by eapply Hu].
    + symmetry. by eapply Hsame.
    + by eapply Hsame.
  - by apply map_Forall_insert_2.
  - by apply map_Forall_insert_2.
Qed.

(** What issuing one declaration does, whatever was read before. *)
Record issued_spec (db : LeaseDb) (ws new_id : string) (issue : SecretLeaseIssue)
    (db1 : LeaseDb) (id : string) (issued : bool) : Prop := {
  is_ok : rows_ok db1;
  is_trail : trail db1 = trail db;
  is_workspaces : lease_workspaces db1 = lease_workspaces db;
  is_others : forall i, i <> id -> leases db1 !! i = leases db !! i;
  is_lease : exists l, leases db1 !! id = Some l /\ sl_workspace_id l = ws /\
               lease_key l = issue_key issue /\
               _declared_lease_requires_reissue l issue = false;
  is_id : id = new_id \/ is_Some (leases db !! id);
  is_keeps : forall m, leases db !! id = Some m ->
               sl_workspace_id m = ws /\ lease_key m = issue_key issue;
  is_same : issued = false -> db1 = db
}.

Lemma refresh_spec (db : LeaseDb) (ws new_id id : string) (l : Lease) (issue : SecretLeaseIssue)
    (now : datetime) (db1 : LeaseDb) (id1 : string) (issued : bool) :
  rows_ok db -> json_doc (VDict (si_issue_metadata issue)) = true ->
  leases db !! id = Some l -> sl_workspace_id l = ws -> lease_key l = issue_key issue ->
  refresh_lease db id l issue now = (db1, id1, issued) ->
  issued_spec db ws new_id issue db1 id1 issued.
Proof.
  intros Hok Hj Hl Hw Hk. unfold refresh_lease.
  destruct (_declared_lease_requires_reissue l issue) eqn:E; intros [= <- <- <-].
  - split; try done.
    + apply set_lease_ok; [done| | |].
      * left. by split_and!.
      * exact (ok_workspace _ Hok id l Hl).
      * intros i m Hm Hwm Hkm. by apply (ok_unique _ Hok i id m l).
    + intros i Hi. by apply lookup_insert_ne.
    + exists (_reissue_declared_lease l issue now). cbn [leases set_lease].
      rewrite lookup_insert_eq. split_and!; [done..|]. by apply (reissued_current l issue now "").
    + right. by rewrite Hl.
    + intros m Hm. by simplify_eq.
  - split; try done; [by exists l|right; by rewrite Hl|]. intros m Hm. by simplify_eq.
Qed.

Lemma absent_spec (db : LeaseDb) (ws new_id : string) (issue : SecretLeaseIssue) (now : datetime)
    (db1 : LeaseDb) (id : string) (issued : bool) :
  rows_ok db -> ws ∈ lease_workspaces db -> leases db !! new_id = None ->
  json_doc (VDict (si_issue_metadata issue)) = true ->
  _issue_declared_lease_if_absent db ws new_id issue now = (db1, id, issued) ->
  issued_spec db ws new_id issue db1 id issued.
Proof.
  intros Hok Hws Hfresh Hj. unfold _issue_declared_lease_if_absent.
  destruct (_get_for_declaration db ws (issue_key issue)) as [[i l]|] eqn:E.
  - apply get_spec in E as (Hl & Hw & Hk); [|apply Hok]. by apply refresh_spec.
  - intros [= <- <- <-]. split; try done; [| | |by left|intros m Hm; by simplify_eq].
    + apply set_lease_ok; [done| |done|].
      * left. by split_and!.
      * intros i m Hm Hwm Hkm. exfalso.
        by apply (get_none _ _ _ i m (ok_unique _ Hok) E).
    + intros i Hi. by apply lookup_insert_ne.
    + exists (new_lease ws issue now). cbn [leases set_lease]. rewrite lookup_insert_eq.
      split_and!; [done..|]. by apply (reissued_current (new_lease ws issue now) issue now ws).
Qed.

(** Reading the dictionary or the table comes to the same. *)
Lemma seen_or_read (db : LeaseDb) (ws new_id : string) (seen : gmap key string)
    (issue : SecretLeaseIssue) (now : datetime) :
  rows_ok db -> valid_seen db ws seen ->
  match seen !! issue_key issue with
  | Some id => match leases db !! id with
               | Some l => refresh_lease db id l issue now
               | None => (db, id, false)
               end
  | None => _issue_declared_lease_if_absent db ws new_id issue now
  end = _issue_declared_lease_if_absent db ws new_id issue now.
Proof.
  intros Hok Hv. destruct (seen !! issue_key issue) as [id|] eqn:E; [|done].
  apply Hv in E as (l & Hl & Hw & Hk). rewrite Hl. unfold _issue_declared_lease_if_absent.
  rewrite (proj2 (get_spec db ws (issue_key issue) id l (ok_unique _ Hok))); done.
Qed.

Lemma seen_later (db db1 : LeaseDb) (ws new_id id : string) (seen : gmap key string)
    (issue : SecretLeaseIssue) (issued : bool) :
  issued_spec db ws new_id issue db1 id issued -> valid_seen db ws seen -> rows_ok db ->
  valid_seen db1 ws (<[issue_key issue := id]> seen).
Proof.
  intros Hs Hv Hok k i. rewrite lookup_insert_Some.
  destruct (is_lease _ _ _ _ _ _ _ Hs) as (l & Hl & Hw & Hk & _).
  intros [[<- <-]|[Hne Hi]]; [eauto|]. apply Hv in Hi as (m & Hm & Hwm & Hkm).
  destruct (decide (i = id)) as [->|Hid].
  - apply (is_keeps _ _ _ _ _ _ _ Hs) in Hm as [_ Hm]. congruence.
  - exists m. by rewrite (is_others _ _ _ _ _ _ _ Hs).
Qed.

(** The loop without its dictionary. *)
Fixpoint issue_all (db : LeaseDb) (ws : string) (now : datetime)
    (issues : list (SecretLeaseIssue * string)) : LeaseDb * list string * list string :=
  match issues with
  | [] => (db, [], [])
  | (issue, new_id) :: issues' =>
      let '(db1, id, issued) := _issue_declared_lease_if_absent db ws new_id issue now in
      let '(db2, results, events) := issue_all db1 ws now issues' in
      (db2, id :: results, if issued then id :: events else events)
  end.

Definition plain_issue (i : SecretLeaseIssue * string) : Prop :=
  json_doc (VDict (si_issue_metadata i.1)) = true.

(** New ids are new, and metadata is JSON. *)
Record fresh_issues (db : LeaseDb) (issues : list (SecretLeaseIssue * string)) : Prop := {
  fi_ids : NoDup (map snd issues);
  fi_new : Forall (fun i => leases db !! i.2 = None) issues;
  fi_plain : Forall plain_issue issues
}.

Lemma fresh_later (db db1 : LeaseDb) (ws new_id id : string) (issue : SecretLeaseIssue)
    (issued : bool) (issues : list (SecretLeaseIssue * string)) :
  fresh_issues db ((issue, new_id) :: issues) ->
  issued_spec db ws new_id issue db1 id issued -> fresh_issues db1 issues.
Proof.
  intros [Hn Hf Hp] Hs. apply NoDup_cons in Hn as [Hnew Hn]. apply Forall_cons in Hf as [_ Hf].
  apply Forall_cons in Hp as [_ Hp]. split; [done| |done].
  apply Forall_forall. intros i Hi. pose proof (proj1 (Forall_forall _ _) Hf i Hi) as Hni.
  cbn in Hni. rewrite (is_others _ _ _ _ _ _ _ Hs); [done|]. intros He.
  destruct (is_id _ _ _ _ _ _ _ Hs) as [->|[m Hm]]; [|congruence].
  apply Hnew. rewrite <- He. apply list_elem_of_fmap. by exists i.
Qed.

Lemma loop_reads_table (db : LeaseDb) (ws : string) (now : datetime) (seen : gmap key string)
    (issues : list (SecretLeaseIssue * string)) :
  rows_ok db -> ws ∈ lease_workspaces db -> fresh_issues db issues -> valid_seen db ws seen ->
  issue_loop db ws now seen issues = issue_all db ws now issues.
Proof.
  revert db seen. induction issues as [|[issue new_id] issues IH];
    intros db seen Hok Hws Hf Hv; cbn [issue_loop issue_all]; [done|].
  rewrite (seen_or_read db ws new_id seen issue now Hok Hv).
  destruct (_issue_declared_lease_if_absent db ws new_id issue now) as [[db1 id] issued] eqn:E.
  pose proof (Forall_inv (fi_new _ _ Hf)) as Hnew. pose proof (Forall_inv (fi_plain _ _ Hf)) as Hp.
  apply absent_spec in E as Hs; [|done..].
  rewrite IH; [done|by destruct Hs| |by eapply fresh_later|by eapply seen_later].
  by rewrite (is_workspaces _ _ _ _ _ _ _ Hs).
Qed.

(** A lease that has what an issue asks for. *)
Definition settled (db : LeaseDb) (ws : string) (issue : SecretLeaseIssue) (id : string) : Prop :=
  exists l, leases db !! id = Some l /\ sl_workspace_id l = ws /\ lease_key l = issue_key issue /\
    _declared_lease_requires_reissue l issue = false.

Record all_spec (db : LeaseDb) (ws : string) (issues : list (SecretLeaseIssue * string))
    (db' : LeaseDb) (results events : list string) : Prop := {
  as_ok : rows_ok db';
  as_trail : trail db' = trail db;
  as_workspaces : lease_workspaces db' = lease_workspaces db;
  as_rest : forall i, i ∉ events -> leases db' !! i = leases db !! i;
  as_events : forall i l, i ∈ events -> leases db' !! i = Some l -> sl_workspace_id l = ws;
  as_keep : forall i l, leases db !! i = Some l ->
    lease_key l ∉ map (fun p => issue_key p.1) issues -> leases db' !! i = Some l;
  as_stays : forall i l, leases db !! i = Some l ->
    exists l', leases db' !! i = Some l' /\ sl_workspace_id l' = sl_workspace_id l /\
               lease_key l' = lease_key l;
  as_settled : NoDup (map (fun p => issue_key p.1) issues) ->
    Forall2 (settled db' ws) (map fst issues) results
}.

Lemma issue_all_spec (db : LeaseDb) (ws : string) (now : datetime)
    (issues : list (SecretLeaseIssue * string)) (db' : LeaseDb) (results events : list string) :
  rows_ok db -> ws ∈ lease_workspaces db -> fresh_issues db issues ->
  issue_all db ws now issues = (db', results, events) ->
  all_spec db ws issues db' results events.
Proof.
  revert db results events. induction issues as [|[issue new_id] issues IH];
    intros db results events Hok Hws Hf; cbn [issue_all].
  { intros [= -> <- <-]. split; try done; [by intros i l ?%elem_of_nil|by eauto]. }
  destruct (_issue_declared_lease_if_absent db ws new_id issue now) as [[db1 id] issued] eqn:E.
  destruct (issue_all db1 ws now issues) as [[db2 res] ev] eqn:E2. intros [= -> <- <-].
  pose proof (Forall_inv (fi_new _ _ Hf)) as Hnew. pose proof (Forall_inv (fi_plain _ _ Hf)) as Hp.
  apply absent_spec in E as Hs; [|done..].
  apply IH in E2 as Hall; [|by destruct Hs|by rewrite (is_workspaces _ _ _ _ _ _ _ Hs)
                          |by eapply fresh_later].
  destruct Hall as [A1 A2 A3 A4 A5 A6 A7 A8].
  destruct (is_lease _ _ _ _ _ _ _ Hs) as (l1 & Hl1 & Hw1 & Hk1 & Hr1).
  assert (Hid : issued = false -> db1 = db) by apply (is_same _ _ _ _ _ _ _ Hs).
  split.
  - done.
  - by rewrite A2, (is_trail _ _ _ _ _ _ _ Hs).
  - by rewrite A3, (is_workspaces _ _ _ _ _ _ _ Hs).
  - intros i Hi. destruct issued.
    + apply not_elem_of_cons in Hi as [Hne Hi]. rewrite A4 by done.
      by apply (is_others _ _ _ _ _ _ _ Hs).
    + rewrite A4, Hid by done. done.
  - intros i l Hi Hl. destruct issued; [|by apply (A5 i)].
    apply elem_of_cons in Hi as [->|Hi]; [|by apply (A5 i)].
    destruct (decide (id ∈ ev)); [by apply (A5 id)|]. rewrite A4 in Hl by done. by simplify_eq.
  - intros i l Hl Hk. cbn [map] in Hk. apply not_elem_of_cons in Hk as [Hk Hks].
    apply A6; [|done]. destruct (decide (i = id)) as [->|Hne].
    + by apply (is_keeps _ _ _ _ _ _ _ Hs) in Hl as [_ Hl].
    + by rewrite (is_others _ _ _ _ _ _ _ Hs).
  - intros i l Hl. destruct (decide (i = id)) as [->|Hne].
    + destruct (A7 _ _ Hl1) as (l' & ? & ? & ?), (is_keeps _ _ _ _ _ _ _ Hs _ Hl) as [-> ->].
      exists l'. split_and!; congruence.
    + apply A7. by rewrite (is_others _ _ _ _ _ _ _ Hs).
  - cbn [map]. intros [Hk Hn]%NoDup_cons. constructor; [|by apply A8].
    exists l1. split_and!; [|done..]. apply A6; [done|]. by rewrite Hk1.
Qed.

(** Settled issues are left alone. *)
Lemma issue_all_settled (db : LeaseDb) (ws : string) (now : datetime)
    (issues : list (SecretLeaseIssue * string)) (results : list string) :
  rows_ok db -> Forall2 (settled db ws) (map fst issues) results ->
  issue_all db ws now issues = (db, results, []).
Proof.
  intros Hok. revert results. induction issues as [|[issue new_id] issues IH];
    intros results H; cbn [map] in H; inversion H as [|? id ? res Hi Hrest]; subst;
    cbn [issue_all]; [done|].
  destruct Hi as (l & Hl & Hw & Hk & Hr). unfold _issue_declared_lease_if_absent.
  rewrite (proj2 (get_spec db ws (issue_key issue) id l (ok_unique _ Hok))) by done.
  unfold refresh_lease. rewrite Hr. by rewrite (IH res).
Qed.

(** ** Steps *)

Inductive issue_step (ws : string) (db : LeaseDb) : LeaseDb -> Prop :=
  | step_issue seen issues now :
      valid_seen db ws seen -> ws ∈ lease_workspaces db -> fresh_issues db issues ->
      issue_step ws db (issue_declared_leases db ws seen issues now).1.

Inductive keeping_step (db : LeaseDb) : LeaseDb -> Prop :=
  | step_mount ws now metadata : keeping_step db (record_secret_lease_mounts db ws now metadata).1
  | step_expire now : keeping_step db (expire_due_secret_leases db now).1
  | step_revoke ws now reason :
      keeping_step db (revoke_workspace_secret_leases db ws now reason).1.

Definition lease_step (db db' : LeaseDb) : Prop :=
  keeping_step db db' \/ exists ws, issue_step ws db db'.

(** Steps that issue nothing for a workspace. *)
Definition step_elsewhere (ws : string) (db db' : LeaseDb) : Prop :=
  keeping_step db db' \/ exists ws', ws' <> ws /\ issue_step ws' db db'.

Section Issue.
Context (db : LeaseDb) (ws : string) (seen : gmap key string)
  (issues : list (SecretLeaseIssue * string)) (now : datetime).
Hypothesis (Hok : rows_ok db) (Hws : ws ∈ lease_workspaces db)
  (Hf : fresh_issues db issues) (Hv : valid_seen db ws seen).

Lemma issue_spec :
  exists db' results events,
    issue_declared_leases db ws seen issues now
    = (_add_lease_events db' ws events "SECRET_LEASE_ISSUED" "issue" now, results) /\
    all_spec db ws issues db' results events.
Proof using Hok Hws Hf Hv.
  unfold issue_declared_leases. rewrite (loop_reads_table db ws now seen issues) by done.
  destruct (issue_all db ws now issues) as [[db' results] events] eqn:E.
  exists db', results, events. split; [done|]. by eapply issue_all_spec.
Qed.

Lemma issue_inv :
  (forall id, audited db id) -> lease_inv (issue_declared_leases db ws seen issues now).1.
Proof using Hok Hws Hf Hv.
  intros Ha. destruct issue_spec as (db' & results & events & -> & [A1 A2 A3 A4 A5 _ _ _]).
  cbn [fst]. split; [by destruct A1|]. intros id l Hl. cbn [leases _add_lease_events] in Hl.
  destruct (decide (id ∈ events)) as [Hin|Hout].
  - rewrite (events_in _ _ _ _ _ _ _ l) by done. rewrite (A5 id l) by done. eauto.
  - rewrite events_out by done. unfold last_about. rewrite A2. apply Ha. by rewrite <- A4.
Qed.
End Issue.

(** Rows stay, with their workspace and declaration. *)
Definition rows_stay (db db' : LeaseDb) : Prop :=
  lease_workspaces db' = lease_workspaces db /\
  forall id l, leases db !! id = Some l ->
    exists l', leases db' !! id = Some l' /\ sl_workspace_id l' = sl_workspace_id l /\
               lease_key l' = lease_key l.

Lemma update_stays (db : LeaseDb) (ids : list string) (f : Lease -> Lease) :
  NoDup ids -> (forall l, sl_workspace_id (f l) = sl_workspace_id l /\ lease_key (f l) = lease_key l) ->
  rows_stay db (update_leases db ids f).
Proof.
  intros Hn Hf. split; [apply update_trail|]. intros id l Hl. rewrite update_rows by done.
  case_bool_decide; rewrite Hl; [|by exists l]. exists (f l). by destruct (Hf l).
Qed.

(** The rows after an expiry: only the due ones change. *)
Lemma expire_rows (db : LeaseDb) (now : datetime) :
  leases (expire_due_leases db now).1
  = leases (update_leases db (map fst (sorted_by by_workspace (rows db (is_due now))))
              (fun l => with_status l SECRET_LEASE_STATUS_EXPIRED)) /\
  lease_workspaces (expire_due_leases db now).1 = lease_workspaces db.
Proof.
  unfold expire_due_leases. cbn [fst].
  set (db1 := update_leases db _ _).
  assert (Hg : forall gs d, leases (fold_left (fun db g =>
      if bool_decide (g.1 ∈ lease_workspaces db) then
        _add_lease_events db g.1 (map fst g.2) "SECRET_LEASE_EXPIRED" "expire" now
      else db) gs d) = leases d /\
    lease_workspaces (fold_left (fun db (g : string * list (string * Lease)) =>
      if bool_decide (g.1 ∈ lease_workspaces db) then
        _add_lease_events db g.1 (map fst g.2) "SECRET_LEASE_EXPIRED" "expire" now
      else db) gs d) = lease_workspaces d).
  { induction gs as [|g gs IH]; intros d; cbn [fold_left]; [done|].
    case_bool_decide; [|by apply IH]. by destruct (IH (_add_lease_events d g.1 (map fst g.2)
      "SECRET_LEASE_EXPIRED" "expire" now)) as [-> ->]. }
  destruct (Hg (_group_leases_by_workspace (sorted_by by_workspace (rows db (is_due now)))) db1)
    as [-> ->].
  split; [done|]. apply update_trail.
Qed.

Lemma keeping_stays (db db' : LeaseDb) : keeping_step db db' -> rows_stay db db'.
Proof.
  intros [ws now metadata|now|ws now reason].
  - apply (update_stays db _ (mounted _ _)); [apply sorted_rows_ids|done].
  - destruct (update_stays db (map fst (sorted_by by_workspace (rows db (is_due (_coerce_now now)))))
      (fun l => with_status l SECRET_LEASE_STATUS_EXPIRED)) as [_ H];
      [apply sorted_rows_ids|done|].
    unfold expire_due_secret_leases. destruct (expire_rows db (_coerce_now now)) as [Hl Hw].
    split; [done|]. by rewrite Hl.
  - apply (update_stays db _ (revoked _ _)); [apply sorted_rows_ids|done].
Qed.

Lemma keeping_inv (db db' : LeaseDb) : keeping_step db db' -> lease_inv db -> lease_inv db'.
Proof. intros []; [apply mount_inv|apply expire_inv|apply revoke_inv]. Qed.

Lemma step_inv (db db' : LeaseDb) : lease_step db db' -> lease_inv db -> lease_inv db'.
Proof.
  intros [Hs|[ws [seen issues now Hv Hws Hf]]]; [by apply keeping_inv|].
  intros [Hok Ha]. by apply issue_inv.
Qed.

Lemma step_stays (db db' : LeaseDb) : rows_ok db -> lease_step db db' -> rows_stay db db'.
Proof.
  intros Hok [Hs|[ws [seen issues now Hv Hws Hf]]]; [by apply keeping_stays|].
  destruct (issue_spec db ws seen issues now) as (d & results & events & -> & Hall); [done..|].
  split; [apply Hall|]. apply (as_stays _ _ _ _ _ _ Hall).
Qed.

Lemma read_valid (db : LeaseDb) (ws : string) :
  valid_seen db ws (_leases_by_declaration_for_workspace db ws).
Proof.
  intros k id Hk. apply elem_of_list_to_map_2 in Hk.
  apply list_elem_of_fmap in Hk as ([i l] & [= -> ->] & Hp). apply elem_of_rows in Hp as [Hw Hl].
  exists l. rewrite eqb_true in Hw. done.
Qed.

Lemma steps_ok (db db' : LeaseDb) :
  rtc lease_step db db' -> lease_inv db -> lease_inv db' /\ rows_stay db db'.
Proof.
  induction 1 as [db|db db1 db' Hs _ IH]; intros Hi.
  - split; [done|]. split; [done|]. eauto.
  - destruct (step_stays _ _ (proj1 Hi) Hs) as [Hw1 Hr1].
    destruct IH as [Hi' [Hw Hr]]; [by eapply step_inv|].
    split; [done|]. split; [congruence|]. intros id l Hl.
    apply Hr1 in Hl as (l1 & Hl1 & <- & <-). by apply Hr.
Qed.

(** ** What is revoked stays revoked *)

Definition none_active (ws : string) (db : LeaseDb) : Prop :=
  forall id l, leases db !! id = Some l -> sl_workspace_id l = ws ->
    sl_status l = SECRET_LEASE_STATUS_REVOKED.

(** An update that skips revoked rows brings back none. *)
Lemma update_none_active (ws : string) (db : LeaseDb) (ids : list string) (f : Lease -> Lease) :
  NoDup ids -> (forall l, sl_workspace_id (f l) = sl_workspace_id l) ->
  (forall id l, id ∈ ids -> leases db !! id = Some l ->
     sl_status (f l) = SECRET_LEASE_STATUS_REVOKED \/ sl_status l <> SECRET_LEASE_STATUS_REVOKED) ->
  none_active ws db -> none_active ws (update_leases db ids f).
Proof.
  intros Hn Hf Hids Ha id l. rewrite update_rows by done. case_bool_decide as Hin; [|apply Ha].
  intros (l0 & Hl0 & ->)%fmap_Some. rewrite Hf. intros Hws.
  destruct (Hids id l0 Hin Hl0) as [|[]]; [done|]. by apply (Ha id).
Qed.

Lemma elsewhere_none_active (ws : string) (db db' : LeaseDb) :
  lease_inv db -> step_elsewhere ws db db' -> none_active ws db -> none_active ws db'.
Proof.
  intros [Hok _] [[ws' now metadata|now|ws' now reason]|(ws' & Hne & [seen issues now Hv Hws Hf])] Ha.
  - apply (update_none_active ws db _ (mounted _ _)); [apply sorted_rows_ids|done| |done].
    intros id l Hid Hl. right. destruct (listed_ids _ _ _ _ _ Hid Hl) as [_ Hs].
    apply list_elem_of_singleton in Hs. by rewrite Hs.
  - intros id l. unfold expire_due_secret_leases.
    rewrite (proj1 (expire_rows db (_coerce_now now))).
    apply (update_none_active ws db); [apply sorted_rows_ids|done| |done].
    clear. intros id l (m & Hm & Hd)%(sorted_rows_ids db by_workspace) Hl. right. simplify_eq.
    apply andb_true_iff in Hd as [Hs _]. intros Hr. rewrite Hr in Hs. by vm_compute in Hs.
  - apply (update_none_active ws db _ (revoked _ _)); [apply sorted_rows_ids|done|by left|done].
  - destruct (issue_spec db ws' seen issues now) as (d & results & events & -> & Hall); [done..|].
    intros id l Hl Hw. cbn [fst leases _add_lease_events] in Hl.
    destruct (decide (id ∈ events)) as [Hin|Hout].
    + destruct Hne. rewrite <- Hw. symmetry. by apply (as_events _ _ _ _ _ _ Hall id).
    + rewrite (as_rest _ _ _ _ _ _ Hall) in Hl by done. by apply (Ha id).
Qed.

Lemma elsewhere_is_step (ws : string) (db db' : LeaseDb) :
  step_elsewhere ws db db' -> lease_step db db'.
Proof. intros [|(ws' & _ & ?)]; [by left|right; eauto]. Qed.

Lemma revoke_none_active (db : LeaseDb) (ws : string) (now : datetime) (reason : string) :
  lease_inv db -> none_active ws (revoke_workspace_secret_leases db ws now reason).1.
Proof.
  intros [Hok _] id l. unfold revoke_workspace_secret_leases, revoke_workspace_leases.
  cbn [fst leases _add_lease_events]. rewrite update_rows by apply sorted_rows_ids.
  case_bool_decide as Hin; [by intros (l0 & _ & ->)%fmap_Some|].
  intros Hl Hw. destruct (ok_wf _ Hok id l Hl) as [(Hs & _)|[(Hs & _)|[(Hs & _)|(Hs & _)]]];
    [..|done]; (destruct Hin; apply (sorted_rows_ids db by_issue); exists l; split; [done|];
      apply andb_true_iff; rewrite eqb_true, mem_true, Hs; split; [done|];
      by repeat constructor).
Qed.

(** ** The properties *)

Definition no_leases (wss : gset string) : LeaseDb :=
  {| leases := ∅; lease_workspaces := wss; trail := [] |}.

Lemma no_leases_inv (wss : gset string) : lease_inv (no_leases wss).
Proof. by repeat split. Qed.

(** C32: Whatever sequence of issues, mounts, expiries and revocations is performed, from an
    empty table, a workspace has at most one lease for a declaration, the timestamps of each
    lease agree with its status (issued: not mounted, nothing recorded of a mount; revoked:
    with its time and reason; expired: with a deadline), and the last audit event about a
    lease is one of its workspace that shows the lease exactly as the table has it. *)
Theorem leases_audited (wss : gset string) (db : LeaseDb)
    (Hsteps : rtc lease_step (no_leases wss) db) :
  unique_declarations db /\
  forall id l, leases db !! id = Some l ->
    lease_wf l /\
    exists action reason now,
      last_about db id
      = Some {| le_workspace_id := sl_workspace_id l; le_reason_code := reason;
                le_payload := _lease_audit_payload id l action reason now |}.
Proof.
  destruct (steps_ok _ _ Hsteps (no_leases_inv wss)) as [[[Hu Hw _] Ha] _].
  split; [done|]. intros id l Hl. split; [by apply (Hw id)|by apply Ha].
Qed.

(** A transaction that read the declarations of a workspace before others inserted leases
    (of this or other workspaces, and did what they liked with the new ones) issues exactly
    what it would have issued had it read them last: no second lease for a declaration it
    had missed, same rows, same audit events, same result. *)
Theorem stale_reads_agree (wss : gset string) (db0 db : LeaseDb) (ws : string)
    (issues : list (SecretLeaseIssue * string)) (now : datetime)
    (Hbefore : rtc lease_step (no_leases wss) db0) (Hafter : rtc lease_step db0 db)
    (Hread : leases db0 ⊆ leases db) (Hws : ws ∈ wss) (Hf : fresh_issues db issues) :
  issue_declared_leases db ws (_leases_by_declaration_for_workspace db0 ws) issues now
  = issue_declared_leases db ws (_leases_by_declaration_for_workspace db ws) issues now.
Proof.
  destruct (steps_ok _ _ Hbefore (no_leases_inv wss)) as [Hi0 [Hw0 _]].
  destruct (steps_ok _ _ Hafter Hi0) as [[Hok _] [Hw _]].
  assert (Hk : ws ∈ lease_workspaces db) by (by rewrite Hw, Hw0).
  unfold issue_declared_leases. rewrite !(loop_reads_table db ws now _ issues); try done.
  - apply read_valid.
  - intros k id Hs. destruct (read_valid db0 ws k id Hs) as (l & Hl & ? & ?).
    exists l. split; [by eapply lookup_weaken|done].
Qed.

(** Issuing the declared leases of a workspace leaves, for each declaration, a lease that
    has what was asked for (attempt, mode, provider, digest and metadata, and an active
    status); issuing the same declarations again, at any later time, returns the same leases
    and changes neither a row nor the audit trail. *)
Theorem issue_idempotent (wss : gset string) (db : LeaseDb) (ws : string)
    (issues again : list (SecretLeaseIssue * string)) (now later : datetime)
    (Hsteps : rtc lease_step (no_leases wss) db) (Hws : ws ∈ wss)
    (Hkeys : NoDup (map (fun p => issue_key p.1) issues)) (Hf : fresh_issues db issues)
    (Hagain : map fst again = map fst issues) :
  let issue db l t := issue_declared_leases db ws (_leases_by_declaration_for_workspace db ws) l t in
  let '(db1, results) := issue db issues now in
  Forall2 (settled db1 ws) (map fst issues) results /\
  (fresh_issues db1 again -> issue db1 again later = (db1, results)).
Proof.
  destruct (steps_ok _ _ Hsteps (no_leases_inv wss)) as [[Hok Ha] [Hw _]].
  assert (Hk : ws ∈ lease_workspaces db) by by rewrite Hw.
  pose proof (issue_spec db ws _ issues now Hok Hk Hf (read_valid db ws)) as Hsp. cbv zeta.
  destruct Hsp as (d & results & events & -> & Hall).
  set (db1 := _add_lease_events d ws events _ _ _).
  assert (Hset : Forall2 (settled db1 ws) (map fst issues) results).
  { by apply (as_settled _ _ _ _ _ _ Hall). }
  split; [done|]. intros Hf1. assert (Hok1 : rows_ok db1) by (by destruct (as_ok _ _ _ _ _ _ Hall)).
  unfold issue_declared_leases. rewrite (loop_reads_table db1 ws later _ again); [|done| |done|].
  - rewrite (issue_all_settled db1 ws later again results Hok1); [|by rewrite Hagain].
    unfold _add_lease_events. cbn [omap list_omap]. rewrite app_nil_r. done.
  - unfold db1. cbn [lease_workspaces _add_lease_events].
    by rewrite (as_workspaces _ _ _ _ _ _ Hall).
  - apply read_valid.
Qed.

(** Once the leases of a workspace are revoked, every lease of the workspace is revoked,
    and mounts, expiries, further revocations and issues for other workspaces, in any order
    and number, leave it so: a secret can be mounted again only after a new issue for the
    workspace. *)
Theorem revoked_until_issued (wss : gset string) (db db' : LeaseDb) (ws : string)
    (now : datetime) (reason : string) (Hsteps : rtc lease_step (no_leases wss) db)
    (Hafter : rtc (step_elsewhere ws) (revoke_workspace_secret_leases db ws now reason).1 db') :
  forall id l, leases db' !! id = Some l -> sl_workspace_id l = ws ->
    sl_status l = SECRET_LEASE_STATUS_REVOKED /\ is_Some (sl_revoked_at l).
Proof.
  destruct (steps_ok _ _ Hsteps (no_leases_inv wss)) as [Hi _].
  pose proof (revoke_none_active db ws now reason Hi) as Hn.
  apply (revoke_inv _ ws (_coerce_now now) reason) in Hi.
  change (revoke_workspace_leases db ws (_coerce_now now) reason)
    with (revoke_workspace_secret_leases db ws now reason) in Hi.
  revert Hi Hn. induction Hafter as [d|d d1 d' Hs _ IH]; intros Hi Hn.
  - intros id l Hl Hw. split; [by apply (Hn id)|].
    destruct Hi as [[_ Hwf _] _]. destruct (Hwf id l Hl) as [(Hr & _)|[(Hr & _)|[(Hr & _)|(_ & Hr & _)]]];
      [..|done]; by rewrite (Hn id) in Hr.
  - apply IH; [by eapply step_inv, Hi; eapply elsewhere_is_step|].
    by apply (elsewhere_none_active ws d).
Qed.

(** ** Witnesses *)

Definition sample_now : datetime := {| dt_us := 0; dt_offset := Some 0 |}.
Definition sample_profile : SecretProfile :=
  {| wp_name := "web"; wp_source := "repo";
     wp_secrets :=
       [{| ps_name := "token"; ps_target := "API_TOKEN"; ps_kind := "env"; ps_mode := "0400";
           ps_required := true; ps_provider := Some "vault"; ps_ref := None |};
        {| ps_name := "cert"; ps_target := "/run/cert"; ps_kind := "file"; ps_mode := "0400";
           ps_required := false; ps_provider := None; ps_ref := None |}] |}.
Definition sample_issues (ids : list string) : list (SecretLeaseIssue * string) :=
  combine (profile_issues sample_profile sample_now 3600) ids.
Definition sample_empty : LeaseDb := no_leases {["w1"]}.
Definition sample_leased : LeaseDb :=
  (issue_declared_leases sample_empty "w1" (_leases_by_declaration_for_workspace sample_empty "w1")
     (sample_issues ["l1"; "l2"]) sample_now).1.

Lemma sample_ids_fresh (ids : list string) (db : LeaseDb) :
  length ids = 2%nat -> NoDup ids -> Forall (fun i => leases db !! i = None) ids ->
  fresh_issues db (sample_issues ids).
Proof.
  intros Hl Hn Hf. destruct ids as [|i [|j [|]]]; try done.
  split; [done|by repeat (apply Forall_cons in Hf as [? Hf]; constructor; try done)|].
  repeat constructor.
Qed.

Lemma sample_issued : lease_step sample_empty sample_leased.
Proof.
  right. exists "w1". constructor; [apply read_valid|set_solver|].
  apply sample_ids_fresh; [done| |repeat constructor].
  apply (bool_decide_eq_true_1 (NoDup ["l1"; "l2"])). done.
Qed.

Lemma sample_lease_steps : rtc lease_step sample_empty sample_leased.
Proof. apply rtc_once, sample_issued. Qed.

Lemma leases_audited_witness :
  (unique_declarations sample_leased /\
   forall id l, leases sample_leased !! id = Some l ->
     lease_wf l /\
     exists action reason now,
       last_about sample_leased id
       = Some {| le_workspace_id := sl_workspace_id l; le_reason_code := reason;
                 le_payload := _lease_audit_payload id l action reason now |}) /\
  map fst (list_for_workspace sample_leased "w1") = ["l1"; "l2"] /\
  length (trail sample_leased) = 2%nat.
Proof. split; [apply (leases_audited {["w1"]} _ sample_lease_steps)|by vm_compute]. Defined.

Lemma stale_reads_agree_witness :
  issue_declared_leases sample_leased "w1" (_leases_by_declaration_for_workspace sample_empty "w1")
    (sample_issues ["l3"; "l4"]) sample_now
  = issue_declared_leases sample_leased "w1"
      (_leases_by_declaration_for_workspace sample_leased "w1")
      (sample_issues ["l3"; "l4"]) sample_now.
Proof.
  apply (stale_reads_agree {["w1"]});
    [apply rtc_refl|apply sample_lease_steps|apply map_empty_subseteq|set_solver|].
  apply sample_ids_fresh; [done| |repeat constructor].
  apply (bool_decide_eq_true_1 (NoDup ["l3"; "l4"])). done.
Defined.

Lemma issue_idempotent_witness :
  let db1 := (issue_declared_leases sample_empty "w1"
                (_leases_by_declaration_for_workspace sample_empty "w1")
                (sample_issues ["l1"; "l2"]) sample_now).1 in
  issue_declared_leases db1 "w1" (_leases_by_declaration_for_workspace db1 "w1")
    (sample_issues ["l3"; "l4"]) (add_seconds sample_now 60) = (db1, ["l1"; "l2"]).
Proof.
  cbv zeta. pose proof (issue_idempotent {["w1"]} sample_empty "w1" (sample_issues ["l1"; "l2"])
    (sample_issues ["l3"; "l4"]) sample_now (add_seconds sample_now 60)) as H. cbv zeta in H.
  destruct (issue_declared_leases sample_empty "w1"
    (_leases_by_declaration_for_workspace sample_empty "w1") (sample_issues ["l1"; "l2"])
    sample_now) as [db1 results] eqn:E.
  assert (Hr : results = ["l1"; "l2"]).
  { transitivity ((db1, results).2); [done|]. rewrite <- E. by vm_compute. }
  rewrite <- Hr. apply H; [apply rtc_refl|set_solver| |apply sample_ids_fresh| |].
  - apply (bool_decide_eq_true_1 (NoDup _)). by vm_compute.
  - done.
  - apply (bool_decide_eq_true_1 (NoDup ["l1"; "l2"])). done.
  - repeat constructor.
  - done.
  - apply sample_ids_fresh; [done|apply (bool_decide_eq_true_1 (NoDup ["l3"; "l4"])); done|].
    assert (Hd : db1 = sample_leased) by (unfold sample_leased; by rewrite E).
    rewrite Hd. repeat constructor.
Defined.

Lemma revoked_until_issued_witness :
  map (fun p => (p.1, sl_status p.2))
    (list_for_workspace (record_secret_lease_mounts
       (revoke_workspace_secret_leases sample_leased "w1" sample_now "DONE").1
       "w1" sample_now None).1 "w1")
  = [("l1", "revoked"); ("l2", "revoked")] /\
  forall id l, leases (record_secret_lease_mounts
      (revoke_workspace_secret_leases sample_leased "w1" sample_now "DONE").1
      "w1" sample_now None).1 !! id = Some l ->
    sl_workspace_id l = "w1" ->
    sl_status l = SECRET_LEASE_STATUS_REVOKED /\ is_Some (sl_revoked_at l).
Proof.
  split; [by vm_compute|].
  apply (revoked_until_issued {["w1"]} sample_leased _ "w1" sample_now "DONE"); [apply sample_lease_steps|].
  apply rtc_once. left. constructor.
Defined.
