(* ===== verification/ProviderFailures.v ===== *)
(** * Classification of provider failures

    [adapters/provider_failures.py] and [adapters/failure_reasons.py]: from a reason code
    and the output of a failed agent to the kind of failure, the provider it concerns, a
    redacted fingerprint and whether to retry. *)

From S2P Require Import Prelude PyStr Regex PyRe PyVal Redaction.
#[local] Open Scope Z_scope.
#[local] Set Warnings "-register-all".

Definition AGENT_AUTH_FAILED : string := "AGENT_AUTH_FAILED".
Definition AGENT_PROVIDER_CAPACITY_EXHAUSTED : string := "AGENT_PROVIDER_CAPACITY_EXHAUSTED".
Definition AGENT_TIMEOUT : string := "AGENT_TIMEOUT".
Definition AGENT_IDLE_TIMEOUT : string := "AGENT_IDLE_TIMEOUT".
Definition AGENT_SERVICE_UNHEALTHY : string := "AGENT_SERVICE_UNHEALTHY".
Definition UNSUPPORTED_AGENT_RUNTIME : string := "UNSUPPORTED_AGENT_RUNTIME".

Inductive ProviderFailureType : Type :=
| ft_auth | ft_quota | ft_capacity | ft_usage_limit | ft_timeout | ft_idle_timeout
| ft_runtime_unhealthy | ft_unsupported_runtime.

#[export] Instance failure_type_eq_dec : EqDecision ProviderFailureType.
Proof. solve_decision. Defined.

Definition failure_type_value (t : ProviderFailureType) : string :=
  match t with
  | ft_auth => "auth"
  | ft_quota => "quota"
  | ft_capacity => "capacity"
  | ft_usage_limit => "usage_limit"
  | ft_timeout => "timeout"
  | ft_idle_timeout => "idle_timeout"
  | ft_runtime_unhealthy => "runtime_unhealthy"
  | ft_unsupported_runtime => "unsupported_runtime"
  end.

(** ** Markers *)

Definition _AUTH_FAILURE_MARKERS : list string :=
  ["not logged in"; "please run /login"; "please set an auth method";
   "manual authorization is required"; "could not authenticate"; "error authenticating";
   "invalid_grant"; "anthropic_api_key"; "cursor_api_key"; "cursor api key"; "cursor auth";
   "cursor authentication"; "authentication required. run 'agy' to log in";
   "authentication required. please visit the url to log in";
   "gemini_api_key environment variable is not set"; "gemini_api_key"; "google_api_key";
   "ollama api key"; "ollama cloud authentication"; "opencode auth"; "xai_api_key";
   "xai api key"; "grok auth"; "unauthorized"].

Definition _QUOTA_FAILURE_MARKERS : list string :=
  ["resource_exhausted"; "retryablequotaerror"; "http 429"; "429 too many requests"; " 429 ";
   "rate limit"; "rate_limit"; "quota exceeded"; "quota exhausted"].

Definition _CAPACITY_FAILURE_MARKERS : list string :=
  ["model_capacity_exhausted"; "capacity exhausted"; "model capacity"; "server overloaded";
   "temporarily overloaded"].

Definition _USAGE_LIMIT_MARKERS : list string :=
  ["usage limit"; "hit your usage limit"; "you've hit your usage limit";
   "switch to another model"].

Definition CURSOR_MARKERS : list string :=
  ["cursor-agent"; "sonnet-4-thinking"; "cursor_api_key"; "cursor api key"; "cursor auth";
   "cursor authentication"].
Definition GOOGLE_MARKERS : list string :=
  ["gemini"; "google_api_key"; "gemini_api_key"; "resource_exhausted"; "retryablequotaerror"].
Definition ANTHROPIC_MARKERS : list string := ["claude"; "anthropic"; "sonnet"; "opus"; "haiku"].
Definition OLLAMA_MARKERS : list string := ["ollama"].
Definition XAI_MARKERS : list string := ["grok"; "xai"; "grok-build"].
Definition OPENAI_MARKERS : list string := ["codex"; "openai"; "gpt-"; "o3"; "o4"].

Definition RETRY_AFTER_PATTERN : string :=
  "\bretry(?:-|\s*)after\b\s*(?:[:=]|\bin\b)?\s*(?P<seconds>\d{1,6})".
Definition _RETRY_AFTER_RE : regex := re_compile IGNORECASE RETRY_AFTER_PATTERN.
Definition _WHITESPACE_RE : regex := re_compile NOFLAG "\s+".

Example failure_patterns_parse :
  parses IGNORECASE RETRY_AFTER_PATTERN && parses NOFLAG "\s+" = true.
Proof. vm_compute. reflexivity. Qed.

Definition any_marker (markers : list string) (text : string) : bool :=
  existsb (fun marker => contains marker text) markers.

(** ** Classification *)

Definition infer_provider (model output : option string) : option string :=
  let text := lower (default "" model +:+ String newline (default "" output)) in
  if any_marker CURSOR_MARKERS text then Some "cursor"
  else if any_marker GOOGLE_MARKERS text then Some "google"
  else if any_marker ANTHROPIC_MARKERS text then Some "anthropic"
  else if any_marker OLLAMA_MARKERS text then Some "ollama"
  else if any_marker XAI_MARKERS text then Some "xai"
  else if any_marker OPENAI_MARKERS text then Some "openai"
  else None.

Definition _normalize_optional (value : option string) : option string :=
  match value with
  | None => None
  | Some v => if eqb (strip v) "" then None else Some (strip v)
  end.

Definition failure_fingerprint (reason_code failure_type : string) (provider model : option string)
    (output : string) (limit : nat) : string :=
  let redacted := redact_secrets output [] in
  let compact := lower (strip (re_sub _WHITESPACE_RE (fun _ => " ") redacted)) in
  let compact := if (limit <? str_len compact)%nat then rstrip (take_str limit compact) else compact in
  join "|" [reason_code; failure_type; default "unknown-provider" provider;
            default "unknown-model" model; compact].

Definition _capacity_failure_type (output : string) : ProviderFailureType :=
  if any_marker _USAGE_LIMIT_MARKERS output then ft_usage_limit
  else if any_marker _CAPACITY_FAILURE_MARKERS output then ft_capacity
  else ft_quota.

Definition _reason_code_for_type (t : ProviderFailureType) : string :=
  match t with
  | ft_auth => AGENT_AUTH_FAILED
  | ft_timeout => AGENT_TIMEOUT
  | ft_idle_timeout => AGENT_IDLE_TIMEOUT
  | ft_unsupported_runtime => UNSUPPORTED_AGENT_RUNTIME
  | _ => AGENT_PROVIDER_CAPACITY_EXHAUSTED
  end.

Definition _retry_after_seconds (output : string) : option Z :=
  m ← re_search _RETRY_AFTER_RE output;
  seconds ← named _RETRY_AFTER_RE m "seconds"; py_int seconds.

Definition _default_cooldown_seconds (t : ProviderFailureType) : Z :=
  match t with
  | ft_auth => 900
  | ft_timeout | ft_idle_timeout => 120
  | ft_unsupported_runtime => 0
  | _ => 300
  end.

Definition _recommended_action (t : ProviderFailureType) : string :=
  match t with
  | ft_auth => "Refresh provider credentials or dispatch an approved fallback provider."
  | ft_unsupported_runtime => "Dispatch an approved fallback agent runtime."
  | _ => "Retry after provider cooldown or dispatch an approved fallback model."
  end.

Record ProviderFailureClassification : Type := {
  pf_reason_code : string;
  pf_failure_type : ProviderFailureType;
  pf_provider : option string;
  pf_model : option string;
  pf_retryable : bool;
  pf_retry_after_seconds : option Z;
  pf_cooldown_seconds : option Z;
  pf_failure_fingerprint : string;
  pf_recommended_action : string;
  pf_fallback_allowed : bool;
  pf_failure_scope : string
}.

Definition opt_z (o : option Z) : pyval := match o with Some n => VInt n | None => VNone end.

Definition to_metadata (c : ProviderFailureClassification) : dict :=
  List.filter (fun p => match p.2 with VNone => false | _ => true end)
    [("reason_code", VStr (pf_reason_code c));
     ("failure_type", VStr (failure_type_value (pf_failure_type c)));
     ("failure_scope", VStr (pf_failure_scope c));
     ("provider", opt_str (pf_provider c));
     ("model", opt_str (pf_model c));
     ("retryable", VBool (pf_retryable c));
     ("retry_after_seconds", opt_z (pf_retry_after_seconds c));
     ("cooldown_seconds", opt_z (pf_cooldown_seconds c));
     ("failure_fingerprint", VStr (pf_failure_fingerprint c));
     ("recommended_action", VStr (pf_recommended_action c));
     ("fallback_allowed", VBool (pf_fallback_allowed c))].

(** The cascade over the reason code and then the markers. *)
Definition failure_type_of (reason_code : option string) (normalized : string)
  : option ProviderFailureType :=
  let reason := _normalize_optional reason_code in
  if eqb reason (Some AGENT_AUTH_FAILED) then Some ft_auth
  else if eqb reason (Some AGENT_PROVIDER_CAPACITY_EXHAUSTED) then
    Some (_capacity_failure_type normalized)
  else if eqb reason (Some AGENT_TIMEOUT) then Some ft_timeout
  else if eqb reason (Some AGENT_IDLE_TIMEOUT) then Some ft_idle_timeout
  else if eqb reason (Some UNSUPPORTED_AGENT_RUNTIME) then Some ft_unsupported_runtime
  else if any_marker _AUTH_FAILURE_MARKERS normalized then Some ft_auth
  else if any_marker _USAGE_LIMIT_MARKERS normalized then Some ft_usage_limit
  else if any_marker _CAPACITY_FAILURE_MARKERS normalized then Some ft_capacity
  else if any_marker _QUOTA_FAILURE_MARKERS normalized then Some ft_quota
  else None.

Definition is_timeout (t : ProviderFailureType) : bool := mem t [ft_timeout; ft_idle_timeout].

Definition unhealthy_classification (provider model : option string)
  : ProviderFailureClassification :=
  {| pf_reason_code := AGENT_SERVICE_UNHEALTHY; pf_failure_type := ft_runtime_unhealthy;
     pf_provider := provider; pf_model := model; pf_retryable := true;
     pf_retry_after_seconds := None; pf_cooldown_seconds := None; pf_failure_fingerprint := "";
     pf_recommended_action :=
       "Restart the workspace agent runtime service before retrying this workspace.";
     pf_fallback_allowed := false; pf_failure_scope := "infra" |}.

(** [retry_after or default] *)
Definition cooldown_of (t : ProviderFailureType) (retry_after : option Z) : Z :=
  match retry_after with
  | Some n => if n =? 0 then _default_cooldown_seconds t else n
  | None => _default_cooldown_seconds t
  end.

Definition classify_provider_failure (reason_code stdout stderr provider model : option string)
    (service_healthy : option bool) : option ProviderFailureClassification :=
  let output := default "" stderr +:+ String newline (default "" stdout) in
  let inferred_provider :=
    match _normalize_optional provider with
    | Some p => Some p
    | None => infer_provider model (Some output)
    end in
  let normalized_model := _normalize_optional model in
  match failure_type_of reason_code (lower output) with
  | None => None
  | Some t =>
      if eqb service_healthy (Some false) && is_timeout t then
        Some (unhealthy_classification inferred_provider normalized_model)
      else if is_timeout t && eqb inferred_provider None && eqb normalized_model None then None
      else
        let final_reason_code := _reason_code_for_type t in
        let retry_after_seconds := _retry_after_seconds output in
        Some {| pf_reason_code := final_reason_code; pf_failure_type := t;
                pf_provider := inferred_provider; pf_model := normalized_model;
                pf_retryable := true; pf_retry_after_seconds := retry_after_seconds;
                pf_cooldown_seconds := Some (cooldown_of t retry_after_seconds);
                pf_failure_fingerprint :=
                  failure_fingerprint final_reason_code (failure_type_value t) inferred_provider
                    normalized_model output 360;
                pf_recommended_action := _recommended_action t; pf_fallback_allowed := true;
                pf_failure_scope := "provider" |}
  end.

(** ** Adapter failures *)

Definition COMMAND_TIMEOUT_REASON : string := "COMMAND_TIMEOUT".
Definition COMMAND_IDLE_TIMEOUT_REASON : string := "COMMAND_IDLE_TIMEOUT".

Definition _failure_reason_for_result (result_reason : option string) (stdout stderr : string)
  : string :=
  if eqb result_reason (Some COMMAND_TIMEOUT_REASON) then AGENT_TIMEOUT
  else if eqb result_reason (Some COMMAND_IDLE_TIMEOUT_REASON) then AGENT_IDLE_TIMEOUT
  else match classify_provider_failure None (Some stdout) (Some stderr) None None None with
       | Some c => pf_reason_code c
       | None => "AGENT_CLI_FAILED"
       end.

Definition masked_agent_timeout_reason_code (command_reason_code : option string) : option string :=
  if eqb command_reason_code (Some COMMAND_TIMEOUT_REASON) then Some AGENT_TIMEOUT
  else if eqb command_reason_code (Some COMMAND_IDLE_TIMEOUT_REASON) then Some AGENT_IDLE_TIMEOUT
  else None.

#[global] Arguments failure_fingerprint : simpl never.
#[global] Arguments _retry_after_seconds : simpl never.
#[global] Arguments infer_provider : simpl never.
#[global] Arguments any_marker : simpl never.
