(* ===== verification/Porcelain.v ===== *)
(** * Git path output

    [runtime/git_porcelain.py], [runtime/pr_monitor_runner/path_parsing.py] and the parser of
    [control/protected_file_diffs.py]: the paths in the output of [git status --porcelain],
    with and without [-z], and of [git diff --name-status -z] and [--name-only -z].

    Text is a list of code points ([Utf8]).  [None] is an exception of the standard library
    that none of these functions catches: a lone surrogate that cannot be encoded, or
    an octal escape above 255. *)

From S2P Require Import Prelude Utf8.
#[local] Open Scope Z_scope.

Definition NUL : Z := 0.
Definition SPACE : Z := 32.
Definition QUOTE : Z := 34.
Definition BACKSLASH : Z := 92.
Definition LF : Z := 10.

(** ** Strings of code points *)

Fixpoint has_prefix (p text : list Z) : bool :=
  match p, text with
  | [], _ => true
  | a :: p', b :: text' => (a =? b) && has_prefix p' text'
  | _ :: _, [] => false
  end.

(** [text.split(sep)] *)
Fixpoint split_codes (sep : Z) (text : list Z) : list (list Z) :=
  match text with
  | [] => [[]]
  | c :: text' =>
      if c =? sep then [] :: split_codes sep text'
      else match split_codes sep text' with
           | w :: ws => (c :: w) :: ws
           | [] => [[c]]
           end
  end.

(** The characters [splitlines] breaks at. *)
Definition line_break (c : Z) : bool :=
  ((10 <=? c) && (c <=? 13)) || ((28 <=? c) && (c <=? 30)) || (c =? 133) || (c =? 8232)
  || (c =? 8233).

Fixpoint split_lines (text : list Z) : list (list Z) :=
  match text with
  | [] => []
  | c :: text' =>
      if line_break c then
        match text' with
        | d :: text'' =>
            if (c =? 13) && (d =? 10) then [] :: split_lines text'' else [] :: split_lines text'
        | [] => [[]]
        end
      else match split_lines text' with
           | [] => [[c]]
           | l :: ls => (c :: l) :: ls
           end
  end.

(** The records of NUL-terminated output: the text after the last NUL is dropped when
    it is empty. *)
Definition drop_last_empty (records : list (list Z)) : list (list Z) :=
  match last records with
  | Some [] => removelast records
  | _ => records
  end.

(** ** C-quoted paths *)

Definition PORCELAIN_C_ESCAPES : list (Z * Z) :=
  [(97, 7); (98, 8); (116, 9); (110, 10); (118, 11); (102, 12); (114, 13); (QUOTE, 34);
   (BACKSLASH, 92)].

Definition c_escape (e : Z) : option Z :=
  option_map snd (List.find (fun p => p.1 =? e) PORCELAIN_C_ESCAPES).

Definition is_octal (c : Z) : bool := (48 <=? c) && (c <=? 55).

(** The value of one to three octal digits. *)
Definition octal_value (digits : list Z) : Z := fold_left (fun v d => v * 8 + (d - 48)) digits 0.

(** [bytearray.append] takes a byte. *)
Definition append_byte (b : Z) (rest : option (list Z)) : option (list Z) :=
  if b <=? 255 then option_map (cons b) rest else None.

Definition append_char (c : Z) (rest : option (list Z)) : option (list Z) :=
  match encode_char c, rest with
  | Some bytes, Some rest' => Some (bytes ++ rest')
  | _, _ => None
  end.

(** The bytes between the quotes. *)
Fixpoint unquote_body (body : list Z) : option (list Z) :=
  match body with
  | [] => Some []
  | c :: rest =>
      if c =? BACKSLASH then
        match rest with
        | [] => Some [BACKSLASH]
        | e :: rest1 =>
            match c_escape e with
            | Some b => append_byte b (unquote_body rest1)
            | None =>
                if is_octal e then
                  match rest1 with
                  | d2 :: rest2 =>
                      if is_octal d2 then
                        match rest2 with
                        | d3 :: rest3 =>
                            if is_octal d3
                            then append_byte (octal_value [e; d2; d3]) (unquote_body rest3)
                            else append_byte (octal_value [e; d2]) (unquote_body rest2)
                        | [] => append_byte (octal_value [e; d2]) (unquote_body rest2)
                        end
                      else append_byte (octal_value [e]) (unquote_body rest1)
                  | [] => append_byte (octal_value [e]) (unquote_body rest1)
                  end
                else append_char e (unquote_body rest1)
            end
        end
      else append_char c (unquote_body rest)
  end.

Definition is_c_quoted (path : list Z) : bool :=
  (2 <=? length path)%nat && eqb (head path) (Some QUOTE) && eqb (last path) (Some QUOTE).

Definition unquote_porcelain_path (path : list Z) : option (list Z) :=
  if is_c_quoted path then option_map decode (unquote_body (removelast (tail path)))
  else Some path.

(** ** Renames *)

Definition ARROW : list Z := codes " -> ".

Fixpoint split_rename_from (in_quote escaped : bool) (path : list Z)
  : option (list Z * list Z) :=
  match path with
  | [] => None
  | c :: rest =>
      let go q e := option_map (fun p => (c :: p.1, p.2)) (split_rename_from q e rest) in
      if in_quote then
        if escaped then go true false
        else if c =? BACKSLASH then go true true
        else if c =? QUOTE then go false escaped
        else go true escaped
      else if c =? QUOTE then go true escaped
      else if has_prefix ARROW path then Some ([], drop 4 path)
      else go false escaped
  end.

Definition split_porcelain_rename_paths (path : list Z) : option (list Z * list Z) :=
  split_rename_from false false path.

(** ** [git status --porcelain] *)

Definition is_rename_char (c : option Z) : bool := eqb c (Some 82) || eqb c (Some 67).

(** [status[:1] in {"R", "C"} or status[1:2] in {"R", "C"}] *)
Definition is_rename_status (status : list Z) : bool :=
  is_rename_char (status !! 0%nat) || is_rename_char (status !! 1%nat).

Definition UNTRACKED : list Z := codes "?? ".
Definition IGNORED : list Z := codes "!! ".

Definition has_status (line : list Z) : bool :=
  (4 <=? length line)%nat && eqb (line !! 2%nat) (Some SPACE).

(** The paths one line adds. *)
Definition paths_of_line (line : list Z) : option (list (list Z)) :=
  if has_prefix UNTRACKED line || has_status line then
    let status := take 2 line in
    let path := drop 3 line in
    match if is_rename_status status then split_porcelain_rename_paths path else None with
    | Some (old_path, new_path) =>
        match unquote_porcelain_path old_path, unquote_porcelain_path new_path with
        | Some o, Some n => Some [o; n]
        | _, _ => None
        end
    | None => option_map (fun p => [p]) (unquote_porcelain_path path)
    end
  else Some [].

Fixpoint collect {A : Type} (l : list (option (list A))) : option (list A) :=
  match l with
  | [] => Some []
  | Some xs :: l' => option_map (app xs) (collect l')
  | None :: _ => None
  end.

Definition changed_paths_from_porcelain (status_stdout : list Z) : option (list (list Z)) :=
  option_map fromkeys (collect (map paths_of_line (split_lines status_stdout))).

Definition untracked_of_line (include_ignored : bool) (line : list Z) : option (list (list Z)) :=
  if has_prefix UNTRACKED line || (include_ignored && has_prefix IGNORED line)
  then option_map (fun p => [p]) (unquote_porcelain_path (drop 3 line))
  else Some [].

Definition untracked_paths_from_porcelain (include_ignored : bool) (status_stdout : list Z)
  : option (list (list Z)) :=
  option_map fromkeys (collect (map (untracked_of_line include_ignored) (split_lines status_stdout))).

(** ** [git status --porcelain -z] *)

Record ZRecord : Type := {
  zr_status : list Z;
  zr_path : list Z;
  zr_original_path : option (list Z)
}.

Fixpoint z_records (records : list (list Z)) : list ZRecord :=
  match records with
  | [] => []
  | record :: rest =>
      if has_status record then
        let status := take 2 record in
        let path := drop 3 record in
        match rest with
        | original :: rest' =>
            if is_rename_status status
            then {| zr_status := status; zr_path := path; zr_original_path := Some original |}
                 :: z_records rest'
            else {| zr_status := status; zr_path := path; zr_original_path := None |}
                 :: z_records rest
        | [] => [{| zr_status := status; zr_path := path; zr_original_path := None |}]
        end
      else z_records rest
  end.

Definition porcelain_z_records (status_stdout : list Z) : list ZRecord :=
  z_records (drop_last_empty (split_codes NUL status_stdout)).

Definition paths_of_record (r : ZRecord) : list (list Z) :=
  if eqb (zr_status r) (codes "!!") then []
  else match zr_original_path r with
       | Some original => if eqb original [] then [zr_path r] else [original; zr_path r]
       | None => [zr_path r]
       end.

Definition changed_paths_from_porcelain_z (status_stdout : list Z) : list (list Z) :=
  fromkeys (flat_map paths_of_record (porcelain_z_records status_stdout)).

Definition untracked_paths_from_porcelain_z (status_stdout : list Z) : list (list Z) :=
  fromkeys (map zr_path (List.filter (fun r => eqb (zr_status r) (codes "??"))
                           (porcelain_z_records status_stdout))).

(** ** [git diff --name-status -z] and [--name-only -z] *)

(** The value errors, which the monitor turns into [ProtectedScopeDiffError]. *)
Inductive DiffError : Type :=
| not_nul_delimited
| missing_terminating_nul
| empty_status_field
| truncated_record (status : list Z)
| malformed_record (status : list Z)
| empty_name_only_path.

Definition has_code (c : Z) (text : list Z) : bool := existsb (Z.eqb c) text.

(** The loop over the fields: a status and one path, or two for a rename or copy. *)
Fixpoint name_status_fields (fields : list (list Z)) : result DiffError (list (list Z)) :=
  match fields with
  | [] => Ok []
  | status :: rest =>
      match status with
      | [] => Err empty_status_field
      | _ :: _ =>
          match rest with
          | [] => Err (truncated_record status)
          | path :: rest1 =>
              if is_rename_char (head status) then
                match rest1 with
                | [] => Err (truncated_record status)
                | path2 :: rest2 =>
                    if eqb path [] || eqb path2 [] then Err (malformed_record status)
                    else paths <-? name_status_fields rest2 ;; Ok (path :: path2 :: paths)
                end
              else if eqb path [] then Err (malformed_record status)
              else paths <-? name_status_fields rest1 ;; Ok (path :: paths)
          end
      end
  end.

Definition changed_paths_from_name_status_z (diff_stdout : list Z)
  : result DiffError (list (list Z)) :=
  match diff_stdout with
  | [] => Ok []
  | _ :: _ =>
      if negb (has_code NUL diff_stdout) then Err not_nul_delimited
      else
        let fields := split_codes NUL diff_stdout in
        match last fields with
        | Some [] =>
            paths <-? name_status_fields (removelast fields) ;; Ok (fromkeys paths)
        | _ => Err missing_terminating_nul
        end
  end.

Definition changed_paths_from_name_only_z (diff_stdout : list Z)
  : result DiffError (list (list Z)) :=
  let parts := drop_last_empty (split_codes NUL diff_stdout) in
  if existsb (eqb []) parts then Err empty_name_only_path else Ok (fromkeys parts).

Example unquote_accent :
  option_map encode (unquote_porcelain_path (QUOTE :: codes "caf\303\251" ++ [QUOTE]))
  = Some (Some (codes "caf" ++ [195; 169])).
Proof. reflexivity. Qed.
Example unquote_plain : unquote_porcelain_path (codes "a b") = Some (codes "a b").
Proof. reflexivity. Qed.
Example rename_line :
  paths_of_line (codes "R  " ++ [QUOTE] ++ codes "a -> b" ++ [QUOTE] ++ codes " -> c")
  = Some [codes "a -> b"; codes "c"].
Proof. reflexivity. Qed.

(** ** Reading git's paths back

    C-quoted paths denote the bytes they were made from; the two formats of
    [git status] are read alike; and the parser of [--name-status -z] accepts exactly the
    well-formed output. *)

(** ** C-quoted paths *)

Definition is_code_point (c : Z) : Prop := 0 <= c <= 1114111.

(** The documented form of a quoted path: characters for themselves, the escapes of C, and
    three octal digits for any byte. *)
Inductive c_quoted : list Z -> list Z -> Prop :=
| cq_nil : c_quoted [] []
| cq_char c bytes body rest :
    is_code_point c -> c <> QUOTE -> c <> BACKSLASH -> encode_char c = Some bytes ->
    c_quoted body rest -> c_quoted (c :: body) (bytes ++ rest)
| cq_escape e b body rest :
    (e, b) ∈ PORCELAIN_C_ESCAPES -> c_quoted body rest ->
    c_quoted (BACKSLASH :: e :: body) (b :: rest)
| cq_octal d1 d2 d3 body rest :
    is_octal d1 = true -> is_octal d2 = true -> is_octal d3 = true -> d1 <= 51 ->
    c_quoted body rest ->
    c_quoted (BACKSLASH :: d1 :: d2 :: d3 :: body) (octal_value [d1; d2; d3] :: rest).

Lemma escape_spec (e b : Z) :
  (e, b) ∈ PORCELAIN_C_ESCAPES -> c_escape e = Some b /\ is_byte b.
Proof.
  unfold PORCELAIN_C_ESCAPES, is_byte. rewrite !elem_of_cons, elem_of_nil.
  intros H. repeat destruct H as [[= -> ->]|H]; try done; by split; [reflexivity|].
Qed.

Lemma octal_not_escape (d : Z) : is_octal d = true -> c_escape d = None.
Proof.
  unfold is_octal. intros H. bool_simpl. unfold c_escape, PORCELAIN_C_ESCAPES, QUOTE, BACKSLASH.
  cbn [List.find fst]. repeat (match goal with |- context [?a =? ?b] => destruct (Z.eqb_spec a b);
    [lia|] end). done.
Qed.

Lemma octal_byte (d1 d2 d3 : Z) :
  is_octal d1 = true -> is_octal d2 = true -> is_octal d3 = true -> d1 <= 51 ->
  is_byte (octal_value [d1; d2; d3]).
Proof. unfold is_octal, is_byte, octal_value. cbn [fold_left]. intros. bool_simpl. lia. Qed.

Lemma encode_char_bytes (c : Z) (bytes : list Z) :
  is_code_point c -> encode_char c = Some bytes -> Forall is_byte bytes.
Proof.
  unfold is_code_point, encode_char, is_escaped_byte, SURROGATE_ESCAPE, is_byte. intros Hc H.
  assert (Hm : forall x, 0 <= x mod 64 < 64) by (intros x; apply Z.mod_pos_bound; lia).
  pose proof (Hm c). pose proof (Hm (c / 64)). pose proof (Hm (c / 4096)).
  destruct (Z.ltb_spec c 128); [injection H as <-; repeat constructor; lia|].
  destruct (Z.ltb_spec c 2048).
  { assert (0 <= c / 64 < 32) by (split; [apply Z.div_pos|apply Z.div_lt_upper_bound]; lia).
    injection H as <-; repeat constructor; lia. }
  destruct (_ && _) eqn:E; [bool_simpl; injection H as <-; repeat constructor; lia|].
  destruct (is_surrogate c); [done|]. destruct (Z.ltb_spec c 65536).
  { assert (0 <= c / 4096 < 16) by (split; [apply Z.div_pos|apply Z.div_lt_upper_bound]; lia).
    injection H as <-; repeat constructor; lia. }
  assert (0 <= c / 262144 < 5) by (split; [apply Z.div_pos|apply Z.div_lt_upper_bound]; lia).
  injection H as <-; repeat constructor; lia.
Qed.

Lemma c_quoted_bytes (body bytes : list Z) : c_quoted body bytes -> Forall is_byte bytes.
Proof.
  induction 1; [constructor|apply Forall_app; split; [by eapply encode_char_bytes|done]| |];
    constructor; try done.
  - by apply (escape_spec e).
  - by apply octal_byte.
Qed.

Lemma unquote_body_quoted (body bytes : list Z) :
  c_quoted body bytes -> unquote_body body = Some bytes.
Proof.
  induction 1 as [|c bytes body rest _ _ Hb Hc _ IH|e b body rest He _ IH
                 |d1 d2 d3 body rest H1 H2 H3 Hle _ IH]; [done| | |].
  - cbn [unquote_body]. rewrite (proj2 (Z.eqb_neq _ _) Hb), IH. unfold append_char. by rewrite Hc.
  - destruct (escape_spec e b He) as [Hs Hby]. cbn [unquote_body]. rewrite Z.eqb_refl, Hs, IH.
    unfold append_byte, is_byte in *. by rewrite (proj2 (Z.leb_le _ _)) by lia.
  - pose proof (octal_byte d1 d2 d3 H1 H2 H3 Hle) as Hby. cbn [unquote_body].
    rewrite Z.eqb_refl, octal_not_escape, H1, H2, H3, IH by done.
    unfold append_byte, is_byte in *. by rewrite (proj2 (Z.leb_le _ _)) by lia.
Qed.

Lemma quoted_form (body : list Z) :
  is_c_quoted (QUOTE :: body ++ [QUOTE]) = true /\
  removelast (tail (QUOTE :: body ++ [QUOTE])) = body.
Proof.
  split; [|by cbn [tail]; rewrite removelast_last].
  unfold is_c_quoted. cbn [length head]. rewrite length_app. simpl length.
  rewrite (app_comm_cons body [QUOTE] QUOTE), last_snoc.
  rewrite (proj2 (Nat.leb_le _ _)) by lia. done.
Qed.

Lemma unquote_quoted (body bytes : list Z) :
  c_quoted body bytes ->
  unquote_porcelain_path (QUOTE :: body ++ [QUOTE]) = Some (decode bytes).
Proof.
  intros H. destruct (quoted_form body) as [H1 H2]. unfold unquote_porcelain_path.
  by rewrite H1, H2, (unquote_body_quoted body bytes H).
Qed.

(** Three octal digits can say any byte. *)
Lemma octal_digits (b : Z) :
  is_byte b -> exists d1 d2 d3, is_octal d1 = true /\ is_octal d2 = true /\ is_octal d3 = true /\
    d1 <= 51 /\ octal_value [d1; d2; d3] = b.
Proof.
  unfold is_byte. intros Hb.
  pose proof (Z.div_mod b 8 ltac:(lia)). pose proof (Z.mod_pos_bound b 8 ltac:(lia)).
  pose proof (Z.div_mod (b / 8) 8 ltac:(lia)). pose proof (Z.mod_pos_bound (b / 8) 8 ltac:(lia)).
  exists (48 + b / 8 / 8), (48 + (b / 8) mod 8), (48 + b mod 8). unfold is_octal, octal_value.
  cbn [fold_left]. rewrite !andb_true_iff, !Z.leb_le.
  set (x := b / 8) in *. set (y := x / 8) in *. lia.
Qed.

Lemma quoted_exists (bytes : list Z) : Forall is_byte bytes -> exists body, c_quoted body bytes.
Proof.
  induction 1 as [|b bytes Hb _ [body IH]]; [exists []; constructor|].
  destruct (octal_digits b Hb) as (d1 & d2 & d3 & H1 & H2 & H3 & H4 & <-).
  eexists. by apply cq_octal.
Qed.

(** C16: Unquoting a path git C-quoted gives the text of exactly the bytes of the path: every
    byte string has a quoted form; whichever form git chose, raw characters, escapes or
    octal digits, the result decodes those bytes and encodes back to them, valid
    UTF-8 or not; so two quoted paths read alike only if they are the same file. *)
Theorem quoted_path_reads_back :
  (forall bytes, Forall is_byte bytes -> exists body, c_quoted body bytes) /\
  (forall body bytes, c_quoted body bytes ->
     unquote_porcelain_path (QUOTE :: body ++ [QUOTE]) = Some (decode bytes) /\
     encode (decode bytes) = Some bytes) /\
  (forall body bytes body' bytes', c_quoted body bytes -> c_quoted body' bytes' ->
     unquote_porcelain_path (QUOTE :: body ++ [QUOTE])
     = unquote_porcelain_path (QUOTE :: body' ++ [QUOTE]) -> bytes = bytes').
Proof.
  assert (Hback : forall body bytes, c_quoted body bytes -> encode (decode bytes) = Some bytes)
    by (intros; apply encode_decode; by eapply c_quoted_bytes).
  split_and!; [exact quoted_exists| |].
  - intros body bytes H. split; [by apply unquote_quoted|by eapply Hback].
  - intros body bytes body' bytes' H H'.
    rewrite (unquote_quoted _ _ H), (unquote_quoted _ _ H'). intros [= E].
    pose proof (Hback _ _ H) as E1. rewrite E, (Hback _ _ H') in E1. congruence.
Qed.

(** ** Lines and records *)

Definition terminated (sep : Z) (l : list (list Z)) : list Z :=
  concat (map (fun w => w ++ [sep]) l).

Lemma split_lines_terminated (lines : list (list Z)) :
  Forall (Forall (fun c => line_break c = false)) lines ->
  split_lines (terminated LF lines) = lines.
Proof.
  induction 1 as [|l lines Hl _ IH]; [done|]. unfold terminated in *. cbn [map concat].
  rewrite <- app_assoc. cbn [app]. induction Hl as [|c l Hc _ IHl].
  - cbn [app split_lines]. change (line_break LF) with true. cbn iota.
    destruct (concat _) as [|d t]; [by rewrite <- IH|].
    change (LF =? 13) with false. cbn [andb]. by rewrite IH.
  - cbn [app split_lines]. rewrite Hc. cbn [app] in IHl. by rewrite IHl.
Qed.

Definition without (sep : Z) (l : list Z) : Prop := Forall (fun c => c <> sep) l.

Lemma split_codes_terminated (sep : Z) (l : list (list Z)) :
  Forall (without sep) l -> split_codes sep (terminated sep l) = l ++ [[]].
Proof.
  induction 1 as [|w l Hw _ IH]; [done|]. unfold terminated in *. cbn [map concat].
  rewrite <- app_assoc. cbn [app]. induction Hw as [|c w Hc _ IHw].
  - cbn [app split_codes]. rewrite Z.eqb_refl. by rewrite IH.
  - cbn [app split_codes]. rewrite (proj2 (Z.eqb_neq _ _) Hc). cbn [app] in IHw. by rewrite IHw.
Qed.

Lemma split_codes_nonempty (sep : Z) (text : list Z) : split_codes sep text <> [].
Proof. destruct text as [|c text]; simpl; [done|]. by destruct (c =? sep), (split_codes sep text). Qed.

Lemma split_codes_join (sep : Z) (text : list Z) (l : list (list Z)) :
  split_codes sep text = l ++ [[]] -> text = terminated sep l /\ Forall (without sep) l.
Proof.
  revert l. induction text as [|c text IH]; intros l H; simpl in H.
  - destruct l as [|w [|w' l]]; [by repeat constructor|done..].
  - destruct (Z.eqb_spec c sep) as [->|Hc].
    + destruct l as [|w l]; [by injection H as ?%split_codes_nonempty|].
      injection H as <- H. destruct (IH l H) as [-> Hl]. split; [done|]. constructor; [constructor|done].
    + destruct (split_codes sep text) as [|w ws] eqn:E; [by apply split_codes_nonempty in E|].
      destruct l as [|w' l]; [done|]. injection H as <- H. subst ws.
      destruct (IH (w :: l) eq_refl) as [-> Hl]. apply Forall_cons in Hl as [Hw Hl].
      split; [done|]. constructor; [by constructor|done].
Qed.

Lemma drop_last_terminated (l : list (list Z)) : drop_last_empty (l ++ [[]]) = l.
Proof. unfold drop_last_empty. by rewrite last_snoc, removelast_last. Qed.

(** ** The two formats of [git status --porcelain] *)

(** How a line shows a path: as it is when it has no quote, space or line break, and
    C-quoted otherwise. *)
Inductive shown : list Z -> list Z -> Prop :=
| shown_plain path :
    path <> [] ->
    Forall (fun c => line_break c = false /\ c <> QUOTE /\ c <> SPACE) path -> shown path path
| shown_quoted body bytes :
    c_quoted body bytes -> bytes <> [] -> Forall (fun c => line_break c = false) body ->
    shown (decode bytes) (QUOTE :: body ++ [QUOTE]).

Record StatusEntry : Type := {
  se_status : list Z;
  se_path : list Z;
  se_original : option (list Z)
}.

(** Two status letters, paths without NUL, an original path for a rename or copy, and no
    ignored file, which [git status] only lists on demand. *)
Record plain_entry (e : StatusEntry) : Prop := {
  pe_length : length (se_status e) = 2%nat;
  pe_status : Forall (fun c => line_break c = false /\ c <> NUL) (se_status e);
  pe_listed : se_status e <> codes "!!";
  pe_path : without NUL (se_path e) /\ se_path e <> [];
  pe_rename : is_Some (se_original e) <-> is_rename_status (se_status e) = true;
  pe_original : forall o, se_original e = Some o -> without NUL o /\ o <> []
}.

Inductive entry_line (e : StatusEntry) : list Z -> Prop :=
| line_of_path field :
    se_original e = None -> shown (se_path e) field ->
    entry_line e (se_status e ++ SPACE :: field)
| line_of_rename o field field' :
    se_original e = Some o -> shown o field -> shown (se_path e) field' ->
    entry_line e (se_status e ++ SPACE :: field ++ ARROW ++ field').

(** With [-z] the path comes first, as it is, and then the original path. *)
Definition entry_records (e : StatusEntry) : list (list Z) :=
  (se_status e ++ SPACE :: se_path e) :: option_list (se_original e).

Definition entry_paths (e : StatusEntry) : list (list Z) :=
  option_list (se_original e) ++ [se_path e].

Lemma unquote_shown (path field : list Z) :
  shown path field -> unquote_porcelain_path field = Some path.
Proof.
  intros [p Hne Hp|body bytes Hq _ _]; [|by apply unquote_quoted].
  unfold unquote_porcelain_path, is_c_quoted. destruct p as [|c p]; [done|].
  apply Forall_cons in Hp as [(_ & Hc & _) _]. cbn [head].
  rewrite (proj2 (eqb_false (Some c) (Some QUOTE))) by congruence. by rewrite andb_false_r.
Qed.

Lemma shown_field (path field : list Z) :
  shown path field -> field <> [] /\ Forall (fun c => line_break c = false) field.
Proof.
  intros [p Hne Hp|body bytes _ _ Hb]; (split; [done|]).
  - eapply Forall_impl; [exact Hp|]. by intros c [? _].
  - constructor; [done|]. apply Forall_app. by split; [|repeat constructor].
Qed.

(** Inside quotes the separator is not seen. *)
Lemma split_inside (body bytes rest : list Z) :
  c_quoted body bytes ->
  split_rename_from true false (body ++ QUOTE :: rest) =
  option_map (fun p => (body ++ QUOTE :: p.1, p.2)) (split_rename_from false false rest).
Proof.
  induction 1 as [|c bytes body more _ Hq Hb _ _ IH|e b body more _ _ IH
                 |d1 d2 d3 body more H1 H2 H3 _ _ IH]; simpl app.
  - cbn [split_rename_from]. by destruct (split_rename_from false false rest).
  - cbn [split_rename_from]. rewrite (proj2 (Z.eqb_neq _ _) Hb), (proj2 (Z.eqb_neq _ _) Hq), IH.
    by destruct (split_rename_from false false rest).
  - cbn [split_rename_from]. rewrite Z.eqb_refl, IH.
    by destruct (split_rename_from false false rest).
  - assert (Hd : forall d, is_octal d = true -> d <> QUOTE /\ d <> BACKSLASH).
    { unfold is_octal, QUOTE, BACKSLASH. intros d Hd. bool_simpl. lia. }
    destruct (Hd d2 H2) as [N1 N2], (Hd d3 H3) as [N3 N4]. cbn [split_rename_from].
    rewrite Z.eqb_refl, !(proj2 (Z.eqb_neq _ _)), IH by done.
    by destruct (split_rename_from false false rest).
Qed.

Lemma split_rename_shown (path field rest : list Z) :
  shown path field -> split_porcelain_rename_paths (field ++ ARROW ++ rest) = Some (field, rest).
Proof.
  unfold split_porcelain_rename_paths. intros [p _ Hp|body bytes Hq _ _].
  - induction Hp as [|c p (_ & Hc & Hs) _ IH]; [done|]. cbn [app split_rename_from].
    rewrite (proj2 (Z.eqb_neq _ _) Hc).
    replace (has_prefix ARROW (c :: p ++ ARROW ++ rest)) with false
      by (symmetry; apply andb_false_iff; left; apply Z.eqb_neq; by apply not_eq_sym).
    by rewrite IH.
  - cbn [app split_rename_from]. rewrite Z.eqb_refl, <- app_assoc.
    change ([QUOTE] ++ ARROW ++ rest) with (QUOTE :: ARROW ++ rest).
    by rewrite (split_inside body bytes _ Hq).
Qed.

(** The first two characters and the third, of a line with a status. *)
Lemma status_fields (status tail : list Z) :
  length status = 2%nat -> tail <> [] ->
  take 2 (status ++ SPACE :: tail) = status /\ drop 3 (status ++ SPACE :: tail) = tail /\
  has_status (status ++ SPACE :: tail) = true.
Proof.
  destruct status as [|a [|b [|]]]; try done. intros _ Ht. split_and!; [done|done|].
  destruct tail; [done|]. done.
Qed.

Lemma line_paths (e : StatusEntry) (line : list Z) :
  plain_entry e -> entry_line e line -> paths_of_line line = Some (entry_paths e).
Proof.
  intros He Hl. pose proof (pe_rename e He) as Hr. unfold paths_of_line, entry_paths.
  destruct Hl as [field Ho Hs|o field field' Ho Hs Hs'].
  - destruct (shown_field _ _ Hs) as [Hne _].
    destruct (status_fields _ field (pe_length e He) Hne) as (-> & -> & ->). rewrite orb_true_r.
    rewrite Ho in Hr |- *. replace (is_rename_status (se_status e)) with false
      by (symmetry; apply not_true_iff_false; intros H; apply Hr in H as [? [=]]).
    by rewrite (unquote_shown _ _ Hs).
  - destruct (shown_field _ _ Hs) as [Hne _].
    destruct (status_fields _ (field ++ ARROW ++ field') (pe_length e He)) as (-> & -> & ->);
      [by destruct field|]. rewrite orb_true_r, Ho in *. rewrite (proj1 Hr) by eauto.
    by rewrite (split_rename_shown _ _ _ Hs), (unquote_shown _ _ Hs), (unquote_shown _ _ Hs').
Qed.

Lemma collect_all {A B : Type} (f : A -> option (list B)) (g : A -> list B) (l : list A) :
  Forall (fun x => f x = Some (g x)) l -> collect (map f l) = Some (flat_map g l).
Proof. induction 1 as [|x l Hx _ IH]; [done|]. simpl. by rewrite Hx, IH. Qed.

Lemma lines_paths (entries : list StatusEntry) (lines : list (list Z))
    (f : list Z -> option (list (list Z))) (g : StatusEntry -> list (list Z)) :
  (forall e line, plain_entry e -> entry_line e line -> f line = Some (g e)) ->
  Forall plain_entry entries -> Forall2 entry_line entries lines ->
  collect (map f lines) = Some (flat_map g entries).
Proof.
  intros Hf Hp. induction 1 as [|e line es ls Hl _ IH]; [done|].
  apply Forall_cons in Hp as [He Hp]. simpl. by rewrite (Hf e line He Hl), (IH Hp).
Qed.

Lemma lines_unbroken (entries : list StatusEntry) (lines : list (list Z)) :
  Forall plain_entry entries -> Forall2 entry_line entries lines ->
  Forall (Forall (fun c => line_break c = false)) lines.
Proof.
  intros Hp. induction 1 as [|e line es ls Hl _ IH]; [constructor|].
  apply Forall_cons in Hp as [He Hp]. constructor; [|by apply IH].
  assert (Hs : Forall (fun c => line_break c = false) (se_status e)).
  { eapply Forall_impl; [exact (pe_status e He)|]. by intros c [? _]. }
  destruct Hl as [field _ Hf%shown_field|o field field' _ Hf%shown_field Hf'%shown_field];
    apply Forall_app; (split; [done|]); constructor; try done; [by destruct Hf|].
  apply Forall_app. split; [by destruct Hf|]. apply Forall_app.
  split; [by repeat constructor|by destruct Hf'].
Qed.

Lemma records_without_nul (entries : list StatusEntry) :
  Forall plain_entry entries -> Forall (without NUL) (flat_map entry_records entries).
Proof.
  induction 1 as [|e es He _ IH]; [constructor|]. simpl. constructor.
  - apply Forall_app. split.
    + eapply Forall_impl; [exact (pe_status e He)|]. by intros c [_ ?].
    + constructor; [done|]. apply (pe_path e He).
  - apply Forall_app. split; [|done]. destruct (se_original e) as [o|] eqn:Eo; [|constructor].
    constructor; [|constructor]. by apply (pe_original e He).
Qed.

Lemma z_records_entries (entries : list StatusEntry) :
  Forall plain_entry entries ->
  z_records (flat_map entry_records entries) =
  map (fun e => {| zr_status := se_status e; zr_path := se_path e;
                   zr_original_path := se_original e |}) entries.
Proof.
  induction 1 as [|e es He _ IH]; [done|]. cbn [flat_map map]. unfold entry_records at 1.
  destruct (status_fields _ (se_path e) (pe_length e He)) as (H1 & H2 & H3); [apply (pe_path e He)|].
  cbn [app z_records]. rewrite H1, H2, H3. pose proof (pe_rename e He) as Hr.
  destruct (se_original e) as [o|]; simpl (option_list _ ++ _).
  - rewrite (proj1 Hr) by eauto. by rewrite IH.
  - replace (is_rename_status (se_status e)) with false
      by (symmetry; apply not_true_iff_false; intros H; by apply Hr in H as [? [=]]).
    rewrite <- IH. by destruct (flat_map entry_records es).
Qed.

Lemma porcelain_z_entries (entries : list StatusEntry) :
  Forall plain_entry entries ->
  porcelain_z_records (terminated NUL (flat_map entry_records entries)) =
  map (fun e => {| zr_status := se_status e; zr_path := se_path e;
                   zr_original_path := se_original e |}) entries.
Proof.
  intros H. unfold porcelain_z_records.
  rewrite split_codes_terminated, drop_last_terminated by (by apply records_without_nul).
  by apply z_records_entries.
Qed.

Definition untracked_entry (e : StatusEntry) : list (list Z) :=
  if eqb (se_status e) (codes "??") then [se_path e] else [].

Lemma line_untracked (e : StatusEntry) (line : list Z) :
  plain_entry e -> entry_line e line -> untracked_of_line false line = Some (untracked_entry e).
Proof.
  intros He Hl. pose proof (pe_length e He) as Hlen. pose proof (pe_rename e He) as Hr.
  unfold untracked_of_line, untracked_entry. rewrite orb_false_r.
  destruct (se_status e) as [|a [|b [|]]] eqn:Es; try done.
  assert (Hp : forall tail, has_prefix UNTRACKED ([a; b] ++ SPACE :: tail) = eqb [a; b] (codes "??")).
  { intros tail. unfold UNTRACKED. change (codes "?? ") with [63; 63; SPACE].
    change (codes "??") with [63; 63]. cbn [app has_prefix]. rewrite Z.eqb_refl, andb_true_r.
    destruct (Z.eqb_spec 63 a) as [<-|Ha], (Z.eqb_spec 63 b) as [<-|Hb];
      cbn [andb]; symmetry; [by apply eqb_true|apply eqb_false..]; congruence. }
  destruct Hl as [field Ho Hs|o field field' Ho Hs Hs']; rewrite Es, Hp.
  - destruct (eqb [a; b] (codes "??")); [|done].
    change (drop 3 ([a; b] ++ SPACE :: field)) with field. by rewrite (unquote_shown _ _ Hs).
  - destruct (eqb [a; b] (codes "??")) eqn:E; [|done]. rewrite eqb_true in E. rewrite Ho, E in Hr.
    by apply (proj1 Hr) in Ho as [=] || (pose proof (proj1 Hr ltac:(eauto)) as H; discriminate H).
Qed.

(** The two formats of [git status --porcelain] are read alike.  However a line
    shows its paths, bare or quoted, with an arrow between them for a rename, the
    parser of lines finds what the parser of [-z] records finds: the paths of the
    entries, the original path of a rename first, each once; and the same untracked files. *)
Theorem status_formats_agree (entries : list StatusEntry) (lines : list (list Z)) :
  Forall plain_entry entries -> Forall2 entry_line entries lines ->
  let line_output := terminated LF lines in
  let z_output := terminated NUL (flat_map entry_records entries) in
  changed_paths_from_porcelain line_output = Some (fromkeys (flat_map entry_paths entries)) /\
  changed_paths_from_porcelain_z z_output = fromkeys (flat_map entry_paths entries) /\
  untracked_paths_from_porcelain false line_output = Some (untracked_paths_from_porcelain_z z_output).
Proof.
  intros Hp Hl. cbv zeta. pose proof (lines_unbroken _ _ Hp Hl) as Hb.
  unfold changed_paths_from_porcelain, untracked_paths_from_porcelain,
    changed_paths_from_porcelain_z, untracked_paths_from_porcelain_z.
  rewrite split_lines_terminated, porcelain_z_entries by done.
  rewrite (lines_paths entries lines _ entry_paths line_paths Hp Hl).
  rewrite (lines_paths entries lines _ untracked_entry line_untracked Hp Hl).
  split_and!; [done| |].
  - f_equal. clear Hl Hb. induction Hp as [|e es He _ IH]; [done|]. cbn [flat_map map]. rewrite IH. f_equal.
    unfold paths_of_record, entry_paths. cbn [zr_status zr_path zr_original_path].
    rewrite (proj2 (eqb_false _ _) (pe_listed e He)).
    destruct (se_original e) as [o|] eqn:Eo; [|done].
    destruct (pe_original e He o Eo) as [_ Ho]. by rewrite (proj2 (eqb_false _ _) Ho).
  - cbn [option_map]. do 2 f_equal. clear Hp Hl Hb. induction entries as [|e es IH]; [done|].
    cbn [flat_map map List.filter zr_status]. rewrite IH. unfold untracked_entry.
    by destruct (eqb (se_status e) (codes "??")).
Qed.

(** ** [git diff --name-status -z] *)

(** A status with its path, or its two paths for a rename or copy; no field is empty or
    holds a NUL. *)
Inductive diff_entry : list (list Z) -> list (list Z) -> Prop :=
| diff_one status path :
    status <> [] -> path <> [] -> is_rename_char (head status) = false ->
    diff_entry [status; path] [path]
| diff_two status path path2 :
    status <> [] -> path <> [] -> path2 <> [] -> is_rename_char (head status) = true ->
    diff_entry [status; path; path2] [path; path2].

(** The fields of some entries, and their paths. *)
Inductive diff_entries : list (list Z) -> list (list Z) -> Prop :=
| diff_nil : diff_entries [] []
| diff_cons fields paths fields' paths' :
    diff_entry fields paths -> diff_entries fields' paths' ->
    diff_entries (fields ++ fields') (paths ++ paths').

Lemma fields_complete (fields paths : list (list Z)) :
  diff_entries fields paths -> name_status_fields fields = Ok paths.
Proof.
  induction 1 as [|fields paths fields' paths' H _ IH]; [done|].
  destruct H as [status path Hs Hp Hr|status path path2 Hs Hp Hp2 Hr];
    (destruct status as [|s0 status]; [done|]); cbn [app name_status_fields]; rewrite Hr.
  - rewrite (proj2 (eqb_false path []) Hp), IH. done.
  - rewrite (proj2 (eqb_false path []) Hp), (proj2 (eqb_false path2 []) Hp2), IH. done.
Qed.

Lemma fields_sound (n : nat) (fields paths : list (list Z)) :
  (length fields <= n)%nat -> name_status_fields fields = Ok paths -> diff_entries fields paths.
Proof.
  revert fields paths. induction n as [|n IH]; intros [|status rest] paths Hn H; simpl in Hn; try lia.
  - injection H as <-. constructor.
  - injection H as <-. constructor.
  - destruct status as [|s0 status]; [done|]. destruct rest as [|path rest1]; [done|].
    cbn [name_status_fields] in H. simpl in Hn.
    destruct (is_rename_char (head (s0 :: status))) eqn:Hr.
    + destruct rest1 as [|path2 rest2]; [done|]. simpl in Hn.
      destruct (eqb path [] || eqb path2 []) eqn:Ee; [done|]. bool_simpl.
      rewrite eqb_false in *. destruct (name_status_fields rest2) as [ps|] eqn:Ep; [|done].
      injection H as <-. apply (diff_cons [s0 :: status; path; path2] [path; path2]).
      * by constructor.
      * apply IH; [lia|done].
    + destruct (eqb path []) eqn:Ee; [done|]. apply eqb_false in Ee.
      destruct (name_status_fields rest1) as [ps|] eqn:Ep; [|done].
      injection H as <-. apply (diff_cons [s0 :: status; path] [path]).
      * by constructor.
      * apply IH; [lia|done].
Qed.

Lemma has_code_split (sep : Z) (text : list Z) :
  has_code sep text = false -> split_codes sep text = [text].
Proof.
  induction text as [|c text IH]; [done|]. unfold has_code. cbn [existsb]. intros H.
  apply orb_false_iff in H as [Hc H]. cbn [split_codes]. rewrite Z.eqb_sym, Hc, (IH H). done.
Qed.

(** The parser of [git diff --name-status -z] is exact: it returns paths for precisely the
    texts made of NUL-terminated fields that group into records, a status with one path
    or a rename or copy with two, nothing empty; it returns the paths of those records,
    each once; every other text is an error, so no changed path is dropped silently. *)
Theorem name_status_exact (diff_stdout : list Z) (paths : list (list Z)) :
  changed_paths_from_name_status_z diff_stdout = Ok paths <->
  exists fields found, diff_entries fields found /\ Forall (without NUL) fields /\
    diff_stdout = terminated NUL fields /\ paths = fromkeys found.
Proof.
  unfold changed_paths_from_name_status_z. split.
  - destruct diff_stdout as [|c text] eqn:Et.
    { intros [= <-]. exists [], []. by repeat constructor. }
    rewrite <- Et. destruct (has_code NUL diff_stdout); [|done]. cbn [negb]. cbv zeta.
    destruct (last (split_codes NUL diff_stdout)) as [[|]|] eqn:El; try done.
    apply last_Some in El as (fields & El). rewrite El, removelast_last.
    destruct (name_status_fields fields) as [found|] eqn:Ef; [|done]. intros [= <-].
    destruct (split_codes_join NUL diff_stdout fields El) as [Ej Hn].
    exists fields, found. split_and!; [|done..]. by apply (fields_sound (length fields)).
  - intros (fields & found & Hd & Hn & -> & ->). pose proof (fields_complete _ _ Hd) as Hf.
    pose proof (split_codes_terminated NUL fields Hn) as Es.
    destruct (terminated NUL fields) as [|c text] eqn:Et.
    { destruct fields as [|[|] ?]; try done. by injection Hf as <-. }
    destruct (has_code NUL (c :: text)) eqn:Eh.
    + cbn [negb]. cbv zeta. rewrite Es, last_snoc, removelast_last, Hf. done.
    + apply has_code_split in Eh. rewrite Es in Eh. destruct fields as [|w fields]; [done|].
      exfalso. apply (f_equal length) in Eh. rewrite length_app in Eh. simpl in Eh. lia.
Qed.

(** ** A status with every kind of field *)

Definition sample_entry (status : string) (path : list Z) (original : option (list Z))
  : StatusEntry :=
  {| se_status := codes status; se_path := path; se_original := original |}.

(** [caf\303\251], a byte that is no UTF-8, and a name with an arrow in it. *)
Definition sample_entries : list StatusEntry :=
  [sample_entry " M" (codes "src/a.py") None; sample_entry "??" (decode (codes "caf" ++ [195; 169])) None;
   sample_entry "R " (codes "new.py") (Some (codes "a -> b"))].

Definition sample_lines : list (list Z) :=
  [codes " M src/a.py"; codes "?? " ++ QUOTE :: codes "caf\303\251" ++ [QUOTE];
   codes "R  " ++ QUOTE :: codes "a -> b" ++ [QUOTE] ++ codes " -> new.py"].

Lemma c_quoted_ascii (text : list Z) :
  forallb (fun c => (32 <=? c) && (c <? 127) && negb (c =? QUOTE) && negb (c =? BACKSLASH)) text = true ->
  c_quoted text text.
Proof.
  induction text as [|c text IH]; cbn [forallb]; [constructor|]. intros H. bool_simpl.
  apply (cq_char c [c] text text).
  - unfold is_code_point. lia.
  - by apply Z.eqb_neq.
  - by apply Z.eqb_neq.
  - unfold encode_char. by rewrite (proj2 (Z.ltb_lt c 128)) by lia.
  - by apply IH.
Qed.

Lemma plain_text (text : list Z) :
  forallb (fun c => negb (line_break c) && negb (c =? QUOTE) && negb (c =? SPACE)) text = true ->
  text <> [] -> shown text text.
Proof.
  intros H Hne. apply shown_plain; [done|]. apply Forall_forall. intros c Hc.
  pose proof (proj1 (forallb_elem _ _) H c Hc) as E. cbv beta in E. bool_simpl.
  by split_and!; [|apply Z.eqb_neq..].
Qed.

Lemma plain_entry_check (e : StatusEntry) :
  (length (se_status e) =? 2)%nat && forallb (fun c => negb (line_break c) && negb (c =? NUL)) (se_status e)
  && negb (eqb (se_status e) (codes "!!")) && negb (has_code NUL (se_path e)) && negb (eqb (se_path e) [])
  && eqb (bool_decide (is_Some (se_original e))) (is_rename_status (se_status e))
  && match se_original e with Some o => negb (has_code NUL o) && negb (eqb o []) | None => true end = true ->
  plain_entry e.
Proof.
  assert (Hnul : forall l, has_code NUL l = false -> without NUL l).
  { intros l H. apply Forall_forall. intros c Hc ->. unfold has_code in H.
    pose proof (proj1 (existsb_none _ _) H NUL Hc). done. }
  intros H. bool_simpl. rewrite eqb_false, eqb_true in *. split.
  - by apply Nat.eqb_eq.
  - apply Forall_forall. intros c Hc.
    match goal with H : forallb _ _ = true |- _ =>
      pose proof (proj1 (forallb_elem _ _) H c Hc) as E end. cbv beta in E. bool_simpl.
    split; [done|by apply Z.eqb_neq].
  - done.
  - by split; [apply Hnul|].
  - rewrite <- H1. by rewrite bool_decide_eq_true.
  - intros o Ho. rewrite Ho in *. bool_simpl. rewrite eqb_false in *. by split; [apply Hnul|].
Qed.

Lemma status_formats_agree_witness :
  changed_paths_from_porcelain (terminated LF sample_lines) =
  Some [codes "src/a.py"; codes "caf" ++ [233]; codes "a -> b"; codes "new.py"].
Proof.
  destruct (status_formats_agree sample_entries sample_lines) as (H & _ & _).
  - do 3 (constructor; [apply plain_entry_check; vm_compute; reflexivity|]). constructor.
  - constructor; [|constructor; [|constructor; [|constructor]]].
    + apply (line_of_path (sample_entry " M" (codes "src/a.py") None) (codes "src/a.py"));
        [reflexivity|]. apply plain_text; [vm_compute; reflexivity|discriminate].
    + apply (line_of_path (sample_entry "??" (decode (codes "caf" ++ [195; 169])) None)
        (QUOTE :: codes "caf\303\251" ++ [QUOTE])); [reflexivity|].
      apply (shown_quoted (codes "caf\303\251") (codes "caf" ++ [195; 169])); [|discriminate|].
      * apply (cq_char 99 [99]); [by vm_compute|discriminate|discriminate|reflexivity|].
        apply (cq_char 97 [97]); [by vm_compute|discriminate|discriminate|reflexivity|].
        apply (cq_char 102 [102]); [by vm_compute|discriminate|discriminate|reflexivity|].
        apply (cq_octal 51 48 51); try reflexivity.
        apply (cq_octal 50 53 49); try reflexivity; [by vm_compute|]. constructor.
      * repeat constructor.
    + apply (line_of_rename (sample_entry "R " (codes "new.py") (Some (codes "a -> b"))) (codes "a -> b")
        (QUOTE :: codes "a -> b" ++ [QUOTE]) (codes "new.py")); [reflexivity| |].
      * apply (shown_quoted (codes "a -> b") (codes "a -> b")); [|discriminate|repeat constructor].
        apply c_quoted_ascii. vm_compute. reflexivity.
      * apply plain_text; [vm_compute; reflexivity|discriminate].
  - etransitivity; [exact H|]. vm_compute. reflexivity.
Defined.
