(* ===== verification/Status.v ===== *)
(** * Lifecycle vocabulary and the workspace state machine

    [db/enums.py]: the status and failure enumerations, with the string each
    value is persisted as, and the teardown and merge-queue status sets.
    [control/state_machine.py]: the transition map, its guards and the sets of
    terminal statuses; reachability over the map as an inductive relation. *)

From S2P Require Import Prelude PyStr.
#[local] Open Scope Z_scope.

(** ** [WorkspaceStatus] *)

Inductive WorkspaceStatus : Type :=
| requested | provisioning | ready | running | validating | pushing
| monitoring_pr | blocked | recovering | completed | failed | cancelled
| destroying | destroyed.

#[export] Instance WorkspaceStatus_eq_dec : EqDecision WorkspaceStatus.
Proof. solve_decision. Defined.

Definition all_statuses : list WorkspaceStatus :=
  [requested; provisioning; ready; running; validating; pushing; monitoring_pr;
   blocked; recovering; completed; failed; cancelled; destroying; destroyed].

(** [WorkspaceStatus.value]. *)
Definition status_value (s : WorkspaceStatus) : string :=
  match s with
  | requested => "requested"
  | provisioning => "provisioning"
  | ready => "ready"
  | running => "running"
  | validating => "validating"
  | pushing => "pushing"
  | monitoring_pr => "monitoring_pr"
  | blocked => "blocked"
  | recovering => "recovering"
  | completed => "completed"
  | failed => "failed"
  | cancelled => "cancelled"
  | destroying => "destroying"
  | destroyed => "destroyed"
  end.

(** [WorkspaceStatus(value)]: an unknown value raises [ValueError]. *)
Definition parse_status (v : string) : result string WorkspaceStatus :=
  match List.find (fun s => eqb (status_value s) v) all_statuses with
  | Some s => Ok s
  | None => Err v
  end.

Definition WORKSPACE_TEARDOWN_STATUSES : list string :=
  [status_value destroying; status_value destroyed].

Definition MERGE_QUEUE_EXCLUDED_STATUSES : list string :=
  WORKSPACE_TEARDOWN_STATUSES ++
  [status_value completed; status_value failed; status_value cancelled].

(** ** Operations, failures and task kinds *)

Inductive OperationStatus : Type :=
| op_pending | op_running | op_succeeded | op_failed | op_cancelled.

#[export] Instance OperationStatus_eq_dec : EqDecision OperationStatus.
Proof. solve_decision. Defined.

Definition operation_status_value (s : OperationStatus) : string :=
  match s with
  | op_pending => "pending"
  | op_running => "running"
  | op_succeeded => "succeeded"
  | op_failed => "failed"
  | op_cancelled => "cancelled"
  end.

Inductive FailureReason : Type :=
| agent_failure | validation_failure | infrastructure_failure | policy_failure
| cleanup_failure | profile_resolution_failure | service_startup_failure
| phase_timeout | health_check_failure.

#[export] Instance FailureReason_eq_dec : EqDecision FailureReason.
Proof. solve_decision. Defined.

Inductive TaskKind : Type := feature_branch_pr | sync_release_pr | sync_feature_pr.

#[export] Instance TaskKind_eq_dec : EqDecision TaskKind.
Proof. solve_decision. Defined.

Definition task_kind_value (k : TaskKind) : string :=
  match k with
  | feature_branch_pr => "feature_branch_pr"
  | sync_release_pr => "sync_release_pr"
  | sync_feature_pr => "sync_feature_pr"
  end.

Inductive TaskClass : Type :=
| docs_task | test_task | refactor_task | migration_task | dependency_task
| build_config_task.

#[export] Instance TaskClass_eq_dec : EqDecision TaskClass.
Proof. solve_decision. Defined.

Definition task_class_value (c : TaskClass) : string :=
  match c with
  | docs_task => "docs_task"
  | test_task => "test_task"
  | refactor_task => "refactor_task"
  | migration_task => "migration_task"
  | dependency_task => "dependency_task"
  | build_config_task => "build_config_task"
  end.

Inductive AgentRuntime : Type :=
| codex | claude_code | gemini | antigravity | cursor | opencode | grok.

#[export] Instance AgentRuntime_eq_dec : EqDecision AgentRuntime.
Proof. solve_decision. Defined.

Definition agent_runtime_value (a : AgentRuntime) : string :=
  match a with
  | codex => "codex"
  | claude_code => "claude_code"
  | gemini => "gemini"
  | antigravity => "antigravity"
  | cursor => "cursor"
  | opencode => "opencode"
  | grok => "grok"
  end.

(** [parse_agent_runtime] on a raw string: the enum member, or the string. *)
Definition parse_agent_runtime (agent : string) : AgentRuntime + string :=
  match List.find (fun a => eqb (agent_runtime_value a) agent)
          [codex; claude_code; gemini; antigravity; cursor; opencode; grok] with
  | Some a => inl a
  | None => inr agent
  end.

(** ** The transition map *)

Definition RAW_TRANSITIONS (s : WorkspaceStatus) : list WorkspaceStatus :=
  match s with
  | requested => [provisioning; failed; cancelled]
  | provisioning => [ready; monitoring_pr; failed; cancelled]
  | ready => [running; monitoring_pr; failed; cancelled; destroying]
  | running =>
      [validating; monitoring_pr; blocked; recovering; failed; cancelled]
  | validating =>
      [running; pushing; monitoring_pr; blocked; completed; failed; cancelled]
  | pushing => [running; monitoring_pr; blocked; completed; failed; cancelled]
  | blocked => [running; validating; pushing; monitoring_pr; failed; cancelled]
  | recovering => [running; failed; cancelled]
  | monitoring_pr => [ready; blocked; completed; failed; cancelled]
  | completed => [destroying]
  | failed => [destroying]
  | cancelled => [destroying]
  | destroying => [destroyed; failed]
  | destroyed => []
  end.

Definition TERMINAL : list WorkspaceStatus := [destroyed].

Definition CALLBACK_TERMINAL : list WorkspaceStatus :=
  [cancelled; destroyed; destroying; failed; completed].

(** [InvalidWorkspaceTransitionError]: both endpoints and the message. *)
Record InvalidTransition : Type := {
  from_state : WorkspaceStatus;
  to_state : WorkspaceStatus
}.

Definition repr_list (l : list string) : string :=
  "[" +:+ join ", " (map (fun s => "'" +:+ s +:+ "'") l) +:+ "]".

Definition invalid_transition_message (e : InvalidTransition) : string :=
  "Invalid workspace transition: " +:+ status_value (from_state e) +:+ " -> "
  +:+ status_value (to_state e) +:+ ". Allowed next states from "
  +:+ status_value (from_state e) +:+ ": "
  +:+ repr_list (sorted_by str_leb (map status_value (RAW_TRANSITIONS (from_state e)))).

Definition can_transition (src dst : WorkspaceStatus) : bool :=
  mem dst (RAW_TRANSITIONS src).

Definition assert_transition (src dst : WorkspaceStatus) : result InvalidTransition unit :=
  if can_transition src dst then Ok tt
  else Err {| from_state := src; to_state := dst |}.

Definition is_terminal (s : WorkspaceStatus) : bool := mem s TERMINAL.
Definition is_callback_terminal (s : WorkspaceStatus) : bool := mem s CALLBACK_TERMINAL.
Definition allowed_next (s : WorkspaceStatus) : gset string :=
  list_to_set (map status_value (RAW_TRANSITIONS s)).

(** ** Paths through the map *)

Inductive reaches : WorkspaceStatus -> WorkspaceStatus -> Prop :=
| reaches_refl s : reaches s s
| reaches_step a b c : can_transition a b = true -> reaches b c -> reaches a c.

#[export] Hint Constructors reaches : awf.

Lemma elem_all_statuses (s : WorkspaceStatus) : s ∈ all_statuses.
Proof. apply mem_true. by destruct s. Qed.

(** A boolean property of every status is checked by running over the list. *)
Lemma forall_status (f : WorkspaceStatus -> bool) :
  forallb f all_statuses = true -> forall s, f s = true.
Proof.
  intros H s. rewrite forallb_forall in H. apply H, list_elem_of_In, elem_all_statuses.
Qed.

(** The same over pairs: used for every statement about single edges. *)
Lemma forall_edge (f : WorkspaceStatus -> WorkspaceStatus -> bool) :
  forallb (fun a => forallb (f a) all_statuses) all_statuses = true ->
  forall a b, f a b = true.
Proof. intros H a b. by apply (forall_status (f a)), (forall_status _ H). Qed.

(** [by_edge f a b H]: [f a b] by running [f] over every pair. *)
Ltac by_edge f a b H :=
  pose proof (forall_edge f ltac:(vm_compute; reflexivity) a b) as H; cbv beta in H.

Lemma status_value_inj (a b : WorkspaceStatus) :
  status_value a = status_value b -> a = b.
Proof.
  intros Hv.
  by_edge (fun a b => implb (eqb (status_value a) (status_value b)) (eqb a b)) a b H.
  rewrite Hv, eqb_refl in H. by apply (eqb_true a b).
Qed.

Lemma parse_status_value (s : WorkspaceStatus) : parse_status (status_value s) = Ok s.
Proof. by destruct s. Qed.

Lemma parse_status_ok (v : string) (s : WorkspaceStatus) :
  parse_status v = Ok s <-> v = status_value s.
Proof.
  split; [|intros ->; apply parse_status_value].
  unfold parse_status. destruct (List.find _ _) as [s'|] eqn:E; [|discriminate].
  intros [= ->]. apply find_some in E as [_ E]. rewrite eqb_true in E. done.
Qed.

Lemma reaches_trans (a b c : WorkspaceStatus) : reaches a b -> reaches b c -> reaches a c.
Proof. induction 1; eauto with awf. Qed.

Lemma reaches_edge (a b : WorkspaceStatus) : can_transition a b = true -> reaches a b.
Proof. eauto with awf. Qed.

(** A set of statuses closed under edges is closed under paths. *)
Lemma closed_reaches (P : WorkspaceStatus -> bool) (a b : WorkspaceStatus) :
  (forall x y, P x = true -> can_transition x y = true -> P y = true) ->
  reaches a b -> P a = true -> P b = true.
Proof. intros HP. induction 1; eauto. Qed.

(** Every edge into [destroyed] leaves [destroying]. *)
Lemma destroyed_pred (s : WorkspaceStatus) :
  can_transition s destroyed = true -> s = destroying.
Proof. by destruct s; vm_compute. Qed.

Lemma callback_terminal_closed (a b : WorkspaceStatus) :
  is_callback_terminal a = true -> can_transition a b = true ->
  is_callback_terminal b = true.
Proof.
  intros Ha Hab.
  by_edge (fun a b => implb (is_callback_terminal a && can_transition a b)
                            (is_callback_terminal b)) a b H.
  by rewrite Ha, Hab in H.
Qed.

(** The path every status has to [destroyed]: fail or cancel, tear down, finish. *)
Lemma reaches_destroyed (s : WorkspaceStatus) : reaches s destroyed.
Proof.
  assert (Hd : reaches destroying destroyed) by by apply reaches_edge.
  assert (Hc : reaches failed destroyed)
    by (apply (reaches_trans _ destroying); [by apply reaches_edge | done]).
  destruct s; try done;
    first [ apply (reaches_trans _ failed); [by apply reaches_edge | done]
          | apply (reaches_trans _ destroying); [by apply reaches_edge | done]
          | constructor ].
Qed.

Lemma reaches_from_destroyed (s : WorkspaceStatus) : reaches destroyed s -> s = destroyed.
Proof. inversion 1 as [|? c ? Hc]; [done|]. destruct c; by vm_compute in Hc. Qed.

(** ** Properties *)

(** The transition map is a lifecycle: exactly the terminal statuses have no
    successor, every status has a path to destroyed and none leads back out of
    it, destroyed is entered only through destroying, a callback-terminal status
    leads only to callback-terminal ones, and asserting a transition succeeds
    exactly on the edges, which are also the reported allowed next states. *)
Theorem state_machine_shape (a b : WorkspaceStatus) :
  (is_terminal a = true <-> forall c, can_transition a c = false) /\
  reaches a destroyed /\
  (reaches destroyed b <-> b = destroyed) /\
  (can_transition a destroyed = true <-> a = destroying) /\
  (is_callback_terminal a = true -> reaches a b -> is_callback_terminal b = true) /\
  (assert_transition a b = if can_transition a b then Ok tt
                           else Err {| from_state := a; to_state := b |}) /\
  (can_transition a b = true <-> status_value b ∈ allowed_next a).
Proof.
  split_and!.
  - split.
    + intros Ha c. by_edge (fun a c => implb (is_terminal a) (negb (can_transition a c))) a c H.
      rewrite Ha in H. by apply negb_true_iff in H.
    + intros Hn. specialize (Hn failed) as Hf. specialize (Hn destroying) as Hd.
      specialize (Hn destroyed) as He. by destruct a; vm_compute in Hf, Hd, He |- *.
  - apply reaches_destroyed.
  - split; [apply reaches_from_destroyed|intros ->; constructor].
  - split; [apply destroyed_pred|by intros ->].
  - intros Ha Hr. eapply closed_reaches; eauto using callback_terminal_closed.
  - done.
  - unfold allowed_next, can_transition.
    rewrite mem_true, elem_of_list_to_set, list_elem_of_fmap. split; [eauto|].
    intros (c & Hc & Hin). by apply status_value_inj in Hc as ->.
Qed.
