(* ===== verification/Scheduler.v ===== *)
(** * Scheduler scores

    [service/scheduler.py]: the score of a queued workspace and the order it
    gives.  A policy value is read leniently (an integer, an integral float or
    integer text), bounded, and summed with the class bias, the age boost and the
    retry bonus; the class priority comes first in the order.

    [datetime.fromisoformat], which only feeds the explanation of a suppressed
    candidate, is a variable of the sections that use it. *)

From S2P Require Import Prelude PyStr PyTime PyFloat PyVal Regex Status.
#[local] Open Scope Z_scope.
#[local] Set Warnings "-register-all".

Definition SCHEDULER_POLICY_KEY : string := "scheduler".
Definition AGE_BOOST_INTERVAL_SECONDS : Z := 15 * 60.
Definition AGE_BOOST_MAX : Z := 12.
Definition RETRY_BONUS_INFRASTRUCTURE_FAILURE : Z := 3.
Definition HUMAN_BOOST_MAX : Z := 5.

(** [^-?[0-9]+(\.0+)?$] *)
Definition POLICY_INT_TEXT_RE : re :=
  RSeq (ropt (RChar (eqb "-"%char)))
    (RSeq (rplus (RChar is_digit)) (ropt (RSeq (RChar (eqb "."%char)) (rplus (RChar (eqb "0"%char)))))).

Definition TASK_CLASS_PRIORITIES : list (string * Z) :=
  [("migration_task", 5); ("dependency_task", 4); ("build_config_task", 3); ("refactor_task", 2);
   ("test_task", 1); ("docs_task", 0)].
Definition TASK_CLASS_BIASES : list (string * Z) :=
  [("migration_task", 15); ("dependency_task", 12); ("build_config_task", 10);
   ("refactor_task", 4); ("test_task", 2); ("docs_task", 0)].

Record SchedulerScoreInput : Type := {
  si_workspace_id : string;
  si_task_class : option string;
  si_base_priority : Z;
  si_queued_at : datetime;
  si_human_boost : Z;
  si_parent_failure_reason : option string;
  si_retry_attempt_number : option Z;
  si_provider_not_before : option datetime
}.

Record SchedulerScore : Type := {
  ss_workspace_id : string;
  ss_task_class : option string;
  ss_class_priority : Z;
  ss_base_priority : Z;
  ss_class_bias : Z;
  ss_age_boost : Z;
  ss_retry_bonus : Z;
  ss_human_boost : Z;
  ss_effective_score : Z;
  ss_queued_at : datetime;
  ss_score_summary : dict
}.

Record SchedulerOrderCursor : Type := {
  sc_class_priority : Z;
  sc_effective_score : Z;
  sc_queued_at : datetime;
  sc_workspace_id : string;
  sc_scoring_at : datetime
}.

(** [mapping.get(task_class or "", 0)] *)
Definition class_value (table : list (string * Z)) (task_class : option string) : Z :=
  match List.find (fun p => eqb p.1 (default "" task_class)) table with
  | Some p => p.2
  | None => 0
  end.

Definition task_class_priority (task_class : option string) : Z :=
  class_value TASK_CLASS_PRIORITIES task_class.
Definition task_class_bias (task_class : option string) : Z :=
  class_value TASK_CLASS_BIASES task_class.

Definition bounded_int (value lower upper : Z) : Z := Z.min (Z.max value lower) upper.

Definition as_utc (value : datetime) : datetime :=
  match dt_offset value with
  | None => replace_tzinfo_utc value
  | Some off => astimezone_utc (dt_us value) off
  end.

(** ** Policy values *)

(** [int(text)] refuses more digits than the interpreter's default limit. *)
Definition INT_MAX_STR_DIGITS : nat := 4300.

Definition int_of_digits (s : string) : option Z :=
  if (INT_MAX_STR_DIGITS <? str_len (remove_prefix "-" s))%nat then None else py_int s.

Definition before_dot (s : string) : string :=
  match split_on "."%char s with w :: _ => w | [] => s end.

Definition policy_int (mapping : dict) (key : string) (fallback : Z) : Z :=
  match get mapping key with
  | VInt n => n
  | VFloat x => default fallback (float_int x)
  | VStr value =>
      let stripped := strip value in
      if fullmatch POLICY_INT_TEXT_RE stripped
      then default fallback (int_of_digits (before_dot stripped)) else fallback
  | _ => fallback
  end.

Definition optional_policy_int (mapping : dict) (key : string) (fallback : option Z) : option Z :=
  if negb (has_key mapping key) then fallback
  else Some (policy_int mapping key (default 0 fallback)).

Definition policy_str (mapping : dict) (key : string) (fallback : option string) : option string :=
  match get mapping key with
  | VStr value => if eqb (strip value) "" then fallback else Some (strip value)
  | _ => fallback
  end.

Definition scheduler_policy_snapshot (base_priority human_boost : Z) : dict :=
  [("base_priority", VInt (bounded_int base_priority 0 100));
   ("human_boost", VInt (bounded_int human_boost 0 HUMAN_BOOST_MAX))].

Definition scheduler_retry_policy_context (policy : option dict) (source_workspace_id : string)
    (parent_failure_reason : option string) : dict :=
  let updated := default [] policy in
  let scheduler_policy :=
    set_key (as_mapping (get updated SCHEDULER_POLICY_KEY)) "source_workspace_id"
      (VStr source_workspace_id) in
  let scheduler_policy :=
    match parent_failure_reason with
    | Some reason => set_key scheduler_policy "parent_failure_reason" (VStr reason)
    | None => scheduler_policy
    end in
  set_key updated SCHEDULER_POLICY_KEY (VDict scheduler_policy).

(** ** The score *)

(** [floor(wait_seconds / 900)] is a division of floats, but its quotient is only
    used up to 12, and rounding never moves a quotient of integers across an
    integer that small; the same holds for [int(total_seconds())]. *)
Definition age_boost (queued_at now : datetime) : Z :=
  let wait_seconds := Z.max 0 (Z.quot (instant now - instant queued_at) us_per_second) in
  Z.min (wait_seconds / AGE_BOOST_INTERVAL_SECONDS) AGE_BOOST_MAX.

Definition retry_bonus (parent_failure_reason : option string) : Z :=
  if eqb parent_failure_reason (Some "infrastructure_failure")
  then RETRY_BONUS_INFRASTRUCTURE_FAILURE else 0.

Definition retry_context (i : SchedulerScoreInput) : dict :=
  match si_parent_failure_reason i with
  | Some reason => [("parent_failure_reason", VStr reason)] | None => [] end
  ++ match si_retry_attempt_number i with
     | Some n => [("retry_attempt_number", VInt n)] | None => [] end.

Definition suppression_entry (computed_at : datetime) (provider_not_before : option datetime)
  : dict :=
  match provider_not_before with
  | Some not_before =>
      if instant computed_at <? instant (as_utc not_before)
      then [("suppressed", VBool true); ("reason_code", VStr "PROVIDER_RECOVERY_NOT_BEFORE");
            ("not_before", VStr (isoformat (as_utc not_before)))]
      else [("suppressed", VBool false)]
  | None => [("suppressed", VBool false)]
  end.

Definition compute_scheduler_score (i : SchedulerScoreInput) (now : datetime) : SchedulerScore :=
  let queued_at := as_utc (si_queued_at i) in
  let computed_at := as_utc now in
  let class_priority := task_class_priority (si_task_class i) in
  let class_bias := task_class_bias (si_task_class i) in
  let base_priority := bounded_int (si_base_priority i) 0 100 in
  let age := age_boost queued_at computed_at in
  let bonus := retry_bonus (si_parent_failure_reason i) in
  let human_boost := bounded_int (si_human_boost i) 0 HUMAN_BOOST_MAX in
  let effective_score := base_priority + class_bias + age + bonus + human_boost in
  let ordering_tuple :=
    [("class_priority", VInt class_priority); ("effective_score", VInt effective_score);
     ("queued_at", VStr (isoformat queued_at)); ("workspace_id", VStr (si_workspace_id i))] in
  let summary :=
    [("workspace_id", VStr (si_workspace_id i)); ("task_class", opt_str (si_task_class i));
     ("base_priority", VInt base_priority); ("class_priority", VInt class_priority);
     ("class_bias", VInt class_bias); ("age_boost", VInt age); ("retry_bonus", VInt bonus);
     ("human_boost", VInt human_boost); ("effective_score", VInt effective_score);
     ("queued_at", VStr (isoformat queued_at)); ("computed_at", VStr (isoformat computed_at));
     ("ordering_tuple", VDict ordering_tuple);
     ("suppression", VDict (suppression_entry computed_at (si_provider_not_before i)))] in
  {| ss_workspace_id := si_workspace_id i; ss_task_class := si_task_class i;
     ss_class_priority := class_priority; ss_base_priority := base_priority;
     ss_class_bias := class_bias; ss_age_boost := age; ss_retry_bonus := bonus;
     ss_human_boost := human_boost; ss_effective_score := effective_score;
     ss_queued_at := queued_at;
     ss_score_summary :=
       match retry_context i with
       | [] => summary
       | context => summary ++ [("retry", VDict context)]
       end |}.

(** Tuples compare position by position. *)
Definition OrderKey : Type := Z * Z * Z * string.

Definition order_key_leb (x y : OrderKey) : bool :=
  let '(a, b, c, s) := x in
  let '(a', b', c', s') := y in
  (a <? a')
  || ((a =? a') && ((b <? b') || ((b =? b') && ((c <? c') || ((c =? c') && str_leb s s'))))).

Definition scheduler_order_key (score : SchedulerScore) : OrderKey :=
  (- ss_class_priority score, - ss_effective_score score, instant (ss_queued_at score),
   ss_workspace_id score).

(** ** Scores of workspaces *)

(** The columns of a workspace row the score reads. *)
Record ScoredWorkspace : Type := {
  sw_id : string;
  sw_agent : string;
  sw_task_class : option string;
  sw_task_policy : pyval;
  sw_created_at : Z
}.

(** A timestamp column: an aware datetime in UTC. *)
Definition utc (us : Z) : datetime := {| dt_us := us; dt_offset := Some 0 |}.

Section Workspaces.
Context (fromisoformat : string -> option datetime).

Definition parse_datetime (value : option string) : option datetime :=
  match value with
  | Some text => option_map as_utc (fromisoformat text)
  | None => None
  end.

Definition scheduler_score_input_from_workspace (w : ScoredWorkspace) : SchedulerScoreInput :=
  let task_policy := as_mapping (sw_task_policy w) in
  let scheduler_policy := as_mapping (get task_policy SCHEDULER_POLICY_KEY) in
  let recovery_state := as_mapping (get task_policy "provider_recovery_state") in
  {| si_workspace_id := sw_id w; si_task_class := sw_task_class w;
     si_base_priority :=
       policy_int scheduler_policy "base_priority" (policy_int task_policy "priority" 0);
     si_queued_at := utc (sw_created_at w);
     si_human_boost :=
       policy_int scheduler_policy "human_boost"
         (policy_int scheduler_policy "human_escalation_boost"
            (policy_int task_policy "human_boost" 0));
     si_parent_failure_reason :=
       policy_str scheduler_policy "parent_failure_reason"
         (policy_str recovery_state "parent_failure_reason" None);
     si_retry_attempt_number :=
       optional_policy_int scheduler_policy "retry_attempt_number"
         (optional_policy_int recovery_state "retry_attempt_number" None);
     si_provider_not_before := parse_datetime (policy_str recovery_state "not_before" None) |}.

Definition scheduler_score_from_workspace (w : ScoredWorkspace) (now : datetime)
  : SchedulerScore := compute_scheduler_score (scheduler_score_input_from_workspace w) now.
End Workspaces.

(** [suppression.update(detail)] *)
Definition update_dict (d detail : dict) : dict :=
  fold_left (fun acc p => set_key acc p.1 p.2) detail d.

Definition score_summary_with_suppression (score : SchedulerScore) (reason_code : string)
    (detail : dict) : dict :=
  set_key (ss_score_summary score) "suppression"
    (VDict (update_dict [("suppressed", VBool true); ("reason_code", VStr reason_code)] detail)).

(** ** Lemmas *)

Lemma order_key_leb_total (x y : OrderKey) : order_key_leb x y = true \/ order_key_leb y x = true.
Proof.
  destruct x as [[[a b] c] s], y as [[[a' b'] c'] s']. simpl.
  destruct (str_leb_total s s') as [Hs|Hs]; rewrite Hs, ?andb_true_r;
    destruct (Z.lt_total a a') as [H|[H|H]], (Z.lt_total b b') as [H'|[H'|H']],
      (Z.lt_total c c') as [H''|[H''|H'']]; lia.
Qed.

Lemma order_key_leb_trans (x y z : OrderKey) :
  order_key_leb x y = true -> order_key_leb y z = true -> order_key_leb x z = true.
Proof.
  destruct x as [[[a b] c] s], y as [[[a' b'] c'] s'], z as [[[a'' b''] c''] s'']. simpl.
  pose proof (str_leb_trans s s' s'') as Hs.
  destruct (str_leb s s') eqn:E1, (str_leb s' s'') eqn:E2; try rewrite (Hs eq_refl eq_refl);
    destruct (str_leb s s''); lia.
Qed.

Lemma order_key_leb_antisym (x y : OrderKey) :
  order_key_leb x y = true -> order_key_leb y x = true -> x = y.
Proof.
  destruct x as [[[a b] c] s], y as [[[a' b'] c'] s']. simpl.
  pose proof (str_leb_antisym s s') as Hs.
  destruct (str_leb s s') eqn:E1, (str_leb s' s) eqn:E2;
    [rewrite (Hs eq_refl eq_refl); intros; repeat f_equal; lia|lia..].
Qed.

#[export] Hint Resolve order_key_leb_total order_key_leb_trans order_key_leb_antisym : awf.

(** A key is in an order of its own: strictly before means before and different. *)
Definition order_key_ltb (x y : OrderKey) : bool := negb (order_key_leb y x).

Lemma order_key_ltb_spec (x y : OrderKey) :
  order_key_ltb x y = true <-> order_key_leb x y = true /\ x <> y.
Proof.
  unfold order_key_ltb. rewrite negb_true_iff. split.
  - intros H. destruct (order_key_leb_total x y) as [Hx|Hx]; [|congruence].
    split; [done|]. intros ->. congruence.
  - intros [H Hne]. destruct (order_key_leb y x) eqn:E; [|done].
    destruct Hne. by apply order_key_leb_antisym.
Qed.
