(* ===== verification/Capacity.v ===== *)
(** * Local capacity

    [service/resource_capacity.py] and the pure part of
    [control/worker/resource_broker.py]: what a workspace demands, which limit it
    would exceed, the totals of what is allocated, and the summaries stored with a
    queue decision.  CPU and memory are binary64 floats added in the order the code
    adds them; slots and megabytes are integers. *)

From S2P Require Import Prelude PyStr PyTime PyFloat Json PyVal Status.
#[local] Open Scope Z_scope.
#[local] Set Warnings "-register-all".

(** ** [Number]: an int or a float *)

Inductive number : Type :=
| NInt (n : Z)
| NFloat (x : float).

#[export] Instance number_eq_dec : EqDecision number.
Proof.
  assert (EqDecision spec_float) by (intros ? ?; unfold Decision; decide equality;
    (apply Bool.bool_dec || apply Pos.eq_dec || apply Z.eq_dec)).
  solve_decision.
Defined.

(** An int meets a float as the nearest float. *)
Definition number_float (x : number) : float :=
  match x with NInt n => float_of_Z n | NFloat f => f end.

Definition number_add (x y : number) : number :=
  match x, y with
  | NInt a, NInt b => NInt (a + b)
  | _, _ => NFloat (fadd (number_float x) (number_float y))
  end.

Definition number_sub (x y : number) : number :=
  match x, y with
  | NInt a, NInt b => NInt (a - b)
  | _, _ => NFloat (fsub (number_float x) (number_float y))
  end.

(** [n < x] and [x < n] compare the exact values. *)
Definition int_ltb_float (n : Z) (x : float) : bool :=
  match x with
  | S754_nan => false
  | S754_infinity neg => negb neg
  | S754_zero _ => n <? 0
  | S754_finite neg m e =>
      let v := if neg then Z.neg m else Z.pos m in
      if 0 <=? e then n <? v * 2 ^ e else n * 2 ^ (- e) <? v
  end.

Definition float_ltb_int (x : float) (n : Z) : bool :=
  match x with
  | S754_nan => false
  | S754_infinity neg => neg
  | S754_zero _ => 0 <? n
  | S754_finite neg m e =>
      let v := if neg then Z.neg m else Z.pos m in
      if 0 <=? e then v * 2 ^ e <? n else v <? n * 2 ^ (- e)
  end.

Definition number_ltb (x y : number) : bool :=
  match x, y with
  | NInt a, NInt b => a <? b
  | NFloat a, NFloat b => fltb a b
  | NInt a, NFloat b => int_ltb_float a b
  | NFloat a, NInt b => float_ltb_int a b
  end.

Definition number_val (x : number) : pyval :=
  match x with NInt n => VInt n | NFloat f => VFloat f end.

(** ** Constraints *)

Inductive LimitSource : Type := limit_cpu | limit_memory | limit_dind_slots.

Inductive Dimension : Type :=
| steady_cpu | peak_cpu | steady_memory_gb | peak_memory_gb | dind_slots.

#[export] Instance dimension_eq_dec : EqDecision Dimension.
Proof. solve_decision. Defined.

Definition dimension_name (d : Dimension) : string :=
  match d with
  | steady_cpu => "steady_cpu"
  | peak_cpu => "peak_cpu"
  | steady_memory_gb => "steady_memory_gb"
  | peak_memory_gb => "peak_memory_gb"
  | dind_slots => "dind_slots"
  end.

Record LocalCapacityConstraint : Type := {
  lc_dimension : Dimension;
  lc_reason_code : string;
  lc_limit_source : LimitSource
}.

Record LocalCapacityBlocker : Type := {
  lb_dimension : Dimension;
  lb_reason_code : string;
  lb_limit : number;
  lb_allocated : number;
  lb_requested : number;
  lb_after : number;
  lb_unsatisfiable : bool
}.

Definition LOCAL_CAPACITY_CONSTRAINTS : list LocalCapacityConstraint :=
  [{| lc_dimension := steady_cpu; lc_reason_code := "STEADY_CPU_CAPACITY_SATURATED";
      lc_limit_source := limit_cpu |};
   {| lc_dimension := peak_cpu; lc_reason_code := "PEAK_CPU_CAPACITY_SATURATED";
      lc_limit_source := limit_cpu |};
   {| lc_dimension := steady_memory_gb; lc_reason_code := "STEADY_MEMORY_CAPACITY_SATURATED";
      lc_limit_source := limit_memory |};
   {| lc_dimension := peak_memory_gb; lc_reason_code := "PEAK_MEMORY_CAPACITY_SATURATED";
      lc_limit_source := limit_memory |};
   {| lc_dimension := dind_slots; lc_reason_code := "DIND_CAPACITY_SATURATED";
      lc_limit_source := limit_dind_slots |}].

(** [profile.get("docker").get("mode") == "dind"] *)
Definition default_dind_slots_from_profile (profile : pyval) : Z :=
  match profile with
  | VDict p =>
      match get p "docker" with
      | VDict docker =>
          match get docker "mode" with VStr mode => if eqb mode "dind" then 1 else 0 | _ => 0 end
      | _ => 0
      end
  | _ => 0
  end.

Definition local_capacity_limit (c : LocalCapacityConstraint)
    (cpu_limit memory_limit dind_slots : option number) : option number :=
  match lc_limit_source c with
  | limit_cpu => cpu_limit
  | limit_memory => memory_limit
  | limit_dind_slots => dind_slots
  end.

Definition local_capacity_blocker (c : LocalCapacityConstraint) (limit : option number)
    (allocated requested : number) : option LocalCapacityBlocker :=
  match limit with
  | None => None
  | Some limit =>
      let after := number_add allocated requested in
      let blocker unsatisfiable :=
        {| lb_dimension := lc_dimension c; lb_reason_code := lc_reason_code c; lb_limit := limit;
           lb_allocated := allocated; lb_requested := requested; lb_after := after;
           lb_unsatisfiable := unsatisfiable |} in
      if number_ltb limit requested then Some (blocker true)
      else if number_ltb limit after then Some (blocker false)
      else None
  end.

(** ** Demand and totals *)

(** The capacity settings of a worker. *)
Record CapacityConfig : Type := {
  cc_local_capacity_cpu_cores : option float;
  cc_local_capacity_memory_gb : option float;
  cc_local_capacity_dind_slots : option Z;
  cc_workspace_steady_cpu : float;
  cc_workspace_steady_memory_gb : float;
  cc_workspace_peak_cpu : float;
  cc_workspace_peak_memory_gb : float
}.

Record ResourceReservation : Type := {
  rv_workspace_id : string;
  rv_steady_cpu : float;
  rv_steady_memory_gb : float;
  rv_peak_cpu : float;
  rv_peak_memory_gb : float;
  rv_disk_mb : option Z;
  rv_dind_slots : Z
}.

Record ReservationDemand : Type := {
  rd_workspace_id : string;
  rd_steady_cpu : float;
  rd_steady_memory_gb : float;
  rd_peak_cpu : float;
  rd_peak_memory_gb : float;
  rd_disk_mb : Z;
  rd_dind_slots : Z;
  rd_defaulted : bool
}.

Record AllocatedReservationTotals : Type := {
  al_workspace_count : Z;
  al_steady_cpu : float;
  al_steady_memory_gb : float;
  al_peak_cpu : float;
  al_peak_memory_gb : float;
  al_disk_mb : Z;
  al_dind_slots : Z
}.

Definition add_demand (t : AllocatedReservationTotals) (d : ReservationDemand)
  : AllocatedReservationTotals :=
  {| al_workspace_count := al_workspace_count t + 1;
     al_steady_cpu := fadd (al_steady_cpu t) (rd_steady_cpu d);
     al_steady_memory_gb := fadd (al_steady_memory_gb t) (rd_steady_memory_gb d);
     al_peak_cpu := fadd (al_peak_cpu t) (rd_peak_cpu d);
     al_peak_memory_gb := fadd (al_peak_memory_gb t) (rd_peak_memory_gb d);
     al_disk_mb := al_disk_mb t + rd_disk_mb d;
     al_dind_slots := al_dind_slots t + rd_dind_slots d |}.

Definition demand_from_reservation (r : ResourceReservation) : ReservationDemand :=
  {| rd_workspace_id := rv_workspace_id r; rd_steady_cpu := rv_steady_cpu r;
     rd_steady_memory_gb := rv_steady_memory_gb r; rd_peak_cpu := rv_peak_cpu r;
     rd_peak_memory_gb := rv_peak_memory_gb r; rd_disk_mb := default 0 (rv_disk_mb r);
     rd_dind_slots := rv_dind_slots r; rd_defaulted := false |}.

Definition default_demand (workspace_id : string) (resolved_profile : pyval)
    (config : CapacityConfig) : ReservationDemand :=
  {| rd_workspace_id := workspace_id; rd_steady_cpu := cc_workspace_steady_cpu config;
     rd_steady_memory_gb := cc_workspace_steady_memory_gb config;
     rd_peak_cpu := cc_workspace_peak_cpu config;
     rd_peak_memory_gb := cc_workspace_peak_memory_gb config; rd_disk_mb := 0;
     rd_dind_slots := default_dind_slots_from_profile resolved_profile; rd_defaulted := true |}.

Definition reservation_demand_for_workspace (workspace_id : string) (resolved_profile : pyval)
    (reservation : option ResourceReservation) (config : CapacityConfig) : ReservationDemand :=
  match reservation with
  | Some r => demand_from_reservation r
  | None => default_demand workspace_id resolved_profile config
  end.

(** [getattr(allocated, dimension)] *)
Definition allocated_in (t : AllocatedReservationTotals) (d : Dimension) : number :=
  match d with
  | steady_cpu => NFloat (al_steady_cpu t)
  | peak_cpu => NFloat (al_peak_cpu t)
  | steady_memory_gb => NFloat (al_steady_memory_gb t)
  | peak_memory_gb => NFloat (al_peak_memory_gb t)
  | dind_slots => NInt (al_dind_slots t)
  end.

(** [getattr(demand, dimension)] *)
Definition demanded_in (r : ReservationDemand) (d : Dimension) : number :=
  match d with
  | steady_cpu => NFloat (rd_steady_cpu r)
  | peak_cpu => NFloat (rd_peak_cpu r)
  | steady_memory_gb => NFloat (rd_steady_memory_gb r)
  | peak_memory_gb => NFloat (rd_peak_memory_gb r)
  | dind_slots => NInt (rd_dind_slots r)
  end.

Definition config_limit (config : CapacityConfig) (c : LocalCapacityConstraint) : option number :=
  local_capacity_limit c (NFloat <$> cc_local_capacity_cpu_cores config)
    (NFloat <$> cc_local_capacity_memory_gb config) (NInt <$> cc_local_capacity_dind_slots config).

Definition local_capacity_blockers (allocated : AllocatedReservationTotals)
    (demand : ReservationDemand) (config : CapacityConfig) : list LocalCapacityBlocker :=
  omap (fun c =>
          local_capacity_blocker c (config_limit config c)
            (allocated_in allocated (lc_dimension c)) (demanded_in demand (lc_dimension c)))
    LOCAL_CAPACITY_CONSTRAINTS.

Definition local_capacity_configured (config : CapacityConfig) : bool :=
  bool_decide (is_Some (cc_local_capacity_cpu_cores config))
  || bool_decide (is_Some (cc_local_capacity_memory_gb config))
  || bool_decide (is_Some (cc_local_capacity_dind_slots config)).

(** ** Stored summaries *)

Definition blocker_payload (b : LocalCapacityBlocker) : dict :=
  [("dimension", VStr (dimension_name (lb_dimension b))); ("reason_code", VStr (lb_reason_code b));
   ("limit", number_val (lb_limit b)); ("allocated", number_val (lb_allocated b));
   ("requested", number_val (lb_requested b)); ("after", number_val (lb_after b));
   ("unsatisfiable", VBool (lb_unsatisfiable b))].

Definition capacity_resource_summary (allocated : AllocatedReservationTotals)
    (demand : ReservationDemand) (blockers : list LocalCapacityBlocker) : dict :=
  [("allocated",
    VDict [("workspace_count", VInt (al_workspace_count allocated));
           ("steady_cpu", VFloat (al_steady_cpu allocated));
           ("steady_memory_gb", VFloat (al_steady_memory_gb allocated));
           ("peak_cpu", VFloat (al_peak_cpu allocated));
           ("peak_memory_gb", VFloat (al_peak_memory_gb allocated));
           ("disk_mb", VInt (al_disk_mb allocated));
           ("dind_slots", VInt (al_dind_slots allocated))]);
   ("requested",
    VDict [("workspace_id", VStr (rd_workspace_id demand));
           ("steady_cpu", VFloat (rd_steady_cpu demand));
           ("steady_memory_gb", VFloat (rd_steady_memory_gb demand));
           ("peak_cpu", VFloat (rd_peak_cpu demand));
           ("peak_memory_gb", VFloat (rd_peak_memory_gb demand));
           ("disk_mb", VInt (rd_disk_mb demand)); ("dind_slots", VInt (rd_dind_slots demand));
           ("defaulted", VBool (rd_defaulted demand))]);
   ("blockers", VList (map (fun b => VDict (blocker_payload b)) blockers))].

Definition CAPACITY_BLOCKER_SIGNATURE_FIELDS : list string :=
  ["dimension"; "reason_code"; "limit"; "requested"; "unsatisfiable"].

Definition payload_signature (payload : dict) : list pyval :=
  map (get payload) CAPACITY_BLOCKER_SIGNATURE_FIELDS.

Definition blocker_signatures (blockers : list LocalCapacityBlocker) : list (list pyval) :=
  map (fun b => payload_signature (blocker_payload b)) blockers.

(** A stored list with an entry that is no mapping has no signatures. *)
Fixpoint payload_signatures (l : list pyval) : option (list (list pyval)) :=
  match l with
  | [] => Some []
  | VDict payload :: rest => cons (payload_signature payload) <$> payload_signatures rest
  | _ :: _ => None
  end.

Definition blocker_signatures_from_summary (resource_summary : dict)
  : option (list (list pyval)) :=
  match get resource_summary "blockers" with
  | VList l => payload_signatures l
  | _ => None
  end.

(** [==] against a string, a number or a boolean, which is all a signature has. *)
Definition as_number (v : pyval) : option number :=
  match v with
  | VInt n => Some (NInt n)
  | VBool b => Some (NInt (Z.b2z b))
  | VFloat x => Some (NFloat x)
  | _ => None
  end.

Definition number_eqb (x y : number) : bool :=
  match x, y with
  | NInt a, NInt b => a =? b
  | NFloat a, NFloat b => SFeqb a b
  | NInt a, NFloat b | NFloat b, NInt a => eqb (float_int b) (Some a)
  end.

Definition scalar_eqb (stored current : pyval) : bool :=
  match as_number stored, as_number current with
  | Some a, Some b => number_eqb a b
  | None, None =>
      match stored, current with
      | VStr a, VStr b => eqb a b
      | VNone, VNone => true
      | _, _ => false
      end
  | _, _ => false
  end.

Fixpoint list_eqb {A : Type} (f : A -> A -> bool) (l k : list A) : bool :=
  match l, k with
  | [], [] => true
  | x :: l', y :: k' => f x y && list_eqb f l' k'
  | _, _ => false
  end.

Definition signatures_eqb (stored current : list (list pyval)) : bool :=
  list_eqb (list_eqb scalar_eqb) stored current.

Definition capacity_previous_resource_summary (resource_summary : dict) : dict :=
  pop_key resource_summary "previous".

(** ** Capacity views *)

Record CapacityDimension : Type := {
  cd_limit : option number;
  cd_reserved : number;
  cd_available : option number;
  cd_available_after_next_default : option number;
  cd_reason_code : option string
}.

Definition clamp_available (value : number) : number :=
  match value with
  | NInt n => NInt (Z.max 0 n)
  | NFloat x => NFloat (fmax (float_of_Z 0) x)
  end.

Definition bounded_dimension (limit : option number) (reserved next_default : number)
    (unknown_reason saturated_reason : string) : CapacityDimension :=
  match limit with
  | None => {| cd_limit := None; cd_reserved := reserved; cd_available := None;
               cd_available_after_next_default := None; cd_reason_code := Some unknown_reason |}
  | Some limit =>
      let raw_available := number_sub limit reserved in
      {| cd_limit := Some limit; cd_reserved := reserved;
         cd_available := Some (clamp_available raw_available);
         cd_available_after_next_default :=
           Some (clamp_available (number_sub raw_available next_default));
         cd_reason_code :=
           if number_ltb raw_available (NInt 0) || number_eqb raw_available (NInt 0)
           then Some saturated_reason else None |}
  end.

Record DiskCheck : Type := {
  dk_total_bytes : Z;
  dk_free_bytes : Z;
  dk_ok : bool;
  dk_reason : string
}.

Definition MIB : Z := 1024 * 1024.

Definition disk_reason_code (disk_check : DiskCheck) (raw_available : Z) : option string :=
  if negb (dk_ok disk_check) then Some (dk_reason disk_check)
  else if raw_available <=? 0 then Some "DISK_RESERVATION_PRESSURE"
  else None.

Definition disk_dimension (disk_check : option DiskCheck) (reserved_mb : Z) : CapacityDimension :=
  match disk_check with
  | None => {| cd_limit := None; cd_reserved := NInt reserved_mb; cd_available := None;
               cd_available_after_next_default := None;
               cd_reason_code := Some "DISK_CAPACITY_UNKNOWN" |}
  | Some check =>
      let raw_available := dk_free_bytes check / MIB - reserved_mb in
      {| cd_limit := Some (NInt (dk_total_bytes check / MIB)); cd_reserved := NInt reserved_mb;
         cd_available := Some (NInt (Z.max 0 raw_available));
         cd_available_after_next_default := None;
         cd_reason_code := disk_reason_code check raw_available |}
  end.

Record ReservedResources : Type := {
  rs_steady_cpu : float;
  rs_steady_memory_gb : float;
  rs_peak_cpu : float;
  rs_peak_memory_gb : float;
  rs_disk_mb : Z;
  rs_dind_slots : Z
}.

Record ResourceCapacitySummary : Type := {
  rc_steady_cpu : CapacityDimension;
  rc_peak_cpu : CapacityDimension;
  rc_steady_memory_gb : CapacityDimension;
  rc_peak_memory_gb : CapacityDimension;
  rc_disk_mb : CapacityDimension;
  rc_dind_slots : CapacityDimension;
  rc_pressure_reasons : list string
}.

Record WorkspaceResourceDefaults : Type := {
  wd_steady_cpu : float;
  wd_steady_memory_gb : float;
  wd_peak_cpu : float;
  wd_peak_memory_gb : float
}.

(** What Docker reports, and the limits of the operator's settings. *)
Record LocalCapacityLimits : Type := {
  ll_cpu_cores : option float;
  ll_memory_gb : option float
}.

Record CapacitySettings : Type := {
  cs_local_capacity_cpu_cores : option float;
  cs_local_capacity_memory_gb : option float;
  cs_local_capacity_dind_slots : option Z
}.

Definition or_detected (configured detected : option float) : option float :=
  match configured with Some x => Some x | None => detected end.

Definition resource_capacity_summary (settings : CapacitySettings) (reserved : ReservedResources)
    (resource_defaults : WorkspaceResourceDefaults) (disk_check : option DiskCheck)
    (detected_local_capacity : option LocalCapacityLimits) : ResourceCapacitySummary :=
  let cpu_limit := or_detected (cs_local_capacity_cpu_cores settings)
                     (d ← detected_local_capacity; ll_cpu_cores d) in
  let memory_limit := or_detected (cs_local_capacity_memory_gb settings)
                        (d ← detected_local_capacity; ll_memory_gb d) in
  let dimension limit reserved next name :=
    bounded_dimension limit reserved next (name +:+ "_CAPACITY_UNKNOWN")
      (name +:+ "_CAPACITY_SATURATED") in
  let steady_cpu := dimension (NFloat <$> cpu_limit) (NFloat (rs_steady_cpu reserved))
                      (NFloat (wd_steady_cpu resource_defaults)) "STEADY_CPU" in
  let peak_cpu := dimension (NFloat <$> cpu_limit) (NFloat (rs_peak_cpu reserved))
                    (NFloat (wd_peak_cpu resource_defaults)) "PEAK_CPU" in
  let steady_memory := dimension (NFloat <$> memory_limit) (NFloat (rs_steady_memory_gb reserved))
                         (NFloat (wd_steady_memory_gb resource_defaults)) "STEADY_MEMORY" in
  let peak_memory := dimension (NFloat <$> memory_limit) (NFloat (rs_peak_memory_gb reserved))
                       (NFloat (wd_peak_memory_gb resource_defaults)) "PEAK_MEMORY" in
  let disk := disk_dimension disk_check (rs_disk_mb reserved) in
  let dind := dimension (NInt <$> cs_local_capacity_dind_slots settings)
                (NInt (rs_dind_slots reserved)) (NInt 0) "DIND" in
  {| rc_steady_cpu := steady_cpu; rc_peak_cpu := peak_cpu; rc_steady_memory_gb := steady_memory;
     rc_peak_memory_gb := peak_memory; rc_disk_mb := disk; rc_dind_slots := dind;
     rc_pressure_reasons :=
       omap cd_reason_code [steady_cpu; peak_cpu; steady_memory; peak_memory; disk; dind] |}.

(** ** Lemmas *)

(** One constraint is respected by an amount. *)
Definition within (config : CapacityConfig) (amount : Dimension -> number)
    (c : LocalCapacityConstraint) : bool :=
  match config_limit config c with
  | None => true
  | Some limit => negb (number_ltb limit (amount (lc_dimension c)))
  end.

(** Every configured limit is respected by an amount. *)
Definition fits (config : CapacityConfig) (amount : Dimension -> number) : bool :=
  forallb (within config amount) LOCAL_CAPACITY_CONSTRAINTS.

Lemma allocated_after (t : AllocatedReservationTotals) (d : ReservationDemand) (dim : Dimension) :
  allocated_in (add_demand t d) dim = number_add (allocated_in t dim) (demanded_in d dim).
Proof. by destruct dim. Qed.

Lemma blocker_none (c : LocalCapacityConstraint) (limit : option number)
    (allocated requested : number) :
  local_capacity_blocker c limit allocated requested = None <->
  match limit with
  | None => True
  | Some l => number_ltb l requested = false /\ number_ltb l (number_add allocated requested) = false
  end.
Proof.
  unfold local_capacity_blocker. destruct limit as [l|]; [|done].
  destruct (number_ltb l requested); [split; [done|by intros []]|].
  destruct (number_ltb l _); [split; [done|by intros []]|]. by split.
Qed.

Lemma fits_spec (config : CapacityConfig) (amount : Dimension -> number) :
  fits config amount = true <->
  forall c limit, c ∈ LOCAL_CAPACITY_CONSTRAINTS -> config_limit config c = Some limit ->
    number_ltb limit (amount (lc_dimension c)) = false.
Proof.
  unfold fits. rewrite forallb_elem. unfold within. split.
  - intros H c limit Hc Hl. specialize (H c Hc). rewrite Hl in H. by apply negb_true_iff.
  - intros H c Hc. destruct (config_limit config c) eqn:E; [|done].
    apply negb_true_iff. eauto.
Qed.

(** A demand is admitted exactly when it fits alone and on top of what is allocated. *)
Lemma blockers_nil (config : CapacityConfig) (t : AllocatedReservationTotals)
    (d : ReservationDemand) :
  local_capacity_blockers t d config = [] <->
  fits config (demanded_in d) = true /\ fits config (allocated_in (add_demand t d)) = true.
Proof.
  unfold local_capacity_blockers. rewrite omap_nil, !fits_spec.
  setoid_rewrite allocated_after. setoid_rewrite blocker_none. split.
  - intros H. split; intros c limit Hc Hl; specialize (H c Hc); rewrite Hl in H; apply H.
  - intros [H1 H2] c Hc. destruct (config_limit config c) eqn:E; [|done]. split; eauto.
Qed.

(** The unsatisfiable blockers do not depend on what is allocated. *)
Lemma unsatisfiable_spec (config : CapacityConfig) (t : AllocatedReservationTotals)
    (d : ReservationDemand) :
  existsb lb_unsatisfiable (local_capacity_blockers t d config) = negb (fits config (demanded_in d)).
Proof.
  unfold local_capacity_blockers, fits.
  induction LOCAL_CAPACITY_CONSTRAINTS as [|c l IH]; [done|].
  cbn [omap list_omap forallb]. unfold local_capacity_blocker at 1, within at 1.
  destruct (config_limit config c) as [limit|]; [|exact IH].
  destruct (number_ltb limit (demanded_in d (lc_dimension c))); [done|].
  destruct (number_ltb limit _); simpl; exact IH.
Qed.
