(* ===== verification/DockerPull.v ===== *)
(** * Registry timeouts of image pulls

    [runtime/_docker_pull_detection.py]: whether a network timeout in the log of a CI job
    belongs to an image pull that Docker could not finish, and may be retried.  A log is its
    lowered lines; a position is an index into them. *)

From S2P Require Import Prelude PyStr Regex PyRe PyNet.
#[local] Open Scope Z_scope.
#[local] Set Warnings "-register-all".

(** ** Vocabulary *)

Definition _CI_DOCKER_REGISTRY_TIMEOUT_MARKERS : list string :=
  ["context deadline exceeded"; "timeout exceeded while awaiting headers";
   "request canceled while waiting for connection"].
Definition _CI_DOCKER_SELF_EVIDENT_PULL_FAILURE_MARKER : string := "docker pull failed".
Definition _CI_DOCKER_DAEMON_ERROR_MARKER : string := "error response from daemon".
Definition _CI_DOCKER_REGISTRY_PULL_CONTEXT_MARKERS : list string :=
  ["/v2/"; "auth.docker.io"; "/token?"].
Definition _DOCKER_HUB_REGISTRY_HOSTS : list string :=
  ["registry-1.docker.io"; "index.docker.io"; "docker.io"].
Definition _CI_DOCKER_IMAGE_PULL_FAILURE_MARKER : string := "failed to pull image".
Definition dq : string := String quote "".
Definition _CI_DOCKER_IMAGE_PULL_FAILURE_REF_PATTERN : regex :=
  re_compile NOFLAG ("failed to pull image\s+" +:+ dq +:+ "([^" +:+ dq +:+ "]+)" +:+ dq).
Definition _SHELL_REDIRECTION_METACHAR_RE : regex := re_compile NOFLAG "[><&|;]".
Definition _CI_DOCKER_PULL_COMMAND_MARKER : string := "docker pull".
Definition _CI_DOCKER_PULL_SUCCESS_STATUS_MARKERS : list string :=
  ["status: downloaded newer image for "; "status: image is up to date for "].
Definition _CI_DOCKER_PERMANENT_PULL_ERROR_MARKERS : list string :=
  ["access denied"; "denied:"; ": denied"; "no such image"; "manifest unknown"; "not found";
   "unauthorized"; "repository does not exist"].
Definition _CI_DOCKER_TIMEOUT_EVIDENCE_WINDOW : nat := 2.

Definition contains_any (markers : list string) (line : string) : bool :=
  existsb (fun marker => contains marker line) markers.

(** The line without what it has in double quotes. *)
Definition without_quoted (line : string) : string :=
  re_sub (r_pat (re_compile NOFLAG (dq +:+ "[^" +:+ dq +:+ "]*" +:+ dq))) (fun _ => "") line.

(** The image, in double quotes, of a line about an image that could not be pulled. *)
Definition failed_image (line : string) : option string :=
  m ← re_search (r_pat _CI_DOCKER_IMAGE_PULL_FAILURE_REF_PATTERN) line; m_group m 1.

(** A [docker pull] command, not the summary of a failed one. *)
Definition is_pull_echo (line : string) : bool :=
  contains _CI_DOCKER_PULL_COMMAND_MARKER line
  && negb (contains _CI_DOCKER_SELF_EVIDENT_PULL_FAILURE_MARKER line).

Definition is_permanent_text (line : string) : bool :=
  contains_any _CI_DOCKER_PERMANENT_PULL_ERROR_MARKERS (without_quoted line).

Definition shows_timeout (line : string) : bool :=
  contains_any _CI_DOCKER_REGISTRY_TIMEOUT_MARKERS line.

(** A daemon error about a registry request that timed out. *)
Definition is_daemon_timeout (line : string) : bool :=
  contains _CI_DOCKER_DAEMON_ERROR_MARKER line
  && contains_any _CI_DOCKER_REGISTRY_PULL_CONTEXT_MARKERS line
  && shows_timeout line.

(** ** Image references *)

Definition _strip_image_tag (image_ref : string) : string :=
  let '(name, at_sign, _) := partition at_sign image_ref in
  if at_sign then name
  else match rpartition colon image_ref with
       | Some (untagged, tag) => if contains "/" tag then image_ref else untagged
       | None => image_ref
       end.

Definition _line_url_host_is (line host : string) : bool :=
  existsb (fun m =>
    match urlsplit (m_text m) with
    | inr u => eqb (hostname u) (Some host)
    | inl _ => false
    end)
    (finditer (r_pat (re_compile NOFLAG ("https?://[^\s" +:+ dq +:+ "']+"))) line).

(** What follows a reference in a URL ends it. *)
Definition ends_reference (rest : string) : bool :=
  match rest with
  | "" => true
  | String c _ => negb (is_word c || mem c [char 46; char 95; char 45])
  end.

(** The first occurrence of the reference, with its end. *)
Definition names_reference (fragment line : string) : bool :=
  match after_first fragment line with Some rest => ends_reference rest | None => false end.

Definition names_host (host line : string) : bool := contains ("//" +:+ host +:+ "/") line.
Definition names_docker_hub (line : string) : bool :=
  existsb (fun h => names_host h line) _DOCKER_HUB_REGISTRY_HOSTS.

(** The parts of a reference: the registry host, when it names one, the repository, and
    the tag or digest. *)
Record ImageRef : Type := {
  ir_host : option string;
  ir_repository : string;
  ir_manifest : option string
}.

Definition parse_image_ref (image_ref : string) : ImageRef :=
  let '(image_ref, has_digest, digest) := partition at_sign image_ref in
  let manifest_ref := if has_digest : bool then Some digest else None in
  let '(ref_no_tag, manifest_ref) :=
    match rpartition colon image_ref with
    | Some (untagged, tag) =>
        if contains "/" tag then (image_ref, manifest_ref)
        else (untagged, if manifest_ref is Some _ then manifest_ref else Some tag)
    | None => (image_ref, manifest_ref)
    end in
  let '(host, has_slash, path) := partition slash ref_no_tag in
  if (has_slash : bool) && (contains "." host || contains ":" host || eqb host "localhost")
  then {| ir_host := Some host; ir_repository := path; ir_manifest := manifest_ref |}
  else {| ir_host := None; ir_repository := ref_no_tag; ir_manifest := manifest_ref |}.

Definition token_scopes (encoded plain : string) : list string :=
  ["scope=repository%3a" +:+ encoded +:+ "%3apull"; "scope=repository:" +:+ plain +:+ ":pull"].

Definition _image_ref_matches_daemon_url (image_ref line : string) : bool :=
  let r := parse_image_ref image_ref in
  let repo_path := ir_repository r in
  let is_hub := match ir_host r with Some h => mem h _DOCKER_HUB_REGISTRY_HOSTS | None => false end in
  let unscoped := eqb (ir_host r) None || is_hub in
  let effective_ref := default "latest" (ir_manifest r) in
  let manifests_prefix := "/v2/" +:+ repo_path +:+ "/manifests/" in
  let url_prefix := match ir_host r with
                    | Some h => if is_hub then manifests_prefix else "//" +:+ h +:+ manifests_prefix
                    | None => manifests_prefix
                    end in
  let library := negb (contains "/" repo_path) && unscoped in
  let lib_prefix := "/v2/library/" +:+ repo_path +:+ "/manifests/" in
  let on_auth_or_hub := _line_url_host_is line "auth.docker.io" || names_docker_hub line in
  if eqb repo_path "" then false
  else if contains url_prefix line then
    if unscoped && negb (names_docker_hub line) then false
    else names_reference (url_prefix +:+ effective_ref) line
  else if library && contains lib_prefix line then
    if negb (names_docker_hub line) then false
    else names_reference (lib_prefix +:+ effective_ref) line
  else if contains_any (token_scopes (replace "/" "%2f" repo_path) repo_path) line then
    match ir_host r with
    | None => on_auth_or_hub
    | Some h => if is_hub then _line_url_host_is line "auth.docker.io" || names_host h line
                else names_host h line
    end
  else if library
          && contains_any (token_scopes ("library%2f" +:+ repo_path) ("library/" +:+ repo_path)) line
  then on_auth_or_hub
  else false.

(** The image of a [docker pull] command: its last positional argument before a
    redirection. *)
Fixpoint after_pull (tokens : list string) : option (list string) :=
  match tokens with
  | [] => None
  | t :: rest => if eqb t "pull" then Some rest else after_pull rest
  end.
Fixpoint before_redirection (tokens : list string) : list string :=
  match tokens with
  | [] => []
  | t :: rest => if found (re_search (r_pat _SHELL_REDIRECTION_METACHAR_RE) t) then []
                 else t :: before_redirection rest
  end.
Definition pulled_image (line : string) : option string :=
  args ← after_pull (words line);
  last (List.filter (fun t => negb (starts_with "-" t)) (before_redirection args)).

(** ** Positions in a log *)

Section Log.
Context (lines : list string).

Definition line_at (i : nat) : string := nth i lines "".

(** [any(f(k) for k in range(first, stop))] *)
Definition any_in (f : nat -> bool) (first stop : nat) : bool := existsb f (seq first (stop - first)).

Definition echo_in : nat -> nat -> bool := any_in (fun k => is_pull_echo (line_at k)).

Definition _docker_pull_command_succeeded (image_ref : string) (command_index failure_index : nat)
  : bool :=
  any_in (fun probe => mem image_ref (words (line_at probe))
                       && contains_any _CI_DOCKER_PULL_SUCCESS_STATUS_MARKERS (line_at probe))
    (S (Nat.min command_index failure_index)) (Nat.max command_index failure_index).

Definition _image_pull_failure_is_corroborated (index : nat) : bool :=
  match failed_image (line_at index) with
  | None => false
  | Some image_ref =>
      any_in (fun context_index =>
        is_pull_echo (line_at context_index)
        && (context_index <? index)%nat
        && (index - context_index <=? _CI_DOCKER_TIMEOUT_EVIDENCE_WINDOW)%nat
        && mem image_ref (words (line_at context_index))
        && negb (_docker_pull_command_succeeded image_ref context_index index)) 0 (length lines)
  end.

Definition _is_docker_pull_failure_line (index : nat) : bool :=
  let line := line_at index in
  if contains _CI_DOCKER_SELF_EVIDENT_PULL_FAILURE_MARKER line then true
  else if contains _CI_DOCKER_IMAGE_PULL_FAILURE_MARKER line
          && _image_pull_failure_is_corroborated index then true
  else is_daemon_timeout line.

Definition _forward_detail_ref_matches_pull (detail_line : string) (back_start summary_index : nat)
    (stale_guard_image : option string) : bool :=
  match failed_image detail_line with
  | None => false
  | Some image_ref =>
      if any_in (fun k => is_pull_echo (line_at k) && mem image_ref (words (line_at k)))
           back_start summary_index then true
      else if echo_in back_start summary_index then false
      else match stale_guard_image with
           | Some stale => eqb image_ref stale || eqb image_ref (_strip_image_tag stale)
                           || eqb image_ref (stale +:+ ":latest")
           | None => true
           end
  end.

(** The last [docker pull] command before [n], or the first line. *)
Fixpoint back_start_of (n : nat) : nat :=
  match n with
  | O => O
  | S k => if is_pull_echo (line_at k) then k else back_start_of k
  end.

Definition is_permanent_daemon_error (line : string) : bool :=
  contains _CI_DOCKER_DAEMON_ERROR_MARKER line && is_permanent_text line.
Definition is_permanent_detail (line : string) : bool :=
  contains _CI_DOCKER_IMAGE_PULL_FAILURE_MARKER line && is_permanent_text line.

(** A word without the punctuation after it. *)
Definition bare_word (t : string) : string := rstrip_by (fun c => has_char c ",.;:") t.

(** The error is about the image of the pull, when that is known. *)
Definition about_image (preceding_pull_image : option string) (line : string) : bool :=
  match preceding_pull_image with
  | None => true
  | Some image =>
      existsb (fun t => eqb (bare_word t) image) (words line)
      || existsb (fun t => eqb (bare_word t) (_strip_image_tag image)) (words line)
      || _image_ref_matches_daemon_url image line
  end.

Definition preceding_image (back_start start : nat) : option string :=
  if (start <=? back_start)%nat && is_pull_echo (line_at back_start)
  then pulled_image (line_at back_start) else None.

Definition stale_image (back_start start index : nat) : option string :=
  if (back_start <? start)%nat && is_pull_echo (line_at back_start) then
    image ← pulled_image (line_at back_start);
    if negb (_docker_pull_command_succeeded image back_start index)
       && negb (any_in (fun k => contains _CI_DOCKER_SELF_EVIDENT_PULL_FAILURE_MARKER (line_at k))
                  (S back_start) index)
    then Some image else None
  else None.

(** The probes around a [docker pull failed] summary. *)
Definition summary_is_permanent (index : nat) : bool :=
  let start := (index - _CI_DOCKER_TIMEOUT_EVIDENCE_WINDOW)%nat in
  let back_start := back_start_of index in
  let image := preceding_image back_start start in
  let stale := stale_image back_start start index in
  let stop := Nat.min (length lines) (S (index + _CI_DOCKER_TIMEOUT_EVIDENCE_WINDOW)) in
  let daemon k := is_permanent_daemon_error (line_at k) && about_image image (line_at k) in
  let detail back k :=
    is_permanent_detail (line_at k)
    && _forward_detail_ref_matches_pull (line_at k) back index stale in
  any_in (fun k => daemon k && negb (echo_in (S k) index)) start index
  || any_in (fun k => detail back_start k && negb (echo_in (S k) index)) start index
  || any_in (fun k => daemon k && negb (echo_in (S index) k)) (S index) stop
  || any_in (fun k => detail (Nat.max back_start start) k && negb (echo_in (S index) k))
       (S index) stop.

Definition _evidence_line_is_permanent_pull_failure (index : nat) : bool :=
  if is_permanent_text (line_at index) then true
  else if contains _CI_DOCKER_SELF_EVIDENT_PULL_FAILURE_MARKER (line_at index)
  then summary_is_permanent index else false.

Definition near (i j : nat) : bool :=
  (i <=? j + _CI_DOCKER_TIMEOUT_EVIDENCE_WINDOW)%nat && (j <=? i + _CI_DOCKER_TIMEOUT_EVIDENCE_WINDOW)%nat.

(** A quoted pull event that is not evidence. *)
Definition is_uncorroborated (index : nat) : bool :=
  negb (eqb (failed_image (line_at index)) None) && negb (_is_docker_pull_failure_line index).

Definition strictly_between (i j k : nat) : bool := (Nat.min i j <? k)%nat && (k <? Nat.max i j)%nat.

(** A pull event that is not Docker's claims the timeout. *)
Definition claimed_by (index uncorroborated : nat) : bool :=
  near index uncorroborated
  && ((uncorroborated <? index)%nat
      || negb (any_in (fun k => _is_docker_pull_failure_line k && strictly_between index uncorroborated k)
                 0 (length lines))).

Definition is_pull_timeout (index : nat) : bool :=
  shows_timeout (line_at index)
  && (_is_docker_pull_failure_line index
      || negb (any_in (fun u => is_uncorroborated u && claimed_by index u) 0 (length lines)))
  && any_in (fun e => _is_docker_pull_failure_line e
                      && negb (_evidence_line_is_permanent_pull_failure e) && near index e)
       0 (length lines).

Definition lines_show_registry_timeout : bool := any_in is_pull_timeout 0 (length lines).
End Log.

Definition _log_shows_docker_registry_timeout (log_text : string) : bool :=
  lines_show_registry_timeout (splitlines (lower log_text)).

(** ** Lemmas *)

Lemma any_in_true (f : nat -> bool) (a b : nat) :
  any_in f a b = true <-> exists k, (a <= k < b)%nat /\ f k = true.
Proof.
  unfold any_in. rewrite existsb_exists. setoid_rewrite in_seq. split.
  - intros (k & Hk & Hf). exists k. split; [lia|done].
  - intros (k & Hk & Hf). exists k. split; [lia|done].
Qed.

Lemma any_in_false (f : nat -> bool) (a b : nat) :
  any_in f a b = false <-> forall k, (a <= k < b)%nat -> f k = false.
Proof.
  rewrite <- not_true_iff_false, any_in_true. split.
  - intros H k Hk. apply not_true_iff_false. intros Hf. apply H. by exists k.
  - intros H (k & Hk & Hf). by rewrite (H k Hk) in Hf.
Qed.

Lemma contains_app_l (p q s : string) : contains (p +:+ q) s = true -> contains p s = true.
Proof.
  assert (Hp : forall s, starts_with (p +:+ q) s = true -> starts_with p s = true).
  { intros s'. apply starts_with_trans, starts_with_app. }
  induction s as [|c s IH]; cbn [contains]; intros H.
  - apply orb_true_iff in H as [H|H]; [|done]. by rewrite (Hp _ H).
  - apply orb_true_iff in H as [H|H]; [by rewrite (Hp _ H)|]. by rewrite (IH H), orb_true_r.
Qed.

Lemma summary_not_echo (line : string) :
  contains _CI_DOCKER_SELF_EVIDENT_PULL_FAILURE_MARKER line = true -> is_pull_echo line = false.
Proof. unfold is_pull_echo. intros ->. by rewrite andb_false_r. Qed.

(** ** Evidence *)

(** What makes a line evidence that Docker could not pull an image. *)
Inductive pull_evidence (lines : list string) (e : nat) : Prop :=
| evidence_summary :
    contains _CI_DOCKER_SELF_EVIDENT_PULL_FAILURE_MARKER (line_at lines e) = true ->
    pull_evidence lines e
| evidence_daemon : is_daemon_timeout (line_at lines e) = true -> pull_evidence lines e
| evidence_event (command : nat) (image : string) :
    failed_image (line_at lines e) = Some image ->
    (command < e <= command + 2)%nat -> is_pull_echo (line_at lines command) = true ->
    image ∈ words (line_at lines command) ->
    (forall k, (command < k < e)%nat -> image ∈ words (line_at lines k) ->
       contains_any _CI_DOCKER_PULL_SUCCESS_STATUS_MARKERS (line_at lines k) = false) ->
    pull_evidence lines e.

Lemma failure_line_evidence (lines : list string) (e : nat) :
  _is_docker_pull_failure_line lines e = true -> pull_evidence lines e.
Proof.
  unfold _is_docker_pull_failure_line. cbv zeta.
  destruct (contains _CI_DOCKER_SELF_EVIDENT_PULL_FAILURE_MARKER _) eqn:Es; [intros _; by apply evidence_summary|].
  destruct (contains _CI_DOCKER_IMAGE_PULL_FAILURE_MARKER _ && _) eqn:Ei; [|by apply evidence_daemon].
  intros _. apply andb_true_iff in Ei as [_ Ei]. unfold _image_pull_failure_is_corroborated in Ei.
  destruct (failed_image _) as [image|] eqn:Ef; [|done].
  apply any_in_true in Ei as (c & _ & Hc). bool_simpl.
  apply evidence_event with c image; [done| |done|by apply mem_true|].
  - unfold _CI_DOCKER_TIMEOUT_EVIDENCE_WINDOW in *.
    repeat match goal with H : (_ <? _)%nat = true |- _ => apply Nat.ltb_lt in H
                         | H : (_ <=? _)%nat = true |- _ => apply Nat.leb_le in H end. lia.
  - intros k Hk Hw. unfold _docker_pull_command_succeeded in *.
    match goal with H : any_in _ _ _ = false |- _ => rewrite any_in_false in H; specialize (H k) end.
    apply mem_true in Hw. rewrite Hw in *. cbn in *. match goal with H : _ -> _ |- _ => apply H end. lia.
Qed.

(** ** Noise *)

(** A line that has nothing to do with pulls, daemons or timeouts. *)
Definition quiet (line : string) : Prop :=
  contains _CI_DOCKER_PULL_COMMAND_MARKER line = false /\
  contains _CI_DOCKER_DAEMON_ERROR_MARKER line = false /\
  contains _CI_DOCKER_IMAGE_PULL_FAILURE_MARKER line = false /\
  failed_image line = None /\ shows_timeout line = false.

Lemma quiet_not_echo (line : string) : quiet line -> is_pull_echo line = false.
Proof. unfold is_pull_echo. by intros (-> & _). Qed.

Lemma quiet_not_summary (line : string) :
  quiet line -> contains _CI_DOCKER_SELF_EVIDENT_PULL_FAILURE_MARKER line = false.
Proof.
  intros (H & _). apply not_true_iff_false. intros Hs.
  by rewrite (contains_app_l _CI_DOCKER_PULL_COMMAND_MARKER " failed" line Hs) in H.
Qed.

Lemma quiet_empty : quiet "".
Proof. repeat split; vm_compute; reflexivity. Qed.

Section Noise.
Context (before lines after : list string).
Context (Hbefore : Forall quiet before) (Hafter : Forall quiet after).

Let whole : list string := before ++ lines ++ after.
Let k : nat := length before.
Let n : nat := length lines.

Lemma line_inside (i : nat) : (i < n)%nat -> line_at whole (k + i) = line_at lines i.
Proof.
  intros Hi. unfold line_at, whole, k. rewrite app_nth2 by lia. rewrite app_nth1 by (unfold n in Hi; lia).
  f_equal. lia.
Qed.

Lemma line_outside (j : nat) : ~ (k <= j < k + n)%nat -> quiet (line_at whole j).
Proof.
  intros Hj. unfold line_at, whole, k, n in *. rewrite !Forall_forall in *.
  destruct (nth_in_or_default j (before ++ lines ++ after) "") as [Hin| ->]; [|apply quiet_empty].
  destruct (base.decide (j < length before)%nat) as [Hlt|Hge].
  - rewrite app_nth1 by done. apply Hbefore, list_elem_of_In, nth_In. done.
  - rewrite app_nth2, app_nth2 by lia.
    destruct (nth_in_or_default (j - length before - length lines) after "") as [Ha| ->];
      [by apply Hafter, list_elem_of_In|apply quiet_empty].
Qed.

Lemma any_in_shift (f f' : nat -> bool) (a b a' b' : nat) :
  (forall j, (a' <= j < b')%nat -> f' j = true -> (k <= j < k + n)%nat) ->
  (forall i, (i < n)%nat -> (a <= i < b)%nat -> f' (k + i)%nat = f i) ->
  (forall i, (i < n)%nat -> (a <= i < b)%nat <-> (a' <= k + i < b')%nat) -> (b <= n)%nat ->
  any_in f' a' b' = any_in f a b.
Proof.
  intros Hin Hf Hr Hb. apply eq_true_iff_eq. rewrite !any_in_true. split.
  - intros (j & Hj & Hfj). pose proof (Hin j Hj Hfj) as Hk. exists (j - k)%nat.
    replace j with (k + (j - k))%nat in Hfj, Hj by lia.
    assert (Ha : (a <= j - k < b)%nat) by (apply Hr; [lia|done]). split; [done|]. by rewrite <- Hf by lia.
  - intros (i & Hi & Hfi). exists (k + i)%nat. split; [apply Hr; [lia|done]|]. by rewrite Hf by lia.
Qed.

(** What holds of a line of the whole log only inside the lines. *)
Lemma inside_of (P : string -> bool) (j : nat) :
  (forall line, quiet line -> P line = false) -> P (line_at whole j) = true -> (k <= j < k + n)%nat.
Proof.
  intros HP Hj. destruct (base.decide (k <= j < k + n)%nat) as [|Hn]; [done|].
  by rewrite HP in Hj by by apply line_outside.
Qed.

Lemma echo_shift (a b a' b' : nat) :
  (forall i, (i < n)%nat -> (a <= i < b)%nat <-> (a' <= k + i < b')%nat) -> (b <= n)%nat ->
  echo_in whole a' b' = echo_in lines a b.
Proof.
  intros Hr Hb. apply any_in_shift; [|intros i Hi _; by rewrite line_inside|done|done].
  intros j _. apply inside_of, quiet_not_echo.
Qed.

Lemma succeeded_shift (image : string) (c f : nat) :
  (c < n)%nat -> (f < n)%nat ->
  _docker_pull_command_succeeded whole image (k + c) (k + f)
  = _docker_pull_command_succeeded lines image c f.
Proof.
  intros Hc Hf. unfold _docker_pull_command_succeeded.
  apply any_in_shift; [lia|intros i Hi _; by rewrite line_inside|lia|lia].
Qed.

Lemma corroborated_shift (i : nat) :
  (i < n)%nat ->
  _image_pull_failure_is_corroborated whole (k + i) = _image_pull_failure_is_corroborated lines i.
Proof.
  intros Hi. unfold _image_pull_failure_is_corroborated. rewrite line_inside by done.
  destruct (failed_image _) as [image|]; [|done].
  apply any_in_shift; [| |unfold whole; rewrite !length_app; fold k n; lia|unfold n; lia].
  - intros j _ Hj. bool_simpl. by eapply inside_of; [apply quiet_not_echo|].
  - intros c Hc _. rewrite line_inside, succeeded_shift by done.
    replace (k + i - (k + c))%nat with (i - c)%nat by lia.
    replace (k + c <? k + i)%nat with (c <? i)%nat; [done|].
    apply eq_true_iff_eq. rewrite !Nat.ltb_lt. lia.
Qed.

Lemma failure_shift (i : nat) :
  (i < n)%nat -> _is_docker_pull_failure_line whole (k + i) = _is_docker_pull_failure_line lines i.
Proof.
  intros Hi. unfold _is_docker_pull_failure_line. by rewrite line_inside, corroborated_shift.
Qed.

Lemma failure_inside (j : nat) :
  _is_docker_pull_failure_line whole j = true -> (k <= j < k + n)%nat.
Proof.
  intros H. destruct (base.decide (k <= j < k + n)%nat) as [|Hn]; [done|].
  apply line_outside in Hn. unfold _is_docker_pull_failure_line, is_daemon_timeout in H. cbv zeta in H.
  rewrite (quiet_not_summary _ Hn) in H. destruct Hn as (_ & Hd & Hi & _). by rewrite Hi, Hd in H.
Qed.

(** The last command before a line is the same, or there is none in either log. *)
Lemma back_start_cases (lines' : list string) (i : nat) :
  (is_pull_echo (line_at lines' (back_start_of lines' i)) = true /\ (back_start_of lines' i < i)%nat) \/
  (echo_in lines' 0 i = false /\ back_start_of lines' i = O).
Proof.
  induction i as [|i IH]; [by right|]. cbn [back_start_of].
  destruct (is_pull_echo (line_at lines' i)) eqn:E; [left; split; [done|lia]|].
  destruct IH as [[Hb Hlt]|[Hn Hz]]; [left; split; [done|lia]|right].
  split; [|done]. unfold echo_in in *. rewrite any_in_false in *. intros j Hj.
  destruct (base.decide (j = i)) as [->|]; [done|]. apply Hn. lia.
Qed.

Lemma back_start_last (lines' : list string) (i j : nat) :
  is_pull_echo (line_at lines' j) = true -> (j < i)%nat -> (j <= back_start_of lines' i)%nat.
Proof.
  intros Hj. induction i as [|i IH]; [lia|]. intros Hlt. cbn [back_start_of].
  destruct (is_pull_echo (line_at lines' i)) eqn:E; [lia|].
  destruct (base.decide (j = i)) as [->|]; [congruence|]. apply IH. lia.
Qed.

Lemma back_start_shift (i : nat) :
  (i < n)%nat ->
  (is_pull_echo (line_at lines (back_start_of lines i)) = true /\
   (back_start_of lines i < i)%nat /\ back_start_of whole (k + i) = (k + back_start_of lines i)%nat) \/
  (echo_in lines 0 i = false /\ back_start_of lines i = O /\
   echo_in whole 0 (k + i) = false /\ back_start_of whole (k + i) = O).
Proof.
  intros Hi. destruct (back_start_cases lines i) as [[Hb Hlt]|[Hn Hz]].
  - left. split_and!; [done..|].
    assert (Hb' : is_pull_echo (line_at whole (k + back_start_of lines i)) = true)
      by (rewrite line_inside by lia; done).
    pose proof (back_start_last whole (k + i) _ Hb' ltac:(lia)) as Hle.
    destruct (back_start_cases whole (k + i)) as [[Hw Hwlt]|[Hw Hwz]].
    + pose proof (inside_of is_pull_echo _ quiet_not_echo Hw) as Hin.
      replace (back_start_of whole (k + i)) with (k + (back_start_of whole (k + i) - k))%nat in Hw by lia.
      rewrite line_inside in Hw by lia. apply back_start_last with (i := i) in Hw; lia.
    + unfold echo_in in Hw. rewrite any_in_false in Hw. rewrite Hw in Hb' by lia. done.
  - right.
    assert (He : echo_in whole 0 (k + i) = false).
    { rewrite <- Hn. apply any_in_shift; [|intros j Hj _; by rewrite line_inside|lia|lia].
      intros j _. apply inside_of, quiet_not_echo. }
    split_and!; [done..|]. destruct (back_start_cases whole (k + i)) as [[Hw Hlt]|[_ Hw]]; [|done].
    unfold echo_in in He. rewrite any_in_false in He. rewrite He in Hw by lia. done.
Qed.

Lemma detail_shift (detail : string) (b b' i : nat) (stale : option string) :
  (i <= n)%nat -> (b' = k + b)%nat \/ (echo_in lines b i = false /\ echo_in whole b' (k + i) = false) ->
  _forward_detail_ref_matches_pull whole detail b' (k + i) stale
  = _forward_detail_ref_matches_pull lines detail b i stale.
Proof.
  intros Hi H. unfold _forward_detail_ref_matches_pull. destruct (failed_image detail) as [image|]; [|done].
  destruct H as [->|[H H']].
  - rewrite (echo_shift b i) by lia. f_equal.
    erewrite any_in_shift; [reflexivity| |intros j Hj _; by rewrite line_inside|lia|lia].
    intros j _ Hj. bool_simpl. by eapply inside_of; [apply quiet_not_echo|].
  - rewrite H, H'. unfold echo_in in H, H'. rewrite any_in_false in H, H'.
    rewrite !(proj2 (any_in_false _ _ _)); [done| |]; intros j Hj; [by rewrite H|by rewrite H'].
Qed.

Lemma summary_line_not_echo (i : nat) :
  contains _CI_DOCKER_SELF_EVIDENT_PULL_FAILURE_MARKER (line_at lines i) = true -> (i < n)%nat ->
  echo_in lines 0 i = false -> is_pull_echo (line_at lines 0) = false.
Proof.
  intros Hs Hi He. destruct i as [|i]; [by apply summary_not_echo|].
  unfold echo_in in He. rewrite any_in_false in He. apply He. lia.
Qed.

Lemma no_echo_anywhere (i : nat) :
  (i < n)%nat -> contains _CI_DOCKER_SELF_EVIDENT_PULL_FAILURE_MARKER (line_at lines i) = true ->
  echo_in whole 0 (k + i) = false -> is_pull_echo (line_at whole 0) = false.
Proof.
  intros Hi Hs He. destruct (k + i)%nat as [|j] eqn:E.
  - apply summary_not_echo. replace O with (k + i)%nat by done. by rewrite line_inside.
  - unfold echo_in in He. rewrite any_in_false in He. apply He. lia.
Qed.

Lemma images_shift (i : nat) :
  (i < n)%nat -> contains _CI_DOCKER_SELF_EVIDENT_PULL_FAILURE_MARKER (line_at lines i) = true ->
  preceding_image whole (back_start_of whole (k + i)) (k + i - 2)
  = preceding_image lines (back_start_of lines i) (i - 2) /\
  stale_image whole (back_start_of whole (k + i)) (k + i - 2) (k + i)
  = stale_image lines (back_start_of lines i) (i - 2) i.
Proof.
  intros Hi Hs. unfold preceding_image, stale_image.
  destruct (back_start_shift i Hi) as [(Hb & Hlt & ->)|(He & -> & He' & ->)].
  - rewrite line_inside by lia.
    replace (k + i - 2 <=? k + back_start_of lines i)%nat with (i - 2 <=? back_start_of lines i)%nat
      by (apply eq_true_iff_eq; rewrite !Nat.leb_le; lia).
    replace (k + back_start_of lines i <? k + i - 2)%nat with (back_start_of lines i <? i - 2)%nat
      by (apply eq_true_iff_eq; rewrite !Nat.ltb_lt; lia).
    split; [done|]. destruct (_ && _); [|done]. destruct (pulled_image _) as [image|]; [|done]. cbn.
    rewrite succeeded_shift by lia.
    rewrite (any_in_shift (fun j => contains _CI_DOCKER_SELF_EVIDENT_PULL_FAILURE_MARKER (line_at lines j))
      _ (S (back_start_of lines i)) i); [done| |intros j Hj _; by rewrite line_inside|lia|lia].
    intros j _ Hj. by eapply inside_of; [apply quiet_not_summary|].
  - by rewrite (summary_line_not_echo i), (no_echo_anywhere i), !andb_false_r.
Qed.

Lemma quiet_not_daemon (line : string) : quiet line -> is_permanent_daemon_error line = false.
Proof. unfold is_permanent_daemon_error. by intros (_ & -> & _). Qed.

Lemma quiet_not_detail (line : string) : quiet line -> is_permanent_detail line = false.
Proof. unfold is_permanent_detail. by intros (_ & _ & -> & _). Qed.

Lemma summary_shift (i : nat) :
  (i < n)%nat -> contains _CI_DOCKER_SELF_EVIDENT_PULL_FAILURE_MARKER (line_at lines i) = true ->
  summary_is_permanent whole (k + i) = summary_is_permanent lines i.
Proof.
  intros Hi Hs. unfold summary_is_permanent. cbv zeta. unfold _CI_DOCKER_TIMEOUT_EVIDENCE_WINDOW.
  destruct (images_shift i Hi Hs) as [-> ->].
  set (image := preceding_image lines _ _). set (stale := stale_image lines _ _ _).
  assert (Hlen : length whole = (k + n + length after)%nat)
    by (unfold whole; rewrite !length_app; fold k n; lia).
  assert (Hback : forall detail, _forward_detail_ref_matches_pull whole detail (back_start_of whole (k + i)) (k + i) stale
                   = _forward_detail_ref_matches_pull lines detail (back_start_of lines i) i stale /\
                 _forward_detail_ref_matches_pull whole detail
                   (Nat.max (back_start_of whole (k + i)) (k + i - 2)) (k + i) stale
                 = _forward_detail_ref_matches_pull lines detail
                   (Nat.max (back_start_of lines i) (i - 2)) i stale).
  { intros detail. assert (Hno : forall l a b, echo_in l 0 b = false -> echo_in l a b = false).
    { intros l a b. unfold echo_in. rewrite !any_in_false. intros H j Hj. apply H. lia. }
    destruct (back_start_shift i Hi) as [(_ & Hlt & ->)|(He & -> & He' & ->)];
      split; apply detail_shift; first [lia | left; lia | right; by split; apply Hno]. }
  f_equal; [f_equal; [f_equal|]|];
    (apply any_in_shift;
     [intros j _ Hj; bool_simpl;
      first [eapply (inside_of is_permanent_daemon_error); [exact quiet_not_daemon|eassumption]
            |eapply (inside_of is_permanent_detail); [exact quiet_not_detail|eassumption]]
     |intros j Hj Hr; cbv beta; rewrite line_inside by done;
      rewrite ?(proj1 (Hback _)), ?(proj2 (Hback _)); f_equal; f_equal; apply echo_shift; lia
     |lia|lia]).
Qed.

Lemma permanent_shift (i : nat) :
  (i < n)%nat ->
  _evidence_line_is_permanent_pull_failure whole (k + i)
  = _evidence_line_is_permanent_pull_failure lines i.
Proof.
  intros Hi. unfold _evidence_line_is_permanent_pull_failure. rewrite line_inside by done.
  destruct (is_permanent_text _); [done|]. destruct (contains _ _) eqn:Es; [|done]. by apply summary_shift.
Qed.

Lemma quiet_uncorroborated (j : nat) :
  is_uncorroborated whole j = true -> (k <= j < k + n)%nat.
Proof.
  unfold is_uncorroborated. intros Hj. bool_simpl.
  apply (inside_of (fun line => negb (eqb (failed_image line) None))); [|by apply negb_true_iff].
  intros line (_ & _ & _ & -> & _). by rewrite eqb_refl.
Qed.

Lemma near_shift (i j : nat) : near (k + i) (k + j) = near i j.
Proof.
  unfold near, _CI_DOCKER_TIMEOUT_EVIDENCE_WINDOW. apply eq_true_iff_eq.
  rewrite !andb_true_iff, !Nat.leb_le. lia.
Qed.

Lemma claimed_shift (i u : nat) :
  (i < n)%nat -> (u < n)%nat -> claimed_by whole (k + i) (k + u) = claimed_by lines i u.
Proof.
  intros Hi Hu. unfold claimed_by. rewrite near_shift.
  replace (k + u <? k + i)%nat with (u <? i)%nat by (apply eq_true_iff_eq; rewrite !Nat.ltb_lt; lia).
  f_equal. f_equal. f_equal. apply any_in_shift;
    [| |unfold whole; rewrite !length_app; fold k n; lia|unfold n; lia].
  - intros j _ Hj. bool_simpl. by apply failure_inside.
  - intros j Hj _. rewrite failure_shift by done. f_equal. unfold strictly_between.
    apply eq_true_iff_eq. rewrite !andb_true_iff, !Nat.ltb_lt. lia.
Qed.

Lemma pull_timeout_shift (i : nat) :
  (i < n)%nat -> is_pull_timeout whole (k + i) = is_pull_timeout lines i.
Proof.
  intros Hi. unfold is_pull_timeout. rewrite line_inside, failure_shift by done.
  assert (Hlen : length whole = (k + n + length after)%nat)
    by (unfold whole; rewrite !length_app; fold k n; lia).
  f_equal; [do 3 f_equal|]; (apply any_in_shift; [| |lia|unfold n; lia]).
  - intros j _ Hj. bool_simpl. by apply quiet_uncorroborated.
  - intros j Hj _. unfold is_uncorroborated. by rewrite line_inside, failure_shift, claimed_shift.
  - intros j _ Hj. bool_simpl. by apply failure_inside.
  - intros j Hj _. by rewrite failure_shift, permanent_shift, near_shift.
Qed.

Lemma noise_ignored : lines_show_registry_timeout whole = lines_show_registry_timeout lines.
Proof.
  unfold lines_show_registry_timeout. apply any_in_shift;
    [|intros i Hi _; by apply pull_timeout_shift
     |unfold whole; rewrite !length_app; fold k n; lia|unfold n; lia].
  intros j _ Hj. unfold is_pull_timeout in Hj. bool_simpl. eapply inside_of; [|eassumption].
  by intros line (_ & _ & _ & _ & ?).
Qed.
End Noise.

(** ** Properties *)

(** C39: A CI failure is retried only for a pull that Docker could not finish.  When the
    detector fires, some line shows a network timeout; within two lines of it there is a
    summary of a failed pull, a daemon error about a registry request that timed out, or a
    failed pull of an image that a command up to two lines above pulled and that did not
    succeed since, and that line names no permanent error; and no pull event of another
    kind in the two lines above claims the timeout, unless the timeout is evidence itself. *)
Theorem retry_needs_pull_failure (log_text : string) :
  _log_shows_docker_registry_timeout log_text = true ->
  let lines := splitlines (lower log_text) in
  exists i e,
    shows_timeout (line_at lines i) = true /\ (i <= e + 2 /\ e <= i + 2)%nat /\
    pull_evidence lines e /\ is_permanent_text (line_at lines e) = false /\
    (pull_evidence lines i \/
     forall u, (u < i <= u + 2)%nat -> (u < length lines)%nat ->
       failed_image (line_at lines u) = None \/ pull_evidence lines u).
Proof.
  intros H lines. apply any_in_true in H as (i & _ & H). fold lines in H.
  unfold is_pull_timeout in H. apply andb_true_iff in H as [H He].
  apply andb_true_iff in H as [Ht Hc]. apply any_in_true in He as (e & _ & He).
  apply andb_true_iff in He as [He Hnear]. apply andb_true_iff in He as [He Hp].
  exists i, e. split_and!; [done| | |by apply failure_line_evidence| |].
  - unfold near in Hnear. apply andb_true_iff in Hnear as [H1 _]. by apply Nat.leb_le in H1.
  - unfold near in Hnear. apply andb_true_iff in Hnear as [_ H2]. by apply Nat.leb_le in H2.
  - unfold _evidence_line_is_permanent_pull_failure in Hp. by destruct (is_permanent_text _).
  - apply orb_true_iff in Hc as [Hc|Hc]; [left; by apply failure_line_evidence|right].
    apply negb_true_iff in Hc. rewrite any_in_false in Hc. intros u Hu Hlen. specialize (Hc u ltac:(lia)).
    destruct (failed_image (line_at lines u)) as [image|] eqn:Ef; [right|by left].
    destruct (_is_docker_pull_failure_line lines u) eqn:Eu; [by apply failure_line_evidence|].
    unfold is_uncorroborated, claimed_by in Hc. rewrite Ef, Eu in Hc.
    rewrite (proj2 (eqb_false (Some image) None)) in Hc by done.
    rewrite (proj2 (Nat.ltb_lt u i)), orb_true_l, andb_true_r in Hc by lia.
    unfold near, _CI_DOCKER_TIMEOUT_EVIDENCE_WINDOW in Hc.
    rewrite (proj2 (Nat.leb_le i (u + 2))), (proj2 (Nat.leb_le u (i + 2))) in Hc by lia. done.
Qed.

Definition sample_timeout_log : list string :=
  ["/usr/bin/docker pull postgres:16";
   "error response from daemon: get registry-1.docker.io/v2/: context deadline exceeded";
   "docker pull failed with exit code 1"].

Lemma retry_needs_pull_failure_witness :
  let log_text := join (String newline "") sample_timeout_log in
  _log_shows_docker_registry_timeout log_text = true /\
  exists i, shows_timeout (line_at (splitlines (lower log_text)) i) = true.
Proof.
  intros log_text. assert (H : _log_shows_docker_registry_timeout log_text = true)
    by (vm_compute; reflexivity).
  split; [exact H|]. destruct (retry_needs_pull_failure _ H) as (i & e & Hi & _). by exists i.
Defined.

(** C40: The rest of the log does not matter.  Lines that name no pull, no daemon and no
    timeout, in any number before and after a part of the log, change nothing: the
    classification of an excerpt is that of the job's whole log. *)
Theorem noise_does_not_matter (before lines after : list string) :
  Forall quiet before -> Forall quiet after ->
  lines_show_registry_timeout (before ++ lines ++ after) = lines_show_registry_timeout lines.
Proof. apply noise_ignored. Qed.

Lemma quiet_lines (l : list string) :
  forallb (fun line => negb (contains _CI_DOCKER_PULL_COMMAND_MARKER line
                             || contains _CI_DOCKER_DAEMON_ERROR_MARKER line
                             || contains _CI_DOCKER_IMAGE_PULL_FAILURE_MARKER line
                             || negb (eqb (failed_image line) None) || shows_timeout line)) l = true ->
  Forall quiet l.
Proof.
  intros H. apply Forall_forall. intros line Hin. apply (proj1 (forallb_elem _ _)) with (x := line) in H; [|done].
  bool_simpl. repeat split; try done. by apply (eqb_true (failed_image line) None).
Qed.

Lemma noise_does_not_matter_witness :
  lines_show_registry_timeout
    (["run actions/checkout@v4"; "fetching"] ++ sample_timeout_log ++ ["cleaning up orphan processes"])
  = true.
Proof.
  rewrite noise_does_not_matter; [vm_compute; reflexivity| |];
    apply quiet_lines; vm_compute; reflexivity.
Defined.

(** ** Denied pulls *)

Lemma line_app (before rest : list string) (i : nat) :
  line_at (before ++ rest) (length before + i) = line_at rest i.
Proof. unfold line_at. rewrite app_nth2 by lia. f_equal. lia. Qed.

Lemma denial_is_permanent (before after : list string) (echo denial summary image : string) :
  is_pull_echo echo = true -> pulled_image echo = Some image ->
  is_permanent_daemon_error denial = true -> is_pull_echo denial = false ->
  about_image (Some image) denial = true ->
  contains _CI_DOCKER_SELF_EVIDENT_PULL_FAILURE_MARKER summary = true ->
  _evidence_line_is_permanent_pull_failure (before ++ [echo; denial; summary] ++ after)
    (length before + 2) = true.
Proof.
  intros He Hi Hd Hne Ha Hs. set (lines := before ++ _).
  assert (H0 : line_at lines (length before) = echo).
  { replace (length before) with (length before + 0)%nat at 1 by lia. apply line_app. }
  assert (H1 : line_at lines (S (length before)) = denial).
  { replace (S (length before)) with (length before + 1)%nat by lia. apply line_app. }
  assert (H2 : line_at lines (S (S (length before))) = summary).
  { replace (S (S (length before))) with (length before + 2)%nat by lia. apply line_app. }
  replace (length before + 2)%nat with (S (S (length before))) by lia.
  unfold _evidence_line_is_permanent_pull_failure. rewrite H2, Hs.
  destruct (is_permanent_text summary); [done|]. unfold summary_is_permanent. cbv zeta.
  cbn [back_start_of]. rewrite H1, Hne, H0, He.
  unfold preceding_image, _CI_DOCKER_TIMEOUT_EVIDENCE_WINDOW.
  replace (S (S (length before)) - 2)%nat with (length before) by lia.
  rewrite H0, He, Nat.leb_refl, Hi. cbn [andb].
  replace (any_in _ (length before) (S (S (length before)))) with true; [done|].
  symmetry. apply any_in_true. exists (S (length before)). split; [lia|].
  rewrite H1, Hd, Ha. unfold echo_in, any_in. by rewrite Nat.sub_diag.
Qed.

(** A denied pull is reported, whatever timed out around it.  When a command pulls
    an image, the daemon then refuses that image for good, naming it by itself, without its tag
    or by its URL, and the summary of the failed pull follows, the detector does not fire
    on any timeout of the log, as long as there is no evidence of another failed pull. *)
Theorem denied_pull_reported (before after : list string) (echo denial summary image : string) :
  is_pull_echo echo = true -> pulled_image echo = Some image ->
  is_permanent_daemon_error denial = true -> is_pull_echo denial = false ->
  about_image (Some image) denial = true ->
  contains _CI_DOCKER_SELF_EVIDENT_PULL_FAILURE_MARKER summary = true ->
  let lines := before ++ [echo; denial; summary] ++ after in
  (forall e, (e < length lines)%nat -> e <> (length before + 2)%nat ->
     _is_docker_pull_failure_line lines e = false) ->
  lines_show_registry_timeout lines = false.
Proof.
  intros He Hi Hd Hne Ha Hs lines Hother. apply any_in_false. intros i _. unfold is_pull_timeout.
  apply andb_false_iff. right. apply any_in_false. intros e Hlen.
  destruct (base.decide (e = length before + 2)%nat) as [->|Hn]; [|by rewrite Hother by (done || lia)].
  pose proof (denial_is_permanent before after _ _ _ _ He Hi Hd Hne Ha Hs) as Hp. fold lines in Hp.
  rewrite Hp. cbn [negb]. by rewrite andb_false_r.
Qed.

Lemma denied_pull_reported_witness :
  let lines := ["running 3 tests"]
    ++ ["/usr/bin/docker pull --quiet ghcr.io/org/app:1.2";
        "error response from daemon: pull access denied for ghcr.io/org/app, unauthorized: denied";
        "docker pull failed with exit code 1"]
    ++ ["post grpc://api: context deadline exceeded"] in
  shows_timeout (line_at lines 4) = true /\ lines_show_registry_timeout lines = false.
Proof.
  intros lines. split; [vm_compute; reflexivity|].
  refine (denied_pull_reported _ _ _ _ _ "ghcr.io/org/app:1.2" _ _ _ _ _ _ _);
    try (vm_compute; reflexivity).
  intros e He Hn. cbn in He, Hn. do 5 (destruct e as [|e]; [first [vm_compute; reflexivity|done]|]). lia.
Defined.
