(* ===== verification/MonitorModels.v ===== *)
(** * Wire shapes, actions and state keys of the PR monitor

    [runtime/pr_monitor_models.py] (what the runner assembles after polling the
    forge), [runtime/pr_monitor_actions.py] (what the decision core returns) and
    the keys of [runtime/monitor_state_keys.py] that the decision core reads. *)

From S2P Require Import Prelude PyStr PyTime PyFloat.
#[local] Open Scope Z_scope.

(** ** Forge state *)

Inductive MergeableState : Type := M_MERGEABLE | M_CONFLICTING | M_UNKNOWN.

#[export] Instance MergeableState_eq_dec : EqDecision MergeableState.
Proof. solve_decision. Defined.

Definition mergeable_value (m : MergeableState) : string :=
  match m with
  | M_MERGEABLE => "MERGEABLE"
  | M_CONFLICTING => "CONFLICTING"
  | M_UNKNOWN => "UNKNOWN"
  end.

Inductive MergeStateStatus : Type :=
| CLEAN | BEHIND | DIRTY | BLOCKED | HAS_HOOKS | UNSTABLE | UNKNOWN.

#[export] Instance MergeStateStatus_eq_dec : EqDecision MergeStateStatus.
Proof. solve_decision. Defined.

Definition merge_state_value (m : MergeStateStatus) : string :=
  match m with
  | CLEAN => "CLEAN"
  | BEHIND => "BEHIND"
  | DIRTY => "DIRTY"
  | BLOCKED => "BLOCKED"
  | HAS_HOOKS => "HAS_HOOKS"
  | UNSTABLE => "UNSTABLE"
  | UNKNOWN => "UNKNOWN"
  end.

Inductive CheckState : Type := SUCCESS | FAILURE | PENDING | NEUTRAL.

#[export] Instance CheckState_eq_dec : EqDecision CheckState.
Proof. solve_decision. Defined.

(** ** Review feedback *)

Record ReviewThreadComment : Type := {
  rtc_comment_id : option string;
  rtc_body : string;
  rtc_author : option string;
  rtc_created_at : option datetime;
  rtc_updated_at : option datetime;
  rtc_url : option string;
  rtc_viewer_did_author : bool;
  rtc_review_id : option string
}.

#[export] Instance ReviewThreadComment_eq_dec : EqDecision ReviewThreadComment.
Proof. solve_decision. Defined.

Record ReviewComment : Type := {
  rc_comment_id : string;
  rc_body_excerpt : string;
  rc_author : option string;
  rc_is_resolved : bool;
  rc_blocks_merge : bool;
  rc_body : option string;
  rc_url : option string;
  rc_created_at : option datetime;
  rc_updated_at : option datetime;
  rc_state : option string;
  rc_source_kind : string;
  rc_viewer_did_author : bool
}.

#[export] Instance ReviewComment_eq_dec : EqDecision ReviewComment.
Proof. solve_decision. Defined.

Record ReviewThread : Type := {
  rt_thread_id : string;
  rt_path : option string;
  rt_line : option Z;
  rt_body_excerpt : string;
  rt_author : option string;
  rt_is_resolved : bool;
  rt_comments : list ReviewThreadComment;
  rt_url : option string;
  rt_is_outdated : bool;
  rt_review_context : option ReviewComment
}.

#[export] Instance ReviewThread_eq_dec : EqDecision ReviewThread.
Proof. solve_decision. Defined.

(** ** CI *)

Record CheckFailure : Type := {
  cf_name : string;
  cf_conclusion : string;
  cf_log_excerpt : string;
  cf_run_id : option string;
  cf_failing_commands : list string;
  cf_test_node_ids : list string;
  cf_assertion_snippets : list string;
  cf_error_summaries : list string;
  cf_suggested_repro_commands : list string;
  cf_evidence_warnings : list string
}.

#[export] Instance CheckFailure_eq_dec : EqDecision CheckFailure.
Proof. solve_decision. Defined.

Record CheckFailureLogResult : Type := {
  lr_failures : list CheckFailure;
  lr_runs_in_progress : bool
}.

#[export] Instance CheckFailureLogResult_eq_dec : EqDecision CheckFailureLogResult.
Proof. solve_decision. Defined.

(** [CheckFailureLogResult.__eq__]: against another snapshot, against a tuple
    ([None] is [NotImplemented]). *)
Definition log_result_eq (r r' : CheckFailureLogResult) : bool :=
  eqb (lr_failures r) (lr_failures r') && eqb (lr_runs_in_progress r) (lr_runs_in_progress r').

Definition log_result_eq_tuple (r : CheckFailureLogResult) (t : list CheckFailure) : option bool :=
  match t with
  | [] => Some (eqb (lr_failures r) [] && negb (lr_runs_in_progress r))
  | _ :: _ => None
  end.

(** [__bool__] and [__len__] *)
Definition log_result_bool (r : CheckFailureLogResult) : bool := negb (eqb (lr_failures r) []).
Definition log_result_len (r : CheckFailureLogResult) : nat := length (lr_failures r).

Record CheckTiming : Type := {
  ct_name : string;
  ct_status : option string;
  ct_conclusion : option string;
  ct_started_at : option datetime;
  ct_completed_at : option datetime;
  ct_details_url : option string;
  ct_app_slug : option string;
  ct_app_name : option string;
  ct_creator_login : option string
}.

(** ** The snapshot of a pull request *)

Record PRStatus : Type := {
  ps_number : Z;
  ps_head_sha : string;
  ps_mergeable : MergeableState;
  ps_check_state : CheckState;
  ps_unresolved_inline_threads : list ReviewThread;
  ps_unresolved_review_comments : list ReviewComment;
  ps_base_behind_count : Z;
  ps_head_ref : option string;
  ps_base_ref : option string;
  ps_base_ref_drifted : bool;
  ps_blocking_reviews : list ReviewComment;
  ps_merge_state_status : MergeStateStatus;
  ps_ci_failures : list CheckFailure;
  ps_ci_runs_in_progress : bool;
  ps_checks : list CheckTiming;
  ps_no_checks_observed : bool;
  ps_awaiting_required_checks_grace_active : bool;
  ps_unsynchronized_remote_head_sha : option string;
  ps_pr_head_sync_grace_active : bool;
  ps_changed_paths : list string;
  ps_closed : bool;
  ps_merged : bool;
  ps_merge_commit_sha : option string;
  ps_latest_external_review_activity_at : option datetime;
  ps_latest_external_review_activity_source : option string;
  ps_quiet_period_anchor_at : option datetime;
  ps_quiet_period_anchor_source : option string;
  ps_outdated_unresolved_inline_threads : list ReviewThread
}.

(** ** Operator hints *)

Inductive HintStatus : Type := hint_pending | hint_needs_human | hint_agent_failed.

#[export] Instance HintStatus_eq_dec : EqDecision HintStatus.
Proof. solve_decision. Defined.

Record OperatorHint : Type := {
  oh_reason : string;
  oh_directive : option string;
  oh_operation_id : option string;
  oh_requested_at : option string;
  oh_reason_code : string;
  oh_status : HintStatus;
  oh_status_reason : option string
}.

#[export] Instance OperatorHint_eq_dec : EqDecision OperatorHint.
Proof. solve_decision. Defined.

Definition control_label (h : OperatorHint) : string :=
  if negb (eqb (oh_directive h) None) || eqb (oh_reason_code h) "OPERATOR_GUIDE"
  then "operator guide hint"
  else "operator remonitor hint".

(** ** Actions *)

Inductive AbortReason : Type :=
| pr_closed_externally | no_progress_on_comments | merge_conflict_unresolvable
| merge_conflict_not_reproduced | base_sync_no_progress | stale.

#[export] Instance AbortReason_eq_dec : EqDecision AbortReason.
Proof. solve_decision. Defined.

Inductive WaitReason : Type :=
| pending_checks | unknown_mergeable_state | awaiting_required_checks
| ci_run_in_progress | pr_head_not_synchronized.

#[export] Instance WaitReason_eq_dec : EqDecision WaitReason.
Proof. solve_decision. Defined.

Inductive MonitorAction : Type :=
| AddressComments (threads : list ReviewThread) (review_comments : list ReviewComment)
| AddressOperatorHint (hint : OperatorHint)
| ReportCiFailure (failures : list CheckFailure)
| RerunTransientCI (failures : list CheckFailure)
| WaitForTransientCI (failures : list CheckFailure) (wait_seconds : float) (wait_count : Z)
| SyncBase
| WaitForCI (reason : WaitReason)
| Merge
| NotifyHuman (message reason_code : option string)
| ShortCircuitCompleted
| Abort_ (reason : AbortReason).

Definition PR_HEAD_NOT_SYNCHRONIZED_REASON : string := "PR_HEAD_NOT_SYNCHRONIZED".

Definition PR_HEAD_SYNC_REMEDY : string :=
  "GitHub usually re-synchronizes on a new push, or on closing and reopening the PR".

(** An optional value interpolated by an f-string. *)
Definition show_opt (o : option string) : string := default "None" o.

Definition pr_head_not_synchronized_message (status : PRStatus) : string :=
  PR_HEAD_NOT_SYNCHRONIZED_REASON +:+ ": the PR head branch is at "
  +:+ show_opt (ps_unsynchronized_remote_head_sha status)
  +:+ ", the commit AWF pushed, but PR #" +:+ py_str (ps_number status)
  +:+ " still reports head " +:+ ps_head_sha status
  +:+ ". AWF will not close, reopen, or push to the PR to nudge it. "
  +:+ PR_HEAD_SYNC_REMEDY
  +:+ "; if you close it, reopen it right away, because AWF stops monitoring a PR it finds closed.".

Definition BOT_REVIEWER_LOGINS : list string :=
  ["greptile-apps"; "coderabbitai"; "gemini-code-assist"; "chatgpt-codex-connector";
   "cursor"; "codex"; "github-actions"].

Definition is_bot_author (login : option string) : bool :=
  match login with
  | None => false
  | Some l => negb (eqb l "") && (mem l BOT_REVIEWER_LOGINS || ends_with "[bot]" l)
  end.

(** ** State keys *)

Definition merge_method_blocked_key (pr_number : Z) (head_sha : string) : string :=
  "__awf_merge_method_blocked__:" +:+ py_str pr_number +:+ ":" +:+ head_sha.

Definition outdated_resolve_requeued_key (thread_id : string) : string :=
  "__awf_outdated_resolve_requeued__:" +:+ thread_id.

Definition operator_decision_key (thread_id : string) : string :=
  "__operator_decision__:" +:+ thread_id.

Definition retired_operator_decision_key (thread_id : string) : string :=
  "__operator_decision_retired__:" +:+ thread_id.

Definition review_thread_body_state_key (thread_id : string) : string :=
  "__review_thread_body_hash__:" +:+ thread_id.

Definition PROTECTED_BLOCK_PRESERVED_HEAD_STATE_KEY : string :=
  "__awf_protected_block_preserved_head__".
Definition AWAITING_WORKFLOW_SCOPE_STATE_KEY : string := "__awf_awaiting_workflow_scope__".
Definition PARKED_UNPUBLISHED_REPAIR_STATE_KEY : string := "__awf_parked_unpublished_repair__".
Definition MERGE_BLOCK_ATTENTION_STATE_KEY : string := "__awf_merge_block_attention__".
Definition MERGE_BLOCK_ATTENTION_ORIGIN_STATE_KEY : string :=
  "__awf_merge_block_attention_origin__".
Definition MERGE_BLOCK_ATTENTION_ORIGIN_MERGE_REJECTION : string := "merge_rejection".

(** A forge identifier that is not one of the monitor's reserved keys. *)
Definition forge_id (id : string) : bool := negb (starts_with "__" id).

Lemma forge_id_ne (id p s : string) :
  forge_id id = true -> starts_with "__" p = true -> id <> p +:+ s.
Proof.
  unfold forge_id. intros Hf Hp ->. apply negb_true_iff in Hf.
  rewrite (starts_with_trans _ p) in Hf; [done | done | apply starts_with_app].
Qed.

Lemma key_ne (p q a b : string) :
  starts_with p q = false -> starts_with q p = false -> p +:+ a <> q +:+ b.
Proof.
  intros Hpq Hqp He. pose proof (starts_with_app p a) as H1.
  pose proof (starts_with_app q b) as H2. rewrite <- He in H2.
  destruct (prefixes_comparable p q (p +:+ a) H1 H2); congruence.
Qed.
