(* ===== verification/FeedbackPolicy.v ===== *)
(** * Feedback policy: verdicts, conversation hashes, the canonical view

    [runtime/feedback_policy.py].  A review thread's verdict and the hash of
    the conversation it was recorded for live in the monitor's state map; the
    predicates below decide whether the thread is fed to the agent again, and
    [canonical_unresolved_inline_threads] merges the two feeds of the forge into
    the one list the merge gates use. *)

From S2P Require Import Prelude PyStr PyTime Json Sha256 MonitorModels.
#[local] Open Scope Z_scope.

Notation "'state_map'" := (gmap string string).

(** ** Verdict taxonomy *)

Definition CLOSED_OUTDATED_THREAD_VERDICTS : list string := ["false_positive"; "fix_committed"].

Definition REQUEUE_ON_BODY_CHANGE_VERDICTS : list string :=
  CLOSED_OUTDATED_THREAD_VERDICTS ++ ["defer"; "needs_human"].

Definition RESOLVABLE_THREAD_VERDICTS : list string := ["defer"; "false_positive"; "fix_committed"].

(** [verdict in {...}] for a verdict that may be missing. *)
Definition verdict_in (v : option string) (l : list string) : bool :=
  match v with Some s => mem s l | None => false end.

Definition needs_comment_attention (verdict : option string) : bool :=
  eqb verdict None || eqb verdict (Some "agent_failed").

(** ** Conversation bodies and their hashes *)

Definition json_opt (o : option string) : json :=
  match o with Some s => JStr s | None => JNull end.

Definition row (author : option string) (body : string) : json :=
  JObj [("author", json_opt author); ("body", JStr body)].

Definition legacy_row (author : option string) (body : string)
    (comment_id created_at : option string) : json :=
  JObj [("author", json_opt author); ("body", JStr body);
        ("comment_id", json_opt comment_id); ("created_at", json_opt created_at)].

Definition review_thread_resolution_body (thread : ReviewThread) : string :=
  dumps (sort_keys (JArr (
    match rt_comments thread with
    | [] => [row (rt_author thread) (rt_body_excerpt thread)]
    | _ :: _ => map (fun c => row (rtc_author c) (rtc_body c)) (rt_comments thread)
    end))).

Definition legacy_review_thread_resolution_body (thread : ReviewThread) : string :=
  dumps (sort_keys (JArr (
    match rt_comments thread with
    | [] => [legacy_row (rt_author thread) (rt_body_excerpt thread) None None]
    | _ :: _ =>
        map (fun c => legacy_row (rtc_author c) (rtc_body c) (rtc_comment_id c)
                        (option_map isoformat (rtc_created_at c)))
          (rt_comments thread)
    end))).

Definition legacy_fallback_review_thread_resolution_body (thread : ReviewThread) : string :=
  dumps (sort_keys (JArr (
    match rt_comments thread with
    | [] => [legacy_row (rt_author thread) (rt_body_excerpt thread) None None]
    | _ :: _ =>
        map (fun c => legacy_row (rtc_author c) (rtc_body c) None None) (rt_comments thread)
    end))).

Definition review_thread_body_hash (thread : ReviewThread) : string :=
  sha256_hex (review_thread_resolution_body thread).

Definition legacy_review_thread_body_hash (thread : ReviewThread) : string :=
  sha256_hex (legacy_review_thread_resolution_body thread).

Definition legacy_fallback_review_thread_body_hash (thread : ReviewThread) : string :=
  sha256_hex (legacy_fallback_review_thread_resolution_body thread).

Definition review_thread_body_hashes (thread : ReviewThread) : list string :=
  [review_thread_body_hash thread; legacy_review_thread_body_hash thread;
   legacy_fallback_review_thread_body_hash thread].

Definition recorded_review_thread_body_matches (recorded : option string)
    (thread : ReviewThread) : bool :=
  match recorded with
  | None => false
  | Some r => mem r (review_thread_body_hashes thread)
  end.

#[global] Arguments recorded_review_thread_body_matches : simpl never.

(** ** Which threads still need work *)

Definition recorded_body (sm : state_map) (thread : ReviewThread) : option string :=
  sm !! review_thread_body_state_key (rt_thread_id thread).

Definition body_matches_recorded (sm : state_map) (thread : ReviewThread) : bool :=
  recorded_review_thread_body_matches (recorded_body sm thread) thread.

Definition thread_needs_attention (sm : state_map) (thread : ReviewThread) : bool :=
  if needs_comment_attention (sm !! rt_thread_id thread) then true
  else negb (recorded_review_thread_body_matches (recorded_body sm thread) thread).

Definition thread_enters_address_comments (sm : state_map) (thread : ReviewThread) : bool :=
  let verdict := sm !! rt_thread_id thread in
  if needs_comment_attention verdict then true
  else if negb (verdict_in verdict REQUEUE_ON_BODY_CHANGE_VERDICTS) then false
  else match recorded_body sm thread with
       | None => false
       | Some r => negb (recorded_review_thread_body_matches (Some r) thread)
       end.

Definition thread_resolution_pending (sm : state_map) (thread : ReviewThread) : bool :=
  if negb (verdict_in (sm !! rt_thread_id thread) RESOLVABLE_THREAD_VERDICTS) then false
  else recorded_review_thread_body_matches (recorded_body sm thread) thread.

Definition outdated_thread_has_fresh_feedback (sm : state_map) (thread : ReviewThread) : bool :=
  if negb (verdict_in (sm !! rt_thread_id thread) CLOSED_OUTDATED_THREAD_VERDICTS) then false
  else thread_needs_attention sm thread.

(** ** Same-id transport copies *)

Definition FRESHNESS_EPOCH : Z := 0.

(** The instants of every comment's [created_at] and [updated_at]; a naive
    stamp is read as UTC. *)
Definition comment_stamps (thread : ReviewThread) : list Z :=
  flat_map (fun c => map instant (omap id [rtc_created_at c; rtc_updated_at c]))
    (rt_comments thread).

(** [max(stamps, default=d)] *)
Definition max_default (d : Z) (l : list Z) : Z :=
  match l with [] => d | x :: l' => fold_left Z.max l' x end.

Definition review_thread_conversation_rank (thread : ReviewThread) : Z * Z :=
  match rt_comments thread with
  | [] => (1, FRESHNESS_EPOCH)
  | _ :: _ =>
      (Z.of_nat (length (rt_comments thread)), max_default FRESHNESS_EPOCH (comment_stamps thread))
  end.

(** Python's order on the rank tuples. *)
Definition rank_ltb (a b : Z * Z) : bool :=
  (a.1 <? b.1) || ((a.1 =? b.1) && (a.2 <? b.2)).

Definition prefer_duplicate_review_thread (sm : option state_map)
    (existing candidate : ReviewThread) : ReviewThread :=
  let exist_rank := review_thread_conversation_rank existing in
  let cand_rank := review_thread_conversation_rank candidate in
  if rank_ltb exist_rank cand_rank then candidate
  else if rank_ltb cand_rank exist_rank then existing
  else
    let exist_match := match sm with Some m => body_matches_recorded m existing | None => false end in
    let cand_match := match sm with Some m => body_matches_recorded m candidate | None => false end in
    if exist_match && negb cand_match then existing
    else if cand_match && negb exist_match then candidate
    else if negb (eqb (review_thread_body_hash candidate) (review_thread_body_hash existing))
    then candidate
    else existing.

(** No copy at all raises [ValueError]: [None]. *)
Definition preferred_duplicate_review_thread (copies : list ReviewThread)
    (sm : option state_map) : option ReviewThread :=
  match copies with
  | [] => None
  | c :: cs => Some (fold_left (prefer_duplicate_review_thread sm) cs c)
  end.

(** ** The canonical view *)

(** The locals of [canonical_unresolved_inline_threads]. *)
Record view : Type := {
  v_index : gmap string nat;
  v_active : gset string;
  v_combined : list ReviewThread
}.

Definition empty_view : view := {| v_index := ∅; v_active := ∅; v_combined := [] |}.

(** [_consider] *)
Definition consider (sm : option state_map) (from_active : bool) (v : view)
    (thread : ReviewThread) : view :=
  let tid := rt_thread_id thread in
  match v_index v !! tid with
  | None =>
      {| v_index := <[tid := length (v_combined v)]> (v_index v);
         v_active := if from_active then {[tid]} ∪ v_active v else v_active v;
         v_combined := v_combined v ++ [thread] |}
  | Some i =>
      if negb from_active && bool_decide (tid ∈ v_active v) then v
      else match v_combined v !! i with
           | Some existing =>
               {| v_index := v_index v;
                  v_active := v_active v;
                  v_combined :=
                    <[i := prefer_duplicate_review_thread sm existing thread]> (v_combined v) |}
           | None => v
           end
  end.

Definition canonical_unresolved_inline_threads (active outdated : list ReviewThread)
    (sm : option state_map) : list ReviewThread :=
  v_combined (fold_left (consider sm false) outdated
                (fold_left (consider sm true) active empty_view)).

Definition thread_ids (l : list ReviewThread) : list string := map rt_thread_id l.

Definition unresolved_active_count (active : list ReviewThread) : nat :=
  size (list_to_set (thread_ids active) : gset string).

Definition unresolved_outdated_unique_count (active outdated : list ReviewThread) : nat :=
  size ((list_to_set (thread_ids outdated) : gset string) ∖ list_to_set (thread_ids active)).

Definition unresolved_canonical_count (active outdated : list ReviewThread) : nat :=
  length (canonical_unresolved_inline_threads active outdated None).

Definition unresolved_thread_counts (active outdated : list ReviewThread) : nat * nat * nat :=
  (unresolved_canonical_count active outdated, unresolved_active_count active,
   unresolved_outdated_unique_count active outdated).

(** ** Lemmas: choosing among copies *)

Lemma prefer_cases (sm : option state_map) (e c : ReviewThread) :
  prefer_duplicate_review_thread sm e c = e \/ prefer_duplicate_review_thread sm e c = c.
Proof. unfold prefer_duplicate_review_thread. repeat case_goal; auto. Qed.

Lemma prefer_id (sm : option state_map) (e c : ReviewThread) :
  rt_thread_id e = rt_thread_id c ->
  rt_thread_id (prefer_duplicate_review_thread sm e c) = rt_thread_id c.
Proof. destruct (prefer_cases sm e c) as [-> | ->]; auto. Qed.

Definition rank_le (a b : Z * Z) : Prop := rank_ltb b a = false.

Lemma rank_le_spec (a b : Z * Z) : rank_le a b <-> a.1 < b.1 \/ (a.1 = b.1 /\ a.2 <= b.2).
Proof. unfold rank_le, rank_ltb. destruct a, b; simpl. lia. Qed.

#[export] Instance rank_le_preorder : PreOrder rank_le.
Proof. split; [intros a | intros a b c]; rewrite !rank_le_spec; lia. Qed.

Lemma prefer_rank (sm : option state_map) (e c : ReviewThread) :
  let r := prefer_duplicate_review_thread sm e c in
  rank_le (review_thread_conversation_rank e) (review_thread_conversation_rank r) /\
  rank_le (review_thread_conversation_rank c) (review_thread_conversation_rank r).
Proof.
  unfold prefer_duplicate_review_thread. simpl. repeat case_goal;
    repeat match goal with
    | H : context [rank_ltb ?a ?b] |- _ => progress fold (rank_le b a) in H
    end; rewrite ?rank_le_spec in *; unfold rank_ltb in *; simpl in *; lia.
Qed.

(** Between copies of equal rank a match of the recorded body is never lost. *)
Lemma prefer_match (m : state_map) (e c : ReviewThread) :
  let r := prefer_duplicate_review_thread (Some m) e c in
  (body_matches_recorded m e = true /\
     rank_le (review_thread_conversation_rank c) (review_thread_conversation_rank e) \/
   body_matches_recorded m c = true /\
     rank_le (review_thread_conversation_rank e) (review_thread_conversation_rank c)) ->
  body_matches_recorded m r = true.
Proof.
  unfold prefer_duplicate_review_thread, rank_le. simpl.
  intros [[Hm Hr] | [Hm Hr]]; rewrite ?Hr, ?Hm; simpl; repeat case_goal; bool_simpl; congruence.
Qed.

(** The fold over the copies keeps any property that [prefer] keeps. *)
Lemma preferred_ind (sm : option state_map) (P : list ReviewThread -> ReviewThread -> Prop)
    (copies : list ReviewThread) (t : ReviewThread) :
  (forall c, P [c] c) ->
  (forall l r c, P l r -> P (l ++ [c]) (prefer_duplicate_review_thread sm r c)) ->
  preferred_duplicate_review_thread copies sm = Some t -> P copies t.
Proof.
  intros H1 Hs. destruct copies as [|c cs]; [done|]. intros [= <-].
  induction cs as [|x cs IH] using rev_ind; [apply H1|].
  rewrite fold_left_app. simpl. apply (Hs (c :: cs)), IH.
Qed.

Lemma preferred_snoc (sm : option state_map) (l : list ReviewThread) (c : ReviewThread) :
  preferred_duplicate_review_thread (l ++ [c]) sm =
  Some match preferred_duplicate_review_thread l sm with
       | None => c
       | Some r => prefer_duplicate_review_thread sm r c
       end.
Proof. destruct l as [|x l]; simpl; [done|]. by rewrite fold_left_app. Qed.

(** ** Lemmas: the canonical view *)

Definition copies_of (id : string) (feed : list ReviewThread) : list ReviewThread :=
  List.filter (fun t => eqb (rt_thread_id t) id) feed.

(** The feed that owns an id: the active one whenever the id occurs there. *)
Definition owning_copies (active outdated : list ReviewThread) (id : string)
  : list ReviewThread :=
  match copies_of id active with [] => copies_of id outdated | l => l end.

Lemma elem_of_copies_of (id : string) (l : list ReviewThread) (t : ReviewThread) :
  t ∈ copies_of id l <-> rt_thread_id t = id /\ t ∈ l.
Proof. unfold copies_of. by rewrite elem_of_bfilter, eqb_true. Qed.

Lemma copies_of_snoc (id : string) (l : list ReviewThread) (t : ReviewThread) :
  copies_of id (l ++ [t]) =
  if decide (rt_thread_id t = id) then copies_of id l ++ [t] else copies_of id l.
Proof.
  unfold copies_of, eqb. rewrite List.filter_app. simpl.
  case_decide as E; [rewrite bool_decide_true by done | rewrite bool_decide_false by done];
    by rewrite ?app_nil_r.
Qed.

Lemma copies_of_nil (id : string) (l : list ReviewThread) :
  copies_of id l = [] <-> id ∉ thread_ids l.
Proof.
  unfold copies_of, thread_ids. rewrite bfilter_nil, list_elem_of_fmap. setoid_rewrite eqb_false.
  naive_solver.
Qed.

Lemma fromkeys_snoc {A : Type} `{EqDecision A} (l : list A) (x : A) :
  fromkeys (l ++ [x]) = if decide (x ∈ l) then fromkeys l else fromkeys l ++ [x].
Proof.
  induction l as [|y l IH]; simpl; [done|]. rewrite IH.
  destruct (decide (x ∈ l)) as [Hx|Hx].
  - by rewrite decide_True by (by right).
  - rewrite List.filter_app. simpl. destruct (decide (x = y)) as [->|Hne].
    + rewrite decide_True by left. by rewrite eqb_refl, app_nil_r.
    + rewrite decide_False by (rewrite elem_of_cons; naive_solver).
      by rewrite (proj2 (eqb_false y x)).
Qed.

(** The view holds, for each of [ids] in order, the copy [P] gives it, and the
    index is exactly the positions of [ids]. *)
Record repr (v : view) (ids : list string) (P : string -> option ReviewThread) : Prop := {
  r_index : forall k i, v_index v !! k = Some i <-> ids !! i = Some k;
  r_elems : Forall2 (fun k t => P k = Some t) ids (v_combined v)
}.

Lemma repr_ext (v : view) (ids : list string) (P Q : string -> option ReviewThread) :
  repr v ids P -> (forall k, k ∈ ids -> P k = Q k) -> repr v ids Q.
Proof.
  intros [Hi He] HPQ. split; [done|]. apply Forall2_same_length_lookup in He as [Hl He].
  apply Forall2_same_length_lookup. split; [done|]. intros i k t Hk Ht.
  rewrite <- HPQ by (by eapply list_elem_of_lookup_2). eauto.
Qed.

Lemma repr_lookup (v : view) (ids : list string) (P : string -> option ReviewThread) i k :
  repr v ids P -> ids !! i = Some k -> exists t, v_combined v !! i = Some t /\ P k = Some t.
Proof.
  intros [_ He] Hk. destruct (Forall2_lookup_l _ _ _ _ _ He Hk) as (t & ? & ?). eauto.
Qed.

Lemma repr_new (sm : option state_map) (fa : bool) (v : view) (ids : list string)
    (P Q : string -> option ReviewThread) (t : ReviewThread) :
  repr v ids P -> rt_thread_id t ∉ ids ->
  (forall k, k ∈ ids -> P k = Q k) -> Q (rt_thread_id t) = Some t ->
  repr (consider sm fa v t) (ids ++ [rt_thread_id t]) Q.
Proof.
  intros Hr Hn HPQ HQ. pose proof (repr_ext _ _ _ Q Hr HPQ) as [_ He].
  destruct Hr as [Hi _]. unfold consider.
  destruct (v_index v !! rt_thread_id t) as [i|] eqn:E.
  { apply Hi, list_elem_of_lookup_2 in E. done. }
  split; simpl.
  - intros k i. rewrite lookup_insert_Some, lookup_snoc_Some, Hi, (Forall2_length _ _ _ He).
    split; [intros [[<- <-]|[Hne Hk]]; [by right|] | intros [[Hlt Hk]|[-> ->]]; [right|by left]].
    + left. split; [|done]. apply lookup_lt_Some in Hk. by rewrite (Forall2_length _ _ _ He) in Hk.
    + split; [|done]. intros <-. by apply list_elem_of_lookup_2 in Hk.
  - apply Forall2_app; [done|]. by constructor.
Qed.

Lemma repr_old (sm : option state_map) (fa : bool) (v : view) (ids : list string)
    (P : string -> option ReviewThread) (t e : ReviewThread) :
  repr v ids P -> NoDup ids -> P (rt_thread_id t) = Some e -> rt_thread_id t ∈ ids ->
  (fa = true \/ rt_thread_id t ∉ v_active v) ->
  repr (consider sm fa v t) ids
    (fun k => if decide (k = rt_thread_id t)
              then Some (prefer_duplicate_review_thread sm e t) else P k).
Proof.
  intros Hr Hnd HP Hin Ha. apply list_elem_of_lookup in Hin as [i Hk].
  destruct (repr_lookup _ _ _ _ _ Hr Hk) as (e' & Hc & HP'). assert (e' = e) as -> by congruence.
  destruct Hr as [Hi He]. unfold consider. rewrite (proj2 (Hi _ _) Hk).
  replace (negb fa && bool_decide (rt_thread_id t ∈ v_active v)) with false
    by (destruct Ha as [-> | Ha]; [done | by rewrite (bool_decide_false _ Ha), andb_false_r]).
  rewrite Hc. split; simpl; [done|]. apply Forall2_same_length_lookup in He as [Hl He].
  apply Forall2_same_length_lookup. split; [by rewrite length_insert|].
  intros j k u Hj Hu. case_decide as Ek.
  - subst k. assert (i = j) as <- by (eapply NoDup_lookup; eauto).
    rewrite list_lookup_insert_eq in Hu by (by eapply lookup_lt_Some). congruence.
  - rewrite list_lookup_insert_ne in Hu by (intros <-; congruence). eauto.
Qed.

Lemma ids_snoc (l : list ReviewThread) (t : ReviewThread) :
  thread_ids (l ++ [t]) = thread_ids l ++ [rt_thread_id t].
Proof. unfold thread_ids. by rewrite map_app. Qed.

Lemma copies_in (id : string) (l : list ReviewThread) (sm : option state_map) :
  id ∈ thread_ids l -> exists e, preferred_duplicate_review_thread (copies_of id l) sm = Some e.
Proof.
  intros Hin. destruct (copies_of id l) eqn:E; [by apply copies_of_nil in E | simpl; eauto].
Qed.

Lemma list_to_set_snoc (l : list string) (x : string) :
  (list_to_set (l ++ [x]) : gset string) = {[x]} ∪ list_to_set l.
Proof. rewrite list_to_set_app_L. simpl. by rewrite (right_id_L ∅ (∪)), (comm_L (∪)). Qed.

Lemma consider_active (sm : option state_map) (v : view) (t : ReviewThread) :
  v_active (consider sm true v t) =
  match v_index v !! rt_thread_id t with
  | None => {[rt_thread_id t]} ∪ v_active v
  | Some _ => v_active v
  end.
Proof. unfold consider. destruct (v_index v !! _) as [i|]; [|done]. by destruct (_ !! i). Qed.

Lemma active_phase (sm : option state_map) (l : list ReviewThread) :
  let v := fold_left (consider sm true) l empty_view in
  repr v (fromkeys (thread_ids l))
    (fun k => preferred_duplicate_review_thread (copies_of k l) sm) /\
  v_active v = list_to_set (thread_ids l).
Proof.
  simpl. induction l as [|t l [IHr IHa]] using rev_ind.
  { split; [split; simpl; [|constructor]; intros; by rewrite lookup_empty | done]. }
  rewrite fold_left_app, ids_snoc, fromkeys_snoc. simpl. split.
  - case_decide as Hin.
    + destruct (copies_in _ _ sm Hin) as [e He].
      eapply repr_ext; [eapply repr_old; eauto using NoDup_fromkeys; by apply elem_of_fromkeys|].
      intros k _. simpl. rewrite copies_of_snoc.
      repeat case_decide; subst; try congruence. by rewrite preferred_snoc, He.
    + eapply repr_new; [exact IHr | by rewrite elem_of_fromkeys | |].
      * intros k Hk. simpl. rewrite copies_of_snoc, decide_False; [done|].
        intros <-. by rewrite elem_of_fromkeys in Hk.
      * simpl. rewrite copies_of_snoc, decide_True by done.
        by rewrite (proj2 (copies_of_nil _ _) Hin).
  - rewrite list_to_set_snoc, <- IHa, consider_active.
    destruct (v_index _ !! _) as [i|] eqn:E; [|done].
    apply IHr, list_elem_of_lookup_2 in E. rewrite elem_of_fromkeys in E.
    rewrite (subseteq_union_1_L {[rt_thread_id t]}); [done|].
    rewrite IHa. by apply singleton_subseteq_l, elem_of_list_to_set.
Qed.

Lemma consider_outdated_active (sm : option state_map) (v : view) (t : ReviewThread) :
  v_active (consider sm false v t) = v_active v.
Proof.
  unfold consider. destruct (v_index v !! _) as [i|]; [|done]. simpl.
  by destruct (bool_decide _), (v_combined v !! i).
Qed.

Lemma owning_copies_active (active l : list ReviewThread) (k : string) :
  k ∈ thread_ids active -> owning_copies active l k = copies_of k active.
Proof.
  intros Hk. unfold owning_copies. destruct (copies_of k active) eqn:E; [|done].
  by apply copies_of_nil in E.
Qed.

Lemma owning_copies_outdated (active l : list ReviewThread) (k : string) :
  k ∉ thread_ids active -> owning_copies active l k = copies_of k l.
Proof. intros Hk. unfold owning_copies. by rewrite (proj2 (copies_of_nil _ _) Hk). Qed.

Lemma consider_skip (sm : option state_map) (v : view) (ids : list string) (t : ReviewThread) :
  (forall k i, v_index v !! k = Some i <-> ids !! i = Some k) ->
  rt_thread_id t ∈ ids -> rt_thread_id t ∈ v_active v -> consider sm false v t = v.
Proof.
  intros Hi [i Hk]%list_elem_of_lookup Ha. unfold consider. rewrite (proj2 (Hi _ _) Hk).
  by rewrite bool_decide_true.
Qed.

Lemma outdated_phase (sm : option state_map) (active l : list ReviewThread) :
  let v := fold_left (consider sm false) l (fold_left (consider sm true) active empty_view) in
  repr v (fromkeys (thread_ids active ++ thread_ids l))
    (fun k => preferred_duplicate_review_thread (owning_copies active l k) sm) /\
  v_active v = list_to_set (thread_ids active).
Proof.
  simpl. destruct (active_phase sm active) as [Hr Ha].
  induction l as [|t l [IHr IHa]] using rev_ind.
  { rewrite app_nil_r. split; [|done]. eapply repr_ext; [exact Hr|]. intros k Hk.
    rewrite elem_of_fromkeys in Hk. simpl. by rewrite owning_copies_active. }
  rewrite fold_left_app, ids_snoc, app_assoc, fromkeys_snoc. simpl.
  split; [|by rewrite consider_outdated_active].
  assert (Hk : forall k, (k ∈ thread_ids active \/ rt_thread_id t <> k) ->
    owning_copies active (l ++ [t]) k = owning_copies active l k).
  { intros k Hk. destruct (decide (k ∈ thread_ids active)).
    - by rewrite !owning_copies_active.
    - rewrite !owning_copies_outdated, copies_of_snoc, decide_False by tauto. done. }
  destruct (decide (rt_thread_id t ∈ thread_ids active)) as [Hact|Hact].
  { rewrite decide_True by (apply elem_of_app; by left).
    rewrite consider_skip with (ids := fromkeys (thread_ids active ++ thread_ids l)).
    - eapply repr_ext; [exact IHr|]. intros k _. simpl. rewrite Hk; [done|].
      destruct (decide (rt_thread_id t = k)) as [<-|]; auto.
    - apply IHr.
    - apply elem_of_fromkeys, elem_of_app. by left.
    - rewrite IHa. by apply elem_of_list_to_set. }
  case_decide as Hin.
  - apply elem_of_app in Hin as [Hin|Hin]; [done|].
    destruct (copies_in _ _ sm Hin) as [e He].
    eapply repr_ext; [eapply repr_old with (e := e)|]; eauto using NoDup_fromkeys.
    + simpl. by rewrite owning_copies_outdated.
    + apply elem_of_fromkeys, elem_of_app. by right.
    + right. rewrite IHa. by rewrite elem_of_list_to_set.
    + intros k _. simpl. case_decide as E; [subst k|by rewrite Hk by auto].
      by rewrite owning_copies_outdated, copies_of_snoc, decide_True, preferred_snoc, He by done.
  - eapply repr_new; [exact IHr | by rewrite elem_of_fromkeys | |].
    + intros k Hin'. simpl. rewrite Hk; [done|]. right. intros <-.
      by rewrite elem_of_fromkeys in Hin'.
    + simpl. rewrite owning_copies_outdated, copies_of_snoc, decide_True by done.
      rewrite (proj2 (copies_of_nil _ _)); [done|]. intros Hin'. apply Hin, elem_of_app. by right.
Qed.

Lemma canonical_repr (active outdated : list ReviewThread) (sm : option state_map) :
  Forall2 (fun k t => preferred_duplicate_review_thread (owning_copies active outdated k) sm = Some t)
    (fromkeys (thread_ids active ++ thread_ids outdated))
    (canonical_unresolved_inline_threads active outdated sm).
Proof. apply outdated_phase. Qed.

Lemma owning_copies_id (active outdated : list ReviewThread) (k : string) (t : ReviewThread) :
  t ∈ owning_copies active outdated k -> rt_thread_id t = k.
Proof.
  unfold owning_copies. destruct (copies_of k active) eqn:E; [|rewrite <- E];
    rewrite elem_of_copies_of; tauto.
Qed.

Lemma preferred_in (copies : list ReviewThread) (sm : option state_map) (t : ReviewThread) :
  preferred_duplicate_review_thread copies sm = Some t -> t ∈ copies.
Proof.
  apply (preferred_ind sm (fun l r => r ∈ l)); [intros c; by left|].
  intros l r c Hr. destruct (prefer_cases sm r c) as [-> | ->]; apply elem_of_app; [by left|right; by left].
Qed.

Lemma canonical_elem (active outdated : list ReviewThread) (sm : option state_map) (t : ReviewThread) :
  t ∈ canonical_unresolved_inline_threads active outdated sm <->
  preferred_duplicate_review_thread (owning_copies active outdated (rt_thread_id t)) sm = Some t.
Proof.
  pose proof (canonical_repr active outdated sm) as Hc. split.
  - intros [i Hi]%list_elem_of_lookup. destruct (Forall2_lookup_r _ _ _ _ _ Hc Hi) as (k & _ & Hk).
    assert (rt_thread_id t = k) as -> by eauto using preferred_in, owning_copies_id. done.
  - intros Ht. assert (Hin : rt_thread_id t ∈ thread_ids active ++ thread_ids outdated).
    { destruct (decide (rt_thread_id t ∈ thread_ids active)); [apply elem_of_app; by left|].
      apply elem_of_app. right. rewrite owning_copies_outdated in Ht by done.
      destruct (decide (rt_thread_id t ∈ thread_ids outdated)); [done|].
      by rewrite (proj2 (copies_of_nil _ _)) in Ht. }
    apply elem_of_fromkeys, list_elem_of_lookup in Hin as [i Hi].
    destruct (Forall2_lookup_l _ _ _ _ _ Hc Hi) as (u & Hu & Heq).
    assert (u = t) as -> by congruence. by eapply list_elem_of_lookup_2.
Qed.

Lemma canonical_ids (active outdated : list ReviewThread) (sm : option state_map) :
  thread_ids (canonical_unresolved_inline_threads active outdated sm) =
  fromkeys (thread_ids active ++ thread_ids outdated).
Proof.
  unfold thread_ids at 1. symmetry.
  apply list_eq_Forall2, Forall2_fmap_r. eapply Forall2_impl; [apply canonical_repr|].
  intros k t Ht. symmetry. exact (owning_copies_id _ _ _ _ (preferred_in _ _ _ Ht)).
Qed.

(** ** Lemmas: conversations *)

(** What the body hash covers: authors and bodies, in order. *)
Definition conversation (t : ReviewThread) : list (option string * string) :=
  match rt_comments t with
  | [] => [(rt_author t, rt_body_excerpt t)]
  | _ :: _ => map (fun c => (rtc_author c, rtc_body c)) (rt_comments t)
  end.

Lemma json_opt_inj (a b : option string) : json_opt a = json_opt b -> a = b.
Proof. destruct a, b; naive_solver. Qed.

(** The keys of a row are already in order. *)
Lemma sort_keys_row (a : option string) (b : string) : sort_keys (row a b) = row a b.
Proof. by destruct a. Qed.

Lemma sort_keys_legacy_row (a : option string) (b : string) (i d : option string) :
  sort_keys (legacy_row a b i d) = legacy_row a b i d.
Proof. by destruct a, i, d. Qed.

Lemma sort_keys_rows {A : Type} (f : A -> json) (l : list A) :
  (forall x, sort_keys (f x) = f x) -> sort_keys (JArr (map f l)) = JArr (map f l).
Proof. intros H. simpl. f_equal. rewrite map_map. by apply map_ext. Qed.

Lemma resolution_body_rows (t : ReviewThread) :
  review_thread_resolution_body t = dumps (JArr (map (fun p => row p.1 p.2) (conversation t))).
Proof.
  unfold review_thread_resolution_body, conversation. f_equal.
  destruct (rt_comments t) as [|c l].
  - apply (sort_keys_rows (fun p => row p.1 p.2) [(_, _)]). intros. apply sort_keys_row.
  - rewrite map_map. simpl map at 2.
    apply (sort_keys_rows (fun c => row (rtc_author c) (rtc_body c)) (c :: l)).
    intros. apply sort_keys_row.
Qed.

Lemma legacy_fallback_rows (t : ReviewThread) :
  legacy_fallback_review_thread_resolution_body t =
  dumps (JArr (map (fun p => legacy_row p.1 p.2 None None) (conversation t))).
Proof.
  unfold legacy_fallback_review_thread_resolution_body, conversation. f_equal.
  destruct (rt_comments t) as [|c l].
  - apply (sort_keys_rows (fun p => legacy_row p.1 p.2 None None) [(_, _)]).
    intros. apply sort_keys_legacy_row.
  - rewrite map_map. simpl map at 2.
    apply (sort_keys_rows (fun c => legacy_row (rtc_author c) (rtc_body c) None None) (c :: l)).
    intros. apply sort_keys_legacy_row.
Qed.

Lemma rows_inj (l l' : list (option string * string)) :
  map (fun p => row p.1 p.2) l = map (fun p => row p.1 p.2) l' -> l = l'.
Proof.
  revert l'. induction l as [|[a b] l IH]; intros [|[a' b'] l'] [=]; auto.
  f_equal; [f_equal; auto using json_opt_inj | auto].
Qed.

Lemma same_conversation_hashes (t u : ReviewThread) :
  conversation t = conversation u ->
  review_thread_body_hash t = review_thread_body_hash u /\
  legacy_fallback_review_thread_body_hash t = legacy_fallback_review_thread_body_hash u.
Proof.
  intros Hc. unfold review_thread_body_hash, legacy_fallback_review_thread_body_hash.
  by rewrite !resolution_body_rows, !legacy_fallback_rows, Hc.
Qed.

Lemma triple_sub {A : Type} (a b c x : A) : x ∈ [a; b; b] -> x ∈ [a; c; b].
Proof. set_solver. Qed.

Lemma recorded_matches_iff (r : option string) (t : ReviewThread) :
  recorded_review_thread_body_matches r t = true <->
  exists s, r = Some s /\ s ∈ review_thread_body_hashes t.
Proof.
  unfold recorded_review_thread_body_matches. destruct r as [s|]; [rewrite mem_true|]; naive_solver.
Qed.

Lemma recorded_matches_current (t : ReviewThread) :
  recorded_review_thread_body_matches (Some (review_thread_body_hash t)) t = true.
Proof. apply recorded_matches_iff. eexists. split; [done|]. by left. Qed.

Lemma canonical_count (active outdated : list ReviewThread) (sm : option state_map) :
  length (canonical_unresolved_inline_threads active outdated sm) =
  size (list_to_set (thread_ids active ++ thread_ids outdated) : gset string).
Proof.
  transitivity (length (thread_ids (canonical_unresolved_inline_threads active outdated sm))).
  { unfold thread_ids. by rewrite length_map. }
  rewrite canonical_ids, <- (size_list_to_set (C := gset string)) by apply NoDup_fromkeys.
  apply set_size_proper. intros x. by rewrite !elem_of_list_to_set, elem_of_fromkeys.
Qed.

Definition best_copy (m : state_map) (copies : list ReviewThread) (t : ReviewThread) : Prop :=
  t ∈ copies /\
  (forall c, c ∈ copies ->
     rank_le (review_thread_conversation_rank c) (review_thread_conversation_rank t)) /\
  (forall c, c ∈ copies -> body_matches_recorded m c = true ->
     rank_le (review_thread_conversation_rank t) (review_thread_conversation_rank c) ->
     body_matches_recorded m t = true).

Lemma preferred_best (m : state_map) (copies : list ReviewThread) (t : ReviewThread) :
  preferred_duplicate_review_thread copies (Some m) = Some t -> best_copy m copies t.
Proof.
  apply (preferred_ind (Some m) (best_copy m)).
  - intros c. split; [by left|]. split; intros x ->%list_elem_of_singleton; done.
  - intros l r c (Hin & Hr & Hm). pose proof (prefer_rank (Some m) r c) as [H1 H2].
    split; [|split].
    + destruct (prefer_cases (Some m) r c) as [-> | ->]; apply elem_of_app; [by left|right; by left].
    + intros x [Hx| ->%list_elem_of_singleton]%elem_of_app; [|done]. etrans; [by apply Hr|done].
    + intros x Hx Hmx Hle. apply prefer_match.
      apply elem_of_app in Hx as [Hx| ->%list_elem_of_singleton]; [left|right].
      * split; [apply (Hm x Hx Hmx); by etrans|]. etrans; [exact H2|]. etrans; [exact Hle|]. by apply Hr.
      * split; [done|]. by etrans.
Qed.

(** ** Properties *)

(** The merge-authoritative view lists every distinct thread id of the two
    feeds exactly once, the active feed's ids first, in first-occurrence order;
    and a thread is in the view exactly when it is the preferred one among the
    copies of its id in the feed that owns the id, which is the active feed
    whenever the id occurs there. *)
Theorem canonical_view_correct (active outdated : list ReviewThread) (sm : option state_map) :
  thread_ids (canonical_unresolved_inline_threads active outdated sm) =
    fromkeys (thread_ids active ++ thread_ids outdated) /\
  NoDup (thread_ids (canonical_unresolved_inline_threads active outdated sm)) /\
  forall t, t ∈ canonical_unresolved_inline_threads active outdated sm <->
    preferred_duplicate_review_thread
      (if mem (rt_thread_id t) (thread_ids active) then copies_of (rt_thread_id t) active
       else copies_of (rt_thread_id t) outdated) sm = Some t.
Proof.
  rewrite canonical_ids. split; [done|]. split; [apply NoDup_fromkeys|].
  intros t. rewrite canonical_elem. destruct (mem _ _) eqn:E.
  - rewrite mem_true in E. by rewrite owning_copies_active.
  - rewrite mem_false in E. by rewrite owning_copies_outdated.
Qed.

(** The copy preferred among same-id transport duplicates is one of them,
    no copy has a richer conversation, and when some copy that is as rich as it
    matches the recorded body hash, so does the preferred one: a repaired thread
    never oscillates back to a stale copy. *)
Theorem preferred_copy_best (m : state_map) (copies : list ReviewThread) (t : ReviewThread) :
  preferred_duplicate_review_thread copies (Some m) = Some t -> best_copy m copies t.
Proof. apply preferred_best. Qed.

Lemma preferred_copy_best_witness :
  let t := {| rt_thread_id := "T1"; rt_path := None; rt_line := None; rt_body_excerpt := "fix";
              rt_author := None; rt_is_resolved := false; rt_comments := []; rt_url := None;
              rt_is_outdated := false; rt_review_context := None |} in
  preferred_duplicate_review_thread [t; t] (Some ∅) = Some t /\ best_copy ∅ [t; t] t.
Proof.
  split; [vm_compute; reflexivity|].
  apply (preferred_copy_best ∅). vm_compute. reflexivity.
Defined.

(** Two threads have the same hashed body exactly when they carry the same
    sequence of authors and bodies, whatever their transport form (a thread
    without a comment list is its one-comment form); and a recorded hash,
    current or of the null-id legacy form, keeps matching in the other form. *)
Theorem resolution_body_conversation (t u : ReviewThread) :
  (review_thread_resolution_body t = review_thread_resolution_body u <->
   conversation t = conversation u) /\
  (conversation t = conversation u -> rt_comments t = [] ->
   forall r, recorded_review_thread_body_matches r t = true ->
             recorded_review_thread_body_matches r u = true).
Proof.
  split.
  - rewrite !resolution_body_rows. split; [|by intros ->].
    intros [= H]%dumps_inj. by apply rows_inj.
  - intros Hc Hn r (s & -> & Hs)%recorded_matches_iff. apply recorded_matches_iff.
    exists s. split; [done|]. destruct (same_conversation_hashes t u Hc) as [E1 E2].
    assert (El : legacy_review_thread_body_hash t = legacy_fallback_review_thread_body_hash t).
    { unfold legacy_review_thread_body_hash, legacy_fallback_review_thread_body_hash,
        legacy_review_thread_resolution_body, legacy_fallback_review_thread_resolution_body.
      by rewrite Hn. }
    unfold review_thread_body_hashes in *. rewrite E1, El, E2 in Hs. by apply triple_sub.
Qed.

(** The operator counters partition the canonical total: every unresolved
    conversation is counted once, as active or as outdated-only. *)
Theorem thread_counts_partition (active outdated : list ReviewThread) (sm : option state_map) :
  length (canonical_unresolved_inline_threads active outdated sm) =
    (unresolved_active_count active + unresolved_outdated_unique_count active outdated)%nat /\
  unresolved_thread_counts active outdated =
    (unresolved_active_count active + unresolved_outdated_unique_count active outdated,
     unresolved_active_count active, unresolved_outdated_unique_count active outdated)%nat.
Proof.
  assert (H : forall sm, length (canonical_unresolved_inline_threads active outdated sm) =
    (unresolved_active_count active + unresolved_outdated_unique_count active outdated)%nat).
  { intros sm'. rewrite canonical_count, list_to_set_app_L.
    unfold unresolved_active_count, unresolved_outdated_unique_count.
    rewrite <- size_union by set_solver. f_equal. apply set_eq. intros x.
    rewrite elem_of_union, elem_of_union, elem_of_difference.
    destruct (decide (x ∈ (list_to_set (thread_ids active) : gset string))); tauto. }
  split; [apply H|]. unfold unresolved_thread_counts, unresolved_canonical_count. by rewrite H.
Qed.

(** The three thread predicates agree: a thread that enters repair needs
    attention and is never waiting for resolution; and a thread that needs
    attention without entering repair carries a real verdict that either is not
    re-triaged on new feedback or has no recorded body to compare with. *)
Theorem feedback_routing (sm : state_map) (t : ReviewThread) :
  (thread_enters_address_comments sm t = true ->
     thread_needs_attention sm t = true /\ thread_resolution_pending sm t = false) /\
  (thread_needs_attention sm t = true -> thread_enters_address_comments sm t = false ->
     exists v, sm !! rt_thread_id t = Some v /\ v <> "agent_failed" /\
       (v ∉ REQUEUE_ON_BODY_CHANGE_VERDICTS \/ recorded_body sm t = None)).
Proof.
  unfold thread_enters_address_comments, thread_needs_attention, thread_resolution_pending.
  destruct (sm !! rt_thread_id t) as [v|] eqn:Ev; simpl; [|by split].
  unfold needs_comment_attention. rewrite (proj2 (eqb_false (Some v) None)) by done. simpl.
  destruct (eqb (Some v) _) eqn:Ea.
  { rewrite eqb_true in Ea. injection Ea as ->. split; [by vm_compute|done]. }
  assert (Hv : v <> "agent_failed") by (intros ->; by rewrite eqb_refl in Ea).
  destruct (mem v REQUEUE_ON_BODY_CHANGE_VERDICTS) eqn:Er; simpl.
  - destruct (recorded_body sm t) as [r|] eqn:Eb.
    2: { split; simpl; [done|]. intros _ _. exists v. auto. }
    destruct (recorded_review_thread_body_matches _ t); simpl; [by split|].
    split; [|done]. intros _. split; [done|]. by destruct (mem v RESOLVABLE_THREAD_VERDICTS).
  - split; [done|]. intros _ _. exists v. rewrite mem_false in Er. auto.
Qed.
