(* ===== verification/CiClass.v ===== *)
(** * Classification of CI failures

    [runtime/pr_monitor_ci_classification.py].  Whether a failing check carries
    evidence of a code defect, whether it looks like an infrastructure flake and
    whether it can take part in the transient rerun and wait budget.  The
    registry-timeout detector is an argument, which [DockerPull] supplies: the theorems
    about the budgets hold whichever logs it accepts. *)

From S2P Require Import Prelude PyStr Regex DockerPull MonitorModels.
#[local] Open Scope Z_scope.

Definition CI_FAILED_JOB_RERUN_CONCLUSIONS : list string := ["FAILURE"; "TIMED_OUT"].

Definition CI_TRANSIENT_FAILURE_MARKERS : list string :=
  ["timed_out"; "http status server error"; "http 500"; "http 502"; "http 503";
   "http 504"; "500 internal server"; "502 bad gateway"; "503 service unavailable";
   "504 gateway timeout"; "bad gateway"; "gateway timeout"; "internal server error";
   "service unavailable"; "temporarily unavailable"; "try again";
   "timed out waiting for"; "timeout awaiting"; "connection reset";
   "connection refused"; "connection aborted"; "recv failure";
   "tls handshake timeout"; "failed to download"; "network is unreachable";
   "runner has received a shutdown signal"; "lost communication with the server"].

Definition CI_CODE_FAILURE_MARKERS : list string :=
  ["would reformat:"; "would be reformatted"; "fail-under"; "coverage failure";
   "required test coverage"; "coverage below required threshold";
   "traceback (most recent call last):"; "assertionerror"; "assertionfailederror";
   "=== short test summary info ==="; "found type errors"; "found lint errors";
   "syntaxerror"; "expect(received)"; "test result: failed"; "panicked at";
   "--- fail:"; "panic:"].

(** Classes of the two patterns, compiled with [re.IGNORECASE]. *)
Definition re_digit : re := RChar is_digit.
Definition re_letter : re :=
  RChar (fun c => let n := code (lower_char c) in (97 <=? n) && (n <=? 122)).
Definition re_nonspace : re := RChar (fun c => negb (is_space c)).
Definition re_space : re := RChar is_space.
Definition re_not_newline : re := RChar (fun c => negb (code c =? 10)).
Fixpoint re_ignorecase (s : string) : re :=
  match s with
  | EmptyString => REps
  | String c s' => RSeq (RChar (fun d => eqb (lower_char d) (lower_char c))) (re_ignorecase s')
  end.

(** [\S+\.py:\d+:\d+:\s+[a-z]{1,4}\d{3,4}\b] *)
Definition RUFF_DIAGNOSTIC_RE : re :=
  fold_right RSeq REps
    [rplus re_nonspace; re_ignorecase ".py:"; rplus re_digit; rword ":"; rplus re_digit;
     rword ":"; rplus re_space; rrepeat 1 3 re_letter; rrepeat 3 1 re_digit; RWordB].

(** [\b(?:ruff|mypy|eslint)\b[^\n]*\b(?:failed|found|would reformat|errors?)\b] *)
Definition LINT_TOOL_FAILURE_RE : re :=
  fold_right RSeq REps
    [RWordB; ralts (map re_ignorecase ["ruff"; "mypy"; "eslint"]); RWordB;
     RStar re_not_newline; RWordB;
     ralts [re_ignorecase "failed"; re_ignorecase "found"; re_ignorecase "would reformat";
            RSeq (re_ignorecase "error") (ropt (re_ignorecase "s"))];
     RWordB].

Definition newline : ascii := char 10.

Definition line_shows_code_failure (line : string) : bool :=
  let stripped := lstrip line in
  (starts_with "failed " stripped && contains "::" stripped)
  || (contains ".py:" stripped && contains ": error:" stripped)
  || search RUFF_DIAGNOSTIC_RE stripped.

Definition log_shows_code_failure (log_text : string) : bool :=
  existsb (fun marker => contains marker log_text) CI_CODE_FAILURE_MARKERS
  || search LINT_TOOL_FAILURE_RE log_text
  || existsb line_shows_code_failure (splitlines log_text).

(** Truthiness of an optional string. *)
Definition truthy (o : option string) : bool :=
  match o with Some s => negb (eqb s "") | None => false end.

Definition nonempty {A : Type} (l : list A) : bool :=
  match l with [] => false | _ :: _ => true end.

Definition failure_has_parsed_code_evidence (f : CheckFailure) : bool :=
  if nonempty (cf_test_node_ids f) || nonempty (cf_assertion_snippets f) then true
  else if nonempty (cf_error_summaries f)
  then log_shows_code_failure (lower (join (String newline "") (cf_error_summaries f)))
  else false.

Definition failure_has_actionable_ci_evidence (f : CheckFailure) : bool :=
  if negb (eqb (strip (cf_log_excerpt f)) "") then true
  else if failure_has_parsed_code_evidence f then true
  else nonempty (cf_evidence_warnings f).

Definition ci_failure_identity (f : CheckFailure) : string * string * string :=
  match cf_run_id f with
  | Some r => if eqb r "" then ("", cf_name f, cf_conclusion f) else (r, "", "")
  | None => ("", cf_name f, cf_conclusion f)
  end.

Section Transient.
(** [_log_shows_docker_registry_timeout] *)
Context (log_shows_docker_registry_timeout : string -> bool).

Definition looks_like_transient_ci_failure (f : CheckFailure) : bool :=
  if failure_has_parsed_code_evidence f then false
  else
    let log_text := lower (cf_log_excerpt f) in
    if eqb (strip log_text) "" then
      truthy (cf_run_id f) && eqb (upper (cf_conclusion f)) "TIMED_OUT"
    else
      let shows_code_failure := log_shows_code_failure log_text in
      if negb shows_code_failure
         && existsb (fun marker => contains marker log_text) CI_TRANSIENT_FAILURE_MARKERS
      then true
      else negb shows_code_failure && log_shows_docker_registry_timeout log_text.
End Transient.

(** With the detector of the code. *)
Definition _looks_like_transient_ci_failure : CheckFailure -> bool :=
  looks_like_transient_ci_failure _log_shows_docker_registry_timeout.

Definition ci_failure_is_rerun_candidate (f : CheckFailure) : bool := truthy (cf_run_id f).

Definition ci_candidate_failures (status : PRStatus) : list CheckFailure :=
  List.filter ci_failure_is_rerun_candidate (ps_ci_failures status).

Definition ci_non_candidate_failures (status : PRStatus) : list CheckFailure :=
  List.filter (fun f => negb (ci_failure_is_rerun_candidate f)) (ps_ci_failures status).

Definition non_candidate_carries_fixable_code_evidence (status : PRStatus) : bool :=
  existsb (fun f => failure_has_parsed_code_evidence f
                    || log_shows_code_failure (lower (cf_log_excerpt f)))
    (ci_non_candidate_failures status).

Example ruff_line :
  line_shows_code_failure "  src/a.py:12:5: E501 line too long" = true /\
  line_shows_code_failure "src/a.py:12:5: E50 nope" = false /\
  log_shows_code_failure "run: ruff check found 3 errors" = true /\
  log_shows_code_failure "scruff found" = false.
Proof. vm_compute. auto. Qed.

(** A failure with evidence of a code defect is never a flake. *)
Lemma transient_not_code (registry : string -> bool) (f : CheckFailure) :
  looks_like_transient_ci_failure registry f = true ->
  failure_has_parsed_code_evidence f = false /\
  (eqb (strip (lower (cf_log_excerpt f))) "" = false ->
   log_shows_code_failure (lower (cf_log_excerpt f)) = false).
Proof.
  unfold looks_like_transient_ci_failure.
  destruct (failure_has_parsed_code_evidence f); [done|]. destruct (eqb (strip _) ""); [done|].
  destruct (log_shows_code_failure _); [simpl; done | done].
Qed.

Lemma identity_eq_run (f g : CheckFailure) :
  truthy (cf_run_id f) = true ->
  ci_failure_identity f = ci_failure_identity g <-> cf_run_id f = cf_run_id g.
Proof.
  unfold ci_failure_identity, truthy. destruct (cf_run_id f) as [r|]; [|done].
  rewrite negb_true_iff. intros Hr. rewrite Hr. rewrite eqb_false in Hr.
  destruct (cf_run_id g) as [r'|]; [destruct (eqb r' "") eqn:E|].
  - rewrite eqb_true in E. naive_solver.
  - naive_solver.
  - naive_solver.
Qed.
