(* ===== verification/MonitorState.v ===== *)
(** * The monitor's state, its configuration and its retry budgets

    [runtime/pr_monitor.py], up to the decision function: [MonitorState] and its
    mutators, [MonitorConfig], the recording of a thread's verdict, and the
    rerun and infrastructure-wait budgets kept in the state map. *)

From S2P Require Import Prelude PyStr PyTime PyFloat Json Sha256 MonitorModels FeedbackPolicy.
From S2P Require Import CiClass.
#[local] Open Scope Z_scope.

(** ** [MonitorState] *)

Record MonitorState : Type := {
  ms_iter_count : Z;
  ms_last_push_sha : option string;
  ms_hosted_terminal_head_advanced : bool;
  ms_monitor_writes_suppressed : bool;
  ms_current_pr_head_ref : option string;
  ms_current_pr_head_ref_checked : bool;
  ms_pending_item_commit_provenance : option string;
  ms_sync_base_no_progress_signature : option string;
  ms_sync_base_no_progress_count : Z;
  ms_threads_addressed_ids : state_map;
  ms_started_at : float;
  ms_pending_operator_hint : option OperatorHint;
  ms_changed_thread_ids : gset string
}.

Definition set_maps (st : MonitorState) (sm : state_map) (changed : gset string)
  : MonitorState :=
  {| ms_iter_count := ms_iter_count st;
     ms_last_push_sha := ms_last_push_sha st;
     ms_hosted_terminal_head_advanced := ms_hosted_terminal_head_advanced st;
     ms_monitor_writes_suppressed := ms_monitor_writes_suppressed st;
     ms_current_pr_head_ref := ms_current_pr_head_ref st;
     ms_current_pr_head_ref_checked := ms_current_pr_head_ref_checked st;
     ms_pending_item_commit_provenance := ms_pending_item_commit_provenance st;
     ms_sync_base_no_progress_signature := ms_sync_base_no_progress_signature st;
     ms_sync_base_no_progress_count := ms_sync_base_no_progress_count st;
     ms_threads_addressed_ids := sm;
     ms_started_at := ms_started_at st;
     ms_pending_operator_hint := ms_pending_operator_hint st;
     ms_changed_thread_ids := changed |}.

(** Assignments to the state map that bypass the change set. *)
Definition set_threads (st : MonitorState) (sm : state_map) : MonitorState :=
  set_maps st sm (ms_changed_thread_ids st).

Definition mark_addressed (st : MonitorState) (thread_id verdict : string) : MonitorState :=
  set_maps st (<[thread_id := verdict]> (ms_threads_addressed_ids st))
    ({[thread_id]} ∪ ms_changed_thread_ids st).

Definition has_preserved_protected_block (st : MonitorState) : bool :=
  truthy (ms_threads_addressed_ids st !! PROTECTED_BLOCK_PRESERVED_HEAD_STATE_KEY).

Definition awaiting_workflow_scope (st : MonitorState) : bool :=
  truthy (ms_threads_addressed_ids st !! AWAITING_WORKFLOW_SCOPE_STATE_KEY).

Definition mark_awaiting_workflow_scope (st : MonitorState) : MonitorState :=
  set_threads st (<[AWAITING_WORKFLOW_SCOPE_STATE_KEY := "1"]> (ms_threads_addressed_ids st)).

Definition clear_awaiting_workflow_scope (st : MonitorState) : MonitorState :=
  set_threads st (delete AWAITING_WORKFLOW_SCOPE_STATE_KEY (ms_threads_addressed_ids st)).

Definition parked_unpublished_repair (st : MonitorState) : option string :=
  match ms_threads_addressed_ids st !! PARKED_UNPUBLISHED_REPAIR_STATE_KEY with
  | Some v => if eqb v "" then None else Some v
  | None => None
  end.

Definition mark_parked_unpublished_repair (st : MonitorState) (signature : string) : MonitorState :=
  set_threads st (<[PARKED_UNPUBLISHED_REPAIR_STATE_KEY := signature]> (ms_threads_addressed_ids st)).

Definition clear_parked_unpublished_repair (st : MonitorState) : MonitorState :=
  set_threads st (delete PARKED_UNPUBLISHED_REPAIR_STATE_KEY (ms_threads_addressed_ids st)).

(** [now] is the wall clock the caller passes or [datetime.now(UTC)]. *)
Definition mark_merge_block_attention (st : MonitorState) (now : datetime)
    (originated_from_merge_rejection : bool) : MonitorState :=
  let sm := <[MERGE_BLOCK_ATTENTION_STATE_KEY := isoformat now]> (ms_threads_addressed_ids st) in
  set_threads st
    (if originated_from_merge_rejection
     then <[MERGE_BLOCK_ATTENTION_ORIGIN_STATE_KEY := MERGE_BLOCK_ATTENTION_ORIGIN_MERGE_REJECTION]> sm
     else sm).

Definition merge_block_attention_originated_from_merge_rejection (st : MonitorState) : bool :=
  eqb (ms_threads_addressed_ids st !! MERGE_BLOCK_ATTENTION_ORIGIN_STATE_KEY)
    (Some MERGE_BLOCK_ATTENTION_ORIGIN_MERGE_REJECTION).

Definition clear_merge_block_attention (st : MonitorState) : MonitorState :=
  set_threads st
    (delete MERGE_BLOCK_ATTENTION_ORIGIN_STATE_KEY
       (delete MERGE_BLOCK_ATTENTION_STATE_KEY (ms_threads_addressed_ids st))).

Definition changed_thread_ids (st : MonitorState) : gset string := ms_changed_thread_ids st.

Definition clear_changed_thread_ids (st : MonitorState) (ids : gset string) : MonitorState :=
  set_maps st (ms_threads_addressed_ids st) (ms_changed_thread_ids st ∖ ids).

(** ** [MonitorConfig] *)

Record MonitorConfig : Type := {
  mc_auto_merge : bool;
  mc_delete_source_branch_on_merge : bool;
  mc_require_ci : bool;
  mc_poll_interval_seconds : float;
  mc_merge_block_attention_ttl_seconds : option float;
  mc_settle_interval_seconds : float;
  mc_initial_review_grace_period_seconds : float;
  mc_pre_merge_settle_seconds : float;
  mc_non_check_reviewer_settle_seconds : float;
  mc_non_check_reviewer_logins : list string;
  mc_stale_pending_check_warning_seconds : float;
  mc_awaiting_required_checks_grace_seconds : float;
  mc_pr_head_sync_grace_seconds : float;
  mc_max_no_progress_sync_base_attempts : Z;
  mc_ci_transient_rerun_max_attempts : Z;
  mc_ci_transient_infra_wait_max_seconds : float;
  mc_ci_transient_infra_wait_max_backoff_seconds : float
}.

(** [__post_init__]: the resolved merge-block TTL. *)
Definition resolved_merge_block_ttl (cfg : MonitorConfig) : float :=
  match mc_merge_block_attention_ttl_seconds cfg with
  | None => fmul (float_of_Z 2) (mc_poll_interval_seconds cfg)
  | Some ttl => ttl
  end.

(** ** Recording a thread's verdict *)

(** [dict.pop(key, None)] on the state map. *)
Definition pop_thread_key (st : MonitorState) (key : string) : MonitorState :=
  set_threads st (delete key (ms_threads_addressed_ids st)).

Definition mark_review_thread_addressed (st : MonitorState) (thread : ReviewThread)
    (verdict : string) : MonitorState :=
  let tid := rt_thread_id thread in
  let recorded_body := ms_threads_addressed_ids st !! review_thread_body_state_key tid in
  let body_superseded :=
    negb (eqb recorded_body None)
    && negb (recorded_review_thread_body_matches recorded_body thread) in
  let st1 := mark_addressed st tid verdict in
  let st2 := mark_addressed st1 (review_thread_body_state_key tid) (review_thread_body_hash thread) in
  let st3 := if body_superseded then pop_thread_key st2 (retired_operator_decision_key tid) else st2 in
  if negb (eqb verdict "agent_failed") then
    let st4 := pop_thread_key st3 (operator_decision_key tid) in
    match ms_threads_addressed_ids st3 !! operator_decision_key tid with
    | Some decision => mark_addressed st4 (retired_operator_decision_key tid) decision
    | None => st4
    end
  else st3.

(** ** Authors and SyncBase progress *)

Definition is_bot_review_thread (thread : ReviewThread) : bool :=
  forallb is_bot_author
    match rt_comments thread with
    | [] => [rt_author thread]
    | _ :: _ => map rtc_author (rt_comments thread)
    end.

Definition agent_can_triage_review_comment (c : ReviewComment) : bool :=
  if negb (rc_blocks_merge c) then true
  else eqb (rc_source_kind c) "issue" && is_bot_author (rc_author c).

Definition sync_base_no_progress_signature (status : PRStatus) : string :=
  ps_head_sha status +:+ "|" +:+ mergeable_value (ps_mergeable status) +:+ "|"
  +:+ merge_state_value (ps_merge_state_status status) +:+ "|base_behind="
  +:+ py_str (ps_base_behind_count status).

Definition sync_base_no_progress_exhausted (status : PRStatus) (st : MonitorState)
    (cfg : MonitorConfig) : bool :=
  (0 <? mc_max_no_progress_sync_base_attempts cfg)
  && eqb (ms_sync_base_no_progress_signature st) (Some (sync_base_no_progress_signature status))
  && (mc_max_no_progress_sync_base_attempts cfg <=? ms_sync_base_no_progress_count st).

(** ** Retry budgets *)

Definition CI_TRANSIENT_RERUN_KEY_PREFIX : string := "__awf_ci_rerun:".
Definition CI_TRANSIENT_INFRA_WAIT_KEY_PREFIX : string := "__awf_ci_infra_wait:".

(** Python's order on tuples of three strings. *)
Definition identity_leb (x y : string * string * string) : bool :=
  let '(a, b, c) := x in
  let '(a', b', c') := y in
  if eqb a a' then (if eqb b b' then str_leb c c' else str_leb b b') else str_leb a a'.

Definition rerun_signature (failures : list CheckFailure) : string :=
  dumps (JArr (map (fun '(a, b, c) => JArr [JStr a; JStr b; JStr c])
                 (sorted_by identity_leb (map ci_failure_identity failures)))).

Definition ci_transient_rerun_state_key (head_sha : string) (failures : list CheckFailure)
  : string :=
  CI_TRANSIENT_RERUN_KEY_PREFIX +:+ head_sha +:+ ":"
  +:+ take_str 12 (sha256_hex (rerun_signature failures)).

(** [int(state.get(key, "0"))], or 0 when it does not parse. *)
Definition count_for_key (st : MonitorState) (key : string) : Z :=
  default 0 (py_int (default "0" (ms_threads_addressed_ids st !! key))).

Definition ci_transient_rerun_count (st : MonitorState) (head_sha : string)
    (failures : list CheckFailure) (legacy_failures : option (list CheckFailure)) : Z :=
  let first := count_for_key st (ci_transient_rerun_state_key head_sha failures) in
  match legacy_failures with
  | Some l =>
      if negb (eqb l failures)
      then Z.max first (count_for_key st (ci_transient_rerun_state_key head_sha l))
      else first
  | None => first
  end.

Definition ci_transient_infra_wait_state_key (head_sha : string) (failures : list CheckFailure)
  : string :=
  replace_first CI_TRANSIENT_RERUN_KEY_PREFIX CI_TRANSIENT_INFRA_WAIT_KEY_PREFIX
    (ci_transient_rerun_state_key head_sha failures).

Definition ci_transient_infra_wait_started_key (head_sha : string) (failures : list CheckFailure)
  : string := ci_transient_infra_wait_state_key head_sha failures +:+ ":started".

Definition ci_transient_infra_wait_count_key (head_sha : string) (failures : list CheckFailure)
  : string := ci_transient_infra_wait_state_key head_sha failures +:+ ":count".

Definition ci_transient_infra_wait_count (st : MonitorState) (head_sha : string)
    (failures : list CheckFailure) : Z :=
  count_for_key st (ci_transient_infra_wait_count_key head_sha failures).

Definition ci_transient_infra_wait_started_at (st : MonitorState) (head_sha : string)
    (failures : list CheckFailure) : option float :=
  match ms_threads_addressed_ids st !! ci_transient_infra_wait_started_key head_sha failures with
  | None => None
  | Some raw => py_float raw
  end.

(** [now] is [time.time()] when the caller passes none. *)
Definition record_ci_transient_infra_wait (st : MonitorState) (head_sha : string)
    (failures : list CheckFailure) (now : float) : MonitorState * (Z * float) :=
  let started_key := ci_transient_infra_wait_started_key head_sha failures in
  let count_key := ci_transient_infra_wait_count_key head_sha failures in
  let '(st1, started_at) :=
    match ci_transient_infra_wait_started_at st head_sha failures with
    | None =>
        (set_threads st (<[started_key := format_6f now]> (ms_threads_addressed_ids st)), now)
    | Some t => (st, t)
    end in
  let recorded_count := ci_transient_infra_wait_count st1 head_sha failures + 1 in
  (set_threads st1 (<[count_key := py_str recorded_count]> (ms_threads_addressed_ids st1)),
   (recorded_count, started_at)).

Definition f_zero : float := S754_zero false.

Definition ci_transient_infra_wait_exhausted (now : float) (status : PRStatus)
    (st : MonitorState) (cfg : MonitorConfig) (failures : list CheckFailure) : bool :=
  let max_seconds := mc_ci_transient_infra_wait_max_seconds cfg in
  if fleb max_seconds f_zero then true
  else match ci_transient_infra_wait_started_at st (ps_head_sha status) failures with
       | None => false
       | Some started_at => fleb max_seconds (fsub now started_at)
       end.

Definition ci_transient_infra_wait_seconds (status : PRStatus) (st : MonitorState)
    (cfg : MonitorConfig) (failures : list CheckFailure) : float :=
  let wait_count := ci_transient_infra_wait_count st (ps_head_sha status) failures in
  let exponent := Z.min (Z.max wait_count 0) 30 in
  let wait_seconds :=
    fmul (fmax (mc_poll_interval_seconds cfg) f_zero) (float_of_Z (2 ^ exponent)) in
  let cap := fmax (mc_ci_transient_infra_wait_max_backoff_seconds cfg) f_zero in
  if fleb cap f_zero then wait_seconds
  else if fltb wait_seconds cap then wait_seconds else cap.
