(* ===== verification/Decide.v ===== *)
(** * The decision core of the PR monitor

    [runtime/pr_monitor.py], from the failure budgets to [decide].  The decision
    function is a sequence of gates over one snapshot; each gate below is the
    block of [decide] with the same number, returns the action of its [return]
    statement or nothing, and [decide] is their composition in source order.
    [now] is [time.time()] at the call. *)

From S2P Require Import Prelude PyStr PyFloat MonitorModels FeedbackPolicy CiClass MonitorState.
#[local] Open Scope Z_scope.

(** ** Messages *)

Definition BASE_REF_DRIFT_HUMAN_MESSAGE_PREFIX : string :=
  "PR base branch changed after provisioning; AWF resolved its merge policy against the original base".

Definition base_ref_drift_human_message (base_ref : option string) : string :=
  BASE_REF_DRIFT_HUMAN_MESSAGE_PREFIX
  +:+ (if truthy base_ref then " (now " +:+ show_opt base_ref +:+ ")" else "")
  +:+ ". Retarget the PR back, or re-adopt it against the new base.".

Definition CI_MISSING_LOGS_HUMAN_MESSAGE : string :=
  "CI failed: AWF could not retrieve actionable logs; operator attention is required.".
Definition CI_TRANSIENT_HUMAN_MESSAGE : string :=
  "CI failure appears transient or infrastructure-related; AWF cannot safely rerun it again.".

Definition notify (message : string) : MonitorAction := NotifyHuman (Some message) None.

Definition operator_hint_needs_human_notice (hint : OperatorHint) : MonitorAction :=
  notify ("An " +:+ control_label hint
          +:+ " still requires human attention before this PR can merge."
          +:+ (if truthy (oh_status_reason hint)
               then " Reason: " +:+ show_opt (oh_status_reason hint) else "")).

(** ** CI failures *)

Definition supports_failed_job_rerun (f : CheckFailure) : bool :=
  mem (upper (cf_conclusion f)) CI_FAILED_JOB_RERUN_CONCLUSIONS.

Section Decide.
(** [_log_shows_docker_registry_timeout], and the clock. *)
Context (registry : string -> bool) (now : float).

Definition should_rerun_transient_ci (status : PRStatus) (st : MonitorState)
    (cfg : MonitorConfig) : bool :=
  let candidate_failures := ci_candidate_failures status in
  if mc_ci_transient_rerun_max_attempts cfg <=? 0 then false
  else if negb (nonempty (ps_ci_failures status)) then false
  else if negb (nonempty candidate_failures) then false
  else if existsb (fun f => negb (supports_failed_job_rerun f)) candidate_failures then false
  else if negb (forallb (looks_like_transient_ci_failure registry) candidate_failures) then false
  else ci_transient_rerun_count st (ps_head_sha status) candidate_failures
         (Some (ps_ci_failures status))
       <? mc_ci_transient_rerun_max_attempts cfg.

(** The branch for candidates that all look transient but cannot be rerun. *)
Definition transient_wait_action (status : PRStatus) (st : MonitorState)
    (cfg : MonitorConfig) (candidate_failures : list CheckFailure) : MonitorAction :=
  if mc_ci_transient_rerun_max_attempts cfg <=? 0 then notify CI_TRANSIENT_HUMAN_MESSAGE
  else if existsb (fun f => negb (supports_failed_job_rerun f)) candidate_failures
  then notify CI_TRANSIENT_HUMAN_MESSAGE
  else if ci_transient_infra_wait_exhausted now status st cfg candidate_failures
  then notify CI_TRANSIENT_HUMAN_MESSAGE
  else WaitForTransientCI candidate_failures
         (ci_transient_infra_wait_seconds status st cfg candidate_failures)
         (ci_transient_infra_wait_count st (ps_head_sha status) candidate_failures + 1).

Definition ci_failure_action (status : PRStatus) (st : MonitorState) (cfg : MonitorConfig)
  : MonitorAction :=
  if negb (nonempty (ps_ci_failures status)) then notify CI_MISSING_LOGS_HUMAN_MESSAGE
  else
    let candidate_failures := ci_candidate_failures status in
    if non_candidate_carries_fixable_code_evidence status
    then ReportCiFailure (ps_ci_failures status)
    else if should_rerun_transient_ci status st cfg then RerunTransientCI candidate_failures
    else if nonempty candidate_failures
            && forallb (looks_like_transient_ci_failure registry) candidate_failures
    then transient_wait_action status st cfg candidate_failures
    else if negb (nonempty candidate_failures)
            && forallb (looks_like_transient_ci_failure registry) (ps_ci_failures status)
    then notify CI_TRANSIENT_HUMAN_MESSAGE
    else if negb (existsb failure_has_actionable_ci_evidence (ps_ci_failures status))
    then notify CI_MISSING_LOGS_HUMAN_MESSAGE
    else ReportCiFailure (ps_ci_failures status).

(** ** The gates *)

(** 0. Terminal upstream states. *)
Definition gate_terminal (status : PRStatus) : option MonitorAction :=
  if ps_merged status then Some ShortCircuitCompleted
  else if ps_closed status then Some (Abort_ pr_closed_externally)
  else None.

(** 0b. The PR was retargeted after provisioning. *)
Definition gate_base_ref_drift (status : PRStatus) : option MonitorAction :=
  if ps_base_ref_drifted status
  then Some (notify (base_ref_drift_human_message (ps_base_ref status)))
  else None.

(** 0c. The forge has not synchronized the PR head. *)
Definition gate_head_sync (status : PRStatus) : option MonitorAction :=
  match ps_unsynchronized_remote_head_sha status with
  | None => None
  | Some _ =>
      Some (if ps_pr_head_sync_grace_active status then WaitForCI pr_head_not_synchronized
            else NotifyHuman (Some (pr_head_not_synchronized_message status))
                   (Some PR_HEAD_NOT_SYNCHRONIZED_REASON))
  end.

Definition canonical_threads (status : PRStatus) (sm : state_map) : list ReviewThread :=
  canonical_unresolved_inline_threads (ps_unresolved_inline_threads status)
    (ps_outdated_unresolved_inline_threads status) (Some sm).

Definition new_threads (status : PRStatus) (sm : state_map) : list ReviewThread :=
  List.filter (thread_enters_address_comments sm) (canonical_threads status sm).

Definition new_reviews (status : PRStatus) (sm : state_map) : list ReviewComment :=
  List.filter (fun c => agent_can_triage_review_comment c
                        && needs_comment_attention (sm !! rc_comment_id c))
    (ps_unresolved_review_comments status).

(** [if new_threads or new_reviews] *)
Definition has_new_feedback (status : PRStatus) (sm : state_map) : bool :=
  nonempty (new_threads status sm) || nonempty (new_reviews status sm).

Definition hint_action (hint : OperatorHint) : MonitorAction :=
  match oh_status hint with
  | hint_pending => AddressOperatorHint hint
  | _ => operator_hint_needs_human_notice hint
  end.

(** 1.pre A protected-block resume runs before SyncBase. *)
Definition gate_preserved_block (st : MonitorState) : option MonitorAction :=
  match ms_pending_operator_hint st with
  | Some hint => if has_preserved_protected_block st then Some (hint_action hint) else None
  | None => None
  end.

(** 1. Base behind or DIRTY. *)
Definition base_needs_sync (status : PRStatus) : bool :=
  (0 <? ps_base_behind_count status) || mem (ps_merge_state_status status) [BEHIND; DIRTY].

Definition gate_sync_base (status : PRStatus) (st : MonitorState) (cfg : MonitorConfig)
  : option MonitorAction :=
  let sm := ms_threads_addressed_ids st in
  if base_needs_sync status then
    Some (if sync_base_no_progress_exhausted status st cfg then
            if eqb (ps_merge_state_status status) DIRTY && has_new_feedback status sm
            then AddressComments (new_threads status sm) (new_reviews status sm)
            else if eqb (ps_merge_state_status status) DIRTY
            then Abort_ merge_conflict_not_reproduced
            else Abort_ base_sync_no_progress
          else SyncBase)
  else None.

(** 2. Operator hints. *)
Definition gate_operator_hint (st : MonitorState) : option MonitorAction :=
  option_map hint_action (ms_pending_operator_hint st).

(** 3. Unresolved comments. *)
Definition gate_comments (status : PRStatus) (sm : state_map) : option MonitorAction :=
  if has_new_feedback status sm
  then Some (AddressComments (new_threads status sm) (new_reviews status sm))
  else None.

(** 4. Effective blocking reviews. *)
Definition gate_blocking_reviews (status : PRStatus) : option MonitorAction :=
  if nonempty (ps_blocking_reviews status) then Some (NotifyHuman None None) else None.

(** 5. CI failures. *)
Definition gate_ci_failure (status : PRStatus) (st : MonitorState) (cfg : MonitorConfig)
  : option MonitorAction :=
  if eqb (ps_check_state status) FAILURE then
    Some (if ps_ci_runs_in_progress status && negb (nonempty (ps_ci_failures status))
          then WaitForCI ci_run_in_progress
          else ci_failure_action status st cfg)
  else None.

Definition protected_state (status : PRStatus) : bool :=
  mem (ps_merge_state_status status) [BLOCKED; HAS_HOOKS].

(** 6. CI still running, or the forge still computing. *)
Definition gate_pending (status : PRStatus) (cfg : MonitorConfig) : option MonitorAction :=
  if eqb (ps_check_state status) PENDING
     && (mc_require_ci cfg || negb (ps_no_checks_observed status))
     && negb (mc_require_ci cfg && ps_no_checks_observed status && protected_state status)
  then Some (WaitForCI pending_checks)
  else if eqb (ps_mergeable status) M_UNKNOWN || eqb (ps_merge_state_status status) UNKNOWN
  then Some (WaitForCI unknown_mergeable_state)
  else None.

(** 7. Legacy CONFLICTING. *)
Definition gate_conflicting (status : PRStatus) (st : MonitorState) (cfg : MonitorConfig)
  : option MonitorAction :=
  if eqb (ps_mergeable status) M_CONFLICTING
  then Some (if sync_base_no_progress_exhausted status st cfg
             then Abort_ merge_conflict_not_reproduced else SyncBase)
  else None.

(** 8. Triaged feedback that still blocks the merge. *)
Definition thread_blocks_merge (sm : state_map) (thread_id : string) : bool :=
  verdict_in (sm !! thread_id) ["defer"; "needs_human"].

Definition review_comment_blocks_merge (sm : state_map) (c : ReviewComment) : bool :=
  let verdict := sm !! rc_comment_id c in
  if eqb verdict (Some "needs_human") then true
  else eqb verdict (Some "defer") && negb (is_bot_author (rc_author c)).

Definition outdated_thread_blocks_merge (status : PRStatus) (sm : state_map)
    (thread : ReviewThread) : bool :=
  if truthy (sm !! outdated_resolve_requeued_key (rt_thread_id thread)) then true
  else if mem (rt_thread_id thread) (thread_ids (ps_unresolved_inline_threads status)) then false
  else outdated_thread_has_fresh_feedback sm thread.

(** The values of [outdated_by_id]. *)
Definition outdated_groups (status : PRStatus) : list (list ReviewThread) :=
  let feed := ps_outdated_unresolved_inline_threads status in
  map (fun id => copies_of id feed) (fromkeys (thread_ids feed)).

Definition has_blocking_feedback (status : PRStatus) (sm : state_map) : bool :=
  existsb (fun t => thread_blocks_merge sm (rt_thread_id t)) (canonical_threads status sm)
  || existsb (review_comment_blocks_merge sm) (ps_unresolved_review_comments status)
  || existsb (fun copies =>
                match preferred_duplicate_review_thread copies (Some sm) with
                | Some t => outdated_thread_blocks_merge status sm t
                | None => false
                end) (outdated_groups status).

Definition gate_blocking_feedback (status : PRStatus) (sm : state_map) : option MonitorAction :=
  if has_blocking_feedback status sm then Some (NotifyHuman None None) else None.

(** 8b. Grace for required CI that has not started. *)
Definition gate_required_checks_grace (status : PRStatus) (cfg : MonitorConfig)
  : option MonitorAction :=
  if mc_require_ci cfg && ps_no_checks_observed status && protected_state status
     && negb (eqb (ps_check_state status) FAILURE)
     && ps_awaiting_required_checks_grace_active status
  then Some (WaitForCI awaiting_required_checks) else None.

(** 9. Protected states, then a recorded merge-method blocker. *)
Definition gate_protected_state (status : PRStatus) : option MonitorAction :=
  if protected_state status then Some (NotifyHuman None None) else None.

Definition merge_method_blocker (status : PRStatus) (sm : state_map) : option string :=
  sm !! merge_method_blocked_key (ps_number status) (ps_head_sha status).

Definition gate_merge_method (status : PRStatus) (sm : state_map) : option MonitorAction :=
  let blocker := merge_method_blocker status sm in
  if truthy blocker then Some (NotifyHuman blocker None) else None.

(** 10. All green. *)
Definition all_green (cfg : MonitorConfig) : MonitorAction :=
  if mc_auto_merge cfg then Merge else NotifyHuman None None.

Definition gates (status : PRStatus) (st : MonitorState) (cfg : MonitorConfig)
  : list (option MonitorAction) :=
  let sm := ms_threads_addressed_ids st in
  [gate_terminal status; gate_base_ref_drift status; gate_head_sync status;
   gate_preserved_block st; gate_sync_base status st cfg; gate_operator_hint st;
   gate_comments status sm; gate_blocking_reviews status; gate_ci_failure status st cfg;
   gate_pending status cfg; gate_conflicting status st cfg;
   gate_blocking_feedback status sm; gate_required_checks_grace status cfg;
   gate_protected_state status; gate_merge_method status sm].

(** The first gate that answers. *)
Fixpoint first_some (l : list (option MonitorAction)) (default : MonitorAction)
  : MonitorAction :=
  match l with
  | [] => default
  | Some a :: _ => a
  | None :: l' => first_some l' default
  end.

Definition decide (status : PRStatus) (st : MonitorState) (cfg : MonitorConfig)
  : MonitorAction := first_some (gates status st cfg) (all_green cfg).
End Decide.
