(* ===== verification/Samples.v ===== *)
(** * Concrete snapshots, states and policies of the PR monitor

    Values built from the defaults of the source's dataclasses, on which the
    monitor's theorems are instantiated. *)

From S2P Require Import Prelude PyStr PyTime PyFloat MonitorModels FeedbackPolicy MonitorState.
#[local] Open Scope Z_scope.

(** A review thread with one comment. *)
Definition sample_comment (body : string) : ReviewThreadComment :=
  {| rtc_comment_id := Some "c1"; rtc_body := body; rtc_author := Some "reviewer";
     rtc_created_at := None; rtc_updated_at := None; rtc_url := None;
     rtc_viewer_did_author := false; rtc_review_id := None |}.

Definition sample_thread (id body : string) : ReviewThread :=
  {| rt_thread_id := id; rt_path := None; rt_line := None; rt_body_excerpt := body;
     rt_author := Some "reviewer"; rt_is_resolved := false;
     rt_comments := [sample_comment body]; rt_url := None; rt_is_outdated := false;
     rt_review_context := None |}.

Definition sample_failure (run_id : option string) (conclusion log : string) : CheckFailure :=
  {| cf_name := "build"; cf_conclusion := conclusion; cf_log_excerpt := log; cf_run_id := run_id;
     cf_failing_commands := []; cf_test_node_ids := []; cf_assertion_snippets := [];
     cf_error_summaries := []; cf_suggested_repro_commands := []; cf_evidence_warnings := [] |}.

(** An open pull request with the given threads, checks and base distance. *)
Definition sample_status (threads : list ReviewThread) (checks : CheckState)
    (failures : list CheckFailure) (behind : Z) (closed : bool) : PRStatus :=
  {| ps_number := 7; ps_head_sha := "abc"; ps_mergeable := M_MERGEABLE; ps_check_state := checks;
     ps_unresolved_inline_threads := threads; ps_unresolved_review_comments := [];
     ps_base_behind_count := behind; ps_head_ref := None; ps_base_ref := None;
     ps_base_ref_drifted := false; ps_blocking_reviews := []; ps_merge_state_status := CLEAN;
     ps_ci_failures := failures; ps_ci_runs_in_progress := false; ps_checks := [];
     ps_no_checks_observed := false; ps_awaiting_required_checks_grace_active := false;
     ps_unsynchronized_remote_head_sha := None; ps_pr_head_sync_grace_active := false;
     ps_changed_paths := []; ps_closed := closed; ps_merged := false;
     ps_merge_commit_sha := None; ps_latest_external_review_activity_at := None;
     ps_latest_external_review_activity_source := None; ps_quiet_period_anchor_at := None;
     ps_quiet_period_anchor_source := None; ps_outdated_unresolved_inline_threads := [] |}.

Definition sample_state (sm : state_map) : MonitorState :=
  {| ms_iter_count := 0; ms_last_push_sha := None; ms_hosted_terminal_head_advanced := false;
     ms_monitor_writes_suppressed := false; ms_current_pr_head_ref := None;
     ms_current_pr_head_ref_checked := false; ms_pending_item_commit_provenance := None;
     ms_sync_base_no_progress_signature := None; ms_sync_base_no_progress_count := 0;
     ms_threads_addressed_ids := sm; ms_started_at := f_zero;
     ms_pending_operator_hint := None; ms_changed_thread_ids := ∅ |}.

(** The dataclass defaults, with the auto-merge policy given. *)
Definition sample_config (auto_merge : bool) : MonitorConfig :=
  {| mc_auto_merge := auto_merge; mc_delete_source_branch_on_merge := true;
     mc_require_ci := true; mc_poll_interval_seconds := float_of_Z 60;
     mc_merge_block_attention_ttl_seconds := None;
     mc_settle_interval_seconds := float_of_Z 30;
     mc_initial_review_grace_period_seconds := float_of_Z 900;
     mc_pre_merge_settle_seconds := float_of_Z 90;
     mc_non_check_reviewer_settle_seconds := float_of_Z 900;
     mc_non_check_reviewer_logins := ["greptile-apps"; "chatgpt-codex-connector"];
     mc_stale_pending_check_warning_seconds := float_of_Z 900;
     mc_awaiting_required_checks_grace_seconds := float_of_Z 600;
     mc_pr_head_sync_grace_seconds := float_of_Z 600;
     mc_max_no_progress_sync_base_attempts := 3; mc_ci_transient_rerun_max_attempts := 2;
     mc_ci_transient_infra_wait_max_seconds := float_of_Z 1800;
     mc_ci_transient_infra_wait_max_backoff_seconds := float_of_Z 300 |}.

Definition no_registry (_ : string) : bool := false.

(** A snapshot with one thread, and the state that recorded its fix. *)
Definition one_thread : PRStatus := sample_status [sample_thread "T1" "please fix"] SUCCESS [] 0 false.

Definition fixed_state : MonitorState :=
  mark_review_thread_addressed (sample_state ∅) (sample_thread "T1" "please fix") "fix_committed".

(** Two flaky runs on the head, and an external row without a run id. *)
Definition flaky_status : PRStatus :=
  sample_status [] FAILURE
    [sample_failure (Some "11") "FAILURE" "error: connection reset by peer";
     sample_failure None "FAILURE" ""] 0 false.
