(* ===== verification/DecideSafety.v ===== *)
(** * What [decide] promises: merge safety, aborts, priorities

    The gates of [Decide] read as propositions, the exact condition under which
    the monitor merges, the exact causes of an abort, the content of a repair
    batch, and the order of the gates that competes for one poll. *)

From S2P Require Import Prelude PyStr PyFloat MonitorModels FeedbackPolicy CiClass MonitorState.
From S2P Require Import Decide Samples.
#[local] Open Scope Z_scope.

(** ** Generic lemmas on the composition of gates *)

Lemma nonempty_false {A : Type} (l : list A) : nonempty l = false <-> l = [].
Proof. by destruct l. Qed.

Lemma nonempty_true {A : Type} (l : list A) : nonempty l = true <-> l <> [].
Proof. by destruct l. Qed.

Lemma first_some_cons (g : option MonitorAction) (l : list (option MonitorAction))
    (d : MonitorAction) :
  first_some (g :: l) d = match g with Some a => a | None => first_some l d end.
Proof. by destruct g. Qed.

(** An action no gate answers is reached only through the default. *)
Lemma first_some_default (l : list (option MonitorAction)) (d a : MonitorAction) :
  Forall (fun g => g <> Some a) l ->
  first_some l d = a <-> Forall (fun g => g = None) l /\ d = a.
Proof.
  induction 1 as [|g l Hg Hl IH]; simpl; [naive_solver|]. destruct g as [b|].
  - split; [intros ->; congruence | intros [H _]; by inversion H].
  - rewrite IH, Forall_cons. naive_solver.
Qed.

(** Any other action is some gate's answer, with the earlier gates silent. *)
Lemma first_some_gate (l : list (option MonitorAction)) (d a : MonitorAction) :
  first_some l d = a -> d = a \/ Some a ∈ l.
Proof.
  induction l as [|[b|] l IH]; simpl; [auto|intros ->; right; left|].
  intros [?|?]%IH; [by left|right; by right].
Qed.

Lemma existsb_false {A : Type} (f : A -> bool) (l : list A) :
  existsb f l = false <-> forall x, x ∈ l -> f x = false.
Proof.
  induction l as [|a l IH]; simpl.
  - split; [intros _ x Hx; by apply elem_of_nil in Hx | done].
  - rewrite orb_false_iff, IH. setoid_rewrite elem_of_cons. naive_solver.
Qed.

Lemma if_some_none {A : Type} (b : bool) (a : A) : (if b then Some a else None) = None <-> b = false.
Proof. by destruct b. Qed.

(** ** The gates as propositions *)

Section Gates.
Context (registry : string -> bool) (now : float).
Context (status : PRStatus) (st : MonitorState) (cfg : MonitorConfig).
Let sm : state_map := ms_threads_addressed_ids st.

Lemma gate_terminal_none :
  gate_terminal status = None <-> ps_merged status = false /\ ps_closed status = false.
Proof. unfold gate_terminal. destruct (ps_merged status), (ps_closed status); naive_solver. Qed.

Lemma gate_head_sync_none :
  gate_head_sync status = None <-> ps_unsynchronized_remote_head_sha status = None.
Proof. unfold gate_head_sync. by destruct (ps_unsynchronized_remote_head_sha status). Qed.

Lemma gate_operator_hint_none :
  gate_operator_hint st = None <-> ms_pending_operator_hint st = None.
Proof. unfold gate_operator_hint. by destruct (ms_pending_operator_hint st). Qed.

Lemma gate_preserved_block_none :
  ms_pending_operator_hint st = None -> gate_preserved_block st = None.
Proof. unfold gate_preserved_block. by intros ->. Qed.

Lemma base_needs_sync_false :
  base_needs_sync status = false <->
  ps_base_behind_count status <= 0 /\ ps_merge_state_status status ∉ [BEHIND; DIRTY].
Proof. unfold base_needs_sync. rewrite orb_false_iff, Z.ltb_ge, mem_false. done. Qed.

Lemma gate_comments_none :
  gate_comments status sm = None <->
  (forall t, t ∈ canonical_threads status sm -> thread_enters_address_comments sm t = false) /\
  (forall c, c ∈ ps_unresolved_review_comments status ->
     agent_can_triage_review_comment c = true ->
     needs_comment_attention (sm !! rc_comment_id c) = false).
Proof.
  unfold gate_comments, has_new_feedback. rewrite if_some_none, orb_false_iff, !nonempty_false.
  unfold new_threads, new_reviews. rewrite !bfilter_nil. setoid_rewrite andb_false_iff.
  split; intros [Ht Hr]; (split; [done|]); intros c Hc; specialize (Hr c Hc).
  - intros Ha. destruct Hr; congruence.
  - destruct (agent_can_triage_review_comment c); auto.
Qed.

Lemma mem2 {A : Type} `{EqDecision A} (x a b : A) : x ∉ [a; b] <-> x <> a /\ x <> b.
Proof. rewrite !not_elem_of_cons. pose proof (not_elem_of_nil x). tauto. Qed.

Lemma review_not_blocking (c : ReviewComment) :
  review_comment_blocks_merge sm c = false <->
  sm !! rc_comment_id c <> Some "needs_human" /\
  (sm !! rc_comment_id c = Some "defer" -> is_bot_author (rc_author c) = true).
Proof.
  unfold review_comment_blocks_merge.
  destruct (eqb (sm !! rc_comment_id c) (Some "needs_human")) eqn:E.
  - rewrite eqb_true in E. naive_solver.
  - rewrite eqb_false in E. rewrite andb_false_iff, eqb_false, negb_false_iff.
    split; [intros H; split; [done|]; naive_solver|].
    intros [_ H]. destruct (base.decide (sm !! rc_comment_id c = Some "defer")); auto.
Qed.

(** Every id of a feed has a preferred copy in it, and that copy has the id. *)
Lemma group_rep (feed : list ReviewThread) (id : string) :
  id ∈ thread_ids feed -> exists t,
    preferred_duplicate_review_thread (copies_of id feed) (Some sm) = Some t /\
    rt_thread_id t = id /\ t ∈ feed.
Proof.
  intros Hid. destruct (copies_in id feed (Some sm) Hid) as [t Ht]. exists t. split; [done|].
  by apply preferred_in, elem_of_copies_of in Ht.
Qed.

(** Running over the groups is running over their preferred copies. *)
Lemma outdated_groups_forall (f : ReviewThread -> bool) :
  let feed := ps_outdated_unresolved_inline_threads status in
  existsb (fun copies => match preferred_duplicate_review_thread copies (Some sm) with
                         | Some t => f t | None => false end) (outdated_groups status) = false <->
  forall t, preferred_duplicate_review_thread (copies_of (rt_thread_id t) feed) (Some sm) = Some t ->
            f t = false.
Proof.
  simpl. set (feed := ps_outdated_unresolved_inline_threads status).
  rewrite existsb_false. unfold outdated_groups. fold feed. split.
  - intros H t Ht. specialize (H (copies_of (rt_thread_id t) feed)). rewrite Ht in H. apply H.
    apply list_elem_of_fmap. eexists. split; [done|]. apply elem_of_fromkeys.
    apply preferred_in, elem_of_copies_of in Ht as [_ Ht]. apply list_elem_of_fmap. eauto.
  - intros H copies [id [-> Hid]]%list_elem_of_fmap. rewrite elem_of_fromkeys in Hid.
    destruct (group_rep feed id Hid) as (t & Ht & <- & _). rewrite Ht. auto.
Qed.

Lemma outdated_groups_silent :
  existsb (fun copies =>
             match preferred_duplicate_review_thread copies (Some sm) with
             | Some t => outdated_thread_blocks_merge status sm t
             | None => false
             end) (outdated_groups status) = false <->
  (forall t, t ∈ ps_outdated_unresolved_inline_threads status ->
     truthy (sm !! outdated_resolve_requeued_key (rt_thread_id t)) = false) /\
  (forall t, t ∈ canonical_threads status sm ->
     rt_thread_id t ∉ thread_ids (ps_unresolved_inline_threads status) ->
     outdated_thread_has_fresh_feedback sm t = false).
Proof.
  rewrite outdated_groups_forall. unfold outdated_thread_blocks_merge, canonical_threads.
  set (feed := ps_outdated_unresolved_inline_threads status). split.
  - intros H. split.
    + intros t Ht. destruct (group_rep feed (rt_thread_id t)) as (u & Hu & Hid & _);
        [apply list_elem_of_fmap; eauto|].
      rewrite <- Hid in Hu |- *. specialize (H u Hu). by destruct (truthy _).
    + intros t Ht Hna. apply canonical_elem in Ht. rewrite owning_copies_outdated in Ht by done.
      specialize (H t Ht). rewrite (proj2 (mem_false _ _) Hna) in H. by destruct (truthy _).
  - intros [Hk Hf] t Ht.
    pose proof (preferred_in _ _ _ Ht) as [_ Hin]%elem_of_copies_of. rewrite (Hk t Hin). destruct (mem _ _) eqn:Em; [done|]. rewrite mem_false in Em.
    apply Hf; [|done]. apply canonical_elem. by rewrite owning_copies_outdated.
Qed.

Lemma thread_not_blocking (t : ReviewThread) :
  thread_blocks_merge sm (rt_thread_id t) = false <->
  sm !! rt_thread_id t <> Some "defer" /\ sm !! rt_thread_id t <> Some "needs_human".
Proof.
  unfold thread_blocks_merge, verdict_in. destruct (sm !! rt_thread_id t) as [v|].
  - rewrite mem_false, mem2. split; intros [? ?]; split; congruence.
  - split; [by intros _|done].
Qed.
End Gates.

(** ** When the monitor merges *)

(** The snapshot, state and policy under which every gate is green. *)
Record merge_ready (status : PRStatus) (st : MonitorState) (cfg : MonitorConfig) : Prop := {
  mr_auto : mc_auto_merge cfg = true;
  mr_open : ps_merged status = false /\ ps_closed status = false;
  mr_base : ps_base_ref_drifted status = false;
  mr_head : ps_unsynchronized_remote_head_sha status = None;
  mr_up_to_date : ps_base_behind_count status <= 0;
  mr_merge_state : ps_merge_state_status status ∈ [CLEAN; UNSTABLE];
  mr_mergeable : ps_mergeable status = M_MERGEABLE;
  mr_hint : ms_pending_operator_hint st = None;
  mr_blocking_reviews : ps_blocking_reviews status = [];
  mr_checks : ps_check_state status ∈ [SUCCESS; NEUTRAL] \/
    (ps_check_state status = PENDING /\ mc_require_ci cfg = false /\
     ps_no_checks_observed status = true);
  mr_threads : forall t, t ∈ canonical_threads status (ms_threads_addressed_ids st) ->
    let sm := ms_threads_addressed_ids st in
    thread_enters_address_comments sm t = false /\
    sm !! rt_thread_id t <> Some "defer" /\ sm !! rt_thread_id t <> Some "needs_human" /\
    (rt_thread_id t ∉ thread_ids (ps_unresolved_inline_threads status) ->
     outdated_thread_has_fresh_feedback sm t = false);
  mr_requeued : forall t, t ∈ ps_outdated_unresolved_inline_threads status ->
    truthy (ms_threads_addressed_ids st !! outdated_resolve_requeued_key (rt_thread_id t)) = false;
  mr_reviews : forall c, c ∈ ps_unresolved_review_comments status ->
    let verdict := ms_threads_addressed_ids st !! rc_comment_id c in
    (agent_can_triage_review_comment c = true -> needs_comment_attention verdict = false) /\
    verdict <> Some "needs_human" /\
    (verdict = Some "defer" -> is_bot_author (rc_author c) = true);
  mr_merge_method : truthy (merge_method_blocker status (ms_threads_addressed_ids st)) = false
}.

Section MergeReady.
Context (registry : string -> bool) (now : float).
Context (status : PRStatus) (st : MonitorState) (cfg : MonitorConfig).
Let sm : state_map := ms_threads_addressed_ids st.

(** No gate answers [Merge]: only the final default does. *)
Lemma gates_never_merge :
  Forall (fun g => g <> Some Merge) (gates registry now status st cfg).
Proof.
  unfold gates. repeat constructor; intros Hg;
    unfold gate_terminal, gate_base_ref_drift, gate_head_sync, gate_preserved_block,
      gate_sync_base, gate_operator_hint, gate_comments, gate_blocking_reviews,
      gate_ci_failure, gate_pending, gate_conflicting, gate_blocking_feedback,
      gate_required_checks_grace, gate_protected_state, gate_merge_method, hint_action,
      ci_failure_action, transient_wait_action, operator_hint_needs_human_notice, notify,
      option_map in Hg;
    repeat (case_in Hg; try discriminate Hg).
Qed.

Lemma merge_gates :
  decide registry now status st cfg = Merge <->
  Forall (fun g => g = None) (gates registry now status st cfg) /\ mc_auto_merge cfg = true.
Proof.
  unfold decide. rewrite first_some_default by apply gates_never_merge.
  unfold all_green. destruct (mc_auto_merge cfg); naive_solver.
Qed.

(** The gates on the forge's own state, once the earlier ones are silent. *)
Lemma forge_gates_none :
  gate_sync_base status st cfg = None /\ gate_pending status cfg = None /\
  gate_ci_failure registry now status st cfg = None /\
  gate_conflicting status st cfg = None /\ gate_protected_state status = None /\
  gate_required_checks_grace status cfg = None <->
  ps_base_behind_count status <= 0 /\ ps_merge_state_status status ∈ [CLEAN; UNSTABLE] /\
  ps_mergeable status = M_MERGEABLE /\
  (ps_check_state status ∈ [SUCCESS; NEUTRAL] \/
   (ps_check_state status = PENDING /\ mc_require_ci cfg = false /\
    ps_no_checks_observed status = true)).
Proof.
  unfold gate_sync_base, gate_pending, gate_ci_failure, gate_conflicting,
    gate_protected_state, gate_required_checks_grace, base_needs_sync, protected_state.
  rewrite !if_some_none, !orb_false_iff, Z.ltb_ge, <- (mem_true _ [CLEAN; UNSTABLE]),
    <- (mem_true _ [SUCCESS; NEUTRAL]).
  destruct (ps_merge_state_status status), (ps_mergeable status), (ps_check_state status),
    (mc_require_ci cfg), (ps_no_checks_observed status); vm_compute mem; vm_compute eqb; simpl;
    intuition (congruence || discriminate).
Qed.
End MergeReady.

(** Every id of either feed has its representative in the canonical view. *)
Lemma canonical_covers (status : PRStatus) (sm : state_map) (id : string) :
  id ∈ thread_ids (ps_unresolved_inline_threads status
                   ++ ps_outdated_unresolved_inline_threads status) ->
  exists t, t ∈ canonical_threads status sm /\ rt_thread_id t = id.
Proof.
  unfold thread_ids at 1. rewrite map_app. intros Hid.
  assert (Hc : id ∈ thread_ids (canonical_threads status sm))
    by (unfold canonical_threads; rewrite canonical_ids, elem_of_fromkeys; exact Hid).
  apply list_elem_of_fmap in Hc as (t & -> & Ht). eauto.
Qed.

(** A thread that does not enter repair has a final verdict; a closed one with
    a recorded body still matches it. *)
Lemma not_entering_verdict (sm : state_map) (t : ReviewThread) :
  thread_enters_address_comments sm t = false ->
  exists v, sm !! rt_thread_id t = Some v /\ v <> "agent_failed" /\
    (v ∈ CLOSED_OUTDATED_THREAD_VERDICTS -> recorded_body sm t <> None ->
     body_matches_recorded sm t = true).
Proof.
  unfold thread_enters_address_comments, body_matches_recorded.
  destruct (needs_comment_attention _) eqn:En; [done|]. unfold needs_comment_attention in En.
  apply orb_false_iff in En as [E1 E2]. rewrite eqb_false in E1, E2.
  destruct (sm !! rt_thread_id t) as [v|]; [|done]. intros H.
  exists v. split_and!; [done | congruence |]. intros Hc Hr.
  assert (Hq : verdict_in (Some v) REQUEUE_ON_BODY_CHANGE_VERDICTS = true)
    by (unfold verdict_in; apply mem_true, elem_of_app; by left).
  rewrite Hq in H. simpl in H. destruct (recorded_body sm t); [|done].
  by apply negb_false_iff in H.
Qed.

(** ** Which gate answered *)

(** Unfold every gate and read off the one that gives the action of [H]. *)
Ltac gate_cases H :=
  unfold decide, gates, all_green in H; rewrite ?first_some_cons in H;
  unfold gate_terminal, gate_base_ref_drift, gate_head_sync, gate_preserved_block,
    gate_sync_base, gate_operator_hint, gate_comments, gate_blocking_reviews,
    gate_ci_failure, gate_pending, gate_conflicting, gate_blocking_feedback,
    gate_required_checks_grace, gate_protected_state, gate_merge_method, hint_action,
    ci_failure_action, transient_wait_action, operator_hint_needs_human_notice, notify,
    option_map in H; simpl in H;
  repeat (case_in H; try discriminate H); simplify_eq.

Lemma exhausted_spec (status : PRStatus) (st : MonitorState) (cfg : MonitorConfig) :
  sync_base_no_progress_exhausted status st cfg = true <->
  0 < mc_max_no_progress_sync_base_attempts cfg <= ms_sync_base_no_progress_count st /\
  ms_sync_base_no_progress_signature st = Some (sync_base_no_progress_signature status).
Proof.
  unfold sync_base_no_progress_exhausted.
  rewrite !andb_true_iff, Z.ltb_lt, Z.leb_le, eqb_true. tauto.
Qed.

(** The theorem [decide_merge_iff] below, for use by the other ones. *)
Lemma decide_merge_iff' (registry : string -> bool) (now : float) (status : PRStatus)
    (st : MonitorState) (cfg : MonitorConfig) :
  decide registry now status st cfg = Merge <-> merge_ready status st cfg.
Proof.
  rewrite merge_gates. unfold gates. rewrite !Forall_cons, gate_terminal_none,
    gate_head_sync_none, gate_operator_hint_none, gate_comments_none.
  pose proof (forge_gates_none registry now status st cfg) as Hf.
  unfold gate_base_ref_drift, gate_blocking_reviews, gate_blocking_feedback, gate_merge_method,
    has_blocking_feedback.
  rewrite !if_some_none, nonempty_false, !orb_false_iff, (outdated_groups_silent status st),
    !existsb_false.
  setoid_rewrite thread_not_blocking. setoid_rewrite review_not_blocking. split.
  - intros [(Ht & Hd & Hh & _ & Hs & Hhint & [Hth Hrv] & Hbr & Hci & Hp & Hc &
             [[Hbt Hbc] [Hk Ho]] & Hg & Hpr & Hmm & _) Ha].
    destruct (proj1 Hf) as (H1 & H2 & H3 & H4); [tauto|].
    split; try done; [intros t Hin | intros c Hin]; simpl.
    + split; [auto|]. destruct (Hbt t Hin). auto.
    + split; [auto|]. by apply Hbc.
  - intros [Ha Ho Hb Hh Hud Hms Hm Hhint Hbr Hck Hth Hk Hrv Hmm].
    destruct (proj2 Hf) as (H1 & H2 & H3 & H4 & H5 & H6); [tauto|].
    rewrite gate_preserved_block_none by done. split; [|done].
    destruct Ho. split_and!; try done; try apply Forall_nil_2;
      try (intros x Hx; specialize (Hth x Hx); simpl in Hth; tauto);
      try (intros x Hx; specialize (Hrv x Hx); simpl in Hrv; tauto).
Qed.

(** ** Properties *)

(** C1: the monitor merges exactly when the snapshot is open, on the expected
    base and head, up to date and cleanly mergeable, CI is green (or verifiably
    absent with CI opted out), no hint, blocking review or merge-method blocker
    is pending, every unresolved conversation carries a final verdict for its
    current text, and auto-merge is on. *)
Theorem decide_merge_iff (registry : string -> bool) (now : float) (status : PRStatus)
    (st : MonitorState) (cfg : MonitorConfig) :
  decide registry now status st cfg = Merge <-> merge_ready status st cfg.
Proof. apply decide_merge_iff'. Qed.



(** The monitor gives up only on a pull request closed upstream or on a
    base synchronisation that made no progress for the configured number of
    attempts on this very snapshot; a dirty pull request with feedback left to
    repair is never abandoned, and no other abort reason is ever returned. *)
Theorem abort_causes (registry : string -> bool) (now : float) (status : PRStatus)
    (st : MonitorState) (cfg : MonitorConfig) (r : AbortReason) :
  decide registry now status st cfg = Abort_ r ->
  (r = pr_closed_externally /\ ps_closed status = true /\ ps_merged status = false) \/
  (0 < mc_max_no_progress_sync_base_attempts cfg <= ms_sync_base_no_progress_count st /\
   ms_sync_base_no_progress_signature st = Some (sync_base_no_progress_signature status) /\
   (r = base_sync_no_progress /\ base_needs_sync status = true /\
      ps_merge_state_status status <> DIRTY \/
    r = merge_conflict_not_reproduced /\
      (ps_merge_state_status status = DIRTY \/ ps_mergeable status = M_CONFLICTING) /\
      has_new_feedback status (ms_threads_addressed_ids st) = false)).
Proof.
  intros H. gate_cases H; auto; right;
    match goal with E : sync_base_no_progress_exhausted _ _ _ = true |- _ =>
      apply exhausted_spec in E as [? ?] end; (split; [done|]; split; [done|]).
  all: repeat match goal with
    | E : eqb _ _ = true |- _ => rewrite eqb_true in E
    | E : eqb _ _ = false |- _ => rewrite eqb_false in E
    end; simpl in *; first [left; by split_and! | right; by auto].
Qed.

Lemma abort_causes_witness :
  let status := sample_status [] SUCCESS [] 0 true in
  let st := sample_state ∅ in let cfg := sample_config true in
  let r := pr_closed_externally in
  decide no_registry f_zero status st cfg = Abort_ r /\
  ((r = pr_closed_externally /\ ps_closed status = true /\ ps_merged status = false) \/
   (0 < mc_max_no_progress_sync_base_attempts cfg <= ms_sync_base_no_progress_count st /\
    ms_sync_base_no_progress_signature st = Some (sync_base_no_progress_signature status) /\
    (r = base_sync_no_progress /\ base_needs_sync status = true /\
       ps_merge_state_status status <> DIRTY \/
     r = merge_conflict_not_reproduced /\
       (ps_merge_state_status status = DIRTY \/ ps_mergeable status = M_CONFLICTING) /\
       has_new_feedback status (ms_threads_addressed_ids st) = false))).
Proof.
  split; [reflexivity|].
  apply (abort_causes no_registry f_zero (sample_status [] SUCCESS [] 0 true) (sample_state ∅)
           (sample_config true) pr_closed_externally).
  reflexivity.
Defined.

(** A repair batch is never empty, is exactly the feedback the policy says
    needs the agent, names each conversation once, and contains nothing that
    already has a final verdict for its current text. *)
Theorem address_comments_batch (registry : string -> bool) (now : float) (status : PRStatus)
    (st : MonitorState) (cfg : MonitorConfig) (ts : list ReviewThread)
    (rs : list ReviewComment) :
  decide registry now status st cfg = AddressComments ts rs ->
  let sm := ms_threads_addressed_ids st in
  (ts <> [] \/ rs <> []) /\ NoDup (thread_ids ts) /\
  (forall t, t ∈ ts <-> t ∈ canonical_threads status sm /\ thread_enters_address_comments sm t = true) /\
  (forall c, c ∈ rs <-> c ∈ ps_unresolved_review_comments status /\
     agent_can_triage_review_comment c = true /\
     needs_comment_attention (sm !! rc_comment_id c) = true).
Proof.
  intros H sm.
  assert (Hb : has_new_feedback status sm = true /\ ts = new_threads status sm /\
               rs = new_reviews status sm).
  { gate_cases H; bool_simpl; auto. }
  destruct Hb as (Hf & -> & ->). unfold has_new_feedback in Hf.
  rewrite orb_true_iff, !nonempty_true in Hf. split; [done|]. split; [|split].
  - apply (sublist_NoDup _ (thread_ids (canonical_threads status sm))).
    + unfold canonical_threads. rewrite canonical_ids. apply NoDup_fromkeys.
    + apply sublist_map, bfilter_sublist.
  - intros t. unfold new_threads. rewrite elem_of_bfilter. tauto.
  - intros c. unfold new_reviews. rewrite elem_of_bfilter, andb_true_iff. tauto.
Qed.

Lemma address_comments_batch_witness :
  let ts := [sample_thread "T1" "please fix"] in
  decide no_registry f_zero one_thread (sample_state ∅) (sample_config true)
    = AddressComments ts [] /\
  (ts <> [] \/ ([] : list ReviewComment) <> []) /\ NoDup (thread_ids ts).
Proof.
  split; [vm_compute; reflexivity|].
  edestruct (address_comments_batch no_registry f_zero one_thread (sample_state ∅)
               (sample_config true) [sample_thread "T1" "please fix"] []) as (H1 & H2 & _);
    [vm_compute; reflexivity|]. split; [exact H1 | exact H2].
Defined.

(** The release variant differs in exactly one place: without auto-merge
    the monitor returns the same action on every input, except that the merge
    becomes a plain notification to the human. *)
Theorem auto_merge_only_final (registry : string -> bool) (now : float) (status : PRStatus)
    (st : MonitorState) (on off : MonitorConfig) :
  mc_auto_merge on = true -> mc_auto_merge off = false ->
  mc_require_ci off = mc_require_ci on ->
  mc_poll_interval_seconds off = mc_poll_interval_seconds on ->
  mc_max_no_progress_sync_base_attempts off = mc_max_no_progress_sync_base_attempts on ->
  mc_ci_transient_rerun_max_attempts off = mc_ci_transient_rerun_max_attempts on ->
  mc_ci_transient_infra_wait_max_seconds off = mc_ci_transient_infra_wait_max_seconds on ->
  mc_ci_transient_infra_wait_max_backoff_seconds off =
    mc_ci_transient_infra_wait_max_backoff_seconds on ->
  decide registry now status st off =
  match decide registry now status st on with
  | Merge => NotifyHuman None None
  | a => a
  end.
Proof.
  intros Hon Hoff H1 H2 H3 H4 H5 H6.
  assert (Hg : gates registry now status st off = gates registry now status st on).
  { unfold gates, gate_sync_base, gate_ci_failure, gate_pending, gate_conflicting,
      gate_required_checks_grace, ci_failure_action, transient_wait_action,
      should_rerun_transient_ci, sync_base_no_progress_exhausted,
      ci_transient_infra_wait_exhausted, ci_transient_infra_wait_seconds.
    by rewrite H1, H2, H3, H4, H5, H6. }
  unfold decide. rewrite Hg. clear Hg. pose proof (gates_never_merge registry now status st on) as Hn.
  induction Hn as [|g l Hne Hl IH]; simpl; [by unfold all_green; rewrite Hon, Hoff|].
  destruct g as [a|]; [|apply IH]. by destruct a.
Qed.

Lemma auto_merge_only_final_witness :
  mc_auto_merge (sample_config true) = true /\ mc_auto_merge (sample_config false) = false /\
  decide no_registry f_zero one_thread fixed_state (sample_config false) =
  match decide no_registry f_zero one_thread fixed_state (sample_config true) with
  | Merge => NotifyHuman None None
  | a => a
  end.
Proof.
  split; [reflexivity|]. split; [reflexivity|].
  apply (auto_merge_only_final no_registry f_zero one_thread fixed_state (sample_config true)
           (sample_config false)); reflexivity.
Defined.
