(* ===== verification/MonitorRuns.v ===== *)
(** * The runner's bookkeeping around [decide]

    The state updates the PR monitor runner makes between two decisions:
    [pr_monitor_runner/helpers.py] (recording and rolling back an item's
    verdict, dropping verdicts that fresh feedback supersedes, the rerun
    attempt) and [pr_monitor_runner/remote_prompt_ops.py] (SyncBase progress). *)

From S2P Require Import Prelude PyStr PyFloat Json Sha256 MonitorModels FeedbackPolicy.
From S2P Require Import CiClass MonitorState Decide Samples DecideSafety.
#[local] Open Scope Z_scope.

(** ** Item keys *)

Definition review_comment_body_state_key (id : string) : string :=
  "__review_comment_body_hash__:" +:+ id.
Definition defer_reason_state_key (id : string) : string := "__defer_reason__:" +:+ id.
Definition agent_failed_reason_state_key (id : string) : string :=
  "__agent_failed_reason__:" +:+ id.
Definition needs_human_reason_state_key (id : string) : string :=
  "__needs_human_reason__:" +:+ id.
Definition item_disposition_key (id : string) : string := "__awf_item_disposition__:" +:+ id.

(** [comment.body or comment.body_excerpt or ""] *)
Definition review_comment_resolution_body (c : ReviewComment) : string :=
  match rc_body c with
  | Some b => if eqb b "" then rc_body_excerpt c else b
  | None => rc_body_excerpt c
  end.

Definition review_comment_body_hash (c : ReviewComment) : string :=
  sha256_hex (review_comment_resolution_body c).

Definition mark_review_comment_addressed (st : MonitorState) (c : ReviewComment)
    (verdict : string) : MonitorState :=
  mark_addressed (mark_addressed st (rc_comment_id c) verdict)
    (review_comment_body_state_key (rc_comment_id c)) (review_comment_body_hash c).

(** ** Rolling an item back *)

Section Rollback.
(** Whether the persisted disposition record of an item says that its reply
    already landed in the thread ([read_item_disposition]). *)
Context (reply_landed : option string -> bool).

Definition pop_keys (sm : state_map) (keys : list string) : state_map :=
  fold_left (fun m k => delete k m) keys sm.

Definition cleared_keys (id : string) : list string :=
  [id; review_thread_body_state_key id; review_comment_body_state_key id;
   needs_human_reason_state_key id; defer_reason_state_key id;
   agent_failed_reason_state_key id; outdated_resolve_requeued_key id].

Definition clear_addressed_state_by_id (st : MonitorState) (id : string)
    (restore_operator_decision keep_posted_reply : bool) : MonitorState :=
  let sm := ms_threads_addressed_ids st in
  let posted := keep_posted_reply && reply_landed (sm !! item_disposition_key id) in
  let body_snapshot := sm !! review_thread_body_state_key id in
  let st1 := set_threads st (pop_keys sm (cleared_keys id)) in
  let st2 := if posted then st1 else pop_thread_key st1 (item_disposition_key id) in
  let retired := ms_threads_addressed_ids st2 !! retired_operator_decision_key id in
  let st3 := pop_thread_key st2 (retired_operator_decision_key id) in
  let st4 :=
    match retired with
    | Some decision =>
        if restore_operator_decision
           && eqb (ms_threads_addressed_ids st3 !! operator_decision_key id) None
        then mark_addressed st3 (operator_decision_key id) decision
        else st3
    | None => st3
    end in
  match body_snapshot with
  | Some body =>
      if negb (eqb (ms_threads_addressed_ids st4 !! operator_decision_key id) None)
      then mark_addressed st4 (review_thread_body_state_key id) body
      else st4
  | None => st4
  end.

(** ** Verdicts superseded by fresh feedback *)

Definition drop_stale_thread (acc : MonitorState * bool) (thread : ReviewThread)
  : MonitorState * bool :=
  let '(st, changed) := acc in
  let sm := ms_threads_addressed_ids st in
  if needs_comment_attention (sm !! rt_thread_id thread) then acc
  else if recorded_review_thread_body_matches (recorded_body sm thread) thread then acc
  else (clear_addressed_state_by_id st (rt_thread_id thread) false false, true).

Definition drop_stale_review_thread_addressed_state (status : PRStatus) (st : MonitorState)
  : MonitorState * bool :=
  fold_left drop_stale_thread (ps_unresolved_inline_threads status) (st, false).

Definition review_comment_needs_attention (st : MonitorState) (c : ReviewComment) : bool :=
  let sm := ms_threads_addressed_ids st in
  if needs_comment_attention (sm !! rc_comment_id c) then true
  else negb (eqb (sm !! review_comment_body_state_key (rc_comment_id c))
                 (Some (review_comment_body_hash c))).

Definition drop_stale_comment (acc : MonitorState * bool) (c : ReviewComment)
  : MonitorState * bool :=
  let '(st, changed) := acc in
  let sm := ms_threads_addressed_ids st in
  if needs_comment_attention (sm !! rc_comment_id c) then acc
  else if eqb (sm !! review_comment_body_state_key (rc_comment_id c))
              (Some (review_comment_body_hash c)) then acc
  else (clear_addressed_state_by_id st (rc_comment_id c) true true, true).

Definition drop_stale_review_comment_addressed_state (status : PRStatus) (st : MonitorState)
  : MonitorState * bool :=
  fold_left drop_stale_comment (ps_unresolved_review_comments status) (st, false).
End Rollback.

(** [_monitor_state_verdict] *)
Definition monitor_state_verdict (verdict : string) : string :=
  let normalized := lower (strip verdict) in
  if eqb normalized "false_positive" then "false_positive"
  else if eqb normalized "needs_human" then "needs_human"
  else if eqb normalized "defer" then "defer"
  else if eqb normalized "agent_failed" then "agent_failed"
  else "fix_committed".

(** ** SyncBase progress *)

(** The two fields of a push result the bookkeeping reads. *)
Record PushResult : Type := { push_pushed : bool; push_failed : bool }.

Definition set_sync (st : MonitorState) (signature : option string) (count : Z) : MonitorState :=
  {| ms_iter_count := ms_iter_count st;
     ms_last_push_sha := ms_last_push_sha st;
     ms_hosted_terminal_head_advanced := ms_hosted_terminal_head_advanced st;
     ms_monitor_writes_suppressed := ms_monitor_writes_suppressed st;
     ms_current_pr_head_ref := ms_current_pr_head_ref st;
     ms_current_pr_head_ref_checked := ms_current_pr_head_ref_checked st;
     ms_pending_item_commit_provenance := ms_pending_item_commit_provenance st;
     ms_sync_base_no_progress_signature := signature;
     ms_sync_base_no_progress_count := count;
     ms_threads_addressed_ids := ms_threads_addressed_ids st;
     ms_started_at := ms_started_at st;
     ms_pending_operator_hint := ms_pending_operator_hint st;
     ms_changed_thread_ids := ms_changed_thread_ids st |}.

Definition record_sync_base_progress (st : MonitorState) (status : PRStatus)
    (push : PushResult) : MonitorState :=
  if push_pushed push || push_failed push then set_sync st None 0
  else
    let signature := sync_base_no_progress_signature status in
    if eqb (ms_sync_base_no_progress_signature st) (Some signature)
    then set_sync st (ms_sync_base_no_progress_signature st)
           (ms_sync_base_no_progress_count st + 1)
    else set_sync st (Some signature) 1.

(** ** Rerun attempts *)

Definition ci_transient_rerun_attempt (st : MonitorState) (head_sha : string)
    (failures : list CheckFailure) (legacy_failures : option (list CheckFailure))
  : MonitorState * Z :=
  let key := ci_transient_rerun_state_key head_sha failures in
  let attempt := ci_transient_rerun_count st head_sha failures legacy_failures + 1 in
  let st1 := set_threads st (<[key := py_str attempt]> (ms_threads_addressed_ids st)) in
  match legacy_failures with
  | Some l =>
      if negb (eqb l failures)
      then (pop_thread_key st1 (ci_transient_rerun_state_key head_sha l), attempt)
      else (st1, attempt)
  | None => (st1, attempt)
  end.

(** ** Progress of the monitor between decisions

    What the runner's bookkeeping does to the next decision: recording a verdict
    takes the item out of the repair feed, rolling it back puts it back together
    with the operator's ruling, bookkeeping keys are invisible to [decide], and
    the SyncBase and rerun budgets are finite. *)

(** ** State keys never collide *)

(** Inequality of two state keys: different families by their prefixes, the
    same family by its id, a forge id by its first characters. *)
Ltac key_tac :=
  solve [assumption | apply not_eq_sym; assumption] ||
  (unfold review_thread_body_state_key, operator_decision_key, retired_operator_decision_key,
    outdated_resolve_requeued_key, merge_method_blocked_key, review_comment_body_state_key,
    defer_reason_state_key, agent_failed_reason_state_key, needs_human_reason_state_key,
    item_disposition_key;
  first
    [ by apply forge_id_ne
    | apply not_eq_sym; by apply forge_id_ne
    | by apply key_ne
    | intros Heq_key%str_app_inj_l; congruence ]).

(** Push a lookup through the updates above it. *)
Ltac lookup_key :=
  repeat first
    [ rewrite lookup_insert_eq
    | rewrite lookup_delete_eq
    | rewrite lookup_insert_ne by key_tac
    | rewrite lookup_delete_ne by key_tac ].

Lemma threads_mark (st : MonitorState) (k v : string) :
  ms_threads_addressed_ids (mark_addressed st k v) = <[k := v]> (ms_threads_addressed_ids st).
Proof. done. Qed.

Lemma threads_pop (st : MonitorState) (k : string) :
  ms_threads_addressed_ids (pop_thread_key st k) = delete k (ms_threads_addressed_ids st).
Proof. done. Qed.

Section MarkThread.
Context (st : MonitorState) (t : ReviewThread) (v : string).
Context (Hid : forge_id (rt_thread_id t) = true).
Let st' : MonitorState := mark_review_thread_addressed st t v.

(** The state map before the operator ruling is retired. *)
Let mid : state_map :=
  ms_threads_addressed_ids (mark_addressed (mark_addressed st (rt_thread_id t) v)
             (review_thread_body_state_key (rt_thread_id t)) (review_thread_body_hash t)).

Lemma mark_other (k : string) :
  k <> operator_decision_key (rt_thread_id t) -> k <> retired_operator_decision_key (rt_thread_id t) ->
  ms_threads_addressed_ids st' !! k = mid !! k.
Proof.
  intros H1 H2. unfold st', mid, mark_review_thread_addressed.
  repeat case_goal; rewrite ?threads_mark, ?threads_pop; lookup_key; done.
Qed.

Lemma mark_verdict : ms_threads_addressed_ids st' !! (rt_thread_id t) = Some v.
Proof. rewrite mark_other by key_tac. unfold mid. rewrite !threads_mark. by lookup_key. Qed.

Lemma mark_body :
  ms_threads_addressed_ids st' !! review_thread_body_state_key (rt_thread_id t) = Some (review_thread_body_hash t).
Proof. rewrite mark_other by key_tac. unfold mid. rewrite !threads_mark. by lookup_key. Qed.

Lemma mark_verdict_other (k : string) :
  forge_id k = true -> k <> (rt_thread_id t) -> ms_threads_addressed_ids st' !! k = ms_threads_addressed_ids st !! k.
Proof.
  intros Hk Hne. rewrite mark_other by key_tac. unfold mid. rewrite !threads_mark. by lookup_key.
Qed.

Lemma mark_body_other (k : string) :
  k <> (rt_thread_id t) ->
  ms_threads_addressed_ids st' !! review_thread_body_state_key k = ms_threads_addressed_ids st !! review_thread_body_state_key k.
Proof.
  intros Hne. rewrite mark_other by key_tac. unfold mid. rewrite !threads_mark. by lookup_key.
Qed.
End MarkThread.

Section MarkComment.
Context (st : MonitorState) (c : ReviewComment) (v : string).
Context (Hid : forge_id (rc_comment_id c) = true).
Let st' : MonitorState := mark_review_comment_addressed st c v.

Lemma mark_comment_verdict : ms_threads_addressed_ids st' !! rc_comment_id c = Some v.
Proof. unfold st', mark_review_comment_addressed. rewrite !threads_mark. by lookup_key. Qed.

Lemma mark_comment_other (k : string) :
  forge_id k = true -> k <> rc_comment_id c -> ms_threads_addressed_ids st' !! k = ms_threads_addressed_ids st !! k.
Proof.
  intros Hk Hne. unfold st', mark_review_comment_addressed. rewrite !threads_mark. by lookup_key.
Qed.

Lemma mark_comment_body (k : string) :
  ms_threads_addressed_ids st' !! review_thread_body_state_key k = ms_threads_addressed_ids st !! review_thread_body_state_key k.
Proof. unfold st', mark_review_comment_addressed. rewrite !threads_mark. by lookup_key. Qed.
End MarkComment.

(** ** Recording a whole batch *)

Section Batch.
Context (vt : ReviewThread -> string) (vc : ReviewComment -> string).

Definition mark_threads (ts : list ReviewThread) (st : MonitorState) : MonitorState :=
  fold_left (fun st t => mark_review_thread_addressed st t (vt t)) ts st.

Definition mark_comments (rs : list ReviewComment) (st : MonitorState) : MonitorState :=
  fold_left (fun st c => mark_review_comment_addressed st c (vc c)) rs st.

Definition mark_batch (ts : list ReviewThread) (rs : list ReviewComment) (st : MonitorState)
  : MonitorState := mark_comments rs (mark_threads ts st).

Lemma mark_threads_other (ts : list ReviewThread) (st : MonitorState) (k : string) :
  (forall t, t ∈ ts -> forge_id (rt_thread_id t) = true) -> k ∉ thread_ids ts ->
  (forge_id k = true ->
   ms_threads_addressed_ids (mark_threads ts st) !! k = ms_threads_addressed_ids st !! k) /\
  ms_threads_addressed_ids (mark_threads ts st) !! review_thread_body_state_key k =
  ms_threads_addressed_ids st !! review_thread_body_state_key k.
Proof.
  revert st. induction ts as [|t ts IH]; intros st Hf Hk; [done|]. simpl.
  unfold thread_ids in Hk. simpl in Hk. apply not_elem_of_cons in Hk as [Hne Hk].
  destruct (IH (mark_review_thread_addressed st t (vt t))) as [H1 H2];
    [intros u Hu; apply Hf; by right | done |].
  assert (Ht : forge_id (rt_thread_id t) = true) by (apply Hf; left). split.
  - intros Hfk. rewrite H1 by done. by apply mark_verdict_other.
  - rewrite H2. by apply mark_body_other.
Qed.

Lemma mark_threads_in (ts : list ReviewThread) (st : MonitorState) (t : ReviewThread) :
  (forall t, t ∈ ts -> forge_id (rt_thread_id t) = true) -> NoDup (thread_ids ts) -> t ∈ ts ->
  ms_threads_addressed_ids (mark_threads ts st) !! rt_thread_id t = Some (vt t) /\
  ms_threads_addressed_ids (mark_threads ts st) !! review_thread_body_state_key (rt_thread_id t)
    = Some (review_thread_body_hash t).
Proof.
  revert st. induction ts as [|u ts IH]; intros st Hf Hn Ht; [by apply elem_of_nil in Ht|].
  unfold thread_ids in Hn. simpl in Hn. apply NoDup_cons in Hn as [Hu Hn]. simpl.
  assert (Hfu : forge_id (rt_thread_id u) = true) by (apply Hf; left).
  assert (Hf' : forall t, t ∈ ts -> forge_id (rt_thread_id t) = true)
    by (intros w Hw; apply Hf; by right).
  apply elem_of_cons in Ht as [->|Ht]; [|by apply IH].
  destruct (mark_threads_other ts (mark_review_thread_addressed st u (vt u)) (rt_thread_id u)
              Hf' Hu) as [Hv Hb].
  by rewrite (Hv Hfu), Hb, mark_verdict, mark_body.
Qed.

Lemma mark_comments_body (rs : list ReviewComment) (st : MonitorState) (k : string) :
  (forall c, c ∈ rs -> forge_id (rc_comment_id c) = true) ->
  ms_threads_addressed_ids (mark_comments rs st) !! review_thread_body_state_key k =
  ms_threads_addressed_ids st !! review_thread_body_state_key k.
Proof.
  revert st. induction rs as [|c rs IH]; intros st Hf; [done|]. simpl.
  rewrite IH by (intros d Hd; apply Hf; by right). apply mark_comment_body. apply Hf. left.
Qed.

(** After the comments are recorded a forge id has one of their verdicts, or
    what it had before. *)
Lemma mark_comments_verdict (rs : list ReviewComment) (st : MonitorState) (k : string) :
  (forall c, c ∈ rs -> forge_id (rc_comment_id c) = true) -> forge_id k = true ->
  ms_threads_addressed_ids (mark_comments rs st) !! k =
    ms_threads_addressed_ids st !! k /\ k ∉ map rc_comment_id rs \/
  exists c, c ∈ rs /\ k = rc_comment_id c /\
    ms_threads_addressed_ids (mark_comments rs st) !! k = Some (vc c).
Proof.
  revert st. induction rs as [|c rs IH]; intros st Hf Hk.
  - left. split; [done|]. apply not_elem_of_nil.
  - simpl. assert (Hc : forge_id (rc_comment_id c) = true) by (apply Hf; left).
    destruct (IH (mark_review_comment_addressed st c (vc c))) as [[He Hn]|(d & Hd & -> & He)];
      [intros d Hd; apply Hf; by right | done | |].
    + destruct (base.decide (k = rc_comment_id c)) as [->|Hne].
      * right. exists c. split; [left|]. split; [done|]. by rewrite He, mark_comment_verdict.
      * left. rewrite He, mark_comment_other by done. split; [done|]. by apply not_elem_of_cons.
    + right. exists d. split; [by right|]. done.
Qed.
End Batch.

(** ** Repair makes progress *)

(** The ids of a snapshot are forge ids, and thread ids differ from comment ids. *)
Definition well_formed_ids (status : PRStatus) : Prop :=
  (forall t, t ∈ ps_unresolved_inline_threads status ++ ps_outdated_unresolved_inline_threads status ->
     forge_id (rt_thread_id t) = true) /\
  (forall c, c ∈ ps_unresolved_review_comments status -> forge_id (rc_comment_id c) = true) /\
  (forall t c, t ∈ ps_unresolved_inline_threads status ++ ps_outdated_unresolved_inline_threads status ->
     c ∈ ps_unresolved_review_comments status -> rt_thread_id t <> rc_comment_id c).

Lemma canonical_in_feeds (status : PRStatus) (sm : state_map) (t : ReviewThread) :
  t ∈ canonical_threads status sm ->
  t ∈ ps_unresolved_inline_threads status ++ ps_outdated_unresolved_inline_threads status.
Proof.
  unfold canonical_threads. rewrite canonical_elem. intros Ht%preferred_in.
  unfold owning_copies in Ht. rewrite elem_of_app.
  destruct (copies_of _ (ps_unresolved_inline_threads status)) eqn:E;
    [|rewrite <- E in Ht]; apply elem_of_copies_of in Ht; tauto.
Qed.

(** The copy preferred for an id only depends on the body recorded for it. *)
Lemma preferred_ext (sm sm' : state_map) (copies : list ReviewThread) (id : string) :
  (forall c, c ∈ copies -> rt_thread_id c = id) ->
  sm' !! review_thread_body_state_key id = sm !! review_thread_body_state_key id ->
  preferred_duplicate_review_thread copies (Some sm') =
  preferred_duplicate_review_thread copies (Some sm).
Proof.
  intros Hid Hb.
  assert (Hm : forall c, c ∈ copies -> body_matches_recorded sm' c = body_matches_recorded sm c).
  { intros c Hc. unfold body_matches_recorded, recorded_body. by rewrite (Hid c Hc), Hb. }
  induction copies as [|c l IH] using rev_ind; [done|]. rewrite !preferred_snoc.
  rewrite IH by (intros x Hx; (apply Hid || apply Hm); apply elem_of_app; by left).
  destruct (preferred_duplicate_review_thread l (Some sm)) as [r|] eqn:E; [|done].
  apply preferred_in in E. f_equal. unfold prefer_duplicate_review_thread.
  by rewrite !Hm by (apply elem_of_app; (by left) || (right; left)).
Qed.

Lemma not_entering (sm : state_map) (t : ReviewThread) (v : string) :
  sm !! rt_thread_id t = Some v -> v <> "agent_failed" -> body_matches_recorded sm t = true ->
  thread_enters_address_comments sm t = false.
Proof.
  unfold thread_enters_address_comments, body_matches_recorded. intros -> Hv Hb.
  unfold needs_comment_attention.
  rewrite (proj2 (eqb_false (Some v) None)), (proj2 (eqb_false (Some v) (Some "agent_failed")))
    by congruence. simpl. destruct (negb _); [done|].
  destruct (recorded_body sm t); [|done]. by rewrite Hb.
Qed.


Section Progress.
Context (status : PRStatus) (st : MonitorState).
Context (vt : ReviewThread -> string) (vc : ReviewComment -> string).
Context (Hwf : well_formed_ids status).
Context (Hvt : forall t, vt t <> "agent_failed") (Hvc : forall c, vc c <> "agent_failed").
Let sm : state_map := ms_threads_addressed_ids st.
Let ts : list ReviewThread := new_threads status sm.
Let rs : list ReviewComment := new_reviews status sm.
Let sm' : state_map := ms_threads_addressed_ids (mark_batch vt vc ts rs st).

Lemma batch_thread_ids (t : ReviewThread) : t ∈ ts -> forge_id (rt_thread_id t) = true.
Proof.
  intros Ht. unfold ts, new_threads in Ht. apply elem_of_bfilter in Ht as [_ Ht].
  apply Hwf. by apply (canonical_in_feeds _ sm).
Qed.

Lemma batch_comment (c : ReviewComment) :
  c ∈ rs -> c ∈ ps_unresolved_review_comments status.
Proof. intros Hc. unfold rs, new_reviews in Hc. by apply elem_of_bfilter in Hc as [_ Hc]. Qed.

Lemma batch_comment_ids (c : ReviewComment) : c ∈ rs -> forge_id (rc_comment_id c) = true.
Proof. intros Hc%batch_comment. by apply Hwf. Qed.

Lemma batch_ts_NoDup : NoDup (thread_ids ts).
Proof.
  eapply sublist_NoDup; [|apply sublist_map, bfilter_sublist].
  change (NoDup (thread_ids (canonical_threads status sm))).
  unfold canonical_threads. rewrite canonical_ids. apply NoDup_fromkeys.
Qed.

(** A thread id of the snapshot keeps its verdict unless its thread is in the
    batch: the comments of the batch have other ids. *)
Lemma batch_thread_verdict (t : ReviewThread) :
  t ∈ ps_unresolved_inline_threads status ++ ps_outdated_unresolved_inline_threads status ->
  sm' !! rt_thread_id t =
  ms_threads_addressed_ids (mark_threads vt ts st) !! rt_thread_id t.
Proof.
  intros Ht. destruct Hwf as (Hf & _ & Hne). unfold sm', mark_batch.
  destruct (mark_comments_verdict vc rs (mark_threads vt ts st) (rt_thread_id t))
    as [[He _]|(c & Hc & E & _)]; [apply batch_comment_ids | by apply Hf | done |].
  by apply Hne in E; [|done|apply batch_comment].
Qed.

Lemma batch_body (k : string) :
  sm' !! review_thread_body_state_key k =
  ms_threads_addressed_ids (mark_threads vt ts st) !! review_thread_body_state_key k.
Proof. apply mark_comments_body, batch_comment_ids. Qed.

Lemma no_thread_left (t' : ReviewThread) :
  t' ∈ canonical_threads status sm' -> thread_enters_address_comments sm' t' = false.
Proof.
  intros Ht'. pose proof (canonical_in_feeds _ _ _ Ht') as Hin'.
  unfold canonical_threads in Ht'. apply canonical_elem in Ht'.
  set (copies := owning_copies _ _ _) in Ht'.
  assert (Hc : forall c, c ∈ copies -> rt_thread_id c = rt_thread_id t')
    by (intros c; apply owning_copies_id).
  destruct (preferred_duplicate_review_thread copies (Some sm)) as [t|] eqn:Et;
    [|by destruct copies].
  pose proof (Hc t (preferred_in _ _ _ Et)) as Hid.
  assert (Hcan : t ∈ canonical_threads status sm)
    by (unfold canonical_threads; apply canonical_elem; by rewrite Hid).
  destruct (thread_enters_address_comments sm t) eqn:Een.
  - assert (Hts : t ∈ ts) by (by apply elem_of_bfilter).
    destruct (mark_threads_in vt ts st t batch_thread_ids batch_ts_NoDup Hts) as [Hv Hb].
    apply (not_entering sm' t' (vt t)); [by rewrite batch_thread_verdict, <- Hid | done |].
    apply (preferred_best sm' copies t' Ht') with (c := t).
    + by apply (preferred_in _ (Some sm)).
    + unfold body_matches_recorded, recorded_body. rewrite batch_body, Hb.
      apply recorded_matches_current.
    + apply (preferred_best sm copies t Et), (preferred_in _ (Some sm')), Ht'.
  - assert (Hnot : rt_thread_id t' ∉ thread_ids ts).
    { rewrite <- Hid. intros (u & Hu & Hin)%list_elem_of_fmap.
      apply elem_of_bfilter in Hin as [Hue Hin]. unfold canonical_threads in Hin, Hcan.
      apply canonical_elem in Hin, Hcan. rewrite Hu in Hcan. congruence. }
    destruct (mark_threads_other vt ts st (rt_thread_id t') batch_thread_ids Hnot) as [Hv Hb].
    rewrite <- batch_thread_verdict in Hv by done. rewrite <- batch_body in Hb.
    rewrite (preferred_ext sm sm' copies _ Hc Hb), Et in Ht'. injection Ht' as ->.
    unfold thread_enters_address_comments, recorded_body in *.
    rewrite Hv, Hb by (by apply Hwf). done.
Qed.

Lemma no_review_left (c : ReviewComment) :
  c ∈ ps_unresolved_review_comments status -> agent_can_triage_review_comment c = true ->
  needs_comment_attention (sm' !! rc_comment_id c) = false.
Proof.
  intros Hc Ha. destruct Hwf as (_ & Hfc & Hne). unfold sm', mark_batch.
  destruct (mark_comments_verdict vc rs (mark_threads vt ts st) (rc_comment_id c))
    as [[He Hn]|(d & _ & _ & He)]; [apply batch_comment_ids | by apply Hfc | |].
  - rewrite He. destruct (mark_threads_other vt ts st (rc_comment_id c)) as [Hv _];
      [apply batch_thread_ids | |].
    + intros (t & Hid & Ht)%list_elem_of_fmap. apply elem_of_bfilter in Ht as [_ Ht].
      by apply (Hne t c); [apply (canonical_in_feeds _ sm)|done|].
    + rewrite Hv by (by apply Hfc).
      destruct (needs_comment_attention _) eqn:E; [|done]. destruct Hn.
      apply list_elem_of_fmap. exists c. split; [done|]. apply elem_of_bfilter.
      fold sm in E. by rewrite Ha, E.
  - rewrite He. unfold needs_comment_attention.
    rewrite (proj2 (eqb_false _ None)), (proj2 (eqb_false _ (Some "agent_failed")));
      [done | intros [=]; by eapply Hvc | done].
Qed.

Lemma batch_settled : has_new_feedback status sm' = false.
Proof.
  unfold has_new_feedback. rewrite orb_false_iff, !nonempty_false.
  unfold new_threads, new_reviews. rewrite !bfilter_nil. split; [apply no_thread_left|].
  intros c Hc. apply andb_false_iff.
  destruct (agent_can_triage_review_comment c) eqn:E; [right|by left]. by apply no_review_left.
Qed.
End Progress.

(** ** Bookkeeping keys are invisible to [decide] *)

(** The keys of the state map that a decision on a snapshot can read. *)
Definition reads (status : PRStatus) (k : string) : Prop :=
  (exists t, t ∈ ps_unresolved_inline_threads status ++ ps_outdated_unresolved_inline_threads status /\
     (k = rt_thread_id t \/ k = review_thread_body_state_key (rt_thread_id t) \/
      k = outdated_resolve_requeued_key (rt_thread_id t))) \/
  (exists c, c ∈ ps_unresolved_review_comments status /\ k = rc_comment_id c) \/
  k = merge_method_blocked_key (ps_number status) (ps_head_sha status) \/
  k = PROTECTED_BLOCK_PRESERVED_HEAD_STATE_KEY \/
  (exists fs, k = ci_transient_rerun_state_key (ps_head_sha status) fs \/
     k = ci_transient_infra_wait_started_key (ps_head_sha status) fs \/
     k = ci_transient_infra_wait_count_key (ps_head_sha status) fs).

(** Two states that differ only in fields and keys no decision reads. *)
Record same_for (status : PRStatus) (st st' : MonitorState) : Prop := {
  sf_map : forall k, reads status k ->
    ms_threads_addressed_ids st' !! k = ms_threads_addressed_ids st !! k;
  sf_signature : ms_sync_base_no_progress_signature st' = ms_sync_base_no_progress_signature st;
  sf_count : ms_sync_base_no_progress_count st' = ms_sync_base_no_progress_count st;
  sf_hint : ms_pending_operator_hint st' = ms_pending_operator_hint st
}.

Section SameFor.
Context (status : PRStatus) (st st' : MonitorState) (Hs : same_for status st st').
Let sm : state_map := ms_threads_addressed_ids st.
Let sm' : state_map := ms_threads_addressed_ids st'.

Lemma reads_thread (t : ReviewThread) :
  t ∈ ps_unresolved_inline_threads status ++ ps_outdated_unresolved_inline_threads status ->
  sm' !! rt_thread_id t = sm !! rt_thread_id t /\
  sm' !! review_thread_body_state_key (rt_thread_id t) =
    sm !! review_thread_body_state_key (rt_thread_id t) /\
  sm' !! outdated_resolve_requeued_key (rt_thread_id t) =
    sm !! outdated_resolve_requeued_key (rt_thread_id t).
Proof. intros Ht. split_and!; apply Hs; left; exists t; auto. Qed.

Lemma same_canonical : canonical_threads status sm' = canonical_threads status sm.
Proof.
  unfold canonical_threads.
  pose proof (canonical_repr (ps_unresolved_inline_threads status)
                (ps_outdated_unresolved_inline_threads status)) as Hr.
  apply (Forall2_Some_det _ _ _ _ _ (Hr (Some sm')) (Hr (Some sm))). intros k Hk.
  apply (preferred_ext sm sm' _ k); [intros c; apply owning_copies_id|].
  rewrite elem_of_fromkeys in Hk. unfold thread_ids in Hk. rewrite <- map_app in Hk.
  apply list_elem_of_fmap in Hk as (t & -> & Ht). exact (proj1 (proj2 (reads_thread t Ht))).
Qed.

Lemma same_enters (t : ReviewThread) :
  t ∈ ps_unresolved_inline_threads status ++ ps_outdated_unresolved_inline_threads status ->
  thread_enters_address_comments sm' t = thread_enters_address_comments sm t.
Proof.
  intros Ht. unfold thread_enters_address_comments, recorded_body.
  by destruct (reads_thread t Ht) as (-> & -> & _).
Qed.

Lemma same_comment (c : ReviewComment) :
  c ∈ ps_unresolved_review_comments status -> sm' !! rc_comment_id c = sm !! rc_comment_id c.
Proof. intros Hc. apply Hs. right; left. eauto. Qed.

Lemma same_new_threads : new_threads status sm' = new_threads status sm.
Proof.
  unfold new_threads. rewrite same_canonical. apply filter_ext_in. intros t Ht.
  apply same_enters, (canonical_in_feeds _ sm). by apply list_elem_of_In.
Qed.

Lemma same_new_reviews : new_reviews status sm' = new_reviews status sm.
Proof.
  unfold new_reviews. apply filter_ext_in. intros c Hc. rewrite same_comment; [done|].
  by apply list_elem_of_In.
Qed.

Lemma same_count_key (k : string) : reads status k -> count_for_key st' k = count_for_key st k.
Proof. intros Hk. unfold count_for_key. by rewrite (sf_map _ _ _ Hs k Hk). Qed.

Lemma reads_ci (fs : list CheckFailure) :
  reads status (ci_transient_rerun_state_key (ps_head_sha status) fs) /\
  reads status (ci_transient_infra_wait_started_key (ps_head_sha status) fs) /\
  reads status (ci_transient_infra_wait_count_key (ps_head_sha status) fs).
Proof. split_and!; do 4 right; exists fs; auto. Qed.

Lemma same_budgets (fs : list CheckFailure) (legacy : option (list CheckFailure)) :
  ci_transient_rerun_count st' (ps_head_sha status) fs legacy =
    ci_transient_rerun_count st (ps_head_sha status) fs legacy /\
  ci_transient_infra_wait_count st' (ps_head_sha status) fs =
    ci_transient_infra_wait_count st (ps_head_sha status) fs /\
  ci_transient_infra_wait_started_at st' (ps_head_sha status) fs =
    ci_transient_infra_wait_started_at st (ps_head_sha status) fs.
Proof.
  destruct (reads_ci fs) as (H1 & H2 & H3). split_and!.
  - unfold ci_transient_rerun_count. rewrite (same_count_key _ H1).
    destruct legacy as [l|]; [|done]. by rewrite (same_count_key _ (proj1 (reads_ci l))).
  - unfold ci_transient_infra_wait_count. by rewrite (same_count_key _ H3).
  - unfold ci_transient_infra_wait_started_at. by rewrite (sf_map _ _ _ Hs _ H2).
Qed.

Lemma same_ci_action (registry : string -> bool) (now : float) (cfg : MonitorConfig) :
  ci_failure_action registry now status st' cfg = ci_failure_action registry now status st cfg.
Proof.
  pose proof (same_budgets (ci_candidate_failures status)) as Hb.
  destruct (Hb (Some (ps_ci_failures status))) as (H1 & H2 & H3).
  unfold ci_failure_action, should_rerun_transient_ci, transient_wait_action,
    ci_transient_infra_wait_exhausted, ci_transient_infra_wait_seconds.
  by rewrite H1, H2, H3.
Qed.

Lemma existsb_ext {A : Type} (f g : A -> bool) (l : list A) :
  (forall x, x ∈ l -> f x = g x) -> existsb f l = existsb g l.
Proof.
  induction l as [|a l IH]; intros H; simpl; [done|]. rewrite H by left.
  f_equal. apply IH. intros x Hx. apply H. by right.
Qed.

Lemma same_outdated (copies : list ReviewThread) :
  copies ∈ outdated_groups status ->
  match preferred_duplicate_review_thread copies (Some sm') with
  | Some t => outdated_thread_blocks_merge status sm' t
  | None => false
  end =
  match preferred_duplicate_review_thread copies (Some sm) with
  | Some t => outdated_thread_blocks_merge status sm t
  | None => false
  end.
Proof.
  unfold outdated_groups. intros (id & -> & Hid)%list_elem_of_fmap.
  rewrite elem_of_fromkeys in Hid. apply list_elem_of_fmap in Hid as (u & -> & Hu).
  assert (Hr := reads_thread u ltac:(apply elem_of_app; by right)).
  rewrite (preferred_ext sm sm' _ (rt_thread_id u));
    [|by intros c [? _]%elem_of_copies_of|exact (proj1 (proj2 Hr))].
  destruct (preferred_duplicate_review_thread _ (Some sm)) as [t|] eqn:Et; [|done].
  apply preferred_in, elem_of_copies_of in Et as [Hid _].
  unfold outdated_thread_blocks_merge, outdated_thread_has_fresh_feedback,
    thread_needs_attention, recorded_body. rewrite Hid. by destruct Hr as (-> & -> & ->).
Qed.

Lemma same_blocking : has_blocking_feedback status sm' = has_blocking_feedback status sm.
Proof.
  unfold has_blocking_feedback. rewrite same_canonical. f_equal; [f_equal|].
  - apply existsb_ext. intros t Ht. unfold thread_blocks_merge.
    by rewrite (proj1 (reads_thread t (canonical_in_feeds _ _ _ Ht))).
  - apply existsb_ext. intros c Hc. unfold review_comment_blocks_merge.
    by rewrite (same_comment c Hc).
  - apply existsb_ext, same_outdated.
Qed.

Lemma same_preserved : has_preserved_protected_block st' = has_preserved_protected_block st.
Proof.
  unfold has_preserved_protected_block. rewrite (sf_map _ _ _ Hs); [done|]. do 3 right. by left.
Qed.

Lemma same_merge_method : merge_method_blocker status sm' = merge_method_blocker status sm.
Proof. apply Hs. do 2 right. by left. Qed.

Lemma same_gates (registry : string -> bool) (now : float) (cfg : MonitorConfig) :
  gates registry now status st' cfg = gates registry now status st cfg.
Proof.
  unfold gates, gate_preserved_block, gate_sync_base, gate_operator_hint, gate_comments,
    gate_ci_failure, gate_conflicting, gate_blocking_feedback, gate_merge_method,
    sync_base_no_progress_exhausted, has_new_feedback.
  fold sm sm'. rewrite same_new_threads, same_new_reviews, same_blocking, same_preserved,
    same_merge_method, same_ci_action.
  by rewrite (sf_signature _ _ _ Hs), (sf_count _ _ _ Hs), (sf_hint _ _ _ Hs).
Qed.
End SameFor.

(** ** Rolling back *)

Lemma pop_keys_lookup (sm : state_map) (keys : list string) (k : string) :
  pop_keys sm keys !! k = if mem k keys then None else sm !! k.
Proof.
  unfold pop_keys. revert sm. induction keys as [|j keys IH]; intros sm; simpl; [done|].
  rewrite IH. change (mem k (j :: keys)) with (eqb k j || mem k keys).
  destruct (mem k keys); [by rewrite orb_true_r|]. rewrite orb_false_r.
  destruct (eqb k j) eqn:E.
  - rewrite eqb_true in E. subst. apply lookup_delete_eq.
  - rewrite eqb_false in E. by rewrite lookup_delete_ne.
Qed.

Lemma marked_ruling (st : MonitorState) (t : ReviewThread) (v d : string) :
  v <> "agent_failed" ->
  ms_threads_addressed_ids st !! operator_decision_key (rt_thread_id t) = Some d ->
  forge_id (rt_thread_id t) = true ->
  let m := ms_threads_addressed_ids (mark_review_thread_addressed st t v) in
  m !! operator_decision_key (rt_thread_id t) = None /\
  m !! retired_operator_decision_key (rt_thread_id t) = Some d.
Proof.
  intros Hv Hd Hf. unfold mark_review_thread_addressed.
  rewrite (proj2 (eqb_false v "agent_failed") Hv). cbv zeta. cbn [negb].
  match goal with |- context [if ?b && ?c then ?x else ?y] =>
    set (st3 := if b && c then x else y) end.
  assert (H3 : ms_threads_addressed_ids st3 !! operator_decision_key (rt_thread_id t) = Some d).
  { subst st3. case_goal; rewrite ?threads_pop, !threads_mark; lookup_key; exact Hd. }
  rewrite H3. rewrite threads_mark, threads_pop. split; by lookup_key.
Qed.

Lemma rulings_not_cleared (id : string) :
  forge_id id = true ->
  mem (operator_decision_key id) (cleared_keys id) = false /\
  mem (retired_operator_decision_key id) (cleared_keys id) = false.
Proof.
  intros Hf. unfold cleared_keys. rewrite !mem_false, !not_elem_of_cons.
  split; split_and!; try apply not_elem_of_nil; key_tac.
Qed.

(** A rollback with no live ruling restores the parked one. *)
Lemma clear_restores (reply_landed : option string -> bool) (st : MonitorState)
    (id d body : string) (keep : bool) :
  let m := ms_threads_addressed_ids st in
  let r := ms_threads_addressed_ids (clear_addressed_state_by_id reply_landed st id true keep) in
  forge_id id = true ->
  m !! operator_decision_key id = None -> m !! retired_operator_decision_key id = Some d ->
  m !! review_thread_body_state_key id = Some body ->
  r !! operator_decision_key id = Some d /\ r !! retired_operator_decision_key id = None /\
  r !! id = None /\ r !! review_thread_body_state_key id = Some body.
Proof.
  intros m r Hf Hd Hr Hb. subst r. unfold clear_addressed_state_by_id. fold m. rewrite Hb.
  set (st1 := set_threads st (pop_keys m (cleared_keys id))).
  set (st2 := if keep && _ then st1 else _).
  assert (H2 : forall k, k <> item_disposition_key id ->
    ms_threads_addressed_ids st2 !! k = if mem k (cleared_keys id) then None else m !! k).
  { intros k Hk. subst st2. case_goal; rewrite ?threads_pop; lookup_key;
      unfold st1, set_threads, set_maps; cbn [ms_threads_addressed_ids]; apply pop_keys_lookup. }
  rewrite H2 by key_tac.
  rewrite (proj2 (rulings_not_cleared id Hf)).
  rewrite Hr. rewrite threads_pop. lookup_key. rewrite H2 by key_tac.
  rewrite (proj1 (rulings_not_cleared id Hf)).
  rewrite Hd, eqb_refl. cbn [andb]. rewrite threads_mark. lookup_key.
  rewrite (proj2 (eqb_false (Some d) None)) by done. cbn [negb].
  rewrite threads_mark, threads_mark, threads_pop. lookup_key. split_and!; try done.
  rewrite H2 by key_tac. by rewrite (proj2 (mem_true _ _)) by left.
Qed.

(** ** Finite budgets *)

Fixpoint no_progress_syncs (n : nat) (status : PRStatus) (st : MonitorState) : MonitorState :=
  match n with
  | O => st
  | S n' => record_sync_base_progress (no_progress_syncs n' status st) status
              {| push_pushed := false; push_failed := false |}
  end.

Lemma no_progress_count (n : nat) (status : PRStatus) (st : MonitorState) :
  0 <= ms_sync_base_no_progress_count st -> (0 < n)%nat ->
  ms_sync_base_no_progress_signature (no_progress_syncs n status st) =
    Some (sync_base_no_progress_signature status) /\
  Z.of_nat n <= ms_sync_base_no_progress_count (no_progress_syncs n status st).
Proof.
  intros H0 Hn. induction n as [|n IH]; [lia|].
  set (prev := no_progress_syncs n status st) in *.
  change (no_progress_syncs (S n) status st) with
    (record_sync_base_progress prev status {| push_pushed := false; push_failed := false |}).
  assert (Hp : 0 <= ms_sync_base_no_progress_count prev /\
               (ms_sync_base_no_progress_signature prev =
                  Some (sync_base_no_progress_signature status) ->
                Z.of_nat n <= ms_sync_base_no_progress_count prev) /\
               (n <> O -> ms_sync_base_no_progress_signature prev =
                  Some (sync_base_no_progress_signature status))).
  { destruct n as [|n]; [simpl in prev; subst prev; split_and!; [done|lia|done]|].
    destruct IH; [lia|]. split_and!; [lia|done|done]. }
  destruct Hp as (Hp & Hc & Hs). unfold record_sync_base_progress. simpl.
  destruct (eqb _ _) eqn:E; simpl.
  - rewrite eqb_true in E. specialize (Hc E). split; [done|lia].
  - rewrite eqb_false in E. destruct n; [split; [done|lia]|]. by destruct (E (Hs ltac:(done))).
Qed.

Lemma count_for_key_insert (st : MonitorState) (k : string) (n : Z) :
  count_for_key (set_threads st (<[k := py_str n]> (ms_threads_addressed_ids st))) k = n.
Proof.
  unfold count_for_key, set_threads, set_maps. cbn [ms_threads_addressed_ids].
  rewrite lookup_insert_eq. change (default 0 (py_int (py_str n)) = n). by rewrite py_int_str.
Qed.

Lemma count_for_key_pop_eq (st : MonitorState) (k : string) :
  count_for_key (pop_thread_key st k) k = 0.
Proof. unfold count_for_key. rewrite threads_pop, lookup_delete_eq. done. Qed.

Lemma count_for_key_pop_ne (st : MonitorState) (k j : string) :
  j <> k -> count_for_key (pop_thread_key st k) j = count_for_key st j.
Proof. intros Hne. unfold count_for_key. by rewrite threads_pop, lookup_delete_ne. Qed.

(** ** Properties *)


Lemma one_thread_ids : well_formed_ids one_thread.
Proof.
  unfold one_thread. split_and!.
  - intros t ->%list_elem_of_singleton. reflexivity.
  - intros c Hc. by apply elem_of_nil in Hc.
  - intros t c _ Hc. by apply elem_of_nil in Hc.
Qed.


(** Recording a verdict and rolling it back restores the operator's ruling:
    a ruling that was pending on the thread is retired by any real verdict, and
    a rollback brings it back, clears the verdict, keeps the body it was bound
    to, and returns the thread to the repair feed. *)
Theorem rollback_restores_ruling (reply_landed : option string -> bool) (st : MonitorState)
    (t : ReviewThread) (verdict decision : string) (keep_posted : bool) :
  forge_id (rt_thread_id t) = true -> verdict <> "agent_failed" ->
  ms_threads_addressed_ids st !! operator_decision_key (rt_thread_id t) = Some decision ->
  let tid := rt_thread_id t in
  let marked := ms_threads_addressed_ids (mark_review_thread_addressed st t verdict) in
  let rolled := ms_threads_addressed_ids
    (clear_addressed_state_by_id reply_landed (mark_review_thread_addressed st t verdict) tid
       true keep_posted) in
  marked !! operator_decision_key tid = None /\
  marked !! retired_operator_decision_key tid = Some decision /\
  rolled !! operator_decision_key tid = Some decision /\
  rolled !! retired_operator_decision_key tid = None /\
  rolled !! tid = None /\
  rolled !! review_thread_body_state_key tid = Some (review_thread_body_hash t) /\
  thread_enters_address_comments rolled t = true.
Proof.
  intros Hf Hv Hd tid marked rolled.
  destruct (marked_ruling st t verdict decision Hv Hd Hf) as [H1 H2].
  destruct (clear_restores reply_landed (mark_review_thread_addressed st t verdict) tid decision
              (review_thread_body_hash t) keep_posted Hf H1 H2) as (H3 & H4 & H5 & H6);
    [by apply mark_body|].
  split_and!; try done. unfold thread_enters_address_comments. fold tid.
  subst rolled. by rewrite H5.
Qed.

Lemma rollback_restores_ruling_witness :
  let t := sample_thread "T1" "please fix" in
  let st := sample_state {[operator_decision_key "T1" := "keep it"]} in
  let rolled := ms_threads_addressed_ids
    (clear_addressed_state_by_id (fun _ => false)
       (mark_review_thread_addressed st t "fix_committed") "T1" true true) in
  forge_id "T1" = true /\ rolled !! operator_decision_key "T1" = Some "keep it" /\
  thread_enters_address_comments rolled t = true.
Proof.
  split; [reflexivity|].
  edestruct (rollback_restores_ruling (fun _ => false)
               (sample_state {[operator_decision_key "T1" := "keep it"]})
               (sample_thread "T1" "please fix") "fix_committed" "keep it" true)
    as (_ & _ & H & _ & _ & _ & E);
    [reflexivity | discriminate | reflexivity | split; [exact H | exact E]].
Defined.

(** Bookkeeping is inert: two monitor states that agree on the keys a
    decision about the snapshot can read, on the SyncBase progress and on the
    pending hint get the same decision, whatever their iteration counter, their
    transient flags and every other reserved key hold. *)
Theorem decide_ignores_bookkeeping (registry : string -> bool) (now : float)
    (status : PRStatus) (st st' : MonitorState) (cfg : MonitorConfig) :
  same_for status st st' ->
  decide registry now status st' cfg = decide registry now status st cfg.
Proof. intros Hs. unfold decide. by rewrite (same_gates status st st' Hs). Qed.

Lemma decide_ignores_bookkeeping_witness :
  let st := sample_state ∅ in
  let st' := mark_awaiting_workflow_scope st in
  decide no_registry f_zero one_thread st' (sample_config true) =
  decide no_registry f_zero one_thread st (sample_config true).
Proof.
  apply (decide_ignores_bookkeeping no_registry f_zero one_thread (sample_state ∅)
           (mark_awaiting_workflow_scope (sample_state ∅))).
  split; [|reflexivity..]. intros k Hk. cbn [mark_awaiting_workflow_scope].
  apply lookup_insert_ne. intros <-.
  destruct Hk as [(t & ->%list_elem_of_singleton & Hk)|[(c & Hc & _)|[Hk|[Hk|[fs Hk]]]]].
  - destruct Hk as [Hk|[Hk|Hk]]; discriminate Hk.
  - by apply elem_of_nil in Hc.
  - discriminate Hk.
  - discriminate Hk.
  - destruct Hk as [Hk|[Hk|Hk]]; discriminate Hk.
Defined.

(** The monitor never spins on a base it cannot integrate: after the
    configured number of SyncBase attempts without progress on one snapshot it
    stops choosing SyncBase, and a push resets the budget. *)
Theorem sync_base_bounded (registry : string -> bool) (now : float) (status : PRStatus)
    (st : MonitorState) (cfg : MonitorConfig) (n : nat) :
  0 <= ms_sync_base_no_progress_count st ->
  0 < mc_max_no_progress_sync_base_attempts cfg <= Z.of_nat n ->
  decide registry now status (no_progress_syncs n status st) cfg <> SyncBase /\
  forall push, push_pushed push = true ->
    sync_base_no_progress_exhausted status (record_sync_base_progress st status push) cfg = false.
Proof.
  intros H0 Hn. destruct (no_progress_count n status st H0) as [Hs Hc]; [lia|].
  assert (He : sync_base_no_progress_exhausted status (no_progress_syncs n status st) cfg = true)
    by (apply exhausted_spec; split; [lia|done]).
  split.
  - intros Hd. gate_cases Hd; congruence.
  - intros push Hp. unfold record_sync_base_progress. rewrite Hp. simpl.
    apply not_true_is_false. intros [_ Hx]%exhausted_spec. discriminate Hx.
Qed.

Lemma sync_base_bounded_witness :
  let status := sample_status [] SUCCESS [] 2 false in
  decide no_registry f_zero status (sample_state ∅) (sample_config true) = SyncBase /\
  decide no_registry f_zero status (no_progress_syncs 3 status (sample_state ∅))
    (sample_config true) <> SyncBase.
Proof.
  split; [vm_compute; reflexivity|].
  apply (sync_base_bounded no_registry f_zero (sample_status [] SUCCESS [] 2 false)
           (sample_state ∅) (sample_config true) 3); simpl; lia.
Defined.

(** The rerun budget is spent one by one and never overdrawn: a rerun
    decided by the monitor and recorded by the runner consumes exactly one
    attempt, the recorded count is the attempt number and never exceeds the
    configured maximum, and at the maximum no further rerun is decided. *)
Theorem rerun_budget (registry : string -> bool) (now : float) (status : PRStatus)
    (st : MonitorState) (cfg : MonitorConfig) (fs : list CheckFailure) :
  decide registry now status st cfg = RerunTransientCI fs ->
  ci_transient_rerun_state_key (ps_head_sha status) fs <>
    ci_transient_rerun_state_key (ps_head_sha status) (ps_ci_failures status) \/
  fs = ps_ci_failures status ->
  let old := ci_transient_rerun_count st (ps_head_sha status) fs (Some (ps_ci_failures status)) in
  let '(st', attempt) :=
    ci_transient_rerun_attempt st (ps_head_sha status) fs (Some (ps_ci_failures status)) in
  attempt = old + 1 /\ attempt <= mc_ci_transient_rerun_max_attempts cfg /\
  fs = ci_candidate_failures status /\
  (0 <= old -> ci_transient_rerun_count st' (ps_head_sha status) fs (Some (ps_ci_failures status))
               = attempt).
Proof.
  intros Hd Hkey old. unfold ci_transient_rerun_attempt. fold old.
  assert (Hf : fs = ci_candidate_failures status /\
               should_rerun_transient_ci registry status st cfg = true) by (gate_cases Hd; auto).
  destruct Hf as [Hfs Hr]. unfold should_rerun_transient_ci in Hr.
  repeat (case_in Hr; [discriminate Hr|]). rewrite <- Hfs, Z.ltb_lt in Hr. fold old in Hr.
  destruct (eqb (ps_ci_failures status) fs) eqn:E; simpl.
  - split_and!; [done|lia|done|]. intros _. unfold ci_transient_rerun_count. rewrite E. simpl.
    apply count_for_key_insert.
  - split_and!; [done|lia|done|]. intros H0. unfold ci_transient_rerun_count. rewrite E. simpl.
    rewrite eqb_false in E. destruct Hkey as [Hkey| ->]; [|done].
    rewrite count_for_key_pop_ne, count_for_key_pop_eq, count_for_key_insert by done. lia.
Qed.

Lemma rerun_budget_witness :
  let fs := ci_candidate_failures flaky_status in
  let st := sample_state ∅ in
  decide no_registry f_zero flaky_status st (sample_config true) = RerunTransientCI fs /\
  let old := ci_transient_rerun_count st (ps_head_sha flaky_status) fs
               (Some (ps_ci_failures flaky_status)) in
  let '(st', attempt) :=
    ci_transient_rerun_attempt st (ps_head_sha flaky_status) fs
      (Some (ps_ci_failures flaky_status)) in
  attempt = old + 1 /\ attempt <= 2 /\ fs = ci_candidate_failures flaky_status /\
  (0 <= old -> ci_transient_rerun_count st' (ps_head_sha flaky_status) fs
                 (Some (ps_ci_failures flaky_status)) = attempt).
Proof.
  split; [vm_compute; reflexivity|].
  apply (rerun_budget no_registry f_zero flaky_status (sample_state ∅) (sample_config true)).
  - vm_compute. reflexivity.
  - left. vm_compute. discriminate.
Defined.
