(* ===== verification/Store.v ===== *)
(** * The control-plane tables a lifecycle operation touches

    Rows of [workspaces], [task_attempts], [merge_candidates] and
    [resource_reservations] ([db/models.py]) with the columns the lifecycle
    reads or writes, and the repository operations on attempts, candidates and
    reservations that a workspace transition calls.  A transaction is a function
    from the database to the new one or to the exception that aborts it.

    Left out here are the columns no transition depends on: event payloads, the
    [updated_at] stamp of a workspace, and a candidate's readiness flags, which
    [Readiness] and [MergeGate] model.  A candidate's [updated_at] moves at every
    update of the row. *)

From S2P Require Import Prelude PyStr Status.
#[local] Open Scope Z_scope.

(** ** Rows *)

Record Event : Type := {
  e_type : string;
  e_old_state : string;
  e_new_state : string;
  e_reason_code : option string;
  e_order : Z
}.

(** The lifecycle columns, which only transitions and event inserts write. *)
Record Lifecycle : Type := {
  l_status : string;
  l_version : Z;
  l_event_sequence : Z;
  l_monitor_started_at : option Z;
  l_filesystem_reclaimed_at : option Z;
  l_events : list Event
}.

Record ExecutionClaim : Type := {
  x_claimed_by : option string;
  x_expires_at : option Z;
  x_epoch : Z
}.

Record MonitorClaim : Type := {
  m_claimed_by : option string;
  m_expires_at : option Z
}.

Record BlockState : Type := {
  b_reason_code : option string;
  b_type : option string;
  b_resume_phase : option string;
  b_violations : list string;
  b_epoch : Z;
  b_blocked_at : option Z;
  b_pending_operator_hint : option string
}.

(** Columns the lifecycle only reads: the PR, the branches, and the fields of
    the JSON [task_policy] that recovery containment looks at. *)
Record Descriptor : Type := {
  d_pr_url : option string;
  d_pr_number : option Z;
  d_repo_url : string;
  d_branch_base : string;
  d_branch_name : option string;
  d_monitor_last_commit_sha : option string;
  d_base_commit : option string;
  d_hosted_node : option string;
  d_restore_id : option string;
  d_disposition : option string
}.

Record Workspace : Type := {
  w_life : Lifecycle;
  w_exec : ExecutionClaim;
  w_monitor : MonitorClaim;
  w_block : BlockState;
  w_node_id : option string;
  w_desc : Descriptor
}.

Record Attempt : Type := {
  a_task_id : string;
  a_workspace_id : string;
  a_status : string;
  a_is_canonical_for_merge : bool;
  a_superseded_by_attempt_id : option string
}.

Record Candidate : Type := {
  c_task_id : string;
  c_attempt_id : string;
  c_workspace_id : string;
  c_pr_url : string;
  c_pr_number : option Z;
  c_repo_url : string;
  c_base_branch : string;
  c_branch_name : option string;
  c_head_sha : option string;
  c_base_sha : option string;
  c_status : string;
  c_close_reason : option string;
  c_created_at : Z;
  c_updated_at : Z;
  c_closed_at : option Z;
  c_merged_at : option Z
}.

Record Reservation : Type := {
  r_workspace_id : string;
  r_reserved_at : Z;
  r_released_at : option Z
}.

Record Db : Type := {
  workspaces : gmap string Workspace;
  tasks : gset string;
  attempts : gmap string Attempt;
  candidates : gmap string Candidate;
  reservations : gmap string Reservation;
  (** [NodeLifecycleRow.restore_quarantine] is set on some row. *)
  restore_quarantined : bool;
  (** Task rows with a held restore. *)
  held_tasks : gset string
}.

Definition set_workspaces (db : Db) (w : gmap string Workspace) : Db :=
  {| workspaces := w; tasks := tasks db; attempts := attempts db; candidates := candidates db;
     reservations := reservations db; restore_quarantined := restore_quarantined db;
     held_tasks := held_tasks db |}.

Definition set_attempts (db : Db) (a : gmap string Attempt) : Db :=
  {| workspaces := workspaces db; tasks := tasks db; attempts := a; candidates := candidates db;
     reservations := reservations db; restore_quarantined := restore_quarantined db;
     held_tasks := held_tasks db |}.

Definition set_candidates (db : Db) (c : gmap string Candidate) : Db :=
  {| workspaces := workspaces db; tasks := tasks db; attempts := attempts db; candidates := c;
     reservations := reservations db; restore_quarantined := restore_quarantined db;
     held_tasks := held_tasks db |}.

Definition set_reservations (db : Db) (r : gmap string Reservation) : Db :=
  {| workspaces := workspaces db; tasks := tasks db; attempts := attempts db;
     candidates := candidates db; reservations := r;
     restore_quarantined := restore_quarantined db; held_tasks := held_tasks db |}.

Inductive DbError : Type :=
| InvalidWorkspaceTransitionError (e : InvalidTransition)
| InvalidStatus (value : string)
| MultipleResultsFound
| NoResultFound
| ValueError (message : string).

(** ** Selects *)

Definition matching {A : Type} (f : A -> bool) (table : gmap string A) : list (string * A) :=
  List.filter (fun p => f p.2) (map_to_list table).

(** [scalar_one_or_none()]: more than one row raises. *)
Definition scalar_one_or_none {A : Type} (rows : list A) : result DbError (option A) :=
  match rows with
  | [] => Ok None
  | [x] => Ok (Some x)
  | _ => Err MultipleResultsFound
  end.

(** ** Attempts *)

Definition get_by_workspace_id (db : Db) (ws : string)
  : result DbError (option (string * Attempt)) :=
  scalar_one_or_none (matching (fun a => eqb (a_workspace_id a) ws) (attempts db)).

Definition get_canonical_for_task (db : Db) (task : string)
  : result DbError (option (string * Attempt)) :=
  scalar_one_or_none
    (matching (fun a => eqb (a_task_id a) task && a_is_canonical_for_merge a) (attempts db)).

Definition with_status (a : Attempt) (status : string) : Attempt :=
  {| a_task_id := a_task_id a; a_workspace_id := a_workspace_id a; a_status := status;
     a_is_canonical_for_merge := a_is_canonical_for_merge a;
     a_superseded_by_attempt_id := a_superseded_by_attempt_id a |}.

Definition with_canonical (a : Attempt) (canonical : bool) (superseded : option string) : Attempt :=
  {| a_task_id := a_task_id a; a_workspace_id := a_workspace_id a; a_status := a_status a;
     a_is_canonical_for_merge := canonical; a_superseded_by_attempt_id := superseded |}.

(** The attempt object is loaded in the session: [aid] with its columns. *)
Definition mark_canonical_for_merge (db : Db) (aid : string) (a : Attempt)
  : result DbError (option string * Db) :=
  prev <-? get_canonical_for_task db (a_task_id a) ;;
  let atts :=
    match prev with
    | Some (pid, p) =>
        if negb (eqb pid aid) then <[pid := with_canonical p false (Some aid)]> (attempts db)
        else attempts db
    | None => attempts db
    end in
  Ok (option_map fst prev,
      set_attempts db (<[aid := with_canonical a true (a_superseded_by_attempt_id a)]> atts)).

(** ** Merge candidates *)

Definition get_by_attempt_id (db : Db) (aid : string)
  : result DbError (option (string * Candidate)) :=
  scalar_one_or_none (matching (fun c => eqb (c_attempt_id c) aid) (candidates db)).

Definition with_outcome (c : Candidate) (status : string) (reason : option string)
    (now : Z) (closed merged : option Z) : Candidate :=
  {| c_task_id := c_task_id c; c_attempt_id := c_attempt_id c;
     c_workspace_id := c_workspace_id c; c_pr_url := c_pr_url c; c_pr_number := c_pr_number c;
     c_repo_url := c_repo_url c; c_base_branch := c_base_branch c;
     c_branch_name := c_branch_name c; c_head_sha := c_head_sha c; c_base_sha := c_base_sha c;
     c_status := status; c_close_reason := reason; c_created_at := c_created_at c;
     c_updated_at := now; c_closed_at := closed; c_merged_at := merged |}.

(** [value if value is not None else old] *)
Definition keep_or {A : Type} (value old : option A) : option A :=
  match value with Some _ => value | None => old end.

Definition truthy_str (o : option string) : option string :=
  match o with Some s => if eqb s "" then None else Some s | None => None end.

(** [x or y] on optional strings: the empty string is false. *)
Definition or_str (x y : option string) : option string :=
  match truthy_str x with Some s => Some s | None => y end.

(** [new_id] is the identifier [new_merge_candidate_id()] would return. *)
Definition create_or_update_open_for_attempt (db : Db) (new_id : string) (now : Z)
    (task_id aid ws_id : string) (w : Workspace) (head_sha base_sha : option string)
  : result DbError Db :=
  let d := w_desc w in
  match truthy_str (d_pr_url d) with
  | None => Err (ValueError "merge candidates require a workspace PR URL")
  | Some url =>
      existing <-? get_by_attempt_id db aid ;;
      let '(cid, old_head, old_base, created) :=
        match existing with
        | None => (new_id, None, None, now)
        | Some (cid, c) => (cid, c_head_sha c, c_base_sha c, c_created_at c)
        end in
      Ok (set_candidates db
            (<[cid := {| c_task_id := task_id; c_attempt_id := aid; c_workspace_id := ws_id;
                         c_pr_url := url; c_pr_number := d_pr_number d;
                         c_repo_url := d_repo_url d; c_base_branch := d_branch_base d;
                         c_branch_name := d_branch_name d;
                         c_head_sha := keep_or head_sha old_head;
                         c_base_sha := keep_or base_sha old_base;
                         c_status := "open"; c_close_reason := None; c_created_at := created;
                         c_updated_at := now; c_closed_at := None; c_merged_at := None |}]> (candidates db)))
  end.

Definition close_open_for_attempt (db : Db) (now : Z) (aid reason : string) : result DbError Db :=
  c <-? get_by_attempt_id db aid ;;
  match c with
  | Some (cid, c) =>
      if eqb (c_status c) "open"
      then Ok (set_candidates db
                 (<[cid := with_outcome c "closed" (Some reason) now (Some now) (c_merged_at c)]>
                    (candidates db)))
      else Ok db
  | None => Ok db
  end.

Definition make_attempt_canonical_and_create_candidate (db : Db) (new_id : string) (now : Z)
    (task_id aid : string) (a : Attempt) (ws_id : string) (w : Workspace)
    (head_sha base_sha : option string) : result DbError Db :=
  marked <-? mark_canonical_for_merge db aid a ;;
  let '(previous, db1) := marked in
  db2 <-? match previous with
          | Some pid =>
              if negb (eqb pid aid) then close_open_for_attempt db1 now pid "CANONICAL_CHANGED"
              else Ok db1
          | None => Ok db1
          end ;;
  create_or_update_open_for_attempt db2 new_id now task_id aid ws_id w head_sha base_sha.

(** The open candidates of a workspace, closed together. *)
Definition close_open_for_workspace (db : Db) (now : Z) (ws reason : string) : Db :=
  set_candidates db
    ((fun c => if eqb (c_workspace_id c) ws && eqb (c_status c) "open"
               then with_outcome c "closed" (Some reason) now (Some now) (c_merged_at c)
               else c) <$> candidates db).

(** [order_by(updated_at.desc(), id.desc()).limit(1)] *)
Definition newest_first (x y : string * Candidate) : bool :=
  (c_updated_at y.2 <? c_updated_at x.2)
  || ((c_updated_at y.2 =? c_updated_at x.2) && str_leb y.1 x.1).

Definition mark_workspace_merged (db : Db) (now : Z) (ws : string) : Db :=
  match sorted_by newest_first
          (matching (fun c => eqb (c_workspace_id c) ws && eqb (c_status c) "open")
             (candidates db)) with
  | [] => db
  | (cid, c) :: _ =>
      set_candidates db
        (<[cid := with_outcome c "merged" None now None (Some now)]> (candidates db))
  end.

(** ** Reservations *)

Definition release_active_for_workspace (db : Db) (ws : string) (released_at : Z) : Db :=
  set_reservations db
    ((fun r => if eqb (r_workspace_id r) ws && eqb (r_released_at r) None
               then {| r_workspace_id := r_workspace_id r; r_reserved_at := r_reserved_at r;
                       r_released_at := Some released_at |}
               else r) <$> reservations db).

(** ** Containment of restored rows *)

(** [recovery_allows_work()] for the row [w] of workspace [ws]. *)
Definition recovery_allows_work (db : Db) (ws : string) (w : Workspace) : bool :=
  let d := w_desc w in
  negb (restore_quarantined db)
  && negb (existsb (fun p => eqb (a_workspace_id p.2) ws
                             && bool_decide (a_task_id p.2 ∈ held_tasks db))
             (map_to_list (attempts db)))
  && ((eqb (d_hosted_node d) None && eqb (d_restore_id d) None)
      || negb (eqb (default "" (d_disposition d)) "attention")).
