(* ===== verification/Operations.v ===== *)
(** * Operations of the control plane

    The rows of [operations] ([db/models.py]) and [OperationRepository]
    ([db/repositories/workspace_repo_callbacks.py]): each action that outlives its
    request has one, found again by its idempotency key or by what it asked for. *)

From S2P Require Import Prelude PyStr PyFloat Json PyVal Status Store.
#[local] Open Scope Z_scope.

(** ** Kinds and rows *)

Inductive OperationType : Type :=
| ty_create | ty_start | ty_validate | ty_push | ty_refresh | ty_rebase | ty_retry | ty_cancel
| ty_stop | ty_remonitor | ty_guide | ty_sync_base | ty_comment_repair | ty_ci_repair
| ty_human_wait | ty_monitor_state | ty_adopt_pr | ty_destroy.

#[export] Instance OperationType_eq_dec : EqDecision OperationType.
Proof. solve_decision. Defined.

Definition operation_type_value (t : OperationType) : string :=
  match t with
  | ty_create => "create"
  | ty_start => "start"
  | ty_validate => "validate"
  | ty_push => "push"
  | ty_refresh => "refresh"
  | ty_rebase => "rebase"
  | ty_retry => "retry"
  | ty_cancel => "cancel"
  | ty_stop => "stop"
  | ty_remonitor => "remonitor"
  | ty_guide => "guide"
  | ty_sync_base => "sync_base"
  | ty_comment_repair => "comment_repair"
  | ty_ci_repair => "ci_repair"
  | ty_human_wait => "human_wait"
  | ty_monitor_state => "monitor_state"
  | ty_adopt_pr => "adopt_pr"
  | ty_destroy => "destroy"
  end.

(** [o_payload] and [o_result] are the JSON columns, [VNone] for SQL's null. *)
Record Operation : Type := {
  o_workspace_id : string;
  o_type : string;
  o_status : string;
  o_error_code : option string;
  o_error_message : option string;
  o_payload : pyval;
  o_result : pyval;
  o_idempotency_key : option string;
  o_created_at : Z;
  o_started_at : option Z;
  o_finished_at : option Z
}.

Abbreviation Operations := (gmap string Operation).

(** ** Writes *)

(** [create]: [id] is what [new_operation_id()] returns. *)
Definition new_operation (workspace_id : string) (operation_type : OperationType)
    (status : OperationStatus) (payload : pyval) (idempotency_key : option string) (now : Z)
  : Operation :=
  {| o_workspace_id := workspace_id; o_type := operation_type_value operation_type;
     o_status := operation_status_value status; o_error_code := None; o_error_message := None;
     o_payload := payload; o_result := VNone; o_idempotency_key := idempotency_key;
     o_created_at := now;
     o_started_at := if eqb status op_running then Some now else None;
     o_finished_at := None |}.

Definition create (ops : Operations) (id workspace_id : string) (operation_type : OperationType)
    (status : OperationStatus) (payload : pyval) (idempotency_key : option string) (now : Z)
  : Operations :=
  <[id := new_operation workspace_id operation_type status payload idempotency_key now]> ops.

Definition start (o : Operation) (now : Z) : Operation :=
  {| o_workspace_id := o_workspace_id o; o_type := o_type o;
     o_status := operation_status_value op_running; o_error_code := o_error_code o;
     o_error_message := o_error_message o; o_payload := o_payload o; o_result := o_result o;
     o_idempotency_key := o_idempotency_key o; o_created_at := o_created_at o;
     o_started_at := Some (default now (o_started_at o)); o_finished_at := o_finished_at o |}.

(** [dict.update] *)
Definition update_keys (d e : dict) : dict := fold_left (fun d p => set_key d p.1 p.2) e d.

Definition _operation_result_with_log_stream_refs (result : pyval) (log_stream_refs : option dict)
  : pyval :=
  match log_stream_refs with
  | None => result
  | Some refs =>
      let merged_result := as_mapping result in
      let merged_refs :=
        update_keys (update_keys [] (as_mapping (get merged_result "log_stream_refs"))) refs in
      VDict (set_key merged_result "log_stream_refs" (VDict merged_refs))
  end.

Definition finish (o : Operation) (status : OperationStatus) (result : pyval)
    (error_code error_message : option string) (log_stream_refs : option dict) (now : Z)
  : Operation :=
  {| o_workspace_id := o_workspace_id o; o_type := o_type o;
     o_status := operation_status_value status; o_error_code := error_code;
     o_error_message := error_message; o_payload := o_payload o;
     o_result := _operation_result_with_log_stream_refs result log_stream_refs;
     o_idempotency_key := o_idempotency_key o; o_created_at := o_created_at o;
     o_started_at := Some (default now (o_started_at o)); o_finished_at := Some now |}.

(** ** Reads *)

(** [order_by(created_at.asc(), id.asc())], and the same downwards. *)
Definition oldest_first (x y : string * Operation) : bool :=
  (o_created_at x.2 <? o_created_at y.2)
  || ((o_created_at x.2 =? o_created_at y.2) && str_leb x.1 y.1).
Definition latest_first (x y : string * Operation) : bool := oldest_first y x.

Definition rows (ops : Operations) (f : Operation -> bool) : list (string * Operation) :=
  List.filter (fun p => f p.2) (map_to_list ops).

Definition get_by_idempotency_key (ops : Operations) (key : string)
  : option (string * Operation) :=
  head (sorted_by oldest_first (rows ops (fun o => eqb (o_idempotency_key o) (Some key)))).

(** [create_idempotent], under the advisory lock of the key: the row, and whether it is new. *)
Definition create_idempotent (ops : Operations) (id workspace_id : string)
    (operation_type : OperationType) (status : OperationStatus) (payload : pyval)
    (idempotency_key : string) (now : Z) : Operations * string * bool :=
  match get_by_idempotency_key ops idempotency_key with
  | Some (existing, _) => (ops, existing, false)
  | None => (create ops id workspace_id operation_type status payload (Some idempotency_key) now,
             id, true)
  end.

Definition is_active (o : Operation) : bool :=
  mem (o_status o) [operation_status_value op_pending; operation_status_value op_running].

(** [all(key in payload and payload[key] == value ...)] *)
Definition payload_carries (payload : pyval) (identity : dict) : bool :=
  match payload with
  | VDict d => forallb (fun p => match find_key d p.1 with
                                 | Some v => py_eqb v p.2
                                 | None => false
                                 end) identity
  | _ => false
  end.

Definition find_active_matching_payload (ops : Operations) (workspace_id : string)
    (operation_type : OperationType) (payload_identity : dict) (limit : nat)
    (prefer_newest : bool) : option (string * Operation) :=
  let order := if prefer_newest then latest_first else oldest_first in
  List.find (fun p => payload_carries (o_payload p.2) payload_identity)
    (take limit (sorted_by order
       (rows ops (fun o => eqb (o_workspace_id o) workspace_id
                           && eqb (o_type o) (operation_type_value operation_type)
                           && is_active o)))).

Definition opt_match {A : Type} `{EqDecision A} (wanted : option A) (value : A) : bool :=
  match wanted with Some w => eqb value w | None => true end.

(** [list_all] and [list_for_workspace]; [before] is the row the page follows. *)
Definition list_all (ops : Operations) (workspace_id : option string)
    (status : option OperationStatus) (operation_type : option OperationType) (limit : nat)
    (before : option (Z * string)) : list (string * Operation) :=
  take limit (sorted_by latest_first
    (List.filter (fun p =>
        opt_match workspace_id (o_workspace_id p.2)
        && opt_match (operation_status_value <$> status) (o_status p.2)
        && opt_match (operation_type_value <$> operation_type) (o_type p.2)
        && match before with
           | Some (at_, id) => (o_created_at p.2 <? at_)
                               || ((o_created_at p.2 =? at_) && str_ltb p.1 id)
           | None => true
           end)
       (map_to_list ops))).

Definition list_for_workspace (ops : Operations) (workspace_id : string)
    (status : option OperationStatus) (limit : nat) : list (string * Operation) :=
  list_all ops (Some workspace_id) status None limit None.

(** ** Lemmas *)

(** Rows with keys of their own. *)
Definition keys_unique (ops : Operations) : Prop :=
  forall i j o o' k, ops !! i = Some o -> ops !! j = Some o' ->
    o_idempotency_key o = Some k -> o_idempotency_key o' = Some k -> i = j.

Lemma elem_of_op_rows (ops : Operations) (f : Operation -> bool) (id : string) (o : Operation) :
  (id, o) ∈ rows ops f <-> ops !! id = Some o /\ f o = true.
Proof. unfold rows. rewrite elem_of_bfilter, elem_of_map_to_list. tauto. Qed.

Lemma by_key_spec (ops : Operations) (key id : string) (o : Operation) :
  keys_unique ops ->
  get_by_idempotency_key ops key = Some (id, o) <->
  ops !! id = Some o /\ o_idempotency_key o = Some key.
Proof.
  intros Hu. unfold get_by_idempotency_key.
  set (l := rows ops _).
  assert (Hin : forall i x, (i, x) ∈ sorted_by oldest_first l <->
    ops !! i = Some x /\ o_idempotency_key x = Some key).
  { intros i x. rewrite elem_of_sorted_by. unfold l. by rewrite elem_of_op_rows, eqb_true. }
  split.
  - intros H. apply Hin. destruct (sorted_by _ _) as [|p q]; [done|]. injection H as ->. by left.
  - intros H. apply Hin in H as Hel. destruct (sorted_by oldest_first l) as [|[i x] q] eqn:E.
    + by apply elem_of_nil in Hel.
    + simpl. destruct (proj1 (Hin i x)) as [Hi Hk]; [by left|]. destruct H as [Ho Hok].
      assert (i = id) as -> by (eapply Hu; eauto). congruence.
Qed.

Lemma by_key_none (ops : Operations) (key : string) :
  get_by_idempotency_key ops key = None <->
  forall id o, ops !! id = Some o -> o_idempotency_key o <> Some key.
Proof.
  unfold get_by_idempotency_key. set (l := rows ops _).
  assert (Hin : forall i x, (i, x) ∈ sorted_by oldest_first l <->
    ops !! i = Some x /\ o_idempotency_key x = Some key).
  { intros i x. rewrite elem_of_sorted_by. unfold l. by rewrite elem_of_op_rows, eqb_true. }
  split.
  - intros H id o Ho Hk. assert (Hel : (id, o) ∈ sorted_by oldest_first l) by by apply Hin.
    destruct (sorted_by oldest_first l); [by apply elem_of_nil in Hel|done].
  - intros H. destruct (sorted_by oldest_first l) as [|[i x] q]; [done|].
    exfalso. destruct (proj1 (Hin i x)) as [Hi Hk]; [by left|]. by eapply H.
Qed.

Lemma keys_unique_create (ops : Operations) (id : string) (o : Operation) :
  keys_unique ops -> (forall k, o_idempotency_key o = Some k -> get_by_idempotency_key ops k = None) ->
  keys_unique (<[id := o]> ops).
Proof.
  intros Hu Hk i j x y k.
  destruct (decide (id = i)) as [<-|H1], (decide (id = j)) as [<-|H2];
    rewrite ?lookup_insert_eq, ?lookup_insert_ne by done; intros Hx Hy Ex Ey; simplify_eq; try done.
  - by apply (proj1 (by_key_none _ _) (Hk _ Ex)) in Hy.
  - by apply (proj1 (by_key_none _ _) (Hk _ Ey)) in Hx.
  - by eapply Hu.
Qed.

(** Rewriting a row that keeps its key. *)
Lemma keys_unique_update (ops : Operations) (id : string) (o o' : Operation) :
  keys_unique ops -> ops !! id = Some o -> o_idempotency_key o' = o_idempotency_key o ->
  keys_unique (<[id := o']> ops).
Proof.
  intros Hu Ho Hk i j x y k.
  destruct (decide (id = i)) as [<-|H1], (decide (id = j)) as [<-|H2];
    rewrite ?lookup_insert_eq, ?lookup_insert_ne by done; intros Hx Hy Ex Ey; simplify_eq; try done.
  - rewrite Hk in Ex. by eapply Hu.
  - rewrite Hk in Ey. by eapply Hu.
  - by eapply Hu.
Qed.
