(* ===== verification/Cleanup.v ===== *)
(** * Tearing a workspace down

    The results of a cleanup and [WorkspaceCleaner.cleanup] ([node/cleanup.py]), the
    teardown of a compose project ([node/compose_manager.py]), and the results that
    older cleaners return ([service/controls_helpers.py]).

    Docker, the file system and git are parameters over an abstract world: a command
    maps the world to its answer or error and to the world it leaves. *)

From S2P Require Import Prelude PyStr PyFloat Json PyVal Redaction Store.
#[local] Open Scope Z_scope.

(** ** Errors of a command *)

(** [ComposeOperationError] and [GitOperationError]; [oe_tool] is the word their
    messages start with. *)
Record OperationError : Type := {
  oe_tool : string;
  oe_operation : string;
  oe_returncode : Z;
  oe_stdout : string;
  oe_stderr : string;
  oe_reason_code : string
}.

(** [x or y] on text *)
Definition or_text (x y : string) : string := if eqb x "" then y else x.

Definition error_text (e : OperationError) : string :=
  oe_tool e +:+ " " +:+ oe_operation e +:+ " failed (exit=" +:+ pretty (oe_returncode e)
  +:+ ", reason=" +:+ oe_reason_code e +:+ "): "
  +:+ or_text (strip (oe_stderr e)) (or_text (strip (oe_stdout e)) "<no output>").

Definition _operation_error_detail (e : OperationError) : string :=
  or_text (strip (oe_stderr e)) (or_text (strip (oe_stdout e)) (error_text e)).

(** ** Results *)

Inductive StepStatus : Type := step_succeeded | step_failed | step_skipped.
Inductive CleanupStatus : Type := cleanup_succeeded | cleanup_partial | cleanup_skipped.

#[export] Instance StepStatus_eq_dec : EqDecision StepStatus.
Proof. solve_decision. Defined.
#[export] Instance CleanupStatus_eq_dec : EqDecision CleanupStatus.
Proof. solve_decision. Defined.

Definition step_status_value (s : StepStatus) : string :=
  match s with
  | step_succeeded => "succeeded"
  | step_failed => "failed"
  | step_skipped => "skipped"
  end.

Definition cleanup_status_value (s : CleanupStatus) : string :=
  match s with
  | cleanup_succeeded => "succeeded"
  | cleanup_partial => "partial"
  | cleanup_skipped => "skipped"
  end.

Record StepResult : Type := {
  sr_name : string;
  sr_status : StepStatus;
  sr_reason_code : string;
  sr_error : option string
}.

Definition step_ok (s : StepResult) : bool := mem (sr_status s) [step_succeeded; step_skipped].

Record CleanupResult : Type := {
  cr_status : CleanupStatus;
  cr_reason_code : string;
  cr_steps : list StepResult
}.

Definition cleanup_ok (r : CleanupResult) : bool :=
  mem (cr_status r) [cleanup_succeeded; cleanup_skipped].
Definition failed_steps (r : CleanupResult) : list StepResult :=
  List.filter (fun s => negb (step_ok s)) (cr_steps r).
Definition completed_steps (r : CleanupResult) : list StepResult :=
  List.filter (fun s => eqb (sr_status s) step_succeeded) (cr_steps r).
Definition failure_messages (r : CleanupResult) : list string :=
  map (fun s => default (sr_name s) (truthy_str (sr_error s))) (failed_steps r).

Definition from_steps (steps : list StepResult) : CleanupResult :=
  if existsb (fun s => negb (step_ok s)) steps
  then {| cr_status := cleanup_partial; cr_reason_code := "CLEANUP_PARTIAL"; cr_steps := steps |}
  else {| cr_status := cleanup_succeeded; cr_reason_code := "CLEANUP_SUCCEEDED";
          cr_steps := steps |}.

Definition skipped (reason_code : string) : CleanupResult :=
  {| cr_status := cleanup_skipped; cr_reason_code := reason_code; cr_steps := [] |}.

Definition step_to_dict (s : StepResult) : pyval :=
  VDict ([("name", VStr (sr_name s)); ("status", VStr (step_status_value (sr_status s)));
          ("reason_code", VStr (sr_reason_code s))]
         ++ match sr_error s with Some e => [("error", VStr e)] | None => [] end).

Definition to_dict (r : CleanupResult) : pyval :=
  VDict [("status", VStr (cleanup_status_value (cr_status r)));
         ("reason_code", VStr (cr_reason_code r));
         ("steps", VList (map step_to_dict (cr_steps r)));
         ("failed_steps", VList (map step_to_dict (failed_steps r)));
         ("completed_steps", VList (map step_to_dict (completed_steps r)))].

(** ** Results of older cleaners *)

(** A structured result, a mapping, or the names of the failed steps. *)
Inductive CleanupResultLike : Type :=
| AsResult (r : CleanupResult)
| AsMapping (m : dict)
| AsNames (names : list string).

(** [value in {...}]: [None] for the [TypeError] of a list or a dictionary, which has no
    hash. *)
Definition hashable (v : pyval) : bool :=
  match v with VList _ | VDict _ => false | _ => true end.

Definition _cleanup_status (v : pyval) : option CleanupStatus :=
  if negb (hashable v) then None
  else Some (match v with
             | VStr s => if eqb s "succeeded" then cleanup_succeeded
                         else if eqb s "skipped" then cleanup_skipped else cleanup_partial
             | _ => cleanup_partial
             end).

Definition _cleanup_step_status (v : pyval) : option StepStatus :=
  if negb (hashable v) then None
  else Some (match v with
             | VStr s => if eqb s "succeeded" then step_succeeded
                         else if eqb s "skipped" then step_skipped else step_failed
             | _ => step_failed
             end).

Definition _cleanup_optional_string (v : pyval) : option string :=
  match v with VStr s => truthy_str (Some s) | _ => None end.
Definition _cleanup_string (v : pyval) (fallback : string) : string :=
  default fallback (_cleanup_optional_string v).

Definition _cleanup_reason_code (v : pyval) (status : CleanupStatus) : string :=
  _cleanup_string v
    match status with
    | cleanup_succeeded => "CLEANUP_SUCCEEDED"
    | cleanup_skipped => "CLEANUP_SKIPPED"
    | cleanup_partial => "CLEANUP_PARTIAL"
    end.

(** [value if isinstance(value, Sequence) and not isinstance(value, str) else ()] *)
Definition as_sequence (v : pyval) : option (list pyval) :=
  match v with VList l => Some l | _ => None end.

Definition cleanup_step_from (index : Z) (raw : dict) : option StepResult :=
  step_status ← _cleanup_step_status (get raw "status");
  Some {| sr_name := _cleanup_string (get raw "name") ("cleanup_step_" +:+ pretty (index + 1));
          sr_status := step_status;
          sr_reason_code := _cleanup_string (get raw "reason_code")
                              (if eqb step_status step_failed then "CLEANUP_STEP_FAILED"
                               else "CLEANUP_STEP_SUCCEEDED");
          sr_error := _cleanup_optional_string (get raw "error") |}.

Fixpoint cleanup_steps_from (index : Z) (raw_steps : list pyval) : option (list StepResult) :=
  match raw_steps with
  | [] => Some []
  | VDict raw :: rest =>
      s ← cleanup_step_from index raw;
      l ← cleanup_steps_from (index + 1) rest;
      Some (s :: l)
  | _ :: rest => cleanup_steps_from (index + 1) rest
  end.

Definition _cleanup_steps_from_mapping (m : dict) : option (list StepResult) :=
  let raw_steps :=
    match as_sequence (get m "steps") with
    | Some l => l
    | None => default [] (as_sequence (get m "completed_steps"))
              ++ default [] (as_sequence (get m "failed_steps"))
    end in
  cleanup_steps_from 0 raw_steps.

Definition _cleanup_result_from_mapping (m : dict) : option CleanupResult :=
  status ← _cleanup_status (get m "status");
  steps ← _cleanup_steps_from_mapping m;
  Some {| cr_status := status; cr_reason_code := _cleanup_reason_code (get m "reason_code") status;
          cr_steps := steps |}.

Definition _normalize_cleanup_result (r : CleanupResultLike) : option CleanupResult :=
  match r with
  | AsResult r => Some r
  | AsMapping m => _cleanup_result_from_mapping m
  | AsNames names =>
      Some (from_steps (map (fun failure =>
        {| sr_name := failure; sr_status := step_failed;
           sr_reason_code := "CLEANUP_STEP_FAILED"; sr_error := Some failure |}) names))
  end.

Definition _cleanup_failure_message (r : CleanupResult) : string :=
  match failure_messages r with
  | [] => cr_reason_code r
  | failures => join ", " failures
  end.

(** ** The teardown of a compose project *)

Section Teardown.
Context {W : Type}.

(** A computation that may raise, in either case leaving a world. *)
Definition act (A : Type) : Type := W -> result OperationError A * W.

Definition ret {A : Type} (a : A) : act A := fun w => (Ok a, w).

Definition then_do {A B : Type} (m : act A) (k : A -> act B) : act B := fun w =>
  match m w with
  | (Ok a, w') => k a w'
  | (Err e, w') => (Err e, w')
  end.

(** [try: return await m except OperationError as exc: ...] *)
Definition catch {A : Type} (m : act A) (handler : OperationError -> act A) : act A := fun w =>
  match m w with
  | (Ok a, w') => (Ok a, w')
  | (Err e, w') => handler e w'
  end.

Notation "x <-! m ;; k" := (then_do m (fun x => k))
  (at level 60, m at next level, right associativity).

(** [_docker_capture] with its arguments, [_compose] with project, file and arguments, and
    whether a file is there. *)
Context (docker_capture : list string -> act string).
Context (compose : string -> string -> list string -> act unit).
Context (exists_file : W -> string -> bool).
(** [_paths_for(spec).compose_file] of a workspace, and [GitManager.remove_worktree]. *)
Context (default_compose_file : string -> string).
Context (git_remove_worktree : string -> string -> act unit).

Definition _docker_resource_ids (args : list string) : act (list string) :=
  stdout <-! docker_capture args ;;
  ret (map strip (List.filter (fun line => negb (eqb (strip line) "")) (splitlines stdout))).

Definition _docker (args : list string) : act unit := _ <-! docker_capture args ;; ret tt.

Definition down_project (project_name compose_file : string) (remove_volumes : bool) : act bool :=
  fun w =>
    if exists_file w compose_file
    then (_ <-! compose project_name compose_file
                  (["down"; "--remove-orphans"] ++ if remove_volumes then ["-v"] else []) ;;
          ret true) w
    else (Ok false, w).

Definition spec_project_name (workspace_id : string) : string := "awf_" +:+ workspace_id.

Definition down (workspace_id : string) (remove_volumes : bool) : act bool :=
  down_project (spec_project_name workspace_id) (default_compose_file workspace_id) remove_volumes.

Definition when_some (ids : list string) (m : act unit) : act unit :=
  match ids with [] => ret tt | _ :: _ => m end.

Definition remove_project_by_label (project_name : string) (remove_volumes : bool)
    (fallback_volume_names : list string) : act unit :=
  let label_filter := "label=com.docker.compose.project=" +:+ project_name in
  container_ids <-! _docker_resource_ids ["ps"; "-aq"; "--filter"; label_filter] ;;
  _ <-! when_some container_ids (_docker (["rm"; "-f"] ++ container_ids)) ;;
  network_ids <-! _docker_resource_ids ["network"; "ls"; "-q"; "--filter"; label_filter] ;;
  _ <-! when_some network_ids (_docker (["network"; "rm"] ++ network_ids)) ;;
  if remove_volumes then
    found <-! _docker_resource_ids ["volume"; "ls"; "-q"; "--filter"; label_filter] ;;
    let volume_names := found ++ fold_left (fun extra name =>
                          if negb (eqb name "") && negb (mem name (found ++ extra))
                          then extra ++ [name] else extra) fallback_volume_names [] in
    when_some volume_names (_docker (["volume"; "rm"; "-f"] ++ volume_names))
  else ret tt.

Record TeardownResult : Type := {
  td_status : StepStatus;
  td_reason_code : string;
  td_error : option string
}.

Definition _reap_project_by_label (project_name : string) (remove_volumes : bool)
    (fallback_volume_names : list string) : act TeardownResult := fun w =>
  match remove_project_by_label project_name remove_volumes fallback_volume_names w with
  | (Ok _, w') => (Ok {| td_status := step_succeeded;
                         td_reason_code := "DOCKER_COMPOSE_PROJECT_LABEL_REMOVED";
                         td_error := None |}, w')
  | (Err e, w') => (Ok {| td_status := step_failed; td_reason_code := oe_reason_code e;
                          td_error := Some (take_str 1000 (redact_secrets (error_text e) [])) |}, w')
  end.

Definition teardown_project (project_name compose_file : string) (remove_volumes : bool)
    (fallback_volume_names : list string) : act TeardownResult := fun w =>
  let reap := _reap_project_by_label project_name remove_volumes fallback_volume_names in
  if exists_file w compose_file then
    match down_project project_name compose_file remove_volumes w with
    | (Ok true, w') => (Ok {| td_status := step_succeeded;
                              td_reason_code := "DOCKER_COMPOSE_DOWN_SUCCEEDED";
                              td_error := None |}, w')
    | (Ok false, w') | (Err _, w') => reap w'
    end
  else reap w.

(** ** [WorkspaceCleaner.cleanup] *)

(** The body of the [try] around the compose step. *)
Definition compose_down (workspace_id project_name : string) (compose_file_path : option string)
    (remove_volumes : bool) : act unit := fun w =>
  let by_label := remove_project_by_label project_name remove_volumes [] in
  match compose_file_path with
  | Some file =>
      if exists_file w file then
        match down_project project_name file remove_volumes w with
        | (Ok true, w') => (Ok tt, w')
        | (Ok false, w') | (Err _, w') => by_label w'
        end
      else by_label w
  | None =>
      let project_is_default := eqb project_name (spec_project_name workspace_id) in
      match (if project_is_default then down workspace_id remove_volumes w else (Ok false, w)) with
      | (Err _, w') | (Ok false, w') => by_label w'
      | (Ok true, w') => catch by_label (fun _ => ret tt) w'
      end
  end.

Definition compose_step (workspace_id project_name : string) (compose_file_path : option string)
    (remove_volumes skip_compose : bool) (w : W) : StepResult * W :=
  if skip_compose
  then ({| sr_name := "compose_down"; sr_status := step_skipped;
           sr_reason_code := "COMPOSE_DOWN_SKIPPED"; sr_error := None |}, w)
  else match compose_down workspace_id project_name compose_file_path remove_volumes w with
       | (Ok _, w') => ({| sr_name := "compose_down"; sr_status := step_succeeded;
                           sr_reason_code := "COMPOSE_DOWN_SUCCEEDED"; sr_error := None |}, w')
       | (Err e, w') => ({| sr_name := "compose_down"; sr_status := step_failed;
                            sr_reason_code := oe_reason_code e;
                            sr_error := Some (_operation_error_detail e) |}, w')
       end.

(** The worktrees with the names of their steps. *)
Definition worktree_targets (workspace_id repo_url : string)
    (companion_worktrees : list (string * string)) : list (string * string * string) :=
  (workspace_id, repo_url, "worktree_remove")
  :: map (fun c => (c.1, c.2, "companion_worktree_remove:" +:+ c.1)) companion_worktrees.

Definition worktree_step (target : string * string * string) (w : W) : StepResult * W :=
  match git_remove_worktree target.1.1 target.1.2 w with
  | (Ok _, w') => ({| sr_name := target.2; sr_status := step_succeeded;
                      sr_reason_code := "WORKTREE_REMOVE_SUCCEEDED"; sr_error := None |}, w')
  | (Err e, w') => ({| sr_name := target.2; sr_status := step_failed;
                       sr_reason_code := oe_reason_code e;
                       sr_error := Some (_operation_error_detail e) |}, w')
  end.

Fixpoint worktree_steps (targets : list (string * string * string)) (w : W)
  : list StepResult * W :=
  match targets with
  | [] => ([], w)
  | t :: rest =>
      let '(s, w1) := worktree_step t w in
      let '(l, w2) := worktree_steps rest w1 in (s :: l, w2)
  end.

Record CleanupArgs : Type := {
  ca_workspace_id : string;
  ca_repo_url : string;
  ca_companion_worktrees : list (string * string);
  ca_compose_project_name : option string;
  ca_compose_file_path : option string;
  ca_remove_volumes : bool;
  ca_remove_worktree : bool;
  ca_skip_compose : bool
}.

Definition cleanup (a : CleanupArgs) (w : W) : CleanupResult * W :=
  let project_name :=
    default (spec_project_name (ca_workspace_id a)) (truthy_str (ca_compose_project_name a)) in
  let '(s, w1) := compose_step (ca_workspace_id a) project_name (ca_compose_file_path a)
                    (ca_remove_volumes a) (ca_skip_compose a) w in
  let targets :=
    worktree_targets (ca_workspace_id a) (ca_repo_url a) (ca_companion_worktrees a) in
  let '(l, w2) :=
    if ca_remove_worktree a then worktree_steps targets w1
    else (map (fun t => {| sr_name := t.2; sr_status := step_skipped;
                           sr_reason_code := "WORKTREE_REMOVE_SKIPPED"; sr_error := None |}) targets,
          w1) in
  (from_steps (s :: l), w2).
End Teardown.

(** ** What a cleanup that reports success has done

    Against a container engine that lists what carries a label and removes what it is told
    to: a compose step that succeeded leaves no container of the project, on every path of
    the teardown, and the result of a cleanup is the conjunction of its steps. *)

(** ** A container engine *)

Inductive Kind : Type := container | network | volume.

(** The subcommands that list and remove a kind. *)
Definition list_args (k : Kind) : list string :=
  match k with
  | container => ["ps"; "-aq"; "--filter"]
  | network => ["network"; "ls"; "-q"; "--filter"]
  | volume => ["volume"; "ls"; "-q"; "--filter"]
  end.
Definition remove_args (k : Kind) : list string :=
  match k with
  | container => ["rm"; "-f"]
  | network => ["network"; "rm"]
  | volume => ["volume"; "rm"; "-f"]
  end.

Definition project_label (project_name : string) : string :=
  "label=com.docker.compose.project=" +:+ project_name.

Section Engine.
Context {W : Type}.
Context (docker_capture : list string -> act (W := W) string).
Context (compose : string -> string -> list string -> act (W := W) unit).
Context (exists_file : W -> string -> bool).
Context (default_compose_file : string -> string).
Context (git_remove_worktree : string -> string -> act (W := W) unit).
(** What carries the label of a project. *)
Context (held : Kind -> W -> string -> list string).

(** Nothing has been started. *)
Definition shrinks (w w' : W) : Prop := forall k p, held k w' p ⊆ held k w p.

#[export] Instance shrinks_preorder : PreOrder shrinks.
Proof. split; [by intros w k p|]. intros a b c H1 H2 k p. etrans; [apply H2|apply H1]. Qed.

(** The identifiers in the output of a listing. *)
Definition listed (stdout : string) : list string :=
  map strip (List.filter (fun line => negb (eqb (strip line) "")) (splitlines stdout)).

(** Listing shows what carries the label, removing removes what is named, [compose down]
    stops every container of its project, and none of them starts anything. *)
Record Engine : Prop := {
  en_list k p w : match docker_capture (list_args k ++ [project_label p]) w with
                  | (Ok stdout, w') => shrinks w w' /\ listed stdout = held k w p
                  | (Err _, w') => shrinks w w'
                  end;
  en_remove k ids w : match docker_capture (remove_args k ++ ids) w with
                      | (Ok _, w') => shrinks w w' /\
                                      forall p id, id ∈ ids -> id ∉ held k w' p
                      | (Err _, w') => shrinks w w'
                      end;
  en_down p file rest w : match compose p file ("down" :: "--remove-orphans" :: rest) w with
                          | (Ok _, w') => shrinks w w' /\ held container w' p = []
                          | (Err _, w') => shrinks w w'
                          end;
  en_git id url w : shrinks w (git_remove_worktree id url w).2
}.

Context (engine : Engine).

(** ** Computations that start nothing *)

Definition starts_nothing {A : Type} (m : act (W := W) A) : Prop := forall w, shrinks w (m w).2.

Lemma ret_nothing {A : Type} (a : A) : starts_nothing (ret a).
Proof. by intros w. Qed.

Lemma then_nothing {A B : Type} (m : act A) (k : A -> act B) :
  starts_nothing m -> (forall a, starts_nothing (k a)) -> starts_nothing (then_do m k).
Proof.
  intros Hm Hk w. unfold then_do. specialize (Hm w). destruct (m w) as [[a|e] w1]; [|done].
  etrans; [exact Hm|apply Hk].
Qed.

Lemma catch_nothing {A : Type} (m : act A) (h : OperationError -> act A) :
  starts_nothing m -> (forall e, starts_nothing (h e)) -> starts_nothing (catch m h).
Proof.
  intros Hm Hk w. unfold catch. specialize (Hm w). destruct (m w) as [[a|e] w1]; [done|].
  etrans; [exact Hm|apply Hk].
Qed.

Lemma ids_nothing (k : Kind) (p : string) :
  starts_nothing (_docker_resource_ids docker_capture (list_args k ++ [project_label p])).
Proof.
  intros w. unfold _docker_resource_ids, then_do. pose proof (en_list engine k p w) as H.
  destruct (docker_capture _ w) as [[out|e] w1]; [apply H|exact H].
Qed.

Lemma remove_nothing (k : Kind) (ids : list string) :
  starts_nothing (_docker docker_capture (remove_args k ++ ids)).
Proof.
  intros w. unfold _docker, then_do. pose proof (en_remove engine k ids w) as H.
  destruct (docker_capture _ w) as [[out|e] w1]; [apply H|exact H].
Qed.

Lemma when_nothing (ids : list string) (m : act unit) :
  starts_nothing m -> starts_nothing (when_some ids m).
Proof. intros Hm. destruct ids; [apply ret_nothing|exact Hm]. Qed.

Hint Resolve @ret_nothing @then_nothing @catch_nothing ids_nothing remove_nothing when_nothing : core.

Lemma down_project_nothing (p file : string) (rv : bool) :
  starts_nothing (down_project compose exists_file p file rv).
Proof.
  intros w. unfold down_project. destruct (exists_file w file); [|done].
  unfold then_do. pose proof (en_down engine p file (if rv then ["-v"] else []) w) as H.
  cbn [app]. destruct (compose _ _ _ w) as [[u|e] w1]; [apply H|exact H].
Qed.

(** ** Removal by label *)

Lemma subset_nil {A : Type} (l : list A) : l ⊆ [] -> l = [].
Proof. destruct l as [|x l]; [done|]. intros H. assert (Hx : x ∈ []) by (apply H; left). by apply elem_of_nil in Hx. Qed.

(** Running [m] removes every thing of kind [k] of the project. *)
Definition clears {A : Type} (k : Kind) (p : string) (m : act (W := W) A) : Prop :=
  forall w a w', m w = (Ok a, w') -> held k w' p = [].

Lemma clears_then {A B : Type} (k : Kind) (p : string) (m : act A) (f : A -> act B) :
  clears k p m -> (forall a, starts_nothing (f a)) -> clears k p (then_do m f).
Proof.
  intros Hm Hf w b w' H. unfold then_do in H. destruct (m w) as [[a|e] w1] eqn:E; [|done].
  pose proof (Hf a w1) as Hs. rewrite H in Hs. apply subset_nil. by rewrite <- (Hm _ _ _ E).
Qed.

Lemma then_clears {A B : Type} (k : Kind) (p : string) (m : act A) (f : A -> act B) :
  (forall a, clears k p (f a)) -> clears k p (then_do m f).
Proof.
  intros Hf w b w' H. unfold then_do in H. destruct (m w) as [[a|e] w1]; [|done]. by eapply Hf.
Qed.

(** Listing a kind and removing at least what was listed. *)
Lemma listing_clears (k : Kind) (p : string) (more : list string -> list string) :
  (forall ids, ids ⊆ more ids) ->
  clears k p (then_do (_docker_resource_ids docker_capture (list_args k ++ [project_label p]))
                (fun ids => when_some (more ids) (_docker docker_capture (remove_args k ++ more ids)))).
Proof.
  intros Hmore w u w' H. unfold then_do, _docker_resource_ids, then_do in H.
  pose proof (en_list engine k p w) as Hl.
  destruct (docker_capture (list_args k ++ _) w) as [[out|e] w1]; [|done].
  destruct Hl as [Hs Hl]. cbn [ret] in H. fold (listed out) in H. rewrite Hl in H.
  specialize (Hmore (held k w p)). destruct (more (held k w p)) as [|id ids] eqn:Em.
  - injection H as _ <-. apply subset_nil. etrans; [apply Hs|exact Hmore].
  - cbn [when_some] in H. unfold _docker, then_do in H. pose proof (en_remove engine k (id :: ids) w1) as Hr.
    destruct (docker_capture _ w1) as [[out'|e] w2]; [|done]. injection H as _ <-.
    destruct Hr as [Hs2 Hgone]. apply subset_nil. intros x Hx. exfalso.
    eapply Hgone; [|exact Hx]. by apply Hmore, Hs, Hs2.
Qed.

Lemma clears_before {A B C : Type} (k : Kind) (p : string) (m : act A) (f : A -> act B)
    (g : act C) :
  clears k p (then_do m f) -> starts_nothing g ->
  clears k p (then_do m (fun a => then_do (f a) (fun _ => g))).
Proof.
  intros Hc Hg w c w' H. specialize (Hc w). unfold then_do in *.
  destruct (m w) as [[a|e] w1]; [|done]. destruct (f a w1) as [[b|e] w2]; [|done].
  pose proof (Hg w2) as Hs. rewrite H in Hs. apply subset_nil. by rewrite <- (Hc b w2 eq_refl).
Qed.

Section ByLabel.
Context (p : string) (rv : bool) (names : list string).

Definition volumes_step : act (W := W) unit :=
  if rv then
    then_do (_docker_resource_ids docker_capture (list_args volume ++ [project_label p]))
      (fun found =>
         let volume_names := found ++ fold_left (fun extra name =>
                               if negb (eqb name "") && negb (mem name (found ++ extra))
                               then extra ++ [name] else extra) names [] in
         when_some volume_names (_docker docker_capture (remove_args volume ++ volume_names)))
  else ret tt.

Definition kind_step (k : Kind) (rest : act (W := W) unit) : act (W := W) unit :=
  then_do (_docker_resource_ids docker_capture (list_args k ++ [project_label p]))
    (fun ids => then_do (when_some ids (_docker docker_capture (remove_args k ++ ids)))
                  (fun _ => rest)).

Lemma by_label_steps :
  remove_project_by_label docker_capture p rv names
  = kind_step container (kind_step network volumes_step).
Proof. done. Qed.

Lemma volumes_nothing : starts_nothing volumes_step.
Proof. unfold volumes_step. destruct rv; auto. Qed.

Lemma kind_nothing (k : Kind) (rest : act unit) :
  starts_nothing rest -> starts_nothing (kind_step k rest).
Proof. unfold kind_step. auto. Qed.

Lemma kind_clears (k : Kind) (rest : act unit) :
  starts_nothing rest -> clears k p (kind_step k rest).
Proof. intros Hr. apply clears_before; [|done]. by apply (listing_clears k p (fun ids => ids)). Qed.

Lemma kind_rest (k k' : Kind) (rest : act unit) :
  clears k p rest -> clears k p (kind_step k' rest).
Proof. intros Hr. apply then_clears. intros ids. by apply then_clears. Qed.

Lemma by_label_nothing : starts_nothing (remove_project_by_label docker_capture p rv names).
Proof. rewrite by_label_steps. auto using volumes_nothing, kind_nothing. Qed.

Lemma by_label_clears (k : Kind) :
  (k = volume -> rv = true) -> clears k p (remove_project_by_label docker_capture p rv names).
Proof.
  intros Hv. rewrite by_label_steps. destruct k.
  - apply kind_clears, kind_nothing, volumes_nothing.
  - apply kind_rest, kind_clears, volumes_nothing.
  - apply kind_rest, kind_rest. unfold volumes_step. rewrite Hv by done.
    apply (listing_clears volume p). intros found. apply list_subseteq_app_l. done.
Qed.
End ByLabel.

(** ** The compose step *)

Lemma down_clears (p file : string) (rv : bool) (w w' : W) :
  down_project compose exists_file p file rv w = (Ok true, w') -> held container w' p = [].
Proof.
  unfold down_project, then_do. destruct (exists_file w file); [|done].
  pose proof (en_down engine p file (if rv then ["-v"] else []) w) as H. cbn [app].
  destruct (compose _ _ _ w) as [[u|e] w1]; [|done]. intros [= <-]. apply H.
Qed.

Abbreviation compose_down' := (compose_down docker_capture compose exists_file default_compose_file).

Lemma compose_down_clears (id p : string) (file : option string) (rv : bool) (w w' : W) :
  compose_down' id p file rv w = (Ok tt, w') -> held container w' p = [].
Proof.
  intros H. unfold compose_down in H.
  assert (Hl : forall w, remove_project_by_label docker_capture p rv [] w = (Ok tt, w') ->
                         held container w' p = []).
  { intros w0. by apply by_label_clears. }
  destruct file as [file|].
  - destruct (exists_file w file); [|by eapply Hl].
    destruct (down_project _ _ p file rv w) as [[[|]|e] w1] eqn:E; [|by eapply Hl..].
    injection H as <-. by eapply down_clears.
  - destruct (eqb p (spec_project_name id)) eqn:Ep; [|by eapply Hl]. rewrite eqb_true in Ep.
    unfold down in H. rewrite <- Ep in H.
    destruct (down_project _ _ p _ rv w) as [[[|]|e] w1] eqn:E; [|by eapply Hl..].
    pose proof (down_clears _ _ _ _ _ E) as Hc. unfold catch in H.
    pose proof (by_label_nothing p rv [] w1) as Hs.
    destruct (remove_project_by_label _ p rv [] w1) as [[[]|e] w2]; injection H as <-;
      apply subset_nil; by rewrite <- Hc.
Qed.

Lemma compose_down_nothing (id p : string) (file : option string) (rv : bool) :
  starts_nothing (compose_down' id p file rv).
Proof.
  intros w. unfold compose_down, down.
  assert (Hl : forall w0, shrinks w w0 ->
    shrinks w (remove_project_by_label docker_capture p rv [] w0).2).
  { intros w0 H0. etrans; [exact H0|apply by_label_nothing]. }
  destruct file as [file|].
  - destruct (exists_file w file); [|by apply Hl].
    pose proof (down_project_nothing p file rv w) as Hd.
    destruct (down_project _ _ p file rv w) as [[[|]|e] w1]; [done|by apply Hl..].
  - destruct (eqb p (spec_project_name id)); [|by apply Hl].
    pose proof (down_project_nothing (spec_project_name id) (default_compose_file id) rv w) as Hd.
    destruct (down_project _ _ _ _ rv w) as [[[|]|e] w1]; [|by apply Hl..].
    pose proof (Hl w1 Hd) as Hs. unfold catch.
    destruct (remove_project_by_label _ p rv [] w1) as [[u|e] w2]; exact Hs.
Qed.

(** The steps of the worktrees, one each, start nothing either. *)
Lemma worktree_steps_nothing (targets : list (string * string * string)) (w : W) :
  shrinks w (worktree_steps git_remove_worktree targets w).2 /\
  map sr_name (worktree_steps git_remove_worktree targets w).1 = map snd targets.
Proof.
  revert w. induction targets as [|t rest IH]; intros w; [done|]. cbn [worktree_steps].
  unfold worktree_step. pose proof (en_git engine t.1.1 t.1.2 w) as Hg.
  destruct (git_remove_worktree t.1.1 t.1.2 w) as [[u|e] w1]; cbn [snd] in Hg;
    specialize (IH w1); destruct (worktree_steps _ rest w1) as [l w2]; destruct IH as [IH Hn];
    cbn [fst snd map sr_name] in *; (split; [by etrans|by rewrite Hn]).
Qed.

Lemma from_steps_ok (steps : list StepResult) :
  cleanup_ok (from_steps steps) = forallb step_ok steps.
Proof.
  transitivity (negb (existsb (fun s => negb (step_ok s)) steps)).
  - unfold from_steps. by destruct (existsb _ steps).
  - induction steps as [|s l IH]; [done|]. simpl. by destruct (step_ok s).
Qed.

(** The result of a cleanup is the conjunction of its steps: one for the compose project
    and one for every worktree of the workspace and its companions, the failure of one not
    keeping the others from running; and when the compose step reports success, whichever of
    its ways it took, the project named by the workspace has no container left. *)
Theorem cleanup_complete (a : CleanupArgs) (w : W) :
  let p := cleanup docker_capture compose exists_file default_compose_file git_remove_worktree a w in
  map sr_name (cr_steps p.1)
  = "compose_down" :: "worktree_remove"
    :: map (fun c => "companion_worktree_remove:" +:+ c.1) (ca_companion_worktrees a) /\
  cleanup_ok p.1 = forallb step_ok (cr_steps p.1) /\
  (ca_skip_compose a = false -> cleanup_ok p.1 = true ->
   held container p.2
     (default (spec_project_name (ca_workspace_id a)) (truthy_str (ca_compose_project_name a))) = []).
Proof.
  cbv zeta. unfold cleanup. set (project := default _ _).
  unfold compose_step. set (targets := worktree_targets _ _ _).
  assert (Ht : map snd targets = "worktree_remove"
    :: map (fun c => "companion_worktree_remove:" +:+ c.1) (ca_companion_worktrees a)).
  { unfold targets, worktree_targets. cbn [map snd]. by rewrite List.map_map. }
  assert (Hrest : forall w1 x, (if ca_remove_worktree a
      then worktree_steps git_remove_worktree targets w1
      else (map (fun t => {| sr_name := t.2; sr_status := step_skipped;
              sr_reason_code := "WORKTREE_REMOVE_SKIPPED"; sr_error := None |}) targets, w1)) = x ->
    shrinks w1 x.2 /\ map sr_name x.1 = map snd targets).
  { intros w1 x <-. destruct (ca_remove_worktree a); [apply worktree_steps_nothing|].
    split; [done|]. cbn [fst]. by rewrite List.map_map. }
  assert (Hs : forall steps, cr_steps (from_steps steps) = steps)
    by (intros steps; unfold from_steps; by destruct (existsb _ _)).
  destruct (ca_skip_compose a); [|destruct (compose_down _ _ _ _ _ _ _ _ w) as [[[]|e] w1] eqn:E];
    destruct (if ca_remove_worktree a then _ else _) as [l w2] eqn:El;
    apply Hrest in El as [Hsh Hn]; cbn [fst snd] in *; rewrite from_steps_ok, Hs;
    cbn [map sr_name]; rewrite Hn, Ht; (split_and!; [done|done|]); intros Hskip Hok; try done.
  apply subset_nil. rewrite <- (compose_down_clears _ _ _ _ _ _ E). apply Hsh.
Qed.
End Engine.

(** ** An instance *)

(** A world with a container of the project [awf_ws], or without it, and no compose file:
    the teardown goes by label. *)
Definition sample_docker (args : list string) : act (W := bool) string := fun w =>
  if eqb args ["ps"; "-aq"; "--filter"; project_label "awf_ws"]
  then (Ok (if w then "c1" else ""), w)
  else if eqb (take 2 args) ["rm"; "-f"] && mem "c1" args then (Ok "c1", false)
  else (Ok "", w).

Definition sample_refused : OperationError :=
  {| oe_tool := "docker compose"; oe_operation := "down"; oe_returncode := 1; oe_stdout := "";
     oe_stderr := "refused"; oe_reason_code := "COMPOSE_DOWN_FAILED" |}.

Definition sample_compose (p file : string) (args : list string) : act (W := bool) unit := fun w =>
  (Err sample_refused, w).
Definition sample_git (id url : string) : act (W := bool) unit := fun w => (Ok tt, w).
Definition sample_held (k : Kind) (w : bool) (p : string) : list string :=
  match k with
  | container => if w && eqb p "awf_ws" then ["c1"] else []
  | _ => []
  end.

Lemma project_label_inj (p p' : string) : project_label p = project_label p' -> p = p'.
Proof. unfold project_label. cbn. congruence. Qed.

Lemma sample_engine : Engine sample_docker sample_compose sample_git sample_held.
Proof.
  split.
  - intros k p w. unfold sample_docker.
    destruct (eqb (list_args k ++ [project_label p]) _) eqn:E.
    + rewrite eqb_true in E. destruct k; try discriminate E. injection E as E.
      split; [done|]. assert (p = "awf_ws") as -> by (apply project_label_inj; exact (f_equal _ E)).
      by destruct w.
    + apply eqb_false in E. destruct (_ && _) eqn:Er.
      * exfalso. bool_simpl. rewrite eqb_true in *. by destruct k.
      * split; [done|]. destruct k; [|done..]. simpl.
        destruct (eqb p "awf_ws") eqn:Ep; [|by rewrite andb_false_r].
        rewrite eqb_true in Ep. by subst.
  - intros k ids w. unfold sample_docker.
    destruct (eqb _ _) eqn:E; [rewrite eqb_true in E; by destruct k|].
    destruct (_ && _) eqn:Er.
    + split; [|intros p id _ Hin; by destruct k; apply elem_of_nil in Hin].
      intros k' p. by destruct k'; [apply list_subseteq_nil| |].
    + split; [done|]. intros p id Hid Hin. destruct k; [|by apply elem_of_nil in Hin..].
      simpl in Hin. destruct (w && eqb p "awf_ws"); [|by apply elem_of_nil in Hin].
      apply list_elem_of_singleton in Hin as ->. apply andb_false_iff in Er as [Er|Er]; [done|].
      apply mem_false in Er. apply Er. simpl. by do 2 right.
  - intros p file rest w. simpl. reflexivity.
  - intros id url w. simpl. reflexivity.
Qed.

Lemma cleanup_complete_witness :
  let a := {| ca_workspace_id := "ws"; ca_repo_url := "https://forge/repo";
              ca_companion_worktrees := [("ws2", "https://forge/lib")];
              ca_compose_project_name := None; ca_compose_file_path := None;
              ca_remove_volumes := true; ca_remove_worktree := true; ca_skip_compose := false |} in
  let p := cleanup sample_docker sample_compose (fun _ _ => false) id sample_git a true in
  map sr_name (cr_steps p.1)
  = ["compose_down"; "worktree_remove"; "companion_worktree_remove:ws2"] /\
  sample_held container true "awf_ws" = ["c1"] /\ sample_held container p.2 "awf_ws" = [].
Proof.
  cbv zeta.
  match goal with |- context [cleanup _ _ _ _ _ ?a ?w] =>
    destruct (cleanup_complete sample_docker sample_compose (fun _ _ => false) id sample_git sample_held
                sample_engine a w) as (Hn & _ & Hc) end.
  split; [exact Hn|]. split; [done|]. apply Hc; [done|]. by vm_compute.
Defined.
