(* ===== verification/FailureCausality.v ===== *)
(** * Primary failures and what follows them

    The records that keep the first failure of a workspace apart from later ones
    ([service/failure_causality.py]): the payload that preserves it, and the bounded
    history of the secondary failures.  Which events hold the evidence is a query that
    is not modelled. *)

From S2P Require Import Prelude PyStr PyFloat Json PyVal Store Cleanup.
#[local] Open Scope Z_scope.

Definition PRIMARY_FAILURE_KEY : string := "primary_failure".
Definition SECONDARY_FAILURE_KEY : string := "secondary_failure".
Definition SECONDARY_FAILURES_KEY : string := "secondary_failures".
Definition SECONDARY_FAILURE_RECORDED_EVENT_TYPE : string := "workspace.secondary_failure_recorded".
Definition _SECONDARY_FAILURE_HISTORY_LIMIT : nat := 20.

(** [FailureCausalitySnapshot], of JSON documents. *)
Record FailureCausalitySnapshot : Type := {
  fs_primary_failure : dict;
  fs_secondary_failures : list dict
}.

(** [value if isinstance(value, str) and value else None] *)
Definition _string (v : pyval) : option string := _cleanup_optional_string v.

Definition primary_failure_reason_code (primary_failure : option dict) (fallback : string)
  : string :=
  match primary_failure with
  | Some p => default fallback (_string (get p "reason_code"))
  | None => fallback
  end.

(** [failures[-limit:]] *)
Definition _bounded_secondary_failure_history (failures : list dict) : list dict :=
  drop (length failures - _SECONDARY_FAILURE_HISTORY_LIMIT) failures.

(** [if details := ...: payload[key] = details] *)
Definition set_if (d : dict) (key : string) (v : option pyval) : dict :=
  match v with Some x => set_key d key x | None => d end.

(** A mapping with a key in it. *)
Definition nonempty_mapping (v : pyval) : option pyval :=
  match v with VDict (_ :: _) => Some v | _ => None end.

(** On JSON documents [_jsonable] changes nothing. *)
Definition build_preserved_failure_payload (primary_failure secondary_failure extra : dict)
    (previous_secondary_failures : list dict) : dict :=
  let primary := pop_key (pop_key primary_failure SECONDARY_FAILURE_KEY) SECONDARY_FAILURES_KEY in
  let secondary_failures :=
    _bounded_secondary_failure_history (previous_secondary_failures ++ [secondary_failure]) in
  let payload := set_if extra "reason_code" (VStr <$> _string (get primary "reason_code")) in
  let payload := set_if payload "message" (VStr <$> _string (get primary "message")) in
  let payload := set_if payload "details" (nonempty_mapping (get primary "details")) in
  let payload := set_key payload PRIMARY_FAILURE_KEY (VDict primary) in
  let payload := set_key payload SECONDARY_FAILURE_KEY (VDict secondary_failure) in
  set_key payload SECONDARY_FAILURES_KEY (VList (map VDict secondary_failures)).

Definition attach_primary_failure (payload : dict) (primary_failure : option dict) : dict :=
  match primary_failure with
  | Some p => if has_key payload PRIMARY_FAILURE_KEY then payload
              else set_key payload PRIMARY_FAILURE_KEY (VDict p)
  | None => payload
  end.

(** [legacy_secondary not in failures] *)
Definition in_failures (d : dict) (failures : list dict) : bool :=
  existsb (fun e => py_eqb (VDict e) (VDict d)) failures.

Definition dicts_of (v : pyval) : list dict :=
  match v with
  | VList l => omap (fun x => match x with VDict d => Some d | _ => None end) l
  | _ => []
  end.

Definition _secondary_failure_history (payload : option dict) : list dict :=
  match payload with
  | None => []
  | Some p =>
      let failures := dicts_of (get p SECONDARY_FAILURES_KEY) in
      let failures :=
        match get p SECONDARY_FAILURE_KEY with
        | VDict legacy => if in_failures legacy failures then failures else failures ++ [legacy]
        | _ => failures
        end in
      _bounded_secondary_failure_history failures
  end.

Definition dicts_eqb (x y : list dict) : bool := py_eqb (VList (map VDict x)) (VList (map VDict y)).

(** Some stretch of [failures] is [prefix]. *)
Definition _secondary_failure_history_contains (failures prefix : list dict) : bool :=
  match prefix with
  | [] => true
  | _ :: _ =>
      existsb (fun start => dicts_eqb (take (length prefix) (drop start failures)) prefix)
        (seq 0 (length failures + 1 - length prefix))
  end.

(** The longest beginning of the history that the failures contain, searched downwards. *)
Fixpoint overlap_from (candidate : nat) (failures history : list dict) : nat :=
  match candidate with
  | 0%nat => 0
  | S c => if _secondary_failure_history_contains failures (take candidate history) then candidate
           else overlap_from c failures history
  end.

Definition _secondary_failure_history_overlap (failures history : list dict) : nat :=
  overlap_from (Nat.min (length failures) (length history)) failures history.

Definition _append_secondary_failure_history (failures history : list dict) : list dict :=
  match history with
  | [] => failures
  | _ :: _ => failures ++ drop (_secondary_failure_history_overlap failures history) history
  end.
