(* ===== verification/WorkspaceRepo.v ===== *)
(** * Workspace transitions, claims and leases

    [db/repositories/workspace_repo.py] (transitions, event orders, events),
    [db/repositories/workspace_repo_claims.py] (monitor and execution claims),
    [control/blocked_transition.py] (the protected-gate pause) and the claims of
    [control/worker/claims.py].  Each operation is one transaction on the tables
    of [Store]; SQL conditions are boolean functions of the row, in which a
    comparison with NULL is false. *)

From S2P Require Import Prelude PyStr Status Store.
#[local] Open Scope Z_scope.

(** ** Guards of a transition *)

Definition transition_releases_provisioning_execution_claim (old_state : string)
    (to : WorkspaceStatus) : bool :=
  eqb old_state (status_value provisioning) && negb (eqb to provisioning).

Definition transition_invalidates_filesystem_reclamation (old_state : string)
    (to : WorkspaceStatus) : bool :=
  let terminal := ["completed"; "failed"; "cancelled"; "destroyed"; "superseded"] in
  mem old_state terminal && negb (mem (status_value to) terminal).

Definition releases_resource_reservation (to : WorkspaceStatus) : bool :=
  mem to [completed; failed; cancelled; destroyed].

Definition candidate_terminal_close_reason (to : WorkspaceStatus) : string :=
  if eqb to failed then "WORKSPACE_FAILED"
  else if eqb to cancelled then "WORKSPACE_CANCELLED"
  else "WORKSPACE_" +:+ upper (status_value to).

(** ** Row updates *)

Definition with_life (w : Workspace) (l : Lifecycle) : Workspace :=
  {| w_life := l; w_exec := w_exec w; w_monitor := w_monitor w; w_block := w_block w;
     w_node_id := w_node_id w; w_desc := w_desc w |}.

Definition with_exec (w : Workspace) (x : ExecutionClaim) : Workspace :=
  {| w_life := w_life w; w_exec := x; w_monitor := w_monitor w; w_block := w_block w;
     w_node_id := w_node_id w; w_desc := w_desc w |}.

Definition with_monitor (w : Workspace) (m : MonitorClaim) : Workspace :=
  {| w_life := w_life w; w_exec := w_exec w; w_monitor := m; w_block := w_block w;
     w_node_id := w_node_id w; w_desc := w_desc w |}.

Definition with_block (w : Workspace) (b : BlockState) : Workspace :=
  {| w_life := w_life w; w_exec := w_exec w; w_monitor := w_monitor w; w_block := b;
     w_node_id := w_node_id w; w_desc := w_desc w |}.

Definition put (db : Db) (ws : string) (w : Workspace) : Db :=
  set_workspaces db (<[ws := w]> (workspaces db)).

Definition unclaimed (x : ExecutionClaim) : ExecutionClaim :=
  {| x_claimed_by := None; x_expires_at := None; x_epoch := x_epoch x |}.

(** ** Event orders and events *)

(** [_reserve_workspace_event_orders]: the first reserved order and the row. *)
Definition reserve_event_orders (l : Lifecycle) (count : Z) (bump_version : bool)
  : Z * Lifecycle :=
  let seq := l_event_sequence l + count in
  (seq - count + 1,
   {| l_status := l_status l;
      l_version := if bump_version then l_version l + 1 else l_version l;
      l_event_sequence := seq;
      l_monitor_started_at := l_monitor_started_at l;
      l_filesystem_reclaimed_at := l_filesystem_reclaimed_at l;
      l_events := l_events l |}).

Definition append_event (l : Lifecycle) (e : Event) : Lifecycle :=
  {| l_status := l_status l; l_version := l_version l; l_event_sequence := l_event_sequence l;
     l_monitor_started_at := l_monitor_started_at l;
     l_filesystem_reclaimed_at := l_filesystem_reclaimed_at l;
     l_events := l_events l ++ [e] |}.

Definition STATE_CHANGED : string := "workspace.state_changed".
Definition ATTENTION_REQUIRED_EVENT_TYPE : string := "workspace.attention_required".
Definition ATTENTION_CLEARED_EVENT_TYPE : string := "workspace.attention_cleared".

(** [add_events] for events given by type and reason. *)
Fixpoint number_events (status : string) (first : Z) (events : list (string * option string))
  : list Event :=
  match events with
  | [] => []
  | (ty, reason) :: rest =>
      {| e_type := ty; e_old_state := status; e_new_state := status; e_reason_code := reason;
         e_order := first |} :: number_events status (first + 1) rest
  end.

Definition add_events (l : Lifecycle) (events : list (string * option string)) : Lifecycle :=
  match events with
  | [] => l
  | _ :: _ =>
      let '(first, l1) := reserve_event_orders l (Z.of_nat (length events)) false in
      {| l_status := l_status l1; l_version := l_version l1;
         l_event_sequence := l_event_sequence l1;
         l_monitor_started_at := l_monitor_started_at l1;
         l_filesystem_reclaimed_at := l_filesystem_reclaimed_at l1;
         l_events := l_events l1 ++ number_events (l_status l1) first events |}
  end.

(** [add_event_with_states]: any pair of states may be recorded. *)
Definition add_event_with_states (l : Lifecycle) (ty old new : string) (reason : option string)
  : Lifecycle :=
  let '(order, l1) := reserve_event_orders l 1 false in
  append_event l1 {| e_type := ty; e_old_state := old; e_new_state := new;
                     e_reason_code := reason; e_order := order |}.

Definition advance_workspace_version (l : Lifecycle) : Lifecycle :=
  {| l_status := l_status l; l_version := l_version l + 1;
     l_event_sequence := l_event_sequence l;
     l_monitor_started_at := l_monitor_started_at l;
     l_filesystem_reclaimed_at := l_filesystem_reclaimed_at l; l_events := l_events l |}.

(** ** The shared tail of a transition *)

(** [_sync_merge_candidate_lifecycle] *)
Definition sync_merge_candidate_lifecycle (db : Db) (new_id : string) (now : Z) (ws : string)
    (w : Workspace) (attempt : option (string * Attempt)) (to : WorkspaceStatus)
  : result DbError Db :=
  if eqb to monitoring_pr then
    match attempt, truthy_str (d_pr_url (w_desc w)) with
    | Some (aid, a), Some _ =>
        if bool_decide (a_task_id a ∈ tasks db)
        then make_attempt_canonical_and_create_candidate db new_id now (a_task_id a) aid a ws w
               (d_monitor_last_commit_sha (w_desc w)) (d_base_commit (w_desc w))
        else Ok db
    | _, _ => Ok db
    end
  else if eqb to completed then Ok (mark_workspace_merged db now ws)
  else if mem to [failed; cancelled]
  then Ok (close_open_for_workspace db now ws (candidate_terminal_close_reason to))
  else Ok db.

Definition start_monitor (l : Lifecycle) (to : WorkspaceStatus) (now : Z) : Lifecycle :=
  {| l_status := l_status l; l_version := l_version l; l_event_sequence := l_event_sequence l;
     l_monitor_started_at :=
       if eqb to monitoring_pr && eqb (l_monitor_started_at l) None then Some now
       else l_monitor_started_at l;
     l_filesystem_reclaimed_at := l_filesystem_reclaimed_at l; l_events := l_events l |}.

(** The attempt takes the new status; its row is returned with it. *)
Definition set_attempt_status (db : Db) (attempt : option (string * Attempt))
    (to : WorkspaceStatus) : option (string * Attempt) * Db :=
  match attempt with
  | Some (aid, a) =>
      let a' := with_status a (status_value to) in
      (Some (aid, a'), set_attempts db (<[aid := a']> (attempts db)))
  | None => (None, db)
  end.

(** [_finish_transition_if_current], also the tail of [transition]: attempt,
    monitor start, candidates, reservations, then the state-changed event. *)
Definition finish_transition (db : Db) (new_id : string) (now : Z) (ws : string)
    (w : Workspace) (old_state : string) (to : WorkspaceStatus) (reason_code : string)
    (event_order : Z) : result DbError Db :=
  found <-? get_by_workspace_id db ws ;;
  let '(attempt, db1) := set_attempt_status db found to in
  let w1 := with_life w (start_monitor (w_life w) to now) in
  db2 <-? sync_merge_candidate_lifecycle db1 new_id now ws w1 attempt to ;;
  let db3 := if releases_resource_reservation to
             then release_active_for_workspace db2 ws now else db2 in
  let e := {| e_type := STATE_CHANGED; e_old_state := old_state; e_new_state := status_value to;
              e_reason_code := Some reason_code; e_order := event_order |} in
  Ok (put db3 ws (with_life w1 (append_event (w_life w1) e))).

(** The row writes of a transition before its tail. *)
Definition move (w : Workspace) (old_state : string) (to : WorkspaceStatus) (l : Lifecycle)
  : Workspace :=
  let l' := {| l_status := status_value to; l_version := l_version l;
               l_event_sequence := l_event_sequence l;
               l_monitor_started_at := l_monitor_started_at l;
               l_filesystem_reclaimed_at :=
                 if transition_invalidates_filesystem_reclamation old_state to then None
                 else l_filesystem_reclaimed_at l;
               l_events := l_events l |} in
  let w' := with_life w l' in
  if transition_releases_provisioning_execution_claim old_state to
  then with_exec w' (unclaimed (w_exec w')) else w'.

(** ** Transitions *)

(** [transition]: the row is loaded in the session and current. *)
Definition transition (db : Db) (new_id : string) (now : Z) (ws : string)
    (to : WorkspaceStatus) (reason_code : string) : result DbError Db :=
  match workspaces db !! ws with
  | None => Err NoResultFound
  | Some w =>
      match parse_status (l_status (w_life w)) with
      | Err v => Err (InvalidStatus v)
      | Ok current =>
          match assert_transition current to with
          | Err e => Err (InvalidWorkspaceTransitionError e)
          | Ok _ =>
              let old_state := l_status (w_life w) in
              let '(order, l) := reserve_event_orders (w_life w) 1 true in
              finish_transition db new_id now ws (move w old_state to l) old_state to
                reason_code order
          end
      end
  end.

(** The row locked by the guarded select, when it still matches. *)
Definition select_current (db : Db) (ws : string) (from_status : WorkspaceStatus)
    (conditions : list (Workspace -> bool)) : option Workspace :=
  match workspaces db !! ws with
  | Some w =>
      if eqb (l_status (w_life w)) (status_value from_status)
         && forallb (fun c => c w) conditions && recovery_allows_work db ws w
      then Some w else None
  | None => None
  end.

(** [transition_if_current] on PostgreSQL: select for update, then write. *)
Definition transition_if_current_locked (db : Db) (new_id : string) (now : Z) (ws : string)
    (from_status to : WorkspaceStatus) (reason_code : string)
    (conditions : list (Workspace -> bool)) : result DbError (option Db) :=
  match assert_transition from_status to with
  | Err e => Err (InvalidWorkspaceTransitionError e)
  | Ok _ =>
      match select_current db ws from_status conditions with
      | None => Ok None
      | Some w =>
          let '(order, l) := reserve_event_orders (w_life w) 1 true in
          let old_state := l_status (w_life w) in
          db' <-? finish_transition db new_id now ws (move w old_state to l) old_state to
                    reason_code order ;;
          Ok (Some db')
      end
  end.

(** [_transition_if_current_with_atomic_update]: one guarded UPDATE carries all
    the column writes; the order is the sequence it returns. *)
Definition atomic_update (w : Workspace) (from_status to : WorkspaceStatus) (now : Z)
  : Workspace :=
  let l := w_life w in
  let l' := {| l_status := status_value to; l_version := l_version l + 1;
               l_event_sequence := l_event_sequence l + 1;
               l_monitor_started_at :=
                 if eqb to monitoring_pr
                 then (if eqb (l_monitor_started_at l) None then Some now
                       else l_monitor_started_at l)
                 else l_monitor_started_at l;
               l_filesystem_reclaimed_at :=
                 if transition_invalidates_filesystem_reclamation (status_value from_status) to
                 then None else l_filesystem_reclaimed_at l;
               l_events := l_events l |} in
  let w' := with_life w l' in
  if transition_releases_provisioning_execution_claim (status_value from_status) to
  then with_exec w' (unclaimed (w_exec w')) else w'.

Definition transition_if_current_atomic (db : Db) (new_id : string) (now : Z) (ws : string)
    (from_status to : WorkspaceStatus) (reason_code : string)
    (conditions : list (Workspace -> bool)) : result DbError (option Db) :=
  match assert_transition from_status to with
  | Err e => Err (InvalidWorkspaceTransitionError e)
  | Ok _ =>
      match select_current db ws from_status conditions with
      | None => Ok None
      | Some w =>
          let w' := atomic_update w from_status to now in
          let db1 := put db ws w' in
          db' <-? finish_transition db1 new_id now ws w' (status_value from_status) to reason_code
                    (l_event_sequence (w_life w')) ;;
          Ok (Some db')
      end
  end.

Definition transition_if_current (postgresql : bool) :=
  if postgresql then transition_if_current_locked else transition_if_current_atomic.
