(* ===== verification/Claims.v ===== *)
(** * Claims, leases and the pauses built on them

    [db/repositories/workspace_repo_claims.py], [control/blocked_transition.py]
    and the claim handlers of [control/worker/claims.py].  Every handler is one
    guarded write; it answers whether it matched the row. *)

From S2P Require Import Prelude PyStr Status Store WorkspaceRepo.
#[local] Open Scope Z_scope.

(** ** SQL comparisons on nullable columns *)

Definition sql_eq (c : option string) (v : string) : bool := eqb c (Some v).
Definition sql_le (c : option Z) (v : Z) : bool :=
  match c with Some x => x <=? v | None => false end.
Definition is_null {A : Type} (c : option A) : bool :=
  match c with None => true | Some _ => false end.

(** One guarded UPDATE of the row: the new database and whether a row matched. *)
Definition guarded_update (db : Db) (ws : string) (cond : Workspace -> bool)
    (update : Workspace -> Workspace) : Db * bool :=
  match workspaces db !! ws with
  | Some w => if cond w then (put db ws (update w), true) else (db, false)
  | None => (db, false)
  end.

(** ** Monitor claims *)

(** Whether [claim_monitoring_pr] may clear the execution claim it finds. *)
Definition stale_execution_claim (x : ExecutionClaim) (cutoff : Z) : bool :=
  is_null (x_claimed_by x) || is_null (x_expires_at x) || sql_le (x_expires_at x) cutoff.

Definition clearable_execution_claim (x : ExecutionClaim) (owner : string) (cutoff : Z)
    (fresh_owners : option (list string)) : bool :=
  stale_execution_claim x cutoff
  || match fresh_owners, x_claimed_by x with
     | Some fresh, Some o => negb (eqb o owner) && negb (mem o fresh)
     | _, _ => false
     end.

Definition monitor_claim_available (m : MonitorClaim) (owner : string) (cutoff : Z) : bool :=
  is_null (m_expires_at m) || sql_le (m_expires_at m) cutoff || sql_eq (m_claimed_by m) owner.

Definition clear_execution_claim (x : ExecutionClaim) : ExecutionClaim :=
  {| x_claimed_by := None; x_expires_at := None; x_epoch := x_epoch x + 1 |}.

Definition claim_monitoring_pr (db : Db) (ws owner : string) (lease_expires_at now : Z)
    (stale_cutoff : option Z) (fresh_owners : option (list string)) : Db * bool :=
  guarded_update db ws
    (fun w =>
       recovery_allows_work db ws w
       && eqb (l_status (w_life w)) (status_value monitoring_pr)
       && monitor_claim_available (w_monitor w) owner now
       && match stale_cutoff with
          | None => true
          | Some cutoff =>
              clearable_execution_claim (w_exec w) owner cutoff fresh_owners
              || sql_eq (x_claimed_by (w_exec w)) owner
          end)
    (fun w =>
       let w1 := with_monitor w {| m_claimed_by := Some owner;
                                   m_expires_at := Some lease_expires_at |} in
       match stale_cutoff with
       | Some cutoff =>
           if clearable_execution_claim (w_exec w) owner cutoff fresh_owners
           then with_exec w1 (clear_execution_claim (w_exec w)) else w1
       | None => w1
       end).

Definition refresh_monitoring_pr_claim (db : Db) (ws owner : string) (lease_expires_at : Z)
  : Db * bool :=
  guarded_update db ws
    (fun w => eqb (l_status (w_life w)) (status_value monitoring_pr)
              && sql_eq (m_claimed_by (w_monitor w)) owner)
    (fun w => with_monitor w {| m_claimed_by := m_claimed_by (w_monitor w);
                                m_expires_at := Some lease_expires_at |}).

Definition release_monitoring_pr_claim (db : Db) (ws owner : string) : Db * bool :=
  guarded_update db ws
    (fun w => sql_eq (m_claimed_by (w_monitor w)) owner)
    (fun w => with_monitor w {| m_claimed_by := None; m_expires_at := None |}).

(** ** Execution claims *)

Definition epoch_matches (x : ExecutionClaim) (epoch : option Z) : bool :=
  match epoch with Some e => x_epoch x =? e | None => true end.

(** [has_active_recovery]: the EXISTS over worker-restart recovery operations. *)
Definition claim_worker_restart_recovery_execution (db : Db) (ws owner : string)
    (lease_expires_at claim_cutoff : Z) (has_active_recovery : bool) : Db * bool :=
  guarded_update db ws
    (fun w =>
       recovery_allows_work db ws w
       && eqb (l_status (w_life w)) (status_value running)
       && has_active_recovery
       && (stale_execution_claim (w_exec w) claim_cutoff
           || sql_eq (x_claimed_by (w_exec w)) owner))
    (fun w => with_exec w {| x_claimed_by := Some owner; x_expires_at := Some lease_expires_at;
                             x_epoch := x_epoch (w_exec w) |}).

Definition refresh_execution_claim (db : Db) (ws owner : string) (lease_expires_at : Z)
    (epoch : option Z) : Db * bool :=
  guarded_update db ws
    (fun w => sql_eq (x_claimed_by (w_exec w)) owner && epoch_matches (w_exec w) epoch)
    (fun w => with_exec w {| x_claimed_by := x_claimed_by (w_exec w);
                             x_expires_at := Some lease_expires_at;
                             x_epoch := x_epoch (w_exec w) |}).

Definition release_execution_claim (db : Db) (ws owner : string) (epoch : option Z) : Db * bool :=
  guarded_update db ws
    (fun w => sql_eq (x_claimed_by (w_exec w)) owner && epoch_matches (w_exec w) epoch)
    (fun w => with_exec w (unclaimed (w_exec w))).

Definition read_execution_claim_epoch (db : Db) (ws owner : string) : option Z :=
  match workspaces db !! ws with
  | Some w => if sql_eq (x_claimed_by (w_exec w)) owner then Some (x_epoch (w_exec w)) else None
  | None => None
  end.

Definition read_provisioning_execution_claim_epoch (db : Db) (ws : string) : option Z :=
  match workspaces db !! ws with
  | Some w =>
      if eqb (l_status (w_life w)) (status_value provisioning) then Some (x_epoch (w_exec w))
      else None
  | None => None
  end.

(** ** Claims on top of a compare-and-set transition *)

(** The identity and configuration of a worker. *)
Record Worker : Type := { worker_id : string; worker_node_id : option string; worker_lease : Z }.

(** [_apply_execution_claim]; [worker_lease] is the expiry it would stamp. *)
Definition apply_execution_claim (wk : Worker) (w : Workspace) : Workspace :=
  {| w_life := w_life w;
     w_exec := {| x_claimed_by := Some (worker_id wk); x_expires_at := Some (worker_lease wk);
                  x_epoch := x_epoch (w_exec w) + 1 |};
     w_monitor := w_monitor w;
     w_block := w_block w;
     w_node_id := match worker_node_id wk with Some n => Some n | None => w_node_id w end;
     w_desc := w_desc w |}.

Definition update_row (db : Db) (ws : string) (f : Workspace -> Workspace) : Db :=
  set_workspaces db (alter f ws (workspaces db)).

Section WorkerClaims.
(** The dialect, and the identifier and clock of the transaction. *)
Context (pg : bool) (new_id : string) (now : Z).

(** [_claim_requested_for_provisioning]: [slots] is the admission headroom read
    under the admission locks, [in_scope] the node-scope condition. *)
Definition claim_requested_for_provisioning (db : Db) (wk : Worker) (ws : string) (slots : Z)
    (in_scope : Workspace -> bool) : result DbError (Db * bool) :=
  if slots <=? 0 then Ok (db, false)
  else
    moved <-? transition_if_current pg db new_id now ws requested provisioning "WORKER_CLAIMED"
                [in_scope] ;;
    match moved with
    | Some db' => Ok (update_row db' ws (apply_execution_claim wk), true)
    | None => Ok (db, false)
    end.

Inductive PauseResumeReason : Type := resume_blocked | resume_recovering.

Definition paused_status (reason : PauseResumeReason) : WorkspaceStatus :=
  match reason with resume_blocked => blocked | resume_recovering => recovering end.

Definition paused_resume_claim_reason_code (reason : PauseResumeReason) : string :=
  match reason with
  | resume_blocked => "OPERATOR_GRANT_RESUME"
  | resume_recovering => "PROVIDER_RECOVERY_IN_PLACE_RESUME"
  end.

Definition add_event (ws : string) (ty : string) (reason : option string) (db : Db) : Db :=
  update_row db ws (fun w => with_life w (add_events (w_life w) [(ty, reason)])).

Definition claim_paused_for_resume (db : Db) (wk : Worker) (ws : string)
    (reason : PauseResumeReason) : result DbError (Db * bool) :=
  moved <-? transition_if_current pg db new_id now ws (paused_status reason) running
              (paused_resume_claim_reason_code reason) [] ;;
  match moved with
  | None => Ok (db, false)
  | Some db1 =>
      let db2 := match reason with
                 | resume_blocked => add_event ws ATTENTION_CLEARED_EVENT_TYPE None db1
                 | resume_recovering => db1
                 end in
      Ok (update_row db2 ws (apply_execution_claim wk), true)
  end.

(** [_restore_paused_resume_claim]: any exception is logged and swallowed, and the
    transaction is then rolled back.  The cooldown it may re-arm lives in the
    JSON policy, which the rows do not carry. *)
Definition restore_paused_resume_claim (db : Db) (wk : Worker) (ws : string)
    (reason : PauseResumeReason) (reason_code : string) : Db :=
  match transition_if_current pg db new_id now ws running (paused_status reason) reason_code
          [fun w => sql_eq (x_claimed_by (w_exec w)) (worker_id wk)] with
  | Ok (Some db1) =>
      match reason with
      | resume_blocked => add_event ws ATTENTION_REQUIRED_EVENT_TYPE None db1
      | resume_recovering => db1
      end
  | Ok None => db
  | Err _ => db
  end.

(** ** The protected-gate pause *)

Definition MONITOR_BLOCK_RESUME_PHASE_PREFIX : string := "monitor_".

Definition is_monitor_origin_block_resume_phase (phase : option string) : bool :=
  match phase with
  | Some p => negb (eqb p "") && starts_with MONITOR_BLOCK_RESUME_PHASE_PREFIX p
  | None => false
  end.

Definition owner_fence (execution_owner monitor_owner : option string)
    (fence_unclaimed_monitor : bool) : list (Workspace -> bool) :=
  match execution_owner with
  | Some o => [fun w => sql_eq (x_claimed_by (w_exec w)) o]
  | None => []
  end ++
  match monitor_owner with
  | Some o => [fun w => sql_eq (m_claimed_by (w_monitor w)) o]
  | None => if fence_unclaimed_monitor then [fun w => is_null (m_claimed_by (w_monitor w))] else []
  end.

Definition enter_blocked (db : Db) (ws : string) (from_status : WorkspaceStatus)
    (violations : list string) (resume_phase block_type block_reason transition_reason : string)
    (execution_owner monitor_owner : option string) (fence_unclaimed_monitor : bool)
  : result DbError (Db * bool) :=
  moved <-? transition_if_current pg db new_id now ws from_status blocked transition_reason
              (owner_fence execution_owner monitor_owner fence_unclaimed_monitor) ;;
  match moved with
  | None => Ok (db, false)
  | Some db1 =>
      let db2 := update_row db1 ws (fun w =>
        with_block w {| b_reason_code := Some block_reason; b_type := Some block_type;
                        b_resume_phase := Some resume_phase; b_violations := violations;
                        b_epoch := b_epoch (w_block w) + 1;
                        b_blocked_at := Some now; b_pending_operator_hint := None |}) in
      Ok (add_event ws ATTENTION_REQUIRED_EVENT_TYPE None db2, true)
  end.
End WorkerClaims.

(** ** Concrete tables

    One workspace with its attempt, candidate and reservation, on which the
    theorems about the lifecycle are instantiated. *)

Definition sample_event (old new : WorkspaceStatus) (order : Z) : Event :=
  {| e_type := STATE_CHANGED; e_old_state := status_value old; e_new_state := status_value new;
     e_reason_code := None; e_order := order |}.

(** The shortest history from [requested] to the statuses the samples use. *)
Definition sample_history (s : WorkspaceStatus) : list Event :=
  match s with
  | provisioning => [sample_event requested provisioning 1]
  | ready => [sample_event requested provisioning 1; sample_event provisioning ready 2]
  | running => [sample_event requested provisioning 1; sample_event provisioning ready 2;
                sample_event ready running 3]
  | blocked => [sample_event requested provisioning 1; sample_event provisioning ready 2;
                sample_event ready running 3; sample_event running blocked 4]
  | monitoring_pr => [sample_event requested provisioning 1;
                      sample_event provisioning monitoring_pr 2]
  | _ => []
  end.

Definition sample_life (s : WorkspaceStatus) : Lifecycle :=
  {| l_status := status_value s; l_version := 9; l_event_sequence := 6;
     l_monitor_started_at := None; l_filesystem_reclaimed_at := None;
     l_events := sample_history s |}.

Definition sample_workspace (s : WorkspaceStatus) (owner monitor : option string) : Workspace :=
  {| w_life := sample_life s;
     w_exec := {| x_claimed_by := owner; x_expires_at := Some 100; x_epoch := 4 |};
     w_monitor := {| m_claimed_by := monitor; m_expires_at := Some 100 |};
     w_block := {| b_reason_code := None; b_type := None; b_resume_phase := None;
                   b_violations := []; b_epoch := 0; b_blocked_at := None;
                   b_pending_operator_hint := None |};
     w_node_id := None;
     w_desc := {| d_pr_url := Some "https://forge/pr/7"; d_pr_number := Some 7;
                  d_repo_url := "https://forge/repo"; d_branch_base := "main";
                  d_branch_name := Some "work"; d_monitor_last_commit_sha := Some "abc";
                  d_base_commit := Some "def"; d_hosted_node := None; d_restore_id := None;
                  d_disposition := None |} |}.

Definition sample_attempt (canonical : bool) (s : WorkspaceStatus) (ws : string) : Attempt :=
  {| a_task_id := "t"; a_workspace_id := ws; a_status := status_value s;
     a_is_canonical_for_merge := canonical; a_superseded_by_attempt_id := None |}.

Definition sample_candidate (aid ws : string) : Candidate :=
  {| c_task_id := "t"; c_attempt_id := aid; c_workspace_id := ws; c_pr_url := "https://forge/pr/5";
     c_pr_number := Some 5; c_repo_url := "https://forge/repo"; c_base_branch := "main";
     c_branch_name := Some "work"; c_head_sha := Some "abc"; c_base_sha := None;
     c_status := "open"; c_close_reason := None; c_created_at := 2; c_updated_at := 3;
     c_closed_at := None; c_merged_at := None |}.

(** Workspace "ws" in status [s]; a rival "old" attempt holds the canonical slot. *)
Definition sample_db (s : WorkspaceStatus) (owner monitor : option string) : Db :=
  {| workspaces := {["ws" := sample_workspace s owner monitor]};
     tasks := {["t"]};
     attempts := <["a" := sample_attempt false s "ws"]> {["p" := sample_attempt true s "old"]};
     candidates := {["c" := sample_candidate "p" "old"]};
     reservations := {["r" := {| r_workspace_id := "ws"; r_reserved_at := 1;
                                 r_released_at := None |}]};
     restore_quarantined := false; held_tasks := ∅ |}.

Definition sample_worker (id : string) : Worker :=
  {| worker_id := id; worker_node_id := None; worker_lease := 200 |}.
