(* ===== verification/OperatorReset.v ===== *)
(** * Resets by the operator

    The two controls that move a workspace outside [transition]
    ([service/controls_helpers.py], [service/controls_guide.py]): a failed workspace
    returns to its monitor, and so does one that the monitor blocked.  Both write
    the status on the row, hand the attempt and its merge candidate back, drop
    every claim, and record the change in an event of their own. *)

From S2P Require Import Prelude PyStr Status Store WorkspaceRepo Claims.
#[local] Open Scope Z_scope.

(** The attempt follows, and its candidate reopens at [head_sha] or the head that it
    or the workspace had; [true] when there is one. *)
Definition reopen_candidate (db : Db) (now : Z) (ws : string) (w : Workspace)
    (head_sha : option string) : result DbError (Db * bool) :=
  found <-? get_by_workspace_id db ws ;;
  match found with
  | None => Ok (db, false)
  | Some (aid, a) =>
      let db1 := set_attempts db
                   (<[aid := with_status a (status_value monitoring_pr)]> (attempts db)) in
      existing <-? get_by_attempt_id db1 aid ;;
      match existing with
      | None => Ok (db1, false)
      | Some (cid, c) =>
          let head := or_str (or_str head_sha (c_head_sha c))
                        (d_monitor_last_commit_sha (w_desc w)) in
          db2 <-? create_or_update_open_for_attempt db1 cid now (c_task_id c) (c_attempt_id c) ws w
                    head (d_base_commit (w_desc w)) ;;
          Ok (db2, true)
      end
  end.

(** The row of a failed workspace back under its monitor. *)
Definition monitored_again (l : Lifecycle) : Lifecycle :=
  {| l_status := status_value monitoring_pr; l_version := l_version l;
     l_event_sequence := l_event_sequence l; l_monitor_started_at := l_monitor_started_at l;
     l_filesystem_reclaimed_at := None; l_events := l_events l |}.

(** [_reset_failed_workspace_for_remonitor]: [None] when the workspace has not failed,
    else whether a candidate was reopened. *)
Definition reset_failed_workspace_for_remonitor (db : Db) (now : Z) (ws : string)
    (candidate_head_sha : option string) : result DbError (Db * option bool) :=
  match workspaces db !! ws with
  | None => Err NoResultFound
  | Some w =>
      if negb (eqb (l_status (w_life w)) (status_value failed)) then Ok (db, None)
      else
        let w1 := with_life w (monitored_again (w_life w)) in
        reopened <-? reopen_candidate (put db ws w1) now ws w1 candidate_head_sha ;;
        let '(db1, candidate_reopened) := reopened in
        Ok (update_row db1 ws (fun w => with_life w (advance_workspace_version (w_life w))),
            Some candidate_reopened)
  end.

(** Every claim on the row is dropped; the fencing epoch stays. *)
Definition drop_claims (w : Workspace) : Workspace :=
  with_monitor (with_exec w (unclaimed (w_exec w)))
    {| m_claimed_by := None; m_expires_at := None |}.

(** [add_event_with_states] for a reset that left [old]. *)
Definition record_reset (ws ty : string) (old : WorkspaceStatus) (reason : string) (db : Db) : Db :=
  update_row db ws (fun w =>
    with_life w (add_event_with_states (w_life w) ty (status_value old)
                   (status_value monitoring_pr) (Some reason))).

(** The writes of [_guide_monitor_origin_blocked_workspace] on the row, its attempt
    and its candidate, up to the version it advances. *)
Definition resume_monitor_block (db : Db) (now : Z) (ws : string)
    (candidate_head_sha : option string) : result DbError (Db * bool) :=
  match workspaces db !! ws with
  | None => Err NoResultFound
  | Some w =>
      match assert_transition blocked monitoring_pr with
      | Err e => Err (InvalidWorkspaceTransitionError e)
      | Ok _ =>
          let l := w_life w in
          let w1 := with_life w
                      {| l_status := status_value monitoring_pr; l_version := l_version l;
                         l_event_sequence := l_event_sequence l;
                         l_monitor_started_at := l_monitor_started_at l;
                         l_filesystem_reclaimed_at := l_filesystem_reclaimed_at l;
                         l_events := l_events l |} in
          reopened <-? reopen_candidate (put db ws w1) now ws w1 candidate_head_sha ;;
          let '(db1, candidate_reopened) := reopened in
          Ok (update_row db1 ws (fun w =>
                with_life (drop_claims w) (advance_workspace_version (w_life w))),
              candidate_reopened)
      end
  end.

(** The two changes in full: after a failed run, and after a block that [ws] is in. *)
Definition reset_failed (db : Db) (now : Z) (ws : string) (candidate_head_sha : option string)
    (events : list (string * option string)) (ty reason : string) : result DbError (option Db) :=
  reset <-? reset_failed_workspace_for_remonitor db now ws candidate_head_sha ;;
  match reset with
  | (_, None) => Ok None
  | (db1, Some _) =>
      let db2 := update_row db1 ws (fun w =>
        with_life (drop_claims w) (add_events (w_life w) events)) in
      Ok (Some (record_reset ws ty failed reason db2))
  end.

Definition resolve_monitor_block (db : Db) (now : Z) (ws : string)
    (candidate_head_sha : option string) (ty reason : string) : result DbError (option Db) :=
  match workspaces db !! ws with
  | Some w =>
      if eqb (l_status (w_life w)) (status_value blocked)
      then resumed <-? resume_monitor_block db now ws candidate_head_sha ;;
           Ok (Some (record_reset ws ty blocked reason resumed.1))
      else Ok None
  | None => Ok None
  end.
