(* ===== verification/SchedulerQuery.v ===== *)
(** * Scheduler queries

    [db/repositories/_scheduler.py] as PostgreSQL evaluates it,
    [db/repositories/workspace_repo_scheduler.py], and the cursor of
    [control/worker/scheduling.py].  The candidates of a status are ordered by a score
    that SQL computes from the JSON policy, then sorted again by the score of
    [Scheduler]; a page continues after a cursor whose position SQL recomputes.

    The text [json.dumps] gives a float is a variable, as nothing here depends on it. *)

From S2P Require Import Prelude PyStr PyTime PyFloat Json PyVal Regex Status Store WorkspaceRepo.
From S2P Require Import Claims Scheduler.
#[local] Open Scope Z_scope.
#[local] Set Warnings "-register-all".

(** ** Text functions of SQL *)

Definition is_blank (c : ascii) : bool := eqb c " "%char.

Fixpoint lstrip_by (p : ascii -> bool) (s : string) : string :=
  match s with
  | String c s' => if p c then lstrip_by p s' else s
  | "" => ""
  end.

(** [trim(text)] *)
Definition sql_trim (s : string) : string := rstrip_by is_blank (lstrip_by is_blank s).

(** [nullif(text, '')] *)
Definition nullif_empty (o : option string) : option string :=
  match o with
  | Some s => if eqb s "" then None else Some s
  | None => None
  end.

(** [replace(text, '-', '')] *)
Fixpoint remove_char (c : ascii) (s : string) : string :=
  match s with
  | String d s' => if eqb d c then remove_char c s' else String d (remove_char c s')
  | "" => ""
  end.

(** [coalesce(x, y)] *)
Definition coalesce {A : Type} (x y : option A) : option A :=
  match x with Some a => Some a | None => y end.

Definition POSTGRES_INTEGER_MIN : Z := - 2 ^ 31.
Definition POSTGRES_INTEGER_MAX : Z := 2 ^ 31 - 1.

(** [CASE WHEN value < lower THEN lower WHEN value > upper THEN upper ELSE value END] *)
Definition bounded_scheduler_int_expr (value : option Z) (lower upper : Z) : option Z :=
  match value with
  | None => None
  | Some v => Some (if v <? lower then lower else if upper <? v then upper else v)
  end.

Section Sql.
Context (float_repr : float -> string).

(** The text of a stored JSON value. *)
Fixpoint document_text (v : pyval) : string :=
  match v with
  | VNone => "null"
  | VBool b => if b then "true" else "false"
  | VInt n => py_str n
  | VFloat x => float_repr x
  | VStr s => dumps_str s
  | VList l => "[" +:+ join ", " (map document_text l) +:+ "]"
  | VDict d => "{" +:+ join ", " (map (fun p => dumps_str p.1 +:+ ": " +:+ document_text p.2) d)
               +:+ "}"
  end.

(** [value ->> key]: null is NULL, a string its own text. *)
Definition json_as_string (v : pyval) : option string :=
  match v with
  | VNone => None
  | VStr s => Some s
  | _ => Some (document_text v)
  end.

(** [task_policy -> k1 -> k2 ...]: a missing key, or a value that is no object, is NULL. *)
Definition json_path (policy : pyval) (path : list string) : pyval :=
  fold_left (fun v key => get (as_mapping v) key) path policy.

Definition scheduler_json_string_expr (policy : pyval) (path : list string) : option string :=
  nullif_empty (option_map sql_trim (json_as_string (json_path policy path))).

(** PostgreSQL: integer text of a bounded length, cast and clamped to an integer. *)
Definition scheduler_json_int_expr (policy : pyval) (path : list string) : option Z :=
  match scheduler_json_string_expr policy path with
  | None => None
  | Some text =>
      if fullmatch POLICY_INT_TEXT_RE text
         && (str_len (remove_char "-"%char (before_dot text)) <=? INT_MAX_STR_DIGITS)%nat
      then bounded_scheduler_int_expr (py_int (before_dot text)) POSTGRES_INTEGER_MIN
             POSTGRES_INTEGER_MAX
      else None
  end.

(** [CASE task_class WHEN ... ELSE 0 END] *)
Definition task_class_case (values : list (string * Z)) (task_class : option string) : Z :=
  match List.find (fun p => eqb (Some p.1) task_class) values with
  | Some p => p.2
  | None => 0
  end.

(** The boosts from the largest to 1: the first whose wait has passed. *)
Definition postgresql_age_boost_expr (scoring_at created_at : Z) : Z :=
  let passed boost :=
    created_at <=? scoring_at - boost * AGE_BOOST_INTERVAL_SECONDS * us_per_second in
  default 0 (List.find passed (rev (seqZ 1 AGE_BOOST_MAX))).

Record OrderExpressions : Type := { oe_class_priority : Z; oe_effective_score : Z }.

(** [scheduler_order_expressions] on one row. *)
Definition scheduler_order_expressions (scoring_at : Z) (w : ScoredWorkspace) : OrderExpressions :=
  let policy := sw_task_policy w in
  let base_priority :=
    bounded_scheduler_int_expr
      (coalesce (scheduler_json_int_expr policy [SCHEDULER_POLICY_KEY; "base_priority"])
         (coalesce (scheduler_json_int_expr policy ["priority"]) (Some 0))) 0 100 in
  let human_boost :=
    bounded_scheduler_int_expr
      (coalesce (scheduler_json_int_expr policy [SCHEDULER_POLICY_KEY; "human_boost"])
         (coalesce (scheduler_json_int_expr policy [SCHEDULER_POLICY_KEY; "human_escalation_boost"])
            (coalesce (scheduler_json_int_expr policy ["human_boost"]) (Some 0)))) 0
      HUMAN_BOOST_MAX in
  let parent_failure_reason :=
    coalesce (scheduler_json_string_expr policy [SCHEDULER_POLICY_KEY; "parent_failure_reason"])
      (scheduler_json_string_expr policy ["provider_recovery_state"; "parent_failure_reason"]) in
  {| oe_class_priority := task_class_case TASK_CLASS_PRIORITIES (sw_task_class w);
     oe_effective_score :=
       default 0 base_priority + task_class_case TASK_CLASS_BIASES (sw_task_class w)
       + postgresql_age_boost_expr scoring_at (sw_created_at w)
       + retry_bonus parent_failure_reason + default 0 human_boost |}.

(** ** The candidate query *)

(** A workspace row; [wr_reservation_node] is the node of its latest active
    reservation. *)
Record WorkspaceRow : Type := {
  wr_scored : ScoredWorkspace;
  wr_row : Workspace;
  wr_reservation_node : option string
}.

Definition wr_id (r : WorkspaceRow) : string := sw_id (wr_scored r).
Definition wr_created_at (r : WorkspaceRow) : Z := sw_created_at (wr_scored r).

(** What a caller asks for.  [claim_cutoff] is set for the monitoring status, and
    then the fresh owners are those with a recent heartbeat. *)
Record ScheduleQuery : Type := {
  sq_status : WorkspaceStatus;
  sq_exclude_ids : list string;
  sq_node_id : option string;
  sq_claim_cutoff : option Z;
  sq_execution_claim_owner_id : option string;
  sq_fresh_execution_claim_owner_ids : option (list string)
}.

Definition DEFAULT_LOCAL_SERVICE_WORKER_NODE_ID : string := "local".
Definition LEGACY_LOCAL_RESERVATION_NODE_ID_PREFIXES : list string :=
  ["container-"; "legacy-container-"].

Definition legacy_local_reservation_node (node : option string) : bool :=
  match node with
  | Some n => existsb (fun prefix => starts_with prefix (lower n))
                LEGACY_LOCAL_RESERVATION_NODE_ID_PREFIXES
  | None => false
  end.

Definition scheduler_node_scope (status : WorkspaceStatus) (node_id : string) (r : WorkspaceRow)
  : bool :=
  let own := w_node_id (wr_row r) in
  if negb (eqb status requested) then sql_eq own node_id || eqb own None
  else
    let planned := coalesce own (wr_reservation_node r) in
    sql_eq planned node_id || eqb planned None
    || (eqb node_id DEFAULT_LOCAL_SERVICE_WORKER_NODE_ID && eqb own None
        && legacy_local_reservation_node (wr_reservation_node r)).

(** [expires_at IS NULL OR expires_at <= cutoff] *)
Definition lapsed (expires_at : option Z) (cutoff : Z) : bool :=
  match expires_at with None => true | Some t => t <=? cutoff end.

Definition unavailable_execution_claim (cutoff : Z) (fresh : option (list string))
    (x : ExecutionClaim) : bool :=
  eqb (x_claimed_by x) None || lapsed (x_expires_at x) cutoff
  || match fresh, x_claimed_by x with
     | Some owners, Some owner => negb (mem owner owners)
     | _, _ => false
     end.

Definition monitor_row_available (q : ScheduleQuery) (cutoff : Z) (r : WorkspaceRow) : bool :=
  let w := wr_row r in
  lapsed (m_expires_at (w_monitor w)) cutoff
  && (unavailable_execution_claim cutoff (sq_fresh_execution_claim_owner_ids q) (w_exec w)
      || match sq_execution_claim_owner_id q with
         | Some owner => sql_eq (x_claimed_by (w_exec w)) owner
         | None => false
         end).

(** The WHERE clause without the cursor. *)
Definition schedulable (db : Db) (q : ScheduleQuery) (r : WorkspaceRow) : bool :=
  eqb (l_status (w_life (wr_row r))) (status_value (sq_status q))
  && recovery_allows_work db (wr_id r) (wr_row r)
  && match sq_node_id q with
     | Some n => scheduler_node_scope (sq_status q) n r
     | None => true
     end
  && match sq_claim_cutoff q with
     | Some cutoff => if eqb (sq_status q) monitoring_pr then monitor_row_available q cutoff r
                      else true
     | None => true
     end
  && negb (mem (wr_id r) (sq_exclude_ids q)).

(** [ORDER BY class_priority DESC, effective_score DESC, created_at, id] *)
Definition sql_order_key (scoring_at : Z) (r : WorkspaceRow) : OrderKey :=
  let o := scheduler_order_expressions scoring_at (wr_scored r) in
  (- oe_class_priority o, - oe_effective_score o, wr_created_at r, wr_id r).

Definition sql_leb (scoring_at : Z) (x y : WorkspaceRow) : bool :=
  order_key_leb (sql_order_key scoring_at x) (sql_order_key scoring_at y).

(** Where the cursor stands: the row's own scores while the row exists. *)
Definition cursor_order_expressions (table : list WorkspaceRow) (after : SchedulerOrderCursor)
  : OrderExpressions :=
  match List.find (fun r => eqb (wr_id r) (sc_workspace_id after)) table with
  | Some r => scheduler_order_expressions (instant (sc_scoring_at after)) (wr_scored r)
  | None => {| oe_class_priority := sc_class_priority after;
               oe_effective_score := sc_effective_score after |}
  end.

Definition after_cursor (table : list WorkspaceRow) (scoring_at : Z) (after : SchedulerOrderCursor)
    (r : WorkspaceRow) : bool :=
  let o := scheduler_order_expressions scoring_at (wr_scored r) in
  let c := cursor_order_expressions table after in
  (oe_class_priority o <? oe_class_priority c)
  || ((oe_class_priority o =? oe_class_priority c)
      && (oe_effective_score o <? oe_effective_score c))
  || ((oe_class_priority o =? oe_class_priority c)
      && (oe_effective_score o =? oe_effective_score c)
      && (instant (sc_queued_at after) <? wr_created_at r))
  || ((oe_class_priority o =? oe_class_priority c)
      && (oe_effective_score o =? oe_effective_score c)
      && (wr_created_at r =? instant (sc_queued_at after))
      && str_ltb (sc_workspace_id after) (wr_id r)).

Definition list_schedulable_candidates (db : Db) (table : list WorkspaceRow) (q : ScheduleQuery)
    (limit : nat) (after : option SchedulerOrderCursor) (scoring_at : Z) : list WorkspaceRow :=
  take limit
    (sorted_by (sql_leb scoring_at)
       (List.filter (fun r => schedulable db q r
                              && match after with
                                 | Some cur => after_cursor table scoring_at cur r
                                 | None => true
                                 end) table)).

(** ** The pages *)

Context (fromisoformat : string -> option datetime).

Definition row_score (scoring_at : Z) (r : WorkspaceRow) : SchedulerScore :=
  scheduler_score_from_workspace fromisoformat (wr_scored r) (utc scoring_at).

(** [sort_schedulable_workspaces] has the key of [scheduler_order_key]. *)
Definition row_leb (scoring_at : Z) (x y : WorkspaceRow) : bool :=
  order_key_leb (scheduler_order_key (row_score scoring_at x))
    (scheduler_order_key (row_score scoring_at y)).

Definition sort_schedulable_workspaces (candidates : list WorkspaceRow) (limit : nat)
    (scoring_at : Z) : list WorkspaceRow :=
  take limit (sorted_by (row_leb scoring_at) candidates).

(** [_scheduler_scoring_time]; the value error is [None]. *)
Definition scheduler_scoring_time (after : option SchedulerOrderCursor) (scoring_at : option Z)
    (now : Z) : option Z :=
  match after with
  | None => Some (default now scoring_at)
  | Some cur =>
      match scoring_at with
      | Some t => if eqb t (instant (sc_scoring_at cur)) then Some t else None
      | None => Some (instant (sc_scoring_at cur))
      end
  end.

Definition list_schedulable_workspaces (db : Db) (table : list WorkspaceRow) (q : ScheduleQuery)
    (limit : nat) (after : option SchedulerOrderCursor) (scoring_at : Z) : list WorkspaceRow :=
  if (limit =? 0)%nat then []
  else sort_schedulable_workspaces
         (list_schedulable_candidates db table q limit after scoring_at) limit scoring_at.

(** [_order_scheduler_workspaces] *)
Definition order_scheduler_workspaces (scoring_at : Z) (rows : list WorkspaceRow)
  : list WorkspaceRow := sorted_by (row_leb scoring_at) rows.

Definition scheduler_candidate_fetch_limit (limit : nat) : nat :=
  match limit with
  | O => O
  | _ => Nat.max limit (Nat.min 250 (Nat.min (limit + 16) (limit * 4)))
  end.

(** [_scheduler_candidate_cursor] on a dialect with an age boost. *)
Definition scheduler_candidate_cursor (workspaces : list WorkspaceRow) (scoring_at : Z)
  : option SchedulerOrderCursor :=
  match last workspaces with
  | None => None
  | Some r =>
      let score := row_score scoring_at r in
      Some {| sc_class_priority := ss_class_priority score;
              sc_effective_score := ss_effective_score score;
              sc_queued_at := ss_queued_at score; sc_workspace_id := wr_id r;
              sc_scoring_at := utc scoring_at |}
  end.
End Sql.
