(* ===== verification/SchedulerAgree.v ===== *)
(** * The two scores of a workspace

    The score PostgreSQL computes to order and page the candidates is the score of
    [Scheduler], when the policy holds no floats and no text padded with white space
    other than spaces. *)

From S2P Require Import Prelude PyStr PyTime PyFloat Json PyVal Regex Status Store WorkspaceRepo.
From S2P Require Import Claims Scheduler SchedulerQuery.
#[local] Open Scope Z_scope.

(** ** Integer text *)

Definition is_dot (c : ascii) : bool := eqb "."%char c.
Definition is_minus (c : ascii) : bool := eqb "-"%char c.

(** A sign, digits, and a fraction of zeros. *)
Inductive int_text : string -> string -> string -> Prop :=
| int_text_intro sign c w rest :
    sign = "" \/ sign = "-" -> is_digit c = true -> all_chars is_digit w = true ->
    (rest = "" \/ exists zeros, rest = String "."%char zeros) ->
    int_text sign (String c w) rest.

Lemma policy_text_shape (s : string) :
  fullmatch POLICY_INT_TEXT_RE s = true ->
  exists sign ds rest, int_text sign ds rest /\ s = sign +:+ ds +:+ rest.
Proof.
  rewrite fullmatch_spec. intros (pr & Hm). unfold POLICY_INT_TEXT_RE in Hm.
  inversion Hm as [| |? ? ? u ? H1 H2| | | | |]; subst.
  inversion H2 as [| |? ? ? v ? H3 H4| | | | |]; subst.
  apply matches_runs in H3 as (c & w & Hu & Hc & Hw).
  assert (Hsign : exists sign, (sign = "" \/ sign = "-") /\ s = sign +:+ u.2).
  { inversion H1 as [| | |? ? ? ? H| ? ? ? ? H| | |]; subst.
    - apply matches_char in H as (d & Hd & Hf). rewrite eqb_true in Hf. subst d.
      exists "-". auto.
    - inversion H; subst. exists "". auto. }
  assert (Hrest : v.2 = "" \/ exists zeros, v.2 = String "."%char zeros).
  { inversion H4 as [| | |? ? ? ? H| ? ? ? ? H| | |]; subst.
    - inversion H as [| |? ? ? x ? H5 H6| | | | |]; subst.
      apply matches_char in H5 as (d & Hd & Hf). rewrite eqb_true in Hf. subst d. eauto.
    - inversion H; subst. by left. }
  destruct Hsign as (sign & Hs & ->). exists sign, (String c w), v.2.
  split; [by constructor|]. by rewrite Hu.
Qed.

Lemma digits_no_char (x : ascii) (s : string) :
  is_digit x = false -> all_chars is_digit s = true -> has_char x s = false.
Proof.
  intros Hx. induction s as [|c s IH]; simpl; [done|]. intros [Hc Hs]%andb_true_iff.
  rewrite (IH Hs), orb_false_r. apply Ascii.eqb_neq. intros ->. congruence.
Qed.

Lemma digits_int (c : ascii) (w : string) (acc : Z) (gap : bool) :
  is_digit c = true -> all_chars is_digit w = true ->
  is_Some (int_digits acc gap (String c w)).
Proof.
  intros Hc Hw. simpl. rewrite Hc. generalize (10 * acc + (code c - 48)). clear Hc acc.
  induction w as [|d w IH]; intros acc; simpl in *; [eauto|].
  apply andb_true_iff in Hw as [Hd Hw]. rewrite Hd. by apply IH.
Qed.

Lemma digits_remove (x : ascii) (s : string) :
  is_digit x = false -> all_chars is_digit s = true -> remove_char x s = s.
Proof.
  intros Hx. induction s as [|c s IH]; simpl; [done|]. intros [Hc Hs]%andb_true_iff.
  rewrite (IH Hs). destruct (eqb c x) eqn:E; [|done]. rewrite eqb_true in E. congruence.
Qed.

(** What both sides do with matching text: cut at the dot, count the digits, read. *)
Lemma int_text_before_dot (s sign ds rest : string) :
  int_text sign ds rest -> s = sign +:+ ds +:+ rest -> before_dot s = sign +:+ ds.
Proof.
  intros [sg c w r Hsg Hc Hw Hr] ->.
  assert (Hno : has_char "."%char (sg +:+ String c w) = false).
  { assert (Hd : has_char "."%char (String c w) = false)
      by (apply digits_no_char; [done|simpl; by rewrite Hc]).
    destruct Hsg as [-> | ->]; [exact Hd|exact Hd]. }
  unfold before_dot. rewrite <- str_app_assoc.
  destruct Hr as [-> |(zeros & ->)].
  - by rewrite str_app_nil_r, split_on_word.
  - by rewrite split_on_app.
Qed.

Lemma int_text_reads (sign ds rest : string) :
  int_text sign ds rest ->
  is_Some (py_int (sign +:+ ds)) /\
  str_len (remove_char "-"%char (sign +:+ ds)) = str_len ds /\
  str_len (remove_prefix "-" (sign +:+ ds)) = str_len ds.
Proof.
  intros [sg c w r Hsg Hc Hw _].
  assert (Hcw : all_chars is_digit (String c w) = true) by (simpl; by rewrite Hc).
  assert (Hsp : strip (sg +:+ String c w) = sg +:+ String c w).
  { apply strip_id. rewrite all_chars_app.
    rewrite (all_chars_impl is_digit _ _ is_digit_not_space Hcw), andb_true_r.
    destruct Hsg as [-> | ->]; reflexivity. }
  assert (Hm : (code c =? 45) = false /\ (code c =? 43) = false).
  { unfold is_digit in Hc. apply andb_true_iff in Hc as [H1 H2]. apply Z.leb_le in H1, H2.
    split; apply Z.eqb_neq; lia. }
  assert (Hne : eqb c "-"%char = false).
  { apply eqb_false. intros ->. discriminate Hc. }
  unfold py_int. rewrite Hsp. destruct Hm as [Hm1 Hm2].
  destruct Hsg as [-> | ->].
  - split_and!.
    + cbn [String.append]. rewrite Hm1, Hm2. by apply digits_int.
    + by rewrite digits_remove.
    + assert (Hd : Ascii.eqb "-" c = false) by (apply Ascii.eqb_neq; intros <-; discriminate Hc).
      unfold remove_prefix. cbn [String.append starts_with]. by rewrite Hd.
  - split_and!.
    + destruct (digits_int c w 0 true Hc Hw) as (n & Hn). exists (- n). cbn [String.append].
      change (code "-" =? 45) with true. cbn iota. by rewrite Hn.
    + change (remove_char "-"%char ("-" +:+ String c w)) with (remove_char "-"%char (String c w)).
      by rewrite digits_remove.
    + done.
Qed.

(** ** Values of the policy *)

(** The integer a value denotes to [policy_int]. *)
Definition value_int (v : pyval) : option Z :=
  match v with
  | VInt n => Some n
  | VFloat x => float_int x
  | VStr value =>
      if fullmatch POLICY_INT_TEXT_RE (strip value)
      then int_of_digits (before_dot (strip value)) else None
  | _ => None
  end.

Lemma policy_int_value (m : dict) (key : string) (fallback : Z) :
  policy_int m key fallback = default fallback (value_int (get m key)).
Proof. unfold policy_int, value_int. by destruct (get m key); try destruct (fullmatch _ _). Qed.

Definition value_str (v : pyval) : option string :=
  match v with
  | VStr value => if eqb (strip value) "" then None else Some (strip value)
  | _ => None
  end.

Lemma policy_str_value (m : dict) (key : string) (fallback : option string) :
  policy_str m key fallback = coalesce (value_str (get m key)) fallback.
Proof. unfold policy_str, value_str. destruct (get m key); try done. by destruct (eqb _ _). Qed.

(** A value both sides read alike: no float, no exotic white space around text, no
    integer longer than the interpreter reads. *)
Definition plain_int (v : pyval) : bool :=
  match v with
  | VFloat _ => false
  | VInt n => (str_len (remove_prefix "-" (py_str n)) <=? INT_MAX_STR_DIGITS)%nat
  | VStr s => eqb (strip s) (sql_trim s)
  | _ => true
  end.

Definition plain_text (v : pyval) : bool :=
  match v with
  | VNone => true
  | VStr s => eqb (strip s) (sql_trim s)
  | _ => false
  end.

Definition clamp32 (n : Z) : Z := bounded_int n POSTGRES_INTEGER_MIN POSTGRES_INTEGER_MAX.

Lemma bounded_expr (o : option Z) (lower upper : Z) :
  lower <= upper ->
  bounded_scheduler_int_expr o lower upper = option_map (fun v => bounded_int v lower upper) o.
Proof.
  intros H. destruct o as [v|]; [|done]. simpl. f_equal. unfold bounded_int.
  destruct (v <? lower) eqn:E1; [lia|]. destruct (upper <? v) eqn:E2; lia.
Qed.

Lemma sql_trim_id (s : string) :
  all_chars (fun c => negb (is_blank c)) s = true -> sql_trim s = s.
Proof.
  intros H. unfold sql_trim.
  assert (Hl : lstrip_by is_blank s = s).
  { destruct s as [|c s]; [done|]. simpl in *. apply andb_true_iff in H as [Hc _].
    apply negb_true_iff in Hc. by rewrite Hc. }
  rewrite Hl. by apply rstrip_by_id.
Qed.

Lemma digit_not_blank (c : ascii) : is_digit c = true -> negb (is_blank c) = true.
Proof.
  intros Hc. unfold is_blank. destruct (eqb c " "%char) eqn:E; [|done].
  rewrite eqb_true in E. by subst c.
Qed.

(** [str(n)] is integer text without a fraction. *)
Lemma py_str_text (n : Z) : exists sign ds, int_text sign ds "" /\ py_str n = sign +:+ ds.
Proof.
  assert (Hp : forall p : positive, exists c w, pretty p = String c w /\
    is_digit c = true /\ all_chars is_digit w = true).
  { intros p. destruct (pretty_pos_int p) as (_ & Hd & Hne).
    destruct (pretty p) as [|c w]; [done|]. simpl in Hd. apply andb_true_iff in Hd as [Hc Hw].
    by exists c, w. }
  unfold py_str. destruct n as [|p|p].
  - exists "", "0". split; [|done]. constructor; auto.
  - destruct (Hp p) as (c & w & E & Hc & Hw). exists "", (String c w).
    split; [constructor; auto|exact E].
  - destruct (Hp p) as (c & w & E & Hc & Hw). exists "-", (String c w).
    split; [constructor; auto|]. change (pretty (Z.neg p)) with (String "-" (pretty p)).
    by rewrite E.
Qed.

Lemma int_text_matches (sign ds : string) :
  int_text sign ds "" -> fullmatch POLICY_INT_TEXT_RE (sign +:+ ds) = true.
Proof.
  intros H. inversion H as [sg c w r Hsg Hc Hw Hr]; subst. apply fullmatch_spec.
  assert (Hd : forall pr, exists pr', matches (RSeq (rplus (RChar is_digit))
    (ropt (RSeq (RChar (eqb "."%char)) (rplus (RChar (eqb "0"%char)))))) (pr, String c w) (pr', "")).
  { intros pr. destruct (runs_match is_digit c w "" pr Hc Hw) as (pr' & Hm).
    rewrite str_app_nil_r in Hm. exists pr'. eapply m_seq; [exact Hm|].
    apply m_alt_r, m_eps. }
  destruct Hsg as [-> | ->].
  - destruct (Hd None) as (pr & Hm). exists pr. eapply m_seq; [apply m_alt_r, m_eps|exact Hm].
  - destruct (Hd (Some "-"%char)) as (pr & Hm). exists pr.
    eapply m_seq; [apply m_alt_l; by constructor|exact Hm].
Qed.

(** Text that starts with a bracket is no integer, whatever is trimmed. *)
Lemma bracket_no_int (c : ascii) (s : string) :
  is_blank c = false -> is_digit c = false -> is_minus c = false ->
  exists t, sql_trim (String c s) = String c t /\ fullmatch POLICY_INT_TEXT_RE (String c t) = false.
Proof.
  intros Hb Hd Hm. assert (He : exists t, sql_trim (String c s) = String c t).
  { unfold sql_trim. simpl. rewrite Hb. simpl. rewrite Hb.
    destruct (rstrip_by is_blank s); eauto. }
  destruct He as (t & Ht). exists t. split; [done|]. apply not_true_iff_false. intros H.
  apply policy_text_shape in H as (sg & ds & r & [sign d w rest Hsg Hd' _ _] & E).
  destruct Hsg as [-> | ->]; simpl in E; injection E as -> _; [congruence|].
  discriminate Hm.
Qed.

Section Agree.
Context (float_repr : float -> string) (fromisoformat : string -> option datetime).

Lemma string_expr_text (policy : pyval) (path : list string) (s : string) :
  json_as_string float_repr (json_path policy path) = Some s -> sql_trim s <> "" ->
  scheduler_json_string_expr float_repr policy path = Some (sql_trim s).
Proof.
  intros E Hne. unfold scheduler_json_string_expr. rewrite E. simpl.
  by rewrite (proj2 (eqb_false _ _) Hne).
Qed.

(** Integer text, read by SQL. *)
Lemma int_expr_text (policy : pyval) (path : list string) (s sign ds rest : string) :
  json_as_string float_repr (json_path policy path) = Some s -> int_text sign ds rest ->
  sql_trim s = sign +:+ ds +:+ rest -> fullmatch POLICY_INT_TEXT_RE (sql_trim s) = true ->
  scheduler_json_int_expr float_repr policy path =
  option_map clamp32 (int_of_digits (before_dot (sql_trim s))).
Proof.
  intros E Hit Ht Hf. unfold scheduler_json_int_expr.
  rewrite (string_expr_text _ _ s E) by (intros H; rewrite H in Hf; vm_compute in Hf; done).
  rewrite Hf. cbn [andb]. rewrite (int_text_before_dot _ _ _ _ Hit Ht).
  destruct (int_text_reads _ _ _ Hit) as ((n & Hn) & Hr & Hp).
  unfold int_of_digits. rewrite Hr, Hp.
  destruct (INT_MAX_STR_DIGITS <? str_len ds)%nat eqn:El.
  - apply Nat.ltb_lt in El. by rewrite (proj2 (Nat.leb_gt _ _)) by lia.
  - apply Nat.ltb_ge in El. rewrite (proj2 (Nat.leb_le _ _)) by lia.
    by rewrite bounded_expr by (vm_compute; done).
Qed.

Lemma int_expr_none (policy : pyval) (path : list string) (s : string) :
  json_as_string float_repr (json_path policy path) = Some s ->
  fullmatch POLICY_INT_TEXT_RE (sql_trim s) = false ->
  scheduler_json_int_expr float_repr policy path = None.
Proof.
  intros E Hf. unfold scheduler_json_int_expr, scheduler_json_string_expr. rewrite E. simpl.
  destruct (eqb (sql_trim s) ""); [done|]. by rewrite Hf.
Qed.

Lemma int_expr_plain (policy : pyval) (path : list string) :
  plain_int (json_path policy path) = true ->
  scheduler_json_int_expr float_repr policy path =
  option_map clamp32 (value_int (json_path policy path)).
Proof.
  intros Hp. destruct (json_path policy path) as [|b|n|x|s|l|d] eqn:E; simpl in Hp; try done.
  - unfold scheduler_json_int_expr, scheduler_json_string_expr. by rewrite E.
  - apply (int_expr_none _ _ (if b then "true" else "false")); [by rewrite E|by destruct b].
  - destruct (py_str_text n) as (sign & ds & Hit & Hs).
    assert (Ht : sql_trim (py_str n) = py_str n).
    { apply sql_trim_id. rewrite Hs. inversion Hit as [sg c w r Hsg Hc Hw _]; subst.
      rewrite all_chars_app. simpl. rewrite (digit_not_blank c Hc). simpl.
      rewrite (all_chars_impl is_digit _ _ digit_not_blank Hw), andb_true_r.
      destruct Hsg as [-> | ->]; reflexivity. }
    rewrite (int_expr_text _ _ (py_str n) sign ds "").
    + rewrite Ht, (int_text_before_dot _ _ _ _ Hit) by (by rewrite str_app_nil_r).
      rewrite <- Hs. unfold int_of_digits. rewrite py_int_str.
      apply Nat.leb_le in Hp. by rewrite (proj2 (Nat.ltb_ge _ _)) by lia.
    + by rewrite E.
    + done.
    + by rewrite Ht, str_app_nil_r.
    + rewrite Ht, Hs. by apply int_text_matches.
  - rewrite eqb_true in Hp. cbn [value_int]. rewrite Hp.
    destruct (fullmatch POLICY_INT_TEXT_RE (sql_trim s)) eqn:Hf.
    + destruct (policy_text_shape _ Hf) as (sign & ds & rest & Hit & Hs).
      apply (int_expr_text _ _ s sign ds rest); [by rewrite E|done..].
    + apply (int_expr_none _ _ s); [by rewrite E|done].
  - destruct (bracket_no_int "["%char (join ", " (map (document_text float_repr) l) +:+ "]"))
      as (t & Ht & Hf); [done..|].
    apply (int_expr_none _ _ (document_text float_repr (VList l))); [by rewrite E|].
    cbn [document_text]. change ("[" +:+ ?x) with (String "["%char x). by rewrite Ht.
  - destruct (bracket_no_int "{"%char
      (join ", " (map (fun p => dumps_str p.1 +:+ ": " +:+ document_text float_repr p.2) d) +:+ "}"))
      as (t & Ht & Hf); [done..|].
    apply (int_expr_none _ _ (document_text float_repr (VDict d))); [by rewrite E|].
    cbn [document_text]. change ("{" +:+ ?x) with (String "{"%char x). by rewrite Ht.
Qed.

Lemma string_expr_plain (policy : pyval) (path : list string) :
  plain_text (json_path policy path) = true ->
  scheduler_json_string_expr float_repr policy path = value_str (json_path policy path).
Proof.
  unfold scheduler_json_string_expr. destruct (json_path policy path) as [|b|n|x|s|l|d]; try done.
  simpl. rewrite eqb_true. by intros ->.
Qed.

Lemma class_case_value (values : list (string * Z)) (task_class : option string) :
  (forall p, p ∈ values -> p.1 <> "") ->
  task_class_case values task_class = class_value values task_class.
Proof.
  intros H. unfold task_class_case, class_value.
  induction values as [|p l IH]; simpl; [done|].
  assert (E : eqb (Some p.1) task_class = eqb p.1 (default "" task_class)).
  { destruct task_class as [s|]; simpl.
    - destruct (eqb p.1 s) eqn:E.
      + rewrite eqb_true in E. subst s. apply eqb_refl.
      + apply eqb_false. apply eqb_false in E. congruence.
    - rewrite (proj2 (eqb_false p.1 "") (H p (list_elem_of_here _ _))). by apply eqb_false. }
  rewrite E. destruct (eqb p.1 _); [done|]. apply IH. intros q Hq. apply H. by right.
Qed.

(** The step function of SQL is the capped quotient of Python. *)
Lemma age_boost_agrees (scoring_at created_at : Z) :
  postgresql_age_boost_expr scoring_at created_at =
  age_boost (as_utc (utc created_at)) (as_utc (utc scoring_at)).
Proof.
  unfold postgresql_age_boost_expr, age_boost, AGE_BOOST_INTERVAL_SECONDS, AGE_BOOST_MAX,
    us_per_second, instant, as_utc, utc, astimezone_utc. cbn [dt_us dt_offset default].
  set (d := scoring_at - 0 - 0 - (created_at - 0 - 0)).
  assert (Hq : Z.min (Z.max 0 (Z.quot d 1000000) / (15 * 60)) 12 =
               Z.max 0 (Z.min (d / 900000000) 12)).
  { destruct (Z.le_gt_cases 0 d) as [Hd|Hd].
    - rewrite Z.quot_div_nonneg by lia. rewrite Z.max_r by (apply Z.div_pos; lia).
      rewrite Z.div_div by lia. change (1000000 * (15 * 60)) with 900000000.
      assert (0 <= d / 900000000) by (apply Z.div_pos; lia). lia.
    - assert (Z.quot d 1000000 <= 0) by (apply (Z.quot_le_mono d 0 1000000); lia).
      rewrite Z.max_l by lia. assert (d / 900000000 < 0) by (apply Z.div_lt_upper_bound; lia).
      change (0 / (15 * 60)) with 0. lia. }
  simpl in Hq. change (15 * 60) with 900 in *. etrans; [|symmetry; exact Hq].
  change (rev (seqZ 1 12)) with [12; 11; 10; 9; 8; 7; 6; 5; 4; 3; 2; 1].
  pose proof (Z.div_mod d 900000000 ltac:(lia)). pose proof (Z.mod_pos_bound d 900000000 ltac:(lia)).
  cbn [List.find]. cbv beta zeta.
  repeat (match goal with |- context [?a <=? ?b] => destruct (Z.leb_spec a b) end;
    [cbn [from_option id]; lia|]).
  cbn [from_option id]. lia.
Qed.

Definition POLICY_INT_PATHS : list (list string) :=
  [[SCHEDULER_POLICY_KEY; "base_priority"]; ["priority"]; [SCHEDULER_POLICY_KEY; "human_boost"];
   [SCHEDULER_POLICY_KEY; "human_escalation_boost"]; ["human_boost"]].
Definition POLICY_TEXT_PATHS : list (list string) :=
  [[SCHEDULER_POLICY_KEY; "parent_failure_reason"];
   ["provider_recovery_state"; "parent_failure_reason"]].

Definition plain_policy (policy : pyval) : bool :=
  forallb (fun path => plain_int (json_path policy path)) POLICY_INT_PATHS
  && forallb (fun path => plain_text (json_path policy path)) POLICY_TEXT_PATHS.

(** Clamping to 32 bits first does not show once the value is bounded. *)
Lemma bounded_clamped (a : option Z) (x : option Z) (lower upper : Z) :
  POSTGRES_INTEGER_MIN <= lower <= upper -> upper <= POSTGRES_INTEGER_MAX ->
  bounded_scheduler_int_expr (coalesce (option_map clamp32 a) x) lower upper =
  coalesce (option_map (fun v => bounded_int v lower upper) a)
    (bounded_scheduler_int_expr x lower upper).
Proof.
  intros H1 H2. rewrite !bounded_expr by lia. destruct a as [n|]; [|done]. simpl.
  f_equal. unfold clamp32, bounded_int. lia.
Qed.

Lemma sql_scores (scoring_at : Z) (w : ScoredWorkspace) :
  plain_policy (sw_task_policy w) = true ->
  let score := scheduler_score_from_workspace fromisoformat w (utc scoring_at) in
  scheduler_order_expressions float_repr scoring_at w =
  {| oe_class_priority := ss_class_priority score;
     oe_effective_score := ss_effective_score score |}.
Proof.
  unfold plain_policy. cbn [forallb POLICY_INT_PATHS POLICY_TEXT_PATHS]. intros Hp.
  bool_simpl. unfold scheduler_order_expressions.
  rewrite !int_expr_plain, !string_expr_plain by done.
  rewrite !class_case_value by
    (intros q Hq; apply list_elem_of_In in Hq; simpl in Hq;
     repeat (destruct Hq as [<-|Hq]; [done|]); done).
  rewrite age_boost_agrees.
  cbn [scheduler_score_from_workspace compute_scheduler_score scheduler_score_input_from_workspace
       ss_class_priority ss_effective_score si_task_class si_base_priority si_queued_at
       si_parent_failure_reason si_human_boost].
  rewrite !policy_int_value, !policy_str_value.
  assert (Hb : POSTGRES_INTEGER_MIN <= 0 /\ 100 <= POSTGRES_INTEGER_MAX) by (vm_compute; done).
  unfold HUMAN_BOOST_MAX in *. rewrite !bounded_clamped by lia.
  cbn [json_path fold_left].
  set (base := value_int (get (as_mapping (get _ SCHEDULER_POLICY_KEY)) "base_priority")).
  set (prio := value_int (get _ "priority")).
  set (h1 := value_int (get (as_mapping (get _ SCHEDULER_POLICY_KEY)) "human_boost")).
  set (h2 := value_int (get _ "human_escalation_boost")).
  set (h3 := value_int (get (as_mapping (sw_task_policy w)) "human_boost")).
  f_equal. f_equal; [f_equal|].
  - f_equal. f_equal. by destruct base, prio.
  - f_equal. by destruct (value_str _), (value_str _).
  - by destruct h1, h2, h3.
Qed.
End Agree.

(** ** Properties *)

(** C7: SQL and the worker score alike: for a policy whose numbers are integers or
    integer text and whose texts are padded with nothing but spaces, the class
    priority and effective score PostgreSQL computes from the JSON document, with
    its own integer syntax, 32-bit clamp, digit limit, step function for the age and
    coalescing order, are those of the Python score at the same instant. *)
Theorem sql_score_agrees (float_repr : float -> string) (fromisoformat : string -> option datetime)
    (scoring_at : Z) (w : ScoredWorkspace) :
  plain_policy (sw_task_policy w) = true ->
  let score := scheduler_score_from_workspace fromisoformat w (utc scoring_at) in
  oe_class_priority (scheduler_order_expressions float_repr scoring_at w) = ss_class_priority score /\
  oe_effective_score (scheduler_order_expressions float_repr scoring_at w) = ss_effective_score score.
Proof. intros H. cbv zeta. by rewrite (sql_scores float_repr fromisoformat scoring_at w H). Qed.

(** A policy with text, a clamped number and an alternative key. *)
Definition sample_policy : pyval :=
  VDict [(SCHEDULER_POLICY_KEY, VDict [("base_priority", VStr " 40.00 ");
            ("human_escalation_boost", VInt 99999999999); ("parent_failure_reason", VStr "  ")]);
         ("provider_recovery_state", VDict [("parent_failure_reason",
            VStr "infrastructure_failure")])].

Definition sample_scored (id : string) (policy : pyval) (created_at : Z) : ScoredWorkspace :=
  {| sw_id := id; sw_agent := "codex"; sw_task_class := Some "build_config_task";
     sw_task_policy := policy; sw_created_at := created_at |}.

Lemma sql_score_agrees_witness :
  oe_effective_score (scheduler_order_expressions (fun _ => "") 4000000000
                        (sample_scored "ws" sample_policy 0)) = 40 + 10 + 4 + 3 + 5 /\
  ss_effective_score (scheduler_score_from_workspace (fun _ => None)
                        (sample_scored "ws" sample_policy 0) (utc 4000000000)) = 62.
Proof.
  destruct (sql_score_agrees (fun _ => "") (fun _ => None) 4000000000
    (sample_scored "ws" sample_policy 0)) as [_ H]; [by vm_compute|].
  split; [by rewrite H; vm_compute|by vm_compute].
Defined.

Lemma class_value_in (values : list (string * Z)) (task_class : option string) (lower upper : Z) :
  lower <= 0 <= upper -> forallb (fun p => (lower <=? p.2) && (p.2 <=? upper)) values = true ->
  lower <= class_value values task_class <= upper.
Proof.
  intros H0 Hv. unfold class_value. destruct (List.find _ values) as [p|] eqn:E; [|done].
  apply List.find_some in E as [Hp _]. apply list_elem_of_In in Hp.
  pose proof (proj1 (forallb_elem _ _) Hv p Hp) as H. cbv beta in H. lia.
Qed.

Lemma age_boost_steps (created_at now : Z) :
  let age := age_boost (as_utc (utc created_at)) (as_utc (utc now)) in
  0 <= age <= AGE_BOOST_MAX /\
  forall k, 0 < k <= AGE_BOOST_MAX ->
    (k <= age <-> created_at + k * (AGE_BOOST_INTERVAL_SECONDS * us_per_second) <= now).
Proof.
  cbv zeta. rewrite <- age_boost_agrees.
  unfold postgresql_age_boost_expr, AGE_BOOST_MAX, AGE_BOOST_INTERVAL_SECONDS, us_per_second.
  change (rev (seqZ 1 12)) with [12; 11; 10; 9; 8; 7; 6; 5; 4; 3; 2; 1]. cbn [List.find].
  repeat (match goal with |- context [?a <=? ?b] => destruct (Z.leb_spec a b) end;
    [cbn [from_option id]; split; [lia|]; intros k Hk; split; intros; lia|]).
  cbn [from_option id]; split; [lia|]; intros k Hk; split; intros; lia.
Qed.

(** C8: The score stays in its bounds and waiting never hurts.  The effective score is the
    sum of a base of 0 to 100, the class bias, an age boost of 0 to 12, a retry bonus of
    0 or 3 and a human boost of 0 to 5, so it is at most 135, whatever integers the policy
    holds; the age boost has reached [k] exactly when [k] quarters of an hour have
    passed; and a later instant, or an earlier creation, never lowers the score. *)
Theorem score_bounds (fromisoformat : string -> option datetime) (w : ScoredWorkspace)
    (now later : Z) :
  now <= later ->
  let score := scheduler_score_from_workspace fromisoformat w (utc now) in
  let score' := scheduler_score_from_workspace fromisoformat w (utc later) in
  ss_effective_score score = ss_base_priority score + ss_class_bias score + ss_age_boost score
                             + ss_retry_bonus score + ss_human_boost score /\
  0 <= ss_class_priority score <= 5 /\ 0 <= ss_base_priority score <= 100 /\
  0 <= ss_class_bias score <= 15 /\ 0 <= ss_human_boost score <= HUMAN_BOOST_MAX /\
  ss_retry_bonus score ∈ [0; RETRY_BONUS_INFRASTRUCTURE_FAILURE] /\
  0 <= ss_age_boost score <= AGE_BOOST_MAX /\ 0 <= ss_effective_score score <= 135 /\
  (forall k, 0 < k <= AGE_BOOST_MAX ->
     (k <= ss_age_boost score <->
      sw_created_at w + k * (AGE_BOOST_INTERVAL_SECONDS * us_per_second) <= now)) /\
  ss_class_priority score' = ss_class_priority score /\
  ss_effective_score score <= ss_effective_score score' <= ss_effective_score score + AGE_BOOST_MAX.
Proof.
  intros Hle. cbv zeta.
  destruct (age_boost_steps (sw_created_at w) now) as [Hb Hk].
  destruct (age_boost_steps (sw_created_at w) later) as [Hb' Hk'].
  assert (Hmono : age_boost (as_utc (utc (sw_created_at w))) (as_utc (utc now)) <=
                  age_boost (as_utc (utc (sw_created_at w))) (as_utc (utc later))).
  { set (a := age_boost _ (as_utc (utc now))) in *. destruct (Z.eq_dec a 0); [lia|].
    apply Hk'; [lia|]. pose proof (proj1 (Hk a ltac:(lia)) ltac:(lia)). lia. }
  pose proof (class_value_in TASK_CLASS_PRIORITIES (sw_task_class w) 0 5 ltac:(lia) eq_refl) as Hp.
  pose proof (class_value_in TASK_CLASS_BIASES (sw_task_class w) 0 15 ltac:(lia) eq_refl) as Hs.
  cbn [scheduler_score_from_workspace compute_scheduler_score scheduler_score_input_from_workspace
       ss_class_priority ss_effective_score ss_base_priority ss_class_bias ss_age_boost
       ss_retry_bonus ss_human_boost si_task_class si_base_priority si_queued_at si_human_boost
       si_parent_failure_reason].
  assert (Hr : forall reason, retry_bonus reason ∈ [0; RETRY_BONUS_INFRASTRUCTURE_FAILURE] /\
                              0 <= retry_bonus reason <= 3).
  { intros reason. unfold retry_bonus. case_goal; (split; [apply mem_true; done|by vm_compute]). }
  match goal with |- context [retry_bonus ?r] => destruct (Hr r) as [Hr1 Hr2] end.
  unfold task_class_priority, task_class_bias, bounded_int, HUMAN_BOOST_MAX, AGE_BOOST_MAX in *.
  split_and!; try done; lia.
Qed.

Lemma score_bounds_witness :
  ss_age_boost (scheduler_score_from_workspace (fun _ => None) (sample_scored "ws" VNone 0)
                  (utc 1800000000)) = 2 /\
  0 <= ss_effective_score (scheduler_score_from_workspace (fun _ => None)
                             (sample_scored "ws" VNone 0) (utc 1800000000)) <= 135.
Proof.
  destruct (score_bounds (fun _ => None) (sample_scored "ws" VNone 0) 1800000000 9000000000)
    as (_ & _ & _ & _ & _ & _ & _ & H & _); [lia|]. split; [by vm_compute|exact H].
Defined.
