(* ===== verification/Lifecycle.v ===== *)
(** * Invariants of the workspace lifecycle

    The steps the control plane can take on its tables as a relation, those of an
    operator's reset apart; what every step preserves (histories that follow the state
    machine and the resets, event orders that never repeat, counters that never go
    back), and what the claims promise: a compare-and-set has one winner, a fenced
    worker stays fenced, and the two database dialects implement the same transition. *)

From S2P Require Import Prelude PyStr Status Store WorkspaceRepo Claims OperatorReset.
#[local] Open Scope Z_scope.

(** ** Well-formed histories *)

(** The events that record a change of the status. *)
Definition history (l : Lifecycle) : list Event :=
  List.filter (fun e => negb (eqb (e_old_state e) (e_new_state e))) (l_events l).

(** An edge of the machine, or the reset of a failed workspace. *)
Definition may_move (a b : WorkspaceStatus) : bool :=
  can_transition a b || (eqb a failed && eqb b monitoring_pr).

(** The recorded changes lead from [s] to [final] along such moves. *)
Fixpoint chained (s : string) (evs : list Event) (final : string) : Prop :=
  match evs with
  | [] => s = final
  | e :: rest =>
      e_old_state e = s /\
      (exists a b, e_old_state e = status_value a /\ e_new_state e = status_value b /\
                   may_move a b = true) /\
      chained (e_new_state e) rest final
  end.

Definition orders (l : Lifecycle) : list Z := map e_order (l_events l).

(** The history starts at [requested] and ends at the current status; event
    orders increase and stay within the reserved sequence. *)
Record wf_life (l : Lifecycle) : Prop := {
  wf_status : exists s, l_status l = status_value s;
  wf_history : chained (status_value requested) (history l) (l_status l);
  wf_sorted : StronglySorted Z.lt (orders l);
  wf_bound : Forall (fun o => o <= l_event_sequence l) (orders l)
}.

Definition wf_db (db : Db) : Prop :=
  forall ws w, workspaces db !! ws = Some w -> wf_life (w_life w).

(** Counters never go back and events are only appended. *)
Record life_le (l l' : Lifecycle) : Prop := {
  le_version : l_version l <= l_version l';
  le_sequence : l_event_sequence l <= l_event_sequence l';
  le_events : exists k, l_events l' = l_events l ++ k
}.

Record row_le (w w' : Workspace) : Prop := {
  le_life : life_le (w_life w) (w_life w');
  le_epoch : x_epoch (w_exec w) <= x_epoch (w_exec w')
}.

#[export] Instance life_le_preorder : PreOrder life_le.
Proof.
  split.
  - intros l. split; [lia|lia|]. exists []. by rewrite app_nil_r.
  - intros a b c [? ? [k Hk]] [? ? [k' Hk']]. split; [lia|lia|].
    exists (k ++ k'). by rewrite Hk', Hk, app_assoc.
Qed.

#[export] Instance row_le_preorder : PreOrder row_le.
Proof.
  split; [intros w; split; [done|lia]|].
  intros a b c [? ?] [? ?]. split; [by etrans|lia].
Qed.

Lemma chained_snoc (s final : string) (evs : list Event) (e : Event) (a b : WorkspaceStatus) :
  chained s evs final -> e_old_state e = final -> e_old_state e = status_value a ->
  e_new_state e = status_value b -> may_move a b = true ->
  chained s (evs ++ [e]) (e_new_state e).
Proof.
  revert s. induction evs as [|x evs IH]; intros s; simpl.
  - intros -> He Ha Hb Hab. split; [done|]. split; [|done]. eauto.
  - intros (Hx & Hl & Hc) He Ha Hb Hab. split; [done|]. split; [done|]. eauto.
Qed.

Lemma may_move_ne (a b : WorkspaceStatus) :
  may_move a b = true -> status_value a <> status_value b.
Proof.
  by_edge (fun a b => implb (may_move a b) (negb (eqb (status_value a) (status_value b)))) a b H.
  intros Hm. rewrite Hm in H. simpl in H. apply negb_true_iff in H. by apply eqb_false in H.
Qed.

Lemma sorted_snoc (l : list Z) (x bound : Z) :
  StronglySorted Z.lt l -> Forall (fun o => o <= bound) l -> bound < x ->
  StronglySorted Z.lt (l ++ [x]).
Proof.
  intros Hs Hb Hx. induction Hs as [|y l Hl IH Hy]; simpl; [by repeat constructor|].
  apply Forall_cons in Hb as [Hyb Hb]. constructor; [by apply IH|].
  apply Forall_app. split; [done|]. constructor; [lia|constructor].
Qed.

(** ** Appending events *)

(** The recorded changes lead to [s], which is the status except inside a reset. *)
Record trail (s : string) (l : Lifecycle) : Prop := {
  tr_history : chained (status_value requested) (history l) s;
  tr_sorted : StronglySorted Z.lt (orders l);
  tr_bound : Forall (fun o => o <= l_event_sequence l) (orders l)
}.

Lemma wf_trail (l : Lifecycle) :
  wf_life l <-> (exists s, l_status l = status_value s) /\ trail (l_status l) l.
Proof. split; [intros [? ? ? ?]; by repeat split|by intros [? [? ? ?]]]. Qed.

(** Only the events and their counter matter. *)
Lemma trail_same (s : string) (l l' : Lifecycle) :
  l_events l' = l_events l -> l_event_sequence l' = l_event_sequence l -> trail s l -> trail s l'.
Proof. intros He Hq [Hh Hs Hb]. split; unfold history, orders in *; by rewrite He, ?Hq. Qed.

Lemma trail_append (s s' : string) (l l' : Lifecycle) (e : Event) :
  trail s l -> l_events l' = l_events l ++ [e] -> l_event_sequence l' = e_order e ->
  l_event_sequence l < e_order e ->
  ((exists a b, s = status_value a /\ e_old_state e = status_value a /\
     e_new_state e = status_value b /\ may_move a b = true /\ s' = status_value b) \/
   e_old_state e = e_new_state e /\ s' = s) ->
  trail s' l'.
Proof.
  intros [Hh Hs Hb] Hev Hseq Hlt Hcase.
  assert (Ho : orders l' = orders l ++ [e_order e]) by (unfold orders; by rewrite Hev, map_app).
  assert (Hh' : history l' =
      history l ++ (if eqb (e_old_state e) (e_new_state e) then [] else [e]))
    by (unfold history; rewrite Hev, List.filter_app; simpl; by destruct (eqb _ _)).
  split.
  - rewrite Hh'. destruct Hcase as [(a & b & -> & Hold & Hn & Hab & ->)|(Ht & ->)].
    + rewrite Hold, Hn, (proj2 (eqb_false _ _) (may_move_ne a b Hab)), <- Hn.
      eapply chained_snoc; eauto.
    + rewrite (proj2 (eqb_true _ _) Ht). by rewrite app_nil_r.
  - rewrite Ho. by eapply sorted_snoc.
  - rewrite Ho, Hseq. apply Forall_app. split; [|constructor; [lia|constructor]].
    eapply Forall_impl; [exact Hb|]. simpl. intros. lia.
Qed.

(** One event: a change, or a note that records none. *)
Lemma trail_event (s s' : string) (l : Lifecycle) (ty old new : string) (reason : option string) :
  trail s l ->
  ((exists a b, s = status_value a /\ old = status_value a /\ new = status_value b /\
     may_move a b = true /\ s' = status_value b) \/ old = new /\ s' = s) ->
  trail s' (add_event_with_states l ty old new reason).
Proof.
  intros Ht Hcase. set (e := {| e_type := ty; e_old_state := old; e_new_state := new;
    e_reason_code := reason; e_order := l_event_sequence l + 1 - 1 + 1 |}).
  apply (trail_append s s' l _ e Ht); [done|simpl; lia|simpl; lia|exact Hcase].
Qed.

(** [add_events] appends its events one by one. *)
Lemma add_events_cons (l : Lifecycle) (ty : string) (reason : option string)
    (rest : list (string * option string)) :
  add_events l ((ty, reason) :: rest) =
  add_events (add_event_with_states l ty (l_status l) (l_status l) reason) rest.
Proof.
  destruct rest as [|[ty' reason'] rest]; [done|].
  unfold add_events, add_event_with_states, append_event, reserve_event_orders.
  set (n := length rest). cbn [length number_events l_status l_version l_event_sequence
    l_monitor_started_at l_filesystem_reclaimed_at l_events].
  fold n. set (q := l_event_sequence l).
  replace (q + Z.of_nat (S (S n)) - Z.of_nat (S (S n)) + 1) with (q + 1) by lia.
  replace (q + 1 - 1 + 1) with (q + 1) by lia.
  replace (q + 1 + Z.of_nat (S n) - Z.of_nat (S n) + 1) with (q + 1 + 1) by lia.
  replace (q + 1 + Z.of_nat (S n)) with (q + Z.of_nat (S (S n))) by lia.
  by rewrite <- app_assoc.
Qed.

Lemma trail_add_events (s : string) (l : Lifecycle) (events : list (string * option string)) :
  trail s l -> trail s (add_events l events).
Proof.
  revert l. induction events as [|[ty reason] events IH]; intros l Hwf; [done|].
  rewrite add_events_cons. apply IH, (trail_event s s); [done|by right].
Qed.

Lemma add_events_status (l : Lifecycle) (events : list (string * option string)) :
  l_status (add_events l events) = l_status l.
Proof. by destruct events. Qed.

Lemma wf_add_events (l : Lifecycle) (events : list (string * option string)) :
  wf_life l -> wf_life (add_events l events).
Proof.
  rewrite !wf_trail, add_events_status. intros [? ?]. split; [done|]. by apply trail_add_events.
Qed.

Lemma note_le (l : Lifecycle) (ty old new : string) (reason : option string) :
  life_le l (add_event_with_states l ty old new reason).
Proof. split; simpl; [lia|lia|eauto]. Qed.

Lemma add_events_le (l : Lifecycle) (events : list (string * option string)) :
  life_le l (add_events l events).
Proof.
  revert l. induction events as [|[ty reason] events IH]; intros l; [done|].
  rewrite add_events_cons. etrans; [apply note_le|apply IH].
Qed.

(** ** Transitions touch one row *)

(** The lifecycle effects outside the workspaces table never read it. *)
Lemma sync_candidates_set_workspaces (db : Db) (m : gmap string Workspace) (new_id : string)
    (now : Z) (ws : string) (w : Workspace) (attempt : option (string * Attempt))
    (to : WorkspaceStatus) :
  sync_merge_candidate_lifecycle (set_workspaces db m) new_id now ws w attempt to =
  (db' <-? sync_merge_candidate_lifecycle db new_id now ws w attempt to ;;
   Ok (set_workspaces db' m)).
Proof.
  unfold sync_merge_candidate_lifecycle, make_attempt_canonical_and_create_candidate,
    mark_canonical_for_merge, close_open_for_attempt, create_or_update_open_for_attempt,
    mark_workspace_merged, get_canonical_for_task, get_by_attempt_id, rbind.
  repeat (first [done | case_goal; simpl in * ]); simplify_eq; done.
Qed.

Lemma set_workspaces_id (db : Db) : set_workspaces db (workspaces db) = db.
Proof. by destruct db. Qed.

Lemma sync_candidates_workspaces (db db' : Db) (new_id : string) (now : Z) (ws : string)
    (w : Workspace) (attempt : option (string * Attempt)) (to : WorkspaceStatus) :
  sync_merge_candidate_lifecycle db new_id now ws w attempt to = Ok db' ->
  workspaces db' = workspaces db.
Proof.
  intros H. pose proof (sync_candidates_set_workspaces db (workspaces db) new_id now ws w attempt to)
    as Hs.
  rewrite set_workspaces_id, H in Hs. simpl in Hs. injection Hs as Hs. by rewrite Hs.
Qed.

Lemma set_attempt_set_workspaces (db : Db) (m : gmap string Workspace)
    (a : option (string * Attempt)) (to : WorkspaceStatus) :
  set_attempt_status (set_workspaces db m) a to =
  ((set_attempt_status db a to).1, set_workspaces (set_attempt_status db a to).2 m).
Proof. by destruct a as [[aid a]|]. Qed.

(** The row a transition writes does not depend on the row it overwrites. *)
Lemma finish_put (db : Db) (w0 : Workspace) (new_id : string) (now : Z) (ws : string)
    (w : Workspace) (old_state : string) (to : WorkspaceStatus) (reason : string) (order : Z) :
  finish_transition (put db ws w0) new_id now ws w old_state to reason order =
  finish_transition db new_id now ws w old_state to reason order.
Proof.
  unfold finish_transition, put. change (get_by_workspace_id (set_workspaces db _) ws)
    with (get_by_workspace_id db ws).
  destruct (get_by_workspace_id db ws) as [found|e]; [|done]. simpl.
  rewrite set_attempt_set_workspaces.
  assert (Hw : workspaces (set_attempt_status db found to).2 = workspaces db)
    by (by destruct found as [[aid a]|]).
  destruct (set_attempt_status db found to) as [attempt db1]. simpl in *.
  rewrite sync_candidates_set_workspaces.
  destruct (sync_merge_candidate_lifecycle db1 _ _ _ _ _ _) as [db2|e] eqn:E; [|done].
  apply sync_candidates_workspaces in E. simpl. f_equal.
  destruct (releases_resource_reservation to); unfold set_workspaces, release_active_for_workspace,
    set_reservations; simpl; by rewrite E, Hw, insert_insert_eq.
Qed.

Definition changed_event (old_state : string) (to : WorkspaceStatus) (reason : string) (order : Z)
  : Event :=
  {| e_type := STATE_CHANGED; e_old_state := old_state; e_new_state := status_value to;
     e_reason_code := Some reason; e_order := order |}.

Lemma finish_workspaces (db db' : Db) (new_id : string) (now : Z) (ws : string) (w : Workspace)
    (old_state : string) (to : WorkspaceStatus) (reason : string) (order : Z) :
  finish_transition db new_id now ws w old_state to reason order = Ok db' ->
  workspaces db' =
  <[ws := with_life w (append_event (start_monitor (w_life w) to now)
                         (changed_event old_state to reason order))]> (workspaces db).
Proof.
  unfold finish_transition. destruct (get_by_workspace_id db ws) as [found|e]; [|done]. simpl.
  assert (Hw : workspaces (set_attempt_status db found to).2 = workspaces db)
    by (by destruct found as [[aid a]|]).
  destruct (set_attempt_status db found to) as [attempt db1]. simpl in Hw.
  destruct (sync_merge_candidate_lifecycle db1 _ _ _ _ _ _) as [db2|e] eqn:E; [|done].
  apply sync_candidates_workspaces in E. simpl. intros [= <-].
  destruct (releases_resource_reservation to); simpl; by rewrite E, Hw.
Qed.

(** ** The compare-and-set *)

Section Transition.
Context (new_id : string) (now : Z) (ws : string) (from_status to : WorkspaceStatus).
Context (reason : string) (conditions : list (Workspace -> bool)).

(** The row both dialects write for a matching row [w]. *)
Definition moved_row (w : Workspace) : Workspace :=
  let old := status_value from_status in
  let w' := move w old to (reserve_event_orders (w_life w) 1 true).2 in
  with_life w' (append_event (start_monitor (w_life w') to now)
                  (changed_event old to reason (l_event_sequence (w_life w) + 1))).

Lemma select_current_spec (db : Db) (w : Workspace) :
  select_current db ws from_status conditions = Some w ->
  workspaces db !! ws = Some w /\ l_status (w_life w) = status_value from_status.
Proof.
  unfold select_current. destruct (workspaces db !! ws) as [u|]; [|done].
  destruct (eqb _ _) eqn:E; [|done]. simpl. rewrite eqb_true in E.
  destruct (_ && _); [|done]. intros [= <-]. done.
Qed.

Lemma locked_is_atomic (db : Db) :
  transition_if_current_locked db new_id now ws from_status to reason conditions =
  transition_if_current_atomic db new_id now ws from_status to reason conditions.
Proof.
  unfold transition_if_current_locked, transition_if_current_atomic.
  destruct (assert_transition from_status to); [|done].
  destruct (select_current db ws from_status conditions) as [w|] eqn:E; [|done].
  apply select_current_spec in E as [_ Est]. rewrite finish_put.
  unfold reserve_event_orders, atomic_update, move. rewrite Est.
  replace (l_event_sequence (w_life w) + 1 - 1 + 1) with (l_event_sequence (w_life w) + 1) by lia.
  f_equal. unfold finish_transition. destruct (get_by_workspace_id db ws) as [found|e]; [|done].
  simpl. destruct (set_attempt_status db found to) as [attempt db1].
  destruct (transition_releases_provisioning_execution_claim _ to); simpl;
    destruct (eqb to monitoring_pr) eqn:Em; unfold start_monitor, with_life, with_exec; simpl;
    rewrite ?Em; simpl; try done;
    by destruct (eqb (l_monitor_started_at (w_life w)) None) eqn:En; rewrite ?En.
Qed.

Lemma cas_dialect (pg : bool) (db : Db) :
  transition_if_current pg db new_id now ws from_status to reason conditions =
  transition_if_current_locked db new_id now ws from_status to reason conditions.
Proof. destruct pg; [done|]. symmetry. apply locked_is_atomic. Qed.

(** A successful compare-and-set, in full. *)
Lemma cas_some (pg : bool) (db db' : Db) :
  transition_if_current pg db new_id now ws from_status to reason conditions = Ok (Some db') ->
  exists w, select_current db ws from_status conditions = Some w /\
    can_transition from_status to = true /\
    workspaces db' = <[ws := moved_row w]> (workspaces db).
Proof.
  rewrite cas_dialect. unfold transition_if_current_locked, assert_transition.
  destruct (can_transition from_status to) eqn:Ec; [|done].
  destruct (select_current db ws from_status conditions) as [w|] eqn:E; [|done]. simpl.
  destruct (select_current_spec db w E) as [_ Est]. rewrite Est.
  destruct (finish_transition _ _ _ _ _ _ _ _ _) as [d|e] eqn:Ef; [|done]. simpl.
  intros [= <-]. exists w. split; [done|]. split; [done|].
  apply finish_workspaces in Ef. rewrite Ef. unfold moved_row, reserve_event_orders. simpl.
  by replace (l_event_sequence (w_life w) + 1 - 1 + 1) with (l_event_sequence (w_life w) + 1) by lia.
Qed.

Lemma moved_life (w : Workspace) :
  let l := w_life w in let l' := w_life (moved_row w) in
  l_status l' = status_value to /\ l_version l' = l_version l + 1 /\
  l_event_sequence l' = l_event_sequence l + 1 /\
  l_events l' = l_events l ++
    [changed_event (status_value from_status) to reason (l_event_sequence l + 1)].
Proof.
  unfold moved_row, move. simpl.
  destruct (transition_releases_provisioning_execution_claim _ to); done.
Qed.

Lemma moved_epoch (w : Workspace) : x_epoch (w_exec (moved_row w)) = x_epoch (w_exec w).
Proof.
  unfold moved_row, move.
  by destruct (transition_releases_provisioning_execution_claim _ to).
Qed.

Lemma wf_moved (w : Workspace) :
  wf_life (w_life w) -> l_status (w_life w) = status_value from_status ->
  can_transition from_status to = true -> wf_life (w_life (moved_row w)).
Proof.
  intros [_ Ht]%wf_trail Hst Hc. destruct (moved_life w) as (Hs & _ & Hq & He).
  apply wf_trail. split; [eauto|]. eapply trail_append; [exact Ht|exact He|exact Hq|simpl; lia|].
  left. exists from_status, to. unfold may_move. by rewrite Hc.
Qed.

Lemma moved_le (w : Workspace) : row_le w (moved_row w).
Proof.
  destruct (moved_life w) as (_ & Hv & Hq & He). split; [split|]; [lia|lia|eauto|].
  by rewrite moved_epoch.
Qed.
End Transition.

(** ** Steps of the control plane *)

(** [pg] is the dialect, [id] the identifier a new candidate would get. *)
Inductive step : Db -> Db -> Prop :=
| step_transition id now ws to reason db db' :
    transition db id now ws to reason = Ok db' -> step db db'
| step_cas pg id now ws from to reason conditions db db' :
    transition_if_current pg db id now ws from to reason conditions = Ok (Some db') -> step db db'
| step_claim_requested pg id now wk ws slots in_scope db db' won :
    claim_requested_for_provisioning pg id now db wk ws slots in_scope = Ok (db', won) ->
    step db db'
| step_claim_paused pg id now wk ws reason db db' won :
    claim_paused_for_resume pg id now db wk ws reason = Ok (db', won) -> step db db'
| step_restore pg id now wk ws reason code db :
    step db (restore_paused_resume_claim pg id now db wk ws reason code)
| step_enter_blocked pg id now ws from violations phase ty breason treason xo mo fence db db' won :
    enter_blocked pg id now db ws from violations phase ty breason treason xo mo fence
      = Ok (db', won) -> step db db'
| step_add_events ws events db :
    step db (update_row db ws (fun w => with_life w (add_events (w_life w) events)))
| step_release_reservations ws now db : step db (release_active_for_workspace db ws now)
| step_advance_version ws db :
    step db (update_row db ws (fun w => with_life w (advance_workspace_version (w_life w))))
| step_claim_monitor ws owner lease now cutoff fresh db :
    step db (claim_monitoring_pr db ws owner lease now cutoff fresh).1
| step_refresh_monitor ws owner lease db :
    step db (refresh_monitoring_pr_claim db ws owner lease).1
| step_release_monitor ws owner db : step db (release_monitoring_pr_claim db ws owner).1
| step_claim_restart ws owner lease cutoff active db :
    step db (claim_worker_restart_recovery_execution db ws owner lease cutoff active).1
| step_refresh_execution ws owner lease epoch db :
    step db (refresh_execution_claim db ws owner lease epoch).1
| step_release_execution ws owner epoch db :
    step db (release_execution_claim db ws owner epoch).1.

(** The resets of the operator. *)
Inductive operator_step : Db -> Db -> Prop :=
| operator_reset_failed now ws head events ty reason db db' :
    reset_failed db now ws head events ty reason = Ok (Some db') -> operator_step db db'
| operator_resolve_block now ws head ty reason db db' :
    resolve_monitor_block db now ws head ty reason = Ok (Some db') -> operator_step db db'.

Definition control_step (db db' : Db) : Prop := step db db' \/ operator_step db db'.

(** What the control plane does, and what it does without an operator's reset. *)
Definition steps : Db -> Db -> Prop := rtc control_step.
Definition unattended : Db -> Db -> Prop := rtc step.

#[export] Instance reaches_preorder : PreOrder reaches.
Proof. split; [intros a; constructor|intros a b c; apply reaches_trans]. Qed.

Definition anywhere (a b : WorkspaceStatus) : Prop := True.

#[export] Instance anywhere_preorder : PreOrder anywhere.
Proof. by split. Qed.

(** The status moves along [R], or not at all. *)
Definition follows (R : relation WorkspaceStatus) (l l' : Lifecycle) : Prop :=
  forall a, l_status l = status_value a -> exists b, l_status l' = status_value b /\ R a b.

(** Each row of [db] lives on in [db'], no counter goes back, the status follows
    [R], and a well-formed lifecycle stays well formed; no row appears. *)
Definition good_row_by (R : relation WorkspaceStatus) (w w' : Workspace) : Prop :=
  row_le w w' /\ (wf_life (w_life w) -> wf_life (w_life w')) /\ follows R (w_life w) (w_life w').

Definition good_by (R : relation WorkspaceStatus) (db db' : Db) : Prop :=
  forall ws, option_Forall2 (good_row_by R) (workspaces db !! ws) (workspaces db' !! ws).

Abbreviation good_row := (good_row_by reaches).
Abbreviation good := (good_by reaches).

#[export] Instance good_row_preorder (R : relation WorkspaceStatus) :
  PreOrder R -> PreOrder (good_row_by R).
Proof.
  intros HR. split.
  - intros w. split; [done|]. split; [done|]. intros a Ha. exists a. by split.
  - intros a b c (? & ? & Hab) (? & ? & Hbc). split; [by etrans|]. split; [auto|].
    intros s (t & Ht & Hst)%Hab. apply Hbc in Ht as (u & Hu & Htu). exists u.
    split; [done|]. by etrans.
Qed.

#[export] Instance good_preorder (R : relation WorkspaceStatus) :
  PreOrder R -> PreOrder (good_by R).
Proof.
  intros HR.
  split.
  - intros db ws. by destruct (workspaces db !! ws); constructor.
  - intros a b c H1 H2 ws. specialize (H1 ws). specialize (H2 ws).
    destruct H1 as [w w' H1|]; inversion H2; subst; constructor. by etrans.
Qed.

Lemma good_insert {R : relation WorkspaceStatus} `{!PreOrder R} (db db' : Db) (ws : string)
    (w w' : Workspace) :
  workspaces db !! ws = Some w -> good_row_by R w w' ->
  workspaces db' = <[ws := w']> (workspaces db) -> good_by R db db'.
Proof.
  intros Hw Hg He ws'. rewrite He. destruct (decide (ws = ws')) as [<-|Hne].
  - rewrite lookup_insert_eq, Hw. by constructor.
  - rewrite lookup_insert_ne by done. by destruct (workspaces db !! ws'); constructor.
Qed.

(** What follows the machine goes somewhere. *)
Lemma good_anywhere (db db' : Db) : good db db' -> good_by anywhere db db'.
Proof.
  intros Hg ws. destruct (Hg ws) as [w w' (? & ? & Hf)|]; constructor. split_and!; [done|done|].
  intros a (b & Hb & _)%Hf. by exists b.
Qed.

Lemma good_update_row (db : Db) (ws : string) (f : Workspace -> Workspace) :
  (forall w, good_row w (f w)) -> good db (update_row db ws f).
Proof.
  intros Hf ws'. simpl. destruct (decide (ws = ws')) as [<-|Hne].
  - rewrite lookup_alter_eq. by destruct (workspaces db !! ws); constructor.
  - rewrite lookup_alter_ne by done. by destruct (workspaces db !! ws'); constructor.
Qed.

Lemma good_guarded (db : Db) (ws : string) (cond : Workspace -> bool)
    (f : Workspace -> Workspace) :
  (forall w, good_row w (f w)) -> good db (guarded_update db ws cond f).1.
Proof.
  intros Hf. unfold guarded_update. destruct (workspaces db !! ws) as [w|] eqn:E; [|done].
  destruct (cond w); [|done]. eapply good_insert; [exact E|apply Hf|done].
Qed.

(** Updates that keep the lifecycle columns and do not lower the epoch. *)
Lemma good_keep (w w' : Workspace) :
  w_life w' = w_life w -> x_epoch (w_exec w) <= x_epoch (w_exec w') -> good_row w w'.
Proof.
  intros Hl He. split; [split|split]; unfold follows; rewrite ?Hl; try done.
  intros a Ha. exists a. split; [done|constructor].
Qed.

Lemma good_life (w : Workspace) (l : Lifecycle) :
  life_le (w_life w) l -> (wf_life (w_life w) -> wf_life l) ->
  l_status l = l_status (w_life w) -> good_row w (with_life w l).
Proof.
  intros Hl Hwf Hs. split; [split; [done|simpl; lia]|split; [done|]].
  intros a Ha. exists a. simpl. rewrite Hs. split; [done|constructor].
Qed.

Lemma good_moved (now : Z) (from to : WorkspaceStatus) (reason : string) (w : Workspace) :
  l_status (w_life w) = status_value from -> can_transition from to = true ->
  good_row w (moved_row now from to reason w).
Proof.
  intros Hst Hc. split; [apply moved_le|]. split; [intros Hwf; by apply wf_moved|].
  intros a Ha. rewrite Hst in Ha. apply status_value_inj in Ha as <-. exists to.
  split; [by destruct (moved_life now from to reason w)|]. by apply reaches_edge.
Qed.

Lemma good_cas (pg : bool) (id : string) (now : Z) (ws : string) (from to : WorkspaceStatus)
    (reason : string) (conditions : list (Workspace -> bool)) (db db' : Db) :
  transition_if_current pg db id now ws from to reason conditions = Ok (Some db') -> good db db'.
Proof.
  intros (w & Hs & Hc & He)%cas_some. apply select_current_spec in Hs as [Hw Hst].
  eapply good_insert; [exact Hw|by apply good_moved|exact He].
Qed.

(** [transition] is the compare-and-set from the current status. *)
Lemma transition_row (id : string) (now : Z) (ws : string) (to : WorkspaceStatus)
    (reason : string) (db db' : Db) :
  transition db id now ws to reason = Ok db' ->
  exists w from, workspaces db !! ws = Some w /\ l_status (w_life w) = status_value from /\
    can_transition from to = true /\
    workspaces db' = <[ws := moved_row now from to reason w]> (workspaces db).
Proof.
  unfold transition. destruct (workspaces db !! ws) as [w|] eqn:Hw; [|done].
  destruct (parse_status _) as [from|v] eqn:Hp; [|done]. apply parse_status_ok in Hp.
  unfold assert_transition. destruct (can_transition from to) eqn:Hc; [|done].
  intros Hf%finish_workspaces. exists w, from. split_and!; [done..|]. rewrite Hf.
  replace (l_event_sequence (w_life w) + 1 - 1 + 1) with (l_event_sequence (w_life w) + 1) by lia.
  by rewrite Hp.
Qed.

Lemma good_transition (id : string) (now : Z) (ws : string) (to : WorkspaceStatus)
    (reason : string) (db db' : Db) :
  transition db id now ws to reason = Ok db' -> good db db'.
Proof.
  intros (w & from & Hw & Hs & Hc & He)%transition_row.
  eapply good_insert; [exact Hw|by apply good_moved|exact He].
Qed.

Lemma good_events (w : Workspace) (events : list (string * option string)) :
  good_row w (with_life w (add_events (w_life w) events)).
Proof. apply good_life; [apply add_events_le|apply wf_add_events|by destruct events]. Qed.

Lemma good_add_event (db : Db) (ws ty : string) (reason : option string) :
  good db (add_event ws ty reason db).
Proof. apply good_update_row. intros w. apply good_events. Qed.

Lemma good_claim (db : Db) (ws : string) (wk : Worker) :
  good db (update_row db ws (apply_execution_claim wk)).
Proof. apply good_update_row. intros w. apply good_keep; simpl; [done|lia]. Qed.

Lemma advance_wf (l : Lifecycle) : wf_life l -> wf_life (advance_workspace_version l).
Proof. by intros [? ? ? ?]. Qed.

#[export] Hint Resolve good_cas good_transition good_add_event good_claim : awf.

Lemma step_good (db db' : Db) : step db db' -> good db db'.
Proof.
  destruct 1 as [| |? ? ? ? ? ? ? ? ? ? H|? ? ? ? ? r ? ? ? H|? ? ? ? ? r ? ?|
    ? ? ? ? ? ? ? ? ? ? ? ? ? ? ? ? H| | | | | | | | |]; eauto with awf.
  - unfold claim_requested_for_provisioning in H. destruct (_ <=? _); [by simplify_eq|].
    destruct (transition_if_current _ _ _ _ _ _ _ _ _) as [[d|]|] eqn:E; simplify_eq/=; [|done].
    etrans; [by eapply good_cas|apply good_claim].
  - unfold claim_paused_for_resume in H.
    destruct (transition_if_current _ _ _ _ _ _ _ _ _) as [[d|]|] eqn:E; simplify_eq/=; [|done].
    etrans; [by eapply good_cas|]. etrans; [|apply good_claim].
    destruct r; [by apply good_add_event|done].
  - unfold restore_paused_resume_claim.
    destruct (transition_if_current _ _ _ _ _ _ _ _ _) as [[d|]|] eqn:E; [|done|done].
    etrans; [by eapply good_cas|]. destruct r; [by apply good_add_event|done].
  - unfold enter_blocked in H.
    destruct (transition_if_current _ _ _ _ _ _ _ _ _) as [[d|]|] eqn:E; simplify_eq/=; [|done].
    etrans; [by eapply good_cas|]. etrans; [|by apply good_add_event].
    apply good_update_row. intros w. by apply good_keep.
  - apply good_update_row. intros w. apply good_events.
  - intros w. simpl. by destruct (workspaces db !! w); constructor.
  - apply good_update_row. intros w. apply good_life; [|apply advance_wf|done].
    split; simpl; [lia|lia|]. exists []. by rewrite app_nil_r.
  - apply good_guarded. intros w. apply good_keep; destruct cutoff; simpl; try done; try lia;
      case_goal; simpl; (done || lia).
  - apply good_guarded. intros w. by apply good_keep.
  - apply good_guarded. intros w. by apply good_keep.
  - apply good_guarded. intros w. by apply good_keep.
  - apply good_guarded. intros w. by apply good_keep.
  - apply good_guarded. intros w. by apply good_keep.
Qed.

Lemma unattended_good (db db' : Db) : unattended db db' -> good db db'.
Proof. induction 1; [done|]. etrans; [by apply step_good|done]. Qed.

(** ** Resets *)

Lemma reopen_workspaces (db db' : Db) (now : Z) (ws : string) (w : Workspace)
    (head : option string) (reopened : bool) :
  reopen_candidate db now ws w head = Ok (db', reopened) -> workspaces db' = workspaces db.
Proof.
  unfold reopen_candidate, create_or_update_open_for_attempt.
  destruct (get_by_workspace_id db ws) as [[[aid a]|]|] eqn:E0; simpl; [|by intros [= <- _]|done].
  destruct (get_by_attempt_id _ aid) as [[[cid c]|]|] eqn:E1; simpl; [|by intros [= <- _]|done].
  destruct (truthy_str _); simpl; [|done].
  destruct (get_by_attempt_id _ (c_attempt_id c)) as [[[k x]|]|]; simpl; [| |done];
    by intros [= <- _].
Qed.

(** A row that left [old] for the monitor, with the events of the reset. *)
Lemma reset_row (w w' : Workspace) (old : WorkspaceStatus) (ty reason : string)
    (events : list (string * option string)) (l : Lifecycle) :
  l_status (w_life w) = status_value old -> may_move old monitoring_pr = true ->
  x_epoch (w_exec w') = x_epoch (w_exec w) ->
  l_status l = status_value monitoring_pr -> l_version (w_life w) <= l_version l ->
  l_event_sequence l = l_event_sequence (w_life w) -> l_events l = l_events (w_life w) ->
  w_life w' = add_event_with_states (add_events l events) ty (status_value old)
                (status_value monitoring_pr) (Some reason) ->
  good_row_by anywhere w w'.
Proof.
  intros Hst Hm Hx Hs Hv Hq He Hl. split_and!; [split|..].
  - rewrite Hl. etrans; [|apply note_le]. etrans; [|apply add_events_le].
    split; [done|lia|]. exists []. by rewrite app_nil_r.
  - lia.
  - rewrite Hl, !wf_trail. intros [_ Ht]. change (l_status (add_event_with_states ?l _ _ _ _))
      with (l_status l). rewrite add_events_status, Hs. split; [eauto|].
    apply (trail_event (status_value old)).
    + apply trail_add_events. rewrite Hst in Ht. by eapply trail_same.
    + left. by exists old, monitoring_pr.
  - intros a Ha. exists monitoring_pr. rewrite Hl. split; [|done].
    change (l_status (add_events l events) = status_value monitoring_pr). by rewrite add_events_status.
Qed.

Lemma operator_good (db db' : Db) : operator_step db db' -> good_by anywhere db db'.
Proof.
  destruct 1 as [now ws head events ty reason db db' H|now ws head ty reason db db' H].
  - unfold reset_failed, reset_failed_workspace_for_remonitor in H.
    destruct (workspaces db !! ws) as [w|] eqn:Hw; [|done].
    destruct (eqb _ _) eqn:Es in H; [|done]. rewrite eqb_true in Es. simpl in H.
    destruct (reopen_candidate _ _ _ _ _) as [[d r]|] eqn:Er in H; [|done].
    apply reopen_workspaces in Er. simpl in H. injection H as <-.
    eapply (good_insert _ _ ws w); [exact Hw| |].
    2: { simpl. rewrite Er. simpl. rewrite !alter_alter_eq, alter_insert_eq. reflexivity. }
    apply (reset_row w _ failed ty reason events
      (advance_workspace_version (monitored_again (w_life w)))); simpl; (done || lia).
  - unfold resolve_monitor_block, resume_monitor_block in H.
    destruct (workspaces db !! ws) as [w|] eqn:Hw; [|done].
    destruct (eqb _ _) eqn:Es in H; [|done]. rewrite eqb_true in Es.
    change (assert_transition blocked monitoring_pr) with (@Ok InvalidTransition unit tt) in H.
    destruct (reopen_candidate _ _ _ _ _) as [[d r]|] eqn:Er in H; [|done].
    apply reopen_workspaces in Er. simpl in H. injection H as <-.
    set (w1 := with_life w _) in Er.
    eapply (good_insert _ _ ws w); [exact Hw| |].
    2: { simpl. rewrite Er. simpl. rewrite !alter_alter_eq, alter_insert_eq. reflexivity. }
    apply (reset_row w _ blocked ty reason [] (advance_workspace_version (w_life w1)));
      simpl; (done || lia).
Qed.

Lemma steps_good (db db' : Db) : steps db db' -> good_by anywhere db db'.
Proof.
  induction 1 as [|? ? ? [H|H]]; [done| |]; (etrans; [|done]).
  - by apply good_anywhere, step_good.
  - by apply operator_good.
Qed.

Lemma unattended_steps (db db' : Db) : unattended db db' -> steps db db'.
Proof. induction 1; [constructor|]. econstructor; [by left|done]. Qed.

(** ** Fencing *)

Definition epoch_of (db : Db) (ws : string) : option Z :=
  option_map (fun w => x_epoch (w_exec w)) (workspaces db !! ws).

Lemma good_epoch {R : relation WorkspaceStatus} (db db' : Db) (ws : string) (e : Z) :
  good_by R db db' -> epoch_of db ws = Some e -> exists e', epoch_of db' ws = Some e' /\ e <= e'.
Proof.
  intros Hg. specialize (Hg ws). unfold epoch_of. destruct Hg as [w w' [[_ He] _]|]; [|done].
  simpl. intros [= <-]. eauto.
Qed.

Lemma claim_epoch (db : Db) (ws : string) (wk : Worker) (e : Z) :
  epoch_of db ws = Some e ->
  epoch_of (update_row db ws (apply_execution_claim wk)) ws = Some (e + 1).
Proof.
  unfold epoch_of. simpl. rewrite lookup_alter_eq. destruct (workspaces db !! ws); [|done].
  simpl. by intros [= <-].
Qed.

(** The handlers that hand the execution claim of [ws] to somebody else. *)
Inductive reclaims (ws : string) (db : Db) : Db -> Prop :=
| reclaim_requested pg id now wk slots in_scope db' :
    claim_requested_for_provisioning pg id now db wk ws slots in_scope = Ok (db', true) ->
    reclaims ws db db'
| reclaim_paused pg id now wk reason db' :
    claim_paused_for_resume pg id now db wk ws reason = Ok (db', true) -> reclaims ws db db'
| reclaim_monitor owner lease now cutoff fresh db' w :
    workspaces db !! ws = Some w ->
    clearable_execution_claim (w_exec w) owner cutoff fresh = true ->
    claim_monitoring_pr db ws owner lease now (Some cutoff) fresh = (db', true) ->
    reclaims ws db db'.

Lemma reclaims_step (ws : string) (db db' : Db) : reclaims ws db db' -> step db db'.
Proof.
  destruct 1 as [? ? ? ? ? ? ? H|? ? ? ? ? ? H|? ? ? ? ? ? ? _ _ H].
  - by eapply step_claim_requested.
  - by eapply step_claim_paused.
  - replace db' with (claim_monitoring_pr db ws owner lease now (Some cutoff) fresh).1
      by (by rewrite H). constructor.
Qed.

Lemma reclaims_epoch (ws : string) (db db' : Db) (e : Z) :
  reclaims ws db db' -> epoch_of db ws = Some e ->
  exists e', epoch_of db' ws = Some e' /\ e < e'.
Proof.
  destruct 1 as [pg id now wk slots sc db' H|pg id now wk r db' H|o l n c f db' w Hw Hc H];
    intros He.
  - unfold claim_requested_for_provisioning in H. destruct (_ <=? _); [done|].
    destruct (transition_if_current _ _ _ _ _ _ _ _ _) as [[d|]|] eqn:E; simplify_eq/=.
    destruct (good_epoch (R := reaches) db d ws e) as (e' & He' & Hle); [by eapply good_cas|done|].
    exists (e' + 1). split; [by apply claim_epoch|lia].
  - unfold claim_paused_for_resume in H.
    destruct (transition_if_current _ _ _ _ _ _ _ _ _) as [[d|]|] eqn:E; simplify_eq/=.
    set (d2 := match r with resume_blocked => _ | _ => _ end).
    destruct (good_epoch (R := reaches) db d2 ws e) as (e' & He' & Hle); [|done|].
    + etrans; [by eapply good_cas|]. subst d2. destruct r; [by apply good_add_event|done].
    + exists (e' + 1). split; [by apply claim_epoch|lia].
  - unfold claim_monitoring_pr, guarded_update in H. rewrite Hw in H.
    destruct (_ && _) in H; [|done]. rewrite Hc in H. injection H as <-.
    unfold epoch_of in *. simpl. rewrite lookup_insert_eq. rewrite Hw in He. simpl in *.
    injection He as <-. eexists. split; [done|]. lia.
Qed.

(** ** What a terminal transition leaves behind *)

Lemma scalar_one_unique {A : Type} (f : A -> bool) (m : gmap string A)
    (r : option (string * A)) (k : string) (v : A) :
  scalar_one_or_none (matching f m) = Ok r -> m !! k = Some v -> f v = true -> r = Some (k, v).
Proof.
  intros Hr Hk Hf.
  assert (Hin : (k, v) ∈ matching f m)
    by (apply elem_of_bfilter; split; [done|by apply elem_of_map_to_list]).
  destruct (matching f m) as [|x [|y l]]; simplify_eq/=; [by apply elem_of_nil in Hin|].
  by apply list_elem_of_singleton in Hin as ->.
Qed.

Lemma attempts_follow (db : Db) (ws : string) (found : option (string * Attempt))
    (to : WorkspaceStatus) (k : string) (a : Attempt) :
  get_by_workspace_id db ws = Ok found ->
  attempts (set_attempt_status db found to).2 !! k = Some a -> a_workspace_id a = ws ->
  a_status a = status_value to.
Proof.
  intros Hf Ha Hw. destruct found as [[aid b]|]; simpl in Ha.
  - destruct (decide (aid = k)) as [->|Hne].
    + rewrite lookup_insert_eq in Ha. by injection Ha as <-.
    + rewrite lookup_insert_ne in Ha by done.
      assert (Hu := scalar_one_unique _ _ _ k a Hf Ha). rewrite eqb_true in Hu.
      by injection (Hu Hw) as -> _.
  - assert (Hu := scalar_one_unique _ _ _ k a Hf Ha). rewrite eqb_true in Hu.
    discriminate (Hu Hw).
Qed.

Lemma close_open_closed (db : Db) (now : Z) (ws reason : string) (k : string) (c : Candidate) :
  candidates (close_open_for_workspace db now ws reason) !! k = Some c ->
  c_workspace_id c = ws -> c_status c <> "open".
Proof.
  simpl. rewrite lookup_fmap_Some. intros (c0 & <- & _) Hw Hs.
  destruct (eqb (c_workspace_id c0) ws && eqb (c_status c0) "open") eqn:E; [done|].
  apply andb_false_iff in E. rewrite !eqb_false in E. naive_solver.
Qed.

Lemma released (db : Db) (ws : string) (now : Z) (k : string) (r : Reservation) :
  reservations (release_active_for_workspace db ws now) !! k = Some r ->
  r_workspace_id r = ws -> r_released_at r <> None.
Proof.
  simpl. rewrite lookup_fmap_Some. intros (r0 & <- & _) Hw Hn.
  destruct (eqb (r_workspace_id r0) ws && eqb (r_released_at r0) None) eqn:E; [done|].
  apply andb_false_iff in E. rewrite !eqb_false in E. naive_solver.
Qed.

Lemma finish_releases (db db' : Db) (new_id : string) (now : Z) (ws : string) (w : Workspace)
    (old_state : string) (to : WorkspaceStatus) (reason : string) (order : Z) :
  to ∈ [failed; cancelled] ->
  finish_transition db new_id now ws w old_state to reason order = Ok db' ->
  (forall k c, candidates db' !! k = Some c -> c_workspace_id c = ws -> c_status c <> "open") /\
  (forall k r, reservations db' !! k = Some r -> r_workspace_id r = ws -> r_released_at r <> None) /\
  (forall k a, attempts db' !! k = Some a -> a_workspace_id a = ws -> a_status a = status_value to).
Proof.
  intros Hto. unfold finish_transition.
  destruct (get_by_workspace_id db ws) as [found|e] eqn:Ef; [|done]. simpl.
  pose proof (fun k a => attempts_follow db ws found to k a Ef) as Ha.
  destruct (set_attempt_status db found to) as [attempt db1]. simpl in Ha.
  assert (Hs : forall w1, sync_merge_candidate_lifecycle db1 new_id now ws w1 attempt to =
    Ok (close_open_for_workspace db1 now ws (candidate_terminal_close_reason to)) /\
    releases_resource_reservation to = true)
    by (intros w1; rewrite !elem_of_cons in Hto; destruct Hto as [-> |[-> |Hto]];
        [done|done|by apply elem_of_nil in Hto]).
  destruct (Hs (with_life w (start_monitor (w_life w) to now))) as [-> ->]. simpl.
  intros [= <-]. split_and!; [|apply (released (close_open_for_workspace db1 now ws _))|exact Ha].
  intros k c. apply (close_open_closed db1 now ws (candidate_terminal_close_reason to)).
Qed.

(** The row a successful resume claim leaves. *)
Lemma resume_row (pg : bool) (id : string) (now : Z) (db db1 : Db) (wk : Worker) (ws : string)
    (reason : PauseResumeReason) :
  claim_paused_for_resume pg id now db wk ws reason = Ok (db1, true) ->
  exists w w1, workspaces db !! ws = Some w /\ workspaces db1 !! ws = Some w1 /\
    l_status (w_life w1) = status_value running /\
    x_claimed_by (w_exec w1) = Some (worker_id wk) /\ x_epoch (w_exec w1) = x_epoch (w_exec w) + 1.
Proof.
  unfold claim_paused_for_resume.
  destruct (transition_if_current _ _ _ _ _ _ _ _ _) as [[d|]|] eqn:E; [|done|done].
  apply cas_some in E as (w & Hs & _ & Hd). apply select_current_spec in Hs as [Hw _].
  simpl. intros [= <-]. exists w.
  destruct (moved_life now (paused_status reason) running (paused_resume_claim_reason_code reason) w)
    as (Hst & _).
  assert (He := moved_epoch now (paused_status reason) running
                  (paused_resume_claim_reason_code reason) w).
  set (m := moved_row _ _ _ _ w) in *. clearbody m.
  destruct reason; (eexists; split; [done|split;
    [simpl; rewrite lookup_alter_eq; simpl; rewrite Hd, ?lookup_alter_eq, lookup_insert_eq;
     reflexivity|]]); simpl; by rewrite <- He.
Qed.

(** ** Properties *)

(** C19: whatever the control plane does, operator resets included, every
    workspace's recorded history starts at requested, follows the edges of the state
    machine or the reset of a failed workspace to its monitor, and ends at the
    current status; its event orders strictly increase within the reserved
    sequence, and no workspace row disappears. *)
Theorem lifecycle_invariant (db db' : Db) :
  steps db db' -> wf_db db ->
  wf_db db' /\ forall ws, is_Some (workspaces db !! ws) <-> is_Some (workspaces db' !! ws).
Proof.
  intros Hg%steps_good Hwf. split; intros ws.
  - intros w' Hw'. specialize (Hg ws). rewrite Hw' in Hg.
    destruct (workspaces db !! ws) as [w|] eqn:Hw; inversion Hg as [? ? (_ & Hr & _)|]; subst.
    eauto.
  - destruct (Hg ws); split; intros [v Hv]; (done || eauto).
Qed.

(** Between any two points in time a workspace's version, event sequence
    and fencing epoch never go back, events are only appended, and its status,
    unless an operator resets it, has moved along a path of the state machine: in
    particular a destroyed workspace stays destroyed and a callback-terminal one
    never revives by itself. *)
Theorem lifecycle_monotone (db db' : Db) (ws : string) (w w' : Workspace) (a : WorkspaceStatus) :
  unattended db db' -> workspaces db !! ws = Some w -> workspaces db' !! ws = Some w' ->
  l_status (w_life w) = status_value a ->
  row_le w w' /\
  exists b, l_status (w_life w') = status_value b /\ reaches a b /\
    (is_terminal a = true -> b = a) /\
    (is_callback_terminal a = true -> is_callback_terminal b = true).
Proof.
  intros Hg%unattended_good Hw Hw' Ha. specialize (Hg ws). rewrite Hw, Hw' in Hg.
  inversion Hg as [? ? (Hle & _ & Hf)|]; subst. split; [done|].
  destruct (Hf a Ha) as (b & Hb & Hr). exists b. split_and!; [done|done| |].
  - intros Ht. assert (a = destroyed) as -> by (destruct a; by vm_compute in Ht).
    inversion Hr as [|? c ? Hc]; [done|]. destruct c; by vm_compute in Hc.
  - intros Ht. eapply (closed_reaches is_callback_terminal a); eauto using callback_terminal_closed.
Qed.

(** The two database dialects implement the same transition: the guarded
    UPDATE used without row locks and the select-for-update used on PostgreSQL
    give the same answer, error and resulting tables on every input. *)
Theorem dialects_agree (db : Db) (new_id : string) (now : Z) (ws : string)
    (from_status to : WorkspaceStatus) (reason : string) (conditions : list (Workspace -> bool)) :
  transition_if_current false db new_id now ws from_status to reason conditions =
  transition_if_current true db new_id now ws from_status to reason conditions.
Proof. symmetry. apply locked_is_atomic. Qed.

(** A paused workspace is resumed by exactly one worker: the first claim
    moves it to running under the winner with a strictly higher epoch, and any
    later claim of the same pause matches no row and changes nothing. *)
Theorem paused_claim_single_winner (pg : bool) (id1 id2 : string) (now1 now2 : Z) (db db1 : Db)
    (wk1 wk2 : Worker) (ws : string) (reason : PauseResumeReason) (w : Workspace) :
  workspaces db !! ws = Some w ->
  claim_paused_for_resume pg id1 now1 db wk1 ws reason = Ok (db1, true) ->
  claim_paused_for_resume pg id2 now2 db1 wk2 ws reason = Ok (db1, false) /\
  exists w1, workspaces db1 !! ws = Some w1 /\ l_status (w_life w1) = status_value running /\
    x_claimed_by (w_exec w1) = Some (worker_id wk1) /\ x_epoch (w_exec w1) = x_epoch (w_exec w) + 1.
Proof.
  intros Hw Hc. destruct (resume_row _ _ _ _ _ _ _ _ Hc) as (u & w1 & Hu & Hw1 & Hs & Hx & He).
  assert (u = w) as -> by congruence. split; [|eauto].
  assert (Hn : transition_if_current pg db1 id2 now2 ws (paused_status reason) running
                 (paused_resume_claim_reason_code reason) [] = Ok None).
  { rewrite cas_dialect. unfold transition_if_current_locked, select_current.
    rewrite Hw1, Hs. by destruct reason. }
  unfold claim_paused_for_resume. by rewrite Hn.
Qed.


(** A monitor lease is exclusive: while another owner's lease has not
    expired a claim matches no row; and a successful claim evicts the previous
    owner, whose later refresh and release match no row. *)
Theorem monitor_lease_exclusive (db : Db) (ws owner other : string) (lease now lease' : Z)
    (cutoff : option Z) (fresh : option (list string)) (w : Workspace) :
  workspaces db !! ws = Some w -> other <> owner ->
  (m_claimed_by (w_monitor w) = Some other /\ (exists x, m_expires_at (w_monitor w) = Some x /\ now < x) ->
   claim_monitoring_pr db ws owner lease now cutoff fresh = (db, false)) /\
  (forall db', claim_monitoring_pr db ws owner lease now cutoff fresh = (db', true) ->
   refresh_monitoring_pr_claim db' ws other lease' = (db', false) /\
   release_monitoring_pr_claim db' ws other = (db', false)).
Proof.
  intros Hw Hne. unfold claim_monitoring_pr, guarded_update. rewrite Hw. split.
  - intros [Ho (x & Hx & Hlt)].
    assert (Ha : monitor_claim_available (w_monitor w) owner now = false).
    { unfold monitor_claim_available, sql_eq. rewrite Hx, Ho. simpl.
      rewrite (proj2 (Z.leb_gt x now)) by done. apply eqb_false. congruence. }
    by rewrite Ha, andb_false_r.
  - intros db'. destruct (_ && _); [|done]. intros [= <-].
    set (w' := match cutoff with Some _ => _ | None => _ end).
    assert (Hm : m_claimed_by (w_monitor w') = Some owner)
      by (subst w'; destruct cutoff; [case_goal|]; done).
    unfold refresh_monitoring_pr_claim, release_monitoring_pr_claim, guarded_update, sql_eq. simpl.
    rewrite lookup_insert_eq, Hm, (proj2 (eqb_false (Some owner) (Some other))) by congruence.
    by rewrite andb_false_r.
Qed.

(** A workspace that fails or is cancelled lets go of everything it held:
    after the transition none of its merge candidates is open, none of its
    resource reservations is active, and its task attempt carries its status. *)
Theorem terminal_transition_releases (pg : bool) (db db' : Db) (new_id : string) (now : Z)
    (ws : string) (from_status to : WorkspaceStatus) (reason : string)
    (conditions : list (Workspace -> bool)) :
  to ∈ [failed; cancelled] ->
  transition_if_current pg db new_id now ws from_status to reason conditions = Ok (Some db') ->
  (forall k c, candidates db' !! k = Some c -> c_workspace_id c = ws -> c_status c <> "open") /\
  (forall k r, reservations db' !! k = Some r -> r_workspace_id r = ws -> r_released_at r <> None) /\
  (forall k a, attempts db' !! k = Some a -> a_workspace_id a = ws -> a_status a = status_value to).
Proof.
  intros Hto. rewrite cas_dialect. unfold transition_if_current_locked.
  destruct (assert_transition from_status to); [|done].
  destruct (select_current db ws from_status conditions) as [w|]; [|done]. simpl.
  destruct (finish_transition _ _ _ _ _ _ _ _ _) as [d|e] eqn:Ef; [|done].
  simpl. intros [= <-]. by eapply finish_releases.
Qed.

(** ** Instances *)

Lemma sample_wf : wf_db (sample_db blocked None None).
Proof.
  intros ws w Hw. simpl in Hw. apply lookup_singleton_Some in Hw as [<- <-]. split.
  - by exists blocked.
  - vm_compute. split_and!; try done;
      [exists requested, provisioning|exists provisioning, ready|exists ready, running
      |exists running, blocked]; done.
  - vm_compute. by repeat constructor.
  - vm_compute. repeat constructor; discriminate.
Qed.

(** The blocked sample resumed by worker "w1". *)
Definition sample_resumed : Db :=
  match claim_paused_for_resume true "c2" 5 (sample_db blocked None None) (sample_worker "w1") "ws"
          resume_blocked with
  | Ok (db, _) => db
  | Err _ => sample_db blocked None None
  end.

Lemma sample_resumes :
  claim_paused_for_resume true "c2" 5 (sample_db blocked None None) (sample_worker "w1") "ws"
    resume_blocked = Ok (sample_resumed, true).
Proof. vm_compute. reflexivity. Qed.

Lemma sample_unattended : unattended (sample_db blocked None None) sample_resumed.
Proof. eapply rtc_once, step_claim_paused, sample_resumes. Qed.

Lemma sample_steps : steps (sample_db blocked None None) sample_resumed.
Proof. apply unattended_steps, sample_unattended. Qed.

Lemma lifecycle_invariant_witness : wf_db sample_resumed.
Proof. exact (proj1 (lifecycle_invariant _ _ sample_steps sample_wf)). Defined.

Lemma lifecycle_monotone_witness :
  exists w', workspaces sample_resumed !! "ws" = Some w' /\
    row_le (sample_workspace blocked None None) w'.
Proof.
  eexists. split; [vm_compute; reflexivity|].
  refine (proj1 (lifecycle_monotone _ _ "ws" (sample_workspace blocked None None) _ blocked
    sample_unattended _ _ eq_refl)); vm_compute; reflexivity.
Defined.

Lemma paused_claim_single_winner_witness :
  claim_paused_for_resume true "c3" 6 sample_resumed (sample_worker "w2") "ws" resume_blocked
  = Ok (sample_resumed, false).
Proof.
  refine (proj1 (paused_claim_single_winner true "c2" "c3" 5 6 _ _ (sample_worker "w1")
    (sample_worker "w2") "ws" resume_blocked (sample_workspace blocked None None) _ sample_resumes)).
  vm_compute; reflexivity.
Defined.


Lemma monitor_lease_exclusive_witness :
  claim_monitoring_pr (sample_db monitoring_pr None (Some "m1")) "ws" "m2" 90 50 None None
  = (sample_db monitoring_pr None (Some "m1"), false).
Proof.
  refine (proj1 (monitor_lease_exclusive _ "ws" "m2" "m1" 90 50 90 None None
    (sample_workspace monitoring_pr None (Some "m1")) _ _) _).
  - vm_compute. reflexivity.
  - discriminate.
  - split; [reflexivity|]. exists 100. split; [reflexivity|lia].
Defined.

Lemma terminal_transition_releases_witness :
  exists db', transition_if_current false (sample_db running None None) "c2" 5 "ws" running failed
                "EXECUTOR_FAILED" [] = Ok (Some db') /\
    forall k r, reservations db' !! k = Some r -> r_workspace_id r = "ws" -> r_released_at r <> None.
Proof.
  destruct (transition_if_current false (sample_db running None None) "c2" 5 "ws" running failed
    "EXECUTOR_FAILED" []) as [[d|]|] eqn:E; [|by vm_compute in E|by vm_compute in E].
  exists d. split; [reflexivity|].
  refine (proj1 (proj2 (terminal_transition_releases false (sample_db running None None) d "c2" 5
    "ws" running failed "EXECUTOR_FAILED" [] _ E))).
  apply elem_of_cons. left. reflexivity.
Defined.
