(* ===== verification/Admission.v ===== *)
(** * Admission of requested workspaces

    [_record_capacity_queue_decision] of [control/worker/resource_broker.py] and
    [_claim_requested_capacity_candidates] of [control/worker/claims.py]: walking the
    ordered candidates, refusing the ones whose demand does not fit, claiming the
    others with a guarded transition and adding their demand to the running totals.

    The reservations, attempts and latest decisions of the page are read before the
    loop, so each candidate carries its own.  The totals the loop starts from are an
    argument: the code sums them in SQL, whose order of summation is not specified. *)

From S2P Require Import Prelude PyStr PyTime PyFloat PyVal Status Scheduler Capacity.
From S2P Require Import Store WorkspaceRepo Claims Lifecycle.
#[local] Open Scope Z_scope.
#[local] Set Warnings "-register-all".

(** ** Queue decisions *)

Definition QUEUE_DECISION_ORDERED : string := "ordered".
Definition QUEUE_DECISION_DEFERRED : string := "deferred".
Definition LOCAL_CAPACITY_DEFERRED_REASON : string := "LOCAL_CAPACITY_DEFERRED".
Definition LOCAL_CAPACITY_UNSATISFIABLE_REASON : string := "LOCAL_CAPACITY_UNSATISFIABLE".
Definition LOCAL_CAPACITY_RESERVATION_DEFAULTED_REASON : string :=
  "LOCAL_CAPACITY_RESERVATION_DEFAULTED".

Record QueueDecision : Type := {
  qd_workspace_id : string;
  qd_task_id : string;
  qd_attempt_id : string;
  qd_decision : string;
  qd_reason_code : string;
  qd_class_priority : Z;
  qd_computed_priority : Z;
  qd_age_boost : Z;
  qd_retry_bonus : Z;
  qd_resource_summary : dict;
  qd_overlap_risk_summary : dict;
  qd_score_summary : dict;
  qd_decided_at : Z
}.

(** The attempt of a workspace, as its task and its id, and its latest decision. *)
Record CapacityQueueDecisionContext : Type := {
  cx_attempt : option (string * string);
  cx_latest_decision : option QueueDecision
}.

Definition capacity_deferred_decision_matches (decision : option QueueDecision)
    (attempt_id reason_code : string) (blockers : list LocalCapacityBlocker) : bool :=
  match decision with
  | None => false
  | Some d =>
      if negb (eqb (qd_attempt_id d) attempt_id)
         || negb (eqb (qd_decision d) QUEUE_DECISION_DEFERRED)
         || negb (eqb (qd_reason_code d) reason_code)
      then false
      else match blocker_signatures_from_summary (qd_resource_summary d) with
           | None => false
           | Some stored => signatures_eqb stored (blocker_signatures blockers)
           end
  end.

(** A candidate with what the page loaded for it. *)
Record AdmissionCandidate : Type := {
  ac_workspace : ScoredWorkspace;
  ac_resolved_profile : pyval;
  ac_reservation : option ResourceReservation;
  ac_context : CapacityQueueDecisionContext
}.

Definition ac_id (c : AdmissionCandidate) : string := sw_id (ac_workspace c).

Definition ac_demand (config : CapacityConfig) (c : AdmissionCandidate) : ReservationDemand :=
  reservation_demand_for_workspace (ac_id c) (ac_resolved_profile c) (ac_reservation c) config.

Section Admission.
Context (fromisoformat : string -> option datetime).

(** The row written, when one is. *)
Definition record_capacity_queue_decision (w : ScoredWorkspace) (decision reason_code : string)
    (decided_at : Z) (allocated : AllocatedReservationTotals) (demand : ReservationDemand)
    (blockers : list LocalCapacityBlocker) (context : CapacityQueueDecisionContext)
  : option QueueDecision :=
  match cx_attempt context with
  | None => None
  | Some (task_id, attempt_id) =>
      let latest := cx_latest_decision context in
      if eqb decision QUEUE_DECISION_DEFERRED
         && capacity_deferred_decision_matches latest attempt_id reason_code blockers
      then None
      else
        let score := scheduler_score_from_workspace fromisoformat w (utc decided_at) in
        let score_summary :=
          if eqb decision QUEUE_DECISION_DEFERRED
          then score_summary_with_suppression score reason_code
                 [("blockers", VList (map (fun b => VDict (blocker_payload b)) blockers))]
          else ss_score_summary score in
        let summary := capacity_resource_summary allocated demand blockers in
        let summary :=
          match latest with
          | Some d =>
              set_key summary "previous"
                (VDict (capacity_previous_resource_summary (qd_resource_summary d)))
          | None => summary
          end in
        Some {| qd_workspace_id := sw_id w; qd_task_id := task_id; qd_attempt_id := attempt_id;
                qd_decision := decision; qd_reason_code := reason_code;
                qd_class_priority := ss_class_priority score;
                qd_computed_priority := ss_effective_score score;
                qd_age_boost := ss_age_boost score; qd_retry_bonus := ss_retry_bonus score;
                qd_resource_summary := summary;
                qd_overlap_risk_summary :=
                  match latest with Some d => qd_overlap_risk_summary d | None => [] end;
                qd_score_summary := score_summary; qd_decided_at := decided_at |}
  end.

(** ** The loop *)

Record Admission : Type := {
  ad_db : Db;
  ad_claimed : list string;
  ad_allocated : AllocatedReservationTotals;
  ad_decisions : list QueueDecision
}.

Definition note_decision (st : Admission) (d : option QueueDecision) : Admission :=
  {| ad_db := ad_db st; ad_claimed := ad_claimed st; ad_allocated := ad_allocated st;
     ad_decisions := ad_decisions st ++ option_list d |}.

Definition refusal_reason (blockers : list LocalCapacityBlocker) : string :=
  if existsb lb_unsatisfiable blockers then LOCAL_CAPACITY_UNSATISFIABLE_REASON
  else LOCAL_CAPACITY_DEFERRED_REASON.

(** The dialect, the identifier and the clock of the transaction; the worker and
    its settings. *)
Context (pg : bool) (new_id : string) (now : Z) (wk : Worker) (config : CapacityConfig).

(** One candidate; [decided_at] is the [now] of the pass. *)
Definition admit_one (decided_at : Z) (st : Admission) (c : AdmissionCandidate)
  : result DbError Admission :=
  let demand := ac_demand config c in
  let blockers := local_capacity_blockers (ad_allocated st) demand config in
  match blockers with
  | _ :: _ =>
      Ok (note_decision st
            (record_capacity_queue_decision (ac_workspace c) QUEUE_DECISION_DEFERRED
               (refusal_reason blockers) decided_at (ad_allocated st) demand blockers
               (ac_context c)))
  | [] =>
      moved <-? transition_if_current pg (ad_db st) new_id now (ac_id c) requested provisioning
                  "WORKER_CLAIMED" [] ;;
      match moved with
      | None => Ok st
      | Some db' =>
          Ok {| ad_db := update_row db' (ac_id c) (apply_execution_claim wk);
                ad_claimed := ad_claimed st ++ [ac_id c];
                ad_allocated := add_demand (ad_allocated st) demand;
                ad_decisions :=
                  ad_decisions st
                  ++ (if rd_defaulted demand
                      then option_list
                             (record_capacity_queue_decision (ac_workspace c)
                                QUEUE_DECISION_ORDERED
                                LOCAL_CAPACITY_RESERVATION_DEFAULTED_REASON decided_at
                                (ad_allocated st) demand [] (ac_context c))
                      else []) |}
      end
  end.

Fixpoint admit_all (decided_at claim_slots : Z) (st : Admission)
    (candidates : list AdmissionCandidate) : result DbError Admission :=
  match candidates with
  | [] => Ok st
  | c :: rest =>
      if claim_slots <=? Z.of_nat (length (ad_claimed st)) then Ok st
      else st' <-? admit_one decided_at st c ;; admit_all decided_at claim_slots st' rest
  end.

(** [_claim_requested_capacity_candidates]; [allocated] is updated in place. *)
Definition claim_requested_capacity_candidates (db : Db) (candidates : list AdmissionCandidate)
    (allocated : AllocatedReservationTotals) (claim_slots decided_at : Z)
  : result DbError Admission :=
  admit_all decided_at claim_slots
    {| ad_db := db; ad_claimed := []; ad_allocated := allocated; ad_decisions := [] |} candidates.
End Admission.

(** ** Facts about admission

    What one candidate does to the state, what a whole pass does, and that the
    running totals never leave the configured limits. *)

Section Facts.
Context (fromisoformat : string -> option datetime).
Context (pg : bool) (new_id : string) (now : Z) (wk : Worker) (config : CapacityConfig).

(** The row of a claimed candidate. *)
Definition claimed_row (w : Workspace) : Workspace :=
  apply_execution_claim wk (moved_row now requested provisioning "WORKER_CLAIMED" w).

Lemma claimed_row_spec (w : Workspace) :
  l_status (w_life (claimed_row w)) = status_value provisioning /\
  x_claimed_by (w_exec (claimed_row w)) = Some (worker_id wk) /\
  x_epoch (w_exec (claimed_row w)) = x_epoch (w_exec w) + 1.
Proof.
  pose proof (moved_epoch now requested provisioning "WORKER_CLAIMED" w) as He.
  destruct (moved_life now requested provisioning "WORKER_CLAIMED" w) as (Hs & _).
  unfold claimed_row, apply_execution_claim. cbn [w_life w_exec x_claimed_by x_epoch].
  by rewrite He.
Qed.

(** The three outcomes of one candidate. *)
Inductive admitted_one (st : Admission) (c : AdmissionCandidate) (st' : Admission) : Prop :=
| refused :
    local_capacity_blockers (ad_allocated st) (ac_demand config c) config <> [] ->
    ad_db st' = ad_db st -> ad_claimed st' = ad_claimed st ->
    ad_allocated st' = ad_allocated st -> admitted_one st c st'
| not_current :
    local_capacity_blockers (ad_allocated st) (ac_demand config c) config = [] ->
    select_current (ad_db st) (ac_id c) requested [] = None ->
    st' = st -> admitted_one st c st'
| claimed (w : Workspace) :
    local_capacity_blockers (ad_allocated st) (ac_demand config c) config = [] ->
    workspaces (ad_db st) !! ac_id c = Some w ->
    l_status (w_life w) = status_value requested ->
    workspaces (ad_db st') = <[ac_id c := claimed_row w]> (workspaces (ad_db st)) ->
    step (ad_db st) (ad_db st') ->
    ad_claimed st' = ad_claimed st ++ [ac_id c] ->
    ad_allocated st' = add_demand (ad_allocated st) (ac_demand config c) -> admitted_one st c st'.

(** The unconditional claim is the guarded one with an empty scope. *)
Lemma claim_is_step (db db' : Db) (ws : string) :
  transition_if_current pg db new_id now ws requested provisioning "WORKER_CLAIMED" [] = Ok (Some db') ->
  step db (update_row db' ws (apply_execution_claim wk)).
Proof.
  intros H. apply (step_claim_requested pg new_id now wk ws 1 (fun _ => true) db _ true).
  unfold claim_requested_for_provisioning. rewrite cas_dialect in H. simpl.
  rewrite cas_dialect. unfold transition_if_current_locked, select_current in *. simpl in *.
  by rewrite H.
Qed.

Lemma admit_one_spec (decided_at : Z) (st st' : Admission) (c : AdmissionCandidate) :
  admit_one fromisoformat pg new_id now wk config decided_at st c = Ok st' -> admitted_one st c st'.
Proof.
  unfold admit_one.
  destruct (local_capacity_blockers _ _ _) as [|b bs] eqn:Eb.
  - destruct (transition_if_current _ _ _ _ _ _ _ _ _) as [[db'|]|e] eqn:E; [| |done]; simpl.
    + intros [= <-]. pose proof (claim_is_step _ _ _ E) as Hstep.
      apply cas_some in E as (w & Hs & _ & Hd). apply select_current_spec in Hs as [Hw Hst].
      eapply claimed; try done. simpl. by rewrite Hd, alter_insert_eq.
    + intros [= <-]. apply not_current; [done| |done].
      rewrite cas_dialect in E. unfold transition_if_current_locked in E. simpl in E.
      destruct (select_current _ _ _ _); [|done].
      destruct (finish_transition _ _ _ _ _ _ _ _ _); done.
  - intros [= <-]. apply refused; [by rewrite Eb|done..].
Qed.

(** ** The whole pass *)

(** The totals after some admitted candidates. *)
Definition totals_after (allocated : AllocatedReservationTotals) (l : list AdmissionCandidate)
  : AllocatedReservationTotals :=
  fold_left add_demand (map (ac_demand config) l) allocated.

(** Which candidates were admitted, and what that did. *)
Record pass (st st' : Admission) (candidates admitted : list AdmissionCandidate) : Prop := {
  pass_sublist : admitted `sublist_of` candidates;
  pass_claimed : ad_claimed st' = ad_claimed st ++ map ac_id admitted;
  pass_allocated : ad_allocated st' = totals_after (ad_allocated st) admitted;
  pass_fits : admitted <> [] -> fits config (allocated_in (ad_allocated st')) = true;
  pass_NoDup : NoDup (map ac_id admitted);
  pass_rows : forall id, id ∈ map ac_id admitted -> exists w,
    workspaces (ad_db st) !! id = Some w /\ l_status (w_life w) = status_value requested /\
    workspaces (ad_db st') !! id = Some (claimed_row w);
  pass_others : forall id, (id ∉ map ac_id admitted) ->
    workspaces (ad_db st') !! id = workspaces (ad_db st) !! id;
  pass_steps : unattended (ad_db st) (ad_db st')
}.

Lemma pass_nil (st : Admission) (candidates : list AdmissionCandidate) : pass st st candidates [].
Proof.
  split; simpl; try done; [apply sublist_nil_l|by rewrite app_nil_r|constructor|].
  intros id Hid. by apply elem_of_nil in Hid.
Qed.

(** A candidate that leaves the rows and the totals alone can be dropped. *)
Lemma pass_skip (st st1 st' : Admission) (c : AdmissionCandidate)
    (candidates admitted : list AdmissionCandidate) :
  ad_db st1 = ad_db st -> ad_claimed st1 = ad_claimed st -> ad_allocated st1 = ad_allocated st ->
  pass st1 st' candidates admitted -> pass st st' (c :: candidates) admitted.
Proof.
  intros Hd Hc Ha []. rewrite Hd, Hc, Ha in *. split; try done. by apply sublist_cons.
Qed.

Lemma pass_claim (st st1 st' : Admission) (c : AdmissionCandidate) (w : Workspace)
    (candidates admitted : list AdmissionCandidate) :
  local_capacity_blockers (ad_allocated st) (ac_demand config c) config = [] ->
  workspaces (ad_db st) !! ac_id c = Some w -> l_status (w_life w) = status_value requested ->
  workspaces (ad_db st1) = <[ac_id c := claimed_row w]> (workspaces (ad_db st)) ->
  step (ad_db st) (ad_db st1) -> ad_claimed st1 = ad_claimed st ++ [ac_id c] ->
  ad_allocated st1 = add_demand (ad_allocated st) (ac_demand config c) ->
  pass st1 st' candidates admitted -> pass st st' (c :: candidates) (c :: admitted).
Proof.
  intros Hb Hw Hst Hd Hstep Hc Ha [Hsub Hcl Hal Hfit Hnd Hrows Hoth Hsteps].
  assert (Hnew : ac_id c ∉ map ac_id admitted).
  { intros Hin. destruct (Hrows _ Hin) as (u & Hu & Hust & _).
    rewrite Hd, lookup_insert_eq in Hu. injection Hu as <-.
    destruct (claimed_row_spec w) as (Hp & _). rewrite Hp in Hust. done. }
  split.
  - by apply sublist_skip.
  - by rewrite Hcl, Hc, <- app_assoc.
  - by rewrite Hal, Ha.
  - intros _. destruct admitted as [|a l]; [|by apply Hfit].
    rewrite Hal. unfold totals_after. simpl. rewrite Ha. by apply blockers_nil in Hb as [_ Hf].
  - by constructor.
  - intros id [->|Hin]%elem_of_cons.
    + exists w. split; [done|]. split; [done|].
      by rewrite (Hoth _ Hnew), Hd, lookup_insert_eq.
    + destruct (Hrows _ Hin) as (u & Hu & Hust & Hu'). exists u.
      rewrite Hd, lookup_insert_ne in Hu by (intros <-; done). done.
  - intros id [Hne Hin]%not_elem_of_cons.
    by rewrite (Hoth _ Hin), Hd, lookup_insert_ne by done.
  - by eapply rtc_l.
Qed.

Lemma admit_all_pass (decided_at slots : Z) (candidates : list AdmissionCandidate)
    (st st' : Admission) :
  admit_all fromisoformat pg new_id now wk config decided_at slots st candidates = Ok st' ->
  exists admitted, pass st st' candidates admitted.
Proof.
  revert st. induction candidates as [|c rest IH]; intros st; simpl.
  - intros [= <-]. exists []. apply pass_nil.
  - destruct (slots <=? _); [intros [= <-]; exists []; apply pass_nil|].
    destruct (admit_one _ _ _ _ _ _ _ _ _) as [st1|e] eqn:E; [|done]. simpl.
    intros H. destruct (IH _ H) as (l & Hl).
    destruct (admit_one_spec _ _ _ _ E) as [_ Hd Hc Ha|_ _ ->|w Hb Hw Hst Hd Hs Hc Ha].
    + exists l. by eapply pass_skip.
    + exists l. by eapply pass_skip.
    + exists (c :: l). by eapply pass_claim.
Qed.

Lemma admit_all_bound (decided_at slots : Z) (candidates : list AdmissionCandidate)
    (st st' : Admission) :
  admit_all fromisoformat pg new_id now wk config decided_at slots st candidates = Ok st' ->
  Z.of_nat (length (ad_claimed st')) <= Z.max slots (Z.of_nat (length (ad_claimed st))).
Proof.
  revert st. induction candidates as [|c rest IH]; intros st; simpl; [intros [= <-]; lia|].
  destruct (slots <=? _) eqn:Es; [intros [= <-]; lia|]. apply Z.leb_gt in Es.
  destruct (admit_one _ _ _ _ _ _ _ _ _) as [st1|e] eqn:E; [|done]. simpl.
  intros H%IH. apply admit_one_spec in E as [_ _ Hc _|_ _ ->|w _ _ _ _ _ Hc _]; [rewrite Hc in H; lia|lia|].
  rewrite Hc, length_app in H. simpl in H. lia.
Qed.

(** A candidate the pass reached and did not claim was refused on the totals of
    that moment, or its row was no longer requested. *)
Lemma admit_all_refusals (decided_at slots : Z) (candidates : list AdmissionCandidate)
    (st st' : Admission) (c : AdmissionCandidate) :
  admit_all fromisoformat pg new_id now wk config decided_at slots st candidates = Ok st' ->
  Z.of_nat (length (ad_claimed st')) < slots -> c ∈ candidates -> (ac_id c ∉ ad_claimed st') ->
  exists before, before `sublist_of` candidates /\
    ad_claimed st ++ map ac_id before `prefix_of` ad_claimed st' /\
    (local_capacity_blockers (totals_after (ad_allocated st) before) (ac_demand config c) config
       <> [] \/
     exists db1, unattended (ad_db st) db1 /\ select_current db1 (ac_id c) requested [] = None).
Proof.
  revert st. induction candidates as [|d rest IH]; intros st; simpl;
    [intros _ _ Hc; by apply elem_of_nil in Hc|].
  intros H Hslots Hc Hnot.
  destruct (slots <=? _) eqn:Es; [injection H as <-; apply Z.leb_le in Es; lia|].
  destruct (admit_one _ _ _ _ _ _ _ _ _) as [st1|e] eqn:E; [|done]. simpl in H.
  pose proof (admit_one_spec _ _ _ _ E) as Hone.
  apply elem_of_cons in Hc as [->|Hc].
  - destruct (admit_all_pass _ _ _ _ _ H) as (l & [_ Hl _ _ _ _ _ _]).
    assert (Hpre : ad_claimed st1 `prefix_of` ad_claimed st') by (rewrite Hl; by eexists).
    exists []. split; [apply sublist_nil_l|]. simpl. rewrite app_nil_r.
    destruct Hone as [Hb _ Hcl _|_ Hs ->|w _ _ _ _ _ Hcl _].
    + rewrite Hcl in Hpre. split; [done|by left].
    + split; [done|]. right. by exists (ad_db st).
    + destruct Hnot. rewrite Hl, Hcl. set_solver.
  - destruct (IH _ H Hslots Hc Hnot) as (before & Hsub & Hpre & Hor).
    destruct Hone as [_ Hd Hcl Ha|_ _ ->|w _ _ _ _ Hstep Hcl Ha].
    + exists before. rewrite Hd, Ha in Hor. rewrite Hcl in Hpre.
      split; [by apply sublist_cons|done].
    + exists before. split; [by apply sublist_cons|done].
    + rewrite Ha in Hor. rewrite Hcl, <- app_assoc in Hpre. exists (d :: before).
      split; [by apply sublist_skip|]. split; [done|].
      destruct Hor as [Hb|(db1 & Hs & Hsel)]; [by left|right].
      exists db1. split; [by eapply rtc_l|done].
Qed.

(** ** The decisions *)

(** The decision that a candidate waits gives the reason that fits its demand. *)
Definition honest (c : AdmissionCandidate) (d : QueueDecision) : Prop :=
  qd_workspace_id d = ac_id c /\
  (qd_decision d = QUEUE_DECISION_DEFERRED ->
   qd_reason_code d = if fits config (demanded_in (ac_demand config c))
                      then LOCAL_CAPACITY_DEFERRED_REASON
                      else LOCAL_CAPACITY_UNSATISFIABLE_REASON).

Lemma recorded_fields (w : ScoredWorkspace) (decision reason_code : string) (decided_at : Z)
    (allocated : AllocatedReservationTotals) (demand : ReservationDemand)
    (blockers : list LocalCapacityBlocker) (context : CapacityQueueDecisionContext)
    (d : QueueDecision) :
  record_capacity_queue_decision fromisoformat w decision reason_code decided_at allocated demand
    blockers context = Some d ->
  qd_workspace_id d = sw_id w /\ qd_decision d = decision /\ qd_reason_code d = reason_code.
Proof.
  unfold record_capacity_queue_decision. destruct (cx_attempt context) as [[task attempt]|]; [|done].
  destruct (_ && _); [done|]. by intros [= <-].
Qed.

Lemma admit_one_decisions (decided_at : Z) (st st' : Admission) (c : AdmissionCandidate) :
  admit_one fromisoformat pg new_id now wk config decided_at st c = Ok st' ->
  exists ds, ad_decisions st' = ad_decisions st ++ ds /\ Forall (honest c) ds.
Proof.
  unfold admit_one. cbv zeta.
  destruct (local_capacity_blockers _ _ _) as [|b bs] eqn:Eb.
  - destruct (transition_if_current _ _ _ _ _ _ _ _ _) as [[db'|]|]; simpl; [| |done]; intros [= <-];
      [|exists []; by rewrite app_nil_r].
    eexists. split; [done|]. destruct (rd_defaulted _); [|constructor].
    destruct (record_capacity_queue_decision _ _ _ _ _ _ _ _ _) as [d|] eqn:Ed; [|constructor].
    apply recorded_fields in Ed as (H1 & H2 & _). repeat constructor; [done|]. by rewrite H2.
  - intros [= <-]. eexists. split; [done|].
    destruct (record_capacity_queue_decision _ _ _ _ _ _ _ _ _) as [d|] eqn:Ed; [|constructor].
    apply recorded_fields in Ed as (H1 & _ & H3). repeat constructor; [done|]. intros _.
    rewrite H3, <- Eb. unfold refusal_reason. rewrite unsatisfiable_spec. by destruct (fits _ _).
Qed.

Lemma admit_all_decisions (decided_at slots : Z) (candidates : list AdmissionCandidate)
    (st st' : Admission) :
  admit_all fromisoformat pg new_id now wk config decided_at slots st candidates = Ok st' ->
  exists ds, ad_decisions st' = ad_decisions st ++ ds /\
             Forall (fun d => exists c, c ∈ candidates /\ honest c d) ds.
Proof.
  revert st. induction candidates as [|c rest IH]; intros st; simpl.
  - intros [= <-]. exists []. by rewrite app_nil_r.
  - destruct (slots <=? _); [intros [= <-]; exists []; by rewrite app_nil_r|].
    destruct (admit_one _ _ _ _ _ _ _ _ _) as [st1|e] eqn:E; [|done]. simpl.
    intros H. destruct (IH _ H) as (ds & Hds & Hall), (admit_one_decisions _ _ _ _ E) as (d1 & H1 & Hc).
    exists (d1 ++ ds). split; [by rewrite Hds, H1, app_assoc|]. apply Forall_app. split.
    + eapply Forall_impl; [exact Hc|]. intros d Hd. exists c. split; [left|done].
    + eapply Forall_impl; [exact Hall|]. intros d (c' & Hin & Hd). exists c'. split; [by right|done].
Qed.

(** C14: admission never oversubscribes a node.  After a pass that admitted anything,
    the running totals respect every configured limit in binary64 arithmetic; the
    pass claims at most the free slots, no workspace twice, only candidates in
    their order, and adds exactly their demands; each claimed row went from
    requested to provisioning under this worker with a new epoch, and every other
    row is untouched. *)
Theorem admission_within_limits (db : Db) (candidates : list AdmissionCandidate)
    (allocated : AllocatedReservationTotals) (slots decided_at : Z) (st : Admission) :
  claim_requested_capacity_candidates fromisoformat pg new_id now wk config db candidates
    allocated slots decided_at = Ok st ->
  (ad_claimed st <> [] -> fits config (allocated_in (ad_allocated st)) = true) /\
  Z.of_nat (length (ad_claimed st)) <= Z.max slots 0 /\ NoDup (ad_claimed st) /\
  (exists admitted, admitted `sublist_of` candidates /\ ad_claimed st = map ac_id admitted /\
     ad_allocated st = totals_after allocated admitted) /\
  (forall id, id ∈ ad_claimed st -> exists w w',
     workspaces db !! id = Some w /\ l_status (w_life w) = status_value requested /\
     workspaces (ad_db st) !! id = Some w' /\ l_status (w_life w') = status_value provisioning /\
     x_claimed_by (w_exec w') = Some (worker_id wk) /\ x_epoch (w_exec w') = x_epoch (w_exec w) + 1) /\
  (forall id, (id ∉ ad_claimed st) -> workspaces (ad_db st) !! id = workspaces db !! id) /\
  unattended db (ad_db st).
Proof.
  unfold claim_requested_capacity_candidates. intros H.
  pose proof (admit_all_bound _ _ _ _ _ H) as Hlen.
  destruct (admit_all_pass _ _ _ _ _ H) as (l & [Hsub Hcl Hal Hfit Hnd Hrows Hoth Hsteps]).
  simpl in *. rewrite Hcl in *. split_and!; try done.
  - intros Hne. apply Hfit. by intros ->.
  - by exists l.
  - intros id Hid. destruct (Hrows _ Hid) as (w & Hw & Hst & Hw').
    exists w, (claimed_row w). by destruct (claimed_row_spec w) as (? & ? & ?).
Qed.

(** Admission refuses nobody without a reason, and says the right one.  A candidate
    that a pass with slots to spare left unclaimed did not fit, alone or on the totals of
    the candidates admitted up to then, or its row had stopped being requested; and every
    decision that a candidate waits is about a candidate of the pass and says that it can
    never be satisfied exactly when its demand alone exceeds a limit. *)
Theorem admission_refuses_for_cause (db : Db) (candidates : list AdmissionCandidate)
    (allocated : AllocatedReservationTotals) (slots decided_at : Z) (st : Admission)
    (c : AdmissionCandidate) :
  claim_requested_capacity_candidates fromisoformat pg new_id now wk config db candidates
    allocated slots decided_at = Ok st ->
  Z.of_nat (length (ad_claimed st)) < slots -> c ∈ candidates -> (ac_id c ∉ ad_claimed st) ->
  (exists before, before `sublist_of` candidates /\ map ac_id before `prefix_of` ad_claimed st /\
     (fits config (demanded_in (ac_demand config c)) = false \/
      fits config (allocated_in (add_demand (totals_after allocated before) (ac_demand config c)))
        = false \/
      exists db1, unattended db db1 /\ select_current db1 (ac_id c) requested [] = None)) /\
  Forall (fun d => exists c', c' ∈ candidates /\ honest c' d) (ad_decisions st).
Proof.
  intros H Hs Hc Hn. split.
  - destruct (admit_all_refusals _ _ _ _ _ _ H Hs Hc Hn) as (before & Hsub & Hpre & Hor).
    exists before. split; [done|]. split; [done|]. simpl in Hor. destruct Hor as [Hb|Hd]; [|tauto].
    rewrite blockers_nil in Hb. destruct (fits _ (demanded_in _)); [|tauto].
    destruct (fits _ _); [|tauto]. by destruct Hb.
  - destruct (admit_all_decisions _ _ _ _ _ H) as (ds & -> & Hds). exact Hds.
Qed.
End Facts.

(** ** A pass on concrete tables

    The node has four cores.  The first candidate needs three and is claimed; the
    second no longer fits; the third needs five and never will. *)

Definition no_datetime (text : string) : option datetime := None.

Definition sample_config : CapacityConfig :=
  Eval vm_compute in
  {| cc_local_capacity_cpu_cores := Some (float_of_Z 4); cc_local_capacity_memory_gb := None;
     cc_local_capacity_dind_slots := Some 1; cc_workspace_steady_cpu := float_of_Z 3;
     cc_workspace_steady_memory_gb := float_of_Z 10; cc_workspace_peak_cpu := float_of_Z 3;
     cc_workspace_peak_memory_gb := float_of_Z 16 |}.

Definition sample_totals : AllocatedReservationTotals :=
  Eval vm_compute in
  {| al_workspace_count := 0; al_steady_cpu := float_of_Z 0; al_steady_memory_gb := float_of_Z 0;
     al_peak_cpu := float_of_Z 0; al_peak_memory_gb := float_of_Z 0; al_disk_mb := 0;
     al_dind_slots := 0 |}.

Definition sample_reservation (ws : string) (cpu : Z) : ResourceReservation :=
  {| rv_workspace_id := ws; rv_steady_cpu := float_of_Z cpu; rv_steady_memory_gb := float_of_Z 1;
     rv_peak_cpu := float_of_Z cpu; rv_peak_memory_gb := float_of_Z 1; rv_disk_mb := None;
     rv_dind_slots := 0 |}.

Definition sample_requested (ws : string) (reservation : option ResourceReservation)
  : AdmissionCandidate :=
  {| ac_workspace := {| sw_id := ws; sw_agent := "codex"; sw_task_class := Some "test_task";
                        sw_task_policy := VNone; sw_created_at := 0 |};
     ac_resolved_profile := VNone; ac_reservation := reservation;
     ac_context := {| cx_attempt := Some ("t", "a"); cx_latest_decision := None |} |}.

Definition sample_candidates : list AdmissionCandidate :=
  [sample_requested "ws" None; sample_requested "ws_2" (Some (sample_reservation "ws_2" 2));
   sample_requested "ws_3" (Some (sample_reservation "ws_3" 5))].

Definition sample_pass : result DbError Admission :=
  claim_requested_capacity_candidates no_datetime true "c" 5 (sample_worker "w1") sample_config
    (sample_db requested None None) sample_candidates sample_totals 3 7.

Example sample_pass_outcome :
  match sample_pass with
  | Ok st => ad_claimed st = ["ws"] /\
             map qd_reason_code (ad_decisions st) =
               [LOCAL_CAPACITY_RESERVATION_DEFAULTED_REASON; LOCAL_CAPACITY_DEFERRED_REASON;
                LOCAL_CAPACITY_UNSATISFIABLE_REASON]
  | Err _ => False
  end.
Proof. vm_compute. by split. Qed.

Lemma admission_within_limits_witness :
  exists st, sample_pass = Ok st /\
    fits sample_config (allocated_in (ad_allocated st)) = true /\
    unattended (sample_db requested None None) (ad_db st).
Proof.
  destruct sample_pass as [st|e] eqn:E; [|vm_compute in E; discriminate E].
  destruct (admission_within_limits no_datetime true "c" 5 (sample_worker "w1") sample_config
    _ sample_candidates sample_totals 3 7 st E) as (Hfit & _ & _ & _ & _ & _ & Hsteps).
  exists st. split; [reflexivity|]. split; [|exact Hsteps].
  apply Hfit. vm_compute in E. injection E as <-. discriminate.
Defined.

Lemma admission_refuses_for_cause_witness :
  exists st, sample_pass = Ok st /\
    Forall (fun d => exists c, c ∈ sample_candidates /\ honest sample_config c d) (ad_decisions st).
Proof.
  destruct sample_pass as [st|e] eqn:E; [|vm_compute in E; discriminate E].
  destruct (admission_refuses_for_cause no_datetime true "c" 5 (sample_worker "w1") sample_config
    _ sample_candidates sample_totals 3 7 st
    (sample_requested "ws_3" (Some (sample_reservation "ws_3" 5))) E) as [_ H].
  - vm_compute in E. injection E as <-. reflexivity.
  - unfold sample_candidates. right. right. left.
  - vm_compute in E. injection E as <-. apply mem_false. vm_compute. reflexivity.
  - exists st. split; [reflexivity|exact H].
Defined.
