(* ===== verification/Constraints.v ===== *)
(** * Uniqueness constraints of the tables

    The schema gives a workspace one attempt, a task one canonical attempt and an
    attempt one merge candidate ([__table_args__] in [db/models.py]).  The
    lifecycle operations keep these constraints, so that no transaction of the
    control plane is refused by the database, and under them a transition fails
    only when the state machine forbids it. *)

From S2P Require Import Prelude PyStr Status Store WorkspaceRepo Claims OperatorReset.
From S2P Require Import Lifecycle.
#[local] Open Scope Z_scope.

(** ** Unique columns *)

(** A unique index on the rows that have a key. *)
Definition unique_by {A : Type} (key : A -> option string) (m : gmap string A) : Prop :=
  forall k1 k2 v1 v2 x, m !! k1 = Some v1 -> m !! k2 = Some v2 ->
    key v1 = Some x -> key v2 = Some x -> k1 = k2.

Definition attempt_workspace (a : Attempt) : option string := Some (a_workspace_id a).
Definition canonical_task (a : Attempt) : option string :=
  if a_is_canonical_for_merge a then Some (a_task_id a) else None.
Definition candidate_attempt (c : Candidate) : option string := Some (c_attempt_id c).

Record constraints (db : Db) : Prop := {
  uq_attempt_workspace : unique_by attempt_workspace (attempts db);
  uq_canonical_task : unique_by canonical_task (attempts db);
  uq_candidate_attempt : unique_by candidate_attempt (candidates db)
}.

Section Unique.
Context {A : Type} (key : A -> option string).

Lemma unique_insert (m : gmap string A) (k : string) (v : A) :
  unique_by key m ->
  (forall k' v' x, m !! k' = Some v' -> key v = Some x -> key v' = Some x -> k' = k) ->
  unique_by key (<[k := v]> m).
Proof.
  intros Hu Hk k1 k2 v1 v2 x.
  destruct (decide (k = k1)) as [<-|H1], (decide (k = k2)) as [<-|H2];
    rewrite ?lookup_insert_eq, ?lookup_insert_ne by done; intros Hv1 Hv2; simplify_eq; try done.
  - intros Hx Hx'. symmetry. eauto.
  - intros Hx Hx'. eauto.
  - eauto.
Qed.

(** Rewriting a row without changing its key. *)
Lemma unique_update (m : gmap string A) (k : string) (v v' : A) :
  unique_by key m -> m !! k = Some v -> key v' = key v \/ key v' = None ->
  unique_by key (<[k := v']> m).
Proof.
  intros Hu Hk [Hv|Hv]; apply unique_insert; try done; intros k' w x Hw; rewrite Hv; [|done].
  intros Hx Hx'. eapply Hu; eauto.
Qed.

Lemma unique_fmap (m : gmap string A) (f : A -> A) :
  (forall v, key (f v) = key v) -> unique_by key m -> unique_by key (f <$> m).
Proof.
  intros Hf Hu k1 k2 v1 v2 x. rewrite !lookup_fmap_Some.
  intros (w1 & <- & H1) (w2 & <- & H2). rewrite !Hf. eauto.
Qed.

(** A select on a unique column finds at most one row, and the row it finds. *)
Lemma unique_select (m : gmap string A) (f : A -> bool) (x : string) :
  unique_by key m -> (forall v, f v = true -> key v = Some x) ->
  exists r, scalar_one_or_none (matching f m) = Ok r /\
    forall k v, r = Some (k, v) <-> m !! k = Some v /\ f v = true.
Proof.
  intros Hu Hf.
  assert (Hin : forall k v, (k, v) ∈ matching f m <-> m !! k = Some v /\ f v = true).
  { intros k v. unfold matching. rewrite elem_of_bfilter, elem_of_map_to_list. tauto. }
  assert (Hnd : NoDup (matching f m)) by (apply NoDup_bfilter, NoDup_map_to_list).
  destruct (matching f m) as [|[k1 v1] [|[k2 v2] l]]; simpl.
  - exists None. split; [done|]. intros k v. rewrite <- Hin.
    split; [done|]. by intros ?%elem_of_nil.
  - exists (Some (k1, v1)). split; [done|]. intros k v. rewrite <- Hin, list_elem_of_singleton.
    split; congruence.
  - exfalso. destruct (proj1 (Hin k1 v1)) as [H1 F1]; [by left|].
    destruct (proj1 (Hin k2 v2)) as [H2 F2]; [by right; left|].
    assert (k1 = k2) as <- by (eapply Hu; eauto). assert (v1 = v2) as <- by congruence.
    apply NoDup_cons in Hnd as [Hnd _]. apply Hnd. by left.
Qed.
End Unique.

(** ** The operations on attempts and candidates *)

Lemma get_attempt (db : Db) (ws : string) :
  constraints db ->
  exists r, get_by_workspace_id db ws = Ok r /\
    forall k a, r = Some (k, a) <-> attempts db !! k = Some a /\ a_workspace_id a = ws.
Proof.
  intros [Hw _ _].
  destruct (unique_select attempt_workspace (attempts db) (fun a => eqb (a_workspace_id a) ws) ws Hw)
    as (r & Hr & Hin).
  - intros a Ha. rewrite eqb_true in Ha. unfold attempt_workspace. by rewrite Ha.
  - exists r. split; [done|]. intros k a. rewrite Hin. cbv beta. rewrite eqb_true. done.
Qed.

Lemma get_canonical (db : Db) (task : string) :
  constraints db ->
  exists r, get_canonical_for_task db task = Ok r /\
    forall k a, r = Some (k, a) <-> attempts db !! k = Some a /\ canonical_task a = Some task.
Proof.
  intros [_ Hc _].
  assert (Hk : forall a, eqb (a_task_id a) task && a_is_canonical_for_merge a = true <->
                         canonical_task a = Some task).
  { intros a. unfold canonical_task. rewrite andb_true_iff, eqb_true.
    destruct (a_is_canonical_for_merge a); split; intros H; (split || destruct H); congruence. }
  destruct (unique_select canonical_task (attempts db) _ task Hc (fun a => proj1 (Hk a)))
    as (r & Hr & Hin).
  exists r. split; [done|]. intros k a. by rewrite Hin, Hk.
Qed.

Lemma get_candidate (db : Db) (aid : string) :
  constraints db ->
  exists r, get_by_attempt_id db aid = Ok r /\
    forall k c, r = Some (k, c) <-> candidates db !! k = Some c /\ c_attempt_id c = aid.
Proof.
  intros [_ _ Hc].
  destruct (unique_select candidate_attempt (candidates db) (fun c => eqb (c_attempt_id c) aid) aid
    Hc) as (r & Hr & Hin).
  - intros c Ha. rewrite eqb_true in Ha. unfold candidate_attempt. by rewrite Ha.
  - exists r. split; [done|]. intros k c. rewrite Hin. cbv beta. rewrite eqb_true. done.
Qed.

(** Rewriting an attempt row keeps the constraints when its owner and task stay
    and it does not become a second canonical attempt. *)
Lemma constraints_attempt (db : Db) (k : string) (a a' : Attempt) :
  constraints db -> attempts db !! k = Some a -> a_workspace_id a' = a_workspace_id a ->
  (forall k' b x, attempts db !! k' = Some b -> canonical_task a' = Some x ->
     canonical_task b = Some x -> k' = k) ->
  constraints (set_attempts db (<[k := a']> (attempts db))).
Proof.
  intros [Hw Hc Hd] Hk Ha Hx. split; simpl; [|by apply unique_insert|done].
  eapply unique_update; [done|exact Hk|left]. unfold attempt_workspace. by rewrite Ha.
Qed.

Lemma constraints_candidate (db : Db) (k : string) (c : Candidate) :
  constraints db ->
  (forall k' c', candidates db !! k' = Some c' -> c_attempt_id c' = c_attempt_id c -> k' = k) ->
  constraints (set_candidates db (<[k := c]> (candidates db))).
Proof.
  intros [Hw Hc Hd] Hx. split; simpl; [done|done|]. apply unique_insert; [done|].
  intros k' c' x Hk' [= <-] [= He]. eauto.
Qed.

(** An outcome written on a row that is already there. *)
Lemma constraints_outcome (db : Db) (k : string) (c : Candidate) (status : string)
    (reason : option string) (now : Z) (closed merged : option Z) :
  constraints db -> candidates db !! k = Some c ->
  constraints (set_candidates db (<[k := with_outcome c status reason now closed merged]>
                                    (candidates db))).
Proof.
  intros Hc Hk. apply constraints_candidate; [done|]. intros k' c' Hk' He.
  by eapply (uq_candidate_attempt _ Hc k' k c' c (c_attempt_id c)); [| |unfold candidate_attempt;
    by rewrite He|].
Qed.

Lemma mark_canonical_spec (db : Db) (aid : string) (a : Attempt) :
  constraints db -> attempts db !! aid = Some a ->
  exists prev db', mark_canonical_for_merge db aid a = Ok (prev, db') /\
    constraints db' /\ candidates db' = candidates db /\ tasks db' = tasks db /\
    attempts db' !! aid = Some (with_canonical a true (a_superseded_by_attempt_id a)) /\
    (forall k b, attempts db' !! k = Some b -> canonical_task b = Some (a_task_id a) -> k = aid) /\
    (forall k b, attempts db !! k = Some b -> canonical_task b = Some (a_task_id a) ->
       prev = Some k /\
       (k <> aid -> attempts db' !! k = Some (with_canonical b false (Some aid)))).
Proof.
  intros Hc Ha. unfold mark_canonical_for_merge.
  destruct (get_canonical db (a_task_id a) Hc) as (prev & -> & Hp). simpl.
  set (atts := match prev with Some _ => _ | None => _ end).
  assert (Hdb1 : constraints (set_attempts db atts) /\ atts !! aid = Some a /\
    (forall k b, atts !! k = Some b -> canonical_task b = Some (a_task_id a) -> k = aid) /\
    (forall k b, attempts db !! k = Some b -> canonical_task b = Some (a_task_id a) ->
       k <> aid -> atts !! k = Some (with_canonical b false (Some aid)))).
  { destruct prev as [[pid p]|]; subst atts; [destruct (eqb pid aid) eqn:E|]; simpl.
    - rewrite eqb_true in E. subst pid. split_and!; [by destruct db|done| |].
      + intros k b Hk Hb. by injection (proj2 (Hp k b) (conj Hk Hb)) as ->.
      + intros k b Hk Hb Hne. by injection (proj2 (Hp k b) (conj Hk Hb)) as -> _.
    - apply eqb_false in E. destruct (proj1 (Hp pid p) eq_refl) as [Hpid Hcan]. split_and!.
      + apply (constraints_attempt db pid p); try done.
      + by rewrite lookup_insert_ne.
      + intros k b. destruct (decide (pid = k)) as [<-|Hne].
        * rewrite lookup_insert_eq. by intros [= <-].
        * rewrite lookup_insert_ne by done. intros Hk Hb.
          by injection (proj2 (Hp k b) (conj Hk Hb)) as -> _.
      + intros k b Hk Hb Hne. injection (proj2 (Hp k b) (conj Hk Hb)) as -> ->.
        by rewrite lookup_insert_eq.
    - split_and!; [by destruct db|done| |]; intros k b Hk Hb;
        by pose proof (proj2 (Hp k b) (conj Hk Hb)). }
  destruct Hdb1 as (Hc1 & Ha1 & Hu & Hs). eexists _, _. split; [done|]. split_and!; try done.
  - eapply (constraints_attempt (set_attempts db atts) aid a); [exact Hc1|exact Ha1|done|].
    intros k' b x Hk' [= <-] Hb. by eapply Hu.
  - simpl. by rewrite lookup_insert_eq.
  - simpl. intros k b. destruct (decide (aid = k)) as [<-|Hne]; [done|].
    rewrite lookup_insert_ne by done. intros Hk Hb. by eapply Hu.
  - intros k b Hk Hb. rewrite (proj2 (Hp k b) (conj Hk Hb)). split; [done|]. intros Hne.
    simpl. rewrite lookup_insert_ne by done. by apply Hs.
Qed.

Lemma close_attempt_spec (db : Db) (now : Z) (aid reason : string) :
  constraints db ->
  exists db', close_open_for_attempt db now aid reason = Ok db' /\ constraints db' /\
    attempts db' = attempts db /\ tasks db' = tasks db /\
    (forall k c, candidates db' !! k = Some c -> c_attempt_id c = aid -> c_status c <> "open").
Proof.
  intros Hc. unfold close_open_for_attempt.
  destruct (get_candidate db aid Hc) as (r & -> & Hr). simpl.
  destruct r as [[cid c]|].
  - destruct (proj1 (Hr cid c) eq_refl) as [Hcid Hcaid].
    destruct (eqb (c_status c) "open") eqn:E; eexists; (split; [done|]); split_and!; try done.
    + by apply constraints_outcome.
    + intros k c'. simpl. destruct (decide (cid = k)) as [<-|Hne].
      * rewrite lookup_insert_eq. by intros [= <-].
      * rewrite lookup_insert_ne by done. intros Hk Ha.
        by injection (proj2 (Hr k c') (conj Hk Ha)) as ->.
    + intros k c' Hk Ha. injection (proj2 (Hr k c') (conj Hk Ha)) as -> ->. by apply eqb_false in E.
  - exists db. split_and!; try done. intros k c Hk Ha. by pose proof (proj2 (Hr k c) (conj Hk Ha)).
Qed.

(** The open candidate of an attempt, freshly written or refreshed. *)
Lemma create_candidate_spec (db : Db) (new_id : string) (now : Z) (task_id aid ws_id url : string)
    (w : Workspace) (head base : option string) :
  constraints db -> truthy_str (d_pr_url (w_desc w)) = Some url ->
  exists db' cid c, create_or_update_open_for_attempt db new_id now task_id aid ws_id w head base
      = Ok db' /\
    constraints db' /\ attempts db' = attempts db /\ tasks db' = tasks db /\
    candidates db' = <[cid := c]> (candidates db) /\
    c_attempt_id c = aid /\ c_status c = "open" /\ c_pr_url c = url /\ c_workspace_id c = ws_id /\
    c_task_id c = task_id /\ (forall sha, head = Some sha -> c_head_sha c = Some sha).
Proof.
  intros Hc Hurl. unfold create_or_update_open_for_attempt. rewrite Hurl.
  destruct (get_candidate db aid Hc) as (r & -> & Hr). simpl.
  assert (Hu : forall cid, match r with Some (k, _) => cid = k | None => True end ->
    forall k' c', candidates db !! k' = Some c' -> c_attempt_id c' = aid -> k' = cid).
  { intros cid Hcid k' c' Hk Ha. pose proof (proj2 (Hr k' c') (conj Hk Ha)) as ->. by subst. }
  destruct r as [[cid c]|]; simpl; do 3 eexists; (split; [reflexivity|]); split_and!; try done.
  - apply constraints_candidate; [done|]. by apply Hu.
  - by intros sha ->.
  - apply constraints_candidate; [done|]. by apply Hu.
  - by intros sha ->.
Qed.

(** The attempt that takes the canonical slot gets the open candidate; the one
    it takes it from loses its own. *)
Lemma make_canonical_spec (db : Db) (new_id : string) (now : Z) (aid ws_id url : string)
    (a : Attempt) (w : Workspace) (head base : option string) :
  constraints db -> attempts db !! aid = Some a -> truthy_str (d_pr_url (w_desc w)) = Some url ->
  exists db', make_attempt_canonical_and_create_candidate db new_id now (a_task_id a) aid a ws_id w
      head base = Ok db' /\
    constraints db' /\
    attempts db' !! aid = Some (with_canonical a true (a_superseded_by_attempt_id a)) /\
    (exists cid c, candidates db' !! cid = Some c /\ c_attempt_id c = aid /\ c_status c = "open" /\
       c_pr_url c = url /\ c_workspace_id c = ws_id /\ c_task_id c = a_task_id a /\
       forall sha, head = Some sha -> c_head_sha c = Some sha) /\
    (forall pid p, attempts db !! pid = Some p -> canonical_task p = Some (a_task_id a) ->
       pid <> aid -> attempts db' !! pid = Some (with_canonical p false (Some aid)) /\
       forall k c, candidates db' !! k = Some c -> c_attempt_id c = pid -> c_status c <> "open").
Proof.
  intros Hc Ha Hurl. unfold make_attempt_canonical_and_create_candidate.
  destruct (mark_canonical_spec db aid a Hc Ha) as
    (prev & db1 & -> & Hc1 & Hcand & _ & Haid & _ & Hprev). simpl.
  assert (H2 : exists db2,
    match prev with
    | Some pid => if negb (eqb pid aid) then close_open_for_attempt db1 now pid "CANONICAL_CHANGED"
                  else Ok db1
    | None => Ok db1
    end = Ok db2 /\ constraints db2 /\ attempts db2 = attempts db1 /\
    (forall pid, prev = Some pid -> pid <> aid -> forall k c, candidates db2 !! k = Some c ->
       c_attempt_id c = pid -> c_status c <> "open")).
  { destruct prev as [pid|]; [destruct (eqb pid aid) eqn:E|]; simpl.
    - rewrite eqb_true in E. exists db1. split_and!; try done. by intros q [= <-].
    - destruct (close_attempt_spec db1 now pid "CANONICAL_CHANGED" Hc1) as
        (db2 & -> & Hc2 & Hat & _ & Hcl). exists db2. split_and!; try done. by intros q [= <-].
    - exists db1. by split_and!. }
  destruct H2 as (db2 & -> & Hc2 & Hat2 & Hcl). simpl.
  destruct (create_candidate_spec db2 new_id now (a_task_id a) aid ws_id url w head base Hc2 Hurl)
    as (db' & cid & c & -> & Hc' & Hat' & _ & Hcs & Hca & Hst & Hpr & Hws & Htk & Hsha).
  exists db'. split; [done|]. rewrite Hat', Hat2. split_and!; try done.
  - exists cid, c. rewrite Hcs, lookup_insert_eq. by split_and!.
  - intros pid p Hpid Hp Hne. destruct (Hprev pid p Hpid Hp) as [-> Hr]. split; [by apply Hr|].
    intros k c'. rewrite Hcs. destruct (decide (cid = k)) as [<-|Hk].
    + rewrite lookup_insert_eq. intros [= <-]. congruence.
    + rewrite lookup_insert_ne by done. by eapply Hcl.
Qed.

(** ** Transitions *)

Lemma mark_merged_constraints (db : Db) (now : Z) (ws : string) :
  constraints db -> constraints (mark_workspace_merged db now ws).
Proof.
  intros Hc. unfold mark_workspace_merged. destruct (sorted_by _ _) as [|[cid c] l] eqn:E; [done|].
  assert (Hin : (cid, c) ∈ (cid, c) :: l) by by left.
  rewrite <- E, elem_of_sorted_by in Hin.
  apply elem_of_bfilter in Hin as [_ Hin%elem_of_map_to_list].
  by apply constraints_outcome.
Qed.

Lemma close_workspace_constraints (db : Db) (now : Z) (ws reason : string) :
  constraints db -> constraints (close_open_for_workspace db now ws reason).
Proof.
  intros [Hw Hc Hd]. split; [done|done|]. apply unique_fmap; [|done].
  intros c. by destruct (_ && _).
Qed.

Lemma sync_candidates_total (db : Db) (new_id : string) (now : Z) (ws : string) (w : Workspace)
    (attempt : option (string * Attempt)) (to : WorkspaceStatus) :
  constraints db -> (forall aid a, attempt = Some (aid, a) -> attempts db !! aid = Some a) ->
  exists db', sync_merge_candidate_lifecycle db new_id now ws w attempt to = Ok db' /\
    constraints db'.
Proof.
  intros Hc Ha. unfold sync_merge_candidate_lifecycle.
  destruct (eqb to monitoring_pr).
  - destruct attempt as [[aid a]|]; [|by exists db].
    destruct (truthy_str _) as [url|] eqn:E; [|by exists db].
    case_bool_decide; [|by exists db].
    destruct (make_canonical_spec db new_id now aid ws url a w (d_monitor_last_commit_sha (w_desc w))
      (d_base_commit (w_desc w)) Hc (Ha _ _ eq_refl) E) as (db' & -> & Hc' & _). eauto.
  - destruct (eqb to completed); [eauto using mark_merged_constraints|].
    destruct (mem _ _); eauto using close_workspace_constraints.
Qed.

Lemma set_attempt_constraints (db : Db) (ws : string) (found : option (string * Attempt))
    (to : WorkspaceStatus) :
  constraints db -> (forall k a, found = Some (k, a) <-> attempts db !! k = Some a /\
                                                         a_workspace_id a = ws) ->
  let '(attempt, db1) := set_attempt_status db found to in
  constraints db1 /\ forall aid a, attempt = Some (aid, a) -> attempts db1 !! aid = Some a.
Proof.
  intros Hc Hf. destruct found as [[aid a]|]; simpl; [|done].
  destruct (proj1 (Hf aid a) eq_refl) as [Haid _]. split.
  - eapply constraints_attempt; [done|exact Haid|done|]. intros k' b x Hk' Hx Hb.
    by eapply (uq_canonical_task _ Hc k' aid b a x).
  - intros k b [= <- <-]. by rewrite lookup_insert_eq.
Qed.

Lemma finish_total (db : Db) (new_id : string) (now : Z) (ws : string) (w : Workspace)
    (old_state : string) (to : WorkspaceStatus) (reason : string) (order : Z) :
  constraints db ->
  exists db', finish_transition db new_id now ws w old_state to reason order = Ok db' /\
    constraints db'.
Proof.
  intros Hc. unfold finish_transition.
  destruct (get_attempt db ws Hc) as (found & -> & Hf). simpl.
  pose proof (set_attempt_constraints db ws found to Hc Hf) as Hs.
  destruct (set_attempt_status db found to) as [attempt db1]. destruct Hs as [Hc1 Ha].
  destruct (sync_candidates_total db1 new_id now ws (with_life w (start_monitor (w_life w) to now))
    attempt to Hc1 Ha) as (db2 & -> & [Hw2 Hk2 Hd2]). simpl.
  eexists. split; [done|]. by destruct (releases_resource_reservation to).
Qed.

Lemma cas_total (pg : bool) (db : Db) (new_id : string) (now : Z) (ws : string)
    (from to : WorkspaceStatus) (reason : string) (conditions : list (Workspace -> bool)) :
  constraints db -> can_transition from to = true ->
  match select_current db ws from conditions with
  | Some _ => exists db', transition_if_current pg db new_id now ws from to reason conditions
                          = Ok (Some db') /\ constraints db'
  | None => transition_if_current pg db new_id now ws from to reason conditions = Ok None
  end.
Proof.
  intros Hc Hcan. rewrite cas_dialect. unfold transition_if_current_locked, assert_transition.
  rewrite Hcan. destruct (select_current db ws from conditions) as [w|]; [|done]. simpl.
  edestruct (finish_total db new_id now ws) as (db' & -> & Hc'); [done|]. simpl. eauto.
Qed.

(** The constraints read only two tables. *)
Lemma constraints_rows (db : Db) (m : gmap string Workspace) :
  constraints db -> constraints (set_workspaces db m).
Proof. by intros [? ? ?]. Qed.

Lemma constraints_guarded (db : Db) (ws : string) (cond : Workspace -> bool)
    (f : Workspace -> Workspace) :
  constraints db -> constraints (guarded_update db ws cond f).1.
Proof.
  intros Hc. unfold guarded_update. destruct (workspaces db !! ws) as [w|]; [|done].
  destruct (cond w); [|done]. by apply constraints_rows.
Qed.

Lemma constraints_cas (pg : bool) (db db' : Db) (new_id : string) (now : Z) (ws : string)
    (from to : WorkspaceStatus) (reason : string) (conditions : list (Workspace -> bool)) :
  constraints db ->
  transition_if_current pg db new_id now ws from to reason conditions = Ok (Some db') ->
  constraints db'.
Proof.
  intros Hc H. destruct (cas_some _ _ _ _ _ _ _ _ _ _ H) as (w & Hs & Hcan & _).
  pose proof (cas_total pg db new_id now ws from to reason conditions Hc Hcan) as Ht.
  rewrite Hs in Ht. destruct Ht as (d & Hd & Hcd). congruence.
Qed.

#[export] Hint Resolve constraints_rows constraints_guarded constraints_cas : awf.

Lemma step_constraints (db db' : Db) : step db db' -> constraints db -> constraints db'.
Proof.
  destruct 1 as [? ? ? to ? ? ? H| |? ? ? ? ? ? ? ? ? ? H|? ? ? ? ? r ? ? ? H|? ? ? ? ? r ? ?|
    ? ? ? ? ? ? ? ? ? ? ? ? ? ? ? ? H| | | | | | | | |]; intros Hc; eauto with awf;
    try by (apply constraints_rows).
  - unfold transition in H. branches H.
    edestruct (finish_total db id now ws) as (d & Hd & Hcd); [done|]. rewrite Hd in H.
    by injection H as <-.
  - unfold claim_requested_for_provisioning in H. destruct (_ <=? _); [by simplify_eq|].
    destruct (transition_if_current _ _ _ _ _ _ _ _ _) as [[d|]|] eqn:E; simplify_eq/=; [|done].
    eapply constraints_rows, constraints_cas; eauto.
  - unfold claim_paused_for_resume in H.
    destruct (transition_if_current _ _ _ _ _ _ _ _ _) as [[d|]|] eqn:E; simplify_eq/=; [|done].
    assert (constraints d) by (eapply constraints_cas; eauto). by destruct r; repeat apply constraints_rows.
  - unfold restore_paused_resume_claim.
    destruct (transition_if_current _ _ _ _ _ _ _ _ _) as [[d|]|] eqn:E; [|done|done].
    assert (constraints d) by (eapply constraints_cas; eauto). by destruct r; repeat apply constraints_rows.
  - unfold enter_blocked in H.
    destruct (transition_if_current _ _ _ _ _ _ _ _ _) as [[d|]|] eqn:E; simplify_eq/=; [|done].
    assert (constraints d) by (eapply constraints_cas; eauto). by repeat apply constraints_rows.
  - by destruct Hc.
Qed.

(** A reset writes the attempt that the workspace has and the candidate that it has. *)
Lemma reopen_constraints (db db' : Db) (now : Z) (ws : string) (w : Workspace)
    (head : option string) (reopened : bool) :
  constraints db -> reopen_candidate db now ws w head = Ok (db', reopened) -> constraints db'.
Proof.
  intros Hc. unfold reopen_candidate. destruct (get_attempt db ws Hc) as (found & -> & Hf). simpl.
  destruct found as [[aid a]|]; [|by intros [= <- _]].
  pose proof (set_attempt_constraints db ws _ monitoring_pr Hc Hf) as [Hc1 _]. simpl in Hc1.
  destruct (get_candidate _ aid Hc1) as (r & -> & _). simpl.
  destruct r as [[cid c]|]; simpl; [|by intros [= <- _]].
  set (db1 := set_attempts db _) in *.
  destruct (truthy_str (d_pr_url (w_desc w))) as [url|] eqn:Eu;
    [|unfold create_or_update_open_for_attempt; by rewrite Eu].
  edestruct (create_candidate_spec db1 cid now (c_task_id c) (c_attempt_id c) ws url w)
    as (db2 & ? & ? & -> & Hc2 & _); [done|done|]. simpl. by intros [= <- _].
Qed.

Lemma operator_constraints (db db' : Db) :
  operator_step db db' -> constraints db -> constraints db'.
Proof.
  destruct 1 as [now ws head events ty reason db db' H|now ws head ty reason db db' H]; intros Hc.
  - unfold reset_failed, reset_failed_workspace_for_remonitor in H.
    destruct (workspaces db !! ws) as [w|]; [|done].
    destruct (eqb _ _) in H; [|done]. simpl in H.
    destruct (reopen_candidate _ _ _ _ _) as [[d r]|] eqn:Er in H; [|done].
    apply reopen_constraints in Er; [|by apply constraints_rows]. simpl in H. injection H as <-.
    by repeat apply constraints_rows.
  - unfold resolve_monitor_block, resume_monitor_block in H.
    destruct (workspaces db !! ws) as [w|]; [|done]. destruct (eqb _ _) in H; [|done].
    change (assert_transition blocked monitoring_pr) with (@Ok InvalidTransition unit tt) in H.
    destruct (reopen_candidate _ _ _ _ _) as [[d r]|] eqn:Er in H; [|done].
    apply reopen_constraints in Er; [|by apply constraints_rows]. simpl in H. injection H as <-.
    by repeat apply constraints_rows.
Qed.

Lemma sync_monitoring (db : Db) (new_id : string) (now : Z) (ws : string) (w : Workspace)
    (aid : string) (a : Attempt) (url : string) :
  truthy_str (d_pr_url (w_desc w)) = Some url -> a_task_id a ∈ tasks db ->
  sync_merge_candidate_lifecycle db new_id now ws w (Some (aid, a)) monitoring_pr =
  make_attempt_canonical_and_create_candidate db new_id now (a_task_id a) aid a ws w
    (d_monitor_last_commit_sha (w_desc w)) (d_base_commit (w_desc w)).
Proof.
  intros Hu Ht. unfold sync_merge_candidate_lifecycle. rewrite eqb_refl, Hu.
  by rewrite bool_decide_eq_true_2.
Qed.

(** ** Properties *)

(** C21: the control plane never violates the schema's unique constraints: one
    attempt per workspace, one canonical attempt per task, one merge candidate per
    attempt hold after any sequence of its operations. *)
Theorem constraints_kept (db db' : Db) : steps db db' -> constraints db -> constraints db'.
Proof. induction 1 as [|? ? ? [H|H]]; eauto using step_constraints, operator_constraints. Qed.

(** On tables that satisfy the constraints a transition of an existing row
    succeeds exactly on the edges of the state machine and otherwise raises the
    error naming both states; a compare-and-set succeeds exactly when, in
    addition, the row still matches. *)
Theorem transition_outcomes (db : Db) (id : string) (now : Z) (ws : string) (w : Workspace)
    (from to : WorkspaceStatus) (reason : string) :
  constraints db -> workspaces db !! ws = Some w -> l_status (w_life w) = status_value from ->
  (if can_transition from to
   then exists db', transition db id now ws to reason = Ok db' /\ constraints db'
   else transition db id now ws to reason =
        Err (InvalidWorkspaceTransitionError {| from_state := from; to_state := to |})) /\
  forall pg conditions,
    transition_if_current pg db id now ws from to reason conditions =
    (if can_transition from to
     then if forallb (fun c => c w) conditions && recovery_allows_work db ws w
          then (db' <-? transition db id now ws to reason ;; Ok (Some db')) else Ok None
     else Err (InvalidWorkspaceTransitionError {| from_state := from; to_state := to |})).
Proof.
  intros Hc Hw Hs. unfold transition. rewrite Hw, Hs, parse_status_value.
  unfold assert_transition at 1 2. destruct (can_transition from to) eqn:E; (split; [|]).
  - simpl. eapply finish_total, Hc.
  - intros pg conditions. rewrite cas_dialect. unfold transition_if_current_locked, assert_transition,
      select_current. rewrite E, Hw, Hs, eqb_refl. simpl.
    destruct (forallb _ _ && _) eqn:Ef; [|done]. by rewrite Hs.
  - done.
  - intros pg conditions. rewrite cas_dialect. unfold transition_if_current_locked, assert_transition.
    by rewrite E.
Qed.

(** Handing a workspace with a pull request to the monitor makes its attempt
    the canonical one of the task and opens the attempt's merge candidate at the
    recorded head; the attempt that was canonical before is superseded and its
    candidate is no longer open. *)
Theorem monitoring_opens_candidate (pg : bool) (db db' : Db) (id : string) (now : Z) (ws url : string)
    (from : WorkspaceStatus) (reason : string) (conditions : list (Workspace -> bool))
    (w : Workspace) (aid : string) (a : Attempt) :
  constraints db -> workspaces db !! ws = Some w -> d_pr_url (w_desc w) = Some url -> url <> "" ->
  attempts db !! aid = Some a -> a_workspace_id a = ws -> a_task_id a ∈ tasks db ->
  transition_if_current pg db id now ws from monitoring_pr reason conditions = Ok (Some db') ->
  (exists a', attempts db' !! aid = Some a' /\ a_is_canonical_for_merge a' = true /\
     a_status a' = status_value monitoring_pr) /\
  (exists cid c, candidates db' !! cid = Some c /\ c_attempt_id c = aid /\ c_status c = "open" /\
     c_pr_url c = url /\ c_workspace_id c = ws /\ c_task_id c = a_task_id a /\
     forall sha, d_monitor_last_commit_sha (w_desc w) = Some sha -> c_head_sha c = Some sha) /\
  (forall pid p, attempts db !! pid = Some p -> canonical_task p = Some (a_task_id a) -> pid <> aid ->
     attempts db' !! pid = Some (with_canonical p false (Some aid)) /\
     forall k c, candidates db' !! k = Some c -> c_attempt_id c = pid -> c_status c <> "open").
Proof.
  intros Hc Hw Hurl Hne Ha Haw Ht. rewrite cas_dialect. unfold transition_if_current_locked.
  destruct (assert_transition _ _); [|done].
  destruct (select_current db ws from conditions) as [w0|] eqn:Es; [|done].
  apply select_current_spec in Es as [Hw0 _]. assert (w0 = w) as -> by congruence. simpl.
  set (mv := move w _ _ _).
  assert (Hd : w_desc mv = w_desc w) by (subst mv; unfold move; by destruct (transition_releases_provisioning_execution_claim _ _)).
  clearbody mv. unfold finish_transition.
  destruct (get_attempt db ws Hc) as (found & -> & Hf). simpl.
  pose proof (proj2 (Hf aid a) (conj Ha Haw)) as ->. simpl.
  set (a1 := with_status a _). set (db1 := set_attempts db _).
  set (w1 := with_life mv _). assert (Hd1 : w_desc w1 = w_desc w) by exact Hd. clearbody w1.
  assert (Hc1 : constraints db1)
    by exact (proj1 (set_attempt_constraints db ws _ monitoring_pr Hc Hf)).
  assert (Ha1 : attempts db1 !! aid = Some a1) by (simpl; by rewrite lookup_insert_eq).
  assert (Hu : truthy_str (d_pr_url (w_desc w1)) = Some url)
    by (rewrite Hd1, Hurl; simpl; by rewrite (proj2 (eqb_false url "") Hne)).
  rewrite (sync_monitoring db1 id now ws w1 aid a1 url Hu Ht).
  destruct (make_canonical_spec db1 id now aid ws url a1 w1
    (d_monitor_last_commit_sha (w_desc w1)) (d_base_commit (w_desc w1)) Hc1 Ha1 Hu)
    as (db2 & -> & _ & Hcan & Hopen & Hprev).
  simpl. intros [= <-]. simpl. rewrite Hcan. rewrite Hd1 in Hopen. split_and!; [eauto|done|].
  intros pid p Hp Hpt Hpne. apply (Hprev pid p); [|done|done].
  simpl. by rewrite lookup_insert_ne.
Qed.

(** ** Instances *)

Lemma sample_constraints (s : WorkspaceStatus) (o m : option string) :
  constraints (sample_db s o m).
Proof.
  split; simpl.
  - apply unique_insert; [|intros k' v' x Hk Hx Hy]; simpl in *.
    + intros k1 k2 v1 v2 x H1 H2. apply lookup_singleton_Some in H1 as [<- _].
      by apply lookup_singleton_Some in H2 as [<- _].
    + apply lookup_singleton_Some in Hk as [<- <-]. unfold attempt_workspace in *. simpl in *. congruence.
  - apply unique_insert; [|intros k' v' x Hk Hx Hy]; simpl in *; [|done].
    intros k1 k2 v1 v2 x H1 H2. apply lookup_singleton_Some in H1 as [<- _].
    by apply lookup_singleton_Some in H2 as [<- _].
  - intros k1 k2 v1 v2 x H1 H2. apply lookup_singleton_Some in H1 as [<- _].
    by apply lookup_singleton_Some in H2 as [<- _].
Qed.

Lemma constraints_kept_witness : constraints sample_resumed.
Proof. exact (constraints_kept _ _ sample_steps (sample_constraints blocked None None)). Defined.

Lemma transition_outcomes_witness :
  transition (sample_db running None None) "c2" 5 "ws" destroyed "X" =
  Err (InvalidWorkspaceTransitionError {| from_state := running; to_state := destroyed |}).
Proof.
  exact (proj1 (transition_outcomes _ "c2" 5 "ws" (sample_workspace running None None) running
    destroyed "X" (sample_constraints running None None) eq_refl eq_refl)).
Defined.

(** The rival's candidate closes when "ws" reaches its monitor. *)
Lemma monitoring_opens_candidate_witness :
  exists db', transition_if_current true (sample_db running None None) "c2" 5 "ws" running
                monitoring_pr "PR_OPENED" [] = Ok (Some db') /\
    forall k c, candidates db' !! k = Some c -> c_attempt_id c = "p" -> c_status c <> "open".
Proof.
  destruct (transition_if_current true (sample_db running None None) "c2" 5 "ws" running
    monitoring_pr "PR_OPENED" []) as [[d|]|] eqn:E; [|by vm_compute in E|by vm_compute in E].
  exists d. split; [reflexivity|].
  refine (proj2 (proj2 (proj2 (monitoring_opens_candidate true _ d "c2" 5 "ws" "https://forge/pr/7"
    running "PR_OPENED" [] (sample_workspace running None None) "a" (sample_attempt false running "ws")
    (sample_constraints running None None) eq_refl eq_refl _ eq_refl eq_refl _ E)) "p"
    (sample_attempt true running "old") eq_refl eq_refl _)); try discriminate.
  simpl. apply elem_of_singleton. reflexivity.
Defined.
