(* ===== verification/Controls.v ===== *)
(** * Operator controls

    [WorkspaceControlService] ([service/controls.py], with [controls_helpers.py],
    [controls_types.py], [controls_errors.py] and [controls_stack_release.py]): cancel,
    stop, refresh, validate, rebase and destroy.  Each call resolves its idempotency key
    and version first, records an operation, and moves the workspace through
    [transition].  A call is a function from the tables to the response and the new
    tables, or to the error, on which the caller's transaction is rolled back.

    The attention columns and their two writers are those of
    [db/repositories/workspace_repo_attention.py]. *)

From S2P Require Import Prelude PyStr PyTime PyFloat Json PyVal Status Store WorkspaceRepo.
From S2P Require Import Claims.
From S2P Require Import Operations Cleanup FailureCausality.
From S2P Require SecretLeases.
#[local] Open Scope Z_scope.

(** ** Tables *)

(** [awaiting_human_since] with its reason. *)
Record Attention : Type := { at_since : Z; at_reason : string }.

(** What the controls read of a workspace besides the lifecycle: the compose stack, whether
    its pull request was adopted on a hosted node, its companions' worktrees, and the branch
    it pushes to. *)
Record Runtime : Type := {
  rt_compose_project_name : option string;
  rt_compose_file_path : option string;
  rt_hosted : bool;
  rt_companions : list (string * string);
  rt_remote_push_branch : option string
}.

Definition no_runtime : Runtime :=
  {| rt_compose_project_name := None; rt_compose_file_path := None; rt_hosted := false;
     rt_companions := []; rt_remote_push_branch := None |}.

Record ControlDb : Type := {
  c_db : Db;
  c_operations : Operations;
  c_attention : gmap string Attention;
  c_leases : SecretLeases.LeaseDb;
  c_runtimes : gmap string Runtime;
  (** [failure_reason] and [failure_message]. *)
  c_failures : gmap string (option string * option string)
}.

Definition set_db (s : ControlDb) (db : Db) : ControlDb :=
  {| c_db := db; c_operations := c_operations s; c_attention := c_attention s;
     c_leases := c_leases s; c_runtimes := c_runtimes s; c_failures := c_failures s |}.
Definition set_operations (s : ControlDb) (ops : Operations) : ControlDb :=
  {| c_db := c_db s; c_operations := ops; c_attention := c_attention s;
     c_leases := c_leases s; c_runtimes := c_runtimes s; c_failures := c_failures s |}.
Definition set_attention (s : ControlDb) (a : gmap string Attention) : ControlDb :=
  {| c_db := c_db s; c_operations := c_operations s; c_attention := a;
     c_leases := c_leases s; c_runtimes := c_runtimes s; c_failures := c_failures s |}.
Definition set_leases (s : ControlDb) (l : SecretLeases.LeaseDb) : ControlDb :=
  {| c_db := c_db s; c_operations := c_operations s; c_attention := c_attention s;
     c_leases := l; c_runtimes := c_runtimes s; c_failures := c_failures s |}.
Definition set_failure (s : ControlDb) (ws : string) (reason message : option string) : ControlDb :=
  {| c_db := c_db s; c_operations := c_operations s; c_attention := c_attention s;
     c_leases := c_leases s; c_runtimes := c_runtimes s;
     c_failures := <[ws := (reason, message)]> (c_failures s) |}.

Definition note (ws ty : string) (reason : option string) (s : ControlDb) : ControlDb :=
  set_db s (add_event ws ty reason (c_db s)).

Definition status_of (s : ControlDb) (ws : string) : string :=
  match workspaces (c_db s) !! ws with Some w => l_status (w_life w) | None => "" end.

(** ** Attention *)

Definition _AWAITING_HUMAN_REASON_MAX_LENGTH : nat := 2048.

(** The episode starts only on a monitoring workspace; later reasons replace the text. *)
Definition set_workspace_attention (s : ControlDb) (ws reason : string) (now : Z) : ControlDb :=
  match workspaces (c_db s) !! ws with
  | None => s
  | Some w =>
      let clamped_reason := take_str _AWAITING_HUMAN_REASON_MAX_LENGTH reason in
      match c_attention s !! ws with
      | None =>
          if eqb (l_status (w_life w)) (status_value monitoring_pr)
          then note ws ATTENTION_REQUIRED_EVENT_TYPE None
                 (set_attention s (<[ws := {| at_since := now; at_reason := clamped_reason |}]>
                                     (c_attention s)))
          else s
      | Some a =>
          set_attention s (<[ws := {| at_since := at_since a; at_reason := clamped_reason |}]>
                             (c_attention s))
      end
  end.

Definition clear_workspace_attention (ws : string) (s : ControlDb) : ControlDb :=
  match workspaces (c_db s) !! ws, c_attention s !! ws with
  | Some _, Some _ =>
      note ws ATTENTION_CLEARED_EVENT_TYPE None (set_attention s (delete ws (c_attention s)))
  | _, _ => s
  end.

(** ** Errors and responses *)

Inductive ControlError : Type :=
| WorkspaceNotFoundError (workspace_id : string)
| ActiveWorkspaceDestroyError
| IdempotencyConflictError
| VersionConflictError (expected_version actual_version : Z)
| WorkspaceRefreshStateError (status : string)
| WorkspaceValidateStateError (status : string)
| WorkspaceValidateMissingPrUrlError (status : string)
| WorkspaceRebaseStateError (status : string)
| WorkspaceRebaseMissingPrUrlError (status : string)
| WorkspaceRebaseMissingCandidateError (workspace_id : string)
| WorkspaceRebaseActiveConflictError (operation_id error_code : string)
| Raised (e : DbError)
| UnhashableCleanup.

Definition control_error_code (e : ControlError) : string :=
  match e with
  | WorkspaceNotFoundError _ => "NOT_FOUND"
  | ActiveWorkspaceDestroyError => "WORKSPACE_ACTIVE"
  | IdempotencyConflictError => "IDEMPOTENCY_CONFLICT"
  | VersionConflictError _ _ => "VERSION_CONFLICT"
  | WorkspaceRefreshStateError _ => "WORKSPACE_STATE_NOT_REFRESHABLE"
  | WorkspaceValidateStateError _ => "WORKSPACE_STATE_NOT_VALIDATABLE"
  | WorkspaceValidateMissingPrUrlError _ | WorkspaceRebaseMissingPrUrlError _ =>
      "WORKSPACE_PR_URL_REQUIRED"
  | WorkspaceRebaseStateError _ => "WORKSPACE_STATE_NOT_REBASEABLE"
  | WorkspaceRebaseMissingCandidateError _ => "MERGE_CANDIDATE_NOT_FOUND"
  | WorkspaceRebaseActiveConflictError _ code => code
  | Raised _ | UnhashableCleanup => ""
  end.

Definition raised {A : Type} (r : result DbError A) : result ControlError A :=
  match r with Ok a => Ok a | Err e => Err (Raised e) end.

(** [WorkspaceStatus(status)] *)
Definition status_enum (status : string) : result ControlError WorkspaceStatus :=
  match parse_status status with Ok s => Ok s | Err v => Err (Raised (InvalidStatus v)) end.

Record ControlResponse : Type := {
  resp_operation_id : string;
  resp_operation_status : string;
  resp_status : string;
  resp_message : string
}.

(** [_control_response], without the warnings, which only [remonitor] records. *)
Definition _control_response (s : ControlDb) (ws op message : string) : ControlResponse :=
  {| resp_operation_id := op;
     resp_operation_status :=
       match c_operations s !! op with Some o => o_status o | None => "" end;
     resp_status := status_of s ws; resp_message := message |}.

(** ** Payloads *)

Definition _OPERATOR_API_SOURCE : string := "operator_api".
Definition _OPERATOR_CANCEL_REASON_CODE : string := "OPERATOR_CANCEL".
Definition _OPERATOR_STOP_REASON_CODE : string := "OPERATOR_STOP".
Definition _OPERATOR_VALIDATE_REASON_CODE : string := "OPERATOR_VALIDATE".
Definition _OPERATOR_REBASE_REASON_CODE : string := "OPERATOR_REBASE".
Definition _OPERATOR_DESTROY_REASON_CODE : string := "OPERATOR_DESTROY".
Definition OPERATOR_REFRESH_REASON_CODE : string := "OPERATOR_REFRESH".
Definition OPERATOR_REFRESH_EVENT_TYPE : string := "workspace.refresh_requested".
Definition _AUDIT_CONTROL_OPERATION_EVENT : string := "workspace.audit.control_operation".
Definition TERMINAL_CLEANUP_REVOKE_REASON : string := "TERMINAL_CLEANUP".
Definition _OPERATION_ERROR_MESSAGE_MAX_LENGTH : nat := 2048.

Definition _operator_operation_payload (reason : option string) (reason_code requested_action : string)
    (extra : dict) : dict :=
  update_keys [("owner", VStr _OPERATOR_API_SOURCE); ("source", VStr _OPERATOR_API_SOURCE);
               ("reason", opt_str reason); ("reason_code", VStr reason_code);
               ("requested_action", VStr requested_action)] extra.

Definition _operation_payload (payload : dict) (expected_version : option Z) : dict :=
  match expected_version with
  | Some v => set_key payload "expected_version" (VInt v)
  | None => payload
  end.

Definition _payload_matches_idempotency_identity (payload : pyval) (identity : dict)
    (identity_keys : option (list string)) : bool :=
  match payload with
  | VDict p =>
      forallb (fun key =>
                 match find_key identity key with
                 | None => true
                 | Some wanted => match find_key p key with
                                  | Some v => py_eqb v wanted
                                  | None => false
                                  end
                 end)
        (default (map fst identity) identity_keys)
  | _ => false
  end.

Definition not_none (d : dict) : dict :=
  List.filter (fun p => match p.2 with VNone => false | _ => true end) d.

Definition opt_int (o : option Z) : pyval := match o with Some n => VInt n | None => VNone end.

(** [x or y] on optional integers *)
Definition or_int (x y : option Z) : option Z :=
  match x with Some n => if n =? 0 then y else x | None => y end.

Definition _workspace_rebase_operation_context (w : Workspace) (rt : Runtime)
    (candidate_id : string) (c : Candidate) : dict :=
  let d := w_desc w in
  not_none
    [("candidate_id", VStr candidate_id); ("attempt_id", VStr (c_attempt_id c));
     ("task_id", VStr (c_task_id c));
     ("pr_number", opt_int (or_int (c_pr_number c) (d_pr_number d)));
     ("pr_url", opt_str (or_str (Some (c_pr_url c)) (d_pr_url d)));
     ("source_head_sha", opt_str (or_str (c_head_sha c) (d_monitor_last_commit_sha d)));
     ("source_base_sha", opt_str (or_str (c_base_sha c) (d_base_commit d)));
     ("target_branch", VStr (d_branch_base d));
     ("remote_branch", opt_str (or_str (rt_remote_push_branch rt) (d_branch_name d)))].

Definition _bounded_operation_error_message (message : string) : string :=
  take_str _OPERATION_ERROR_MESSAGE_MAX_LENGTH message.

(** ** Preparing an operation *)

Inductive PreparedKind : Type := exact_replay | active_coalesce.

#[export] Instance PreparedKind_eq_dec : EqDecision PreparedKind.
Proof. solve_decision. Defined.

Record PreparedOperation : Type := {
  po_workspace : Workspace;
  po_replay : option (string * Operation);
  po_kind : option PreparedKind;
  po_idempotency_key : option string
}.

Definition _require_workspace (s : ControlDb) (ws : string) : result ControlError Workspace :=
  match workspaces (c_db s) !! ws with
  | Some w => Ok w
  | None => Err (WorkspaceNotFoundError ws)
  end.

(** [idempotency_key.strip() or None] *)
Definition normal_key (key : option string) : option string :=
  match key with Some k => truthy_str (Some (strip k)) | None => None end.

(** What a request is about, beyond its key and version. *)
Record Identity : Type := {
  id_active : option dict;
  id_payload : option dict;
  id_keys : option (list string)
}.

Definition exact : Identity := {| id_active := None; id_payload := None; id_keys := None |}.

Definition payload_matches (o : Operation) (payload : dict) (i : Identity) : bool :=
  match id_payload i with
  | Some identity => _payload_matches_idempotency_identity (o_payload o) identity (id_keys i)
  | None => py_eqb (o_payload o) (VDict payload)
  end.

(** [expected_version is not None and workspace.version != expected_version] *)
Definition check_version (w : Workspace) (expected_version : option Z) : result ControlError unit :=
  match expected_version with
  | Some v => if l_version (w_life w) =? v then Ok tt
              else Err (VersionConflictError v (l_version (w_life w)))
  | None => Ok tt
  end.

(** The row under its lock, its version, and an active operation that asks for the same. *)
Definition prepare_current (s : ControlDb) (ws : string) (ty : OperationType) (i : Identity)
    (key : option string) (expected_version : option Z) : result ControlError PreparedOperation :=
  w <-? _require_workspace s ws ;;
  _ <-? check_version w expected_version ;;
  let active :=
    identity ← id_active i;
    find_active_matching_payload (c_operations s) ws ty identity 100 false in
  Ok {| po_workspace := w; po_replay := active;
        po_kind := (fun _ => active_coalesce) <$> active; po_idempotency_key := key |}.

Definition _prepare_operation (s : ControlDb) (ws : string) (ty : OperationType) (payload : dict)
    (i : Identity) (idempotency_key : option string) (expected_version : option Z)
  : result ControlError PreparedOperation :=
  let key := normal_key idempotency_key in
  match k ← key; get_by_idempotency_key (c_operations s) k with
  | Some (id, existing) =>
      if eqb (o_workspace_id existing) ws && eqb (o_type existing) (operation_type_value ty)
         && payload_matches existing payload i
      then w <-? _require_workspace s ws ;;
           Ok {| po_workspace := w; po_replay := Some (id, existing);
                 po_kind := Some exact_replay; po_idempotency_key := key |}
      else Err IdempotencyConflictError
  | None => prepare_current s ws ty i key expected_version
  end.

(** ** The steps the controls share *)

Definition _is_active (s : WorkspaceStatus) : bool :=
  mem s [requested; provisioning; ready; running; validating; pushing; monitoring_pr; blocked;
         recovering].

Definition finish_operation (s : ControlDb) (op : string) (status : OperationStatus)
    (result : dict) (error_code error_message : option string) (now : Z) : ControlDb :=
  match c_operations s !! op with
  | Some o => set_operations s (<[op := finish o status (VDict result) error_code error_message
                                          None now]> (c_operations s))
  | None => s
  end.

Definition _add_control_audit_event (ws reason_code : string) (s : ControlDb) : ControlDb :=
  note ws _AUDIT_CONTROL_OPERATION_EVENT (Some reason_code) s.

Definition TERMINAL_RUNTIME_RELEASE_EVENT_TYPE : string := "workspace.terminal_runtime_released".
Definition TERMINAL_RUNTIME_RELEASE_REASON_CODE : string := "TERMINAL_RUNTIME_RELEASED".
Definition TERMINAL_RUNTIME_RELEASE_REVOKED_EVENT_TYPE : string :=
  "workspace.terminal_runtime_release_revoked".
Definition TERMINAL_RUNTIME_RELEASE_REVOKED_REASON_CODE : string :=
  "TERMINAL_RUNTIME_RELEASE_REVOKED_ORPHAN_STOP_FAILED".
Definition HOST_PORT_TERMINAL_RELEASE_STATUSES : list string :=
  map status_value [failed; cancelled; completed; destroyed].

Definition is_release_event (e : Event) : bool :=
  mem (e_type e)
    [TERMINAL_RUNTIME_RELEASE_EVENT_TYPE; TERMINAL_RUNTIME_RELEASE_REVOKED_EVENT_TYPE]
  && match e_reason_code e with
     | Some r => mem r [TERMINAL_RUNTIME_RELEASE_REASON_CODE;
                        TERMINAL_RUNTIME_RELEASE_REVOKED_REASON_CODE]
     | None => false
     end.

(** [terminal_runtime_effectively_released_expr]: the latest of these events, which is the
    last one appended, is a release. *)
Definition effectively_released (events : list Event) : bool :=
  match last (List.filter is_release_event events) with
  | Some e => eqb (e_type e) TERMINAL_RUNTIME_RELEASE_EVENT_TYPE
  | None => false
  end.

Definition has_terminal_runtime_released_event (s : ControlDb) (ws : string) : bool :=
  match workspaces (c_db s) !! ws with
  | Some w => effectively_released (l_events (w_life w))
  | None => false
  end.

Definition note_release (ws : string) (s : ControlDb) : ControlDb :=
  note ws TERMINAL_RUNTIME_RELEASE_EVENT_TYPE (Some TERMINAL_RUNTIME_RELEASE_REASON_CODE) s.

(** [WorkspaceStackStopError] for a failed compose-down: its message. *)
Definition stack_stop_message (operation : string) (returncode : Z) (stdout stderr : string)
  : string :=
  "docker " +:+ operation +:+ " failed (exit=" +:+ pretty returncode +:+ "): "
  +:+ or_text (strip (or_text stderr stdout)) "<no output>".

Definition _stack_stop_error_from_cleanup (r : CleanupResult) : string :=
  stack_stop_message "compose down" 1 ""
    match failed_steps r with
    | [] => cr_reason_code r
    | s :: _ => default (sr_reason_code s) (truthy_str (sr_error s))
    end.

Section Controls.
(** The clock, and the identifiers a new operation and a new candidate would get. *)
Context (now : Z) (op cand : string).
(** The cleaner, and what other transactions write while it runs under [destroy]. *)
Context (cleaner : CleanupArgs -> CleanupResultLike).
Context (meanwhile : ControlDb -> ControlDb).
(** The wall clock of the lease audit, and the failure evidence in the events. *)
Context (lease_now : datetime).
Context (failure_causality : ControlDb -> string -> option FailureCausalitySnapshot).

Definition transition_to (s : ControlDb) (ws : string) (to : WorkspaceStatus) (reason : string)
  : result ControlError ControlDb :=
  db <-? raised (transition (c_db s) cand now ws to reason) ;; Ok (set_db s db).

Definition create_operation (s : ControlDb) (ws : string) (ty : OperationType)
    (status : OperationStatus) (payload : dict) (key : option string) : ControlDb :=
  set_operations s (create (c_operations s) op ws ty status (VDict payload) key now).

(** The end of a blocked pause and of an attention episode, after leaving for [cancelled]. *)
Definition clear_pauses (leaving_blocked : bool) (ws : string) (s : ControlDb) : ControlDb :=
  clear_workspace_attention ws
    (if leaving_blocked then note ws ATTENTION_CLEARED_EVENT_TYPE None s else s).

Definition runtime_of (s : ControlDb) (ws : string) : Runtime :=
  default no_runtime (c_runtimes s !! ws).

(** [Path(path) if path else None] *)
Definition cleanup_args (s : ControlDb) (ws : string) (w : Workspace)
    (companions : list (string * string)) (remove_volumes remove_worktree : bool) : CleanupArgs :=
  {| ca_workspace_id := ws; ca_repo_url := d_repo_url (w_desc w);
     ca_companion_worktrees := companions;
     ca_compose_project_name := rt_compose_project_name (runtime_of s ws);
     ca_compose_file_path := truthy_str (rt_compose_file_path (runtime_of s ws));
     ca_remove_volumes := remove_volumes; ca_remove_worktree := remove_worktree;
     ca_skip_compose := rt_hosted (runtime_of s ws) |}.

Definition run_cleaner (args : CleanupArgs) : result ControlError CleanupResult :=
  match _normalize_cleanup_result (cleaner args) with
  | Some r => Ok r
  | None => Err UnhashableCleanup
  end.

Definition _release_runtime_stack (s : ControlDb) (ws : string) (w : Workspace)
  : result ControlError CleanupResult :=
  run_cleaner (cleanup_args s ws w [] true false).

Definition _finish_stack_stop_failed_operation (s : ControlDb) (ws : string) (message : string)
  : ControlDb :=
  let s := finish_operation s op op_failed [("status", VStr (status_of s ws))]
             (Some "STACK_STOP_FAILED") (Some (_bounded_operation_error_message message)) now in
  _add_control_audit_event ws "STACK_STOP_FAILED" s.

Definition _finalize_service_stack_release (s : ControlDb) (ws : string) (r : CleanupResult)
    (reason_code success_message failure_message : string) : ControlResponse * ControlDb :=
  if negb (cleanup_ok r) then
    let s := _finish_stack_stop_failed_operation s ws (_stack_stop_error_from_cleanup r) in
    (_control_response s ws op failure_message, s)
  else
    let s :=
      if mem (status_of s ws) HOST_PORT_TERMINAL_RELEASE_STATUSES
         && eqb (cr_status r) cleanup_succeeded
         && negb (has_terminal_runtime_released_event s ws)
      then note_release ws s else s in
    let s := finish_operation s op op_succeeded
               [("status", VStr (status_of s ws)); ("cleanup", to_dict r)] None None now in
    let s := _add_control_audit_event ws reason_code s in
    (_control_response s ws op success_message, s).

Definition _stack_release_replay_message (o : Operation) (success_message failure_message : string)
  : string :=
  if eqb (o_status o) (operation_status_value op_failed) then failure_message else success_message.

(** ** Cancel and stop *)

Definition cancel_workspace (s : ControlDb) (ws : string) (reason : option string)
    (stop_stack : bool) (idempotency_key : option string) (expected_version : option Z)
  : result ControlError (ControlResponse * ControlDb) :=
  let success_message := "workspace cancellation requested" in
  let failure_message := "workspace cancelled but stack teardown failed" in
  let operation_payload :=
    _operation_payload
      (_operator_operation_payload reason _OPERATOR_CANCEL_REASON_CODE
         (operation_type_value ty_cancel) [("stop_stack", VBool stop_stack)]) expected_version in
  prepared <-? _prepare_operation s ws ty_cancel operation_payload exact idempotency_key
                 expected_version ;;
  let w := po_workspace prepared in
  match po_replay prepared with
  | Some (id, replay) =>
      Ok (_control_response s ws id
            (_stack_release_replay_message replay success_message failure_message), s)
  | None =>
      let s1 := create_operation s ws ty_cancel op_running operation_payload
                  (po_idempotency_key prepared) in
      cleanup_result <-? (if stop_stack
                          then r <-? _release_runtime_stack s1 ws w ;; Ok (Some r) else Ok None) ;;
      current <-? status_enum (l_status (w_life w)) ;;
      s2 <-? (if negb (eqb current cancelled) && can_transition current cancelled
              then s2 <-? transition_to s1 ws cancelled _OPERATOR_CANCEL_REASON_CODE ;;
                   Ok (clear_pauses (eqb current blocked) ws s2)
              else Ok (note ws "workspace.cancel_requested" (Some _OPERATOR_CANCEL_REASON_CODE)
                         s1)) ;;
      match cleanup_result with
      | Some r => Ok (_finalize_service_stack_release s2 ws r _OPERATOR_CANCEL_REASON_CODE
                        success_message failure_message)
      | None =>
          let s3 := finish_operation s2 op op_succeeded [("status", VStr (status_of s2 ws))]
                      None None now in
          let s4 := _add_control_audit_event ws _OPERATOR_CANCEL_REASON_CODE s3 in
          Ok (_control_response s4 ws op success_message, s4)
      end
  end.

Definition stop_workspace (s : ControlDb) (ws : string) (reason : option string)
    (idempotency_key : option string) (expected_version : option Z)
  : result ControlError (ControlResponse * ControlDb) :=
  let success_message := "workspace stack stopped" in
  let failure_message := "workspace stack stop failed" in
  let operation_payload :=
    _operation_payload
      (_operator_operation_payload reason _OPERATOR_STOP_REASON_CODE
         (operation_type_value ty_stop) []) expected_version in
  prepared <-? _prepare_operation s ws ty_stop operation_payload exact idempotency_key
                 expected_version ;;
  let w := po_workspace prepared in
  match po_replay prepared with
  | Some (id, replay) =>
      Ok (_control_response s ws id
            (_stack_release_replay_message replay success_message failure_message), s)
  | None =>
      let s1 := create_operation s ws ty_stop op_running operation_payload
                  (po_idempotency_key prepared) in
      cleanup_result <-? _release_runtime_stack s1 ws w ;;
      current <-? status_enum (l_status (w_life w)) ;;
      s2 <-? (if _is_active current && can_transition current cancelled
              then s2 <-? transition_to s1 ws cancelled _OPERATOR_STOP_REASON_CODE ;;
                   Ok (clear_pauses (eqb current blocked) ws s2)
              else if cleanup_ok cleanup_result
              then Ok (note ws "workspace.stack_stopped" (Some _OPERATOR_STOP_REASON_CODE) s1)
              else Ok s1) ;;
      Ok (_finalize_service_stack_release s2 ws cleanup_result _OPERATOR_STOP_REASON_CODE
            success_message failure_message)
  end.

(** ** Requests of an operation: refresh, validate, rebase *)

Definition _VALIDATE_REPLAY_STATUSES : list WorkspaceStatus :=
  [monitoring_pr; ready; running; validating].

Definition _DESTROYING_OR_DESTROYED_STATUSES : list WorkspaceStatus := [destroying; destroyed].

(** The operation that a request answers with. *)
Definition request_refresh_workspace (s : ControlDb) (ws : string) (reason : option string)
    (idempotency_key : option string) (expected_version : option Z)
  : result ControlError (string * ControlDb) :=
  let payload := _operator_operation_payload reason OPERATOR_REFRESH_REASON_CODE
                   (operation_type_value ty_refresh) [] in
  let operation_payload := _operation_payload payload expected_version in
  prepared <-? _prepare_operation s ws ty_refresh operation_payload
                 {| id_active := Some payload; id_payload := None; id_keys := None |}
                 idempotency_key expected_version ;;
  let status := l_status (w_life (po_workspace prepared)) in
  match po_replay prepared with
  | Some (id, _) =>
      if eqb (po_kind prepared) (Some exact_replay) then Ok (id, s)
      else
        current <-? status_enum status ;;
        if mem current _DESTROYING_OR_DESTROYED_STATUSES
        then Err (WorkspaceRefreshStateError status) else Ok (id, s)
  | None =>
      current <-? status_enum status ;;
      if mem current _DESTROYING_OR_DESTROYED_STATUSES
      then Err (WorkspaceRefreshStateError status)
      else
        let s1 := create_operation s ws ty_refresh op_pending operation_payload
                    (po_idempotency_key prepared) in
        Ok (op, note ws OPERATOR_REFRESH_EVENT_TYPE (Some OPERATOR_REFRESH_REASON_CODE) s1)
  end.

Definition validate_payload (reason : option string) (requested_tier : option Z) : dict :=
  let payload := _operator_operation_payload reason _OPERATOR_VALIDATE_REASON_CODE
                   (operation_type_value ty_validate) [("recovery_mode", VStr "validate_only")] in
  match requested_tier with
  | Some tier => set_key payload "requested_tier" (VInt tier)
  | None => payload
  end.

Definition request_validate_workspace (s : ControlDb) (ws : string) (reason : option string)
    (requested_tier : option Z) (idempotency_key : option string) (expected_version : option Z)
  : result ControlError (string * ControlDb) :=
  let payload := validate_payload reason requested_tier in
  let operation_payload := _operation_payload payload expected_version in
  prepared <-? _prepare_operation s ws ty_validate operation_payload
                 {| id_active := Some payload; id_payload := None; id_keys := None |}
                 idempotency_key expected_version ;;
  let w := po_workspace prepared in
  let status := l_status (w_life w) in
  current <-? status_enum status ;;
  match po_replay prepared with
  | Some (id, _) =>
      if negb (eqb (po_kind prepared) (Some exact_replay))
         && negb (mem current _VALIDATE_REPLAY_STATUSES)
      then Err (WorkspaceValidateStateError status) else Ok (id, s)
  | None =>
      if negb (eqb current monitoring_pr) then Err (WorkspaceValidateStateError status)
      else if eqb (truthy_str (d_pr_url (w_desc w))) None
      then Err (WorkspaceValidateMissingPrUrlError status)
      else
        let s1 := create_operation s ws ty_validate op_pending operation_payload
                    (po_idempotency_key prepared) in
        let s2 := note ws "workspace.validate_requested" (Some _OPERATOR_VALIDATE_REASON_CODE) s1 in
        s3 <-? transition_to s2 ws ready _OPERATOR_VALIDATE_REASON_CODE ;;
        Ok (op, s3)
  end.

(** The oldest pending or running operation of these types, among the latest hundred of
    each status. *)
Definition _find_active_operation (ops : Operations) (ws : string) (types : list string)
  : option (string * Operation) :=
  List.find (fun p => mem (o_type p.2) types)
    (sorted_by oldest_first
       (list_for_workspace ops ws (Some op_pending) 100
        ++ list_for_workspace ops ws (Some op_running) 100)).

Definition _REBASE_DESTRUCTIVE_CONFLICT_TYPES : list string :=
  map operation_type_value [ty_cancel; ty_stop; ty_destroy].

(** [order_by(created_at.desc(), id.desc()).limit(1)] of the open candidates. *)
Definition get_open_for_workspace_with_merge_inputs (db : Db) (ws : string)
  : option (string * Candidate) :=
  head (sorted_by (fun x y => (c_created_at y.2 <? c_created_at x.2)
                              || ((c_created_at y.2 =? c_created_at x.2) && str_leb y.1 x.1))
          (matching (fun c => eqb (c_workspace_id c) ws && eqb (c_status c) "open")
             (candidates db))).

Definition rebase_payload (reason : option string) : dict :=
  _operator_operation_payload reason _OPERATOR_REBASE_REASON_CODE
    (operation_type_value ty_rebase) [("recovery_mode", VStr "rebase_only")].

Definition request_rebase_workspace (s : ControlDb) (ws : string) (reason : option string)
    (idempotency_key : option string) (expected_version : option Z)
  : result ControlError (string * ControlDb) :=
  let base_payload := rebase_payload reason in
  let idempotency_payload := _operation_payload base_payload expected_version in
  prepared <-? _prepare_operation s ws ty_rebase idempotency_payload
                 {| id_active := Some base_payload; id_payload := Some idempotency_payload;
                    id_keys := Some (map fst base_payload ++ ["expected_version"]) |}
                 idempotency_key expected_version ;;
  let w := po_workspace prepared in
  let status := l_status (w_life w) in
  current <-? status_enum status ;;
  match po_replay prepared with
  | Some (id, _) =>
      if negb (eqb (po_kind prepared) (Some exact_replay)) && negb (eqb current monitoring_pr)
      then Err (WorkspaceRebaseStateError status) else Ok (id, s)
  | None =>
      match _find_active_operation (c_operations s) ws _REBASE_DESTRUCTIVE_CONFLICT_TYPES with
      | Some (id, _) => Err (WorkspaceRebaseActiveConflictError id "WORKSPACE_OPERATION_CONFLICT")
      | None =>
      match _find_active_operation (c_operations s) ws [operation_type_value ty_rebase] with
      | Some (id, _) => Err (WorkspaceRebaseActiveConflictError id "WORKSPACE_REBASE_CONFLICT")
      | None =>
      if negb (eqb current monitoring_pr) then Err (WorkspaceRebaseStateError status)
      else if eqb (truthy_str (d_pr_url (w_desc w))) None
      then Err (WorkspaceRebaseMissingPrUrlError status)
      else
        match get_open_for_workspace_with_merge_inputs (c_db s) ws with
        | None => Err (WorkspaceRebaseMissingCandidateError ws)
        | Some (cid, c) =>
            let payload :=
              _operation_payload
                (update_keys base_payload
                   (_workspace_rebase_operation_context w (runtime_of s ws) cid c))
                expected_version in
            let s1 := create_operation s ws ty_rebase op_pending payload
                        (po_idempotency_key prepared) in
            let s2 := note ws "workspace.rebase_requested" (Some _OPERATOR_REBASE_REASON_CODE) s1 in
            s3 <-? transition_to s2 ws ready _OPERATOR_REBASE_REASON_CODE ;;
            Ok (op, s3)
        end
      end
      end
  end.

(** ** Destroy *)

(** The audit events of the leases are events of the workspace too. *)
Definition _revoke_destroy_secret_leases (s : ControlDb) (ws : string)
  : ControlDb * option (list (string * pyval)) :=
  let '(leases, revoked) := SecretLeases.revoke_workspace_secret_leases (c_leases s) ws lease_now
                              TERMINAL_CLEANUP_REVOKE_REASON in
  let s1 := set_leases s leases in
  let s2 := set_db s1 (update_row (c_db s1) ws (fun w =>
              with_life w (add_events (w_life w)
                (map (fun _ => ("workspace.secret_lease", Some "SECRET_LEASE_REVOKED")) revoked)))) in
  (s2, match revoked with
       | [] => None
       | _ :: _ => Some [("revoked_count", VInt (Z.of_nat (length revoked)));
                         ("reason_code", VStr TERMINAL_CLEANUP_REVOKE_REASON)]
       end).

Definition _with_secret_lease_result (result : dict) (summary : option dict) : dict :=
  match summary with
  | None => result
  | Some s => set_key result "secret_leases" (VDict s)
  end.

(** Away from an active status, and on to [destroying]. *)
Definition start_destroying (s : ControlDb) (ws : string) (current : WorkspaceStatus)
  : result ControlError ControlDb :=
  let leaves := _is_active current && can_transition current cancelled in
  s1 <-? (if leaves
          then s1 <-? transition_to s ws cancelled _OPERATOR_DESTROY_REASON_CODE ;;
               Ok (clear_pauses (eqb current blocked) ws s1)
          else Ok s) ;;
  let current := if leaves then cancelled else current in
  if can_transition current destroying
  then transition_to s1 ws destroying _OPERATOR_DESTROY_REASON_CODE else Ok s1.

(** [step.name == "compose_down" and step.ok for step in completed_steps] *)
Definition compose_down_succeeded (r : CleanupResult) : bool :=
  existsb (fun st => eqb (sr_name st) "compose_down" && step_ok st) (completed_steps r).

(** The payload of the transitions of this call. *)
Definition destroy_event_payload (force remove_volumes remove_worktree : bool)
    (expected_version : option Z) : dict :=
  _operation_payload [("force", VBool force); ("remove_volumes", VBool remove_volumes);
                      ("remove_worktree", VBool remove_worktree)] expected_version.

(** The teardown failed: the workspace fails too, keeping its first failure. *)
Definition destroy_failed (s : ControlDb) (ws : string) (r : CleanupResult)
    (event_payload : dict) (summary : option dict) : result ControlError ControlDb :=
  let message := _bounded_operation_error_message (_cleanup_failure_message r) in
  let causality := failure_causality s ws in
  let primary := fs_primary_failure <$> causality in
  let previous := default [] (fs_secondary_failures <$> causality) in
  let secondary := [("failure_reason", VStr "cleanup_failure");
                    ("reason_code", VStr "CLEANUP_FAILED"); ("message", VStr message);
                    ("cleanup", to_dict r)] in
  let preserved := (fun p => build_preserved_failure_payload p secondary
                               (set_key event_payload "cleanup" (to_dict r)) previous) <$> primary in
  let s1 := match primary with
            | None => set_failure s ws (Some "cleanup_failure") (Some message)
            | Some p => set_failure s ws (_string (get p "failure_reason"))
                          (take_str 2048 <$> _string (get p "message"))
            end in
  status <-? status_enum (status_of s1 ws) ;;
  let reason_code := primary_failure_reason_code primary "CLEANUP_FAILED" in
  s2 <-? (if can_transition status failed then transition_to s1 ws failed reason_code
          else if eqb status failed
          then Ok (note ws SECONDARY_FAILURE_RECORDED_EVENT_TYPE (Some reason_code) s1)
          else Ok s1) ;;
  let s3 := if compose_down_succeeded r && negb (has_terminal_runtime_released_event s2 ws)
            then note_release ws s2 else s2 in
  let result := [("status", VStr (status_of s3 ws)); ("cleanup", to_dict r)] in
  let result :=
    match primary, preserved with
    | Some p, Some payload =>
        set_key (set_key (set_key result PRIMARY_FAILURE_KEY (VDict p))
          SECONDARY_FAILURE_KEY (get payload SECONDARY_FAILURE_KEY))
          SECONDARY_FAILURES_KEY (get payload SECONDARY_FAILURES_KEY)
    | _, _ => result
    end in
  let s4 := finish_operation s3 op op_failed (_with_secret_lease_result result summary)
              (Some "CLEANUP_FAILED") (Some message) now in
  Ok (_add_control_audit_event ws "CLEANUP_FAILED" s4).

Definition destroy_succeeded (s : ControlDb) (ws : string) (r : CleanupResult)
    (summary : option dict) : result ControlError ControlDb :=
  status <-? status_enum (status_of s ws) ;;
  s1 <-? (if can_transition status destroyed then transition_to s ws destroyed "DESTROYED"
          else Ok s) ;;
  let s2 := if eqb (cr_status r) cleanup_succeeded
               && negb (has_terminal_runtime_released_event s1 ws)
            then note_release ws s1 else s1 in
  let s3 := finish_operation s2 op op_succeeded
              (_with_secret_lease_result
                 [("status", VStr (status_of s2 ws)); ("cleanup", to_dict r)] summary)
              None None now in
  Ok (_add_control_audit_event ws _OPERATOR_DESTROY_REASON_CODE s3).

(** [record_ignored_stale_callback]: its payload goes into the result too. *)
Definition ignored_callback_payload (actual requested_status : string) : dict :=
  [("callback_source", VStr "service.controls"); ("callback_action", VStr "destroy_cleanup");
   ("expected_status", VStr (status_value destroying)); ("actual_status", VStr actual);
   ("requested_status", VStr requested_status); ("operation_id", VStr op);
   ("reason_code", VStr "STALE_CALLBACK_IGNORED")].

Definition destroy_ignored (s : ControlDb) (ws : string) (r : CleanupResult)
    (requested_status : WorkspaceStatus) (summary : option dict) : ControlDb :=
  let ignored := ignored_callback_payload (status_of s ws) (status_value requested_status) in
  let s1 := note ws "workspace.stale_callback_ignored" (Some "STALE_CALLBACK_IGNORED") s in
  let s2 := finish_operation s1 op op_cancelled
              (_with_secret_lease_result
                 [("status", VStr (status_of s1 ws)); ("cleanup", to_dict r);
                  ("ignored_callback", VDict ignored)] summary) None None now in
  _add_control_audit_event ws "STALE_CALLBACK_IGNORED" s2.

(** After the cleaner ran: the row is read again, under its lock. *)
Definition finish_destroy (s : ControlDb) (ws : string) (r : CleanupResult) (event_payload : dict)
    (summary : option dict) : result ControlError (ControlResponse * ControlDb) :=
  let answer message s := Ok (_control_response s ws op message, s) in
  status <-? status_enum (status_of s ws) ;;
  let requested_status := if cleanup_ok r then destroyed else failed in
  let already_failed := negb (cleanup_ok r) && eqb status failed in
  if negb (eqb status destroying) && is_callback_terminal status && negb already_failed
  then answer "workspace destroy callback ignored" (destroy_ignored s ws r requested_status summary)
  else if negb (cleanup_ok r)
  then s1 <-? destroy_failed s ws r event_payload summary ;; answer "workspace cleanup failed" s1
  else s1 <-? destroy_succeeded s ws r summary ;; answer "workspace destroyed" s1.

Definition destroy_workspace (s : ControlDb) (ws : string) (force remove_volumes remove_worktree : bool)
    (idempotency_key : option string) (expected_version : option Z)
  : result ControlError (ControlResponse * ControlDb) :=
  let operation_payload :=
    _operation_payload
      (_operator_operation_payload None _OPERATOR_DESTROY_REASON_CODE
         (operation_type_value ty_destroy)
         [("force", VBool force); ("remove_volumes", VBool remove_volumes);
          ("remove_worktree", VBool remove_worktree)]) expected_version in
  prepared <-? _prepare_operation s ws ty_destroy operation_payload exact idempotency_key
                 expected_version ;;
  let w := po_workspace prepared in
  match po_replay prepared with
  | Some (id, _) =>
      Ok (_control_response s ws id
            (if eqb (l_status (w_life w)) (status_value destroyed)
             then "workspace already destroyed" else "workspace destroy requested"), s)
  | None =>
      current <-? status_enum (l_status (w_life w)) ;;
      if _is_active current && negb force then Err ActiveWorkspaceDestroyError
      else
        let s1 := create_operation s ws ty_destroy op_running operation_payload
                    (po_idempotency_key prepared) in
        let '(s2, summary) := _revoke_destroy_secret_leases s1 ws in
        if eqb current destroyed then
          let s3 := set_db s2 (release_active_for_workspace (c_db s2) ws now) in
          let r := skipped "WORKSPACE_ALREADY_DESTROYED" in
          let s4 := finish_operation s3 op op_succeeded
                      (_with_secret_lease_result
                         [("status", VStr (status_value destroyed)); ("cleanup", to_dict r)] summary)
                      None None now in
          let s5 := _add_control_audit_event ws _OPERATOR_DESTROY_REASON_CODE s4 in
          Ok (_control_response s5 ws op "workspace already destroyed", s5)
        else
          s3 <-? start_destroying s2 ws current ;;
          r <-? run_cleaner (cleanup_args s3 ws w (rt_companions (runtime_of s3 ws))
                               remove_volumes remove_worktree) ;;
          finish_destroy (meanwhile s3) ws r
            (destroy_event_payload force remove_volumes remove_worktree expected_version) summary
  end.
End Controls.
