(* ===== verification/ControlsFacts.v ===== *)
(** * What the operator controls guarantee

    Every control is a sequence of lifecycle steps that keeps the operations recorded
    before it; a repeated request is answered by the operation it created; one version
    admits one of several concurrent requests; and the outcome of a teardown is what the
    operation, the response and the workspace report. *)

From S2P Require Import Prelude PyStr PyTime PyFloat Json PyVal Status Store WorkspaceRepo.
From S2P Require Import Claims.
From S2P Require Import Lifecycle Constraints Operations Cleanup FailureCausality.
From S2P Require Import Controls.
From S2P Require SecretLeases SecretLeasesFacts.
#[local] Open Scope Z_scope.

(** ** Later tables *)

(** Operations are never deleted, and what they are about never changes. *)
Definition same_subject (o o' : Operation) : Prop :=
  o_workspace_id o' = o_workspace_id o /\ o_type o' = o_type o /\ o_payload o' = o_payload o /\
  o_idempotency_key o' = o_idempotency_key o.

Definition ops_le (ops ops' : Operations) : Prop :=
  forall id o, ops !! id = Some o -> exists o', ops' !! id = Some o' /\ same_subject o o'.

(** [R] relates the lifecycle tables. *)
Record later_by (R : relation Db) (s s' : ControlDb) : Prop := {
  lt_db : R (c_db s) (c_db s');
  lt_ops : ops_le (c_operations s) (c_operations s');
  lt_keys : keys_unique (c_operations s) -> keys_unique (c_operations s')
}.

#[export] Instance ops_le_preorder : PreOrder ops_le.
Proof.
  split.
  - intros ops id o Ho. exists o. by split.
  - intros a b c H1 H2 id o (o1 & Ho1 & ? & ? & ? & ?)%H1. apply H2 in Ho1 as (o2 & Ho2 & ? & ? & ? & ?).
    exists o2. split; [done|]. repeat split; congruence.
Qed.

#[export] Instance later_preorder (R : relation Db) : PreOrder R -> PreOrder (later_by R).
Proof.
  intros HR. split; [by split|]. intros a b c [? ? ?] [? ? ?]. split; [by etrans|by etrans|auto].
Qed.

#[export] Instance unattended_preorder : PreOrder unattended.
Proof. unfold unattended. apply _. Qed.
#[export] Instance steps_preorder : PreOrder steps.
Proof. unfold steps. apply _. Qed.

Abbreviation later := (later_by unattended).

Lemma later_step (s s' : ControlDb) :
  step (c_db s) (c_db s') -> c_operations s' = c_operations s -> later s s'.
Proof. intros Hs Ho. split; rewrite ?Ho; [by apply rtc_once|done|done]. Qed.

(** Tables outside the lifecycle and the operations. *)
Lemma later_same (s s' : ControlDb) :
  c_db s' = c_db s -> c_operations s' = c_operations s -> later s s'.
Proof. intros Hd Ho. by split; rewrite ?Hd, ?Ho. Qed.

Lemma later_note (ws ty : string) (reason : option string) (s : ControlDb) :
  later s (note ws ty reason s).
Proof. apply later_step; [apply step_add_events|done]. Qed.

Lemma later_clear (ws : string) (s : ControlDb) : later s (clear_workspace_attention ws s).
Proof.
  unfold clear_workspace_attention. destruct (workspaces _ !! ws), (c_attention s !! ws); try done.
  etrans; [|apply later_note]. by apply later_same.
Qed.

Lemma later_pauses (b : bool) (ws : string) (s : ControlDb) : later s (clear_pauses b ws s).
Proof.
  unfold clear_pauses. etrans; [|apply later_clear]. destruct b; [apply later_note|done].
Qed.

Lemma later_attention (s : ControlDb) (ws reason : string) (now : Z) :
  later s (set_workspace_attention s ws reason now).
Proof.
  unfold set_workspace_attention. destruct (workspaces _ !! ws); [|done].
  destruct (c_attention s !! ws); [by apply later_same|]. destruct (eqb _ _); [|done].
  etrans; [|apply later_note]. by apply later_same.
Qed.

Lemma later_transition (now : Z) (cand : string) (s s' : ControlDb) (ws : string)
    (to : WorkspaceStatus) (reason : string) :
  transition_to now cand s ws to reason = Ok s' ->
  later s s' /\ c_operations s' = c_operations s /\ transition (c_db s) cand now ws to reason = Ok (c_db s').
Proof.
  unfold transition_to, raised. destruct (transition _ _ _ _ _ _) as [db|e] eqn:E; [|done].
  intros [= <-]. split_and!; [|done|done]. apply later_step; [|done]. by eapply step_transition.
Qed.

Lemma later_finish (s : ControlDb) (op : string) (status : OperationStatus) (result : dict)
    (code message : option string) (now : Z) :
  later s (finish_operation s op status result code message now).
Proof.
  unfold finish_operation. destruct (c_operations s !! op) as [o|] eqn:Eo; [|done]. split; simpl.
  - done.
  - intros id o' Ho'. destruct (decide (op = id)) as [<-|Hne].
    + rewrite lookup_insert_eq. assert (o' = o) as -> by congruence. eexists. by split.
    + rewrite lookup_insert_ne by done. exists o'. by split.
  - intros Hu. by eapply keys_unique_update.
Qed.

Lemma later_create (s : ControlDb) (op ws : string) (ty : OperationType) (status : OperationStatus)
    (payload : dict) (key : option string) (now : Z) :
  c_operations s !! op = None ->
  (forall k, key = Some k -> get_by_idempotency_key (c_operations s) k = None) ->
  later s (create_operation now op s ws ty status payload key).
Proof.
  intros Hop Hk. split; simpl.
  - done.
  - intros id o Ho. unfold create. rewrite lookup_insert_ne by congruence. exists o. by split.
  - intros Hu. by apply keys_unique_create.
Qed.

#[export] Hint Resolve later_note later_clear later_pauses later_finish : awf.

Lemma later_release (ws : string) (s : ControlDb) : later s (note_release ws s).
Proof. apply later_note. Qed.
Lemma later_audit (ws reason : string) (s : ControlDb) : later s (_add_control_audit_event ws reason s).
Proof. apply later_note. Qed.
#[export] Hint Resolve later_release later_audit : awf.

(** ** Preparing *)

(** Invert the first step of a sequence that succeeded. *)
Ltac ok_bind H x E :=
  match type of H with
  | rbind ?m _ = Ok _ => destruct m as [x|] eqn:E; [cbn [rbind] in H|discriminate H]
  end.

Lemma require_ok (s : ControlDb) (ws : string) (w : Workspace) :
  _require_workspace s ws = Ok w <-> workspaces (c_db s) !! ws = Some w.
Proof. unfold _require_workspace. destruct (workspaces _ !! ws); split; congruence. Qed.

Lemma check_version_ok (w : Workspace) (v : option Z) :
  check_version w v = Ok tt <-> forall n, v = Some n -> l_version (w_life w) = n.
Proof.
  unfold check_version. destruct v as [n|]; [|by split].
  destruct (l_version (w_life w) =? n) eqn:E; split; try done.
  - intros _ m [= <-]. by apply Z.eqb_eq.
  - intros H. specialize (H n eq_refl). apply Z.eqb_neq in E. congruence.
Qed.

Lemma find_active_elem (ops : Operations) (ws : string) (ty : OperationType) (identity : dict)
    (limit : nat) (newest : bool) (id : string) (o : Operation) :
  find_active_matching_payload ops ws ty identity limit newest = Some (id, o) ->
  ops !! id = Some o /\ o_workspace_id o = ws /\ o_type o = operation_type_value ty /\
  is_active o = true /\ payload_carries (o_payload o) identity = true.
Proof.
  unfold find_active_matching_payload. intros [Hin Hp]%find_some.
  apply list_elem_of_In, subseteq_take, elem_of_sorted_by, elem_of_op_rows in Hin as [Ho Hf].
  bool_simpl. rewrite !eqb_true in *. done.
Qed.

(** The request created nothing before, or an operation of the same workspace and kind
    answers it. *)
Definition prepared_right (s : ControlDb) (ws : string) (ty : OperationType) (key : option string)
    (expected_version : option Z) (p : PreparedOperation) : Prop :=
  workspaces (c_db s) !! ws = Some (po_workspace p) /\ po_idempotency_key p = normal_key key /\
  match po_replay p with
  | Some (id, o) => c_operations s !! id = Some o /\ o_workspace_id o = ws /\
                    o_type o = operation_type_value ty
  | None => (forall k, normal_key key = Some k ->
               get_by_idempotency_key (c_operations s) k = None) /\
            (forall v, expected_version = Some v -> l_version (w_life (po_workspace p)) = v)
  end.

Lemma prepare_right (s : ControlDb) (ws : string) (ty : OperationType) (payload : dict)
    (i : Identity) (key : option string) (v : option Z) (p : PreparedOperation) :
  _prepare_operation s ws ty payload i key v = Ok p -> prepared_right s ws ty key v p.
Proof.
  unfold _prepare_operation, prepared_right.
  destruct (k ← normal_key key; _) as [[id o]|] eqn:Ek.
  - destruct (eqb (o_workspace_id o) ws && _ && _) eqn:Em; [|done]. intros H. ok_bind H w Ew.
    injection H as <-. simpl. apply require_ok in Ew. split_and!; try done; bool_simpl;
      rewrite ?eqb_true in *; try done.
    destruct (normal_key key) as [k|]; [|done]. simpl in Ek.
    unfold get_by_idempotency_key in Ek. destruct (sorted_by _ _) as [|q l] eqn:E; [done|].
    assert (Hq : (id, o) ∈ q :: l) by (injection Ek as ->; by left).
    rewrite <- E, elem_of_sorted_by in Hq. by apply elem_of_op_rows in Hq as [? _].
  - unfold prepare_current. intros H. ok_bind H w Ew. ok_bind H u Ev. destruct u.
    injection H as <-. simpl. apply require_ok in Ew. rewrite check_version_ok in Ev.
    split_and!; try done. destruct (id_active i) as [identity|]; simpl.
    + destruct (find_active_matching_payload _ _ _ _ _ _) as [[id o]|] eqn:Ef.
      * by apply find_active_elem in Ef as (? & ? & ? & _).
      * split; [|done]. intros k Hk. by rewrite Hk in Ek.
    + split; [|done]. intros k Hk. by rewrite Hk in Ek.
Qed.

(** ** Calls *)

(** What a call finds: clock, fresh identifiers, and the world outside. *)
Record Env : Type := {
  e_now : Z;
  e_op : string;
  e_cand : string;
  e_cleaner : CleanupArgs -> CleanupResultLike;
  e_meanwhile : ControlDb -> ControlDb;
  e_lease_now : datetime;
  e_causality : ControlDb -> string -> option FailureCausalitySnapshot
}.

Inductive Request : Type :=
| Cancel (reason : option string) (stop_stack : bool)
| Stop (reason : option string)
| Refresh (reason : option string)
| Validate (reason : option string) (requested_tier : option Z)
| Rebase (reason : option string)
| Destroy (force remove_volumes remove_worktree : bool).

Definition request_type (r : Request) : OperationType :=
  match r with
  | Cancel _ _ => ty_cancel
  | Stop _ => ty_stop
  | Refresh _ => ty_refresh
  | Validate _ _ => ty_validate
  | Rebase _ => ty_rebase
  | Destroy _ _ _ => ty_destroy
  end.

Record Call : Type := {
  cl_workspace : string;
  cl_request : Request;
  cl_key : option string;
  cl_version : option Z
}.

(** The operation that answers a call, what is said of it, and the tables after. *)
Definition answer (e : Env) (s : ControlDb) (c : Call)
  : result ControlError (string * option ControlResponse * ControlDb) :=
  let ws := cl_workspace c in
  let key := cl_key c in
  let v := cl_version c in
  let controlled r := p <-? r ;; Ok (resp_operation_id p.1, Some p.1, p.2) in
  let requested r := p <-? r ;; Ok (p.1, None, p.2) in
  match cl_request c with
  | Cancel reason stop_stack =>
      controlled (cancel_workspace (e_now e) (e_op e) (e_cand e) (e_cleaner e) s ws reason
                    stop_stack key v)
  | Stop reason =>
      controlled (stop_workspace (e_now e) (e_op e) (e_cand e) (e_cleaner e) s ws reason key v)
  | Refresh reason => requested (request_refresh_workspace (e_now e) (e_op e) s ws reason key v)
  | Validate reason tier =>
      requested (request_validate_workspace (e_now e) (e_op e) (e_cand e) s ws reason tier key v)
  | Rebase reason =>
      requested (request_rebase_workspace (e_now e) (e_op e) (e_cand e) s ws reason key v)
  | Destroy force rv rw =>
      controlled (destroy_workspace (e_now e) (e_op e) (e_cand e) (e_cleaner e) (e_meanwhile e)
                    (e_lease_now e) (e_causality e) s ws force rv rw key v)
  end.

(** The identifier is new, and what runs beside a teardown is the control plane too. *)
Record fair (R : relation Db) (e : Env) (s : ControlDb) : Prop := {
  fair_op : c_operations s !! e_op e = None;
  fair_meanwhile : forall s', later_by R s' (e_meanwhile e s')
}.

(** A call that creates an operation creates [op], with its key and a payload in [P]; one
    that is answered by an operation of the workspace changes nothing. *)
Definition outcome (R : relation Db) (s s' : ControlDb) (ws : string) (ty : OperationType)
    (key : option string) (P : pyval -> Prop) (op id : string) : Prop :=
  later_by R s s' /\
  (id = op /\ (exists o, c_operations s' !! op = Some o /\ o_workspace_id o = ws /\
                 o_type o = operation_type_value ty /\ o_idempotency_key o = normal_key key /\
                 P (o_payload o)) \/
   s' = s /\ exists o, c_operations s !! id = Some o /\ o_workspace_id o = ws /\
                      o_type o = operation_type_value ty).

Section Calls.
Context (R : relation Db) `{!PreOrder R}.
Context (Hstep : forall db db', unattended db db' -> R db db').

Lemma later_weaken (s s' : ControlDb) : later s s' -> later_by R s s'.
Proof. intros [? ? ?]. split; auto. Qed.

Context (now : Z) (op cand : string).

(** The operation a request creates, when the key is new. *)
Lemma prepared_create (s : ControlDb) (ws : string) (ty : OperationType) (key : option string)
    (v : option Z) (p : PreparedOperation) (status : OperationStatus) (payload : dict) :
  c_operations s !! op = None -> prepared_right s ws ty key v p -> po_replay p = None ->
  later s (create_operation now op s ws ty status payload (po_idempotency_key p)).
Proof.
  intros Hop (_ & Hk & Hr) Hn. rewrite Hn in Hr. apply later_create; [done|]. rewrite Hk. apply Hr.
Qed.

(** It stays what it was created as. *)
Lemma created (s s' : ControlDb) (ws : string) (ty : OperationType) (key : option string)
    (v : option Z) (p : PreparedOperation) (status : OperationStatus) (payload : dict)
    (P : pyval -> Prop) :
  c_operations s !! op = None -> prepared_right s ws ty key v p -> po_replay p = None ->
  P (VDict payload) ->
  later_by R (create_operation now op s ws ty status payload (po_idempotency_key p)) s' ->
  outcome R s s' ws ty key P op op.
Proof.
  intros Hop Hp Hr HP Hl. split; [etrans; [|exact Hl]|left; split; [done|]].
  - apply later_weaken. by eapply prepared_create.
  - destruct (lt_ops _ _ _ Hl op (new_operation ws ty status (VDict payload) (po_idempotency_key p) now))
      as (o & Ho & Hw & Ht & Hpay & Hk); [apply lookup_insert_eq|].
    exists o. rewrite Hpay, Hk. by destruct Hp as (_ & -> & _).
Qed.

Lemma finalize_later (s : ControlDb) (ws : string) (r : CleanupResult) (reason m1 m2 : string) :
  later s (_finalize_service_stack_release now op s ws r reason m1 m2).2 /\
  resp_operation_id (_finalize_service_stack_release now op s ws r reason m1 m2).1 = op.
Proof.
  unfold _finalize_service_stack_release, _finish_stack_stop_failed_operation.
  destruct (negb (cleanup_ok r)); (split; [|done]); simpl.
  - etrans; [|apply later_audit]. apply later_finish.
  - etrans; [|apply later_audit]. etrans; [|apply later_finish].
    destruct (_ && _); [apply later_release|done].
Qed.

(** The payloads that the calls record. *)
Definition cancel_payload (reason : option string) (stop_stack : bool) (v : option Z) : dict :=
  _operation_payload
    (_operator_operation_payload reason _OPERATOR_CANCEL_REASON_CODE
       (operation_type_value ty_cancel) [("stop_stack", VBool stop_stack)]) v.
Definition stop_payload (reason : option string) (v : option Z) : dict :=
  _operation_payload
    (_operator_operation_payload reason _OPERATOR_STOP_REASON_CODE
       (operation_type_value ty_stop) []) v.
Definition refresh_payload (reason : option string) (v : option Z) : dict :=
  _operation_payload
    (_operator_operation_payload reason OPERATOR_REFRESH_REASON_CODE
       (operation_type_value ty_refresh) []) v.
Definition destroy_payload (force rv rw : bool) (v : option Z) : dict :=
  _operation_payload
    (_operator_operation_payload None _OPERATOR_DESTROY_REASON_CODE
       (operation_type_value ty_destroy)
       [("force", VBool force); ("remove_volumes", VBool rv); ("remove_worktree", VBool rw)]) v.

(** A rebase records where it starts besides what is asked for. *)
Definition rebase_recorded (reason : option string) (v : option Z) (payload : pyval) : Prop :=
  exists w rt cid c, payload = VDict (_operation_payload
    (update_keys (rebase_payload reason) (_workspace_rebase_operation_context w rt cid c)) v).

(** A replay, found by the key or by what is asked for. *)
Lemma replayed (s : ControlDb) (ws : string) (ty : OperationType) (key : option string)
    (v : option Z) (p : PreparedOperation) (P : pyval -> Prop) (id : string) (o : Operation) :
  prepared_right s ws ty key v p -> po_replay p = Some (id, o) ->
  outcome R s s ws ty key P op id.
Proof. intros (_ & _ & Hr) Er. rewrite Er in Hr. split; [done|right]. eauto. Qed.

Lemma cancel_outcome (cleaner : CleanupArgs -> CleanupResultLike) (s s' : ControlDb) (ws : string)
    (reason key : option string) (stop_stack : bool) (v : option Z) (resp : ControlResponse) :
  c_operations s !! op = None ->
  cancel_workspace now op cand cleaner s ws reason stop_stack key v = Ok (resp, s') ->
  outcome R s s' ws ty_cancel key (eq (VDict (cancel_payload reason stop_stack v))) op
    (resp_operation_id resp).
Proof.
  intros Hop H. unfold cancel_workspace in H. ok_bind H p Ep. apply prepare_right in Ep.
  destruct (po_replay p) as [[id o]|] eqn:Er.
  - injection H as <- <-. by eapply replayed.
  - set (s1 := create_operation _ _ _ _ _ _ _ _) in *. ok_bind H r Ec. ok_bind H cur Es.
    ok_bind H s2 E2.
    assert (H2 : later s1 s2).
    { destruct (_ && _) in E2.
      - ok_bind E2 s3 Et. apply later_transition in Et as (Ht & _ & _). injection E2 as <-.
        etrans; [exact Ht|apply later_pauses].
      - injection E2 as <-. apply later_note. }
    destruct r as [r|].
    + pose proof (finalize_later s2 ws r _OPERATOR_CANCEL_REASON_CODE
        "workspace cancellation requested" "workspace cancelled but stack teardown failed") as [Hf Hi].
      injection H as H. rewrite H in Hf, Hi. simpl in Hi. rewrite Hi.
      eapply created; [done|exact Ep|done|done|]. apply later_weaken. etrans; [exact H2|exact Hf].
    + injection H as <- <-. eapply created; [done|exact Ep|done|done|]. apply later_weaken.
      etrans; [exact H2|]. etrans; [apply later_finish|apply later_audit].
Qed.

Lemma stop_outcome (cleaner : CleanupArgs -> CleanupResultLike) (s s' : ControlDb) (ws : string)
    (reason key : option string) (v : option Z) (resp : ControlResponse) :
  c_operations s !! op = None ->
  stop_workspace now op cand cleaner s ws reason key v = Ok (resp, s') ->
  outcome R s s' ws ty_stop key (eq (VDict (stop_payload reason v))) op (resp_operation_id resp).
Proof.
  intros Hop H. unfold stop_workspace in H. ok_bind H p Ep. apply prepare_right in Ep.
  destruct (po_replay p) as [[id o]|] eqn:Er.
  - injection H as <- <-. by eapply replayed.
  - set (s1 := create_operation _ _ _ _ _ _ _ _) in *. ok_bind H r Ec. ok_bind H cur Es.
    ok_bind H s2 E2.
    assert (H2 : later s1 s2).
    { destruct (_ && _) in E2; [|destruct (cleanup_ok r) in E2].
      - ok_bind E2 s3 Et. apply later_transition in Et as (Ht & _ & _). injection E2 as <-.
        etrans; [exact Ht|apply later_pauses].
      - injection E2 as <-. apply later_note.
      - by injection E2 as <-. }
    pose proof (finalize_later s2 ws r _OPERATOR_STOP_REASON_CODE
      "workspace stack stopped" "workspace stack stop failed") as [Hf Hi].
    injection H as H. rewrite H in Hf, Hi. simpl in Hi. rewrite Hi.
    eapply created; [done|exact Ep|done|done|]. apply later_weaken. etrans; [exact H2|exact Hf].
Qed.

Lemma refresh_outcome (s s' : ControlDb) (ws : string) (reason key : option string) (v : option Z)
    (id : string) :
  c_operations s !! op = None ->
  request_refresh_workspace now op s ws reason key v = Ok (id, s') ->
  outcome R s s' ws ty_refresh key (eq (VDict (refresh_payload reason v))) op id.
Proof.
  intros Hop H. unfold request_refresh_workspace in H. ok_bind H p Ep. apply prepare_right in Ep.
  destruct (po_replay p) as [[i o]|] eqn:Er.
  - destruct (eqb _ _) in H; [|ok_bind H cur Ec; destruct (mem _ _) in H; [done|]];
      injection H as <- <-; by eapply replayed.
  - ok_bind H cur Ec. destruct (mem _ _) in H; [done|]. injection H as <- <-.
    eapply created; [done|exact Ep|done|done|]. apply later_weaken, later_note.
Qed.

Lemma validate_outcome (s s' : ControlDb) (ws : string) (reason key : option string)
    (tier v : option Z) (id : string) :
  c_operations s !! op = None ->
  request_validate_workspace now op cand s ws reason tier key v = Ok (id, s') ->
  outcome R s s' ws ty_validate key (eq (VDict (_operation_payload (validate_payload reason tier) v)))
    op id.
Proof.
  intros Hop H. unfold request_validate_workspace in H. ok_bind H p Ep. apply prepare_right in Ep.
  ok_bind H cur Ec. destruct (po_replay p) as [[i o]|] eqn:Er.
  - destruct (_ && _) in H; [done|]. injection H as <- <-. by eapply replayed.
  - destruct (negb _) in H; [done|]. destruct (eqb _ _) in H; [done|]. ok_bind H s3 Et.
    apply later_transition in Et as (Ht & _ & _). injection H as <- <-.
    eapply created; [done|exact Ep|done|done|]. apply later_weaken.
    etrans; [|exact Ht]. apply later_note.
Qed.

Lemma rebase_outcome (s s' : ControlDb) (ws : string) (reason key : option string) (v : option Z)
    (id : string) :
  c_operations s !! op = None ->
  request_rebase_workspace now op cand s ws reason key v = Ok (id, s') ->
  outcome R s s' ws ty_rebase key (rebase_recorded reason v) op id.
Proof.
  intros Hop H. unfold request_rebase_workspace in H. ok_bind H p Ep. apply prepare_right in Ep.
  ok_bind H cur Ec. destruct (po_replay p) as [[i o]|] eqn:Er.
  - destruct (_ && _) in H; [done|]. injection H as <- <-. by eapply replayed.
  - destruct (_find_active_operation _ _ _) as [[i o]|] in H; [done|].
    destruct (_find_active_operation _ _ _) as [[i o]|] in H; [done|].
    destruct (negb _) in H; [done|]. destruct (eqb _ _) in H; [done|].
    destruct (get_open_for_workspace_with_merge_inputs _ _) as [[cid c]|] in H; [|done].
    ok_bind H s3 Et. apply later_transition in Et as (Ht & _ & _). injection H as <- <-.
    eapply created; [done|exact Ep|done|by repeat eexists|]. apply later_weaken.
    etrans; [|exact Ht]. apply later_note.
Qed.

Lemma later_revoke (lease_now : datetime) (s : ControlDb) (ws : string) :
  later s (_revoke_destroy_secret_leases lease_now s ws).1.
Proof.
  unfold _revoke_destroy_secret_leases.
  destruct (SecretLeases.revoke_workspace_secret_leases _ _ _ _) as [l ids]. simpl.
  apply later_step; [|done]. apply step_add_events.
Qed.

Lemma start_destroying_later (s s' : ControlDb) (ws : string) (current : WorkspaceStatus) :
  start_destroying now cand s ws current = Ok s' -> later s s'.
Proof.
  unfold start_destroying. intros H. ok_bind H s1 E1.
  assert (H1 : later s s1).
  { destruct (_ && _) in E1; [|by injection E1 as <-]. ok_bind E1 s2 E2.
    apply later_transition in E2 as (? & _ & _). injection E1 as <-. etrans; [done|apply later_pauses]. }
  destruct (can_transition _ destroying) in H.
  - apply later_transition in H as (? & _ & _). by etrans.
  - by injection H as <-.
Qed.

Lemma destroy_failed_later (causality : ControlDb -> string -> option FailureCausalitySnapshot)
    (s s' : ControlDb) (ws : string) (r : CleanupResult) (payload : dict) (summary : option dict) :
  destroy_failed now op cand causality s ws r payload summary = Ok s' -> later s s'.
Proof.
  unfold destroy_failed. intros H. set (s1 := match _ with Some p => _ | None => _ end) in H.
  assert (H1 : later s s1) by (subst s1; destruct (fs_primary_failure <$> _); by apply later_same).
  ok_bind H cur Ec. ok_bind H s2 E2.
  assert (H2 : later s1 s2).
  { destruct (can_transition _ _) in E2; [by apply later_transition in E2 as (? & _ & _)|].
    destruct (eqb _ _) in E2; injection E2 as <-; [apply later_note|done]. }
  injection H as <-. etrans; [|apply later_audit]. etrans; [|apply later_finish].
  etrans; [exact H1|]. etrans; [exact H2|]. destruct (_ && _); [apply later_release|done].
Qed.

Lemma destroy_succeeded_later (s s' : ControlDb) (ws : string) (r : CleanupResult)
    (summary : option dict) :
  destroy_succeeded now op cand s ws r summary = Ok s' -> later s s'.
Proof.
  unfold destroy_succeeded. intros H. ok_bind H cur Ec. ok_bind H s1 E1.
  assert (H1 : later s s1).
  { destruct (can_transition _ _) in E1; [by apply later_transition in E1 as (? & _ & _)|].
    by injection E1 as <-. }
  injection H as <-. etrans; [|apply later_audit]. etrans; [|apply later_finish].
  etrans; [exact H1|]. destruct (_ && _); [apply later_release|done].
Qed.

Lemma finish_destroy_later (causality : ControlDb -> string -> option FailureCausalitySnapshot)
    (s s' : ControlDb) (ws : string) (r : CleanupResult) (payload : dict) (summary : option dict)
    (resp : ControlResponse) :
  finish_destroy now op cand causality s ws r payload summary = Ok (resp, s') ->
  later s s' /\ resp_operation_id resp = op.
Proof.
  unfold finish_destroy. intros H. ok_bind H cur Ec. destruct (_ && _ && _) in H.
  - injection H as <- <-. split; [|done]. unfold destroy_ignored.
    etrans; [|apply later_audit]. etrans; [|apply later_finish]. apply later_note.
  - destruct (negb _) in H; ok_bind H s1 E1; injection H as <- <-; (split; [|done]);
      [by eapply destroy_failed_later|by eapply destroy_succeeded_later].
Qed.

Lemma destroy_outcome (cleaner : CleanupArgs -> CleanupResultLike) (meanwhile : ControlDb -> ControlDb)
    (lease_now : datetime) (causality : ControlDb -> string -> option FailureCausalitySnapshot)
    (s s' : ControlDb) (ws : string) (force rv rw : bool) (key : option string) (v : option Z)
    (resp : ControlResponse) :
  c_operations s !! op = None -> (forall s', later_by R s' (meanwhile s')) ->
  destroy_workspace now op cand cleaner meanwhile lease_now causality s ws force rv rw key v
    = Ok (resp, s') ->
  outcome R s s' ws ty_destroy key (eq (VDict (destroy_payload force rv rw v))) op
    (resp_operation_id resp).
Proof.
  intros Hop Hm H. unfold destroy_workspace in H. ok_bind H p Ep. apply prepare_right in Ep.
  destruct (po_replay p) as [[i o]|] eqn:Er.
  - injection H as <- <-. by eapply replayed.
  - ok_bind H cur Ec. destruct (_ && _) in H; [done|].
    set (s1 := create_operation _ _ _ _ _ _ _ _) in *.
    pose proof (later_revoke lease_now s1 ws) as H2.
    destruct (_revoke_destroy_secret_leases lease_now s1 ws) as [s2 summary]. simpl in H2.
    destruct (eqb _ _) in H.
    + injection H as <- <-. eapply created; [done|exact Ep|done|done|]. apply later_weaken.
      etrans; [exact H2|]. etrans; [|apply later_audit]. etrans; [|apply later_finish].
      apply later_step; [|done]. apply step_release_reservations.
    + ok_bind H s3 E3. apply start_destroying_later in E3. ok_bind H r Eclean.
      apply finish_destroy_later in H as [H4 ->]. eapply created; [done|exact Ep|done|done|].
      etrans; [apply later_weaken; exact H2|]. etrans; [apply later_weaken; exact E3|].
      etrans; [apply Hm|by apply later_weaken].
Qed.
End Calls.

(** What a call records. *)
Definition recorded (c : Call) (payload : pyval) : Prop :=
  let v := cl_version c in
  match cl_request c with
  | Cancel reason stop_stack => VDict (cancel_payload reason stop_stack v) = payload
  | Stop reason => VDict (stop_payload reason v) = payload
  | Refresh reason => VDict (refresh_payload reason v) = payload
  | Validate reason tier => VDict (_operation_payload (validate_payload reason tier) v) = payload
  | Rebase reason => rebase_recorded reason v payload
  | Destroy force rv rw => VDict (destroy_payload force rv rw v) = payload
  end.

Lemma answer_outcome (R : relation Db) `{!PreOrder R} (e : Env) (s s' : ControlDb) (c : Call)
    (id : string) (resp : option ControlResponse) :
  (forall db db', unattended db db' -> R db db') -> fair R e s ->
  answer e s c = Ok (id, resp, s') ->
  outcome R s s' (cl_workspace c) (request_type (cl_request c)) (cl_key c) (recorded c) (e_op e) id.
Proof.
  intros HR [Hop Hm]. unfold answer, recorded. destruct (cl_request c); intros H; ok_bind H q E;
    destruct q as [x t]; injection H as <- _ <-; simpl.
  - by eapply cancel_outcome.
  - by eapply stop_outcome.
  - by eapply refresh_outcome.
  - by eapply validate_outcome.
  - by eapply rebase_outcome.
  - by eapply destroy_outcome.
Qed.

(** ** Answering again *)

Definition call_payload (c : Call) : dict :=
  let v := cl_version c in
  match cl_request c with
  | Cancel reason stop_stack => cancel_payload reason stop_stack v
  | Stop reason => stop_payload reason v
  | Refresh reason => refresh_payload reason v
  | Validate reason tier => _operation_payload (validate_payload reason tier) v
  | Rebase reason => _operation_payload (rebase_payload reason) v
  | Destroy force rv rw => destroy_payload force rv rw v
  end.

(** The recorded payload is what the call would record, as far as its identity goes. *)
Definition accepts (c : Call) (payload : pyval) : bool :=
  match cl_request c with
  | Rebase reason =>
      _payload_matches_idempotency_identity payload (call_payload c)
        (Some (map fst (rebase_payload reason) ++ ["expected_version"]))
  | _ => py_eqb payload (VDict (call_payload c))
  end.

(** Two calls of one kind that ask for the same; a rebase without a version asks for a rebase
    at any version. *)
Definition asks_same (c c' : Call) : Prop :=
  cl_request c = cl_request c' /\
  match cl_request c with
  | Rebase _ => cl_version c' = None \/ cl_version c' = cl_version c
  | _ => cl_version c' = cl_version c
  end.

(** Evaluate the comparisons of constants. *)
Ltac eqb_closed :=
  repeat match goal with
  | |- context [eqb ?a ?b] =>
      let r := eval vm_compute in (eqb a b) in
      lazymatch r with
      | true => change (eqb a b) with true
      | false => change (eqb a b) with false
      end
  end.

Lemma prepare_keyed (s : ControlDb) (ws : string) (ty : OperationType) (payload : dict)
    (i : Identity) (key : option string) (v : option Z) (k id : string) (o : Operation) :
  normal_key key = Some k -> get_by_idempotency_key (c_operations s) k = Some (id, o) ->
  _prepare_operation s ws ty payload i key v =
  if eqb (o_workspace_id o) ws && eqb (o_type o) (operation_type_value ty)
     && payload_matches o payload i
  then w <-? _require_workspace s ws ;;
       Ok {| po_workspace := w; po_replay := Some (id, o); po_kind := Some exact_replay;
             po_idempotency_key := Some k |}
  else Err IdempotencyConflictError.
Proof. intros Hk Hid. unfold _prepare_operation. rewrite Hk. simpl. by rewrite Hid. Qed.

Lemma keyed_answer (e : Env) (s : ControlDb) (c : Call) (k id : string) (o : Operation)
    (w : Workspace) (status : WorkspaceStatus) :
  normal_key (cl_key c) = Some k -> get_by_idempotency_key (c_operations s) k = Some (id, o) ->
  workspaces (c_db s) !! cl_workspace c = Some w -> l_status (w_life w) = status_value status ->
  if eqb (o_workspace_id o) (cl_workspace c)
     && eqb (o_type o) (operation_type_value (request_type (cl_request c)))
     && accepts c (o_payload o)
  then exists resp, answer e s c = Ok (id, resp, s)
  else answer e s c = Err IdempotencyConflictError.
Proof.
  intros Hk Hid Hw Hst. unfold answer, accepts, call_payload.
  assert (Hr : _require_workspace s (cl_workspace c) = Ok w) by by apply require_ok.
  destruct (cl_request c); cbn [request_type];
    unfold cancel_workspace, stop_workspace, request_refresh_workspace, request_validate_workspace,
      request_rebase_workspace, destroy_workspace, cancel_payload, stop_payload, refresh_payload,
      destroy_payload;
    erewrite prepare_keyed by done; unfold payload_matches; cbn [id_payload id_keys exact];
    match goal with |- if ?b then _ else _ => destruct b end; try done;
    rewrite Hr; cbn [rbind po_replay po_workspace po_kind]; unfold status_enum;
    rewrite ?Hst, ?parse_status_value; cbn [rbind]; eqb_closed; cbn [negb andb rbind]; eauto.
Qed.

(** ** The same request *)

Lemma opt_str_eqb (a b : option string) : py_eqb (opt_str a) (opt_str b) = true <-> a = b.
Proof. destruct a, b; simpl; try rewrite eqb_true; split; congruence. Qed.

Lemma bool_eqb (a b : bool) : py_eqb (VBool a) (VBool b) = true <-> a = b.
Proof. by destruct a, b. Qed.

Lemma int_eqb (a b : Z) : py_eqb (VInt a) (VInt b) = true <-> a = b.
Proof. simpl. unfold num_eqb. simpl. apply Z.eqb_eq. Qed.

Lemma str_eqb_refl (a : string) : py_eqb (VStr a) (VStr a) = true.
Proof. apply eqb_refl. Qed.

Lemma str_eqb (a : string) : py_eqb (VStr a) (VStr a) = true.
Proof. apply eqb_refl. Qed.

Lemma dict_eqb (d e : dict) :
  py_eqb (VDict d) (VDict e) =
  (length d =? length e)%nat
  && forallb (fun p => match find_key e p.1 with
                       | Some y => py_eqb p.2 y
                       | None => false
                       end) d.
Proof. done. Qed.

(** Compute the payloads, and compare them value by value. *)
Ltac payloads :=
  unfold _operation_payload, _operator_operation_payload, update_keys, find_key;
  repeat progress (cbn [fold_left set_key app map List.find fst snd fmap option_fmap option_map
                        length Nat.eqb andb forallb default from_option id]; eqb_closed).

Ltac compare_payloads :=
  unfold _operation_payload, _operator_operation_payload, update_keys;
  repeat match goal with v : option Z |- _ => destruct v end;
  payloads; rewrite ?dict_eqb; payloads; rewrite ?str_eqb; cbn [andb];
  rewrite ?andb_true_iff, ?opt_str_eqb, ?bool_eqb, ?int_eqb; naive_solver congruence.

Lemma cancel_accepts (reason reason' : option string) (b b' : bool) (v v' : option Z) :
  py_eqb (VDict (cancel_payload reason b v)) (VDict (cancel_payload reason' b' v')) = true <->
  reason = reason' /\ b = b' /\ v = v'.
Proof. unfold cancel_payload. compare_payloads. Qed.

Lemma stop_accepts (reason reason' : option string) (v v' : option Z) :
  py_eqb (VDict (stop_payload reason v)) (VDict (stop_payload reason' v')) = true <->
  reason = reason' /\ v = v'.
Proof. unfold stop_payload. compare_payloads. Qed.

Lemma refresh_accepts (reason reason' : option string) (v v' : option Z) :
  py_eqb (VDict (refresh_payload reason v)) (VDict (refresh_payload reason' v')) = true <->
  reason = reason' /\ v = v'.
Proof. unfold refresh_payload. compare_payloads. Qed.

Lemma validate_accepts (reason reason' : option string) (tier tier' v v' : option Z) :
  py_eqb (VDict (_operation_payload (validate_payload reason tier) v))
    (VDict (_operation_payload (validate_payload reason' tier') v')) = true <->
  reason = reason' /\ tier = tier' /\ v = v'.
Proof. unfold validate_payload. compare_payloads. Qed.

Lemma destroy_accepts (f f' rv rv' rw rw' : bool) (v v' : option Z) :
  py_eqb (VDict (destroy_payload f rv rw v)) (VDict (destroy_payload f' rv' rw' v')) = true <->
  f = f' /\ rv = rv' /\ rw = rw' /\ v = v'.
Proof. unfold destroy_payload. compare_payloads. Qed.

Lemma find_key_set (d : dict) (key key' : string) (v : pyval) :
  find_key (set_key d key v) key' = if eqb key key' then Some v else find_key d key'.
Proof.
  unfold find_key. induction d as [|[k x] d IH]; simpl; [by destruct (eqb key key')|].
  destruct (eqb k key) eqn:E; simpl.
  - rewrite eqb_true in E. subst k. by destruct (eqb key key').
  - destruct (eqb k key') eqn:E'; [|exact IH]. rewrite eqb_true in E'. subst k.
    destruct (eqb key key') eqn:E'; [|done]. rewrite eqb_true in E'. subst.
    by rewrite eqb_refl in E.
Qed.

Lemma find_key_update (d e : dict) (key : string) :
  key ∉ map fst e -> find_key (update_keys d e) key = find_key d key.
Proof.
  unfold update_keys. revert d. induction e as [|[k x] e IH]; intros d; [done|].
  cbn [map fst fold_left snd]. intros [Hk He]%not_elem_of_cons.
  rewrite IH by exact He. rewrite find_key_set.
  destruct (eqb k key) eqn:E; [|done]. by rewrite eqb_true in E.
Qed.

Definition rebase_identity_keys : list string :=
  ["owner"; "source"; "reason"; "reason_code"; "requested_action"; "recovery_mode";
   "expected_version"].

(** The context of a rebase is none of what identifies it. *)
Lemma rebase_context_keys (w : Workspace) (rt : Runtime) (cid : string) (c : Candidate)
    (key : string) :
  key ∈ rebase_identity_keys -> key ∉ map fst (_workspace_rebase_operation_context w rt cid c).
Proof.
  intros Hk. unfold _workspace_rebase_operation_context.
  match goal with |- _ ∉ map fst (not_none ?l) => set (ctx := l) end.
  assert (Hc : key ∉ map fst ctx).
  { unfold rebase_identity_keys in Hk.
    repeat (apply elem_of_cons in Hk as [->|Hk]; [by apply mem_false|]). by apply elem_of_nil in Hk. }
  contradict Hc. apply list_elem_of_fmap in Hc as (p & -> & Hp). apply list_elem_of_fmap.
  exists p. split; [done|]. unfold not_none in Hp. by apply elem_of_bfilter in Hp as [_ ?].
Qed.

Lemma rebase_accepts (reason reason' : option string) (v v' : option Z) (payload : pyval) :
  rebase_recorded reason v payload ->
  _payload_matches_idempotency_identity payload (_operation_payload (rebase_payload reason') v')
    (Some (map fst (rebase_payload reason') ++ ["expected_version"])) = true <->
  reason = reason' /\ (v' = None \/ v' = v).
Proof.
  intros (w & rt & cid & c & ->). unfold _payload_matches_idempotency_identity, rebase_payload.
  pose proof (rebase_context_keys w rt cid c) as Hk.
  set (ctx := _workspace_rebase_operation_context w rt cid c) in *. clearbody ctx.
  assert (Hf : forall d key, key ∈ rebase_identity_keys ->
    find_key (_operation_payload (update_keys d ctx) v) key = find_key (_operation_payload d v) key).
  { intros d key Hin. unfold _operation_payload. destruct v as [n|]; rewrite ?find_key_set;
      rewrite find_key_update; auto. }
  set (base := _operator_operation_payload reason' _ _ _).
  assert (Hb : map fst base ++ ["expected_version"] = rebase_identity_keys) by done.
  rewrite Hb. unfold default.
  transitivity (forallb (fun key =>
    match find_key (_operation_payload base v') key with
    | None => true
    | Some wanted => match find_key (_operation_payload (_operator_operation_payload reason
                       _OPERATOR_REBASE_REASON_CODE (operation_type_value ty_rebase)
                       [("recovery_mode", VStr "rebase_only")]) v) key with
                     | Some x => py_eqb x wanted
                     | None => false
                     end
    end) rebase_identity_keys = true).
  { rewrite !forallb_elem. split; intros H key Hin; specialize (H key Hin); rewrite Hf in *; done. }
  subst base. clear. unfold rebase_identity_keys. compare_payloads.
Qed.

(** The payload a call recorded answers the calls that ask for the same, and no others. *)
Lemma recorded_accepts (c c' : Call) (payload : pyval) :
  recorded c payload -> request_type (cl_request c) = request_type (cl_request c') ->
  accepts c' payload = true <-> asks_same c c'.
Proof.
  unfold recorded, accepts, asks_same, call_payload.
  destruct (cl_request c), (cl_request c'); try done; intros Hr _; try subst payload.
  - rewrite cancel_accepts. naive_solver.
  - rewrite stop_accepts. naive_solver.
  - rewrite refresh_accepts. naive_solver.
  - rewrite validate_accepts. naive_solver.
  - rewrite rebase_accepts by exact Hr. naive_solver.
  - rewrite destroy_accepts. naive_solver.
Qed.

(** A key that is recorded for something else. *)
Lemma keyed_conflict (e : Env) (s : ControlDb) (c : Call) (k id : string) (o : Operation) :
  normal_key (cl_key c) = Some k -> get_by_idempotency_key (c_operations s) k = Some (id, o) ->
  eqb (o_workspace_id o) (cl_workspace c)
    && eqb (o_type o) (operation_type_value (request_type (cl_request c)))
    && accepts c (o_payload o) = false ->
  answer e s c = Err IdempotencyConflictError.
Proof.
  intros Hk Hid. unfold answer, accepts, call_payload.
  destruct (cl_request c); cbn [request_type];
    unfold cancel_workspace, stop_workspace, request_refresh_workspace, request_validate_workspace,
      request_rebase_workspace, destroy_workspace, cancel_payload, stop_payload, refresh_payload,
      destroy_payload;
    erewrite prepare_keyed by done; unfold payload_matches; cbn [id_payload id_keys exact];
    by intros ->.
Qed.

Lemma request_type_value (t t' : OperationType) :
  operation_type_value t = operation_type_value t' -> t = t'.
Proof. destruct t, t'; (done || discriminate). Qed.

Lemma later_workspace (s s' : ControlDb) (ws : string) (w : Workspace) :
  later_by steps s s' -> wf_db (c_db s) -> workspaces (c_db s) !! ws = Some w ->
  exists w' b, workspaces (c_db s') !! ws = Some w' /\ l_status (w_life w') = status_value b.
Proof.
  intros Hl Hwf Hw. destruct (wf_status _ (Hwf ws w Hw)) as [a Ha].
  pose proof (steps_good _ _ (lt_db _ _ _ Hl) ws) as Hg. rewrite Hw in Hg.
  inversion Hg as [? w' (_ & _ & Hf)|]; subst. destruct (Hf a Ha) as (b & Hb & _). eauto.
Qed.

(** A successful call is about an existing workspace. *)
Lemma answer_workspace (e : Env) (s s' : ControlDb) (c : Call) (id : string)
    (resp : option ControlResponse) :
  answer e s c = Ok (id, resp, s') -> exists w, workspaces (c_db s) !! cl_workspace c = Some w.
Proof.
  unfold answer. destruct (cl_request c); intros H; ok_bind H q E; clear H;
    unfold cancel_workspace, stop_workspace, request_refresh_workspace, request_validate_workspace,
      request_rebase_workspace, destroy_workspace in E;
    ok_bind E p Ep; apply prepare_right in Ep as [Hw _]; eauto.
Qed.

(** ** Versions *)

Lemma later_version (s s' : ControlDb) (ws : string) (w : Workspace) :
  later_by steps s s' -> workspaces (c_db s) !! ws = Some w ->
  exists w', workspaces (c_db s') !! ws = Some w' /\ l_version (w_life w) <= l_version (w_life w').
Proof.
  intros Hl Hw. pose proof (steps_good _ _ (lt_db _ _ _ Hl) ws) as Hg. rewrite Hw in Hg.
  inversion Hg as [? w' (Hle & _)|]; subst. exists w'. split; [done|]. by destruct Hle as [[? _ _] _].
Qed.

Lemma transition_moves (now : Z) (cand : string) (s s' : ControlDb) (ws : string)
    (to : WorkspaceStatus) (reason : string) (w : Workspace) :
  transition_to now cand s ws to reason = Ok s' -> workspaces (c_db s) !! ws = Some w ->
  exists w', workspaces (c_db s') !! ws = Some w' /\ l_status (w_life w') = status_value to /\
    l_version (w_life w') = l_version (w_life w) + 1.
Proof.
  intros (_ & _ & (w0 & from & Hw0 & _ & _ & He)%transition_row)%later_transition Hw.
  assert (w0 = w) as -> by congruence. exists (moved_row now from to reason w).
  rewrite He, lookup_insert_eq. by destruct (moved_life now from to reason w) as (-> & -> & _).
Qed.

(** The requests that send a monitored workspace back to work. *)
Definition requeues (r : Request) : bool :=
  match r with Validate _ _ | Rebase _ => true | _ => false end.

Lemma requeue_moves (e : Env) (s s' : ControlDb) (c : Call) (v : Z) (resp : option ControlResponse) :
  c_operations s !! e_op e = None -> requeues (cl_request c) = true -> cl_version c = Some v ->
  answer e s c = Ok (e_op e, resp, s') ->
  exists w', workspaces (c_db s') !! cl_workspace c = Some w' /\
    l_status (w_life w') = status_value ready /\ v < l_version (w_life w').
Proof.
  intros Hop Hr Hv. unfold answer. rewrite Hv. destruct (cl_request c) as [| | |reason tier|reason|];
    try discriminate Hr; intros H; ok_bind H q E; destruct q as [id t]; injection H as -> _ <-;
    cbn [fst snd] in *; unfold request_validate_workspace, request_rebase_workspace in E;
    ok_bind E p Ep; apply prepare_right in Ep as (Hw & _ & Hp); ok_bind E cur Ec;
    (destruct (po_replay p) as [[i o]|];
     [destruct (_ && _) in E; [discriminate E|]; injection E as -> _; destruct Hp as [Ho _]; congruence|]).
  2: do 2 (destruct (_find_active_operation _ _ _) as [[? ?]|] in E; [discriminate E|]).
  all: destruct (negb _) in E; [discriminate E|]; destruct (eqb _ None) in E; [discriminate E|].
  2: destruct (get_open_for_workspace_with_merge_inputs _ _) as [[cid cd]|] in E; [|discriminate E].
  all: ok_bind E s3 Et; injection E as <-; destruct Hp as [_ Hver];
    eassert (Hl : later_by steps (create_operation _ _ s _ _ _ _ _) _)
      by (apply (later_weaken _ unattended_steps), later_note);
    eapply later_version in Hl as (w1 & Hw1 & Hle); [|exact Hw];
    eapply transition_moves in Et as (w2 & Hw2 & Hs2 & Hv2); [|exact Hw1];
    exists w2; split; [exact Hw2|split; [exact Hs2|]]; rewrite Hv2, <- (Hver v eq_refl); lia.
Qed.

(** A call that no key answers is checked against the version. *)
Lemma stale_answer (e : Env) (s : ControlDb) (c : Call) (v : Z) (w : Workspace) :
  (forall k, normal_key (cl_key c) = Some k -> get_by_idempotency_key (c_operations s) k = None) ->
  cl_version c = Some v -> workspaces (c_db s) !! cl_workspace c = Some w ->
  l_version (w_life w) <> v ->
  answer e s c = Err (VersionConflictError v (l_version (w_life w))).
Proof.
  intros Hk Hv Hw Hne.
  assert (Hp : forall ty payload i,
    _prepare_operation s (cl_workspace c) ty payload i (cl_key c) (cl_version c)
    = Err (VersionConflictError v (l_version (w_life w)))).
  { intros ty payload i. unfold _prepare_operation.
    assert ((k ← normal_key (cl_key c); get_by_idempotency_key (c_operations s) k) = None) as ->
      by (destruct (normal_key (cl_key c)) as [k|]; [by apply Hk|done]).
    unfold prepare_current. rewrite (proj2 (require_ok _ _ _) Hw). cbn [rbind].
    unfold check_version. rewrite Hv. apply Z.eqb_neq in Hne as ->. done. }
  unfold answer. destruct (cl_request c); unfold cancel_workspace, stop_workspace,
    request_refresh_workspace, request_validate_workspace, request_rebase_workspace,
    destroy_workspace; by rewrite Hp.
Qed.

(** ** Events and statuses of one workspace *)

(** Apart from [evs], the row's events are what they were. *)
Definition gains (ws : string) (P : Event -> Prop) (s s' : ControlDb) : Prop :=
  forall w, workspaces (c_db s) !! ws = Some w ->
    exists w' evs, workspaces (c_db s') !! ws = Some w' /\
      l_events (w_life w') = l_events (w_life w) ++ evs /\ Forall P evs.

#[export] Instance gains_preorder (ws : string) (P : Event -> Prop) : PreOrder (gains ws P).
Proof.
  split.
  - intros s w Hw. exists w, []. by rewrite app_nil_r.
  - intros a b c H1 H2 w (w1 & e1 & Hw1 & He1 & Hp1)%H1.
    apply H2 in Hw1 as (w2 & e2 & Hw2 & He2 & Hp2). exists w2, (e1 ++ e2).
    rewrite He2, He1, app_assoc. split_and!; [done..|]. by apply Forall_app.
Qed.

Definition unreleasing (e : Event) : Prop := is_release_event e = false.
Abbreviation quiet ws := (gains ws unreleasing).

Lemma note_row (ws ty : string) (reason : option string) (s : ControlDb) (w : Workspace) :
  workspaces (c_db s) !! ws = Some w ->
  exists w' e, workspaces (c_db (note ws ty reason s)) !! ws = Some w' /\
    l_events (w_life w') = l_events (w_life w) ++ [e] /\ e_type e = ty /\
    e_reason_code e = reason /\ l_status (w_life w') = l_status (w_life w).
Proof. intros Hw. simpl. rewrite lookup_alter_eq, Hw. simpl. by do 2 eexists. Qed.

Lemma status_note (ws ty : string) (reason : option string) (s : ControlDb) :
  status_of (note ws ty reason s) ws = status_of s ws.
Proof.
  unfold status_of. simpl. rewrite lookup_alter_eq. by destruct (workspaces (c_db s) !! ws).
Qed.

Lemma quiet_note (ws ty : string) (reason : option string) (s : ControlDb) :
  ty ∉ [TERMINAL_RUNTIME_RELEASE_EVENT_TYPE; TERMINAL_RUNTIME_RELEASE_REVOKED_EVENT_TYPE] ->
  quiet ws s (note ws ty reason s).
Proof.
  intros Hty w Hw. destruct (note_row ws ty reason s w Hw) as (w' & e & ? & ? & He & _).
  exists w', [e]. split_and!; [done..|]. apply Forall_singleton. unfold unreleasing, is_release_event.
  rewrite He. by apply mem_false in Hty as ->.
Qed.

Ltac other_type := apply quiet_note, mem_false; vm_compute; reflexivity.

Lemma quiet_same (ws : string) (s s' : ControlDb) : c_db s' = c_db s -> quiet ws s s'.
Proof. intros He w Hw. exists w, []. by rewrite He, app_nil_r. Qed.

Lemma finish_db (s : ControlDb) (op : string) (status : OperationStatus) (result : dict)
    (code message : option string) (now : Z) :
  c_db (finish_operation s op status result code message now) = c_db s.
Proof. unfold finish_operation. by destruct (c_operations s !! op). Qed.

Lemma quiet_clear (ws : string) (s : ControlDb) : quiet ws s (clear_workspace_attention ws s).
Proof.
  unfold clear_workspace_attention. destruct (workspaces _ !! ws), (c_attention s !! ws); try done.
  etrans; [|other_type]. by apply quiet_same.
Qed.

Lemma status_clear (ws : string) (s : ControlDb) :
  status_of (clear_workspace_attention ws s) ws = status_of s ws.
Proof.
  unfold clear_workspace_attention. destruct (workspaces _ !! ws), (c_attention s !! ws); try done.
  by rewrite status_note.
Qed.

Lemma quiet_pauses (b : bool) (ws : string) (s : ControlDb) : quiet ws s (clear_pauses b ws s).
Proof. unfold clear_pauses. etrans; [|apply quiet_clear]. destruct b; [other_type|done]. Qed.

Lemma status_pauses (b : bool) (ws : string) (s : ControlDb) :
  status_of (clear_pauses b ws s) ws = status_of s ws.
Proof. unfold clear_pauses. rewrite status_clear. destruct b; [apply status_note|done]. Qed.

Lemma quiet_transition (now : Z) (cand : string) (s s' : ControlDb) (ws : string)
    (to : WorkspaceStatus) (reason : string) :
  transition_to now cand s ws to reason = Ok s' ->
  quiet ws s s' /\ status_of s' ws = status_value to.
Proof.
  intros (_ & _ & (w & from & Hw & Hs & _ & He)%transition_row)%later_transition.
  destruct (moved_life now from to reason w) as (Hst & _ & _ & Hev). split.
  - intros w0 Hw0. assert (w0 = w) as -> by congruence. rewrite He, lookup_insert_eq.
    do 2 eexists. split_and!; [done|exact Hev|]. by apply Forall_singleton.
  - unfold status_of. by rewrite He, lookup_insert_eq.
Qed.

Lemma quiet_released (ws : string) (s s' : ControlDb) :
  is_Some (workspaces (c_db s) !! ws) -> quiet ws s s' ->
  has_terminal_runtime_released_event s' ws = has_terminal_runtime_released_event s ws.
Proof.
  intros [w Hw] (w' & evs & Hw' & He & Hq)%(fun H => H w Hw).
  unfold has_terminal_runtime_released_event, effectively_released. rewrite Hw, Hw', He.
  rewrite List.filter_app. assert (List.filter is_release_event evs = []) as ->.
  { clear -Hq. induction Hq as [|e l He Hl IH]; [done|]. simpl. by rewrite He, IH. }
  by rewrite app_nil_r.
Qed.

Lemma released_now (ws : string) (s : ControlDb) :
  is_Some (workspaces (c_db s) !! ws) ->
  has_terminal_runtime_released_event (note_release ws s) ws = true.
Proof.
  intros [w Hw]. destruct (note_row ws TERMINAL_RUNTIME_RELEASE_EVENT_TYPE
    (Some TERMINAL_RUNTIME_RELEASE_REASON_CODE) s w Hw) as (w' & e & Hw' & He & Ht & Hr & _).
  unfold has_terminal_runtime_released_event, effectively_released, note_release.
  rewrite Hw', He, List.filter_app. simpl. unfold is_release_event at 2. rewrite Ht, Hr. simpl.
  rewrite last_snoc, Ht. apply eqb_refl.
Qed.

(** ** The outcome of a teardown *)

Definition release_status (r : CleanupResult) : OperationStatus :=
  if cleanup_ok r then op_succeeded else op_failed.

Lemma finish_row (s : ControlDb) (op : string) (status : OperationStatus) (result : dict)
    (code message : option string) (now : Z) (o : Operation) :
  c_operations s !! op = Some o ->
  c_operations (finish_operation s op status result code message now) !! op
  = Some (finish o status (VDict result) code message None now).
Proof. intros Ho. unfold finish_operation. rewrite Ho. apply lookup_insert_eq. Qed.

(** The row of a finished operation. *)
Definition finished (s : ControlDb) (op : string) (status : OperationStatus) (code : option string)
    (now : Z) : Prop :=
  exists o, c_operations s !! op = Some o /\ o_status o = operation_status_value status /\
            o_error_code o = code /\ o_finished_at o = Some now.

Lemma finish_finished (s : ControlDb) (op : string) (status : OperationStatus) (result : dict)
    (code message : option string) (now : Z) :
  is_Some (c_operations s !! op) ->
  finished (finish_operation s op status result code message now) op status code now.
Proof. intros [o Ho]. eexists. by rewrite (finish_row _ _ _ _ _ _ _ _ Ho). Qed.

(** What the release of a stack tells of its cleanup. *)
Record stack_reported (now : Z) (op ws success failure : string) (s : ControlDb)
    (r : CleanupResult) (resp : ControlResponse) (s' : ControlDb) : Prop := {
  sr_operation : finished s' op (release_status r)
                   (if cleanup_ok r then None else Some "STACK_STOP_FAILED") now;
  sr_op_status : resp_operation_status resp = operation_status_value (release_status r);
  sr_message : resp_message resp = if cleanup_ok r then success else failure;
  sr_ws_status : resp_status resp = status_of s' ws;
  sr_released : cr_status r = cleanup_succeeded ->
                status_of s' ws ∈ HOST_PORT_TERMINAL_RELEASE_STATUSES ->
                has_terminal_runtime_released_event s' ws = true;
  sr_kept : cr_status r <> cleanup_succeeded ->
            has_terminal_runtime_released_event s' ws = has_terminal_runtime_released_event s ws
}.

Lemma finalize_status (now : Z) (op ws reason m1 m2 : string) (s : ControlDb) (r : CleanupResult) :
  status_of (_finalize_service_stack_release now op s ws r reason m1 m2).2 ws = status_of s ws.
Proof.
  unfold _finalize_service_stack_release, _finish_stack_stop_failed_operation, _add_control_audit_event.
  destruct (negb (cleanup_ok r)); cbn [fst snd]; rewrite status_note;
    unfold status_of; rewrite finish_db; [done|].
  destruct (_ && _); [apply (status_note ws)|done].
Qed.

Lemma finalize_reports (now : Z) (op ws reason m1 m2 : string) (s0 s : ControlDb)
    (r : CleanupResult) :
  is_Some (c_operations s !! op) -> is_Some (workspaces (c_db s0) !! ws) -> quiet ws s0 s ->
  let p := _finalize_service_stack_release now op s ws r reason m1 m2 in
  stack_reported now op ws m1 m2 s0 r p.1 p.2.
Proof.
  intros Hop Hw Hq p. assert (Hw' : is_Some (workspaces (c_db s) !! ws))
    by (destruct Hw as [w Hw]; destruct (Hq w Hw) as (? & ? & ? & _); eauto).
  subst p. unfold _finalize_service_stack_release, _finish_stack_stop_failed_operation,
    _add_control_audit_event.
  assert (Ha : forall t status result code message,
    quiet ws t (note ws _AUDIT_CONTROL_OPERATION_EVENT (Some reason)
                  (finish_operation t op status result code message now))).
  { intros. etrans; [apply quiet_same, finish_db|other_type]. }
  destruct (cleanup_ok r) eqn:Eok; cbn [negb fst snd].
  - set (b := mem _ _ && _ && _). set (t := if b then note_release ws s else s).
    assert (Ht : is_Some (c_operations t !! op)) by (subst t; by destruct b).
    assert (Htw : is_Some (workspaces (c_db t) !! ws)).
    { subst t. destruct b; [|done]. destruct Hw' as [w Hw']. unfold note_release.
      destruct (note_row ws TERMINAL_RUNTIME_RELEASE_EVENT_TYPE
        (Some TERMINAL_RUNTIME_RELEASE_REASON_CODE) s w Hw') as (? & ? & -> & _). eauto. }
    assert (Hts : status_of t ws = status_of s ws) by (subst t; destruct b; [apply status_note|done]).
    destruct Ht as [o Ho].
    split; unfold release_status; rewrite ?Eok; simpl resp_message; simpl resp_status; try done.
    + eexists. simpl. by rewrite (finish_row _ _ _ _ _ _ _ _ Ho).
    + simpl. by rewrite (finish_row _ _ _ _ _ _ _ _ Ho).
    + intros Hs Hin. rewrite (quiet_released ws t) by (try done; apply Ha).
      rewrite status_note in Hin. unfold status_of in Hin. rewrite finish_db in Hin.
      fold (status_of t ws) in Hin. rewrite Hts in Hin. apply mem_true in Hin.
      subst t b. rewrite Hin, Hs. change (eqb cleanup_succeeded cleanup_succeeded) with true.
      cbn [andb]. destruct (has_terminal_runtime_released_event s ws) eqn:Er; cbn [negb]; [done|].
      by apply released_now.
    + intros Hs. rewrite (quiet_released ws t) by (try done; apply Ha).
      subst t b. rewrite (proj2 (eqb_false _ _) Hs), andb_false_r. simpl. by apply quiet_released.
  - destruct Hop as [o Ho].
    split; unfold release_status; rewrite ?Eok; simpl resp_message; simpl resp_status; try done.
    + eexists. simpl. by rewrite (finish_row _ _ _ _ _ _ _ _ Ho).
    + simpl. by rewrite (finish_row _ _ _ _ _ _ _ _ Ho).
    + intros Hs. exfalso. unfold cleanup_ok in Eok. by rewrite Hs in Eok.
    + intros _. rewrite <- (quiet_released ws s0 s) by done. apply quiet_released; [done|].
      etrans; [apply quiet_same, finish_db|other_type].
Qed.

(** Cancel with its stack, and stop. *)
Definition releases_stack (r : Request) : bool :=
  match r with Cancel _ stop_stack => stop_stack | Stop _ => true | _ => false end.

(** The messages of a request whose teardown succeeds or fails. *)
Definition stack_messages (r : Request) : string * string :=
  match r with
  | Cancel _ _ => ("workspace cancellation requested",
                   "workspace cancelled but stack teardown failed")
  | _ => ("workspace stack stopped", "workspace stack stop failed")
  end.

Lemma active_cancellable (a : WorkspaceStatus) :
  _is_active a = true -> a <> cancelled /\ can_transition a cancelled = true.
Proof. by destruct a. Qed.

Lemma status_enum_ok (status : string) (a : WorkspaceStatus) :
  status_enum status = Ok a -> status = status_value a.
Proof.
  unfold status_enum. destruct (parse_status status) as [b|] eqn:E; [|done].
  intros [= <-]. by apply parse_status_ok.
Qed.

Lemma later_op (s s' : ControlDb) (op : string) :
  later s s' -> is_Some (c_operations s !! op) -> is_Some (c_operations s' !! op).
Proof. intros Hl [o Ho]. destruct (lt_ops _ _ _ Hl _ _ Ho) as (o' & ? & _). eauto. Qed.

(** Leaving for [cancelled], or not, is quiet. *)
Lemma leave_quiet (now : Z) (cand ws reason : string) (s s' : ControlDb) (b : bool) :
  (s2 <-? transition_to now cand s ws cancelled reason ;; Ok (clear_pauses b ws s2)) = Ok s' ->
  later s s' /\ quiet ws s s' /\ status_of s' ws = status_value cancelled.
Proof.
  intros H. ok_bind H s2 Et. injection H as <-.
  pose proof (quiet_transition _ _ _ _ _ _ _ Et) as [Hq Hs].
  apply later_transition in Et as [Hl _]. split_and!.
  - etrans; [exact Hl|apply later_pauses].
  - etrans; [exact Hq|apply quiet_pauses].
  - by rewrite status_pauses.
Qed.

Lemma cancel_reported (e : Env) (s s' : ControlDb) (ws : string) (reason key : option string)
    (v : option Z) (w : Workspace) (r : CleanupResult) (resp : ControlResponse) :
  c_operations s !! e_op e = None -> workspaces (c_db s) !! ws = Some w ->
  _release_runtime_stack (e_cleaner e) s ws w = Ok r -> resp_operation_id resp = e_op e ->
  cancel_workspace (e_now e) (e_op e) (e_cand e) (e_cleaner e) s ws reason true key v = Ok (resp, s') ->
  stack_reported (e_now e) (e_op e) ws "workspace cancellation requested"
    "workspace cancelled but stack teardown failed" s r resp s' /\
  (forall a, l_status (w_life w) = status_value a -> _is_active a = true ->
   status_of s' ws = status_value cancelled).
Proof.
  intros Hop Hw Hr Hid H. unfold cancel_workspace in H. ok_bind H p Ep. apply prepare_right in Ep.
  destruct Ep as (Hpw & _ & Hp). assert (po_workspace p = w) as Epw by congruence.
  destruct (po_replay p) as [[id o]|].
  { injection H as <- <-. simpl in Hid. subst id. destruct Hp as [Ho _]. congruence. }
  set (s1 := create_operation _ _ _ _ _ _ _ _) in *. rewrite Epw in H.
  change (_release_runtime_stack (e_cleaner e) s1 ws w) with
    (_release_runtime_stack (e_cleaner e) s ws w) in H.
  rewrite Hr in H. cbn [rbind] in H. ok_bind H cur Es. apply status_enum_ok in Es.
  ok_bind H s2 E2. injection H as H.
  assert (H2 : later s1 s2 /\ quiet ws s1 s2 /\
               (_is_active cur = true -> status_of s2 ws = status_value cancelled)).
  { destruct (negb (eqb cur cancelled) && can_transition cur cancelled) eqn:Ec.
    - apply leave_quiet in E2 as (? & ? & ?). done.
    - injection E2 as <-. split; [apply later_note|]. split; [other_type|].
      intros [Hne Hcan]%active_cancellable. apply eqb_false in Hne. by rewrite Hne, Hcan in Ec. }
  destruct H2 as (Hl2 & Hq2 & Hs2).
  pose proof (finalize_reports (e_now e) (e_op e) ws _OPERATOR_CANCEL_REASON_CODE
    "workspace cancellation requested" "workspace cancelled but stack teardown failed" s s2 r) as Hf.
  rewrite H in Hf. cbv zeta in Hf. split.
  - apply Hf; [|by rewrite Hw|].
    + eapply later_op; [exact Hl2|]. subst s1. simpl. unfold create. by rewrite lookup_insert_eq.
    + etrans; [by apply (quiet_same _ _ s1)|exact Hq2].
  - intros a Ha Hact. assert (cur = a) as -> by (apply status_value_inj; congruence).
    rewrite <- (Hs2 Hact). change s' with (resp, s').2. rewrite <- H. apply finalize_status.
Qed.

Lemma stop_reported (e : Env) (s s' : ControlDb) (ws : string) (reason key : option string)
    (v : option Z) (w : Workspace) (r : CleanupResult) (resp : ControlResponse) :
  c_operations s !! e_op e = None -> workspaces (c_db s) !! ws = Some w ->
  _release_runtime_stack (e_cleaner e) s ws w = Ok r -> resp_operation_id resp = e_op e ->
  stop_workspace (e_now e) (e_op e) (e_cand e) (e_cleaner e) s ws reason key v = Ok (resp, s') ->
  stack_reported (e_now e) (e_op e) ws "workspace stack stopped" "workspace stack stop failed"
    s r resp s' /\
  (forall a, l_status (w_life w) = status_value a -> _is_active a = true ->
   status_of s' ws = status_value cancelled).
Proof.
  intros Hop Hw Hr Hid H. unfold stop_workspace in H. ok_bind H p Ep. apply prepare_right in Ep.
  destruct Ep as (Hpw & _ & Hp). assert (po_workspace p = w) as Epw by congruence.
  destruct (po_replay p) as [[id o]|].
  { injection H as <- <-. simpl in Hid. subst id. destruct Hp as [Ho _]. congruence. }
  set (s1 := create_operation _ _ _ _ _ _ _ _) in *. rewrite Epw in H.
  change (_release_runtime_stack (e_cleaner e) s1 ws w) with
    (_release_runtime_stack (e_cleaner e) s ws w) in H.
  rewrite Hr in H. cbn [rbind] in H. ok_bind H cur Es. apply status_enum_ok in Es.
  ok_bind H s2 E2. injection H as H.
  assert (H2 : later s1 s2 /\ quiet ws s1 s2 /\
               (_is_active cur = true -> status_of s2 ws = status_value cancelled)).
  { destruct (_is_active cur && can_transition cur cancelled) eqn:Ec.
    - apply leave_quiet in E2 as (? & ? & ?). done.
    - assert (Hn : _is_active cur = true -> status_of s2 ws = status_value cancelled).
      { intros Ha. destruct (active_cancellable _ Ha) as [_ Hcan]. by rewrite Ha, Hcan in Ec. }
      destruct (cleanup_ok r); injection E2 as <-; (split; [|split; [|exact Hn]]);
        [apply later_note|other_type|done|done]. }
  destruct H2 as (Hl2 & Hq2 & Hs2).
  pose proof (finalize_reports (e_now e) (e_op e) ws _OPERATOR_STOP_REASON_CODE
    "workspace stack stopped" "workspace stack stop failed" s s2 r) as Hf.
  rewrite H in Hf. cbv zeta in Hf. split.
  - apply Hf; [|by rewrite Hw|].
    + eapply later_op; [exact Hl2|]. subst s1. simpl. unfold create. by rewrite lookup_insert_eq.
    + etrans; [by apply (quiet_same _ _ s1)|exact Hq2].
  - intros a Ha Hact. assert (cur = a) as -> by (apply status_value_inj; congruence).
    rewrite <- (Hs2 Hact). change s' with (resp, s').2. rewrite <- H. apply finalize_status.
Qed.

(** An answer with an operation that was there. *)
Lemma replayed_message (e : Env) (s s' : ControlDb) (c : Call) (id : string) (o : Operation)
    (resp : ControlResponse) :
  releases_stack (cl_request c) = true -> c_operations s !! id = Some o -> id <> e_op e ->
  answer e s c = Ok (id, Some resp, s') ->
  resp_message resp = _stack_release_replay_message o (stack_messages (cl_request c)).1
                        (stack_messages (cl_request c)).2.
Proof.
  intros Hr Ho Hne. unfold answer. destruct (cl_request c) as [reason stop|reason| | | |];
    try discriminate Hr; intros H; ok_bind H q E; destruct q as [x t]; injection H as Hid -> ->;
    unfold cancel_workspace, stop_workspace in E; ok_bind E p Ep; apply prepare_right in Ep as (_ & _ & Hp);
    (destruct (po_replay p) as [[i o']|];
     [injection E as <- _; simpl in Hid; subst i; destruct Hp as [Ho' _]; simpl; congruence|]);
    exfalso; apply Hne; rewrite <- Hid.
  - ok_bind E r Er. ok_bind E cur Es. ok_bind E s2 E2. destruct r as [r|]; injection E as E.
    + pose proof (finalize_later (e_now e) (e_op e) s2 (cl_workspace c) r _OPERATOR_CANCEL_REASON_CODE
        "workspace cancellation requested" "workspace cancelled but stack teardown failed") as [_ Hf].
      by rewrite E in Hf.
    + by rewrite <- E.
  - ok_bind E r Er. ok_bind E cur Es. ok_bind E s2 E2. injection E as E.
    pose proof (finalize_later (e_now e) (e_op e) s2 (cl_workspace c) r _OPERATOR_STOP_REASON_CODE
      "workspace stack stopped" "workspace stack stop failed") as [_ Hf].
    by rewrite E in Hf.
Qed.

(** ** Destroying *)

Import SecretLeasesFacts (none_active, lease_inv, revoke_none_active).

(** The leases and the runtimes are none of what a lifecycle step writes. *)
Definition apart (s s' : ControlDb) : Prop :=
  c_leases s' = c_leases s /\ c_runtimes s' = c_runtimes s.

#[export] Instance apart_preorder : PreOrder apart.
Proof. split; [by split|]. intros a b c [? ?] [? ?]. split; congruence. Qed.

Lemma apart_clear (ws : string) (s : ControlDb) : apart s (clear_workspace_attention ws s).
Proof.
  unfold clear_workspace_attention. by destruct (workspaces _ !! ws), (c_attention s !! ws).
Qed.

Lemma apart_pauses (b : bool) (ws : string) (s : ControlDb) : apart s (clear_pauses b ws s).
Proof. unfold clear_pauses. etrans; [|apply apart_clear]. by destruct b. Qed.

Lemma apart_transition (now : Z) (cand : string) (s s' : ControlDb) (ws : string)
    (to : WorkspaceStatus) (reason : string) :
  transition_to now cand s ws to reason = Ok s' -> apart s s'.
Proof. unfold transition_to, raised. destruct (transition _ _ _ _ _ _); [|done]. by intros [= <-]. Qed.

Lemma apart_finish (s : ControlDb) (op : string) (status : OperationStatus) (result : dict)
    (code message : option string) (now : Z) :
  apart s (finish_operation s op status result code message now).
Proof. unfold finish_operation. by destruct (c_operations s !! op). Qed.

(** Every status but [destroyed] leads to [destroying]. *)
Lemma start_destroying_spec (now : Z) (cand : string) (s s' : ControlDb) (ws : string)
    (current : WorkspaceStatus) :
  status_of s ws = status_value current -> current <> destroyed ->
  start_destroying now cand s ws current = Ok s' ->
  status_of s' ws = status_value destroying /\ apart s s'.
Proof.
  unfold start_destroying. intros Hs Hne H. ok_bind H s1 E1.
  assert (H1 : apart s s1 /\ (_is_active current && can_transition current cancelled = false -> s1 = s)).
  { destruct (_ && _); [|by injection E1 as <-]. ok_bind E1 s2 E2. injection E1 as <-.
    split; [|done]. etrans; [by eapply apart_transition|apply apart_pauses]. }
  destruct H1 as [Ha1 Hid].
  destruct (can_transition _ destroying) eqn:Ec in H.
  - pose proof (quiet_transition _ _ _ _ _ _ _ H) as [_ Hst]. split; [done|].
    etrans; [exact Ha1|by eapply apart_transition].
  - injection H as <-. split; [|done]. by destruct current; vm_compute in Ec; try discriminate Ec;
      [rewrite Hid by (vm_compute; reflexivity)|].
Qed.

Definition tearing (b : WorkspaceStatus) : bool := mem b [destroying; destroyed; failed].

Lemma tearing_closed (s s' : ControlDb) (ws : string) (a : WorkspaceStatus) :
  later s s' -> status_of s ws = status_value a -> tearing a = true ->
  exists b, status_of s' ws = status_value b /\ tearing b = true.
Proof.
  intros Hl Ha Ht. unfold status_of in *.
  destruct (workspaces (c_db s) !! ws) as [w|] eqn:Hw; [|by destruct a].
  pose proof (unattended_good _ _ (lt_db _ _ _ Hl) ws) as Hg. rewrite Hw in Hg.
  inversion Hg as [? w' (_ & _ & Hf)|]; subst. destruct (Hf a Ha) as (b & Hb & Hr).
  exists b. split; [done|]. eapply (closed_reaches tearing); [|exact Hr|done].
  intros x y Hx Hy. by_edge (fun x y => implb (tearing x && can_transition x y) (tearing y)) x y He.
  by rewrite Hx, Hy in He.
Qed.

Lemma status_enum_value (b : WorkspaceStatus) : status_enum (status_value b) = Ok b.
Proof. unfold status_enum. by rewrite parse_status_value. Qed.

(** How a destroy can end: the operation's status and error code, and the workspace's status. *)
Inductive destroy_end : OperationStatus -> option string -> WorkspaceStatus -> Prop :=
| end_destroyed : destroy_end op_succeeded None destroyed
| end_failed : destroy_end op_failed (Some "CLEANUP_FAILED") failed
| end_ignored b : b = destroyed \/ b = failed -> destroy_end op_cancelled None b.

Definition destroy_verdict (r : CleanupResult) : OperationStatus :=
  if cleanup_ok r then op_succeeded else op_failed.

Definition settled (s : ControlDb) (ws op : string) (now : Z) (status : OperationStatus) : Prop :=
  exists code b, destroy_end status code b /\ finished s op status code now /\
                 status_of s ws = status_value b.

Section Settle.
Context (now : Z) (op cand : string) (ws : string).
Context (causality : ControlDb -> string -> option FailureCausalitySnapshot).

Lemma finish_settled (s : ControlDb) (status : OperationStatus) (code message : option string)
    (result : dict) (reason : string) (b : WorkspaceStatus) :
  is_Some (c_operations s !! op) -> status_of s ws = status_value b -> destroy_end status code b ->
  settled (_add_control_audit_event ws reason (finish_operation s op status result code message now))
    ws op now status.
Proof.
  intros Hop Hs He. exists code, b. split_and!; [done| |].
  - by apply (finish_finished s op status result code message now).
  - unfold _add_control_audit_event. rewrite status_note. unfold status_of. by rewrite finish_db.
Qed.

Lemma release_note_status (b : bool) (s : ControlDb) :
  status_of (if b then note_release ws s else s) ws = status_of s ws.
Proof. destruct b; [apply status_note|done]. Qed.

Lemma destroy_failed_settled (s s' : ControlDb) (r : CleanupResult) (payload : dict)
    (summary : option dict) (b : WorkspaceStatus) :
  is_Some (c_operations s !! op) -> status_of s ws = status_value b -> b = destroying \/ b = failed ->
  destroy_failed now op cand causality s ws r payload summary = Ok s' ->
  settled s' ws op now op_failed /\ c_leases s' = c_leases s.
Proof.
  intros Hop Hb Hcase H. unfold destroy_failed in H.
  set (s1 := match _ with Some p => _ | None => _ end) in H.
  assert (H1 : status_of s1 ws = status_value b /\ c_operations s1 = c_operations s /\
               c_leases s1 = c_leases s) by (subst s1; by destruct (fs_primary_failure <$> _)).
  clearbody s1. destruct H1 as (Hb1 & Ho1 & Hl1). rewrite Hb1, status_enum_value in H. cbn [rbind] in H.
  ok_bind H s2 E2.
  assert (H2 : status_of s2 ws = status_value failed /\ c_operations s2 = c_operations s1 /\
               c_leases s2 = c_leases s1).
  { destruct Hcase as [-> | ->].
    - change (can_transition destroying failed) with true in E2.
      pose proof (quiet_transition _ _ _ _ _ _ _ E2) as [_ Hst].
      pose proof (apart_transition _ _ _ _ _ _ _ E2) as [Hls _].
      apply later_transition in E2 as (_ & Ho & _). done.
    - change (can_transition failed failed) with false in E2.
      change (eqb failed failed) with true in E2. injection E2 as <-. by rewrite status_note. }
  destruct H2 as (Hb2 & Ho2 & Hl2). injection H as <-. split.
  - apply (finish_settled _ op_failed (Some "CLEANUP_FAILED") _ _ _ failed);
      [|by rewrite release_note_status|constructor].
    destruct (_ && _); unfold is_Some in *; simpl; by rewrite ?Ho2, Ho1.
  - unfold _add_control_audit_event. cbn [c_leases note set_db].
    rewrite (proj1 (apart_finish _ _ _ _ _ _ _)). destruct (_ && _); simpl; congruence.
Qed.

Lemma destroy_succeeded_settled (s s' : ControlDb) (r : CleanupResult) (summary : option dict) :
  is_Some (c_operations s !! op) -> status_of s ws = status_value destroying ->
  destroy_succeeded now op cand s ws r summary = Ok s' ->
  settled s' ws op now op_succeeded /\ c_leases s' = c_leases s.
Proof.
  intros Hop Hb H. unfold destroy_succeeded in H. rewrite Hb, status_enum_value in H. cbn [rbind] in H.
  change (can_transition destroying destroyed) with true in H. ok_bind H s1 E1.
  pose proof (quiet_transition _ _ _ _ _ _ _ E1) as [_ Hst].
  pose proof (apart_transition _ _ _ _ _ _ _ E1) as [Hls _].
  apply later_transition in E1 as (_ & Ho & _). injection H as <-. split.
  - apply (finish_settled _ op_succeeded None _ _ _ destroyed);
      [|by rewrite release_note_status|constructor].
    destruct (_ && _); simpl; by rewrite Ho.
  - unfold _add_control_audit_event. cbn [c_leases note set_db].
    rewrite (proj1 (apart_finish _ _ _ _ _ _ _)). destruct (_ && _); simpl; congruence.
Qed.

Lemma finish_destroy_settled (s s' : ControlDb) (r : CleanupResult) (payload : dict)
    (summary : option dict) (b : WorkspaceStatus) (resp : ControlResponse) :
  is_Some (c_operations s !! op) -> status_of s ws = status_value b -> tearing b = true ->
  finish_destroy now op cand causality s ws r payload summary = Ok (resp, s') ->
  exists status, settled s' ws op now status /\ (b = destroying -> status = destroy_verdict r) /\
    c_leases s' = c_leases s /\ resp_status resp = status_of s' ws.
Proof.
  intros Hop Hb Ht H. unfold finish_destroy in H. rewrite Hb, status_enum_value in H. cbn [rbind] in H.
  destruct (negb (eqb b destroying) && is_callback_terminal b
            && negb (negb (cleanup_ok r) && eqb b failed)) eqn:Ei in H.
  - injection H as <- <-. exists op_cancelled. split_and!; [| | |done].
    + apply (finish_settled _ op_cancelled None _ _ _ b); [done|by rewrite status_note|].
      constructor. destruct b; vm_compute in Ht; try discriminate Ht;
        [by right|by vm_compute in Ei|by left].
    + intros ->. by vm_compute in Ei.
    + unfold destroy_ignored, _add_control_audit_event. cbn [c_leases note set_db].
      by rewrite (proj1 (apart_finish _ _ _ _ _ _ _)).
  - unfold destroy_verdict. destruct (cleanup_ok r); cbn [negb] in H; ok_bind H s1 E1; injection H as <- <-.
    + assert (b = destroying) as -> by (by destruct b).
      apply destroy_succeeded_settled in E1 as [? ?]; [|done..]. by exists op_succeeded.
    + apply (destroy_failed_settled _ _ _ _ _ b) in E1 as [? ?]; [by exists op_failed|done..|].
      destruct b; vm_compute in Ht, Ei; try discriminate; auto.
Qed.
End Settle.

(** ** Properties *)

(** C9: a control that succeeds has moved the tables only along steps of the control plane
    itself, no reset among them; it keeps every operation recorded before with its
    workspace, kind, payload and key, and the keys unique; the operation it answers with
    belongs to the workspace and is of the kind asked for; and when that operation was there
    before, nothing has changed. *)
Theorem controls_follow_lifecycle (e : Env) (s s' : ControlDb) (c : Call) (id : string)
    (resp : option ControlResponse) :
  fair unattended e s -> answer e s c = Ok (id, resp, s') ->
  unattended (c_db s) (c_db s') /\ ops_le (c_operations s) (c_operations s') /\
  (keys_unique (c_operations s) -> keys_unique (c_operations s')) /\
  (exists o, c_operations s' !! id = Some o /\ o_workspace_id o = cl_workspace c /\
             o_type o = operation_type_value (request_type (cl_request c))) /\
  (id <> e_op e -> s' = s).
Proof.
  intros Hf H. apply (answer_outcome unattended) in H as [[Hd Ho Hk] Hout]; [|done|done].
  split_and!; try done.
  - destruct Hout as [(-> & o & ? & ? & ? & _)|(-> & o & ? & ? & ?)]; eauto.
  - destruct Hout as [(-> & _)|(-> & _)]; done.
Qed.

(** C10: once a call has created its operation under an idempotency key, that key is spent:
    in every later state, whatever transactions, operator resets included, came between, a
    call with the key that asks for the same of the same workspace is answered with that
    operation and changes nothing, even if the workspace has moved on and a new request
    would be refused, and any other call with the key is refused as a conflict. *)
Theorem request_answered_once (e e2 : Env) (s s1 s2 : ControlDb) (c c2 : Call) (k : string)
    (resp : option ControlResponse) :
  wf_db (c_db s) -> keys_unique (c_operations s) -> fair steps e s ->
  normal_key (cl_key c) = Some k -> answer e s c = Ok (e_op e, resp, s1) ->
  later_by steps s1 s2 -> normal_key (cl_key c2) = Some k ->
  (cl_workspace c2 = cl_workspace c /\ asks_same c c2 ->
   exists resp2, answer e2 s2 c2 = Ok (e_op e, resp2, s2)) /\
  (~ (cl_workspace c2 = cl_workspace c /\ asks_same c c2) ->
   answer e2 s2 c2 = Err IdempotencyConflictError).
Proof.
  intros Hwf Hu Hf Hk H Hl Hk2. destruct (answer_workspace _ _ _ _ _ _ H) as [w Hw].
  destruct (answer_outcome steps e s s1 c (e_op e) resp unattended_steps Hf H) as [Hl1 Hout].
  destruct Hout as [(_ & o & Ho & Hws & Hty & Hkey & Hrec)|(_ & o & Ho & _)];
    [|by rewrite (fair_op _ _ _ Hf) in Ho].
  assert (Hl2 : later_by steps s s2) by (by etrans).
  destruct (lt_ops _ _ _ Hl _ _ Ho) as (o2 & Ho2 & Hw2 & Ht2 & Hp2 & Hk2').
  assert (Hby : get_by_idempotency_key (c_operations s2) k = Some (e_op e, o2)).
  { apply by_key_spec; [by apply (lt_keys _ _ _ Hl2)|]. split; [done|]. congruence. }
  rewrite <- Hp2 in Hrec. split.
  - intros [Hsame Hask]. destruct (later_workspace _ _ _ _ Hl2 Hwf Hw) as (w2 & b & Hw2' & Hb).
    rewrite <- Hsame in Hw2'. pose proof (keyed_answer e2 s2 c2 k _ o2 w2 b Hk2 Hby Hw2' Hb) as Ha.
    assert (Hr : request_type (cl_request c) = request_type (cl_request c2))
      by (destruct Hask as [-> _]; done).
    rewrite (proj2 (recorded_accepts c c2 _ Hrec Hr) Hask), Hw2, Ht2, Hws, Hty, Hsame, Hr,
      !eqb_refl in Ha. exact Ha.
  - intros Hdiff. apply (keyed_conflict e2 s2 c2 k _ o2 Hk2 Hby).
    apply not_true_is_false. intros Hall. apply Hdiff. bool_simpl. rewrite !eqb_true in *.
    assert (Hr : request_type (cl_request c) = request_type (cl_request c2))
      by (apply request_type_value; congruence).
    split; [congruence|]. by apply (recorded_accepts c c2 _ Hrec Hr).
Qed.

(** A version admits one of the requests that were made for it: once a validate or a
    rebase was admitted at version [v], every later call on the workspace that carries [v]
    and is not the repetition of a recorded request is refused, whatever it asks for, with a
    conflict that names the newer version. *)
Theorem version_admits_once (e e2 : Env) (s s1 s2 : ControlDb) (c c2 : Call) (v : Z)
    (resp : option ControlResponse) :
  c_operations s !! e_op e = None -> requeues (cl_request c) = true -> cl_version c = Some v ->
  answer e s c = Ok (e_op e, resp, s1) -> later_by steps s1 s2 ->
  cl_workspace c2 = cl_workspace c -> cl_version c2 = Some v ->
  (forall k, normal_key (cl_key c2) = Some k -> get_by_idempotency_key (c_operations s2) k = None) ->
  exists v', v < v' /\ answer e2 s2 c2 = Err (VersionConflictError v v').
Proof.
  intros Hop Hr Hv H Hl Hws Hv2 Hk. destruct (requeue_moves e s s1 c v resp Hop Hr Hv H) as
    (w1 & Hw1 & _ & Hlt).
  destruct (later_version _ _ _ _ Hl Hw1) as (w2 & Hw2 & Hle). rewrite <- Hws in Hw2.
  exists (l_version (w_life w2)). split; [lia|]. apply stale_answer; [done..|lia].
Qed.

(** A stop, or a cancel that takes the stack down, tells what the teardown did: the
    operation succeeds exactly when the cleanup did, and carries the error code and the
    message of a failed one; an active workspace ends cancelled either way; the release of
    its runtime is on record after a cleanup that succeeded on a workspace that ended, and
    is not added after one that did not; and when the request is repeated it is answered
    with the message of the first time. *)
Theorem stack_release_reported (e : Env) (s s' : ControlDb) (c : Call) (w : Workspace)
    (r : CleanupResult) (resp : ControlResponse) :
  c_operations s !! e_op e = None -> releases_stack (cl_request c) = true ->
  workspaces (c_db s) !! cl_workspace c = Some w ->
  _release_runtime_stack (e_cleaner e) s (cl_workspace c) w = Ok r ->
  answer e s c = Ok (e_op e, Some resp, s') ->
  stack_reported (e_now e) (e_op e) (cl_workspace c) (stack_messages (cl_request c)).1
    (stack_messages (cl_request c)).2 s r resp s' /\
  (forall a, l_status (w_life w) = status_value a -> _is_active a = true ->
   status_of s' (cl_workspace c) = status_value cancelled) /\
  (forall e2 s2 s3 c2 resp2, e_op e2 <> e_op e -> cl_request c2 = cl_request c ->
   c_operations s2 !! e_op e = c_operations s' !! e_op e ->
   answer e2 s2 c2 = Ok (e_op e, Some resp2, s3) -> resp_message resp2 = resp_message resp).
Proof.
  intros Hop Hr Hw Hrel H.
  assert (Hrep : stack_reported (e_now e) (e_op e) (cl_workspace c)
      (stack_messages (cl_request c)).1 (stack_messages (cl_request c)).2 s r resp s' /\
    (forall a, l_status (w_life w) = status_value a -> _is_active a = true ->
     status_of s' (cl_workspace c) = status_value cancelled)).
  { unfold answer in H. destruct (cl_request c) as [reason stop|reason| | | |]; try discriminate Hr;
      ok_bind H q E; destruct q as [x t]; injection H as Hid -> ->.
    - simpl in Hr. subst stop. eapply cancel_reported; eauto.
    - eapply stop_reported; eauto. }
  destruct Hrep as [Hrep Hcan]. split_and!; [done|done|].
  intros e2 s2 s3 c2 resp2 Hne Hc Ho H2.
  destruct (sr_operation _ _ _ _ _ _ _ _ _ Hrep) as (o & Ho' & Hst & _). rewrite <- Hc in Hr.
  rewrite (replayed_message e2 s2 s3 c2 (e_op e) o resp2 Hr) by (congruence || done).
  rewrite (sr_message _ _ _ _ _ _ _ _ _ Hrep), Hc. unfold _stack_release_replay_message.
  rewrite Hst. unfold release_status. by destruct (cleanup_ok r).
Qed.

(** A destroy that is admitted leaves nothing half torn down, whatever other
    transactions did while the cleaner ran: the workspace ends destroyed, or failed, never
    destroying; the operation ends with it, as succeeded, failed or, when something else
    ended the workspace first, cancelled; undisturbed, it succeeds exactly when the cleanup
    of the workspace's stack and worktrees did; a workspace at work is destroyed only when
    forced; and no lease of a secret stays valid unless a transaction meanwhile issued it. *)
Theorem destroy_settles (e : Env) (s s' : ControlDb) (c : Call) (force rv rw : bool)
    (w : Workspace) (resp : ControlResponse) :
  fair unattended e s -> wf_db (c_db s) -> cl_request c = Destroy force rv rw ->
  workspaces (c_db s) !! cl_workspace c = Some w ->
  answer e s c = Ok (e_op e, Some resp, s') ->
  exists status,
    settled s' (cl_workspace c) (e_op e) (e_now e) status /\
    resp_status resp = status_of s' (cl_workspace c) /\
    (force = false -> forall a, l_status (w_life w) = status_value a -> _is_active a = false) /\
    (l_status (w_life w) <> status_value destroyed -> (forall x, e_meanwhile e x = x) ->
     exists r, run_cleaner (e_cleaner e)
                 (cleanup_args s (cl_workspace c) w (rt_companions (runtime_of s (cl_workspace c)))
                    rv rw) = Ok r /\ status = destroy_verdict r) /\
    (lease_inv (c_leases s) -> (forall x, c_leases (e_meanwhile e x) = c_leases x) ->
     none_active (cl_workspace c) (c_leases s')).
Proof.
  intros [Hop Hm] Hwf Hreq Hw H. destruct (wf_status _ (Hwf _ _ Hw)) as [a Ha].
  unfold answer in H. rewrite Hreq in H. ok_bind H q E. destruct q as [x t].
  injection H as Hid -> ->. cbn [fst snd] in *. set (ws := cl_workspace c) in *.
  unfold destroy_workspace in E. ok_bind E p Ep. apply prepare_right in Ep as (Hpw & _ & Hp).
  assert (po_workspace p = w) as Epw by congruence. rewrite Epw in E.
  destruct (po_replay p) as [[i o]|].
  { injection E as <- _. simpl in Hid. subst i. destruct Hp as [Ho _]. congruence. }
  rewrite Ha, status_enum_value in E. cbn [rbind] in E.
  destruct (_is_active a && negb force) eqn:Eact in E; [discriminate E|].
  assert (Hforce : force = false -> forall b, l_status (w_life w) = status_value b -> _is_active b = false).
  { intros -> b Hb. assert (b = a) as -> by (apply status_value_inj; congruence).
    by destruct (_is_active a). }
  set (s1 := create_operation _ _ _ _ _ _ _ _) in E.
  destruct (_revoke_destroy_secret_leases (e_lease_now e) s1 ws) as [s2 summary] eqn:Er.
  assert (H2 : status_of s2 ws = status_value a /\ c_operations s2 = c_operations s1 /\
               c_runtimes s2 = c_runtimes s /\
               (lease_inv (c_leases s) -> none_active ws (c_leases s2))).
  { pose proof (revoke_none_active (c_leases s) ws (e_lease_now e) TERMINAL_CLEANUP_REVOKE_REASON) as Hn.
    unfold _revoke_destroy_secret_leases in Er. change (c_leases s1) with (c_leases s) in Er.
    destruct (SecretLeases.revoke_workspace_secret_leases _ _ _ _) as [l ids]. injection Er as <- <-.
    split_and!; [|done|done|exact Hn]. unfold status_of. simpl. rewrite lookup_alter_eq, Hw. simpl.
    by rewrite add_events_status. }
  destruct H2 as (Hs2 & Ho2 & Hr2 & Hl2).
  assert (Hop2 : is_Some (c_operations s2 !! e_op e)).
  { rewrite Ho2. unfold s1, create_operation, create. simpl. rewrite lookup_insert_eq. eauto. }
  destruct (eqb a destroyed) eqn:Ed in E.
  - rewrite eqb_true in Ed. subst a. injection E as <- <-. exists op_succeeded. split_and!; try done.
    + apply (finish_settled _ _ _ _ op_succeeded None _ _ _ destroyed); [done|exact Hs2|constructor].
    + intros Hinv _. unfold _add_control_audit_event. cbn [c_leases note set_db].
      rewrite (proj1 (apart_finish _ _ _ _ _ _ _)). by apply Hl2.
  - apply eqb_false in Ed. ok_bind E s3 E3. ok_bind E r Ec.
    pose proof (start_destroying_later _ _ _ _ _ _ E3) as Hl3.
    apply (start_destroying_spec _ _ _ _ _ _ Hs2 Ed) in E3 as [Hs3 [Hle3 Hrt3]].
    destruct (tearing_closed _ _ ws destroying (Hm s3) Hs3 eq_refl) as (b & Hb & Ht).
    assert (Hop3 : is_Some (c_operations (e_meanwhile e s3) !! e_op e)).
    { eapply later_op; [apply Hm|]. by eapply later_op. }
    destruct (finish_destroy_settled _ _ _ _ _ _ _ _ _ _ b _ Hop3 Hb Ht E)
      as (status & Hset & Hver & Hls & Hrs).
    exists status. split_and!; [done|done|done| |].
    + intros _ Hid'. exists r. split.
      * rewrite <- Ec. unfold cleanup_args, runtime_of. by rewrite Hrt3, Hr2.
      * apply Hver. rewrite Hid', Hs3 in Hb. by apply status_value_inj in Hb.
    + intros Hinv Hml. rewrite Hls, Hml, Hle3. by apply Hl2.
Qed.

(** ** Instances *)

(** A monitored workspace. *)
Definition sample_control : ControlDb :=
  {| c_db := sample_db monitoring_pr None None; c_operations := ∅; c_attention := ∅;
     c_leases := SecretLeasesFacts.no_leases {["ws"]}; c_runtimes := ∅; c_failures := ∅ |}.

(** A cleaner whose compose step succeeds or not. *)
Definition sample_cleaner (ok : bool) (a : CleanupArgs) : CleanupResultLike :=
  AsResult (from_steps [{| sr_name := "compose_down";
                           sr_status := if ok then step_succeeded else step_failed;
                           sr_reason_code := "COMPOSE_DOWN"; sr_error := None |}]).

Definition sample_env (op : string) (ok : bool) : Env :=
  {| e_now := 50; e_op := op; e_cand := "c9"; e_cleaner := sample_cleaner ok;
     e_meanwhile := id; e_lease_now := SecretLeasesFacts.sample_now; e_causality := fun _ _ => None |}.

Definition sample_call (r : Request) (key : option string) (v : option Z) : Call :=
  {| cl_workspace := "ws"; cl_request := r; cl_key := key; cl_version := v |}.

Definition after (r : result ControlError (string * option ControlResponse * ControlDb)) : ControlDb :=
  match r with Ok (_, _, s) => s | Err _ => sample_control end.

Lemma sample_fair (R : relation Db) `{!PreOrder R} (op : string) (ok : bool) :
  fair R (sample_env op ok) sample_control.
Proof. split; [done|]. intros s. done. Qed.

Lemma sample_control_wf : wf_db (c_db sample_control).
Proof.
  intros ws w Hw. simpl in Hw. apply lookup_singleton_Some in Hw as [<- <-]. split.
  - by exists monitoring_pr.
  - vm_compute. split_and!; try done; [exists requested, provisioning|exists provisioning, monitoring_pr]; done.
  - repeat constructor.
  - repeat constructor; vm_compute; discriminate.
Qed.

(** The validate that the samples start from, under the key "k" at version 9. *)
Definition sample_validate : Call := sample_call (Validate (Some "check") None) (Some " k ") (Some 9).
Definition sample_validated : ControlDb := after (answer (sample_env "o1" true) sample_control sample_validate).

Lemma sample_answer :
  answer (sample_env "o1" true) sample_control sample_validate = Ok ("o1", None, sample_validated).
Proof. vm_compute. reflexivity. Qed.

Lemma controls_follow_lifecycle_witness :
  unattended (c_db sample_control) (c_db sample_validated) /\
  status_of sample_validated "ws" = "ready".
Proof.
  split; [|by vm_compute].
  exact (proj1 (controls_follow_lifecycle (sample_env "o1" true) sample_control sample_validated
    sample_validate "o1" None (sample_fair unattended "o1" true) sample_answer)).
Defined.

(** Repeated after the workspace went back to work, the request is answered; another under
    its key is not. *)
Lemma request_answered_once_witness :
  (exists resp, answer (sample_env "o2" true) sample_validated sample_validate
                = Ok ("o1", resp, sample_validated)) /\
  answer (sample_env "o2" true) sample_validated (sample_call (Stop None) (Some "k") None)
  = Err IdempotencyConflictError.
Proof.
  split.
  - apply (request_answered_once (sample_env "o1" true) (sample_env "o2" true) sample_control
      sample_validated sample_validated sample_validate sample_validate "k" None);
      [exact sample_control_wf|by intros i j o o' k Hi|exact (sample_fair _ _ _)|done
      |exact sample_answer|done|done|by split].
  - apply (request_answered_once (sample_env "o1" true) (sample_env "o2" true) sample_control
      sample_validated sample_validated sample_validate (sample_call (Stop None) (Some "k") None) "k" None);
      [exact sample_control_wf|by intros i j o o' k Hi|exact (sample_fair _ _ _)|done
      |exact sample_answer|done|done|by intros [_ [? _]]].
Defined.

Lemma version_admits_once_witness :
  exists v', 9 < v' /\
    answer (sample_env "o2" true) sample_validated (sample_call (Rebase None) (Some "k2") (Some 9))
    = Err (VersionConflictError 9 v').
Proof.
  apply (version_admits_once (sample_env "o1" true) (sample_env "o2" true) sample_control
    sample_validated sample_validated sample_validate _ 9 None);
    [done|done|done|exact sample_answer|done|done|done|].
  intros k Hk. injection Hk as <-. by vm_compute.
Defined.

(** A stop whose teardown fails. *)
Lemma stack_release_reported_witness :
  exists s' resp, answer (sample_env "o1" false) sample_control (sample_call (Stop None) None None)
                  = Ok ("o1", Some resp, s') /\
    status_of s' "ws" = "cancelled" /\ resp_operation_status resp = "failed".
Proof.
  destruct (answer (sample_env "o1" false) sample_control (sample_call (Stop None) None None))
    as [[[id resp] s']|e] eqn:E; [|by vm_compute in E].
  destruct resp as [resp|]; [|by vm_compute in E].
  assert (id = "o1") as -> by (vm_compute in E; congruence).
  destruct (stack_release_reported (sample_env "o1" false) sample_control s'
    (sample_call (Stop None) None None) (sample_workspace monitoring_pr None None)
    (from_steps [{| sr_name := "compose_down"; sr_status := step_failed;
                    sr_reason_code := "COMPOSE_DOWN"; sr_error := None |}]) resp)
    as (Hr & Hc & _); [done|done|done|done|exact E|].
  exists s', resp. split; [done|]. split.
  - by apply (Hc monitoring_pr).
  - exact (sr_op_status _ _ _ _ _ _ _ _ _ Hr).
Defined.

Lemma destroy_settles_witness :
  exists s' resp status, answer (sample_env "o1" true) sample_control
                           (sample_call (Destroy true false true) None None)
                         = Ok ("o1", Some resp, s') /\
    settled s' "ws" "o1" 50 status.
Proof.
  destruct (answer (sample_env "o1" true) sample_control
              (sample_call (Destroy true false true) None None))
    as [[[id resp] s']|e] eqn:E; [|by vm_compute in E].
  destruct resp as [resp|]; [|by vm_compute in E].
  assert (id = "o1") as -> by (vm_compute in E; congruence).
  destruct (destroy_settles (sample_env "o1" true) sample_control s'
    (sample_call (Destroy true false true) None None) true false true
    (sample_workspace monitoring_pr None None) resp)
    as (status & Hs & _); [exact (sample_fair _ _ _)|exact sample_control_wf|done|done|exact E|].
  exists s', resp, status. split; [reflexivity|exact Hs].
Defined.
