(* ===== verification/GcPlan.v ===== *)
(** * What the garbage collector may delete

    The plan of the terminal-workspace garbage collection ([service/gc.py], with
    [gc_classify.py], [gc_predicates.py], [gc_companions.py] and [gc_results.py]): the
    classification of a workspace, the SQL predicates that fetch its rows, and the plan
    over a table.

    The file system and the Docker inspection are read through parameters; a probe may
    raise [OSError], which aborts the plan. *)

From S2P Require Import Prelude PyStr PyPath Status Store WorkspaceRepo Claims.
From S2P Require SecretLeases.
#[local] Open Scope Z_scope.

(** ** Errors of the operating system *)

Record OsError : Type := { os_errno : option Z; os_text : string }.

Definition EPERM : Z := 1.
Definition ENOENT : Z := 2.
Definition EACCES : Z := 13.

Definition _PERMISSION_DENIED_ERRNOS : list (option Z) := [Some EACCES; Some EPERM].

(** Python raises [PermissionError] for these. *)
Definition is_permission_error (e : OsError) : bool :=
  mem (os_errno e) [Some EACCES; Some EPERM].

Inductive GcError : Type :=
| GcOsError (e : OsError)
(** [ValueError("ignore_retention=True requires default_policy=True")] *)
| IgnoreRetentionError.

(** ** Tables *)

(** The columns of a workspace that only the collector reads; a companion of the task
    policy is its name and its repository, where the mapping has the key. *)
Record GcColumns : Type := {
  gx_updated_at : Z;
  gx_pr_merge_sha : option string;
  gx_compose_project_name : option string;
  gx_compose_file_path : option string;
  gx_companions : list (option string * option string)
}.

Record GcDb : Type := {
  gc_db : Db;
  gc_columns : gmap string GcColumns;
  gc_leases : SecretLeases.LeaseDb
}.

Record GcRow : Type := { gr_id : string; gr_workspace : Workspace; gr_columns : GcColumns }.

Definition row_status (r : GcRow) : string := l_status (w_life (gr_workspace r)).
Definition updated_at (r : GcRow) : Z := gx_updated_at (gr_columns r).
Definition reclaimed (r : GcRow) : bool :=
  negb (eqb (l_filesystem_reclaimed_at (w_life (gr_workspace r))) None).
Definition pr_url (r : GcRow) : option string := d_pr_url (w_desc (gr_workspace r)).
Definition pr_number (r : GcRow) : option Z := d_pr_number (w_desc (gr_workspace r)).

Definition gc_rows (s : GcDb) : list GcRow :=
  omap (fun p => x ← gc_columns s !! p.1;
                 Some {| gr_id := p.1; gr_workspace := p.2; gr_columns := x |})
    (map_to_list (workspaces (gc_db s))).

(** ** Statuses *)

Definition TERMINAL_WORKSPACE_GC_STATUSES : list string :=
  [status_value completed; status_value failed; "superseded"; status_value cancelled;
   status_value destroyed].

Definition FAILED_NO_WORK_TERMINAL_STATUSES : list string := [status_value failed; "superseded"].

Definition PROTECTED_WORKSPACE_GC_STATUSES : list string :=
  map status_value [requested; provisioning; ready; running; validating; pushing; monitoring_pr;
                    blocked; recovering; destroying].

(** ** The runtime of a failed workspace *)

Record RuntimeService : Type := {
  rs_name : option string;
  rs_state : option string;
  rs_command : option string
}.

Record RuntimeSnapshot : Type := { stack_state : string; services : list RuntimeService }.

Definition _FAILED_NO_WORK_RUNTIME_IDLE_PATTERNS : list string :=
  ["sleep infinity"; "tail -f /dev/null"].

Definition _container_command_is_idle (command : option string) : bool :=
  match truthy_str command with
  | None => false
  | Some c => existsb (fun pattern => contains pattern (lower c))
                _FAILED_NO_WORK_RUNTIME_IDLE_PATTERNS
  end.

Definition _agent_service_has_no_work (s : RuntimeService) : bool :=
  eqb (lower (default "" (rs_state s))) "running" && _container_command_is_idle (rs_command s).

Definition _snapshot_has_no_work (snapshot : RuntimeSnapshot) : bool :=
  if eqb (stack_state snapshot) "unavailable" then false
  else match List.filter (fun s => eqb (lower (default "" (rs_name s))) "agent")
               (services snapshot) with
       | [] => false
       | s :: _ => _agent_service_has_no_work s
       end.

(** ** What a pull request says *)

(** [bool(workspace.pr_url or workspace.pr_number)] *)
Definition _has_pr_metadata (r : GcRow) : bool :=
  negb (eqb (truthy_str (pr_url r)) None)
  || match pr_number r with Some n => negb (n =? 0) | None => false end.

Definition _pr_has_merged (r : GcRow) : bool := negb (eqb (gx_pr_merge_sha (gr_columns r)) None).

(** ** The SQL predicates *)

Section Predicates.
Context (eligible_statuses : list string) (cutoff_at preserved_failed_cutoff_at : Z).
Context (default_policy cleanup_enabled : bool).

Definition workspace_has_pr_metadata_predicate (r : GcRow) : bool :=
  negb (eqb (pr_number r) None)
  || (negb (eqb (pr_url r) None) && negb (eqb (pr_url r) (Some ""))).

Definition workspace_lacks_pr_metadata_predicate (r : GcRow) : bool :=
  eqb (pr_number r) None && (eqb (pr_url r) None || eqb (pr_url r) (Some "")).

Definition workspace_has_pr_merge_predicate (r : GcRow) : bool :=
  negb (eqb (gx_pr_merge_sha (gr_columns r)) None).

Definition workspace_pr_not_merged_predicate (r : GcRow) : bool :=
  workspace_has_pr_metadata_predicate r && eqb (gx_pr_merge_sha (gr_columns r)) None.

Definition workspace_gc_candidate_predicate : option (GcRow -> bool) :=
  if negb cleanup_enabled then None
  else if default_policy then
    if negb (mem (status_value completed) eligible_statuses) then None
    else Some (fun r => negb (reclaimed r) && eqb (row_status r) (status_value completed)
                        && (updated_at r <=? cutoff_at)
                        && workspace_has_pr_metadata_predicate r
                        && workspace_has_pr_merge_predicate r)
  else Some (fun r => negb (reclaimed r) && mem (row_status r) eligible_statuses
                      && (updated_at r <=? cutoff_at)).

Definition workspace_gc_preserved_predicate : option (GcRow -> bool) :=
  if negb cleanup_enabled
  then Some (fun r => negb (reclaimed r) && mem (row_status r) eligible_statuses)
  else if default_policy then
    let clauses :=
      (if mem (status_value failed) eligible_statuses
       then [fun r => eqb (row_status r) (status_value failed)] else [])
      ++ (if mem "superseded" eligible_statuses
          then [fun r => eqb (row_status r) "superseded"] else [])
      ++ (if mem (status_value completed) eligible_statuses
          then [fun r => eqb (row_status r) (status_value completed)
                         && (workspace_lacks_pr_metadata_predicate r
                             || workspace_pr_not_merged_predicate r
                             || (cutoff_at <? updated_at r))] else []) in
    match clauses with
    | [] => None
    | _ :: _ => Some (fun r => negb (reclaimed r) && existsb (fun clause => clause r) clauses)
    end
  else Some (fun r => negb (reclaimed r) && mem (row_status r) eligible_statuses
                      && (cutoff_at <? updated_at r)).

Definition workspace_gc_age_capped_predicate : option (GcRow -> bool) :=
  if negb cleanup_enabled || negb default_policy then None
  else
    match List.filter (fun st => mem st eligible_statuses) [status_value failed; "superseded"] with
    | [] => None
    | statuses => Some (fun r => negb (reclaimed r) && mem (row_status r) statuses
                                 && (updated_at r <=? preserved_failed_cutoff_at))
    end.
End Predicates.

(** ** Candidates *)

Record WorkspaceGCPath : Type := {
  gp_kind : string;
  gp_path : path;
  gp_exists : bool;
  gp_estimated_bytes : Z
}.

Record WorkspaceGCCandidate : Type := {
  cd_workspace_id : string;
  cd_status : string;
  cd_updated_at : Z;
  cd_age_hours : Z;
  cd_reason_code : string;
  cd_worktree : WorkspaceGCPath;
  cd_compose : WorkspaceGCPath;
  cd_auth : WorkspaceGCPath;
  cd_companion_worktrees : list WorkspaceGCPath;
  cd_compose_project_name : option string;
  cd_compose_file_path : option string
}.

Definition candidate_paths (c : WorkspaceGCCandidate) : list WorkspaceGCPath :=
  cd_worktree c :: cd_companion_worktrees c ++ [cd_compose c; cd_auth c].

Record WorkspaceGCPreserved : Type := {
  pv_workspace_id : string;
  pv_status : string;
  pv_updated_at : Z;
  pv_age_hours : Z;
  pv_reason_code : string;
  pv_compose_project_name : option string;
  pv_compose_file_path : option string
}.

Definition COMPLETED_PR_RETENTION_EXPIRED : string := "COMPLETED_PR_RETENTION_EXPIRED".
Definition COMPLETED_PR_IMMEDIATE_RECLAIM : string := "COMPLETED_PR_IMMEDIATE_RECLAIM".
Definition TERMINAL_WORKSPACE_RETENTION_EXPIRED : string := "TERMINAL_WORKSPACE_RETENTION_EXPIRED".
Definition WORKSPACE_WITHIN_RETENTION : string := "WORKSPACE_WITHIN_RETENTION".
Definition FAILED_WORKSPACE_TRIAGE_PRESERVED : string := "FAILED_WORKSPACE_TRIAGE_PRESERVED".
Definition FAILED_WORKSPACE_NO_WORK : string := "FAILED_WORKSPACE_NO_WORK".
Definition PRESERVED_FAILED_AGE_CAP_RECLAIMED : string := "PRESERVED_FAILED_AGE_CAP_RECLAIMED".
Definition COMPLETED_WORKSPACE_WITHOUT_PR : string := "COMPLETED_WORKSPACE_WITHOUT_PR".
Definition COMPLETED_PR_NOT_MERGED : string := "COMPLETED_PR_NOT_MERGED".
Definition WORKSPACE_CLEANUP_DISABLED : string := "WORKSPACE_CLEANUP_DISABLED".

Definition COMPANION_WORKTREE_MARKER : string := "__companion__".
Definition companion_worktree_id (workspace_id companion_name : string) : string :=
  workspace_id +:+ COMPANION_WORKTREE_MARKER +:+ companion_name.

(** ** Classification *)

Section Classify.
(** The file system and Docker as the plan finds them: whether a path exists, the bytes
    below it, the snapshot of a compose project ([None] when inspecting raises), and the
    home directory of a path. *)
Context {W : Type} (exists_path : W -> path -> result OsError bool).
Context (_estimate_bytes : W -> path -> result OsError Z).
Context (inspect : W -> string -> option RuntimeSnapshot) (expanduser : path -> path).
Context (world : W) (work_dir : path) (now : Z).

Definition os {A : Type} (r : result OsError A) : result GcError A :=
  match r with Ok a => Ok a | Err e => Err (GcOsError e) end.

Definition _gc_path (kind : string) (p : path) : result GcError WorkspaceGCPath :=
  exists_ <-? os (exists_path world p) ;;
  estimated_bytes <-? os (_estimate_bytes world p) ;;
  Ok {| gp_kind := kind; gp_path := p; gp_exists := exists_;
        gp_estimated_bytes := estimated_bytes |}.

Fixpoint gc_paths (l : list (string * path)) : result GcError (list WorkspaceGCPath) :=
  match l with
  | [] => Ok []
  | (kind, p) :: rest => x <-? _gc_path kind p ;; xs <-? gc_paths rest ;; Ok (x :: xs)
  end.

Definition _compose_project_name_for_workspace (r : GcRow) : option string :=
  truthy_str (gx_compose_project_name (gr_columns r)).

Definition _failed_terminal_workspace_has_no_work (r : GcRow) : bool :=
  match _compose_project_name_for_workspace r with
  | None => false
  | Some project => match inspect world project with
                    | None => false
                    | Some snapshot => _snapshot_has_no_work snapshot
                    end
  end.

Definition companion_worktree_paths_for_gc (r : GcRow) : list path :=
  omap (fun c => match c with
                 | (Some name, Some _) =>
                     Some (div (div (div work_dir "git") "worktrees")
                             (companion_worktree_id (gr_id r) name))
                 | _ => None
                 end) (gx_companions (gr_columns r)).

(** Microseconds to whole hours; exact for any age below 272 years. *)
Definition age_hours (r : GcRow) : Z := Z.max 0 ((now - updated_at r) / 3600000000).

Definition _candidate_for_workspace (r : GcRow) (reason_code : string)
  : result GcError WorkspaceGCCandidate :=
  let worktree_path := div (div (div work_dir "git") "worktrees") (gr_id r) in
  companion_worktrees <-?
    gc_paths (map (fun p => ("companion_worktree:" +:+ path_name p, p))
                (companion_worktree_paths_for_gc r)) ;;
  let compose_path :=
    match truthy_str (gx_compose_file_path (gr_columns r)) with
    | Some file => parent (expanduser (Path file))
    | None => div (div work_dir "compose") (gr_id r)
    end in
  let auth_path := div (div work_dir "auth") (gr_id r) in
  worktree <-? _gc_path "worktree" worktree_path ;;
  compose <-? _gc_path "compose" compose_path ;;
  auth <-? _gc_path "auth" auth_path ;;
  Ok {| cd_workspace_id := gr_id r; cd_status := row_status r; cd_updated_at := updated_at r;
        cd_age_hours := age_hours r; cd_reason_code := reason_code; cd_worktree := worktree;
        cd_compose := compose; cd_auth := auth; cd_companion_worktrees := companion_worktrees;
        cd_compose_project_name := gx_compose_project_name (gr_columns r);
        cd_compose_file_path := gx_compose_file_path (gr_columns r) |}.

Inductive Classification : Type :=
| Candidate (c : WorkspaceGCCandidate)
| Preserved (p : WorkspaceGCPreserved)
| Skipped.

Section Policy.
Context (cutoff_at : Z) (default_policy cleanup_enabled ignore_retention : bool).
Context (preserved_failed_cutoff_at : option Z).

Definition preserved (r : GcRow) (reason_code : string) : result GcError Classification :=
  Ok (Preserved {| pv_workspace_id := gr_id r; pv_status := row_status r;
                   pv_updated_at := updated_at r; pv_age_hours := age_hours r;
                   pv_reason_code := reason_code;
                   pv_compose_project_name := gx_compose_project_name (gr_columns r);
                   pv_compose_file_path := gx_compose_file_path (gr_columns r) |}).

Definition candidate (r : GcRow) (reason_code : string) : result GcError Classification :=
  c <-? _candidate_for_workspace r reason_code ;; Ok (Candidate c).

Definition _preserved_failed_or_age_capped (r : GcRow) : result GcError Classification :=
  match preserved_failed_cutoff_at with
  | Some cutoff => if updated_at r <=? cutoff then candidate r PRESERVED_FAILED_AGE_CAP_RECLAIMED
                   else preserved r FAILED_WORKSPACE_TRIAGE_PRESERVED
  | None => preserved r FAILED_WORKSPACE_TRIAGE_PRESERVED
  end.

Definition classify_failed (r : GcRow) : result GcError Classification :=
  if _failed_terminal_workspace_has_no_work r then
    if updated_at r <=? cutoff_at then candidate r FAILED_WORKSPACE_NO_WORK
    else preserved r WORKSPACE_WITHIN_RETENTION
  else _preserved_failed_or_age_capped r.

Definition classify_completed (r : GcRow) : result GcError Classification :=
  if negb (_has_pr_metadata r) then preserved r COMPLETED_WORKSPACE_WITHOUT_PR
  else if negb (_pr_has_merged r) then preserved r COMPLETED_PR_NOT_MERGED
  else if (cutoff_at <? updated_at r) && negb ignore_retention
  then preserved r WORKSPACE_WITHIN_RETENTION
  else candidate r (if ignore_retention then COMPLETED_PR_IMMEDIATE_RECLAIM
                    else COMPLETED_PR_RETENTION_EXPIRED).

Definition _classify_workspace_for_gc (r : GcRow) : result GcError Classification :=
  if ignore_retention && negb default_policy then Err IgnoreRetentionError
  else if reclaimed r then Ok Skipped
  else if mem (row_status r) PROTECTED_WORKSPACE_GC_STATUSES then Ok Skipped
  else if negb (mem (row_status r) TERMINAL_WORKSPACE_GC_STATUSES) then Ok Skipped
  else if negb cleanup_enabled then preserved r WORKSPACE_CLEANUP_DISABLED
  else if default_policy then
    if eqb (row_status r) (status_value failed) then classify_failed r
    else if eqb (row_status r) "superseded" then classify_failed r
    else if negb (eqb (row_status r) (status_value completed)) then Ok Skipped
    else classify_completed r
  else if cutoff_at <? updated_at r then preserved r WORKSPACE_WITHIN_RETENTION
  else if mem (row_status r) FAILED_NO_WORK_TERMINAL_STATUSES
          && negb (eqb (gx_compose_project_name (gr_columns r)) None)
          && negb (_failed_terminal_workspace_has_no_work r)
  then preserved r TERMINAL_WORKSPACE_RETENTION_EXPIRED
  else if mem (row_status r) FAILED_NO_WORK_TERMINAL_STATUSES
  then candidate r FAILED_WORKSPACE_NO_WORK
  else candidate r (if eqb (row_status r) (status_value completed) && _has_pr_metadata r
                    then COMPLETED_PR_RETENTION_EXPIRED
                    else TERMINAL_WORKSPACE_RETENTION_EXPIRED).
End Policy.

(** ** The plan *)

Record WorkspaceGCPlan : Type := {
  pl_work_dir : path;
  pl_cutoff_at : Z;
  pl_include_statuses : list string;
  pl_exclude_statuses : list string;
  pl_candidates : list WorkspaceGCCandidate;
  pl_preserved : list WorkspaceGCPreserved;
  pl_cleanup_enabled : bool;
  pl_default_policy : bool
}.

(** [order_by(updated_at.asc(), id.asc())] *)
Definition oldest_row (x y : GcRow) : bool :=
  (updated_at x <? updated_at y) || ((updated_at x =? updated_at y) && str_leb (gr_id x) (gr_id y)).

Definition oldest_candidate (x y : WorkspaceGCCandidate) : bool :=
  (cd_updated_at x <? cd_updated_at y)
  || ((cd_updated_at x =? cd_updated_at y) && str_leb (cd_workspace_id x) (cd_workspace_id y)).

Definition limited {A : Type} (row_limit : option nat) (l : list A) : list A :=
  match row_limit with Some n => take n l | None => l end.

(** One of the three queries. *)
Definition fetch (s : GcDb) (row_limit : option nat) (statuses : option (list string))
    (predicate : option (GcRow -> bool)) : list GcRow :=
  match predicate with
  | None => []
  | Some p =>
      limited row_limit (sorted_by oldest_row
        (List.filter (fun r => match statuses with Some l => mem (row_status r) l | None => true end
                               && recovery_allows_work (gc_db s) (gr_id r) (gr_workspace r) && p r)
           (gc_rows s)))
  end.

Section Plan.
Context (classify : GcRow -> result GcError Classification).

(** The rows of the first query, each classified. *)
Fixpoint classify_candidates (rows : list GcRow)
    (acc : list WorkspaceGCCandidate * list WorkspaceGCPreserved * list string)
  : result GcError (list WorkspaceGCCandidate * list WorkspaceGCPreserved * list string) :=
  match rows with
  | [] => Ok acc
  | r :: rest =>
      classification <-? classify r ;;
      let '(candidates, preserved, candidate_ids) := acc in
      classify_candidates rest
        match classification with
        | Candidate c => (candidates ++ [c], preserved, candidate_ids ++ [gr_id r])
        | Preserved p => (candidates, preserved ++ [p], candidate_ids)
        | Skipped => acc
        end
  end.

(** The other rows, once each. *)
Fixpoint classify_rest (rows : list GcRow) (classified_ids : list string)
    (acc : list WorkspaceGCCandidate * list WorkspaceGCPreserved * list string)
  : result GcError (list WorkspaceGCCandidate * list WorkspaceGCPreserved * list string) :=
  match rows with
  | [] => Ok acc
  | r :: rest =>
      let '(candidates, preserved, candidate_ids) := acc in
      if mem (gr_id r) candidate_ids || mem (gr_id r) classified_ids
      then classify_rest rest classified_ids acc
      else
        classification <-? classify r ;;
        classify_rest rest (classified_ids ++ [gr_id r])
          match classification with
          | Candidate c => (candidates ++ [c], preserved, candidate_ids ++ [gr_id r])
          | Preserved p => (candidates, preserved ++ [p], candidate_ids)
          | Skipped => acc
          end
  end.
End Plan.

(** The budget holds for the candidates of all three queries together. *)
Definition within_budget (row_limit : option nat) (candidates : list WorkspaceGCCandidate)
  : list WorkspaceGCCandidate :=
  match row_limit with
  | Some n => if (n <? length candidates)%nat then take n (sorted_by oldest_candidate candidates)
              else candidates
  | None => candidates
  end.

Definition gc_eligible_statuses (requested_statuses : option (list string))
    (excluded_statuses : list string) : list string :=
  List.filter (fun st => negb (mem st PROTECTED_WORKSPACE_GC_STATUSES))
    (List.filter (fun st => negb (mem st excluded_statuses))
       match requested_statuses with
       | None => [status_value completed; status_value failed; "superseded"]
       | Some l => List.filter (fun st => mem st TERMINAL_WORKSPACE_GC_STATUSES) l
       end).

(** [min_age] and [max_preserved_failed] are the timedeltas of the retention hours, in
    microseconds; status lists stand for sets. *)
Definition plan_terminal_workspace_gc (s : GcDb) (min_age : Z) (limit : option Z)
    (include_statuses exclude_statuses : option (list string)) (cleanup_enabled : bool)
    (max_preserved_failed : Z) : result GcError WorkspaceGCPlan :=
  let cutoff_at := now - min_age in
  let preserved_failed_cutoff_at := now - max_preserved_failed in
  let excluded_statuses := default [] exclude_statuses in
  let default_policy := eqb include_statuses None in
  let eligible_statuses := gc_eligible_statuses include_statuses excluded_statuses in
  let plan candidates preserved :=
    {| pl_work_dir := work_dir; pl_cutoff_at := cutoff_at;
       pl_include_statuses := sorted_by str_leb (default eligible_statuses include_statuses);
       pl_exclude_statuses := sorted_by str_leb excluded_statuses;
       pl_candidates := candidates; pl_preserved := preserved;
       pl_cleanup_enabled := cleanup_enabled; pl_default_policy := default_policy |} in
  match eligible_statuses with
  | [] => Ok (plan [] [])
  | _ :: _ =>
      let row_limit := (fun n => Z.to_nat (Z.max n 0)) <$> limit in
      let candidate_rows :=
        fetch s row_limit (Some eligible_statuses)
          (workspace_gc_candidate_predicate eligible_statuses cutoff_at default_policy
             cleanup_enabled) in
      let preserved_rows :=
        fetch s row_limit (Some eligible_statuses)
          (workspace_gc_preserved_predicate eligible_statuses cutoff_at default_policy
             cleanup_enabled) in
      let age_capped_rows :=
        fetch s row_limit None
          (workspace_gc_age_capped_predicate eligible_statuses preserved_failed_cutoff_at
             default_policy cleanup_enabled) in
      let classify := _classify_workspace_for_gc cutoff_at default_policy cleanup_enabled false
                        (Some preserved_failed_cutoff_at) in
      first_pass <-? classify_candidates classify candidate_rows ([], [], []) ;;
      both <-? classify_rest classify (preserved_rows ++ age_capped_rows) [] first_pass ;;
      Ok (plan (within_budget row_limit both.1.1) both.1.2)
  end.
End Classify.
