(* ===== verification/GcPlanFacts.v ===== *)
(** * What a garbage collection plan selects

    The SQL predicates fetch exactly the rows that the classifier decides on; what is
    selected is terminal, old enough and expendable; and a batch is filled with the oldest
    rows, so that none is starved. *)

From S2P Require Import Prelude PyStr PyPath Status Store WorkspaceRepo Claims GcPlan.
From S2P Require SecretLeases.
#[local] Open Scope Z_scope.

(** ** Rows *)

Lemma elem_of_gc_rows (s : GcDb) (r : GcRow) :
  r ∈ gc_rows s <-> workspaces (gc_db s) !! gr_id r = Some (gr_workspace r) /\
                    gc_columns s !! gr_id r = Some (gr_columns r).
Proof.
  unfold gc_rows. rewrite list_elem_of_omap. split.
  - intros ([id w] & Hin & Hr). apply elem_of_map_to_list in Hin. simpl in Hr.
    destruct (gc_columns s !! id) as [x|] eqn:Ex; [|done]. by injection Hr as <-.
  - intros [Hw Hx]. exists (gr_id r, gr_workspace r). split; [by apply elem_of_map_to_list|].
    simpl. rewrite Hx. by destruct r.
Qed.

Lemma gc_row_unique (s : GcDb) (r r' : GcRow) :
  r ∈ gc_rows s -> r' ∈ gc_rows s -> gr_id r = gr_id r' -> r = r'.
Proof.
  rewrite !elem_of_gc_rows. intros [H1 H2] [H3 H4] He. rewrite <- He in *.
  destruct r as [i w x], r' as [i' w' x']. simpl in *. congruence.
Qed.

Lemma gc_rows_ids (s : GcDb) : NoDup (map gr_id (gc_rows s)).
Proof.
  unfold gc_rows. pose proof (NoDup_fst_map_to_list (workspaces (gc_db s))) as Hn.
  induction (map_to_list _) as [|[id w] l IH]; [constructor|].
  apply NoDup_cons in Hn as [Hid Hn]. simpl. destruct (gc_columns s !! id) as [x|]; simpl; [|by apply IH].
  constructor; [|by apply IH]. intros Hin. apply Hid. apply list_elem_of_fmap in Hin as (r & Hr & Hin).
  simpl in Hr. apply list_elem_of_omap in Hin as ([id' w'] & Hin & Hx). simpl in Hx.
  destruct (gc_columns s !! id'); [|done]. injection Hx as <-. simpl in Hr. subst id'.
  apply list_elem_of_fmap. by exists (id, w').
Qed.

(** ** The oldest rows first *)

(** The order of both [order_by] clauses: the time, then the id. *)
Definition older (x y : Z * string) : bool :=
  (x.1 <? y.1) || ((x.1 =? y.1) && str_leb x.2 y.2).

Lemma older_spec (x y : Z * string) :
  older x y = true <-> x.1 < y.1 \/ (x.1 = y.1 /\ str_leb x.2 y.2 = true).
Proof. unfold older. by rewrite orb_true_iff, andb_true_iff, Z.ltb_lt, Z.eqb_eq. Qed.

Lemma older_total (x y : Z * string) : older x y = true \/ older y x = true.
Proof.
  rewrite !older_spec. destruct (str_leb_total x.2 y.2) as [H|H], (Z.lt_trichotomy x.1 y.1) as [?|[?|?]];
    auto.
Qed.

Lemma older_trans (x y z : Z * string) :
  older x y = true -> older y z = true -> older x z = true.
Proof.
  rewrite !older_spec. intros [H1|[H1 H1']] [H2|[H2 H2']]; [left; lia..|].
  right. split; [lia|]. eapply str_leb_trans; eassumption.
Qed.

Definition row_age (r : GcRow) : Z * string := (updated_at r, gr_id r).
Definition candidate_age (c : WorkspaceGCCandidate) : Z * string :=
  (cd_updated_at c, cd_workspace_id c).

Section FirstOnes.
Context {A : Type} (age : A -> Z * string).
Abbreviation sorted := (sorted_by (fun x y => older (age x) (age y))).

Lemma sorted_ages (l : list A) :
  StronglySorted (fun x y => older (age x) (age y) = true) (sorted l).
Proof.
  apply sorted_by_sorted; [intros; apply older_total|]. intros x y z. apply older_trans.
Qed.

(** What a limit cuts off is at least as young as everything that it keeps. *)
Lemma cut_off (l : list A) (n : nat) (x : A) :
  x ∈ l ->
  x ∈ take n (sorted l) \/
  length (take n (sorted l)) = n /\ Forall (fun y => older (age y) (age x) = true) (take n (sorted l)).
Proof.
  intros Hx. rewrite <- (elem_of_sorted_by (fun x y => older (age x) (age y))) in Hx.
  pose proof (sorted_ages l) as Hs.
  set (k := sorted l) in *. clearbody k. clear l. revert n.
  induction Hs as [|y k Hk IH Hy]; intros n; [by apply elem_of_nil in Hx|].
  destruct n as [|n]; [by right|]. cbn [take length].
  apply elem_of_cons in Hx as [->|Hx]; [left; by left|].
  destruct (IH Hx n) as [H|[Hl Hf]]; [left; by right|right]. split; [by rewrite Hl|].
  constructor; [|done]. by apply (proj1 (Forall_forall _ _) Hy).
Qed.

(** The first [n] are older than [x] when [n] elements are. *)
Lemma first_older (l : list A) (n : nat) (x : Z * string) :
  (n <= length (List.filter (fun y => older (age y) x) l))%nat ->
  length (take n (sorted l)) = n /\ Forall (fun y => older (age y) x = true) (take n (sorted l)).
Proof.
  pose proof (sorted_ages l) as Hs.
  rewrite <- (bfilter_perm _ _ _ (sorted_by_perm (fun x y => older (age x) (age y)) l)).
  set (k := sorted l) in *. clearbody k. clear l. revert n.
  induction Hs as [|y k Hk IH Hy]; intros n; simpl.
  - intros Hn. assert (n = O) as -> by lia. done.
  - destruct n as [|n]; [by split; [|constructor]|]. destruct (older (age y) x) eqn:Eo; simpl.
    + intros Hn. destruct (IH n) as [Hl Hf]; [lia|]. split; [by rewrite Hl|by constructor].
    + intros Hn. exfalso. assert (List.filter (fun z => older (age z) x) k = []) as Hz.
      { rewrite Forall_forall in Hy. clear -Hy Eo. induction k as [|z k IH]; simpl; [done|].
        destruct (older (age z) x) eqn:Ez.
        - rewrite (older_trans _ _ _ (Hy z ltac:(by left)) Ez) in Eo. done.
        - apply IH. intros w Hw. apply Hy. by right. }
      rewrite Hz in Hn. simpl in Hn. lia.
Qed.
End FirstOnes.

Section Facts.
Context {W : Type} (exists_path : W -> path -> result OsError bool).
Context (_estimate_bytes : W -> path -> result OsError Z).
Context (inspect : W -> string -> option RuntimeSnapshot) (expanduser : path -> path).
Context (world : W) (work_dir : path) (now : Z).

Abbreviation classify := (_classify_workspace_for_gc exists_path _estimate_bytes inspect expanduser
                            world work_dir now).
Abbreviation for_workspace := (_candidate_for_workspace exists_path _estimate_bytes expanduser world
                                 work_dir now).
Abbreviation idle := (_failed_terminal_workspace_has_no_work inspect world).

(** ** The candidate of a row *)

Lemma candidate_of_row (r : GcRow) (reason : string) (c : WorkspaceGCCandidate) :
  for_workspace r reason = Ok c ->
  cd_workspace_id c = gr_id r /\ cd_status c = row_status r /\ cd_updated_at c = updated_at r /\
  cd_reason_code c = reason.
Proof.
  unfold _candidate_for_workspace. destruct (gc_paths _ _ _ _) as [cw|]; [|done]. cbn [rbind].
  do 3 (destruct (_gc_path _ _ _ _ _); [cbn [rbind]|done]). by intros [= <-].
Qed.

(** Why a row may be deleted. *)
Inductive expendable (cutoff_at : Z) (capped_at : option Z) (default_policy ignore_retention : bool)
    (r : GcRow) : string -> Prop :=
| merged_expired :
    default_policy = true -> row_status r = status_value completed -> _has_pr_metadata r = true ->
    _pr_has_merged r = true -> ignore_retention = false -> updated_at r <= cutoff_at ->
    expendable cutoff_at capped_at default_policy ignore_retention r COMPLETED_PR_RETENTION_EXPIRED
| merged_now :
    default_policy = true -> row_status r = status_value completed -> _has_pr_metadata r = true ->
    _pr_has_merged r = true -> ignore_retention = true ->
    expendable cutoff_at capped_at default_policy ignore_retention r COMPLETED_PR_IMMEDIATE_RECLAIM
| failed_idle :
    default_policy = true -> row_status r ∈ FAILED_NO_WORK_TERMINAL_STATUSES -> idle r = true ->
    updated_at r <= cutoff_at ->
    expendable cutoff_at capped_at default_policy ignore_retention r FAILED_WORKSPACE_NO_WORK
| failed_capped cap :
    default_policy = true -> row_status r ∈ FAILED_NO_WORK_TERMINAL_STATUSES -> idle r = false ->
    capped_at = Some cap -> updated_at r <= cap ->
    expendable cutoff_at capped_at default_policy ignore_retention r
      PRESERVED_FAILED_AGE_CAP_RECLAIMED
| requested_expired reason :
    default_policy = false -> row_status r ∈ TERMINAL_WORKSPACE_GC_STATUSES ->
    updated_at r <= cutoff_at ->
    (row_status r ∈ FAILED_NO_WORK_TERMINAL_STATUSES ->
     gx_compose_project_name (gr_columns r) = None \/ idle r = true) ->
    expendable cutoff_at capped_at default_policy ignore_retention r reason.

Section Policy.
Context (cutoff_at : Z) (default_policy cleanup_enabled ignore_retention : bool).
Context (capped_at : option Z).

Abbreviation classify' := (classify cutoff_at default_policy cleanup_enabled ignore_retention capped_at).

Lemma candidate_inv (r : GcRow) (reason : string) (c : WorkspaceGCCandidate) :
  candidate exists_path _estimate_bytes expanduser world work_dir now r reason = Ok (Candidate c) ->
  for_workspace r reason = Ok c.
Proof. unfold candidate. destruct (for_workspace r reason); [|done]. by intros [= ->]. Qed.

Lemma failed_candidate (r : GcRow) (c : WorkspaceGCCandidate) :
  default_policy = true -> row_status r ∈ FAILED_NO_WORK_TERMINAL_STATUSES ->
  classify_failed exists_path _estimate_bytes inspect expanduser world work_dir now cutoff_at
    capped_at r = Ok (Candidate c) ->
  exists reason, for_workspace r reason = Ok c /\
    expendable cutoff_at capped_at default_policy ignore_retention r reason.
Proof.
  intros Hd Hs. unfold classify_failed, _preserved_failed_or_age_capped.
  destruct (idle r) eqn:Ei.
  - destruct (updated_at r <=? cutoff_at) eqn:Eu; [|done]. intros H%candidate_inv.
    eexists. split; [exact H|]. apply failed_idle; [done..|]. by apply Z.leb_le.
  - destruct capped_at as [cap|] eqn:Ecap; [|done]. destruct (updated_at r <=? cap) eqn:Eu; [|done].
    intros H%candidate_inv. eexists. split; [exact H|].
    apply (failed_capped _ _ _ _ _ cap); [done..|]. by apply Z.leb_le.
Qed.

Lemma completed_candidate (r : GcRow) (c : WorkspaceGCCandidate) :
  default_policy = true -> row_status r = status_value completed ->
  classify_completed exists_path _estimate_bytes expanduser world work_dir now cutoff_at
    ignore_retention r = Ok (Candidate c) ->
  exists reason, for_workspace r reason = Ok c /\
    expendable cutoff_at capped_at default_policy ignore_retention r reason.
Proof.
  intros Hd Hs. unfold classify_completed.
  destruct (_has_pr_metadata r) eqn:Em; [|done]. destruct (_pr_has_merged r) eqn:Eg; [|done].
  cbn [negb]. destruct ((cutoff_at <? updated_at r) && negb ignore_retention) eqn:Ea; [done|].
  intros H%candidate_inv. eexists. split; [exact H|]. destruct ignore_retention eqn:Er.
  - by apply merged_now.
  - apply merged_expired; try done. rewrite andb_true_r in Ea. by apply Z.ltb_ge.
Qed.

(** A candidate is terminal, not reclaimed, and expendable for the reason it states. *)
Lemma classified_candidate (r : GcRow) (c : WorkspaceGCCandidate) :
  classify' r = Ok (Candidate c) ->
  cleanup_enabled = true /\ reclaimed r = false /\
  row_status r ∈ TERMINAL_WORKSPACE_GC_STATUSES /\
  exists reason, for_workspace r reason = Ok c /\
    expendable cutoff_at capped_at default_policy ignore_retention r reason.
Proof.
  unfold _classify_workspace_for_gc. destruct (_ && _); [done|].
  destruct (reclaimed r) eqn:Er; [done|]. destruct (mem _ PROTECTED_WORKSPACE_GC_STATUSES); [done|].
  destruct (mem _ TERMINAL_WORKSPACE_GC_STATUSES) eqn:Et; [|done]. apply mem_true in Et. cbn [negb].
  destruct cleanup_enabled eqn:Ec; [|done]. cbn [negb]. intros H. split_and!; [done..|].
  destruct default_policy eqn:Ed.
  - destruct (eqb (row_status r) (status_value failed)) eqn:Ef.
    { rewrite eqb_true in Ef. rewrite <- Ed. apply failed_candidate; [done| |exact H].
      rewrite Ef. apply mem_true. done. }
    destruct (eqb (row_status r) "superseded") eqn:Es.
    { rewrite eqb_true in Es. rewrite <- Ed. apply failed_candidate; [done| |exact H].
      rewrite Es. apply mem_true. done. }
    destruct (eqb (row_status r) (status_value completed)) eqn:Eo; [|done].
    rewrite eqb_true in Eo. rewrite <- Ed. by apply completed_candidate.
  - destruct (cutoff_at <? updated_at r) eqn:Eu; [done|]. apply Z.ltb_ge in Eu.
    destruct (mem (row_status r) FAILED_NO_WORK_TERMINAL_STATUSES) eqn:Ew.
    + destruct (eqb (gx_compose_project_name _) None) eqn:Ep; cbn [negb andb] in H.
      * apply candidate_inv in H. eexists. split; [exact H|]. apply requested_expired; [done..|].
        intros _. left. by apply eqb_true.
      * destruct (idle r) eqn:Ei; [|done]. apply candidate_inv in H. eexists.
        split; [exact H|]. apply requested_expired; [done..|]. by right.
    + cbn [andb] in H. apply candidate_inv in H. eexists. split; [exact H|].
      apply requested_expired; [done..|]. intros Hin. apply mem_false in Ew. by destruct Ew.
Qed.
End Policy.

(** ** The queries and the classifier *)

Definition matches (p : option (GcRow -> bool)) (r : GcRow) : bool :=
  match p with Some f => f r | None => false end.

Section Queries.
Context (eligible : list string) (cutoff_at capped_at : Z) (default_policy cleanup_enabled : bool).

Abbreviation candidate_predicate :=
  (workspace_gc_candidate_predicate eligible cutoff_at default_policy cleanup_enabled).
Abbreviation preserved_predicate :=
  (workspace_gc_preserved_predicate eligible cutoff_at default_policy cleanup_enabled).
Abbreviation capped_predicate :=
  (workspace_gc_age_capped_predicate eligible capped_at default_policy cleanup_enabled).

(** The age-cap query only fetches failed rows of the default policy. *)
Lemma capped_matched (r : GcRow) :
  matches capped_predicate r = true ->
  default_policy = true /\ cleanup_enabled = true /\ reclaimed r = false /\
  row_status r ∈ FAILED_NO_WORK_TERMINAL_STATUSES /\ row_status r ∈ eligible /\
  updated_at r <= capped_at.
Proof.
  unfold matches, workspace_gc_age_capped_predicate.
  destruct cleanup_enabled, default_policy; try done. cbn [negb orb].
  set (l := List.filter _ _). intros H.
  assert (Hr : reclaimed r = false /\ row_status r ∈ l /\ updated_at r <= capped_at).
  { destruct l as [|st l']; [done|]. bool_simpl. split_and!; [done|by apply mem_true|by apply Z.leb_le]. }
  destruct Hr as (Hr & Hl & Hu). subst l. apply elem_of_bfilter in Hl as [Hl Hin].
  apply mem_true in Hl. by split_and!.
Qed.
Context (Hdefault : default_policy = true ->
           forall st, st ∈ eligible -> st ∈ [status_value completed; status_value failed; "superseded"]).

(** A row that none of the queries fetches is one that the classifier skips. *)
Lemma unmatched_skipped (r : GcRow) :
  row_status r ∈ eligible -> matches candidate_predicate r = false ->
  matches preserved_predicate r = false ->
  classify cutoff_at default_policy cleanup_enabled false (Some capped_at) r = Ok Skipped.
Proof.
  intros Hin. apply mem_true in Hin as Hm. unfold matches, workspace_gc_candidate_predicate,
    workspace_gc_preserved_predicate, _classify_workspace_for_gc. cbn [andb].
  destruct (reclaimed r) eqn:Er; [done|].
  destruct cleanup_enabled; cbn [negb]; [|rewrite Er, Hm; done].
  destruct default_policy.
  - specialize (Hdefault eq_refl _ Hin). rewrite !elem_of_cons in Hdefault.
    assert (Hc : forall st, row_status r = st -> mem st eligible = true) by (intros st <-; done).
    destruct Hdefault as [Hs|[Hs|[Hs|Hs]]]; [| | |by apply elem_of_nil in Hs];
      rewrite (Hc _ Hs), Hs; change (eqb (status_value completed) (status_value completed)) with true.
    + cbn [negb]. rewrite Er, Hs. cbn [negb andb]. intros Hcand Hpres. exfalso.
      destruct (mem (status_value failed) eligible), (mem "superseded" eligible);
        cbn [app existsb] in Hpres; rewrite Er, Hs in Hpres;
        change (eqb (status_value completed) (status_value failed)) with false in Hpres;
        change (eqb (status_value completed) "superseded") with false in Hpres;
        change (eqb (status_value completed) (status_value completed)) with true in Hpres;
        cbn [andb orb] in Hpres; rewrite ?orb_false_r in Hpres;
        unfold workspace_lacks_pr_metadata_predicate, workspace_pr_not_merged_predicate,
          workspace_has_pr_metadata_predicate, workspace_has_pr_merge_predicate in *;
        destruct (updated_at r <=? cutoff_at) eqn:Eu;
        first [apply Z.leb_le in Eu; rewrite (proj2 (Z.ltb_ge _ _) Eu) in Hpres
              |apply Z.leb_gt in Eu; rewrite (proj2 (Z.ltb_lt _ _) Eu), orb_true_r in Hpres;
               discriminate Hpres];
        destruct (eqb (pr_number r) None), (eqb (pr_url r) None), (eqb (pr_url r) (Some "")),
          (eqb (gx_pr_merge_sha (gr_columns r)) None); discriminate.
    + intros _ Hpres. exfalso.
      destruct (mem "superseded" eligible), (mem (status_value completed) eligible);
        cbn [app existsb] in Hpres; rewrite Er, Hs in Hpres; by vm_compute in Hpres.
    + intros _ Hpres. exfalso.
      destruct (mem (status_value failed) eligible), (mem (status_value completed) eligible);
        cbn [app existsb] in Hpres; rewrite Er, Hs in Hpres; by vm_compute in Hpres.
  - rewrite Er, Hm. cbn [negb andb]. rewrite Z.leb_gt, Z.ltb_ge. lia.
Qed.
End Queries.

(** ** The rows of a query *)

Definition fetched (statuses : option (list string)) (p : option (GcRow -> bool)) (s : GcDb)
    (r : GcRow) : Prop :=
  r ∈ gc_rows s /\ (forall l, statuses = Some l -> row_status r ∈ l) /\
  recovery_allows_work (gc_db s) (gr_id r) (gr_workspace r) = true /\ matches p r = true.

Lemma fetch_unlimited (s : GcDb) (statuses : option (list string)) (p : option (GcRow -> bool))
    (r : GcRow) :
  r ∈ fetch s None statuses p <-> fetched statuses p s r.
Proof.
  unfold fetched, fetch. destruct p as [f|]; simpl.
  - rewrite elem_of_sorted_by, elem_of_bfilter, !andb_true_iff. destruct statuses as [l|].
    + rewrite mem_true. split; [|naive_solver]. intros [[[? ?] ?] ?]. split_and!; [done| |done..].
      by intros ? [= <-].
    + naive_solver.
  - split; [by intros ?%elem_of_nil|]. intros (_ & _ & _ & ?). done.
Qed.

Lemma fetch_take (s : GcDb) (n : nat) (statuses : option (list string))
    (p : option (GcRow -> bool)) :
  fetch s (Some n) statuses p = take n (fetch s None statuses p).
Proof. destruct p; [done|]. by destruct n. Qed.

Lemma elem_of_fetch (s : GcDb) (n : option nat) (statuses : option (list string))
    (p : option (GcRow -> bool)) (r : GcRow) :
  r ∈ fetch s n statuses p -> fetched statuses p s r.
Proof.
  destruct n as [n|]; [|apply fetch_unlimited]. rewrite fetch_take.
  intros H. apply fetch_unlimited. by apply (sublist_subseteq _ _ (sublist_take _ _)) in H.
Qed.

Lemma fetch_ids (s : GcDb) (n : option nat) (statuses : option (list string))
    (p : option (GcRow -> bool)) : NoDup (map gr_id (fetch s n statuses p)).
Proof.
  assert (H : NoDup (map gr_id (fetch s None statuses p))).
  { destruct p as [f|]; [|constructor]. unfold fetch, limited. rewrite (sorted_by_perm oldest_row).
    eapply sublist_NoDup; [apply gc_rows_ids|]. apply sublist_map, bfilter_sublist. }
  destruct n as [n|]; [|done]. rewrite fetch_take.
  eapply sublist_NoDup; [exact H|]. apply sublist_map, sublist_take.
Qed.

(** A row that the limit of a query cuts off is younger than as many rows as the limit. *)
Lemma fetch_cut (s : GcDb) (n : nat) (statuses : option (list string))
    (p : option (GcRow -> bool)) (r : GcRow) :
  fetched statuses p s r ->
  r ∈ fetch s (Some n) statuses p \/
  length (fetch s (Some n) statuses p) = n /\
  Forall (fun x => older (row_age x) (row_age r) = true) (fetch s (Some n) statuses p).
Proof.
  rewrite <- (fetch_unlimited s statuses p r). rewrite fetch_take.
  destruct p as [f|]; [|by intros ?%elem_of_nil]. unfold fetch, limited.
  change oldest_row with (fun x y => older (row_age x) (row_age y)).
  rewrite elem_of_sorted_by. apply (cut_off row_age).
Qed.

(** ** The loops of the plan *)

Definition candidate_in (k : Classification) : option WorkspaceGCCandidate :=
  match k with Candidate c => Some c | _ => None end.
Definition preserved_in (k : Classification) : option WorkspaceGCPreserved :=
  match k with Preserved p => Some p | _ => None end.

Section Loops.
Context (f : GcRow -> result GcError Classification).
Context (Hid : forall r c, f r = Ok (Candidate c) -> cd_workspace_id c = gr_id r).

(** [ks] are the classifications of [rows]. *)
Abbreviation classified rows ks := (Forall2 (fun r k => f r = Ok k) rows ks).

Lemma candidates_loop (rows : list GcRow) (c0 c : list WorkspaceGCCandidate)
    (p0 p : list WorkspaceGCPreserved) (i0 i : list string) :
  classify_candidates f rows (c0, p0, i0) = Ok (c, p, i) ->
  exists ks, classified rows ks /\ c = c0 ++ omap candidate_in ks /\
             p = p0 ++ omap preserved_in ks /\ i = i0 ++ map cd_workspace_id (omap candidate_in ks).
Proof.
  revert c0 p0 i0. induction rows as [|r rows IH]; intros c0 p0 i0; cbn [classify_candidates].
  - intros [= <- <- <-]. exists []. by rewrite !app_nil_r.
  - destruct (f r) as [k|] eqn:Ef; [|done]. cbn [rbind].
    intros H. destruct k as [x|x|]; apply IH in H as (ks & Hk & -> & -> & ->);
      (eexists (_ :: ks); split; [by constructor|]); simpl; rewrite <- ?app_assoc; try done.
    by rewrite (Hid _ _ Ef).
Qed.

(** The second loop classifies some of its rows, each once and none that is a candidate
    already; the others have been seen. *)
Lemma rest_loop (rows : list GcRow) (seen : list string) (c0 c : list WorkspaceGCCandidate)
    (p0 p : list WorkspaceGCPreserved) (i0 i : list string) :
  classify_rest f rows seen (c0, p0, i0) = Ok (c, p, i) ->
  exists rows' ks, (rows' `sublist_of` rows) /\ classified rows' ks /\
    NoDup (map gr_id rows') /\ (forall r, r ∈ rows' -> (gr_id r ∉ i0) /\ (gr_id r ∉ seen)) /\
    (forall r, r ∈ rows -> gr_id r ∈ i0 \/ gr_id r ∈ seen \/ gr_id r ∈ map gr_id rows') /\
    c = c0 ++ omap candidate_in ks /\ p = p0 ++ omap preserved_in ks.
Proof.
  revert seen c0 p0 i0. induction rows as [|r rows IH]; intros seen c0 p0 i0; cbn [classify_rest].
  - intros [= <- <- <-]. exists [], []. rewrite !app_nil_r. split_and!; try done.
    + constructor.
    + by intros r Hr%elem_of_nil.
    + by intros r Hr%elem_of_nil.
  - destruct (mem (gr_id r) i0 || mem (gr_id r) seen) eqn:Es.
    + intros H. apply IH in H as (rows' & ks & Hsub & Hk & Hn & Hdis & Hcov & Hc & Hp).
      exists rows', ks. split_and!; try done; [by apply sublist_cons|].
      intros x [->|Hx]%elem_of_cons; [|by apply Hcov].
      apply orb_true_iff in Es as [Es|Es]; apply mem_true in Es; auto.
    + apply orb_false_iff in Es as [Ei Es]. apply mem_false in Ei, Es.
      destruct (f r) as [k|] eqn:Ef; [|done]. cbn [rbind]. intros H.
      assert (Hgoal : exists i1, (i1 = i0 \/ i1 = i0 ++ [gr_id r]) /\
        classify_rest f rows (seen ++ [gr_id r])
          (c0 ++ omap candidate_in [k], p0 ++ omap preserved_in [k], i1) = Ok (c, p, i)).
      { destruct k; simpl; rewrite ?app_nil_r; eauto. }
      clear H. destruct Hgoal as (i1 & Hi1 & H).
      apply IH in H as (rows' & ks & Hsub & Hk & Hn & Hdis & Hcov & -> & ->).
      exists (r :: rows'), (k :: ks). split_and!.
      * by apply sublist_skip.
      * by constructor.
      * simpl. constructor; [|done]. intros Hin. apply list_elem_of_fmap in Hin as (x & Hx & Hin).
        destruct (Hdis x Hin) as [_ Hs]. apply Hs. rewrite <- Hx. set_solver.
      * intros x [->|Hx]%elem_of_cons; [done|]. destruct (Hdis x Hx) as [H1 H2].
        split; [destruct Hi1 as [-> | ->]|]; set_solver.
      * intros x [->|Hx]%elem_of_cons; [simpl; right; right; by left|].
        destruct (Hcov x Hx) as [H|[H|H]]; simpl.
        -- destruct Hi1 as [-> | ->]; [by left|]. apply elem_of_app in H as [H|H]; [by left|].
           apply list_elem_of_singleton in H. right. right. rewrite H. by left.
        -- apply elem_of_app in H as [H|H]; [by right; left|]. apply list_elem_of_singleton in H.
           right. right. rewrite H. by left.
        -- right. right. by right.
      * simpl. rewrite <- app_assoc. by destruct k.
      * simpl. rewrite <- app_assoc. by destruct k.
Qed.
End Loops.

(** ** The plan as a whole *)

Section Whole.
Context (s : GcDb) (min_age : Z) (include_statuses exclude_statuses : option (list string)).
Context (cleanup_enabled : bool) (max_preserved_failed : Z).

Definition eligible : list string := gc_eligible_statuses include_statuses (default [] exclude_statuses).
Definition default_policy : bool := eqb include_statuses None.
Definition the_classifier (r : GcRow) : result GcError Classification :=
  classify (now - min_age) default_policy cleanup_enabled false (Some (now - max_preserved_failed)) r.

(** The rows that the plan is about. *)
Definition considered (r : GcRow) : Prop :=
  r ∈ gc_rows s /\ row_status r ∈ eligible /\
  recovery_allows_work (gc_db s) (gr_id r) (gr_workspace r) = true.

Lemma eligible_terminal (st : string) : st ∈ eligible -> st ∈ TERMINAL_WORKSPACE_GC_STATUSES.
Proof.
  unfold eligible, gc_eligible_statuses. intros [_ [_ H]%elem_of_bfilter]%elem_of_bfilter.
  destruct include_statuses as [l|].
  - apply elem_of_bfilter in H as [H _]. by apply mem_true.
  - apply mem_true in H. apply mem_true. revert H.
    unfold mem, TERMINAL_WORKSPACE_GC_STATUSES. cbn [existsb]. rewrite !orb_true_iff. tauto.
Qed.

Lemma eligible_default (st : string) :
  default_policy = true -> st ∈ eligible ->
  st ∈ [status_value completed; status_value failed; "superseded"].
Proof.
  unfold default_policy, eligible, gc_eligible_statuses. rewrite eqb_true. intros ->.
  by intros [_ [_ H]%elem_of_bfilter]%elem_of_bfilter.
Qed.

Lemma the_classifier_id (r : GcRow) (c : WorkspaceGCCandidate) :
  the_classifier r = Ok (Candidate c) -> cd_workspace_id c = gr_id r.
Proof.
  intros H. apply classified_candidate in H as (_ & _ & _ & reason & H & _).
  by apply candidate_of_row in H as (? & _).
Qed.

Abbreviation plan := (plan_terminal_workspace_gc exists_path _estimate_bytes inspect expanduser
                        world work_dir now s min_age).
Abbreviation query limit p := (fetch s ((fun n => Z.to_nat (Z.max n 0)) <$> limit) (Some eligible)
  (p eligible (now - min_age) default_policy cleanup_enabled)).
Abbreviation capped_query limit := (fetch s ((fun n => Z.to_nat (Z.max n 0)) <$> limit) None
  (workspace_gc_age_capped_predicate eligible (now - max_preserved_failed) default_policy
     cleanup_enabled)).

(** A plan is made of the classifications of fetched rows, each row once. *)
Lemma plan_inv (limit : option Z) (pl : WorkspaceGCPlan) :
  plan limit include_statuses exclude_statuses cleanup_enabled max_preserved_failed = Ok pl ->
  exists first second ks1 ks2,
    first = query limit workspace_gc_candidate_predicate /\
    (second `sublist_of`
      (query limit workspace_gc_preserved_predicate ++ capped_query limit)) /\
    Forall2 (fun r k => the_classifier r = Ok k) first ks1 /\
    Forall2 (fun r k => the_classifier r = Ok k) second ks2 /\
    NoDup (map gr_id second) /\
    (forall r, r ∈ second -> gr_id r ∉ map cd_workspace_id (omap candidate_in ks1)) /\
    (forall r, r ∈ query limit workspace_gc_preserved_predicate ++ capped_query limit ->
       gr_id r ∈ map cd_workspace_id (omap candidate_in ks1) \/ gr_id r ∈ map gr_id second) /\
    pl_candidates pl = within_budget ((fun n => Z.to_nat (Z.max n 0)) <$> limit)
                         (omap candidate_in (ks1 ++ ks2)) /\
    pl_preserved pl = omap preserved_in (ks1 ++ ks2).
Proof.
  unfold plan_terminal_workspace_gc. fold eligible default_policy.
  destruct eligible as [|st l] eqn:Ee.
  - intros [= <-]. exists [], [], [], []. cbn [pl_candidates pl_preserved].
    assert (Hq : forall p n, fetch s n (Some []) p = []).
    { intros [p|] n; [|done]. unfold fetch.
      assert (List.filter (fun r => mem (row_status r) []
        && recovery_allows_work (gc_db s) (gr_id r) (gr_workspace r) && p r) (gc_rows s) = []) as ->
        by (induction (gc_rows s); [done|simpl; done]).
      by destruct n as [[|n]|]. }
    rewrite !Hq. unfold workspace_gc_age_capped_predicate. cbn [List.filter mem existsb].
    split_and!; try done.
    + by apply sublist_nil_l.
    + constructor.
    + by intros r Hr%elem_of_nil.
    + destruct (_ || _); intros r Hr; by apply elem_of_nil in Hr.
    + by destruct limit.
  - rewrite <- Ee. clear st l Ee. intros H.
    destruct (classify_candidates _ _ _) as [[[c1 p1] i1]|] eqn:E1; [cbn [rbind] in H|done].
    destruct (classify_rest _ _ _ _) as [[[c2 p2] i2]|] eqn:E2; [cbn [rbind] in H|done].
    injection H as <-. cbn [pl_candidates pl_preserved fst snd].
    apply (candidates_loop the_classifier the_classifier_id) in E1 as (ks1 & Hk1 & -> & -> & ->).
    apply (rest_loop the_classifier the_classifier_id) in E2
      as (second & ks2 & Hsub & Hk2 & Hn & Hdis & Hcov & -> & ->).
    eexists _, second, ks1, ks2. split_and!; [done|exact Hsub|exact Hk1|exact Hk2|done| | | |].
    + intros r Hr. by destruct (Hdis r Hr).
    + intros r Hr. destruct (Hcov r Hr) as [H|[H|H]]; [by left|by apply elem_of_nil in H|by right].
    + by rewrite omap_app.
    + by rewrite omap_app.
Qed.

(** The rows of the three queries are considered ones. *)
Lemma query_considered (n : option nat) (p : option (GcRow -> bool)) (r : GcRow) :
  r ∈ fetch s n (Some eligible) p -> considered r /\ matches p r = true.
Proof. intros (Hr & Hst & Hrec & Hm)%elem_of_fetch. split; [|done]. split; [done|by split; auto]. Qed.

Lemma capped_considered (n : option nat) (r : GcRow) :
  r ∈ fetch s n None (workspace_gc_age_capped_predicate eligible (now - max_preserved_failed)
                        default_policy cleanup_enabled) -> considered r.
Proof.
  intros (Hr & _ & Hrec & Hm)%elem_of_fetch. apply capped_matched in Hm as (_&_&_&_&He&_).
  split; [done|by split].
Qed.

(** A classification of the plan is that of a considered row, and the candidates before
    the budget are each other's only ones. *)
Lemma classified_rows (rows : list GcRow) (ks : list Classification) (k : Classification) :
  Forall2 (fun r k => the_classifier r = Ok k) rows ks ->
  k ∈ ks <-> exists r, r ∈ rows /\ the_classifier r = Ok k.
Proof.
  induction 1 as [|r k' rows ks Hr _ IH].
  - split; [by intros ?%elem_of_nil|]. by intros (r & ?%elem_of_nil & _).
  - rewrite elem_of_cons, IH. split.
    + intros [->|(x & Hx & Hk)]; [|exists x; split; [by right|done]].
      exists r. split; [by left|done].
    + intros (x & [->|Hx]%elem_of_cons & Hk); [left; congruence|eauto].
Qed.

Lemma candidate_ids (rows : list GcRow) (ks : list Classification) :
  Forall2 (fun r k => the_classifier r = Ok k) rows ks ->
  map cd_workspace_id (omap candidate_in ks) `sublist_of` map gr_id rows.
Proof.
  induction 1 as [|r k rows ks Hr _ IH]; simpl; [done|].
  destruct k as [c|p|]; simpl; [|by apply sublist_cons..].
  rewrite (the_classifier_id _ _ Hr). by apply sublist_skip.
Qed.

Lemma budget_perm (n : option nat) (l : list WorkspaceGCCandidate) :
  exists l', l' ≡ₚ l /\ (within_budget n l `sublist_of` l').
Proof.
  destruct n as [n|]; simpl; [|by exists l]. destruct (_ <? _)%nat; [|by exists l].
  exists (sorted_by oldest_candidate l). split; [apply sorted_by_perm|apply sublist_take].
Qed.

Lemma plan_rows (limit : option Z) (pl : WorkspaceGCPlan) :
  plan limit include_statuses exclude_statuses cleanup_enabled max_preserved_failed = Ok pl ->
  exists ks,
    (forall k, k ∈ ks -> exists r, considered r /\ the_classifier r = Ok k) /\
    (forall r, r ∈ query limit workspace_gc_candidate_predicate \/
               r ∈ query limit workspace_gc_preserved_predicate \/ r ∈ capped_query limit ->
       exists k, k ∈ ks /\ the_classifier r = Ok k) /\
    NoDup (map cd_workspace_id (omap candidate_in ks)) /\
    pl_candidates pl = within_budget ((fun n => Z.to_nat (Z.max n 0)) <$> limit)
                         (omap candidate_in ks) /\
    pl_preserved pl = omap preserved_in ks.
Proof.
  intros (first & second & ks1 & ks2 & -> & Hsub & H1 & H2 & Hn & Hdis & Hcov & Hc & Hp)%plan_inv.
  assert (Hsec : forall r, r ∈ second -> considered r).
  { intros r Hr. apply (sublist_subseteq _ _ Hsub) in Hr.
    apply elem_of_app in Hr as [Hr|Hr]; [by apply query_considered in Hr as [? _]|].
    by apply capped_considered in Hr. }
  exists (ks1 ++ ks2). split_and!; [..|done|done].
  - intros k [Hk|Hk]%elem_of_app.
    + apply (classified_rows _ _ _ H1) in Hk as (r & Hr & Hk). exists r.
      by apply query_considered in Hr as [? _].
    + apply (classified_rows _ _ _ H2) in Hk as (r & Hr & Hk). exists r. auto.
  - intros r Hr.
    assert (Hin : r ∈ query limit workspace_gc_candidate_predicate \/ r ∈ second).
    { destruct Hr as [Hr|Hr]; [by left|].
      destruct (Hcov r) as [Hi|Hi]; [set_solver| |].
      - left. apply (sublist_subseteq _ _ (candidate_ids _ _ H1)) in Hi.
        apply list_elem_of_fmap in Hi as (r' & Hid & Hi).
        assert (r = r') as ->; [|done]. apply (gc_row_unique s); [|by apply query_considered in Hi as [[? _] _]|done].
        destruct Hr as [Hr|Hr]; [by apply query_considered in Hr as [[? _] _]|].
        by apply capped_considered in Hr as [? _].
      - right. apply list_elem_of_fmap in Hi as (r' & Hid & Hi).
        assert (r = r') as ->; [|done]. apply (gc_row_unique s); [|by apply Hsec|done].
        destruct Hr as [Hr|Hr]; [by apply query_considered in Hr as [[? _] _]|].
        by apply capped_considered in Hr as [? _]. }
    destruct Hin as [Hin|Hin].
    + apply list_elem_of_lookup_1 in Hin as (i & Hi).
      destruct (Forall2_lookup_l _ _ _ _ _ H1 Hi) as (k & Hk & Hcl).
      exists k. split; [|done]. apply elem_of_app. left. by apply list_elem_of_lookup_2 in Hk.
    + apply list_elem_of_lookup_1 in Hin as (i & Hi).
      destruct (Forall2_lookup_l _ _ _ _ _ H2 Hi) as (k & Hk & Hcl).
      exists k. split; [|done]. apply elem_of_app. right. by apply list_elem_of_lookup_2 in Hk.
  - rewrite omap_app, map_app. apply NoDup_app. split_and!.
    + eapply sublist_NoDup; [|by apply candidate_ids]. apply fetch_ids.
    + intros id Hid Hid2. apply (sublist_subseteq _ _ (candidate_ids _ _ H2)) in Hid2.
      apply list_elem_of_fmap in Hid2 as (r & -> & Hr). by apply (Hdis r).
    + by eapply sublist_NoDup; [|by apply candidate_ids].
Qed.

(** A selected candidate is that of a considered row, and no workspace is selected twice. *)
Lemma plan_candidates (limit : option Z) (pl : WorkspaceGCPlan) :
  plan limit include_statuses exclude_statuses cleanup_enabled max_preserved_failed = Ok pl ->
  (forall c, c ∈ pl_candidates pl ->
     exists r, considered r /\ the_classifier r = Ok (Candidate c)) /\
  NoDup (map cd_workspace_id (pl_candidates pl)) /\
  (forall n, limit = Some n -> Z.of_nat (length (pl_candidates pl)) <= Z.max n 0).
Proof.
  intros (ks & Hks & _ & Hn & Hc & _)%plan_rows. rewrite Hc.
  destruct (budget_perm ((fun n => Z.to_nat (Z.max n 0)) <$> limit) (omap candidate_in ks))
    as (l & Hl & Hsub). split_and!.
  - intros c Hin. apply (sublist_subseteq _ _ Hsub) in Hin. rewrite Hl in Hin.
    apply list_elem_of_omap in Hin as (k & Hk & Hcand). destruct k as [c'|p|]; try done.
    injection Hcand as ->. by apply Hks.
  - eapply sublist_NoDup; [|by apply sublist_map]. by rewrite Hl.
  - intros n ->. cbn [fmap option_fmap option_map within_budget].
    destruct (_ <? _)%nat eqn:E; [rewrite length_take; lia|]. apply Nat.ltb_ge in E. lia.
Qed.

(** C11: whatever the plan selects for deletion is terminal, not yet reclaimed and open to
    work after a restore, cleanup is enabled, and it is expendable for the stated reason: a merged pull request past its retention, a failed workspace whose container
    is idle or whose age passed the cap, or a workspace of a status asked for by the
    operator past its retention. No workspace is selected twice, and no more than the limit. *)
Theorem gc_plan_safe (limit : option Z) (pl : WorkspaceGCPlan) :
  plan limit include_statuses exclude_statuses cleanup_enabled max_preserved_failed = Ok pl ->
  (forall c, c ∈ pl_candidates pl ->
     cleanup_enabled = true /\
     exists r, considered r /\ reclaimed r = false /\
       row_status r ∈ TERMINAL_WORKSPACE_GC_STATUSES /\ cd_workspace_id c = gr_id r /\
       for_workspace r (cd_reason_code c) = Ok c /\
       expendable (now - min_age) (Some (now - max_preserved_failed)) default_policy false r
         (cd_reason_code c)) /\
  NoDup (map cd_workspace_id (pl_candidates pl)) /\
  (forall n, limit = Some n -> Z.of_nat (length (pl_candidates pl)) <= Z.max n 0).
Proof.
  intros (Hall & Hn & Hlim)%plan_candidates. split; [|done]. intros c Hin.
  destruct (Hall c Hin) as (r & Hr & Hcl).
  apply classified_candidate in Hcl as (Hce & Hrec & Hst & reason & Hfor & Hexp).
  apply candidate_of_row in Hfor as Hcd. destruct Hcd as (Hid & _ & _ & <-).
  split; [done|]. by exists r.
Qed.

(** C12: without a limit the plan is exactly the classification of the table: the three
    queries and their duplicates do not show, every eligible row that the classifier calls
    a candidate or preserved is in the plan under that name, and nothing else is. *)
Theorem gc_plan_exact (pl : WorkspaceGCPlan) :
  plan None include_statuses exclude_statuses cleanup_enabled max_preserved_failed = Ok pl ->
  (forall c, c ∈ pl_candidates pl <->
     exists r, considered r /\ the_classifier r = Ok (Candidate c)) /\
  (forall p, p ∈ pl_preserved pl <->
     exists r, considered r /\ the_classifier r = Ok (Preserved p)).
Proof.
  intros (ks & Hks & Hin & _ & Hc & Hp)%plan_rows. rewrite Hc, Hp. cbn [within_budget fmap option_fmap option_map].
  assert (Hex : forall r k, considered r -> the_classifier r = Ok k -> k <> Skipped -> k ∈ ks).
  { intros r k (Hr & Hst & Hrec) Hk Hne.
    assert (Hq : forall p, matches p r = true -> r ∈ fetch s None (Some eligible) p).
    { intros p Hm. apply fetch_unlimited. split_and!; [done| |done..]. by intros ? [= <-]. }
    destruct (matches (workspace_gc_candidate_predicate eligible (now - min_age) default_policy
                         cleanup_enabled) r) eqn:E1;
      [|destruct (matches (workspace_gc_preserved_predicate eligible (now - min_age) default_policy
                         cleanup_enabled) r) eqn:E2].
    - destruct (Hin r) as (k' & Hk' & Hcl); [left; by apply Hq|]. congruence.
    - destruct (Hin r) as (k' & Hk' & Hcl); [right; left; by apply Hq|]. congruence.
    - unfold the_classifier in Hk. rewrite (unmatched_skipped eligible) in Hk; [congruence| |done..].
      intros Hd st. by apply eligible_default. }
  split; intros x; rewrite list_elem_of_omap; split.
  - intros (k & Hk & Hx). destruct k; try done. injection Hx as ->. eauto.
  - intros (r & Hr & Hk). exists (Candidate x). split; [|done]. by apply (Hex r).
  - intros (k & Hk & Hx). destruct k; try done. injection Hx as ->. eauto.
  - intros (r & Hr & Hk). exists (Preserved x). split; [|done]. by apply (Hex r).
Qed.

(** *** Fairness *)

(** The queries for what may be deleted. *)
Definition deletable (r : GcRow) : bool :=
  matches (workspace_gc_candidate_predicate eligible (now - min_age) default_policy
             cleanup_enabled) r
  || matches (workspace_gc_age_capped_predicate eligible (now - max_preserved_failed)
                default_policy cleanup_enabled) r.

Lemma completed_classified (r : GcRow) :
  default_policy = true -> cleanup_enabled = true -> reclaimed r = false ->
  row_status r = status_value completed ->
  the_classifier r = classify_completed exists_path _estimate_bytes expanduser world work_dir now
                       (now - min_age) false r.
Proof.
  unfold the_classifier, _classify_workspace_for_gc. cbn [andb].
  intros -> -> -> ->. reflexivity.
Qed.

Lemma failed_classified (r : GcRow) :
  default_policy = true -> cleanup_enabled = true -> reclaimed r = false ->
  row_status r ∈ FAILED_NO_WORK_TERMINAL_STATUSES ->
  the_classifier r = classify_failed exists_path _estimate_bytes inspect expanduser world work_dir
                       now (now - min_age) (Some (now - max_preserved_failed)) r.
Proof.
  unfold the_classifier, _classify_workspace_for_gc. cbn [andb].
  intros -> -> ->. unfold FAILED_NO_WORK_TERMINAL_STATUSES. rewrite !elem_of_cons, elem_of_nil.
  by intros [->|[->|[]]].
Qed.

Lemma candidate_ok (r : GcRow) (reason : string) (k : Classification) :
  candidate exists_path _estimate_bytes expanduser world work_dir now r reason = Ok k ->
  exists c, k = Candidate c.
Proof. unfold candidate. destruct (for_workspace r reason); [|done]. intros [= <-]. eauto. Qed.

(** What they fetch is a candidate, whatever Docker says of it. *)
Lemma deletable_candidate (r : GcRow) (k : Classification) :
  default_policy = true -> min_age <= max_preserved_failed -> pr_number r <> Some 0 ->
  deletable r = true -> the_classifier r = Ok k -> exists c, k = Candidate c.
Proof.
  intros Hd Hmin Hpr Hdel. unfold deletable in Hdel. apply orb_true_iff in Hdel as [Hm|Hm].
  - unfold matches, workspace_gc_candidate_predicate in Hm. rewrite Hd in Hm.
    destruct cleanup_enabled eqn:Ec; [|done].
    destruct (mem (status_value completed) eligible); [|done].
    cbn [negb] in Hm. apply andb_true_iff in Hm as [Hm Hsha]. apply andb_true_iff in Hm as [Hm Hmeta].
    apply andb_true_iff in Hm as [Hm Hold]. apply andb_true_iff in Hm as [Hrec Hst].
    apply negb_true_iff in Hrec. rewrite eqb_true in Hst. apply Z.leb_le in Hold.
    rewrite completed_classified by done. unfold classify_completed.
    assert (_has_pr_metadata r = true) as ->.
    { revert Hmeta Hpr. unfold workspace_has_pr_metadata_predicate, _has_pr_metadata.
      destruct (pr_number r) as [n|]; [|by destruct (pr_url r) as [[|]|]].
      intros _ Hn. rewrite (proj2 (Z.eqb_neq n 0)) by congruence. apply orb_true_r. }
    change (workspace_has_pr_merge_predicate r) with (_pr_has_merged r) in Hsha. rewrite Hsha.
    rewrite (proj2 (Z.ltb_ge _ _)) by done. cbn [negb andb]. apply candidate_ok.
  - apply capped_matched in Hm as (_ & Hc & Hrec & Hst & _ & Hold).
    rewrite failed_classified by done. unfold classify_failed, _preserved_failed_or_age_capped.
    destruct (idle r); [|rewrite (proj2 (Z.leb_le _ _)) by done; apply candidate_ok].
    rewrite (proj2 (Z.leb_le _ _)) by lia. apply candidate_ok.
Qed.

Lemma budget_take (n : nat) (l : list WorkspaceGCCandidate) :
  within_budget (Some n) l ≡ₚ
  take n (sorted_by (fun c d => older (candidate_age c) (candidate_age d)) l).
Proof.
  simpl. destruct (n <? length l)%nat eqn:E; [done|]. apply Nat.ltb_ge in E.
  rewrite take_ge; [|by rewrite (sorted_by_perm _ l)]. by rewrite sorted_by_perm.
Qed.

(** Enough rows older than [x] fill the budget with candidates older than [x]. *)
Lemma full_batch (rows : list GcRow) (l : list WorkspaceGCCandidate) (n : nat) (x : Z * string) :
  NoDup (map gr_id rows) -> length rows = n ->
  (forall r, r ∈ rows -> older (row_age r) x = true /\
     exists c, c ∈ l /\ candidate_age c = row_age r) ->
  length (within_budget (Some n) l) = n /\
  Forall (fun c => older (candidate_age c) x = true) (within_budget (Some n) l).
Proof.
  intros Hn Hlen Hrows. rewrite budget_take. apply (first_older candidate_age). rewrite <- Hlen.
  rewrite <- (length_map gr_id), <- (length_map cd_workspace_id (List.filter _ _)).
  apply submseteq_length, NoDup_submseteq; [done|]. intros id (r & -> & Hr)%list_elem_of_fmap.
  destruct (Hrows r Hr) as (Ho & c & Hc & Hage). apply list_elem_of_fmap. exists c.
  injection Hage as Hu Hid. split; [done|]. apply elem_of_bfilter. split; [|done].
  unfold candidate_age. by rewrite Hu, Hid.
Qed.

(** No workspace is starved: under the default policy a workspace that one of the two
    deletion queries matches is in the batch, or the batch is full and every workspace of
    it is at least as old. Failed workspaces share the budget with merged ones and neither
    kind can crowd out an older one of the other. *)
Theorem gc_plan_fair (n : Z) (pl : WorkspaceGCPlan) (r : GcRow) :
  include_statuses = None -> min_age <= max_preserved_failed ->
  (forall x, x ∈ gc_rows s -> pr_number x <> Some 0) ->
  plan (Some n) include_statuses exclude_statuses cleanup_enabled max_preserved_failed = Ok pl ->
  considered r -> deletable r = true ->
  gr_id r ∈ map cd_workspace_id (pl_candidates pl) \/
  Z.of_nat (length (pl_candidates pl)) = Z.max n 0 /\
  forall c, c ∈ pl_candidates pl -> older (candidate_age c) (row_age r) = true.
Proof.
  intros Hnone Hmin Hpr (ks & _ & Hin & _ & -> & _)%plan_rows Hr Hdel.
  assert (Hd : default_policy = true) by (unfold default_policy; by rewrite Hnone).
  assert (Hcand : forall x, considered x -> deletable x = true ->
    x ∈ query (Some n) workspace_gc_candidate_predicate \/ x ∈ capped_query (Some n) ->
    exists c, c ∈ omap candidate_in ks /\ candidate_age c = row_age x).
  { intros x Hx Hdx Hq. destruct (Hin x) as (k & Hk & Hcl); [tauto|].
    destruct (deletable_candidate x k Hd Hmin (Hpr x (proj1 Hx)) Hdx Hcl) as (c & ->).
    exists c. split; [apply list_elem_of_omap; by exists (Candidate c)|].
    unfold candidate_age, row_age. apply classified_candidate in Hcl as (_ & _ & _ & re & Hf & _).
    by apply candidate_of_row in Hf as (-> & _ & -> & _). }
  cbn [fmap option_fmap option_map] in *.
  remember (Z.to_nat (Z.max n 0)) as m eqn:Em.
  replace (Z.max n 0) with (Z.of_nat m) by lia. rewrite Nat2Z.inj_iff. clear Em.
  rewrite <- Forall_forall.
  assert (Hcut : forall sts p, (forall x, x ∈ fetch s (Some m) sts p ->
      exists c, c ∈ omap candidate_in ks /\ candidate_age c = row_age x) ->
    fetched sts p s r ->
    (exists c, c ∈ omap candidate_in ks /\ candidate_age c = row_age r) \/
    length (within_budget (Some m) (omap candidate_in ks)) = m /\
    Forall (fun c => older (candidate_age c) (row_age r) = true)
      (within_budget (Some m) (omap candidate_in ks))).
  { intros sts p Hall Hf. destruct (fetch_cut s m sts p r Hf) as [Hi|[Hl Ho]]; [auto|].
    right. rewrite Forall_forall in Ho.
    apply (full_batch (fetch s (Some m) sts p)); [apply fetch_ids|done|]. auto. }
  destruct Hr as (Hrow & Hst & Hrec).
  assert (Hor : (exists c, c ∈ omap candidate_in ks /\ candidate_age c = row_age r) \/
    length (within_budget (Some m) (omap candidate_in ks)) = m /\
    Forall (fun c => older (candidate_age c) (row_age r) = true)
      (within_budget (Some m) (omap candidate_in ks))).
  { apply orb_true_iff in Hdel as [Hm|Hm].
    - eapply (Hcut (Some eligible)); [|split; [exact Hrow|split; [|split; [exact Hrec|exact Hm]]]; by intros ? [= <-]].
      intros x Hx. apply query_considered in Hx as Hc. destruct Hc as [Hc Hmx].
      apply Hcand; [done|unfold deletable; by rewrite Hmx|by left].
    - eapply (Hcut None); [|by split; [exact Hrow|split; [|split; [exact Hrec|exact Hm]]]].
      intros x Hx. apply elem_of_fetch in Hx as Hmx. destruct Hmx as (_ & _ & _ & Hmx).
      apply Hcand; [by eapply capped_considered|unfold deletable; rewrite Hmx; apply orb_true_r|by right]. }
  destruct Hor as [(c & Hc & Hage)|Hor]; [|by right]. injection Hage as Hu Hid.
  destruct (cut_off candidate_age (omap candidate_in ks) m c Hc) as [Hi|Hi];
    rewrite <- budget_take in Hi.
  - left. apply list_elem_of_fmap. by exists c.
  - right. by replace (row_age r) with (candidate_age c) by (unfold candidate_age, row_age; congruence).
Qed.
End Whole.
End Facts.

(** ** Sample tables *)

Definition sample_gc_row (status : WorkspaceStatus) (at_ : Z) (sha : option string)
    : Workspace * GcColumns :=
  (sample_workspace status None None,
   {| gx_updated_at := at_; gx_pr_merge_sha := sha; gx_compose_project_name := Some "proj";
      gx_compose_file_path := None; gx_companions := [] |}).

(** A merged workspace, an older failed one and a fresh failed one. *)
Definition sample_gc_rows : list (string * (Workspace * GcColumns)) :=
  [("wm", sample_gc_row completed 20 (Some "sha")); ("wf", sample_gc_row failed 10 None);
   ("wn", sample_gc_row failed 95 None)].

Definition sample_gc_db : GcDb :=
  {| gc_db := {| workspaces := list_to_map (map (fun p => (p.1, p.2.1)) sample_gc_rows);
                 tasks := {["t"]}; attempts := ∅; candidates := ∅;
                 reservations := {["r" := {| r_workspace_id := "wm"; r_reserved_at := 1;
                                             r_released_at := None |}]};
                 restore_quarantined := false; held_tasks := ∅ |};
     gc_columns := list_to_map (map (fun p => (p.1, p.2.2)) sample_gc_rows);
     gc_leases := {| SecretLeases.leases := ∅; SecretLeases.lease_workspaces := ∅; SecretLeases.trail := [] |} |}.

(** A file system in which everything exists, and Docker does not answer. *)
Definition sample_exists (_ : unit) (_ : path) : result OsError bool := Ok true.
Definition sample_bytes (_ : unit) (_ : path) : result OsError Z := Ok 7.
Definition sample_inspect (_ : unit) (_ : string) : option RuntimeSnapshot := None.

Definition sample_plan (limit : option Z) : result GcError WorkspaceGCPlan :=
  plan_terminal_workspace_gc sample_exists sample_bytes sample_inspect id tt (Path "/awf") 100
    sample_gc_db 10 limit None None true 50.

Definition plan_of (r : result GcError WorkspaceGCPlan) : WorkspaceGCPlan :=
  match r with
  | Ok pl => pl
  | Err _ => {| pl_work_dir := []; pl_cutoff_at := 0; pl_include_statuses := [];
                pl_exclude_statuses := []; pl_candidates := []; pl_preserved := [];
                pl_cleanup_enabled := false; pl_default_policy := false |}
  end.

Lemma gc_plan_safe_witness :
  sample_plan (Some 1) = Ok (plan_of (sample_plan (Some 1))) /\
  map cd_workspace_id (pl_candidates (plan_of (sample_plan (Some 1)))) = ["wf"] /\
  NoDup (map cd_workspace_id (pl_candidates (plan_of (sample_plan (Some 1))))).
Proof.
  assert (H : sample_plan (Some 1) = Ok (plan_of (sample_plan (Some 1)))) by (vm_compute; reflexivity).
  split; [exact H|]. split; [vm_compute; reflexivity|].
  exact (proj1 (proj2 (gc_plan_safe sample_exists sample_bytes sample_inspect id tt (Path "/awf") 100
                         sample_gc_db 10 None None true 50 (Some 1) _ H))).
Defined.

Lemma gc_plan_exact_witness :
  sample_plan None = Ok (plan_of (sample_plan None)) /\
  map cd_workspace_id (pl_candidates (plan_of (sample_plan None))) = ["wm"; "wf"] /\
  map pv_workspace_id (pl_preserved (plan_of (sample_plan None))) = ["wn"] /\
  (forall c, c ∈ pl_candidates (plan_of (sample_plan None)) <->
     exists r, considered sample_gc_db None None r /\
       the_classifier sample_exists sample_bytes sample_inspect id tt (Path "/awf") 100 10 None true
         50 r = Ok (Candidate c)).
Proof.
  assert (H : sample_plan None = Ok (plan_of (sample_plan None))) by (vm_compute; reflexivity).
  split; [exact H|]. split; [vm_compute; reflexivity|]. split; [vm_compute; reflexivity|].
  exact (proj1 (gc_plan_exact sample_exists sample_bytes sample_inspect id tt (Path "/awf") 100
                  sample_gc_db 10 None None true 50 _ H)).
Defined.

Lemma gc_plan_fair_witness :
  exists r, considered sample_gc_db None None r /\ gr_id r = "wm" /\
    (gr_id r ∈ map cd_workspace_id (pl_candidates (plan_of (sample_plan (Some 1)))) \/
     Z.of_nat (length (pl_candidates (plan_of (sample_plan (Some 1))))) = 1 /\
     forall c, c ∈ pl_candidates (plan_of (sample_plan (Some 1))) ->
       older (candidate_age c) (row_age r) = true).
Proof.
  assert (H : sample_plan (Some 1) = Ok (plan_of (sample_plan (Some 1)))) by (vm_compute; reflexivity).
  set (r := {| gr_id := "wm"; gr_workspace := sample_workspace completed None None;
               gr_columns := (sample_gc_row completed 20 (Some "sha")).2 |}).
  assert (Hr : considered sample_gc_db None None r).
  { split; [apply elem_of_gc_rows; by split|]. split; [apply mem_true; reflexivity|reflexivity]. }
  exists r. split; [exact Hr|]. split; [reflexivity|].
  apply (gc_plan_fair sample_exists sample_bytes sample_inspect id tt (Path "/awf") 100
           sample_gc_db 10 None None true 50 1 _ r);
    [reflexivity|lia| |exact H|exact Hr|reflexivity].
  intros x Hx.
  assert (Hf : forallb (fun x => negb (eqb (pr_number x) (Some 0))) (gc_rows sample_gc_db) = true)
    by (vm_compute; reflexivity).
  rewrite forallb_forall in Hf. specialize (Hf x (proj1 (list_elem_of_In _ _) Hx)).
  apply negb_true_iff, eqb_false in Hf. exact Hf.
Defined.
