(* ===== verification/GcWorktrees.v ===== *)
(** * Removing the git worktrees of a workspace

    The mirror-aware removal that precedes the deletion of a workspace's directories
    ([service/gc_worktrees.py]): the default remover, which asks git about every worktree
    of a candidate, and what its report blocks.

    The file system, the resolution of a worktree's mirror and git's own removal are
    parameters. *)

From S2P Require Import Prelude PyStr PyPath Status Store Claims GcPlan.
#[local] Open Scope Z_scope.

(** ** Results *)

Record WorkspaceGCWorktreeRemoveTargetResult : Type := {
  wt_worktree_id : string;
  wt_status : string;
  wt_reason_code : string;
  wt_error : option string
}.

Record WorkspaceGCWorktreeRemoveResult : Type := {
  wr_status : string;
  wr_reason_code : string;
  wr_error : option string;
  target_results : list WorkspaceGCWorktreeRemoveTargetResult
}.

Definition wr_ok (r : WorkspaceGCWorktreeRemoveResult) : bool :=
  mem (wr_status r) ["succeeded"; "skipped"].

(** ** Worktrees of a candidate *)

Definition worktree_paths_by_id (c : WorkspaceGCCandidate) : gmap string path :=
  foldl (fun m t => <[path_name (gp_path t) := gp_path t]> m)
    {[cd_workspace_id c := gp_path (cd_worktree c)]} (cd_companion_worktrees c).

Definition worktree_id_for_gc_path (c : WorkspaceGCCandidate) (t : WorkspaceGCPath) : string :=
  if eqb (gp_path t) (gp_path (cd_worktree c)) then cd_workspace_id c else path_name (gp_path t).

Definition blocked_worktree_paths_after_remove (c : WorkspaceGCCandidate)
    (r : WorkspaceGCWorktreeRemoveResult) : list path :=
  let by_id := worktree_paths_by_id c in
  match target_results r with
  | [] => map snd (map_to_list by_id)
  | _ =>
      let reported_ids := map wt_worktree_id (target_results r) in
      omap (fun t => if eqb (wt_status t) "failed" then by_id !! wt_worktree_id t else None)
        (target_results r)
      ++ omap (fun p => if mem p.1 reported_ids then None else Some p.2) (map_to_list by_id)
  end.

Definition _first_failed_target_reason_code (l : list WorkspaceGCWorktreeRemoveTargetResult)
    (fallback : string) : string :=
  match List.filter (fun t => eqb (wt_status t) "failed" && negb (eqb (wt_reason_code t) "")) l with
  | t :: _ => wt_reason_code t
  | [] => fallback
  end.

(** [(worktree id, repo_url)] of the companions that have both keys. *)
Definition companion_worktree_remove_targets (r : GcRow) : list (string * string) :=
  omap (fun c => match c with
                 | (Some name, Some repo_url) => Some (companion_worktree_id (gr_id r) name, repo_url)
                 | _ => None
                 end) (gx_companions (gr_columns r)).

(** ** The default remover *)

(** [GitOperationError] *)
Record GitOperationError : Type := { ge_reason_code : string; ge_text : string }.

Record _ExistingWorktreeGitContext : Type := {
  is_non_git_worktree : bool;
  mirror_path : option path
}.

Section Remover.
Context {W : Type} (exists_path : W -> path -> result OsError bool).
(** Both probes of an existing worktree: its mirror, or that git does not manage it. *)
Context (git_context : W -> path -> result GitOperationError _ExistingWorktreeGitContext).
Context (remove_worktree_from_mirror : W -> string -> path -> W * option GitOperationError).
Context (remove_worktree : W -> string -> string -> W * option GitOperationError).

Record RemoveTarget : Type := {
  rt_worktree_id : string;
  rt_repo_url : string;
  rt_mirror_path : option path;
  rt_path_existed : bool
}.

(** The lists that the remover appends to. *)
Record Removal : Type := {
  rm_targets : list RemoveTarget;
  rm_results : list WorkspaceGCWorktreeRemoveTargetResult;
  rm_errors : list string
}.

Definition no_removal : Removal := {| rm_targets := []; rm_results := []; rm_errors := [] |}.

Definition add_result (m : Removal) (t : WorkspaceGCWorktreeRemoveTargetResult) : Removal :=
  {| rm_targets := rm_targets m; rm_results := rm_results m ++ [t]; rm_errors := rm_errors m |}.

Definition add_failure (m : Removal) (worktree_id : string) (e : GitOperationError) : Removal :=
  {| rm_targets := rm_targets m;
     rm_results := rm_results m ++ [{| wt_worktree_id := worktree_id; wt_status := "failed";
                                       wt_reason_code := ge_reason_code e;
                                       wt_error := Some (ge_text e) |}];
     rm_errors := rm_errors m ++ [worktree_id +:+ ": " +:+ ge_text e] |}.

Definition add_target (m : Removal) (t : RemoveTarget) : Removal :=
  {| rm_targets := rm_targets m ++ [t]; rm_results := rm_results m; rm_errors := rm_errors m |}.

Definition _existing_worktree_git_context_result (world : W) (p : path)
  : result OsError (result GitOperationError _ExistingWorktreeGitContext) :=
  exists_ <-? exists_path world p ;;
  Ok (if exists_ then git_context world p
      else Ok {| is_non_git_worktree := false; mirror_path := None |}).

(** [item.exists or item.path.exists()] *)
Definition path_existed (world : W) (t : WorkspaceGCPath) : result OsError bool :=
  if gp_exists t then Ok true else exists_path world (gp_path t).

(** A worktree becomes a target, a skipped result or a failure. *)
Definition plan_target (m : Removal) (worktree_id repo_url : string) (existed : bool)
    (context : result GitOperationError _ExistingWorktreeGitContext) : Removal :=
  match context with
  | Err e => add_failure m worktree_id e
  | Ok x =>
      if is_non_git_worktree x
      then add_result m {| wt_worktree_id := worktree_id; wt_status := "skipped";
                           wt_reason_code := "WORKTREE_NOT_GIT_MANAGED"; wt_error := None |}
      else add_target m {| rt_worktree_id := worktree_id; rt_repo_url := repo_url;
                           rt_mirror_path := mirror_path x; rt_path_existed := existed |}
  end.

(** [companion_paths.get(worktree_id)]: the last path of that name. *)
Definition companion_path (c : WorkspaceGCCandidate) (worktree_id : string) : option WorkspaceGCPath :=
  last (List.filter (fun t => eqb (path_name (gp_path t)) worktree_id) (cd_companion_worktrees c)).

Definition plan_companion (world : W) (c : WorkspaceGCCandidate) (m : Removal)
    (target : string * string) : result OsError Removal :=
  match companion_path c target.1 with
  | None => Ok (plan_target m target.1 target.2 false
                  (Ok {| is_non_git_worktree := false; mirror_path := None |}))
  | Some t =>
      existed <-? path_existed world t ;;
      context <-? _existing_worktree_git_context_result world (gp_path t) ;;
      Ok (plan_target m target.1 target.2 existed context)
  end.

Fixpoint plan_companions (world : W) (c : WorkspaceGCCandidate) (m : Removal)
    (targets : list (string * string)) : result OsError Removal :=
  match targets with
  | [] => Ok m
  | t :: rest => m' <-? plan_companion world c m t ;; plan_companions world c m' rest
  end.

(** Each target in turn; a failure does not stop the others. The last component tells
    whether a worktree that existed was removed. *)
Fixpoint remove_targets (world : W) (m : Removal) (existing_path_successes : bool)
    (targets : list RemoveTarget) : W * (Removal * bool) :=
  match targets with
  | [] => (world, (m, existing_path_successes))
  | t :: rest =>
      let '(world', failure) :=
        match rt_mirror_path t with
        | Some mirror => remove_worktree_from_mirror world (rt_worktree_id t) mirror
        | None => remove_worktree world (rt_worktree_id t) (rt_repo_url t)
        end in
      match failure with
      | Some e => remove_targets world' (add_failure m (rt_worktree_id t) e)
                    existing_path_successes rest
      | None =>
          remove_targets world'
            (add_result m {| wt_worktree_id := rt_worktree_id t; wt_status := "succeeded";
                             wt_reason_code := "WORKTREE_REMOVE_SUCCEEDED"; wt_error := None |})
            (existing_path_successes || rt_path_existed t) rest
      end
  end.

Definition failed_removal (status : string) (m : Removal) : WorkspaceGCWorktreeRemoveResult :=
  {| wr_status := status;
     wr_reason_code :=
       _first_failed_target_reason_code (rm_results m) "GIT_WORKTREE_REMOVE_FAILED";
     wr_error := Some (take_str 1000 (join "; " (rm_errors m)));
     target_results := rm_results m |}.

(** The worktree and the companions as git is asked to remove them. *)
Definition plan_removal (world : W) (r : GcRow) (c : WorkspaceGCCandidate) : result OsError Removal :=
  existed <-? path_existed world (cd_worktree c) ;;
  context <-? _existing_worktree_git_context_result world (gp_path (cd_worktree c)) ;;
  plan_companions world c
    (plan_target no_removal (cd_workspace_id c) (d_repo_url (w_desc (gr_workspace r))) existed context)
    (companion_worktree_remove_targets r).

(** [row] is the workspace's row when the remover reads it. *)
Definition default_worktree_remover (world : W) (row : option GcRow) (c : WorkspaceGCCandidate)
  : W * result OsError WorkspaceGCWorktreeRemoveResult :=
  match row with
  | Some r =>
      if eqb (d_repo_url (w_desc (gr_workspace r))) ""
      then (world, Ok {| wr_status := "skipped"; wr_reason_code := "NO_REPO_URL"; wr_error := None;
                         target_results := [] |})
      else
        match plan_removal world r c with
        | Err e => (world, Err e)
        | Ok m =>
            match rm_targets m with
            | [] =>
                (world,
                 Ok (match rm_errors m with
                     | _ :: _ => failed_removal "failed" m
                     | [] => {| wr_status := "skipped"; wr_reason_code := "WORKTREE_NOT_GIT_MANAGED";
                                wr_error := None; target_results := rm_results m |}
                     end))
            | targets =>
                let '(world', (m', existing_path_successes)) :=
                  remove_targets world m false targets in
                (world',
                 Ok (match rm_errors m' with
                     | _ :: _ => failed_removal
                                   (if existing_path_successes then "partial" else "failed") m'
                     | [] => {| wr_status := "succeeded"; wr_reason_code := "WORKTREE_REMOVE_SUCCEEDED";
                                wr_error := None; target_results := rm_results m' |}
                     end))
            end
        end
  | None => (world, Ok {| wr_status := "skipped"; wr_reason_code := "NO_REPO_URL"; wr_error := None;
                          target_results := [] |})
  end.
End Remover.

(** ** The report is complete *)

Section Report.
Context {W : Type} (exists_path : W -> path -> result OsError bool).
Context (git_context : W -> path -> result GitOperationError _ExistingWorktreeGitContext).
Context (remove_worktree_from_mirror : W -> string -> path -> W * option GitOperationError).
Context (remove_worktree : W -> string -> string -> W * option GitOperationError).

Definition failed_target (t : WorkspaceGCWorktreeRemoveTargetResult) : bool :=
  eqb (wt_status t) "failed".

(** The worktrees that a removal knows of. *)
Definition known (m : Removal) : list string :=
  map wt_worktree_id (rm_results m) ++ map rt_worktree_id (rm_targets m).

(** There is an error for every failure and no other. *)
Definition errors_match (m : Removal) : Prop :=
  length (rm_errors m) = length (List.filter failed_target (rm_results m)).

Lemma errors_match_app (m : Removal) (t : WorkspaceGCWorktreeRemoveTargetResult) (es : list string) :
  errors_match m -> length es = (if failed_target t then 1 else 0)%nat ->
  length (rm_errors m ++ es) = length (List.filter failed_target (rm_results m ++ [t])).
Proof.
  unfold errors_match. intros Hm He. rewrite List.filter_app, !length_app, Hm, He. simpl.
  by destruct (failed_target t).
Qed.

Lemma plan_target_spec (m : Removal) (worktree_id repo_url : string) (existed : bool)
    (context : result GitOperationError _ExistingWorktreeGitContext) :
  errors_match m ->
  errors_match (plan_target m worktree_id repo_url existed context) /\
  known (plan_target m worktree_id repo_url existed context) ≡ₚ known m ++ [worktree_id].
Proof.
  intros Hm. unfold plan_target, known, errors_match. destruct context as [x|e].
  - destruct (is_non_git_worktree x).
    + split; [|simpl; rewrite map_app; simpl; solve_Permutation].
      cbn [rm_errors rm_results add_result].
      rewrite <- (app_nil_r (rm_errors m)). by apply errors_match_app.
    + split; [done|]. simpl. rewrite map_app. simpl. solve_Permutation.
  - split; [|simpl; rewrite map_app; simpl; solve_Permutation].
    cbn [rm_errors rm_results add_failure]. by apply errors_match_app.
Qed.

Lemma plan_companions_spec (world : W) (c : WorkspaceGCCandidate) (targets : list (string * string))
    (m m' : Removal) :
  plan_companions exists_path git_context world c m targets = Ok m' -> errors_match m ->
  errors_match m' /\ known m' ≡ₚ known m ++ map fst targets.
Proof.
  revert m. induction targets as [|t targets IH]; intros m; cbn [plan_companions].
  - intros [= <-] Hm. by rewrite app_nil_r.
  - destruct (plan_companion exists_path git_context world c m t) as [m1|] eqn:E1; [|done].
    cbn [rbind]. intros H2 Hm.
    assert (H1 : errors_match m1 /\ known m1 ≡ₚ known m ++ [t.1]).
    { unfold plan_companion in E1. destruct (companion_path c t.1) as [x|].
      - destruct (path_existed _ _ _); [|done]. cbn [rbind] in E1.
        destruct (_existing_worktree_git_context_result _ _ _ _); [|done]. injection E1 as <-.
        by apply plan_target_spec.
      - injection E1 as <-. exact (plan_target_spec m t.1 t.2 false
          (Ok {| is_non_git_worktree := false; mirror_path := None |}) Hm). }
    destruct H1 as [Hm1 Hk1]. destruct (IH m1 H2 Hm1) as [Hm' Hk']. split; [done|].
    rewrite Hk', Hk1. simpl. by rewrite <- app_assoc.
Qed.

Lemma remove_targets_spec (targets : list RemoveTarget) (world world' : W) (m m' : Removal)
    (b b' : bool) :
  remove_targets remove_worktree_from_mirror remove_worktree world m b targets = (world', (m', b')) ->
  errors_match m ->
  errors_match m' /\
  map wt_worktree_id (rm_results m') = map wt_worktree_id (rm_results m) ++ map rt_worktree_id targets.
Proof.
  revert world m b. induction targets as [|t targets IH]; intros world m b; cbn [remove_targets].
  - intros [= _ <- _] Hm. by rewrite app_nil_r.
  - destruct (match rt_mirror_path t with Some _ => _ | None => _ end) as [w [e|]]; intros H Hm;
      apply IH in H as [Hm' Hk]; [split; [done|]| |split; [done|]|].
    + rewrite Hk. simpl. rewrite map_app, <- app_assoc. done.
    + unfold errors_match. cbn [rm_errors rm_results add_failure]. by apply errors_match_app.
    + rewrite Hk. simpl. rewrite map_app, <- app_assoc. done.
    + unfold errors_match. cbn [rm_errors rm_results add_result].
      rewrite <- (app_nil_r (rm_errors m)). by apply errors_match_app.
Qed.

Lemma no_failed_targets (m : Removal) :
  errors_match m -> rm_errors m = [] <-> forall t, t ∈ rm_results m -> wt_status t <> "failed".
Proof.
  unfold errors_match. intros Hm. split.
  - intros He t Ht Hs. rewrite He in Hm. destruct (List.filter failed_target (rm_results m)) eqn:Ef; [|done].
    assert (Hin : t ∈ List.filter failed_target (rm_results m)).
    { apply elem_of_bfilter. split; [|done]. unfold failed_target. by rewrite Hs. }
    rewrite Ef in Hin. by apply elem_of_nil in Hin.
  - intros Hall. assert (Hf : List.filter failed_target (rm_results m) = []).
    { destruct (List.filter failed_target (rm_results m)) as [|t l] eqn:Ef; [done|].
      assert (Hin : t ∈ List.filter failed_target (rm_results m)) by (rewrite Ef; by left).
      apply elem_of_bfilter in Hin as [Hs Ht]. unfold failed_target in Hs.
      rewrite eqb_true in Hs. by destruct (Hall t). }
    rewrite Hf in Hm. by destruct (rm_errors m).
Qed.

(** The default remover reports on every worktree of a workspace with a repository, the
    primary and each companion once, whatever git answers: a failure of one does not hide
    or skip another, and the run counts as successful exactly when none of them failed. *)
Theorem remover_reports_all (world world' : W) (row : GcRow) (c : WorkspaceGCCandidate)
    (r : WorkspaceGCWorktreeRemoveResult) :
  d_repo_url (w_desc (gr_workspace row)) <> "" ->
  default_worktree_remover exists_path git_context remove_worktree_from_mirror remove_worktree world
    (Some row) c = (world', Ok r) ->
  map wt_worktree_id (target_results r)
  ≡ₚ cd_workspace_id c :: map fst (companion_worktree_remove_targets row) /\
  (wr_ok r = true <-> forall t, t ∈ target_results r -> wt_status t <> "failed").
Proof.
  intros Hurl. unfold default_worktree_remover. rewrite (proj2 (eqb_false _ _)) by done.
  destruct (plan_removal exists_path git_context world row c) as [m|] eqn:Ep; [|done].
  assert (Hm : errors_match m /\ known m ≡ₚ cd_workspace_id c :: map fst (companion_worktree_remove_targets row)).
  { unfold plan_removal in Ep. destruct (path_existed _ _ _); [|done]. cbn [rbind] in Ep.
    destruct (_existing_worktree_git_context_result _ _ _ _); [|done]. cbn [rbind] in Ep.
    destruct (plan_target_spec no_removal (cd_workspace_id c) (d_repo_url (w_desc (gr_workspace row))) a a0)
      as [H1 H2]; [done|]. apply plan_companions_spec in Ep as [H3 H4]; [|done].
    split; [done|]. by rewrite H4, H2. }
  destruct Hm as [Hm Hk].
  assert (Hfin : forall m', errors_match m' ->
    map wt_worktree_id (rm_results m') ≡ₚ cd_workspace_id c :: map fst (companion_worktree_remove_targets row) ->
    forall st good, mem st ["succeeded"; "skipped"] = false ->
      mem (wr_status good) ["succeeded"; "skipped"] = true -> target_results good = rm_results m' ->
    let x := match rm_errors m' with _ :: _ => failed_removal st m' | [] => good end in
    map wt_worktree_id (target_results x)
      ≡ₚ cd_workspace_id c :: map fst (companion_worktree_remove_targets row) /\
    (wr_ok x = true <-> forall t, t ∈ target_results x -> wt_status t <> "failed")).
  { intros m' Hm' Hids st good Hst Hgood Hres x. subst x. pose proof (no_failed_targets m' Hm') as Hno.
    destruct (rm_errors m') as [|e es].
    - rewrite Hres. split; [done|]. unfold wr_ok. rewrite Hgood. tauto.
    - split; [done|]. unfold wr_ok. cbn [failed_removal wr_status target_results]. rewrite Hst.
      split; [done|]. intros Hall. by apply Hno in Hall. }
  destruct (rm_targets m) as [|t0 ts] eqn:Et.
  - intros [= _ <-]. apply Hfin; try done. unfold known in Hk. rewrite Et, app_nil_r in Hk. done.
  - rewrite <- Et. destruct (remove_targets _ _ _ _ _ _) as [w [m' b]] eqn:Er. intros [= _ <-].
    apply remove_targets_spec in Er as [Hm' Hids]; [|done].
    apply Hfin; try done; [|by destruct b]. rewrite Hids, <- Hk. done.
Qed.
End Report.

(** A workspace with a companion whose removal git refuses. *)
Definition companion_row : GcRow :=
  {| gr_id := "wm"; gr_workspace := sample_workspace completed None None;
     gr_columns := {| gx_updated_at := 20; gx_pr_merge_sha := Some "sha";
                      gx_compose_project_name := None; gx_compose_file_path := None;
                      gx_companions := [(Some "lib", Some "https://forge/lib")] |} |}.

Definition worktree_path (kind id : string) : WorkspaceGCPath :=
  {| gp_kind := kind; gp_path := Path ("/awf/git/worktrees/" +:+ id); gp_exists := true;
     gp_estimated_bytes := 7 |}.

Definition companion_candidate : WorkspaceGCCandidate :=
  {| cd_workspace_id := "wm"; cd_status := status_value completed; cd_updated_at := 20;
     cd_age_hours := 0; cd_reason_code := COMPLETED_PR_RETENTION_EXPIRED;
     cd_worktree := worktree_path "worktree" "wm"; cd_compose := worktree_path "compose" "c";
     cd_auth := worktree_path "auth" "a";
     cd_companion_worktrees := [worktree_path "companion_worktree:wm__companion__lib" "wm__companion__lib"];
     cd_compose_project_name := None; cd_compose_file_path := None |}.

Definition refusing_git (w : unit) (id : string) (mirror : path) : unit * option GitOperationError :=
  (w, if eqb id "wm" then None
      else Some {| ge_reason_code := "GIT_WORKTREE_REMOVE_FAILED"; ge_text := "locked" |}).
Definition mirrored (w : unit) (p : path) : result GitOperationError _ExistingWorktreeGitContext :=
  Ok {| is_non_git_worktree := false; mirror_path := Some (Path "/awf/git/mirrors/m") |}.
Definition all_there (w : unit) (p : path) : result OsError bool := Ok true.
Definition no_mirror (w : unit) (id url : string) : unit * option GitOperationError := (w, None).

Definition companion_report : WorkspaceGCWorktreeRemoveResult :=
  match (default_worktree_remover all_there mirrored refusing_git no_mirror tt (Some companion_row)
           companion_candidate).2 with
  | Ok r => r
  | Err _ => failed_removal "" no_removal
  end.

Lemma remover_reports_all_witness :
  wr_status companion_report = "partial" /\
  map wt_worktree_id (target_results companion_report) ≡ₚ ["wm"; "wm__companion__lib"].
Proof.
  split; [vm_compute; reflexivity|].
  apply (remover_reports_all all_there mirrored refusing_git no_mirror tt tt companion_row
           companion_candidate companion_report); [discriminate|vm_compute; reflexivity].
Defined.
