(* ===== verification/GcRun.v ===== *)
(** * Executing a garbage collection plan

    [run_terminal_workspace_gc] and [run_workspace_filesystem_gc] of [service/gc.py], with
    the deletion of [gc_classify.py] and the unmount of [gc_auth_overlay.py]: the compose
    teardowns, the revocation of leases, the deletion of the directories, the release of
    reservations and the mark that a workspace was reclaimed.

    A run passes the world (file system, Docker, git) and the tables along. Between its
    phases other sessions commit what they like: [others]. *)

From S2P Require Import Prelude PyStr PyPath PyTime PyVal Status Store WorkspaceRepo Claims.
From S2P Require Import GcPlan.
From S2P Require Import GcWorktrees.
From S2P Require SecretLeases.
#[local] Open Scope Z_scope.

(** ** Results *)

Record WorkspaceGCComposeTeardownResult : Type := {
  ct_status : string;
  ct_reason_code : string;
  ct_error : option string
}.

Definition ct_ok (r : WorkspaceGCComposeTeardownResult) : bool :=
  mem (ct_status r) ["succeeded"; "skipped"].

Record WorkspaceGCPathOutcome : Type := {
  po_workspace_id : string;
  po_kind : string;
  po_path : path;
  po_status : string;
  po_reason_code : string;
  po_deleted : bool;
  po_error : option string;
  po_estimated_bytes : Z
}.

Record WorkspaceGCDeleteError : Type := {
  de_workspace_id : string;
  de_kind : string;
  de_path : path;
  de_error : string;
  de_reason_code : string
}.

Definition PATH_DELETED : string := "PATH_DELETED".
Definition PATH_ALREADY_REMOVED : string := "PATH_ALREADY_REMOVED".
Definition PATH_DELETE_FAILED : string := "PATH_DELETE_FAILED".
Definition PATH_DELETE_PERMISSION_DENIED : string := "PATH_DELETE_PERMISSION_DENIED".
Definition COMPOSE_TEARDOWN_CALLBACK_RAISED : string := "COMPOSE_TEARDOWN_CALLBACK_RAISED".
Definition WORKSPACE_GC_EMPTY_PLAN_COMPOSE_TEARDOWN : string :=
  "WORKSPACE_GC_EMPTY_PLAN_COMPOSE_TEARDOWN".
Definition CLEANUP_DRY_RUN : string := "CLEANUP_DRY_RUN".
Definition CLEANUP_EXECUTION_SUCCEEDED : string := "CLEANUP_EXECUTION_SUCCEEDED".
Definition CLEANUP_EXECUTION_PARTIAL : string := "CLEANUP_EXECUTION_PARTIAL".
Definition TERMINAL_GC_REVOKE_REASON : string := "TERMINAL_GC".

Definition _PRESERVED_COMPOSE_TEARDOWN_FALLBACK_STATES : list (string * string) :=
  [(WORKSPACE_WITHIN_RETENTION, status_value completed)].

(** What the path loop collects. *)
Record Deletions : Type := {
  deleted_paths : list path;
  delete_errors : list WorkspaceGCDeleteError;
  path_outcomes : list WorkspaceGCPathOutcome;
  worktree_removes : list (string * WorkspaceGCWorktreeRemoveResult)
}.

Definition no_deletions : Deletions :=
  {| deleted_paths := []; delete_errors := []; path_outcomes := []; worktree_removes := [] |}.

Definition app_deletions (x y : Deletions) : Deletions :=
  {| deleted_paths := deleted_paths x ++ deleted_paths y;
     delete_errors := delete_errors x ++ delete_errors y;
     path_outcomes := path_outcomes x ++ path_outcomes y;
     worktree_removes := worktree_removes x ++ worktree_removes y |}.

(** ** Exceptions *)

(** An exception of the compose callback, with the result an earlier handler cached. *)
Record Raised : Type := {
  ex_type : string;
  ex_text : string;
  ex_cached : option WorkspaceGCComposeTeardownResult
}.

Definition compose_teardown_result_for_exception (e : Raised) : WorkspaceGCComposeTeardownResult :=
  match ex_cached e with
  | Some r => r
  | None =>
      let error_message := if eqb (ex_text e) "" then ex_type e
                           else ex_type e +:+ ": " +:+ ex_text e in
      {| ct_status := "failed"; ct_reason_code := COMPOSE_TEARDOWN_CALLBACK_RAISED;
         ct_error := Some (take_str 400 error_message) |}
  end.

(** How [teardown_workspace_auth_overlay] ends: it returns, it raises
    [OverlayUnmountUnverifiableError], or it raises [OSError] or [SubprocessError] (with
    its [repr]). *)
Inductive Unmount : Type :=
| Unmounted
| Unverifiable (reason_code text : string)
| UnmountFailed (repr : string).

Definition unmount_failure (u : Unmount) : option (string * string) :=
  match u with
  | Unmounted => None
  | Unverifiable reason_code text => Some (reason_code, take_str 400 text)
  | UnmountFailed repr => Some ("CLAUDE_AUTH_OVERLAY_UNMOUNT_FAILED", take_str 400 repr)
  end.

(** A report is there and its [status] is this one. *)
Definition report_status (report : option dict) (status : string) : bool :=
  match report with
  | Some d => match get d "status" with VStr s => eqb s status | _ => false end
  | None => false
  end.

Section Run.
(** The file system. [resolve] is [resolve(strict=False)], [rmtree] may delete a part and
    then raise. *)
Context {W : Type} (exists_path is_symlink is_dir : W -> path -> result OsError bool).
Context (resolve : W -> path -> result OsError path) (rmtree : W -> path -> W * option OsError).
Context (_estimate_bytes : W -> path -> result OsError Z).
Context (expanduser : path -> path) (inspect : W -> string -> option RuntimeSnapshot).
(** The unmount of an auth overlay. *)
Context (unmount : W -> string -> W * Unmount).
Context (work_dir : path).

(** ** Deleting a path *)

(** [target.kind.split(":", maxsplit=1)[0]] *)
Definition kind_root (kind : string) : option path :=
  let base := match split_on ":" kind with k :: _ => k | [] => "" end in
  if eqb base "worktree" || eqb base "companion_worktree"
  then Some (div (div work_dir "git") "worktrees")
  else if eqb base "compose" then Some (div work_dir "compose")
  else if eqb base "auth" then Some (div work_dir "auth")
  else None.

Definition _is_safe_gc_path (world : W) (t : WorkspaceGCPath) : result OsError bool :=
  match kind_root (gp_kind t) with
  | None => Ok false
  | Some root =>
      target <-? resolve world (gp_path t) ;;
      resolved_root <-? resolve world root ;;
      Ok (is_relative_to target resolved_root)
  end.

Inductive Preflight : Type := Absent | Refused (error : string) | Deletable.

Definition preflight (world : W) (t : WorkspaceGCPath) : result OsError Preflight :=
  exists_ <-? exists_path world (gp_path t) ;;
  if negb exists_ then Ok Absent
  else
    safe <-? _is_safe_gc_path world t ;;
    if negb safe then Ok (Refused "path is outside the expected service GC roots")
    else
      symlink <-? is_symlink world (gp_path t) ;;
      if symlink then Ok (Refused "refusing to delete symlink")
      else
        dir <-? is_dir world (gp_path t) ;;
        Ok (if negb dir then Refused "refusing to delete non-directory path" else Deletable).

(** [(deleted, error, failure_reason_code)] *)
Definition on_os_error (e : OsError) : bool * option string * option string :=
  if is_permission_error e then (false, Some (os_text e), Some PATH_DELETE_PERMISSION_DENIED)
  else if eqb (os_errno e) (Some ENOENT) then (false, None, Some PATH_ALREADY_REMOVED)
  else (false, Some (os_text e),
        Some (if mem (os_errno e) _PERMISSION_DENIED_ERRNOS then PATH_DELETE_PERMISSION_DENIED
              else PATH_DELETE_FAILED)).

Definition _delete_gc_path (world : W) (t : WorkspaceGCPath)
  : W * (bool * option string * option string) :=
  match preflight world t with
  | Err e => (world, on_os_error e)
  | Ok Absent => (world, (false, None, None))
  | Ok (Refused error) => (world, (false, Some error, Some PATH_DELETE_FAILED))
  | Ok Deletable =>
      let '(world', failure) := rmtree world (gp_path t) in
      (world', match failure with Some e => on_os_error e | None => (true, None, None) end)
  end.

Definition outcome (c : WorkspaceGCCandidate) (t : WorkspaceGCPath) (status reason_code : string)
    (deleted : bool) (error : option string) : WorkspaceGCPathOutcome :=
  {| po_workspace_id := cd_workspace_id c; po_kind := gp_kind t; po_path := gp_path t;
     po_status := status; po_reason_code := reason_code; po_deleted := deleted;
     po_error := error; po_estimated_bytes := gp_estimated_bytes t |}.

(** [error or default] *)
Definition or_text (error : option string) (default : string) : string :=
  match truthy_str error with Some s => s | None => default end.

Definition _delete_gc_path_outcome (world : W) (c : WorkspaceGCCandidate) (t : WorkspaceGCPath)
  : W * WorkspaceGCPathOutcome :=
  let '(world', (deleted, error, failure_reason_code)) := _delete_gc_path world t in
  (world',
   if deleted : bool then outcome c t "deleted" PATH_DELETED true None
   else if eqb error None && mem failure_reason_code [None; Some PATH_ALREADY_REMOVED]
   then outcome c t "already_removed" PATH_ALREADY_REMOVED false None
   else outcome c t "failed" (or_text failure_reason_code PATH_DELETE_FAILED) false
          (Some (or_text error "path was not deleted"))).

(** ** Deleting the paths of a candidate *)

(** The failure that keeps the target, if it does. *)
Definition _auth_overlay_unmount_skips_target (failure : option (string * string))
    (t : WorkspaceGCPath) : option (string * string) :=
  f ← failure; if eqb (gp_kind t) "auth" then Some f else None.

Definition delete_error (c : WorkspaceGCCandidate) (kind : string) (p : path)
    (error reason_code : string) : WorkspaceGCDeleteError :=
  {| de_workspace_id := cd_workspace_id c; de_kind := kind; de_path := p; de_error := error;
     de_reason_code := reason_code |}.

Definition path_deletion (t : WorkspaceGCPath) (c : WorkspaceGCCandidate)
    (o : WorkspaceGCPathOutcome) : Deletions :=
  {| deleted_paths := if po_deleted o then [gp_path t] else [];
     delete_errors := match po_error o with
                      | Some e => [delete_error c (gp_kind t) (gp_path t) e (po_reason_code o)]
                      | None => []
                      end;
     path_outcomes := [o]; worktree_removes := [] |}.

Definition skipped_outcomes (l : list WorkspaceGCPathOutcome) : Deletions :=
  {| deleted_paths := []; delete_errors := []; path_outcomes := l; worktree_removes := [] |}.

Definition delete_target (world : W) (c : WorkspaceGCCandidate) (failure : option (string * string))
    (t : WorkspaceGCPath) : W * Deletions :=
  match _auth_overlay_unmount_skips_target failure t with
  | Some (reason_code, message) =>
      (world, skipped_outcomes [outcome c t "skipped" reason_code false (Some message)])
  | None =>
      let '(world', o) := _delete_gc_path_outcome world c t in (world', path_deletion t c o)
  end.

Fixpoint delete_targets (world : W) (c : WorkspaceGCCandidate) (failure : option (string * string))
    (targets : list WorkspaceGCPath) : W * Deletions :=
  match targets with
  | [] => (world, no_deletions)
  | t :: rest =>
      let '(world1, d1) := delete_target world c failure t in
      let '(world2, d2) := delete_targets world1 c failure rest in
      (world2, app_deletions d1 d2)
  end.

Definition _worktree_remove_delete_errors (c : WorkspaceGCCandidate)
    (r : WorkspaceGCWorktreeRemoveResult) : list WorkspaceGCDeleteError :=
  match
    omap (fun t =>
      if negb (eqb (wt_status t) "failed") then None
      else p ← worktree_paths_by_id c !! wt_worktree_id t;
           Some (delete_error c "worktree_remove" p
                   (or_text (wt_error t) (or_text (wr_error r) (wt_reason_code t)))
                   (wt_reason_code t)))
      (target_results r)
  with
  | [] => [delete_error c "worktree_remove" (gp_path (cd_worktree c))
             (or_text (wr_error r) (wr_reason_code r)) (wr_reason_code r)]
  | errors => errors
  end.

(** [target_results_by_id.get(worktree_id)]: the last report of a worktree. *)
Definition target_result (r : WorkspaceGCWorktreeRemoveResult) (worktree_id : string)
  : option WorkspaceGCWorktreeRemoveTargetResult :=
  last (List.filter (fun t => eqb (wt_worktree_id t) worktree_id) (target_results r)).

Definition blocked_outcomes (c : WorkspaceGCCandidate) (r : WorkspaceGCWorktreeRemoveResult)
  : list WorkspaceGCPathOutcome :=
  let blocked := blocked_worktree_paths_after_remove c r in
  map (fun t => match target_result r (worktree_id_for_gc_path c t) with
                | Some x => outcome c t "skipped" (wt_reason_code x) false (wt_error x)
                | None => outcome c t "skipped" (wr_reason_code r) false (wr_error r)
                end)
    (List.filter (fun t => mem (gp_path t) blocked) (cd_worktree c :: cd_companion_worktrees c)).

(** The teardown failed: the containers may still run, so everything is kept. *)
Definition teardown_failed (c : WorkspaceGCCandidate) (r : WorkspaceGCComposeTeardownResult)
  : Deletions :=
  {| deleted_paths := [];
     delete_errors := [delete_error c "compose_teardown" (gp_path (cd_compose c))
                         (or_text (ct_error r) (ct_reason_code r)) (ct_reason_code r)];
     path_outcomes := map (fun t => outcome c t "skipped" (ct_reason_code r) false (ct_error r))
                        (candidate_paths c);
     worktree_removes := [] |}.

Definition unmount_errors (c : WorkspaceGCCandidate) (failure : option (string * string)) : Deletions :=
  {| deleted_paths := [];
     delete_errors := match failure with
                      | Some (reason_code, message) =>
                          [delete_error c "auth_overlay_unmount" (gp_path (cd_auth c)) message
                             reason_code]
                      | None => []
                      end;
     path_outcomes := []; worktree_removes := [] |}.

Definition Remover : Type :=
  W -> WorkspaceGCCandidate -> W * result OsError WorkspaceGCWorktreeRemoveResult.

(** The overlay is unmounted and git removes the worktrees before anything is deleted. *)
Definition delete_torn_down (world : W) (remover : option Remover) (c : WorkspaceGCCandidate)
  : W * result OsError Deletions :=
  let '(world1, unmounted) := unmount world (cd_workspace_id c) in
  let failure := unmount_failure unmounted in
  let errors := unmount_errors c failure in
  let '(world2, removed) :=
    match remover with
    | None => (world1, Ok None)
    | Some remove => let '(world2, r) := remove world1 c in
                     (world2, match r with Ok x => Ok (Some x) | Err e => Err e end)
    end in
  match removed with
  | Err e => (world2, Err e)
  | Ok None =>
      let '(world3, d) := delete_targets world2 c failure (candidate_paths c) in
      (world3, Ok (app_deletions errors d))
  | Ok (Some r) =>
      let reported := {| deleted_paths := []; delete_errors := []; path_outcomes := [];
                         worktree_removes := [(cd_workspace_id c, r)] |} in
      if wr_ok r then
        let '(world3, d) := delete_targets world2 c failure (candidate_paths c) in
        (world3, Ok (app_deletions errors (app_deletions reported d)))
      else
        let blocked := blocked_worktree_paths_after_remove c r in
        let refused := {| deleted_paths := [];
                          delete_errors := _worktree_remove_delete_errors c r;
                          path_outcomes := blocked_outcomes c r; worktree_removes := [] |} in
        let '(world3, d) :=
          delete_targets world2 c failure
            (List.filter (fun t => negb (mem (gp_path t) blocked)) (candidate_paths c)) in
        (world3, Ok (app_deletions errors (app_deletions reported (app_deletions refused d))))
  end.

Definition delete_candidate (world : W) (remover : option Remover) (c : WorkspaceGCCandidate)
    (teardown : option WorkspaceGCComposeTeardownResult) : W * result OsError Deletions :=
  match teardown with
  | Some r => if negb (ct_ok r) then (world, Ok (teardown_failed c r))
              else delete_torn_down world remover c
  | None => delete_torn_down world remover c
  end.

(** [_delete_gc_plan_paths] over the plan's candidates. *)
Fixpoint _delete_gc_plan_paths (world : W) (remover : option Remover)
    (teardowns : gmap string WorkspaceGCComposeTeardownResult) (l : list WorkspaceGCCandidate)
  : W * result OsError Deletions :=
  match l with
  | [] => (world, Ok no_deletions)
  | c :: rest =>
      match delete_candidate world remover c (teardowns !! cd_workspace_id c) with
      | (world1, Err e) => (world1, Err e)
      | (world1, Ok d1) =>
          match _delete_gc_plan_paths world1 remover teardowns rest with
          | (world2, Err e) => (world2, Err e)
          | (world2, Ok d2) => (world2, Ok (app_deletions d1 d2))
          end
      end
  end.

(** ** Compose teardowns *)

Definition ComposeTeardown : Type :=
  W -> WorkspaceGCCandidate -> W * result Raised (option WorkspaceGCComposeTeardownResult).

Definition _teardown_candidate (world : W) (teardown : ComposeTeardown) (c : WorkspaceGCCandidate)
  : W * option WorkspaceGCComposeTeardownResult :=
  let '(world', r) := teardown world c in
  (world', match r with
           | Ok x => x
           | Err e => Some (compose_teardown_result_for_exception e)
           end).

(** The teardowns overlap, four at a time; their results come in the candidates' order,
    in which they are taken here one after the other. *)
Fixpoint gather_teardowns (world : W) (teardown : ComposeTeardown)
    (teardowns : gmap string WorkspaceGCComposeTeardownResult) (l : list WorkspaceGCCandidate)
  : W * gmap string WorkspaceGCComposeTeardownResult :=
  match l with
  | [] => (world, teardowns)
  | c :: rest =>
      let '(world', r) := _teardown_candidate world teardown c in
      gather_teardowns world' teardown
        (match r with Some x => <[cd_workspace_id c := x]> teardowns | None => teardowns end) rest
  end.

Definition _run_gc_compose_teardowns (world : W) (compose_teardown : option ComposeTeardown)
    (l : list WorkspaceGCCandidate) (fallback_candidate : option WorkspaceGCCandidate)
  : W * gmap string WorkspaceGCComposeTeardownResult :=
  match compose_teardown with
  | None => (world, ∅)
  | Some teardown =>
      gather_teardowns world teardown ∅
        match l, fallback_candidate with
        | [], Some c => [c]
        | _, _ => l
        end
  end.

Definition torn_down (teardowns : gmap string WorkspaceGCComposeTeardownResult) (ws : string) : bool :=
  match teardowns !! ws with Some r => ct_ok r | None => true end.

Definition _workspace_ids_after_compose_teardown (l : list WorkspaceGCCandidate)
    (teardowns : gmap string WorkspaceGCComposeTeardownResult) : list string :=
  let candidate_ids := map cd_workspace_id l in
  List.filter (torn_down teardowns) candidate_ids
  ++ map fst (List.filter (fun p => negb (mem p.1 candidate_ids) && ct_ok p.2)
                (map_to_list teardowns)).

(** ** Leases and reservations *)

Definition set_gc_db (s : GcDb) (db : Db) : GcDb :=
  {| gc_db := db; gc_columns := gc_columns s; gc_leases := gc_leases s |}.

(** One transaction; a workspace that is gone is skipped. The summaries count the leases. *)
Fixpoint _revoke_gc_secret_leases (s : GcDb) (now : Z) (summaries : gmap string Z)
    (workspace_ids : list string) : GcDb * gmap string Z :=
  match workspace_ids with
  | [] => (s, summaries)
  | ws :: rest =>
      match workspaces (gc_db s) !! ws with
      | None => _revoke_gc_secret_leases s now summaries rest
      | Some _ =>
          let '(leases, revoked) :=
            SecretLeases.revoke_workspace_secret_leases (gc_leases s) ws
              {| dt_us := now; dt_offset := Some 0 |} TERMINAL_GC_REVOKE_REASON in
          _revoke_gc_secret_leases
            {| gc_db := gc_db s; gc_columns := gc_columns s; gc_leases := leases |} now
            (<[ws := Z.of_nat (length revoked)]> summaries) rest
      end
  end.

Record ReleaseSummary : Type := { released_count : Z; rl_error : option string }.

Definition active_reservations (s : GcDb) (ws : string) : Z :=
  Z.of_nat (length (List.filter (fun p => eqb (r_workspace_id p.2) ws && eqb (r_released_at p.2) None)
                      (map_to_list (reservations (gc_db s))))).

(** [release_error ws]: the release of the workspace raises, and is rolled back;
    [release_time] is the clock when it commits. *)
Context (release_error : string -> option string) (release_time : string -> Z).

Definition release_one (s : GcDb) (ws : string) : GcDb * ReleaseSummary :=
  match release_error ws with
  | Some e => (s, {| released_count := 0; rl_error := Some e |})
  | None => (set_gc_db s (release_active_for_workspace (gc_db s) ws (release_time ws)),
             {| released_count := active_reservations s ws; rl_error := None |})
  end.

Fixpoint _release_gc_reservations (s : GcDb) (summaries : gmap string ReleaseSummary)
    (workspace_ids : list string) : GcDb * gmap string ReleaseSummary :=
  match workspace_ids with
  | [] => (s, summaries)
  | ws :: rest =>
      let '(s', summary) := release_one s ws in
      _release_gc_reservations s' (<[ws := summary]> summaries) rest
  end.

(** ** Marking what was reclaimed *)

Definition failed_ids (errors : list WorkspaceGCDeleteError)
    (releases : gmap string ReleaseSummary) : list string :=
  map de_workspace_id errors
  ++ map fst (List.filter (fun p => negb (eqb (rl_error p.2) None)) (map_to_list releases)).

Definition target_gone (d : Deletions) (c : WorkspaceGCCandidate) (t : WorkspaceGCPath) : bool :=
  existsb (fun o => mem (po_status o) ["deleted"; "already_removed"]
                    && eqb (po_workspace_id o, po_kind o, po_path o)
                           (cd_workspace_id c, gp_kind t, gp_path t)) (path_outcomes d).

Definition reclaimed_candidates (l : list WorkspaceGCCandidate) (d : Deletions)
    (releases : gmap string ReleaseSummary) : list WorkspaceGCCandidate :=
  List.filter (fun c => negb (mem (cd_workspace_id c) (failed_ids (delete_errors d) releases))
                        && forallb (target_gone d c) (candidate_paths c)) l.

Definition set_reclaimed (w : Workspace) (now : Z) : Workspace :=
  let l := w_life w in
  with_life w {| l_status := l_status l; l_version := l_version l;
                 l_event_sequence := l_event_sequence l;
                 l_monitor_started_at := l_monitor_started_at l;
                 l_filesystem_reclaimed_at := Some now; l_events := l_events l |}.

(** The guarded update of one row. *)
Definition mark_reclaimed (now : Z) (s : GcDb) (c : WorkspaceGCCandidate) : GcDb :=
  let ws := cd_workspace_id c in
  match workspaces (gc_db s) !! ws, gc_columns s !! ws with
  | Some w, Some x =>
      if eqb (l_status (w_life w)) (cd_status c) && (gx_updated_at x =? cd_updated_at c)
         && eqb (l_filesystem_reclaimed_at (w_life w)) None
      then set_gc_db s (set_workspaces (gc_db s) (<[ws := set_reclaimed w now]> (workspaces (gc_db s))))
      else s
  | _, _ => s
  end.

Definition _record_filesystem_reclaimed (s : GcDb) (l : list WorkspaceGCCandidate) (d : Deletions)
    (releases : gmap string ReleaseSummary) (now : Z) : GcDb :=
  foldl (mark_reclaimed now) s (reclaimed_candidates l d releases).

(** ** The runs *)

Record WorkspaceGCResult : Type := {
  gr_plan : WorkspaceGCPlan;
  gr_dry_run : bool;
  gr_deletions : Deletions;
  gr_compose_teardowns : gmap string WorkspaceGCComposeTeardownResult;
  gr_secret_lease_revocations : gmap string Z;
  gr_reservation_releases : gmap string ReleaseSummary;
  gr_status : string;
  gr_reason_code : string;
  gr_companion_image_prune : option dict;
  gr_claude_base_reap : option dict
}.

Definition has_errors (d : Deletions) (teardowns : gmap string WorkspaceGCComposeTeardownResult)
    (releases : gmap string ReleaseSummary) (companion_image_prune claude_base_reap : option dict)
  : bool :=
  match delete_errors d with [] => false | _ => true end
  || existsb (fun p => negb (ct_ok p.2)) (map_to_list teardowns)
  || existsb (fun p => negb (eqb (rl_error p.2) None)) (map_to_list releases)
  || report_status companion_image_prune "failed"
  || report_status claude_base_reap "partial".

Definition _gc_result (plan : WorkspaceGCPlan) (d : Deletions)
    (teardowns : gmap string WorkspaceGCComposeTeardownResult) (revocations : gmap string Z)
    (releases : gmap string ReleaseSummary) (companion_image_prune claude_base_reap : option dict)
  : WorkspaceGCResult :=
  let errors := has_errors d teardowns releases companion_image_prune claude_base_reap in
  {| gr_plan := plan; gr_dry_run := false; gr_deletions := d; gr_compose_teardowns := teardowns;
     gr_secret_lease_revocations := revocations; gr_reservation_releases := releases;
     gr_status := if errors then "partial" else "succeeded";
     gr_reason_code := if errors then CLEANUP_EXECUTION_PARTIAL else CLEANUP_EXECUTION_SUCCEEDED;
     gr_companion_image_prune := companion_image_prune; gr_claude_base_reap := claude_base_reap |}.

Definition dry_run_result (plan : WorkspaceGCPlan) (claude_base_reap : option dict)
  : WorkspaceGCResult :=
  {| gr_plan := plan; gr_dry_run := true; gr_deletions := no_deletions; gr_compose_teardowns := ∅;
     gr_secret_lease_revocations := ∅; gr_reservation_releases := ∅; gr_status := "dry_run";
     gr_reason_code := CLEANUP_DRY_RUN; gr_companion_image_prune := None;
     gr_claude_base_reap := claude_base_reap |}.

(** The points of a run at which it holds no transaction. *)
Inductive GcPhase : Type := Planned | TornDown | LeasesRevoked | PathsDeleted | ReservationsReleased.

(** What other sessions commit while the run is at a phase. *)
Context (others : GcPhase -> GcDb -> GcDb).
(** The default remover reads the workspace's row. *)
Context (default_remover : W -> option GcRow -> WorkspaceGCCandidate ->
           W * result OsError WorkspaceGCWorktreeRemoveResult).

Definition gc_row (s : GcDb) (ws : string) : option GcRow :=
  w ← workspaces (gc_db s) !! ws; x ← gc_columns s !! ws;
  Some {| gr_id := ws; gr_workspace := w; gr_columns := x |}.

Definition _resolve_worktree_remover (remover : option Remover) (s : GcDb) : Remover :=
  match remover with
  | Some f => f
  | None => fun world c => default_remover world (gc_row s (cd_workspace_id c)) c
  end.

(** The phases of an execution, from the teardowns to the mark. *)
Record Executed : Type := {
  xd_deletions : Deletions;
  xd_teardowns : gmap string WorkspaceGCComposeTeardownResult;
  xd_revocations : gmap string Z;
  xd_releases : gmap string ReleaseSummary
}.

Definition execute_plan (world : W) (s : GcDb) (l : list WorkspaceGCCandidate)
    (fallback : option WorkspaceGCCandidate) (compose_teardown : option ComposeTeardown)
    (worktree_remover : option Remover) (now : Z) : W * GcDb * result GcError Executed :=
  let '(world1, teardowns) := _run_gc_compose_teardowns world compose_teardown l fallback in
  let side_effect_workspace_ids := _workspace_ids_after_compose_teardown l teardowns in
  let '(s1, revocations) :=
    _revoke_gc_secret_leases (others TornDown s) now ∅ side_effect_workspace_ids in
  let s2 := others LeasesRevoked s1 in
  match _delete_gc_plan_paths world1 (Some (_resolve_worktree_remover worktree_remover s2)) teardowns l
  with
  | (world2, Err e) => (world2, s2, Err (GcOsError e))
  | (world2, Ok d) =>
      let '(s3, releases) :=
        _release_gc_reservations (others PathsDeleted s2) ∅ side_effect_workspace_ids in
      let s4 := others ReservationsReleased s3 in
      (world2, _record_filesystem_reclaimed s4 l d releases now,
       Ok {| xd_deletions := d; xd_teardowns := teardowns; xd_revocations := revocations;
             xd_releases := releases |})
  end.

(** Run a host-wide callback if there is one. *)
Definition run_optional {A : Type} (world : W) (f : option (W -> A -> W * dict)) (a : A)
  : W * option dict :=
  match f with
  | Some g => let '(world', report) := g world a in (world', Some report)
  | None => (world, None)
  end.

Definition run_terminal_workspace_gc (world : W) (s : GcDb) (now min_age : Z) (limit : option Z)
    (include_statuses exclude_statuses : option (list string)) (execute cleanup_enabled : bool)
    (max_preserved_failed : Z) (compose_teardown : option ComposeTeardown)
    (worktree_remover : option Remover) (companion_image_prune : option (W -> unit -> W * dict))
    (claude_base_reap : option (W -> list path -> W * dict)) (extra_pruned_auth_dirs : list path)
  : W * GcDb * result GcError WorkspaceGCResult :=
  match plan_terminal_workspace_gc exists_path _estimate_bytes inspect expanduser world work_dir now s
          min_age limit include_statuses exclude_statuses cleanup_enabled max_preserved_failed with
  | Err e => (world, s, Err e)
  | Ok plan =>
      if negb execute then
        let pruned_auth_dirs :=
          map (fun c => gp_path (cd_auth c)) (pl_candidates plan) ++ extra_pruned_auth_dirs in
        let '(world1, reaped) := run_optional world claude_base_reap pruned_auth_dirs in
        (world1, s, Ok (dry_run_result plan reaped))
      else
        match execute_plan world (others Planned s) (pl_candidates plan) None compose_teardown
                worktree_remover now with
        | (world1, s1, Err e) => (world1, s1, Err e)
        | (world1, s1, Ok x) =>
            let '(world2, pruned) := run_optional world1 companion_image_prune tt in
            let '(world3, reaped) := run_optional world2 claude_base_reap [] in
            (world3, s1,
             Ok (_gc_result plan (xd_deletions x) (xd_teardowns x) (xd_revocations x) (xd_releases x)
                   pruned reaped))
        end
  end.

(** ** One workspace *)

Definition _missing_workspace_compose_teardown_candidate (world : W) (ws : string) (now : Z)
  : result GcError WorkspaceGCCandidate :=
  worktree <-? _gc_path exists_path _estimate_bytes world "worktree"
                 (div (div (div work_dir "git") "worktrees") ws) ;;
  compose <-? _gc_path exists_path _estimate_bytes world "compose" (div (div work_dir "compose") ws) ;;
  auth <-? _gc_path exists_path _estimate_bytes world "auth" (div (div work_dir "auth") ws) ;;
  Ok {| cd_workspace_id := ws; cd_status := status_value destroyed; cd_updated_at := now;
        cd_age_hours := 0; cd_reason_code := WORKSPACE_GC_EMPTY_PLAN_COMPOSE_TEARDOWN;
        cd_worktree := worktree; cd_compose := compose; cd_auth := auth;
        cd_companion_worktrees := []; cd_compose_project_name := None;
        cd_compose_file_path := None |}.

Definition _preserved_workspace_allows_compose_teardown_fallback (p : WorkspaceGCPreserved) : bool :=
  mem (pv_reason_code p, pv_status p) _PRESERVED_COMPOSE_TEARDOWN_FALLBACK_STATES.

Definition workspace_plan (world : W) (row : option GcRow) (now cutoff_at : Z)
    (preserved_failed_cutoff_at : Z) (cleanup_enabled ignore_retention : bool)
  : result GcError WorkspaceGCPlan :=
  classification <-?
    match row with
    | None => Ok Skipped
    | Some r => _classify_workspace_for_gc exists_path _estimate_bytes inspect expanduser world work_dir
                  now cutoff_at true cleanup_enabled ignore_retention
                  (Some preserved_failed_cutoff_at) r
    end ;;
  Ok {| pl_work_dir := work_dir; pl_cutoff_at := cutoff_at;
        pl_include_statuses := match row with Some r => [row_status r] | None => [] end;
        pl_exclude_statuses := [];
        pl_candidates := match classification with Candidate c => [c] | _ => [] end;
        pl_preserved := match classification with Preserved p => [p] | _ => [] end;
        pl_cleanup_enabled := cleanup_enabled; pl_default_policy := true |}.

(** The candidate whose containers go although its directories stay. *)
Definition fallback_compose_teardown_candidate (world : W) (row : option GcRow) (ws : string)
    (now : Z) (plan : WorkspaceGCPlan) : result GcError (option WorkspaceGCCandidate) :=
  match pl_candidates plan, row, pl_preserved plan with
  | _ :: _, _, _ => Ok None
  | [], None, _ => c <-? _missing_workspace_compose_teardown_candidate world ws now ;; Ok (Some c)
  | [], Some r, p :: _ =>
      if _preserved_workspace_allows_compose_teardown_fallback p
      then c <-? _candidate_for_workspace exists_path _estimate_bytes expanduser world work_dir now r
                   (pv_reason_code p) ;;
           Ok (Some c)
      else Ok None
  | [], Some _, [] => Ok None
  end.

Definition run_workspace_filesystem_gc (world : W) (s : GcDb) (ws : string) (now min_age : Z)
    (execute cleanup_enabled ignore_retention : bool) (max_preserved_failed : Z)
    (compose_teardown : option ComposeTeardown) (worktree_remover : option Remover)
  : W * GcDb * result GcError WorkspaceGCResult :=
  let row := gc_row s ws in
  match workspace_plan world row now (now - min_age) (now - max_preserved_failed) cleanup_enabled
          ignore_retention with
  | Err e => (world, s, Err e)
  | Ok plan =>
      if negb execute then (world, s, Ok (dry_run_result plan None))
      else
        match fallback_compose_teardown_candidate world row ws now plan with
        | Err e => (world, s, Err e)
        | Ok fallback =>
            match execute_plan world (others Planned s) (pl_candidates plan) fallback compose_teardown
                    worktree_remover now with
            | (world1, s1, Err e) => (world1, s1, Err e)
            | (world1, s1, Ok x) =>
                (world1, s1,
                 Ok (_gc_result plan (xd_deletions x) (xd_teardowns x) (xd_revocations x)
                       (xd_releases x) None None))
            end
        end
  end.
End Run.
