(* ===== verification/GcRunFacts.v ===== *)
(** * What executing a garbage collection plan does

    Every removal of a run is a permitted one; a run that reports success removed
    everything it planned to; the containers that could not be stopped keep their leases
    and reservations; and the reclaimed mark is set on exactly the rows whose directories
    are gone and that nobody touched since the plan. *)

From S2P Require Import Prelude PyStr PyPath PyTime PyVal Status Store WorkspaceRepo Claims.
From S2P Require Import GcPlan GcWorktrees GcRun.
From S2P Require SecretLeases SecretLeasesFacts GcPlanFacts.
#[local] Open Scope Z_scope.
#[local] Set Warnings "-register-all".

(** ** Deletions *)

Lemma app_deletions_assoc (x y z : Deletions) :
  app_deletions (app_deletions x y) z = app_deletions x (app_deletions y z).
Proof. unfold app_deletions. simpl. by rewrite <- !app_assoc. Qed.

Section Facts.
Context {W : Type} (exists_path is_symlink is_dir : W -> path -> result OsError bool).
Context (resolve : W -> path -> result OsError path) (rmtree : W -> path -> W * option OsError).
Context (unmount : W -> string -> W * Unmount) (work_dir : path).
Context (remover : option (Remover (W := W))).
Context (teardowns : gmap string WorkspaceGCComposeTeardownResult).

Abbreviation checked := (preflight exists_path is_symlink is_dir resolve work_dir).
Abbreviation delete_path := (_delete_gc_path exists_path is_symlink is_dir resolve rmtree work_dir).
Abbreviation delete_path_outcome :=
  (_delete_gc_path_outcome exists_path is_symlink is_dir resolve rmtree work_dir).
Abbreviation delete_one := (delete_target exists_path is_symlink is_dir resolve rmtree work_dir).
Abbreviation delete_all := (delete_targets exists_path is_symlink is_dir resolve rmtree work_dir).
Abbreviation after_teardown :=
  (delete_torn_down exists_path is_symlink is_dir resolve rmtree unmount work_dir).
Abbreviation for_candidate :=
  (delete_candidate exists_path is_symlink is_dir resolve rmtree unmount work_dir).
Abbreviation for_plan :=
  (_delete_gc_plan_paths exists_path is_symlink is_dir resolve rmtree unmount work_dir).

(** ** Every removal is permitted *)

(** Removals of worktrees and of directories, whatever they are. *)
Inductive removal : W -> W -> Prop :=
| removal_worktree remove world c : remover = Some remove -> removal world (remove world c).1
| removal_directory world p : removal world (rmtree world p).1.

(** The auth overlay of the workspace was unmounted, and nothing but removals came after. *)
Definition unmounted_before (ws : string) (world : W) : Prop :=
  exists world0 world1, unmount world0 ws = (world1, Unmounted) /\ rtc removal world1 world.

(** A directory that may be deleted is one, is no link, and lies under the root of its
    kind. *)
Record removable (world : W) (t : WorkspaceGCPath) : Prop := {
  rv_exists : exists_path world (gp_path t) = Ok true;
  rv_no_link : is_symlink world (gp_path t) = Ok false;
  rv_directory : is_dir world (gp_path t) = Ok true;
  rv_under_root : exists root target resolved_root,
    kind_root work_dir (gp_kind t) = Some root /\ resolve world (gp_path t) = Ok target /\
    resolve world root = Ok resolved_root /\ is_relative_to target resolved_root = true
}.

Lemma deletable_removable (world : W) (t : WorkspaceGCPath) :
  checked world t = Ok Deletable -> removable world t.
Proof.
  unfold preflight, _is_safe_gc_path. destruct (exists_path world (gp_path t)) as [[]|] eqn:Ee; try done.
  cbn [rbind negb]. destruct (kind_root work_dir (gp_kind t)) as [root|] eqn:Er; [|done].
  destruct (resolve world (gp_path t)) as [target|] eqn:Et; [|done]. cbn [rbind].
  destruct (resolve world root) as [rroot|] eqn:Ero; [|done]. cbn [rbind].
  destruct (is_relative_to target rroot) eqn:Erel; [|done]. cbn [negb].
  destruct (is_symlink world (gp_path t)) as [[]|] eqn:El; try done. cbn [rbind].
  destruct (is_dir world (gp_path t)) as [[]|] eqn:Ed; try done. intros _. split; try done.
  by exists root, target, rroot.
Qed.

(** What a run may do to the world once the compose stacks are down. *)
Inductive gc_step (l : list WorkspaceGCCandidate) : W -> W -> Prop :=
| step_unmount c world :
    c ∈ l -> torn_down teardowns (cd_workspace_id c) = true ->
    gc_step l world (unmount world (cd_workspace_id c)).1
| step_remove_worktrees c remove world :
    c ∈ l -> torn_down teardowns (cd_workspace_id c) = true -> remover = Some remove ->
    gc_step l world (remove world c).1
| step_delete c t world :
    c ∈ l -> torn_down teardowns (cd_workspace_id c) = true -> t ∈ candidate_paths c ->
    removable world t ->
    (gp_kind t = "auth" -> unmounted_before (cd_workspace_id c) world) ->
    gc_step l world (rmtree world (gp_path t)).1.

Lemma delete_path_steps (world world' : W) (t : WorkspaceGCPath)
    (x : bool * option string * option string) :
  delete_path world t = (world', x) ->
  world' = world \/ removable world t /\ world' = (rmtree world (gp_path t)).1.
Proof.
  unfold _delete_gc_path. destruct (checked world t) as [[]|] eqn:Ec; try (intros [= <- _]; by left).
  destruct (rmtree world (gp_path t)) as [w f]. intros [= <- _]. right.
  split; [by apply deletable_removable|done].
Qed.

Lemma delete_all_steps (l : list WorkspaceGCCandidate) (c : WorkspaceGCCandidate)
    (failure : option (string * string)) (targets : list WorkspaceGCPath) (world world' : W)
    (d : Deletions) :
  c ∈ l -> torn_down teardowns (cd_workspace_id c) = true ->
  (forall t, t ∈ targets -> t ∈ candidate_paths c) ->
  (failure = None -> unmounted_before (cd_workspace_id c) world) ->
  delete_all world c failure targets = (world', d) -> rtc (gc_step l) world world'.
Proof.
  intros Hc Hdown. revert world d. induction targets as [|t targets IH]; intros world d Hin Hun;
    cbn [delete_targets]; [by intros [= <- _]|].
  destruct (delete_one world c failure t) as [world1 d1] eqn:E1.
  destruct (delete_all world1 c failure targets) as [world2 d2] eqn:E2. intros [= <- _].
  assert (H1 : rtc (gc_step l) world world1 /\ (world1 = world \/ removal world world1)).
  { unfold delete_target in E1.
    destruct (_auth_overlay_unmount_skips_target failure t) as [[rc m]|] eqn:Es.
    { injection E1 as <- _. split; [done|by left]. }
    unfold _delete_gc_path_outcome in E1.
    destruct (delete_path world t) as [w [[del err] rc]] eqn:Ed. injection E1 as <- _.
    apply delete_path_steps in Ed as [->|[Hok ->]]; [split; [done|by left]|].
    split; [|right; constructor]. apply rtc_once, (step_delete l c t); try done; [apply Hin; by left|].
    intros Hauth. apply Hun. unfold _auth_overlay_unmount_skips_target in Es. rewrite Hauth in Es.
    by destruct failure. }
  destruct H1 as [H1 H2]. etrans; [exact H1|]. eapply (IH world1 d2); [| |exact E2].
  - intros x Hx. apply Hin. by right.
  - intros Hf. destruct (Hun Hf) as (w0 & w1 & Hu & Hr). exists w0, w1. split; [done|].
    destruct H2 as [->|H2]; [done|]. by eapply rtc_r.
Qed.

Lemma torn_down_steps (l : list WorkspaceGCCandidate) (c : WorkspaceGCCandidate) (world world' : W)
    (r : result OsError Deletions) :
  c ∈ l -> torn_down teardowns (cd_workspace_id c) = true ->
  after_teardown world remover c = (world', r) -> rtc (gc_step l) world world'.
Proof.
  intros Hc Hdown. unfold delete_torn_down.
  pose proof (step_unmount l c world Hc Hdown) as H1.
  destruct (unmount world (cd_workspace_id c)) as [world1 u] eqn:Eu. cbn [fst] in H1.
  assert (Hun : unmount_failure u = None -> unmounted_before (cd_workspace_id c) world1).
  { intros Hu. exists world, world1. split; [|done]. rewrite Eu. by destruct u. }
  assert (Hgo : forall world2 targets world3 d, rtc (gc_step l) world1 world2 ->
    (unmount_failure u = None -> unmounted_before (cd_workspace_id c) world2) ->
    (forall t, t ∈ targets -> t ∈ candidate_paths c) ->
    delete_all world2 c (unmount_failure u) targets = (world3, d) -> rtc (gc_step l) world world3).
  { intros world2 targets world3 d H2 Hu2 Hin Hd. eapply rtc_l; [exact H1|].
    etrans; [exact H2|]. by eapply delete_all_steps. }
  destruct remover as [remove|] eqn:Er.
  - pose proof (step_remove_worktrees l c remove world1 Hc Hdown Er) as H2.
    pose proof (removal_worktree remove world1 c Er) as Hrem.
    destruct (remove world1 c) as [world2 removed] eqn:Erm. cbn [fst] in H2, Hrem.
    assert (Hun2 : unmount_failure u = None -> unmounted_before (cd_workspace_id c) world2).
    { intros Hu. destruct (Hun Hu) as (w0 & w1 & ? & ?). exists w0, w1. split; [done|].
      by eapply rtc_r. }
    destruct removed as [x|e]; cycle 1.
    { intros [= <- _]. eapply rtc_l; [exact H1|]. by apply rtc_once. }
    destruct (wr_ok x).
    + destruct (delete_all world2 c (unmount_failure u) _) as [world3 d] eqn:Ed. intros [= <- _].
      by eapply Hgo; [apply rtc_once, H2| | |exact Ed].
    + destruct (delete_all world2 c (unmount_failure u) _) as [world3 d] eqn:Ed. intros [= <- _].
      eapply Hgo; [apply rtc_once, H2|done| |exact Ed]. by intros t [_ Ht]%elem_of_bfilter.
  - destruct (delete_all world1 c (unmount_failure u) _) as [world3 d] eqn:Ed. intros [= <- _].
    by eapply Hgo; [done|exact Hun| |exact Ed].
Qed.

Lemma step_weaken (l l' : list WorkspaceGCCandidate) (world world' : W) :
  l ⊆ l' -> rtc (gc_step l) world world' -> rtc (gc_step l') world world'.
Proof.
  intros Hl H. induction H as [|x y z [] _ IH]; [done|..]; (eapply rtc_l; [|exact IH]).
  - apply step_unmount; auto.
  - apply (step_remove_worktrees l' c); auto.
  - apply (step_delete l' c); auto.
Qed.

Lemma plan_steps (l : list WorkspaceGCCandidate) (world world' : W) (r : result OsError Deletions) :
  for_plan world remover teardowns l = (world', r) -> rtc (gc_step l) world world'.
Proof.
  revert world world' r. induction l as [|c l IH]; intros world world' r; cbn [_delete_gc_plan_paths];
    [by intros [= <- _]|].
  destruct (for_candidate world remover c _) as [world1 r1] eqn:E1.
  assert (H1 : rtc (gc_step (c :: l)) world world1).
  { unfold delete_candidate in E1.
    destruct (teardowns !! cd_workspace_id c) as [x|] eqn:Et; [destruct (ct_ok x) eqn:Eo; simpl in E1|].
    - eapply torn_down_steps; [by left| |exact E1]. unfold torn_down. by rewrite Et.
    - by injection E1 as <- _.
    - eapply torn_down_steps; [by left| |exact E1]. unfold torn_down. by rewrite Et. }
  destruct r1 as [d1|e]; [|by intros [= <- _]].
  destruct (for_plan world1 remover teardowns l) as [world2 r2] eqn:E2.
  assert (H2 : rtc (gc_step (c :: l)) world1 world2).
  { apply (step_weaken l); [by intros x; right|]. by apply (IH _ _ r2). }
  intros H. assert (world' = world2) as -> by (destruct r2; congruence).
  by etrans.
Qed.

(** ** Success means that everything is gone *)

Lemma gone_app (d e : Deletions) (c : WorkspaceGCCandidate) (t : WorkspaceGCPath) :
  target_gone (app_deletions d e) c t = target_gone d c t || target_gone e c t.
Proof. unfold target_gone. simpl. apply existsb_app. Qed.

Lemma no_errors_app (d e : Deletions) :
  delete_errors (app_deletions d e) = [] -> delete_errors d = [] /\ delete_errors e = [].
Proof. simpl. by intros [-> ->]%app_nil. Qed.

Lemma delete_one_gone (world world' : W) (c : WorkspaceGCCandidate) (t : WorkspaceGCPath)
    (d : Deletions) :
  delete_one world c None t = (world', d) -> delete_errors d = [] -> target_gone d c t = true.
Proof.
  unfold delete_target. cbn [_auth_overlay_unmount_skips_target mbind option_bind].
  unfold _delete_gc_path_outcome.
  destruct (delete_path world t) as [w [[del err] rc]]. intros [= <- <-].
  assert (Hid : forall o, po_workspace_id o = cd_workspace_id c -> po_kind o = gp_kind t ->
    po_path o = gp_path t -> mem (po_status o) ["deleted"; "already_removed"] = true ->
    target_gone (path_deletion t c o) c t = true).
  { intros o H1 H2 H3 H4. unfold target_gone. simpl. rewrite H4, H1, H2, H3, eqb_refl. done. }
  destruct del; [intros _; by apply Hid|]. destruct (_ && _); [intros _; by apply Hid|done].
Qed.

Lemma delete_all_gone (targets : list WorkspaceGCPath) (world world' : W) (c : WorkspaceGCCandidate)
    (d : Deletions) :
  delete_all world c None targets = (world', d) -> delete_errors d = [] ->
  forall t, t ∈ targets -> target_gone d c t = true.
Proof.
  revert world world' d. induction targets as [|x targets IH]; intros world world' d;
    cbn [delete_targets]; [by intros _ _ t ?%elem_of_nil|].
  destruct (delete_one world c None x) as [world1 d1] eqn:E1.
  destruct (delete_all world1 c None targets) as [world2 d2] eqn:E2. intros [= _ <-].
  intros [H1 H2]%no_errors_app t. rewrite gone_app, orb_true_iff. intros [->|Ht]%elem_of_cons.
  - left. by eapply delete_one_gone.
  - right. by eapply IH.
Qed.

Lemma remove_errors_nonempty (c : WorkspaceGCCandidate) (r : WorkspaceGCWorktreeRemoveResult) :
  _worktree_remove_delete_errors c r <> [].
Proof. unfold _worktree_remove_delete_errors. by destruct (omap _ (target_results r)). Qed.

Lemma candidate_gone (world world' : W) (c : WorkspaceGCCandidate)
    (teardown : option WorkspaceGCComposeTeardownResult) (d : Deletions) :
  for_candidate world remover c teardown = (world', Ok d) -> delete_errors d = [] ->
  (forall t, t ∈ candidate_paths c -> target_gone d c t = true) /\
  match teardown with Some r => ct_ok r = true | None => True end.
Proof.
  assert (Hgo : after_teardown world remover c = (world', Ok d) -> delete_errors d = [] ->
    forall t, t ∈ candidate_paths c -> target_gone d c t = true).
  { unfold delete_torn_down. destruct (unmount world (cd_workspace_id c)) as [world1 u].
    assert (Herr : forall e, delete_errors (app_deletions (unmount_errors c (unmount_failure u)) e) = [] ->
      unmount_failure u = None /\ delete_errors e = []).
    { intros e [H1 H2]%no_errors_app. by destruct u. }
    destruct remover as [remove|].
    - destruct (remove world1 c) as [world2 [x|]]; [|done]. destruct (wr_ok x).
      + destruct (delete_all world2 c (unmount_failure u) _) as [world3 e] eqn:Ed.
        intros [= _ <-]. intros [Hu [_ He]%no_errors_app]%Herr t Ht. rewrite Hu in Ed.
        rewrite !gone_app, (delete_all_gone _ _ _ _ _ Ed He t Ht). by rewrite !orb_true_r.
      + destruct (delete_all world2 c (unmount_failure u) _) as [world3 e].
        intros [= _ <-]. intros [_ [_ [He _]%no_errors_app]%no_errors_app]%Herr.
        by apply remove_errors_nonempty in He.
    - destruct (delete_all world1 c (unmount_failure u) _) as [world3 e] eqn:Ed.
      intros [= _ <-]. intros [Hu He]%Herr t Ht. rewrite Hu in Ed.
      rewrite gone_app, (delete_all_gone _ _ _ _ _ Ed He t Ht). apply orb_true_r. }
  unfold delete_candidate. destruct teardown as [r|]; [|by auto].
  destruct (ct_ok r); simpl; [by auto|]. by intros [= _ <-].
Qed.

Lemma plan_gone (l : list WorkspaceGCCandidate) (world world' : W) (d : Deletions) :
  for_plan world remover teardowns l = (world', Ok d) -> delete_errors d = [] ->
  forall c t, c ∈ l -> t ∈ candidate_paths c -> target_gone d c t = true.
Proof.
  revert world world' d. induction l as [|x l IH]; intros world world' d; cbn [_delete_gc_plan_paths];
    [by intros _ _ c t ?%elem_of_nil|].
  destruct (for_candidate world remover x _) as [world1 [d1|]] eqn:E1; [|done].
  destruct (for_plan world1 remover teardowns l) as [world2 [d2|]] eqn:E2; [|done].
  intros [= _ <-]. intros [H1 H2]%no_errors_app c t Hc Ht. rewrite gone_app, orb_true_iff.
  apply elem_of_cons in Hc as [->|Hc].
  - left. by apply (candidate_gone _ _ _ _ _ E1 H1).
  - right. by eapply IH.
Qed.
End Facts.

(** ** The mark *)

(** The row is as the plan found it, and nobody marked it meanwhile. *)
Definition as_planned (s : GcDb) (c : WorkspaceGCCandidate) (w : Workspace) : Prop :=
  l_status (w_life w) = cd_status c /\
  (exists x, gc_columns s !! cd_workspace_id c = Some x /\ gx_updated_at x = cd_updated_at c) /\
  l_filesystem_reclaimed_at (w_life w) = None.

Definition gone (d : Deletions) (c : WorkspaceGCCandidate) (t : WorkspaceGCPath) : Prop :=
  exists o, o ∈ path_outcomes d /\ po_workspace_id o = cd_workspace_id c /\
    po_kind o = gp_kind t /\ po_path o = gp_path t /\ po_status o ∈ ["deleted"; "already_removed"].

(** The candidate's directories are all gone, nothing of it failed, and its reservations
    are free. *)
Definition fully_reclaimed (d : Deletions) (releases : gmap string ReleaseSummary)
    (c : WorkspaceGCCandidate) : Prop :=
  (forall t, t ∈ candidate_paths c -> gone d c t) /\
  (forall e, e ∈ delete_errors d -> de_workspace_id e <> cd_workspace_id c) /\
  (forall r, releases !! cd_workspace_id c = Some r -> rl_error r = None).

Lemma target_gone_spec (d : Deletions) (c : WorkspaceGCCandidate) (t : WorkspaceGCPath) :
  target_gone d c t = true <-> gone d c t.
Proof.
  unfold target_gone, gone. rewrite existsb_exists. split.
  - intros (o & Ho & H). apply andb_true_iff in H as [H1 H2]. apply mem_true in H1.
    rewrite eqb_true in H2. injection H2 as ? ? ?. exists o. by rewrite list_elem_of_In.
  - intros (o & Ho & H1 & H2 & H3 & H4). exists o. rewrite <- list_elem_of_In. split; [done|].
    apply andb_true_iff. split; [by apply mem_true|]. by rewrite H1, H2, H3, eqb_refl.
Qed.

Lemma reclaimed_spec (l : list WorkspaceGCCandidate) (d : Deletions)
    (releases : gmap string ReleaseSummary) (c : WorkspaceGCCandidate) :
  c ∈ reclaimed_candidates l d releases <-> c ∈ l /\ fully_reclaimed d releases c.
Proof.
  unfold reclaimed_candidates, fully_reclaimed.
  rewrite elem_of_bfilter, andb_true_iff, negb_true_iff, mem_false, forallb_forall.
  unfold failed_ids. rewrite not_elem_of_app.
  assert (H1 : (forall x, List.In x (candidate_paths c) -> target_gone d c x = true) <->
               forall t, t ∈ candidate_paths c -> gone d c t).
  { split; intros H t Ht; [apply target_gone_spec|apply target_gone_spec]; apply H;
      by apply list_elem_of_In. }
  assert (H2 : cd_workspace_id c ∉ map de_workspace_id (delete_errors d) <->
               forall e, e ∈ delete_errors d -> de_workspace_id e <> cd_workspace_id c).
  { rewrite list_elem_of_fmap. naive_solver. }
  assert (H3 : cd_workspace_id c ∉ map fst (List.filter (fun p => negb (eqb (rl_error p.2) None))
                 (map_to_list releases)) <->
               forall r, releases !! cd_workspace_id c = Some r -> rl_error r = None).
  { rewrite list_elem_of_fmap. split.
    - intros H r Hr. destruct (eqb (rl_error r) None) eqn:E; [by rewrite eqb_true in E|].
      destruct H. exists (cd_workspace_id c, r). split; [done|]. apply elem_of_bfilter.
      split; [by simpl; rewrite E|by apply elem_of_map_to_list].
    - intros H ([ws r] & Hws & Hin). simpl in Hws. subst ws. apply elem_of_bfilter in Hin as [He Hr].
      apply elem_of_map_to_list in Hr. simpl in He. rewrite (H r Hr) in He. done. }
  rewrite H1, H2, H3. tauto.
Qed.

Lemma mark_columns (now : Z) (s : GcDb) (c : WorkspaceGCCandidate) :
  gc_columns (mark_reclaimed now s c) = gc_columns s.
Proof.
  unfold mark_reclaimed. destruct (workspaces (gc_db s) !! cd_workspace_id c), (gc_columns s !! cd_workspace_id c); try done. by destruct (_ && _).
Qed.

Lemma mark_elsewhere (now : Z) (s : GcDb) (c : WorkspaceGCCandidate) (ws : string) :
  ws <> cd_workspace_id c ->
  workspaces (gc_db (mark_reclaimed now s c)) !! ws = workspaces (gc_db s) !! ws.
Proof.
  intros Hne. unfold mark_reclaimed.
  destruct (workspaces (gc_db s) !! cd_workspace_id c), (gc_columns s !! cd_workspace_id c); try done.
  destruct (_ && _); [|done]. simpl. by rewrite lookup_insert_ne.
Qed.

Lemma mark_same (now : Z) (s : GcDb) (c : WorkspaceGCCandidate) (w : Workspace) :
  workspaces (gc_db s) !! cd_workspace_id c = Some w ->
  (as_planned s c w ->
   workspaces (gc_db (mark_reclaimed now s c)) !! cd_workspace_id c = Some (set_reclaimed w now)) /\
  (~ as_planned s c w ->
   workspaces (gc_db (mark_reclaimed now s c)) !! cd_workspace_id c = Some w).
Proof.
  intros Hw. unfold mark_reclaimed, as_planned. rewrite Hw.
  destruct (gc_columns s !! cd_workspace_id c) as [x|]; cycle 1.
  { split; [by intros (_ & (? & ? & _) & _)|done]. }
  destruct (eqb (l_status (w_life w)) (cd_status c)) eqn:E1;
    [rewrite eqb_true in E1|apply eqb_false in E1; split; [by intros [? _]|done]].
  destruct (gx_updated_at x =? cd_updated_at c) eqn:E2;
    [apply Z.eqb_eq in E2|apply Z.eqb_neq in E2; split; [|done];
     intros (_ & (x' & [= <-] & ?) & _); done].
  destruct (eqb (l_filesystem_reclaimed_at (w_life w)) None) eqn:E3; simpl;
    [rewrite eqb_true in E3|apply eqb_false in E3; split; [by intros (_ & _ & ?)|done]].
  rewrite lookup_insert_eq. split; [done|]. intros []. split_and!; [done| |done]. eauto.
Qed.

Lemma marks_spec (now : Z) (l : list WorkspaceGCCandidate) (s : GcDb) (ws : string) (w : Workspace) :
  NoDup (map cd_workspace_id l) -> workspaces (gc_db s) !! ws = Some w ->
  let marked := exists c, c ∈ l /\ cd_workspace_id c = ws /\ as_planned s c w in
  (marked -> workspaces (gc_db (foldl (mark_reclaimed now) s l)) !! ws = Some (set_reclaimed w now)) /\
  (~ marked -> workspaces (gc_db (foldl (mark_reclaimed now) s l)) !! ws = Some w).
Proof.
  cbn zeta. intros Hn. revert s w. induction l as [|c l IH]; intros s w Hw; simpl.
  - split; [by intros (c & ?%elem_of_nil & _)|done].
  - apply NoDup_cons in Hn as [Hc Hn]. specialize (IH Hn (mark_reclaimed now s c)).
    assert (Hpl : forall x v, as_planned (mark_reclaimed now s c) x v <-> as_planned s x v).
    { intros x v. unfold as_planned. by rewrite mark_columns. }
    destruct (base.decide (ws = cd_workspace_id c)) as [->|Hne].
    + assert (Hnone : forall x v, x ∈ l -> cd_workspace_id x = cd_workspace_id c -> as_planned s x v -> False).
      { intros x v Hx Hid _. apply Hc. apply list_elem_of_fmap. by exists x. }
      assert (Hkeep : forall v, workspaces (gc_db (mark_reclaimed now s c)) !! cd_workspace_id c = Some v ->
        workspaces (gc_db (foldl (mark_reclaimed now) (mark_reclaimed now s c) l)) !! cd_workspace_id c
        = Some v).
      { intros v Hv. apply (IH v Hv). intros (x & Hx & Hid & Hp). apply Hpl in Hp. by eapply Hnone. }
      destruct (mark_same now s c w Hw) as [H1 H2]. split.
      * intros (x & [->|Hx]%elem_of_cons & Hid & Hp); [by apply Hkeep, H1|by destruct (Hnone x w)].
      * intros Hno. apply Hkeep, H2. intros Hp. apply Hno. exists c. split_and!; [by left|done|done].
    + rewrite <- (mark_elsewhere now s c ws Hne) in Hw. destruct (IH w Hw) as [H1 H2]. split.
      * intros (x & [->|Hx]%elem_of_cons & Hid & Hp); [by destruct Hne|]. apply H1. exists x.
        by rewrite Hpl.
      * intros Hno. apply H2. intros (x & Hx & Hid & Hp). apply Hno. exists x.
        rewrite Hpl in Hp. split_and!; [by right|done|done].
Qed.

(** The reclaimed mark, which takes a workspace out of the collector's backlog, is set on a
    row exactly when the run removed or found absent every directory of the workspace, nothing of
    it failed, its reservations were released, and the row still has the status and the
    time of the plan and no earlier mark. Every other row stays as it was: a workspace
    that came back to life during the run is not marked. *)
Theorem gc_marks_exact (s : GcDb) (l : list WorkspaceGCCandidate) (d : Deletions)
    (releases : gmap string ReleaseSummary) (now : Z) (ws : string) (w : Workspace) :
  NoDup (map cd_workspace_id l) -> workspaces (gc_db s) !! ws = Some w ->
  let marked := exists c, c ∈ l /\ cd_workspace_id c = ws /\ fully_reclaimed d releases c /\
                          as_planned s c w in
  let after := workspaces (gc_db (_record_filesystem_reclaimed s l d releases now)) !! ws in
  (marked -> after = Some (set_reclaimed w now)) /\ (~ marked -> after = Some w).
Proof.
  cbn zeta. intros Hn Hw. unfold _record_filesystem_reclaimed.
  destruct (marks_spec now (reclaimed_candidates l d releases) s ws w) as [H1 H2]; [|done|].
  { eapply sublist_NoDup; [exact Hn|]. apply sublist_map, bfilter_sublist. }
  split.
  - intros (c & Hc & Hid & Hf & Hp). apply H1. exists c. by rewrite reclaimed_spec.
  - intros Hno. apply H2. intros (c & Hc & Hid & Hp). apply reclaimed_spec in Hc as [Hc Hf].
    apply Hno. by exists c.
Qed.

(** ** Leases and reservations *)

Definition leases_of (s : GcDb) (ws : string) (id : string) : option SecretLeases.Lease :=
  l ← SecretLeases.leases (gc_leases s) !! id;
  if eqb (SecretLeases.sl_workspace_id l) ws then Some l else None.

Definition reservations_of (s : GcDb) (ws : string) (id : string) : option Reservation :=
  r ← reservations (gc_db s) !! id; if eqb (r_workspace_id r) ws then Some r else None.

Lemma revoke_elsewhere (db : SecretLeases.LeaseDb) (ws ws' : string) (now : datetime) (reason : string)
    (id : string) :
  ws <> ws' ->
  (l ← SecretLeases.leases (SecretLeases.revoke_workspace_secret_leases db ws' now reason).1 !! id;
   if eqb (SecretLeases.sl_workspace_id l) ws then Some l else None)
  = (l ← SecretLeases.leases db !! id;
     if eqb (SecretLeases.sl_workspace_id l) ws then Some l else None).
Proof.
  intros Hne. unfold SecretLeases.revoke_workspace_secret_leases, SecretLeases.revoke_workspace_leases.
  cbn [fst SecretLeases.leases SecretLeases._add_lease_events].
  rewrite SecretLeasesFacts.update_rows by apply SecretLeasesFacts.sorted_rows_ids.
  case_bool_decide as Hin; [|done].
  apply (SecretLeasesFacts.sorted_rows_ids db SecretLeases.by_issue) in Hin as (l & Hl & Hw).
  apply andb_true_iff in Hw as [Hw _]. rewrite eqb_true in Hw. rewrite Hl. simpl.
  by rewrite Hw, (proj2 (eqb_false ws' ws)).
Qed.

Lemma revocations (ids : list string) (s s' : GcDb) (now : Z) (m m' : gmap string Z) :
  _revoke_gc_secret_leases s now m ids = (s', m') ->
  gc_db s' = gc_db s /\ gc_columns s' = gc_columns s /\
  (forall ws id, ws ∉ ids -> leases_of s' ws id = leases_of s ws id) /\
  (SecretLeasesFacts.lease_inv (gc_leases s) ->
   SecretLeasesFacts.lease_inv (gc_leases s') /\
   (forall ws, SecretLeasesFacts.none_active ws (gc_leases s) ->
      SecretLeasesFacts.none_active ws (gc_leases s')) /\
   forall ws, ws ∈ ids -> is_Some (workspaces (gc_db s) !! ws) ->
     SecretLeasesFacts.none_active ws (gc_leases s')).
Proof.
  revert s m. induction ids as [|x ids IH]; intros s m; cbn [_revoke_gc_secret_leases].
  - intros [= <- _]. split_and!; try done. intros Hi. split_and!; try done.
    by intros ws ?%elem_of_nil.
  - destruct (workspaces (gc_db s) !! x) as [w|] eqn:Ex.
    + destruct (SecretLeases.revoke_workspace_secret_leases _ _ _ _) as [db revoked] eqn:Er.
      intros (Hdb & Hcol & Hsame & Hinv)%IH. cbn [gc_db gc_columns gc_leases] in *.
      split_and!; [done|done| |].
      * intros ws id [Hne Hout]%not_elem_of_cons. rewrite Hsame by done. unfold leases_of. simpl.
        change db with (db, revoked).1. rewrite <- Er. by apply revoke_elsewhere.
      * intros Hi.
        assert (Hstep : SecretLeasesFacts.keeping_step (gc_leases s) db).
        { change db with (db, revoked).1. rewrite <- Er. constructor. }
        destruct Hinv as (Hi' & Hkeep & Hall); [by eapply SecretLeasesFacts.keeping_inv|].
        split_and!; [done| |].
        -- intros ws Hn. apply Hkeep.
           apply (SecretLeasesFacts.elsewhere_none_active ws (gc_leases s)); [done|by left|done].
        -- intros ws [->|Hin]%elem_of_cons Hws; [|by apply Hall]. apply Hkeep.
           change db with (db, revoked).1. rewrite <- Er. by apply SecretLeasesFacts.revoke_none_active.
    + intros (Hdb & Hcol & Hsame & Hinv)%IH. split_and!; [done|done| |].
      * intros ws id [Hne Hout]%not_elem_of_cons. by apply Hsame.
      * intros Hi. destruct (Hinv Hi) as (Hi' & Hkeep & Hall). split_and!; [done|done|].
        intros ws [->|Hin]%elem_of_cons Hws; [|by apply Hall]. rewrite Ex in Hws. by destruct Hws.
Qed.

(** No reservation of the workspace is active. *)
Definition none_held (s : GcDb) (ws : string) : Prop :=
  forall id r, reservations_of s ws id = Some r -> is_Some (r_released_at r).

Section Releases.
Context (release_error : string -> option string) (release_time : string -> Z).
Abbreviation release_all := (_release_gc_reservations release_error release_time).

Lemma released_lookup (s : GcDb) (x ws id : string) (t : Z) :
  reservations_of (set_gc_db s (release_active_for_workspace (gc_db s) x t)) ws id
  = (fun r => if eqb ws x && eqb (r_released_at r) None
              then {| r_workspace_id := r_workspace_id r; r_reserved_at := r_reserved_at r;
                      r_released_at := Some t |}
              else r) <$> reservations_of s ws id.
Proof.
  unfold reservations_of. simpl. rewrite lookup_fmap.
  destruct (reservations (gc_db s) !! id) as [r|]; [|done]. simpl.
  destruct (eqb (r_workspace_id r) x) eqn:E1; [rewrite eqb_true in E1|apply eqb_false in E1].
  - subst x. destruct (eqb (r_workspace_id r) ws) eqn:E2; [rewrite eqb_true in E2|apply eqb_false in E2].
    + subst ws. simpl. rewrite !eqb_refl. destruct (eqb (r_released_at r) None); simpl; by rewrite ?eqb_refl.
    + apply eqb_false in E2. simpl. destruct (eqb (r_released_at r) None); simpl; by rewrite ?E2.
  - simpl. destruct (eqb (r_workspace_id r) ws) eqn:E2; [|done]. rewrite eqb_true in E2. subst ws.
    simpl. by rewrite (proj2 (eqb_false (r_workspace_id r) x)).
Qed.

Lemma releases_spec (ids : list string) (s s' : GcDb) (m m' : gmap string ReleaseSummary) :
  release_all s m ids = (s', m') ->
  workspaces (gc_db s') = workspaces (gc_db s) /\ gc_columns s' = gc_columns s /\
  gc_leases s' = gc_leases s /\
  (forall ws id, ws ∉ ids -> reservations_of s' ws id = reservations_of s ws id) /\
  (forall ws, none_held s ws -> none_held s' ws) /\
  (forall ws, ws ∈ ids -> release_error ws = None -> none_held s' ws) /\
  (forall ws r, m' !! ws = Some r -> m !! ws = Some r \/ rl_error r = release_error ws).
Proof.
  revert s m. induction ids as [|x ids IH]; intros s m; cbn [_release_gc_reservations].
  - intros [= <- <-]. split_and!; try done; [intros ws ?%elem_of_nil; done|intros ws r Hr; by left].
  - destruct (release_one release_error release_time s x) as [s1 summary] eqn:E1.
    intros (Hw & Hc & Hl & Hsame & Hkeep & Hall & Hm)%IH.
    assert (Hsum : rl_error summary = release_error x).
    { unfold release_one in E1. by destruct (release_error x); injection E1 as _ <-. }
    assert (Hstep : s1 = s \/ s1 = set_gc_db s (release_active_for_workspace (gc_db s) x (release_time x))).
    { unfold release_one in E1. destruct (release_error x); injection E1 as <- _; [by left|by right]. }
    assert (Hkeep1 : forall ws, none_held s ws -> none_held s1 ws).
    { intros ws Hn. destruct Hstep as [->| ->]; [done|]. intros id r. rewrite released_lookup.
      intros (r0 & Hr0 & ->)%fmap_Some. apply Hn in Hr0. destruct (_ && _); [by eexists|done]. }
    split_and!.
    + destruct Hstep as [->| ->]; by rewrite Hw.
    + destruct Hstep as [->| ->]; by rewrite Hc.
    + destruct Hstep as [->| ->]; by rewrite Hl.
    + intros ws id [Hne Hout]%not_elem_of_cons. rewrite Hsame by done.
      destruct Hstep as [->| ->]; [done|]. rewrite released_lookup.
      rewrite (proj2 (eqb_false ws x)) by done. by destruct (reservations_of s ws id).
    + auto.
    + intros ws [->|Hin]%elem_of_cons Hok; [|by apply Hall]. apply Hkeep.
      unfold release_one in E1. rewrite Hok in E1. injection E1 as <- _. intros id r.
      rewrite released_lookup. intros (r0 & Hr0 & ->)%fmap_Some. rewrite eqb_refl.
      destruct (r_released_at r0) eqn:Er; simpl; [by rewrite Er|by eexists].
    + intros ws r Hr. destruct (Hm ws r Hr) as [H|H]; [|by right].
      destruct (base.decide (ws = x)) as [->|Hne].
      * rewrite lookup_insert_eq in H. injection H as <-. by right.
      * rewrite lookup_insert_ne in H by done. by left.
Qed.
End Releases.

Lemma side_effect_ids (l : list WorkspaceGCCandidate)
    (teardowns : gmap string WorkspaceGCComposeTeardownResult) (ws : string) :
  ws ∈ _workspace_ids_after_compose_teardown l teardowns <->
  (ws ∈ map cd_workspace_id l /\ torn_down teardowns ws = true) \/
  ((ws ∉ map cd_workspace_id l) /\ exists r, teardowns !! ws = Some r /\ ct_ok r = true).
Proof.
  unfold _workspace_ids_after_compose_teardown. rewrite elem_of_app, elem_of_bfilter.
  split.
  - intros [[H1 H2]|H]; [by left|right]. apply list_elem_of_fmap in H as ([x r] & Hx & Hin). simpl in Hx. subst x.
    apply elem_of_bfilter in Hin as [H Hin]. apply andb_true_iff in H as [H1 H2].
    apply negb_true_iff, mem_false in H1. apply elem_of_map_to_list in Hin. eauto.
  - intros [[H1 H2]|(H1 & r & Hr & Hok)]; [by left|right]. apply list_elem_of_fmap. exists (ws, r).
    split; [done|]. apply elem_of_bfilter. split; [|by apply elem_of_map_to_list]. apply andb_true_iff.
    split; [|done]. by apply negb_true_iff, mem_false.
Qed.

Lemma record_rest (s : GcDb) (l : list WorkspaceGCCandidate) (d : Deletions)
    (releases : gmap string ReleaseSummary) (now : Z) :
  let s' := _record_filesystem_reclaimed s l d releases now in
  reservations (gc_db s') = reservations (gc_db s) /\ gc_leases s' = gc_leases s /\
  gc_columns s' = gc_columns s.
Proof.
  cbn zeta. unfold _record_filesystem_reclaimed.
  induction (reclaimed_candidates l d releases) as [|c k IH] in s |- *; simpl; [done|].
  destruct (IH (mark_reclaimed now s c)) as (-> & -> & ->). clear IH. unfold mark_reclaimed.
  destruct (workspaces (gc_db s) !! cd_workspace_id c), (gc_columns s !! cd_workspace_id c); try done.
  by destruct (_ && _).
Qed.

(** ** A run as a whole *)

Section Execution.
Context {W : Type} (exists_path is_symlink is_dir : W -> path -> result OsError bool).
Context (resolve : W -> path -> result OsError path) (rmtree : W -> path -> W * option OsError).
Context (_estimate_bytes : W -> path -> result OsError Z) (expanduser : path -> path).
Context (inspect : W -> string -> option RuntimeSnapshot).
Context (unmount : W -> string -> W * Unmount) (work_dir : path).
Context (release_error : string -> option string) (release_time : string -> Z).
Context (default_remover : W -> option GcRow -> WorkspaceGCCandidate ->
           W * result OsError WorkspaceGCWorktreeRemoveResult).

Abbreviation execution others :=
  (execute_plan exists_path is_symlink is_dir resolve rmtree unmount work_dir release_error
     release_time others default_remover).

(** C13: whatever a run does to the file system after stopping the compose stacks is one of
    three things, and only for a selected workspace whose stack is down: unmounting its
    auth overlay, asking git to remove its worktrees, or deleting one of its planned
    paths, which at that moment is an existing directory, no link, and resolves to a
    place under the root of its kind. An auth directory is only deleted when its overlay was
    unmounted before, with nothing but removals in between. *)
Theorem gc_removals_permitted (others : GcPhase -> GcDb -> GcDb) (world world' : W) (s s' : GcDb)
    (l : list WorkspaceGCCandidate) (fallback : option WorkspaceGCCandidate)
    (teardown : option (ComposeTeardown (W := W))) (remover : option (Remover (W := W))) (now : Z)
    (r : result GcError Executed) :
  execution others world s l fallback teardown remover now = (world', s', r) ->
  exists world1 teardowns s2,
    _run_gc_compose_teardowns world teardown l fallback = (world1, teardowns) /\
    rtc (gc_step exists_path is_symlink is_dir resolve rmtree unmount work_dir
           (Some (_resolve_worktree_remover default_remover remover s2)) teardowns l) world1 world'.
Proof.
  unfold execute_plan.
  destruct (_run_gc_compose_teardowns world teardown l fallback) as [world1 teardowns].
  destruct (_revoke_gc_secret_leases _ _ _ _) as [s1 revocations].
  destruct (_delete_gc_plan_paths _ _ _ _ _ _ _ _ _ _ _) as [world2 [d|e]] eqn:Ed.
  - destruct (_release_gc_reservations _ _ _ _ _) as [s3 releases]. intros [= <- _ _].
    exists world1, teardowns, (others LeasesRevoked s1). split; [done|]. by eapply plan_steps.
  - intros [= <- _ _].
    exists world1, teardowns, (others LeasesRevoked s1). split; [done|]. by eapply plan_steps.
Qed.

(** Nobody else commits during the run. *)
Definition alone (p : GcPhase) (s : GcDb) : GcDb := s.

Lemma execution_inv (world world' : W) (s s' : GcDb) (l : list WorkspaceGCCandidate)
    (fallback : option WorkspaceGCCandidate) (teardown : option (ComposeTeardown (W := W)))
    (remover : option (Remover (W := W))) (now : Z) (x : Executed) :
  execution alone world s l fallback teardown remover now = (world', s', Ok x) ->
  exists world1 s1 s3,
    let ids := _workspace_ids_after_compose_teardown l (xd_teardowns x) in
    _run_gc_compose_teardowns world teardown l fallback = (world1, xd_teardowns x) /\
    _revoke_gc_secret_leases s now ∅ ids = (s1, xd_revocations x) /\
    _delete_gc_plan_paths exists_path is_symlink is_dir resolve rmtree unmount work_dir world1
      (Some (_resolve_worktree_remover default_remover remover s1)) (xd_teardowns x) l
    = (world', Ok (xd_deletions x)) /\
    _release_gc_reservations release_error release_time s1 ∅ ids = (s3, xd_releases x) /\
    s' = _record_filesystem_reclaimed s3 l (xd_deletions x) (xd_releases x) now.
Proof.
  unfold execute_plan, alone.
  destruct (_run_gc_compose_teardowns world teardown l fallback) as [world1 teardowns].
  destruct (_revoke_gc_secret_leases _ _ _ _) as [s1 revocations] eqn:Er.
  destruct (_delete_gc_plan_paths _ _ _ _ _ _ _ _ _ _ _) as [world2 [d|e]] eqn:Ed; [|done].
  destruct (_release_gc_reservations _ _ _ _ _) as [s3 releases] eqn:El. intros [= <- <- <-].
  by exists world1, s1, s3.
Qed.

(** The leases and the reservations of a workspace follow its containers. A selected
    workspace whose compose teardown failed keeps every lease and every reservation as it
    was, so that containers that still run do not lose their credentials or their share of
    the host; one whose stack is down has no lease left that is not revoked and, unless the database
    refused, no active reservation. *)
Theorem gc_follows_containers (world world' : W) (s s' : GcDb) (l : list WorkspaceGCCandidate)
    (fallback : option WorkspaceGCCandidate) (teardown : option (ComposeTeardown (W := W)))
    (remover : option (Remover (W := W))) (now : Z) (x : Executed) (ws : string) :
  execution alone world s l fallback teardown remover now = (world', s', Ok x) ->
  SecretLeasesFacts.lease_inv (gc_leases s) -> ws ∈ map cd_workspace_id l ->
  SecretLeasesFacts.lease_inv (gc_leases s') /\
  (torn_down (xd_teardowns x) ws = false ->
     forall id, leases_of s' ws id = leases_of s ws id /\
                reservations_of s' ws id = reservations_of s ws id) /\
  (torn_down (xd_teardowns x) ws = true ->
     (is_Some (workspaces (gc_db s) !! ws) -> SecretLeasesFacts.none_active ws (gc_leases s')) /\
     (release_error ws = None -> none_held s' ws)).
Proof.
  intros (world1 & s1 & s3 & _ & Hrev & _ & Hrel & ->)%execution_inv Hi Hin.
  destruct (revocations _ _ _ _ _ _ Hrev) as (Hdb1 & Hcol1 & Hleases & Hinv).
  destruct (Hinv Hi) as (Hi1 & _ & Hnone).
  destruct (releases_spec _ _ _ _ _ _ _ Hrel) as (_ & _ & Hl3 & Hres & _ & Hfree & _).
  destruct (record_rest s3 l (xd_deletions x) (xd_releases x) now) as (Hr4 & Hl4 & _).
  set (s' := _record_filesystem_reclaimed _ _ _ _ _) in *.
  assert (Hls : gc_leases s' = gc_leases s1) by (by rewrite Hl4, Hl3). rewrite Hls.
  assert (Hrs : forall id, reservations_of s' ws id = reservations_of s3 ws id)
    by (intros id; unfold reservations_of; by rewrite Hr4).
  split; [done|]. split.
  - intros Hdown id. assert (Hout : ws ∉ _workspace_ids_after_compose_teardown l (xd_teardowns x)).
    { rewrite side_effect_ids. intros [[_ H]|[H _]]; [congruence|done]. }
    split; [unfold leases_of; rewrite Hls; by apply Hleases|].
    rewrite Hrs, Hres by done. unfold reservations_of. by rewrite Hdb1.
  - intros Hdown. assert (Hids : ws ∈ _workspace_ids_after_compose_teardown l (xd_teardowns x))
      by (apply side_effect_ids; by left).
    split; [intros Hws; by apply Hnone|]. intros Hok id r. rewrite Hrs. by apply Hfree.
Qed.

Lemma no_errors_inv (d : Deletions) (teardowns : gmap string WorkspaceGCComposeTeardownResult)
    (releases : gmap string ReleaseSummary) (pruned reaped : option dict) :
  has_errors d teardowns releases pruned reaped = false ->
  delete_errors d = [] /\ forall ws r, releases !! ws = Some r -> rl_error r = None.
Proof.
  unfold has_errors. intros H. apply orb_false_iff in H as [H _]. apply orb_false_iff in H as [H _].
  apply orb_false_iff in H as [H Hr]. apply orb_false_iff in H as [Hd _].
  split; [by destruct (delete_errors d)|]. intros ws r Hw.
  destruct (eqb (rl_error r) None) eqn:E; [by rewrite eqb_true in E|]. exfalso.
  apply not_true_iff_false in Hr. apply Hr. apply existsb_exists. exists (ws, r).
  split; [by apply list_elem_of_In, elem_of_map_to_list|]. simpl. by rewrite E.
Qed.

(** A run that reports success has removed or found absent every planned path of every selected
    workspace and has marked each of them reclaimed, so that no later plan selects them; and a
    run reports success or says that it is partial. *)
Theorem gc_success_settles (world world' : W) (s s' : GcDb) (now min_age : Z) (limit : option Z)
    (include_statuses exclude_statuses : option (list string)) (cleanup_enabled : bool)
    (max_preserved_failed : Z) (teardown : option (ComposeTeardown (W := W)))
    (remover : option (Remover (W := W))) (prune : option (W -> unit -> W * dict))
    (reap : option (W -> list path -> W * dict)) (extra : list path) (r : WorkspaceGCResult) :
  run_terminal_workspace_gc exists_path is_symlink is_dir resolve rmtree _estimate_bytes expanduser
    inspect unmount work_dir release_error release_time alone default_remover world s now min_age
    limit include_statuses exclude_statuses true cleanup_enabled max_preserved_failed teardown remover
    prune reap extra = (world', s', Ok r) ->
  (gr_status r = "succeeded" \/ gr_status r = "partial") /\
  (gr_status r = "succeeded" ->
   forall c, c ∈ pl_candidates (gr_plan r) ->
     (forall t, t ∈ candidate_paths c -> gone (gr_deletions r) c t) /\
     exists w, workspaces (gc_db s') !! cd_workspace_id c = Some w /\
               l_filesystem_reclaimed_at (w_life w) = Some now).
Proof.
  unfold run_terminal_workspace_gc.
  destruct (plan_terminal_workspace_gc _ _ _ _ _ _ _ _ _ _ _ _ _ _) as [plan|] eqn:Ep; [|done].
  cbn [negb]. destruct (execute_plan _ _ _ _ _ _ _ _ _ _ _ _ _ _ _ _ _ _) as [[world1 s1] [x|]] eqn:Ex;
    [|done].
  destruct (run_optional world1 prune tt) as [world2 pruned].
  destruct (run_optional world2 reap []) as [world3 reaped]. intros [= <- <- <-].
  cbn [_gc_result gr_status gr_plan gr_deletions].
  destruct (has_errors _ _ _ _ _) eqn:He; [split; [by right|done]|].
  split; [by left|]. intros _ c Hc. apply no_errors_inv in He as [Herr Hrelerr].
  unfold alone at 1 in Ex.
  apply execution_inv in Ex as (world1' & s1' & s3 & _ & Hrev & Hdel & Hrel & ->).
  assert (Hgone : forall t, t ∈ candidate_paths c -> gone (xd_deletions x) c t).
  { intros t Ht. apply target_gone_spec. by eapply plan_gone. }
  split; [exact Hgone|].
  apply GcPlanFacts.plan_candidates in Ep as (Hrows & Hn & _).
  destruct (Hrows c Hc) as (row & ([Hw Hx]%GcPlanFacts.elem_of_gc_rows & _) & Hcl).
  apply GcPlanFacts.classified_candidate in Hcl as (_ & Hrec & _ & reason & Hfor & _).
  apply GcPlanFacts.candidate_of_row in Hfor as (Hid & Hst & Hup & _).
  destruct (revocations _ _ _ _ _ _ Hrev) as (Hdb1 & Hcol1 & _).
  destruct (releases_spec _ _ _ _ _ _ _ Hrel) as (Hw3 & Hc3 & _).
  assert (Hw' : workspaces (gc_db s3) !! cd_workspace_id c = Some (gr_workspace row))
    by (rewrite Hw3, Hdb1, Hid; exact Hw).
  exists (set_reclaimed (gr_workspace row) now). split; [|done].
  unfold _record_filesystem_reclaimed.
  apply (marks_spec now (reclaimed_candidates (pl_candidates plan) (xd_deletions x) (xd_releases x)) s3
           (cd_workspace_id c) (gr_workspace row)); [|exact Hw'|].
  - eapply sublist_NoDup; [exact Hn|]. apply sublist_map, bfilter_sublist.
  - exists c. split; [|split; [done|]].
    + apply reclaimed_spec. split; [done|]. split; [exact Hgone|]. split.
      * rewrite Herr. by intros e ?%elem_of_nil.
      * intros sm. apply Hrelerr.
    + split; [by rewrite Hst|]. split.
      * exists (gr_columns row). rewrite Hc3, Hcol1, Hid. by split.
      * unfold reclaimed in Hrec. apply negb_false_iff in Hrec. by rewrite eqb_true in Hrec.
Qed.
End Execution.

(** ** A sample host *)

(** The world is the set of directories; nothing is a link. *)
Abbreviation Dirs := (list path).

Definition dirs_exist (w : Dirs) (p : path) : result OsError bool := Ok (mem p w).
Definition dirs_link (w : Dirs) (p : path) : result OsError bool := Ok false.
Definition dirs_resolve (w : Dirs) (p : path) : result OsError path := Ok p.
Definition dirs_rmtree (w : Dirs) (p : path) : Dirs * option OsError :=
  (List.filter (fun q => negb (is_relative_to q p)) w, None).
Definition dirs_bytes (w : Dirs) (p : path) : result OsError Z := Ok 7.
Definition dirs_unmount (w : Dirs) (ws : string) : Dirs * Unmount := (w, Unmounted).
Definition dirs_remover (w : Dirs) (row : option GcRow) (c : WorkspaceGCCandidate)
  : Dirs * result OsError WorkspaceGCWorktreeRemoveResult :=
  (w, Ok {| wr_status := "skipped"; wr_reason_code := "NO_REPO_URL"; wr_error := None;
            target_results := [] |}).
Definition no_release_error (ws : string) : option string := None.
Definition sample_release_time (ws : string) : Z := 101.
Definition no_snapshot (w : Dirs) (project : string) : option RuntimeSnapshot := None.

(** The stack of "wf" does not stop. *)
Definition sample_teardown : ComposeTeardown (W := Dirs) := fun w c =>
  (w, if eqb (cd_workspace_id c) "wf"
      then Err {| ex_type := "TimeoutError"; ex_text := ""; ex_cached := None |}
      else Ok (Some {| ct_status := "succeeded"; ct_reason_code := "COMPOSE_DOWN"; ct_error := None |})).

Definition sample_dirs : Dirs :=
  map (fun s => Path s)
    ["/awf/git/worktrees/wm"; "/awf/compose/wm"; "/awf/auth/wm"; "/awf/auth/wm/claude";
     "/awf/git/worktrees/wf"; "/awf/auth/wf"].

Definition sample_root : path := Path "/awf".

Definition sample_run (teardown : option (ComposeTeardown (W := Dirs)))
  : Dirs * GcDb * result GcError WorkspaceGCResult :=
  run_terminal_workspace_gc dirs_exist dirs_link dirs_exist dirs_resolve dirs_rmtree dirs_bytes id
    no_snapshot dirs_unmount sample_root no_release_error sample_release_time alone dirs_remover
    sample_dirs GcPlanFacts.sample_gc_db 100 10 None None None true true 50 teardown None None None [].

Definition sample_candidates : list WorkspaceGCCandidate :=
  match plan_terminal_workspace_gc dirs_exist dirs_bytes no_snapshot id sample_dirs sample_root 100
          GcPlanFacts.sample_gc_db 10 None None None true 50 with
  | Ok plan => pl_candidates plan
  | Err _ => []
  end.

Definition sample_execution : Dirs * GcDb * result GcError Executed :=
  execute_plan dirs_exist dirs_link dirs_exist dirs_resolve dirs_rmtree dirs_unmount sample_root
    no_release_error sample_release_time alone dirs_remover sample_dirs GcPlanFacts.sample_gc_db
    sample_candidates None (Some sample_teardown) None 100.

(** Only the directories of "wm" go. *)
Lemma gc_removals_permitted_witness :
  sample_execution.1.1 = map (fun s => Path s) ["/awf/git/worktrees/wf"; "/awf/auth/wf"] /\
  exists world1 teardowns s2,
    _run_gc_compose_teardowns sample_dirs (Some sample_teardown) sample_candidates None
    = (world1, teardowns) /\
    rtc (gc_step dirs_exist dirs_link dirs_exist dirs_resolve dirs_rmtree dirs_unmount sample_root
           (Some (_resolve_worktree_remover dirs_remover None s2)) teardowns sample_candidates)
      world1 sample_execution.1.1.
Proof.
  split; [vm_compute; reflexivity|].
  apply (gc_removals_permitted dirs_exist dirs_link dirs_exist dirs_resolve dirs_rmtree dirs_unmount
           sample_root no_release_error sample_release_time dirs_remover alone sample_dirs
           sample_execution.1.1 GcPlanFacts.sample_gc_db sample_execution.1.2 sample_candidates None
           (Some sample_teardown) None 100 sample_execution.2).
  unfold sample_execution. by destruct (execute_plan _ _ _ _ _ _ _ _ _ _ _ _ _ _ _ _ _ _) as [[? ?] ?].
Defined.

Lemma gc_marks_exact_witness :
  let s := GcPlanFacts.sample_gc_db in
  let run := sample_run None in
  match run.2 with
  | Ok r =>
      workspaces (gc_db (_record_filesystem_reclaimed s (pl_candidates (gr_plan r)) (gr_deletions r) ∅ 100))
        !! "wn" = Some (sample_workspace failed None None)
  | Err _ => False
  end.
Proof.
  cbn zeta. destruct (sample_run None).2 as [r|e] eqn:Er; [|by vm_compute in Er].
  assert (Hn : map cd_workspace_id (pl_candidates (gr_plan r)) = ["wm"; "wf"]).
  { assert (H : (map cd_workspace_id ∘ pl_candidates ∘ gr_plan) <$>
      match (sample_run None).2 with Ok r => Some r | Err _ => None end = Some ["wm"; "wf"])
      by (vm_compute; reflexivity).
    rewrite Er in H. by injection H. }
  apply (gc_marks_exact GcPlanFacts.sample_gc_db (pl_candidates (gr_plan r)) (gr_deletions r) ∅ 100 "wn"
           (sample_workspace failed None None)).
  - rewrite Hn. apply (bool_decide_unpack _). vm_compute. exact I.
  - reflexivity.
  - intros (c & Hc & Hid & _). assert (Hin : "wn" ∈ ["wm"; "wf"]).
    { rewrite <- Hn, <- Hid. apply list_elem_of_fmap. exists c. split; [reflexivity|exact Hc]. }
    apply mem_true in Hin. by vm_compute in Hin.
Defined.

Definition no_execution : Executed :=
  {| xd_deletions := no_deletions; xd_teardowns := ∅; xd_revocations := ∅; xd_releases := ∅ |}.
Definition executed (r : result GcError Executed) : Executed :=
  match r with Ok x => x | Err _ => no_execution end.

Lemma gc_follows_containers_witness :
  torn_down (xd_teardowns (executed sample_execution.2)) "wf" = false /\
  torn_down (xd_teardowns (executed sample_execution.2)) "wm" = true /\
  reservations_of GcPlanFacts.sample_gc_db "wm" "r"
  = Some {| r_workspace_id := "wm"; r_reserved_at := 1; r_released_at := None |} /\
  none_held sample_execution.1.2 "wm".
Proof.
  split; [vm_compute; reflexivity|]. split; [vm_compute; reflexivity|]. split; [reflexivity|].
  assert (Hdown : torn_down (xd_teardowns (executed sample_execution.2)) "wm" = true)
    by (vm_compute; reflexivity).
  apply (gc_follows_containers dirs_exist dirs_link dirs_exist dirs_resolve dirs_rmtree dirs_unmount
           sample_root no_release_error sample_release_time dirs_remover sample_dirs
           sample_execution.1.1 GcPlanFacts.sample_gc_db sample_execution.1.2 sample_candidates None
           (Some sample_teardown) None 100 (executed sample_execution.2) "wm").
  - vm_compute. reflexivity.
  - apply (SecretLeasesFacts.no_leases_inv ∅).
  - apply mem_true. vm_compute. reflexivity.
  - exact Hdown.
  - reflexivity.
Defined.

Definition sample_result (r : result GcError WorkspaceGCResult) : WorkspaceGCResult :=
  match r with
  | Ok x => x
  | Err _ => dry_run_result (GcPlanFacts.plan_of (Err IgnoreRetentionError)) None
  end.

Lemma gc_success_settles_witness :
  map cd_workspace_id (pl_candidates (gr_plan (sample_result (sample_run None).2))) = ["wm"; "wf"] /\
  gr_status (sample_result (sample_run None).2) = "succeeded" /\
  forall c, c ∈ pl_candidates (gr_plan (sample_result (sample_run None).2)) ->
    exists w, workspaces (gc_db (sample_run None).1.2) !! cd_workspace_id c = Some w /\
              l_filesystem_reclaimed_at (w_life w) = Some 100.
Proof.
  assert (Hs : gr_status (sample_result (sample_run None).2) = "succeeded") by (vm_compute; reflexivity).
  split; [vm_compute; reflexivity|]. split; [exact Hs|]. intros c Hc.
  assert (Hr : (sample_run None).2 = Ok (sample_result (sample_run None).2))
    by (vm_compute; reflexivity).
  apply (gc_success_settles dirs_exist dirs_link dirs_exist dirs_resolve dirs_rmtree dirs_bytes id
           no_snapshot dirs_unmount sample_root no_release_error sample_release_time dirs_remover
           sample_dirs (sample_run None).1.1 GcPlanFacts.sample_gc_db (sample_run None).1.2 100 10 None
           None None true 50 None None None None [] (sample_result (sample_run None).2));
    [|exact Hs|exact Hc].
  change (sample_run None = ((sample_run None).1.1, (sample_run None).1.2,
                              Ok (sample_result (sample_run None).2))).
  rewrite <- Hr. by destruct (sample_run None) as [[? ?] ?].
Defined.
