(* ===== verification/Readiness.v ===== *)
(** * Merge candidates and their readiness

    [runtime/merge_eligibility.py], the stale-reason properties of [db/models.py]
    and [sync_candidate_readiness] of [db/repositories/quality_repo.py]: which
    validation a task class demands, when a candidate is stale, and the flags the
    merge queue and the monitor read.  [Store] has the same candidates without
    these flags, for the lifecycle.

    A relationship that is not loaded in the session is [None]; the code that
    inspects it then reads the empty list. *)

From S2P Require Import Prelude PyStr Json PyFloat PyVal Status Store.
#[local] Open Scope Z_scope.
#[local] Set Warnings "-register-all".

(** ** Rows *)

Record Operation : Type := {
  op_type : string;
  op_status : string;
  op_created_at : Z;
  op_payload : pyval
}.

Record ValidationRun : Type := {
  vr_attempt_id : string;
  vr_status : string;
  vr_tier : Z;
  vr_started_at : Z;
  vr_workspace_head_sha : option string;
  vr_target_head_sha : option string
}.

(** The columns of a workspace that merge eligibility reads.
    [mw_profile_tier] is [resolved_profile["validation"]["requested_tier"]], an
    integer by the schema of [profiles/models.py], when present. *)
Record MergeWorkspace : Type := {
  mw_id : string;
  mw_title : string;
  mw_status : string;
  mw_auto_merge : bool;
  mw_task_class : option string;
  mw_owned_paths : list string;
  mw_resolved_profile : json;
  mw_profile_tier : option Z;
  mw_operations : option (list Operation);
  mw_validation_runs : option (list ValidationRun)
}.

Record MergeAttempt : Type := {
  ma_is_canonical_for_merge : bool;
  ma_owned_paths : list string;
  ma_task_class : option string
}.

Record MergeCandidate : Type := {
  mc_id : string;
  mc_task_id : string;
  mc_attempt_id : string;
  mc_workspace_id : string;
  mc_pr_url : string;
  mc_pr_number : option Z;
  mc_repo_url : string;
  mc_base_branch : string;
  mc_head_sha : option string;
  mc_base_sha : option string;
  mc_status : string;
  mc_close_reason : option string;
  mc_created_at : Z;
  mc_closed_at : option Z;
  mc_merged_at : option Z;
  mc_ready : bool;
  mc_manual_merge_required : bool;
  mc_waiting_for_monitor : bool;
  mc_failed_or_cancelled : bool;
  mc_completed : bool;
  mc_not_canonical : bool;
  mc_policy_blocked : bool;
  mc_stale : bool;
  mc_stale_reason : option string
}.

Definition loaded {A : Type} (relationship : option (list A)) : list A := default [] relationship.

(** ** Stale reasons *)

Definition DOCS_TASK_SCOPE_VIOLATION_STALE_REASON : string := "docs_task_scope_violation".
Definition VALIDATION_INSUFFICIENT_TIER_STALE_REASON : string := "validation_insufficient_tier".
Definition VALIDATION_MISSING_FOR_CURRENT_HEAD_STALE_REASON : string :=
  "validation_missing_for_current_head".
Definition ADVISORY_PLAN_ARTIFACT_OVERLAP_REASON : string := "ADVISORY_PLAN_ARTIFACT_OVERLAP".
Definition ADVISORY_STALE_REASON_CODES : list string := [ADVISORY_PLAN_ARTIFACT_OVERLAP_REASON].

Definition stale_reason_blocks_merge (reason_code : option string) : bool :=
  match reason_code with
  | None => false
  | Some code => negb (mem code ADVISORY_STALE_REASON_CODES)
  end.

Definition stale_reason_severity (reason_code : option string) : string :=
  if stale_reason_blocks_merge reason_code then "blocking" else "advisory".

Definition stale_reason_required_action (reason_code : option string) : option string :=
  if negb (stale_reason_blocks_merge reason_code) then None
  else if mem reason_code [Some VALIDATION_INSUFFICIENT_TIER_STALE_REASON;
                           Some VALIDATION_MISSING_FOR_CURRENT_HEAD_STALE_REASON]
       then Some "validate"
  else if eqb reason_code (Some DOCS_TASK_SCOPE_VIOLATION_STALE_REASON)
       then Some "resolve_task_scope"
  else Some "rebase".

(** ** Validation tiers *)

Definition task_class_tier (task_class : option string) : Z :=
  if eqb task_class (Some (task_class_value migration_task)) then 3
  else if mem task_class [Some (task_class_value refactor_task);
                          Some (task_class_value dependency_task);
                          Some (task_class_value build_config_task)] then 2
  else 1.

(** The latest [created_at] of a successful rebase. *)
Definition later_rebase (rebase_time : option Z) (op : Operation) : option Z :=
  if eqb (op_type op) "rebase" && eqb (op_status op) "succeeded"
     && match rebase_time with None => true | Some t => t <? op_created_at op end
  then Some (op_created_at op) else rebase_time.

Definition latest_rebase (operations : list Operation) : option Z :=
  fold_left later_rebase operations None.

Definition required_tier (task_class : option string) (rebase_time : option Z) : Z :=
  match rebase_time with
  | Some _ => Z.max (task_class_tier task_class) 2
  | None => task_class_tier task_class
  end.

Definition successful_validation_run_tier (run : ValidationRun) : option Z :=
  if negb (eqb (vr_status run) "succeeded") then None else Some (vr_tier run).

(** The tier a validate operation asked for. *)
Definition requested_op_tier (default_op_tier : Z) (payload : pyval) : Z :=
  match payload with
  | VDict d =>
      match as_int (get d "requested_tier") with
      | Some n => n
      | None =>
          match get d "validation" with
          | VDict validation => default default_op_tier (as_int (get validation "requested_tier"))
          | _ => default_op_tier
          end
      end
  | _ => default_op_tier
  end.

Definition after_rebase (rebase_time : option Z) (t : Z) : bool :=
  match rebase_time with Some r => r <? t | None => false end.

Definition operation_tier (default_op_tier : Z) (rebase_time : option Z) (actual : Z)
    (op : Operation) : Z :=
  if eqb (op_type op) "validate" && eqb (op_status op) "succeeded" then
    let op_tier := requested_op_tier default_op_tier (op_payload op) in
    Z.max actual (if after_rebase rebase_time (op_created_at op) then Z.max op_tier 2 else op_tier)
  else actual.

(** A run counts when it succeeded and no rebase followed its start. *)
Definition run_counts (rebase_time : option Z) (run : ValidationRun) : option Z :=
  if match rebase_time with Some r => vr_started_at run <=? r | None => false end then None
  else successful_validation_run_tier run.

Definition run_tier (rebase_time : option Z) (actual : Z) (run : ValidationRun) : Z :=
  match run_counts rebase_time run with Some t => Z.max actual t | None => actual end.

Definition stale_below (actual required : Z) : option string * option string :=
  if actual <? required
  then (Some VALIDATION_INSUFFICIENT_TIER_STALE_REASON, Some "validate") else (None, None).

Definition compute_stale_reason (w : MergeWorkspace) : option string * option string :=
  let operations := loaded (mw_operations w) in
  let rebase_time := latest_rebase operations in
  let default_op_tier := default 1 (mw_profile_tier w) in
  let by_operations := fold_left (operation_tier default_op_tier rebase_time) operations 1 in
  let actual := fold_left (run_tier rebase_time) (loaded (mw_validation_runs w)) by_operations in
  stale_below actual (required_tier (mw_task_class w) rebase_time).

Definition compute_stale_reason_for_attempt (w : MergeWorkspace) (attempt_id : string)
  : option string * option string :=
  let rebase_time := latest_rebase (loaded (mw_operations w)) in
  let runs := List.filter (fun r => eqb (vr_attempt_id r) attempt_id)
                (loaded (mw_validation_runs w)) in
  stale_below (fold_left (run_tier rebase_time) runs 0)
    (required_tier (mw_task_class w) rebase_time).

(** ** Scope of a documentation task *)

Definition claims_non_docs (path : string) : bool :=
  let normalized := backslash_to_slash (strip path) in
  if eqb normalized "" then false
  else if starts_with "docs/" normalized then false
  else if mem normalized ["README.md"; "CHANGELOG.md"; "CONTRIBUTING.md"] then false
  else negb (existsb (fun suffix => ends_with suffix normalized) [".md"; ".mdx"; ".rst"]).

Definition claims_non_docs_path (owned_paths : list string) : bool :=
  existsb claims_non_docs owned_paths.

Definition initial_scope_stale_reason (w : MergeWorkspace) : option string :=
  if negb (eqb (mw_task_class w) (Some (task_class_value docs_task))) then None
  else if claims_non_docs_path (mw_owned_paths w)
       then Some DOCS_TASK_SCOPE_VIOLATION_STALE_REASON
  else None.

(** ** Readiness flags *)

Definition with_stale (c : MergeCandidate) (stale : bool) (reason : option string)
  : MergeCandidate :=
  {| mc_id := mc_id c; mc_task_id := mc_task_id c; mc_attempt_id := mc_attempt_id c;
     mc_workspace_id := mc_workspace_id c; mc_pr_url := mc_pr_url c;
     mc_pr_number := mc_pr_number c; mc_repo_url := mc_repo_url c;
     mc_base_branch := mc_base_branch c; mc_head_sha := mc_head_sha c;
     mc_base_sha := mc_base_sha c; mc_status := mc_status c;
     mc_close_reason := mc_close_reason c; mc_created_at := mc_created_at c;
     mc_closed_at := mc_closed_at c; mc_merged_at := mc_merged_at c; mc_ready := mc_ready c;
     mc_manual_merge_required := mc_manual_merge_required c;
     mc_waiting_for_monitor := mc_waiting_for_monitor c;
     mc_failed_or_cancelled := mc_failed_or_cancelled c; mc_completed := mc_completed c;
     mc_not_canonical := mc_not_canonical c; mc_policy_blocked := mc_policy_blocked c;
     mc_stale := stale; mc_stale_reason := reason |}.

Definition with_flags (c : MergeCandidate)
    (ready manual waiting failed completed not_canonical : bool) : MergeCandidate :=
  {| mc_id := mc_id c; mc_task_id := mc_task_id c; mc_attempt_id := mc_attempt_id c;
     mc_workspace_id := mc_workspace_id c; mc_pr_url := mc_pr_url c;
     mc_pr_number := mc_pr_number c; mc_repo_url := mc_repo_url c;
     mc_base_branch := mc_base_branch c; mc_head_sha := mc_head_sha c;
     mc_base_sha := mc_base_sha c; mc_status := mc_status c;
     mc_close_reason := mc_close_reason c; mc_created_at := mc_created_at c;
     mc_closed_at := mc_closed_at c; mc_merged_at := mc_merged_at c; mc_ready := ready;
     mc_manual_merge_required := manual; mc_waiting_for_monitor := waiting;
     mc_failed_or_cancelled := failed; mc_completed := completed;
     mc_not_canonical := not_canonical; mc_policy_blocked := mc_policy_blocked c;
     mc_stale := mc_stale c; mc_stale_reason := mc_stale_reason c |}.

(** Validation and scope staleness, when the caller asks for it. *)
Definition sync_validation_reasons (c : MergeCandidate) (w : MergeWorkspace) : MergeCandidate :=
  match initial_scope_stale_reason w with
  | Some r => with_stale c true (Some r)
  | None =>
      match (compute_stale_reason w).1 with
      | Some r => with_stale c true (Some r)
      | None =>
          if mem (mc_stale_reason c)
               [Some VALIDATION_INSUFFICIENT_TIER_STALE_REASON;
                Some VALIDATION_MISSING_FOR_CURRENT_HEAD_STALE_REASON;
                Some DOCS_TASK_SCOPE_VIOLATION_STALE_REASON]
          then with_stale c false None else c
      end
  end.

(** The flags, computed from the candidate, its workspace and its attempt. *)
Definition derive_flags (c : MergeCandidate) (status : WorkspaceStatus) (w : MergeWorkspace)
    (a : MergeAttempt) : MergeCandidate :=
  let is_open := eqb (mc_status c) "open" in
  let is_canonical := ma_is_canonical_for_merge a in
  let is_completed := eqb (mc_status c) "merged" || eqb status completed in
  let unblocked := is_canonical && negb (mc_policy_blocked c) && negb (mc_stale c) in
  let waiting := is_open && eqb status pushing in
  let manual := is_open && eqb status monitoring_pr && negb (mw_auto_merge w) && unblocked in
  let ready := is_open && eqb status monitoring_pr && mw_auto_merge w && unblocked in
  if is_completed
  then with_stale (with_flags c false false false false true (negb is_canonical)) false None
  else with_flags c ready manual waiting (mem status [failed; cancelled]) false (negb is_canonical).

Definition sync_candidate_readiness (c : MergeCandidate) (w : MergeWorkspace) (a : MergeAttempt)
    (sync_validation_staleness : bool) : result DbError MergeCandidate :=
  match parse_status (mw_status w) with
  | Err v => Err (InvalidStatus v)
  | Ok status =>
      Ok (derive_flags (if sync_validation_staleness then sync_validation_reasons c w else c)
            status w a)
  end.

(** ** Samples *)

(** A monitored workspace of task class [tc] that owns [paths]. *)
Definition sample_merge_workspace (id tc : string) (paths : list string) : MergeWorkspace :=
  {| mw_id := id; mw_title := "Add a parser"; mw_status := "monitoring_pr"; mw_auto_merge := true;
     mw_task_class := Some tc; mw_owned_paths := paths; mw_resolved_profile := JObj [];
     mw_profile_tier := Some 1;
     mw_operations :=
       Some [{| op_type := "rebase"; op_status := "succeeded"; op_created_at := 50;
                op_payload := VDict [] |}];
     mw_validation_runs :=
       Some [{| vr_attempt_id := "att_1"; vr_status := "succeeded"; vr_tier := 2;
                vr_started_at := 60; vr_workspace_head_sha := Some "abc";
                vr_target_head_sha := None |}] |}.

Definition sample_merge_attempt : MergeAttempt :=
  {| ma_is_canonical_for_merge := true; ma_owned_paths := []; ma_task_class := None |}.

(** An open candidate created at [t], before its first sync. *)
Definition sample_merge_candidate (id workspace_id : string) (t : Z) : MergeCandidate :=
  {| mc_id := id; mc_task_id := "task_1"; mc_attempt_id := "att_1";
     mc_workspace_id := workspace_id; mc_pr_url := "https://example.org/pull/7";
     mc_pr_number := Some 7; mc_repo_url := "https://example.org/repo"; mc_base_branch := "main";
     mc_head_sha := Some "abc"; mc_base_sha := Some "base"; mc_status := "open";
     mc_close_reason := None; mc_created_at := t; mc_closed_at := None; mc_merged_at := None;
     mc_ready := false; mc_manual_merge_required := false; mc_waiting_for_monitor := false;
     mc_failed_or_cancelled := false; mc_completed := false; mc_not_canonical := false;
     mc_policy_blocked := false; mc_stale := false; mc_stale_reason := None |}.

Definition sample_ready_candidate : MergeCandidate :=
  Eval vm_compute in
    derive_flags (sample_merge_candidate "mc_1" "ws_1" 100) monitoring_pr
      (sample_merge_workspace "ws_1" "refactor_task" ["src/parser"]) sample_merge_attempt.

(** ** Lemmas *)

(** A fold of [max] over the values some elements carry. *)
Lemma fold_max_ge {A : Type} (f : A -> option Z) (l : list A) (acc n : Z) :
  n <= fold_left (fun m x => match f x with Some t => Z.max m t | None => m end) l acc <->
  n <= acc \/ exists x t, x ∈ l /\ f x = Some t /\ n <= t.
Proof.
  revert acc. induction l as [|a l IH]; intros acc; simpl.
  - split; [by left|]. intros [H|(x & t & Hx & _)]; [done|by apply elem_of_nil in Hx].
  - rewrite IH. setoid_rewrite elem_of_cons. split.
    + intros [H|(x & t & Hx & Ht & Hn)]; [|right; exists x, t; auto].
      destruct (f a) as [t|] eqn:E; [|by left].
      destruct (Z.le_gt_cases n acc); [by left|]. right. exists a, t. split_and!; auto; lia.
    + intros [H|(x & t & [->|Hx] & Ht & Hn)].
      * left. destruct (f a); lia.
      * left. rewrite Ht. lia.
      * right. eauto.
Qed.

(** [n] is not later than the time of [o]. *)
Definition reached (o : option Z) (n : Z) : bool :=
  match o with Some r => n <=? r | None => false end.

Definition is_rebase (op : Operation) : bool :=
  eqb (op_type op) "rebase" && eqb (op_status op) "succeeded".

(** The rebase that counts is the latest successful one: it reaches what some
    successful rebase reaches. *)
Lemma latest_rebase_reached (l : list Operation) (acc : option Z) (n : Z) :
  reached (fold_left later_rebase l acc) n
  = reached acc n || existsb (fun op => is_rebase op && (n <=? op_created_at op)) l.
Proof.
  revert acc. induction l as [|o l IH]; intros acc; simpl; [by rewrite orb_false_r|].
  rewrite IH, orb_assoc. f_equal. unfold later_rebase. fold (is_rebase o).
  destruct (is_rebase o); simpl; [|by rewrite orb_false_r].
  destruct acc as [a|]; simpl; [|done].
  destruct (Z.ltb_spec a (op_created_at o)); simpl;
    destruct (Z.leb_spec n a), (Z.leb_spec n (op_created_at o)); simpl; try done; lia.
Qed.

Lemma latest_rebase_some (l : list Operation) (acc : option Z) :
  is_Some (fold_left later_rebase l acc) <-> is_Some acc \/ existsb is_rebase l = true.
Proof.
  revert acc. induction l as [|o l IH]; intros acc; simpl; [naive_solver|].
  rewrite IH, orb_true_iff. unfold later_rebase. fold (is_rebase o).
  destruct (is_rebase o), acc as [a|]; simpl; [|by naive_solver..].
  destruct (a <? op_created_at o); naive_solver.
Qed.

(** A run counts when it succeeded and started after every successful rebase. *)
Lemma run_counts_spec (ops : list Operation) (run : ValidationRun) (t : Z) :
  run_counts (latest_rebase ops) run = Some t <->
  vr_status run = "succeeded" /\ vr_tier run = t /\
  forall op, op ∈ ops -> is_rebase op = true -> op_created_at op < vr_started_at run.
Proof.
  unfold run_counts, latest_rebase. fold (reached (fold_left later_rebase ops None) (vr_started_at run)).
  rewrite latest_rebase_reached. cbn [reached orb].
  assert (Hall : existsb (fun op => is_rebase op && (vr_started_at run <=? op_created_at op)) ops = false
          <-> forall op, op ∈ ops -> is_rebase op = true -> op_created_at op < vr_started_at run).
  { rewrite existsb_none. split; intros H op Hop; specialize (H op Hop).
    - intros Hr. rewrite Hr in H. simpl in H. lia.
    - destruct (is_rebase op); [|done]. simpl. specialize (H eq_refl). lia. }
  rewrite <- Hall. unfold successful_validation_run_tier.
  destruct (existsb _ _); [naive_solver|].
  destruct (eqb (vr_status run) "succeeded") eqn:E; simpl.
  - rewrite eqb_true in E. naive_solver.
  - rewrite eqb_false in E. naive_solver.
Qed.

Lemma required_tier_pos (tc : option string) (o : option Z) : 1 <= required_tier tc o.
Proof. unfold required_tier, task_class_tier. destruct o; repeat case_goal; lia. Qed.

Lemma stale_below_fresh (actual required : Z) :
  stale_below actual required = (None, None) <-> required <= actual.
Proof.
  unfold stale_below. destruct (Z.ltb_spec actual required); split; intros; try done; lia.
Qed.

(** ** Properties *)

(** An attempt passes the validation gate exactly when one of its own runs
    succeeded, started after every successful rebase of the workspace, and has the
    tier its task class demands, which is at least 2 once the branch was rebased. *)
Theorem attempt_validated_iff (w : MergeWorkspace) (attempt_id : string) :
  compute_stale_reason_for_attempt w attempt_id = (None, None) <->
  exists run, run ∈ loaded (mw_validation_runs w) /\ vr_attempt_id run = attempt_id /\
    vr_status run = "succeeded" /\
    (forall op, op ∈ loaded (mw_operations w) -> is_rebase op = true ->
       op_created_at op < vr_started_at run) /\
    task_class_tier (mw_task_class w) <= vr_tier run /\
    (forall op, op ∈ loaded (mw_operations w) -> is_rebase op = true -> 2 <= vr_tier run).
Proof.
  unfold compute_stale_reason_for_attempt. rewrite stale_below_fresh.
  set (ops := loaded (mw_operations w)). set (runs := loaded (mw_validation_runs w)).
  unfold run_tier. rewrite fold_max_ge.
  assert (Hreq : forall t, required_tier (mw_task_class w) (latest_rebase ops) <= t <->
    task_class_tier (mw_task_class w) <= t /\ forall op, op ∈ ops -> is_rebase op = true -> 2 <= t).
  { intros t. unfold required_tier. pose proof (latest_rebase_some ops None) as Hs.
    fold (latest_rebase ops) in Hs. rewrite existsb_exists in Hs.
    setoid_rewrite <- list_elem_of_In in Hs.
    destruct (latest_rebase ops) as [r|].
    - destruct Hs as [Hs _]. destruct (Hs ltac:(eauto)) as [[? [=]]|(op & Hop & Hr)].
      split; [intros; split; [lia|intros; lia]|]. intros [H1 H2]. specialize (H2 op Hop Hr). lia.
    - split; [|by intros [H _]]. intros H. split; [done|]. intros op Hop Hr.
      destruct Hs as [_ [? [=]]]. eauto. }
  split.
  - intros [H|(run & t & Hrun & Hc & Ht)].
    + pose proof (required_tier_pos (mw_task_class w) (latest_rebase ops)). lia.
    + apply elem_of_bfilter in Hrun as [Ha Hrun]. rewrite eqb_true in Ha.
      apply run_counts_spec in Hc as (Hs & <- & Hr). apply Hreq in Ht as [H1 H2]. eauto 10.
  - intros (run & Hrun & Ha & Hs & Hr & H1 & H2). right. exists run, (vr_tier run).
    split_and!.
    + apply elem_of_bfilter. by rewrite eqb_true.
    + by apply run_counts_spec.
    + by apply Hreq.
Qed.

(** The flags that exclude each other. *)
Definition outcome_flags (c : MergeCandidate) : list bool :=
  [mc_ready c; mc_manual_merge_required c; mc_waiting_for_monitor c; mc_failed_or_cancelled c;
   mc_completed c].

(** What lets an open candidate of a monitored workspace proceed. *)
Definition mergeable (c : MergeCandidate) (w : MergeWorkspace) (a : MergeAttempt) : Prop :=
  mc_status c = "open" /\ mw_status w = status_value monitoring_pr /\
  ma_is_canonical_for_merge a = true /\ mc_policy_blocked c = false /\ mc_stale c = false.

Lemma derive_status (c : MergeCandidate) (s : WorkspaceStatus) (w : MergeWorkspace)
    (a : MergeAttempt) : mc_status (derive_flags c s w a) = mc_status c.
Proof. unfold derive_flags. by case_goal. Qed.

Lemma derive_idem (c : MergeCandidate) (s : WorkspaceStatus) (w : MergeWorkspace)
    (a : MergeAttempt) : derive_flags (derive_flags c s w a) s w a = derive_flags c s w a.
Proof.
  unfold derive_flags at 1. rewrite derive_status. unfold derive_flags.
  by destruct (_ || _).
Qed.

Lemma sync_reasons_idem (c : MergeCandidate) (s : WorkspaceStatus) (w : MergeWorkspace)
    (a : MergeAttempt) :
  let d := derive_flags (sync_validation_reasons c w) s w a in
  derive_flags (sync_validation_reasons d w) s w a = d.
Proof.
  cbv zeta. unfold sync_validation_reasons.
  destruct (initial_scope_stale_reason w) as [r|];
    [|destruct (compute_stale_reason w) as [[r|] act]; cbn [fst]].
  - unfold derive_flags. cbn [mc_status with_stale].
    destruct (eqb (mc_status c) "merged" || eqb s completed) eqn:E;
      cbn [mc_status with_stale with_flags]; by rewrite E.
  - unfold derive_flags. cbn [mc_status with_stale].
    destruct (eqb (mc_status c) "merged" || eqb s completed) eqn:E;
      cbn [mc_status with_stale with_flags]; by rewrite E.
  - destruct (mem (mc_stale_reason c) _) eqn:Em.
    + assert (Hd : mc_stale_reason (derive_flags (with_stale c false None) s w a) = None)
        by (unfold derive_flags; by case_goal).
      rewrite Hd. apply derive_idem.
    + assert (Hd : mc_stale_reason (derive_flags c s w a) = None \/
                   mc_stale_reason (derive_flags c s w a) = mc_stale_reason c)
        by (unfold derive_flags; case_goal; auto).
      destruct Hd as [Hd|Hd]; rewrite Hd; [|rewrite Em]; apply derive_idem.
Qed.

Lemma sync_readiness_idem (c c' : MergeCandidate) (w : MergeWorkspace) (a : MergeAttempt)
    (sync : bool) :
  sync_candidate_readiness c w a sync = Ok c' -> sync_candidate_readiness c' w a sync = Ok c'.
Proof.
  unfold sync_candidate_readiness. destruct (parse_status _) as [s|]; [|done].
  intros [= <-]. f_equal. destruct sync; [apply sync_reasons_idem|apply derive_idem].
Qed.

Section Derive.
Context (c : MergeCandidate) (s : WorkspaceStatus) (w : MergeWorkspace) (a : MergeAttempt).
Context (Hs : mw_status w = status_value s).

Lemma derive_mergeable (auto : bool) :
  mergeable (derive_flags c s w a) w a /\ mw_auto_merge w = auto <->
  eqb (mc_status c) "merged" || eqb s completed = false /\
  eqb (mc_status c) "open" && eqb s monitoring_pr && eqb (mw_auto_merge w) auto
  && (ma_is_canonical_for_merge a && negb (mc_policy_blocked c) && negb (mc_stale c)) = true.
Proof.
  unfold mergeable. rewrite derive_status, Hs.
  assert (Hm : status_value s = status_value monitoring_pr <-> s = monitoring_pr)
    by (split; [apply status_value_inj|congruence]).
  rewrite Hm. clear Hm. unfold derive_flags.
  destruct (eqb (mc_status c) "merged" || eqb s completed) eqn:E;
    cbn [mc_policy_blocked mc_stale with_flags with_stale].
  - apply orb_true_iff in E. rewrite !eqb_true in E. split; [|by intros [? _]].
    intros [(Ho & -> & _) _]. rewrite Ho in E. by destruct E.
  - rewrite !andb_true_iff, !eqb_true, !negb_true_iff. tauto.
Qed.

Lemma derive_ready :
  mc_ready (derive_flags c s w a) = true <->
  mergeable (derive_flags c s w a) w a /\ mw_auto_merge w = true.
Proof.
  rewrite derive_mergeable. unfold derive_flags.
  destruct (eqb (mc_status c) "merged" || eqb s completed); cbn [mc_ready with_flags with_stale];
    [by split; [|intros [? _]]|]. destruct (mw_auto_merge w); [rewrite eqb_refl|];
    rewrite ?andb_true_r, ?andb_false_r; [by split; [|intros [_ ?]]|].
    by split; [|intros [_ ?]].
Qed.

Lemma derive_manual :
  mc_manual_merge_required (derive_flags c s w a) = true <->
  mergeable (derive_flags c s w a) w a /\ mw_auto_merge w = false.
Proof.
  rewrite derive_mergeable. unfold derive_flags.
  destruct (eqb (mc_status c) "merged" || eqb s completed);
    cbn [mc_manual_merge_required with_flags with_stale];
    [by split; [|intros [? _]]|]. destruct (mw_auto_merge w); [|rewrite eqb_refl];
    cbn [negb]; rewrite ?andb_true_r, ?andb_false_r; [|by split; [|intros [_ ?]]].
    by split; [|intros [_ ?]].
Qed.

Lemma derive_exclusive : (length (List.filter id (outcome_flags (derive_flags c s w a))) <= 1)%nat.
Proof.
  clear Hs. unfold outcome_flags, derive_flags.
  destruct (eqb (mc_status c) "merged" || eqb s completed); [simpl; lia|].
  cbn [mc_ready mc_manual_merge_required mc_waiting_for_monitor mc_failed_or_cancelled
       mc_completed with_flags].
  destruct s, (eqb (mc_status c) "open"), (mw_auto_merge w),
    (ma_is_canonical_for_merge a && negb (mc_policy_blocked c) && negb (mc_stale c));
    vm_compute; lia.
Qed.
End Derive.

(** The readiness flags.  After a sync a candidate is ready exactly when it is
    open, canonical, neither blocked nor stale, and its monitored workspace merges
    by itself; it needs a manual merge exactly when the workspace does not; at most
    one outcome holds; a completed candidate is never stale; and a second sync
    changes nothing. *)
Theorem readiness_flags (c c' : MergeCandidate) (w : MergeWorkspace) (a : MergeAttempt)
    (sync : bool) :
  sync_candidate_readiness c w a sync = Ok c' ->
  (mc_ready c' = true <-> mergeable c' w a /\ mw_auto_merge w = true) /\
  (mc_manual_merge_required c' = true <-> mergeable c' w a /\ mw_auto_merge w = false) /\
  (length (List.filter id (outcome_flags c')) <= 1)%nat /\
  mc_not_canonical c' = negb (ma_is_canonical_for_merge a) /\
  (mc_completed c' = true -> mc_stale c' = false /\ mc_stale_reason c' = None) /\
  sync_candidate_readiness c' w a sync = Ok c'.
Proof.
  intros H. pose proof (sync_readiness_idem _ _ _ _ _ H) as Hidem.
  split_and!; [..|exact Hidem]; clear Hidem; revert H; unfold sync_candidate_readiness;
    destruct (parse_status (mw_status w)) as [s|] eqn:Es; try done;
    apply parse_status_ok in Es; intros [= <-];
    set (d := if sync then sync_validation_reasons c w else c).
  - rewrite (derive_ready d s w a Es). tauto.
  - rewrite (derive_manual d s w a Es). tauto.
  - apply derive_exclusive.
  - unfold derive_flags. by case_goal.
  - unfold derive_flags. by case_goal.
Qed.

Lemma readiness_flags_witness :
  exists c', sync_candidate_readiness (sample_merge_candidate "mc_1" "ws_1" 100)
               (sample_merge_workspace "ws_1" "refactor_task" ["src/parser"])
               sample_merge_attempt true = Ok c' /\ mc_ready c' = true.
Proof.
  exists sample_ready_candidate. split; [vm_compute; reflexivity|].
  destruct (readiness_flags (sample_merge_candidate "mc_1" "ws_1" 100) sample_ready_candidate
    (sample_merge_workspace "ws_1" "refactor_task" ["src/parser"]) sample_merge_attempt true)
    as [[_ Hready] _]; [vm_compute; reflexivity|].
  apply Hready. repeat split; reflexivity.
Defined.
