(* ===== verification/OwnedPaths.v ===== *)
(** * Owned paths

    [common/owned_paths.py] and the overlap test of [db/repositories/base.py]:
    normalisation, the generated plan artifacts that take no part in conflicts,
    and when two declared paths can own a common file. *)

From S2P Require Import Prelude PyStr Json Regex.
#[local] Open Scope Z_scope.

(** ** [fnmatch.fnmatchcase]

    The glob matcher of Python's standard library: [*] matches any text, also
    across slashes, [?] one character, and a bracket a set of characters with the
    library's treatment of ranges, negation and empty ranges.  The text always
    has to be matched as a whole. *)

(** ** Bracket expressions *)

(** The body of a bracket, cut at the hyphens that make ranges: a hyphen counts
    only [skip] characters or more after the previous cut. *)
Fixpoint set_chunks (skip : nat) (body : string) : list string :=
  match body with
  | "" => [""]
  | String c rest =>
      match skip with
      | S k => match set_chunks k rest with
               | [] => [String c ""]
               | w :: ws => String c w :: ws
               end
      | O => if Ascii.eqb c "-" then "" :: set_chunks 2 rest
             else match set_chunks O rest with
                  | [] => [String c ""]
                  | w :: ws => String c w :: ws
                  end
      end
  end.

(** A trailing hyphen belongs to the chunk before it. *)
Fixpoint close_chunks (l : list string) : list string :=
  match l with
  | [w; ""] => [w +:+ "-"]
  | w :: l' => w :: close_chunks l'
  | [] => []
  end.

Fixpoint last_char (s : string) : option ascii :=
  match s with
  | "" => None
  | String c "" => Some c
  | String _ s' => last_char s'
  end.

Fixpoint drop_last (s : string) : string :=
  match s with
  | "" => ""
  | String c "" => ""
  | String c s' => String c (drop_last s')
  end.

Definition first_char (s : string) : option ascii :=
  match s with "" => None | String c _ => Some c end.

(** Empty ranges are removed from the right, with both of their ends. *)
Fixpoint drop_empty_ranges (l : list string) : list string :=
  match l with
  | [] => []
  | w :: l' =>
      match drop_empty_ranges l' with
      | [] => [w]
      | v :: l'' =>
          match last_char w, first_char v with
          | Some a, Some b =>
              if code b <? code a then (drop_last w +:+ drop_str 1 v) :: l'' else w :: v :: l''
          | _, _ => w :: v :: l''
          end
      end
  end.

(** The regular-expression set that is left: characters and range hyphens. *)
Inductive SetToken : Type := SChar (c : ascii) | SDash.

Fixpoint chunk_tokens (l : list string) : list SetToken :=
  match l with
  | [] => []
  | [w] => map SChar (String.list_ascii_of_string w)
  | w :: l' => map SChar (String.list_ascii_of_string w) ++ SDash :: chunk_tokens l'
  end.

Fixpoint in_tokens (l : list SetToken) (x : ascii) : bool :=
  match l with
  | SChar a :: ((SDash :: SChar b :: l'') as l') =>
      ((code a <=? code x) && (code x <=? code b)) || in_tokens l'' x
  | SChar a :: l' => Ascii.eqb a x || in_tokens l' x
  | SDash :: l' => Ascii.eqb "-" x || in_tokens l' x
  | [] => false
  end.

(** The characters the bracket with this body matches. *)
Definition in_set (body : string) (x : ascii) : bool :=
  let l := set_chunks (if starts_with "!" body then 2 else 1) body in
  match chunk_tokens (drop_empty_ranges (close_chunks l)) with
  | SChar c :: l' => if Ascii.eqb c "!" then negb (in_tokens l' x) else in_tokens (SChar c :: l') x
  | l' => in_tokens l' x
  end.

(** ** Patterns *)

(** The length of the body of a bracket that opens just before [s], when it
    closes: a first closing bracket, also after [!], is an ordinary character. *)
Definition set_length (s : string) : option nat :=
  let j := if starts_with "!" s then 1%nat else 0%nat in
  let j := if starts_with "]" (drop_str j s) then S j else j in
  option_map (Nat.add j) (find_char "]" (drop_str j s)).

Inductive GlobToken : Type :=
| GStar
| GAny
| GSet (body : string)
| GChar (c : ascii).

Fixpoint glob_tokens (skip : nat) (pat : string) : list GlobToken :=
  match pat with
  | "" => []
  | String c rest =>
      match skip with
      | S k => glob_tokens k rest
      | O =>
          if Ascii.eqb c "*" then GStar :: glob_tokens O rest
          else if Ascii.eqb c "?" then GAny :: glob_tokens O rest
          else if Ascii.eqb c "[" then
            match set_length rest with
            | Some n => GSet (take_str n rest) :: glob_tokens (S n) rest
            | None => GChar c :: glob_tokens O rest
            end
          else GChar c :: glob_tokens O rest
      end
  end.

Fixpoint star_match (k : string -> bool) (s : string) : bool :=
  k s || match s with "" => false | String _ s' => star_match k s' end.

Fixpoint glob_match (g : list GlobToken) (s : string) : bool :=
  match g, s with
  | [], "" => true
  | GStar :: g', _ => star_match (glob_match g') s
  | GAny :: g', String _ s' => glob_match g' s'
  | GSet body :: g', String c s' => in_set body c && glob_match g' s'
  | GChar a :: g', String c s' => Ascii.eqb a c && glob_match g' s'
  | _, _ => false
  end.

(** [fnmatch.fnmatchcase(name, pat)] *)
Definition fnmatchcase (name pat : string) : bool := glob_match (glob_tokens O pat) name.

(** Behaviour of the library on its own corner cases. *)
Example fnmatch_star : fnmatchcase "docs/a/b.md" "docs/*.md" = true.
Proof. reflexivity. Qed.
Example fnmatch_question : fnmatchcase "ab" "a?" = true.
Proof. reflexivity. Qed.
Example fnmatch_range : map (fun s => fnmatchcase s "[a-c]x") ["bx"; "dx"; "-x"] = [true; false; false].
Proof. reflexivity. Qed.
Example fnmatch_negated : map (fun s => fnmatchcase s "[!a-c]") ["b"; "d"; ""] = [false; true; false].
Proof. reflexivity. Qed.
Example fnmatch_empty_range : map (fun s => fnmatchcase s "[c-a]") ["b"; "c"; "-"] = [false; false; false].
Proof. reflexivity. Qed.
Example fnmatch_trailing : map (fun s => fnmatchcase s "[a-]") ["a"; "-"; "b"] = [true; true; false].
Proof. reflexivity. Qed.
Example fnmatch_bracket_first : map (fun s => fnmatchcase s "[]a]") ["]"; "a"; "[]a]"] = [true; true; false].
Proof. reflexivity. Qed.
Example fnmatch_unclosed : map (fun s => fnmatchcase s "a[b") ["a[b"; "ab"] = [true; false].
Proof. reflexivity. Qed.

(** ** Normalisation *)

Definition push_segment (segments : list string) (segment : string) : list string :=
  if mem segment [""; "."] then segments
  else if eqb segment ".." then removelast segments
  else segments ++ [segment].

Definition path_segments (path : string) : list string :=
  fold_left push_segment (split_on slash (backslash_to_slash (strip path))) [].

Definition normalize_owned_path (path : string) : string := join "/" (path_segments path).

(** ** Internal plan artifacts *)

Definition INTERNAL_PLAN_ARTIFACT_DIR : string := "docs/awf-plans".
Definition INTERNAL_PLAN_ARTIFACT_README : string := INTERNAL_PLAN_ARTIFACT_DIR +:+ "/README.md".
Definition PLANNING_PATH_FIELDS : list string := ["plan_path"; "conformance_report_path"].
Definition WORKSPACE_ID_PLACEHOLDER : string := "{workspace_id}".
Definition WORKSPACE_ID_PREFIX : string := "ws_".
Definition WORKSPACE_ID_HEX_LENGTH : nat := 24.
Definition WORKSPACE_ID_GLOB : string := WORKSPACE_ID_PREFIX +:+ "*".

(** Some window of consecutive segments is the pair (docs, awf-plans). *)
Fixpoint has_plan_dir_window (segments : list string) : bool :=
  match segments with
  | a :: ((b :: _) as rest) => (eqb a "docs" && eqb b "awf-plans") || has_plan_dir_window rest
  | _ => false
  end.

Definition is_under_internal_plan_artifact_dir (path : string) : bool :=
  let normalized := normalize_owned_path path in
  if eqb normalized INTERNAL_PLAN_ARTIFACT_README then false
  else has_plan_dir_window (split_on slash normalized).

Definition is_alnum (c : ascii) : bool :=
  let n := code c in
  is_digit c || ((65 <=? n) && (n <=? 90)) || ((97 <=? n) && (n <=? 122)).

(** The file names of generated artifacts. *)
Definition INTERNAL_PLAN_ARTIFACT_NAME_RE : re :=
  RSeq (rword "ws_")
    (RSeq (ralts [RSeq (RChar is_alnum) (RStar (RChar (fun c => is_alnum c || eqb c "_"%char)));
                  RChar (eqb "*"%char)])
       (ralts [rword ".md"; RSeq (ropt (rword ".conformance")) (rword ".json")])).

(** [text.split(sep)] for a separator of several characters. *)
Fixpoint split_str_go (sep : string) (skip : nat) (s : string) : list string :=
  match s with
  | "" => [""]
  | String c s' =>
      match skip with
      | S k => split_str_go sep k s'
      | O =>
          if starts_with sep s then "" :: split_str_go sep (str_len sep - 1) s'
          else match split_str_go sep O s' with
               | [] => [String c ""]
               | w :: ws => String c w :: ws
               end
      end
  end.

Definition split_str (sep s : string) : list string := split_str_go sep O s.

Definition is_hex_digit (c : ascii) : bool :=
  is_digit c || ((97 <=? code c) && (code c <=? 102)).

(** The regular expression binds the first identifier and repeats it, so a match
    is determined by the text after the first literal part. *)
Definition workspace_id_glob_path_matches (path glob : string) : bool :=
  match split_str WORKSPACE_ID_GLOB glob with
  | first :: ((_ :: _) as rest) =>
      let suffix := take_str WORKSPACE_ID_HEX_LENGTH
                      (drop_str (str_len first + str_len WORKSPACE_ID_PREFIX) path) in
      (str_len suffix =? WORKSPACE_ID_HEX_LENGTH)%nat && all_chars is_hex_digit suffix
      && eqb path (join (WORKSPACE_ID_PREFIX +:+ suffix) (first :: rest))
  | _ => false
  end.

Definition has_wildcard (path : string) : bool :=
  has_char "*" path || has_char "?" path || has_char "[" path.

Definition matches_artifact_path (normalized artifact_path : string) : bool :=
  if eqb artifact_path "" then false
  else if eqb normalized artifact_path then true
  else if contains WORKSPACE_ID_GLOB normalized
          && workspace_id_glob_path_matches artifact_path normalized then true
  else if contains WORKSPACE_ID_GLOB artifact_path
       then workspace_id_glob_path_matches normalized artifact_path
  else if ends_with "/**" artifact_path then false
  else has_wildcard artifact_path && fnmatchcase normalized artifact_path.

Definition matches_configured_internal_plan_artifact_path (normalized : string)
    (paths : list string) : bool :=
  existsb (matches_artifact_path normalized) paths.

Definition is_internal_plan_artifact_normalized (normalized : string) (paths : list string) : bool :=
  if matches_configured_internal_plan_artifact_path normalized paths then true
  else if eqb normalized (INTERNAL_PLAN_ARTIFACT_DIR +:+ "/**") then true
  else
    let prefix := INTERNAL_PLAN_ARTIFACT_DIR +:+ "/" in
    if negb (starts_with prefix normalized) then false
    else let filename := remove_prefix prefix normalized in
         negb (has_char slash filename) && fullmatch INTERNAL_PLAN_ARTIFACT_NAME_RE filename.

Definition normalized_internal_plan_artifact_paths (paths : list string) : list string :=
  fromkeys (map normalize_owned_path paths).

Definition is_internal_plan_artifact_owned_path (path : string) (paths : list string) : bool :=
  is_internal_plan_artifact_normalized (normalize_owned_path path)
    (normalized_internal_plan_artifact_paths paths).

(** The loop of [interworkspace_owned_paths]; [seen] holds normalised paths. *)
Fixpoint interworkspace_from (internal : list string) (seen : list string) (paths : list string)
  : list string :=
  match paths with
  | [] => []
  | path :: rest =>
      let normalized := normalize_owned_path path in
      if eqb normalized "" || is_internal_plan_artifact_normalized normalized internal
      then interworkspace_from internal seen rest
      else if mem normalized seen then interworkspace_from internal seen rest
      else path :: interworkspace_from internal (normalized :: seen) rest
  end.

Definition interworkspace_owned_paths (paths internal_plan_artifact_paths : list string)
  : list string :=
  interworkspace_from (normalized_internal_plan_artifact_paths internal_plan_artifact_paths) []
    paths.

(** [isinstance(value, Mapping)] and [value.get(key)]: an absent key is [None]. *)
Definition json_get (v : json) (key : string) : option json :=
  match v with
  | JObj l => option_map snd (List.find (fun p => eqb p.1 key) l)
  | _ => None
  end.

(** [_internal_plan_artifact_paths_from_template] *)
Definition internal_plan_artifact_paths_from_template (template : string)
    (workspace_id : option string) : list string :=
  let normalized := normalize_owned_path template in
  if negb (contains WORKSPACE_ID_PLACEHOLDER normalized) then []
  else
    let replacement :=
      match workspace_id with
      | Some id => if eqb id "" then WORKSPACE_ID_GLOB else id
      | None => WORKSPACE_ID_GLOB
      end in
    replace WORKSPACE_ID_PLACEHOLDER replacement normalized ::
    match rpartition slash normalized with
    | Some (parent, _) =>
        if negb (eqb parent "") && contains WORKSPACE_ID_PLACEHOLDER parent
        then [replace WORKSPACE_ID_PLACEHOLDER replacement parent +:+ "/**"] else []
    | None => []
    end.

(** Numbers in a profile never matter here, and the JSON values have none. *)
Definition internal_plan_artifact_owned_paths_from_profile (resolved_profile : json)
    (workspace_id : option string) : list string :=
  match json_get resolved_profile "planning" with
  | Some (JObj _ as planning) =>
      match json_get planning "required" with
      | Some (JBool true) =>
          fromkeys (List.filter (fun path => negb (eqb path ""))
            (flat_map (fun field =>
               match json_get planning field with
               | Some (JStr value) => internal_plan_artifact_paths_from_template value workspace_id
               | _ => []
               end) PLANNING_PATH_FIELDS))
      | _ => []
      end
  | _ => []
  end.

(** ** Overlap of two owned paths *)

Definition OWNED_PATH_EXACT_MATCH_REASON : string := "OWNED_PATH_EXACT_MATCH".
Definition OWNED_PATH_ANCESTOR_MATCH_REASON : string := "OWNED_PATH_ANCESTOR_MATCH".
Definition OWNED_PATH_WILDCARD_MATCH_REASON : string := "OWNED_PATH_WILDCARD_MATCH".

Record OwnedPathOverlapMatch : Type := {
  left_path : string;
  right_path : string;
  normalized_left_path : string;
  normalized_right_path : string;
  match_reason_code : string;
  explanation : string
}.

Definition rstrip_slash (s : string) : string := rstrip_by (fun c => Ascii.eqb c slash) s.

Definition is_descendant (parent child : string) : bool :=
  starts_with (rstrip_slash parent +:+ "/") child.

Definition literal_paths_overlap (left right : string) : bool :=
  eqb left right || is_descendant left right || is_descendant right left.

(** The indexes [path.find(c)] that are not -1, and the text before the least. *)
Definition wildcard_prefix (path : string) : option string :=
  match omap (fun c => find_char c path) ["*"; "?"; "["]%char with
  | [] => None
  | i :: rest => Some (take_str (foldr Nat.min i rest) path)
  end.

Definition wildcard_prefix_overlaps (prefix path : string) : bool :=
  if eqb prefix "" then true
  else if starts_with prefix path then true
  else literal_paths_overlap (rstrip_slash prefix) (rstrip_slash path).

Definition wildcard_prefixes_overlap (left right : string) : bool :=
  if eqb left "" || eqb right "" then true
  else if starts_with right left || starts_with left right then true
  else literal_paths_overlap (rstrip_slash left) (rstrip_slash right).

Definition owned_path_match (left right l r reason text : string) : OwnedPathOverlapMatch :=
  {| left_path := left; right_path := right; normalized_left_path := l;
     normalized_right_path := r; match_reason_code := reason; explanation := text |}.

Definition wildcard_owned_path_match (left right l r : string) : OwnedPathOverlapMatch :=
  owned_path_match left right l r OWNED_PATH_WILDCARD_MATCH_REASON
    ("Wildcard owned-path prefixes overlap: " +:+ left +:+ " <-> " +:+ right +:+ ".").

Definition owned_path_overlap_match (left right : string) : option OwnedPathOverlapMatch :=
  let l := normalize_owned_path left in
  let r := normalize_owned_path right in
  if eqb l "" || eqb r "" then None
  else if eqb l r then
    Some (owned_path_match left right l r OWNED_PATH_EXACT_MATCH_REASON
            ("Owned paths normalize to the same path: " +:+ l +:+ "."))
  else if literal_paths_overlap l r then
    let '(ancestor, descendant) := if is_descendant l r then (l, r) else (r, l) in
    Some (owned_path_match left right l r OWNED_PATH_ANCESTOR_MATCH_REASON
            ("One owned path contains the other: " +:+ ancestor +:+ " -> " +:+ descendant +:+ "."))
  else
    let wl := wildcard_prefix l in
    let wr := wildcard_prefix r in
    let overlaps :=
      match wl with Some p => wildcard_prefix_overlaps p r | None => false end
      || match wr with Some p => wildcard_prefix_overlaps p l | None => false end
      || match wl, wr with Some p, Some q => wildcard_prefixes_overlap p q | _, _ => false end in
    if overlaps then Some (wildcard_owned_path_match left right l r) else None.

Definition owned_paths_overlap (left right : string) : bool :=
  match owned_path_overlap_match left right with Some _ => true | None => false end.

Example overlap_ancestor : owned_paths_overlap "./src/" "src/awf/db" = true.
Proof. reflexivity. Qed.
Example overlap_sibling : owned_paths_overlap "docs" "docs2/a" = false.
Proof. reflexivity. Qed.
Example overlap_glob : owned_paths_overlap "src/*/a.py" "src/b" = true.
Proof. reflexivity. Qed.
Example overlap_none : owned_paths_overlap "src/**" "docs/a.md" = false.
Proof. reflexivity. Qed.
