(* ===== verification/OwnedPathsFacts.v ===== *)
(** * What normalisation and overlap guarantee

    The shape of a normalised path, when normalising again changes nothing, and
    that two declared paths that can own a common file always overlap. *)

From S2P Require Import Prelude PyStr OwnedPaths.
#[local] Open Scope Z_scope.

(** ** Normalised segments *)

(** A segment that normalisation keeps. *)
Record clean (w : string) : Prop := {
  clean_nonempty : w <> "";
  clean_dot : w <> ".";
  clean_dots : w <> "..";
  clean_slash : has_char slash w = false;
  clean_backslash : has_char backslash w = false
}.

Lemma removelast_Forall {A : Type} (P : A -> Prop) (l : list A) :
  Forall P l -> Forall P (removelast l).
Proof.
  induction 1 as [|a l Ha Hl IH]; simpl; [done|]. destruct l as [|b l]; by constructor.
Qed.

Lemma push_clean (l : list string) (w : string) :
  has_char slash w = false -> has_char backslash w = false ->
  Forall clean l -> Forall clean (push_segment l w).
Proof.
  intros Hs Hb Hl. unfold push_segment. destruct (mem w _) eqn:E1; [done|].
  apply mem_false in E1. rewrite !not_elem_of_cons in E1. destruct E1 as (H1 & H2 & _).
  destruct (eqb w "..") eqn:E2.
  - by apply removelast_Forall.
  - apply eqb_false in E2. apply Forall_app. split; [done|]. by repeat constructor.
Qed.

Lemma split_has_char (c d : ascii) (s w : string) :
  w ∈ split_on c s -> has_char d w = true -> has_char d s = true.
Proof.
  revert w. induction s as [|a s IH]; intros w; simpl; [by intros ->%list_elem_of_singleton|].
  destruct (Ascii.eqb a c).
  - intros [->|Hw]%elem_of_cons Hd; [done|]. rewrite (IH w Hw Hd). apply orb_true_r.
  - pose proof (split_on_nonempty c s). destruct (split_on c s) as [|v vs]; [done|].
    intros [->|Hw]%elem_of_cons; simpl.
    + destruct (Ascii.eqb a d); [done|]. simpl. apply IH. by left.
    + intros Hd. rewrite (IH w) by (done || by right). apply orb_true_r.
Qed.

Lemma backslash_to_slash_no_backslash (s : string) :
  has_char backslash (backslash_to_slash s) = false.
Proof.
  induction s as [|c s IH]; simpl; [done|]. fold (backslash_to_slash s). rewrite IH, orb_false_r.
  destruct (Ascii.eqb c backslash) eqn:E; [done|exact E].
Qed.

Lemma path_segments_clean (path : string) : Forall clean (path_segments path).
Proof.
  unfold path_segments. set (ws := split_on slash _).
  assert (Hw : Forall (fun w => has_char slash w = false /\ has_char backslash w = false) ws).
  { apply Forall_forall. intros w Hw. split; [by eapply split_on_no_sep|].
    destruct (has_char backslash w) eqn:E; [|done].
    by pose proof (split_has_char _ _ _ _ Hw E) as H; rewrite backslash_to_slash_no_backslash in H. }
  assert (H0 : Forall clean []) by constructor. revert H0. generalize (@nil string).
  induction Hw as [|w ws [Hs Hb] _ IH]; simpl; [done|]. intros l Hl. by apply IH, push_clean.
Qed.

(** ** Trailing slashes *)

Lemma rstrip_by_app (p : ascii -> bool) (s t : string) :
  rstrip_by p t <> "" -> rstrip_by p (s +:+ t) = s +:+ rstrip_by p t.
Proof.
  intros Ht. induction s as [|c s IH]; simpl; [done|]. rewrite IH.
  destruct (s +:+ rstrip_by p t) as [|d u] eqn:E; [|done].
  destruct s; simpl in E; [done|discriminate].
Qed.

Lemma no_char_all (c : ascii) (s : string) :
  has_char c s = false -> all_chars (fun d => negb (Ascii.eqb d c)) s = true.
Proof.
  induction s as [|a s IH]; simpl; [done|]. intros [Ha Hs]%orb_false_iff.
  by rewrite Ha, (IH Hs).
Qed.

Lemma join_nonempty (l : list string) : Forall clean l -> l <> [] -> join "/" l <> "".
Proof.
  intros Hl Hn. destruct Hl as [|w l Hw Hl]; [done|]. apply clean_nonempty in Hw.
  destruct l; simpl; [done|]. by destruct w.
Qed.

Lemma rstrip_join (l : list string) : Forall clean l -> rstrip_slash (join "/" l) = join "/" l.
Proof.
  induction 1 as [|w l Hw Hl IH]; [done|]. destruct l as [|v l].
  - simpl. apply rstrip_by_id, no_char_all, clean_slash, Hw.
  - change (join "/" (w :: v :: l)) with (w +:+ "/" +:+ join "/" (v :: l)).
    rewrite <- str_app_assoc. unfold rstrip_slash in *. rewrite rstrip_by_app; rewrite IH; [done|].
    by apply join_nonempty.
Qed.

Lemma rstrip_normalized (path : string) :
  rstrip_slash (normalize_owned_path path) = normalize_owned_path path.
Proof. apply rstrip_join, path_segments_clean. Qed.

(** ** Literal prefixes of patterns *)

Definition is_wild (c : ascii) : bool := Ascii.eqb c "*" || Ascii.eqb c "?" || Ascii.eqb c "[".

(** The text before the first wildcard, read character by character. *)
Fixpoint first_wild (p : string) : option string :=
  match p with
  | "" => None
  | String c p' => if is_wild c then Some "" else String c <$> first_wild p'
  end.

Lemma wildcard_prefix_first_wild (p : string) : wildcard_prefix p = first_wild p.
Proof.
  unfold wildcard_prefix. induction p as [|a p IH]; simpl; [done|]. rewrite <- IH. unfold is_wild.
  destruct (Ascii.eqb a "*"), (Ascii.eqb a "?"), (Ascii.eqb a "["); simpl;
    destruct (find_char "*" p), (find_char "?" p), (find_char "[" p); simpl;
    rewrite ?Nat.min_0_r; try done; by repeat rewrite <- Nat.succ_min_distr.
Qed.

Lemma first_wild_none (p : string) : first_wild p = None <-> has_wildcard p = false.
Proof.
  unfold has_wildcard. induction p as [|a p IH]; simpl; [done|]. unfold is_wild.
  destruct (Ascii.eqb a "*"), (Ascii.eqb a "?"), (Ascii.eqb a "["); simpl;
    rewrite ?orb_true_r; try done.
  rewrite <- IH. by destruct (first_wild p).
Qed.

Lemma first_wild_prefix (p pre : string) : first_wild p = Some pre -> starts_with pre p = true.
Proof.
  revert pre. induction p as [|a p IH]; intros pre; simpl; [done|].
  destruct (is_wild a); [by intros [= <-]|].
  destruct (first_wild p) as [q|]; [|done]. simpl. intros [= <-]. simpl.
  rewrite Ascii.eqb_refl. by apply IH.
Qed.

(** A glob only matches texts that begin with its literal prefix. *)
Lemma glob_prefix (p pre x : string) :
  first_wild p = Some pre -> fnmatchcase x p = true -> starts_with pre x = true.
Proof.
  unfold fnmatchcase. revert pre x. induction p as [|a p IH]; intros pre x; simpl; [done|].
  unfold is_wild. destruct (Ascii.eqb a "*"), (Ascii.eqb a "?"), (Ascii.eqb a "["); simpl;
    try by intros [= <-].
  destruct (first_wild p) as [q|]; [|done]. simpl. intros [= <-].
  destruct x as [|b x]; [done|]. simpl. rewrite !andb_true_iff. intros [Hab Hx].
  split; [done|]. by eapply IH.
Qed.

(** ** Which files a declared path owns *)

(** The file [x] is the path itself, lies below it, or matches it as a glob. *)
Definition owns (p x : string) : bool :=
  eqb p x || is_descendant p x || (has_wildcard p && fnmatchcase x p).

(** A literal path owns [x] exactly when its directory form begins the one of [x]. *)
Lemma starts_with_slash (p x : string) :
  starts_with (p +:+ "/") (x +:+ "/") = true -> p = x \/ starts_with (p +:+ "/") x = true.
Proof.
  revert x. induction p as [|a p IH]; intros [|b x]; simpl; auto.
  - by intros [_ H]%andb_true_iff; destruct p.
  - rewrite !andb_true_iff, Ascii.eqb_eq. intros [-> H].
    destruct (IH x H) as [->|H']; [by left|right; by rewrite H'].
Qed.

Lemma starts_with_app_r (p x y : string) : starts_with p x = true -> starts_with p (x +:+ y) = true.
Proof. rewrite !starts_with_spec. intros [r ->]. exists (r +:+ y). apply str_app_assoc. Qed.

Lemma owns_literal (p x : string) :
  rstrip_slash p = p -> has_wildcard p = false -> owns p x = true ->
  starts_with (p +:+ "/") (x +:+ "/") = true.
Proof.
  unfold owns, is_descendant. intros -> ->. rewrite orb_false_r, orb_true_iff, eqb_true.
  intros [->|H]; [apply starts_with_refl|by apply starts_with_app_r].
Qed.

Lemma owns_wild (p pre x : string) :
  rstrip_slash p = p -> first_wild p = Some pre -> owns p x = true -> starts_with pre x = true.
Proof.
  unfold owns, is_descendant. intros -> Hp. rewrite !orb_true_iff, eqb_true, andb_true_iff.
  pose proof (first_wild_prefix p pre Hp) as Hs. intros [[->|H]|[_ H]]; [done| |by eapply glob_prefix].
  eapply starts_with_trans; [|exact H]. by apply starts_with_app_r.
Qed.

(** What is left of [pre] without its trailing slashes still lies at or below [q]. *)
Lemma rstrip_below (q pre : string) :
  q <> "" -> rstrip_slash q = q -> starts_with (q +:+ "/") pre = true ->
  literal_paths_overlap (rstrip_slash pre) q = true.
Proof.
  intros Hne Hq [t ->]%starts_with_spec. unfold literal_paths_overlap, is_descendant.
  rewrite Hq, str_app_assoc. unfold rstrip_slash at 1 3 4. unfold rstrip_slash in Hq.
  destruct (rstrip_by (fun c => Ascii.eqb c slash) ("/" +:+ t)) as [|c u] eqn:E.
  - assert (Hr : forall s, rstrip_by (fun c => Ascii.eqb c slash) (s +:+ "/" +:+ t)
                        = rstrip_by (fun c => Ascii.eqb c slash) s).
    { induction s as [|a s IH]; [exact E|]. simpl in IH |- *. by rewrite IH. }
    rewrite Hr, Hq, eqb_refl. done.
  - rewrite rstrip_by_app by (by rewrite E). rewrite E.
    assert (c = slash) as ->.
    { simpl in E. destruct (rstrip_by _ t); [discriminate|]. by injection E. }
    assert (Hs : starts_with (q +:+ "/") (q +:+ String slash u) = true).
    { apply starts_with_spec. exists u. by rewrite str_app_assoc. }
    rewrite Hs. by rewrite orb_true_r.
Qed.

(** ** Overlap *)

(** The test behind [owned_path_overlap_match], without the report. *)
Definition overlap_test (l r : string) : bool :=
  literal_paths_overlap l r
  || match first_wild l with Some p => wildcard_prefix_overlaps p r | None => false end
  || match first_wild r with Some q => wildcard_prefix_overlaps q l | None => false end
  || match first_wild l, first_wild r with
     | Some p, Some q => wildcard_prefixes_overlap p q
     | _, _ => false
     end.

Lemma overlap_spec (left right : string) :
  owned_paths_overlap left right =
  let l := normalize_owned_path left in
  let r := normalize_owned_path right in
  negb (eqb l "") && negb (eqb r "") && overlap_test l r.
Proof.
  unfold owned_paths_overlap, owned_path_overlap_match, overlap_test. cbv zeta.
  set (l := normalize_owned_path left). set (r := normalize_owned_path right).
  rewrite !wildcard_prefix_first_wild.
  destruct (eqb l ""), (eqb r ""); simpl; try done.
  destruct (eqb l r) eqn:E.
  { unfold literal_paths_overlap. by rewrite E. }
  destruct (literal_paths_overlap l r); [by destruct (is_descendant l r)|]. simpl.
  by destruct (_ || _).
Qed.

Lemma literal_paths_overlap_comm (l r : string) :
  literal_paths_overlap l r = literal_paths_overlap r l.
Proof.
  unfold literal_paths_overlap.
  assert (eqb l r = eqb r l) as -> by (apply eq_bool_prop_intro; rewrite !Is_true_true, !eqb_true; naive_solver).
  by destruct (eqb r l), (is_descendant l r), (is_descendant r l).
Qed.

Lemma overlap_test_comm (l r : string) : overlap_test l r = overlap_test r l.
Proof.
  unfold overlap_test. rewrite (literal_paths_overlap_comm l r).
  assert (Hw : forall p q, wildcard_prefixes_overlap p q = wildcard_prefixes_overlap q p).
  { intros p q. unfold wildcard_prefixes_overlap.
    rewrite (orb_comm (eqb p "")), (orb_comm (starts_with q p)).
    by rewrite literal_paths_overlap_comm. }
  destruct (first_wild l) as [p|], (first_wild r) as [q|]; try rewrite (Hw p q);
    rewrite ?orb_false_r; try done.
  by rewrite <- !orb_assoc, (orb_assoc (wildcard_prefix_overlaps p r)),
    (orb_comm (wildcard_prefix_overlaps p r)), !orb_assoc.
Qed.

Lemma starts_with_slash_end (p r : string) :
  starts_with p (r +:+ "/") = true -> starts_with p r = true \/ p = r +:+ "/".
Proof.
  revert r. induction p as [|a p IH]; intros r; simpl; [by left|].
  destruct r as [|b r]; simpl; rewrite andb_true_iff, Ascii.eqb_eq; intros [-> H].
  - right. by destruct p.
  - destruct (IH r H) as [H'| ->]; [left|by right]. by rewrite Ascii.eqb_refl, H'.
Qed.

(** A pattern and a literal path with a common file. *)
Lemma wild_meets_literal (p r x : string) :
  r <> "" -> rstrip_slash r = r -> starts_with p x = true ->
  starts_with (r +:+ "/") (x +:+ "/") = true -> wildcard_prefix_overlaps p r = true.
Proof.
  intros Hne Hr Hp Hx. unfold wildcard_prefix_overlaps. rewrite Hr.
  destruct (eqb p ""); [done|]. destruct (starts_with p r) eqn:E; [done|].
  apply rstrip_below; [done|done|].
  destruct (prefixes_comparable p (r +:+ "/") (x +:+ "/")) as [H|H]; try done.
  - by apply starts_with_app_r.
  - apply starts_with_slash_end in H as [H| ->]; [congruence|apply starts_with_refl].
Qed.

Lemma common_file_overlap (left right x : string) :
  normalize_owned_path left <> "" -> normalize_owned_path right <> "" ->
  owns (normalize_owned_path left) x = true -> owns (normalize_owned_path right) x = true ->
  overlap_test (normalize_owned_path left) (normalize_owned_path right) = true.
Proof.
  intros Hl Hr Hlx Hrx.
  pose proof (rstrip_normalized left) as Sl. pose proof (rstrip_normalized right) as Sr.
  set (l := normalize_owned_path left) in *. set (r := normalize_owned_path right) in *.
  unfold overlap_test.
  destruct (first_wild l) as [p|] eqn:Wl, (first_wild r) as [q|] eqn:Wr.
  - pose proof (owns_wild l p x Sl Wl Hlx). pose proof (owns_wild r q x Sr Wr Hrx).
    assert (wildcard_prefixes_overlap p q = true) as ->; [|by rewrite orb_true_r].
    unfold wildcard_prefixes_overlap.
    destruct (prefixes_comparable p q x) as [-> | ->]; try done; rewrite ?orb_true_r; by case_goal.
  - apply first_wild_none in Wr.
    rewrite (wild_meets_literal p r x); eauto using owns_wild, owns_literal.
    by rewrite ?orb_true_r.
  - apply first_wild_none in Wl.
    rewrite (wild_meets_literal q l x); eauto using owns_wild, owns_literal.
    by rewrite ?orb_true_r.
  - apply first_wild_none in Wl, Wr. rewrite !orb_false_r.
    unfold literal_paths_overlap, is_descendant. rewrite Sl, Sr.
    destruct (prefixes_comparable (l +:+ "/") (r +:+ "/") (x +:+ "/")) as [H|H];
      eauto using owns_literal; apply starts_with_slash in H as [->|H];
      rewrite ?eqb_refl, ?H, ?orb_true_r; done.
Qed.

(** ** Properties *)

(** No conflict is missed: whenever some file is owned by both of two
    declared paths (as the path itself, below it, or through its glob), the
    overlap test reports the pair, and it reports it in either order. *)
Theorem no_missed_conflict (left right x : string) :
  normalize_owned_path left <> "" -> normalize_owned_path right <> "" ->
  owns (normalize_owned_path left) x = true -> owns (normalize_owned_path right) x = true ->
  owned_paths_overlap left right = true /\ owned_paths_overlap right left = true.
Proof.
  intros Hl Hr Hlx Hrx. rewrite !overlap_spec. cbv zeta.
  rewrite (overlap_test_comm (normalize_owned_path right)), (common_file_overlap left right x) by done.
  by rewrite (proj2 (eqb_false _ _) Hl), (proj2 (eqb_false _ _) Hr).
Qed.

Lemma no_missed_conflict_witness :
  owned_paths_overlap "src/*/model.py" "./src/db//" = true.
Proof.
  refine (proj1 (no_missed_conflict "src/*/model.py" "./src/db//" "src/db/model.py" _ _ _ _));
    first [discriminate | vm_compute; reflexivity].
Defined.

(** The reported reason is the truth about the two paths: an exact match is
    reported exactly for equal normalised paths, an ancestor match exactly when
    one strictly contains the other, and otherwise one of them is a pattern. *)
Theorem overlap_reason (left right : string) (m : OwnedPathOverlapMatch) :
  owned_path_overlap_match left right = Some m ->
  let l := normalize_owned_path left in
  let r := normalize_owned_path right in
  left_path m = left /\ right_path m = right /\
  normalized_left_path m = l /\ normalized_right_path m = r /\
  (match_reason_code m = OWNED_PATH_EXACT_MATCH_REASON <-> l = r) /\
  (match_reason_code m = OWNED_PATH_ANCESTOR_MATCH_REASON <->
     l <> r /\ (is_descendant l r = true \/ is_descendant r l = true)) /\
  (match_reason_code m = OWNED_PATH_WILDCARD_MATCH_REASON ->
     has_wildcard l = true \/ has_wildcard r = true).
Proof.
  unfold owned_path_overlap_match. cbv zeta.
  set (l := normalize_owned_path left). set (r := normalize_owned_path right).
  rewrite !wildcard_prefix_first_wild.
  assert (Hwild : forall p q, first_wild p = Some q -> has_wildcard p = true).
  { intros p q Hp. destruct (has_wildcard p) eqn:E; [done|]. apply first_wild_none in E. congruence. }
  destruct (eqb l "" || eqb r ""); [done|].
  destruct (eqb l r) eqn:E; [rewrite eqb_true in E|apply eqb_false in E].
  - intros [= <-]. simpl. split_and!; try done. split; [done|]. by intros [? _].
  - destruct (literal_paths_overlap l r) eqn:Ho.
    + destruct (if is_descendant l r then _ else _) as [a d]. intros [= <-]. simpl. split_and!; try done.
      split; [|done]. intros _. split; [done|]. unfold literal_paths_overlap in Ho.
      rewrite (proj2 (eqb_false l r) E) in Ho. by apply orb_true_iff in Ho.
    + unfold literal_paths_overlap in Ho. rewrite !orb_false_iff in Ho. destruct Ho as [[_ H1] H2].
      destruct (_ || _) eqn:Eo; [|done]. intros [= <-]. simpl. rewrite H1, H2.
      split_and!; try done; [split; [done|by intros [_ [?|?]]]|]. intros _.
      destruct (first_wild l) as [p|] eqn:Wl; [left; by eapply Hwild|].
      destruct (first_wild r) as [q|] eqn:Wr; [right; by eapply Hwild|]. done.
Qed.

Lemma overlap_reason_witness :
  exists m, owned_path_overlap_match "a/b" "a" = Some m /\
    match_reason_code m = OWNED_PATH_ANCESTOR_MATCH_REASON.
Proof.
  destruct (owned_path_overlap_match "a/b" "a") as [m|] eqn:E; [|by vm_compute in E].
  exists m. split; [reflexivity|].
  refine (proj2 (proj1 (proj2 (proj2 (proj2 (proj2 (proj2 (overlap_reason "a/b" "a" m E))))))) _).
  split; [discriminate|]. right. vm_compute. reflexivity.
Defined.

(** ** Normalising twice *)

Lemma fold_push_clean (l acc : list string) :
  Forall clean l -> fold_left push_segment l acc = acc ++ l.
Proof.
  intros Hl. revert acc. induction Hl as [|w l Hw Hl IH]; intros acc; simpl; [by rewrite app_nil_r|].
  rewrite IH. unfold push_segment. destruct Hw as [H1 H2 H3 _ _].
  assert (mem w [""; "."] = false) as ->
    by (apply mem_false; rewrite !not_elem_of_cons; split_and!; try done; apply not_elem_of_nil).
  rewrite (proj2 (eqb_false w "..") H3). by rewrite <- app_assoc.
Qed.

Lemma backslash_to_slash_id (s : string) : has_char backslash s = false -> backslash_to_slash s = s.
Proof.
  unfold backslash_to_slash. induction s as [|c s IH]; simpl; [done|].
  intros [Hc Hs]%orb_false_iff. by rewrite Hc, IH.
Qed.

Lemma has_char_app (c : ascii) (s t : string) : has_char c (s +:+ t) = has_char c s || has_char c t.
Proof. induction s as [|a s IH]; simpl; [done|]. by rewrite IH, orb_assoc. Qed.

Lemma join_no_backslash (l : list string) :
  Forall clean l -> has_char backslash (join "/" l) = false.
Proof.
  induction 1 as [|w l Hw Hl IH]; [done|]. apply clean_backslash in Hw. destruct l as [|v l]; [done|].
  change (join "/" (w :: v :: l)) with (w +:+ "/" +:+ join "/" (v :: l)).
  by rewrite !has_char_app, Hw, IH.
Qed.

(** The segments of a normalised path that stripping leaves alone. *)
Lemma segments_of_clean (l : list string) :
  Forall clean l -> strip (join "/" l) = join "/" l -> path_segments (join "/" l) = l.
Proof.
  intros Hl Hs. unfold path_segments. rewrite Hs, backslash_to_slash_id by by apply join_no_backslash.
  destruct l as [|w l]; [done|].
  change "/"%string with (String slash ""). rewrite split_join; [by rewrite fold_push_clean|done|].
  intros v Hv. rewrite Forall_forall in Hl. apply clean_slash, Hl, Hv.
Qed.

(** *** Lengths *)

Definition weight (l : list string) : nat := list_sum (map (fun w => S (str_len w)) l).

Lemma push_weight (l : list string) (w : string) :
  (weight (push_segment l w) <= weight l + S (str_len w))%nat.
Proof.
  unfold push_segment, weight. destruct (mem _ _); [lia|]. destruct (eqb _ _).
  - assert (forall l, (list_sum (map (fun w => S (str_len w)) (removelast l)) <=
      list_sum (map (fun w => S (str_len w)) l))%nat).
    { clear. induction l as [|a l IH]; simpl; [done|]. destruct l; simpl in *; lia. }
    specialize (H l). lia.
  - rewrite map_app, list_sum_app. simpl. lia.
Qed.

Lemma fold_push_weight (ws acc : list string) :
  (weight (fold_left push_segment ws acc) <= weight acc + weight ws)%nat.
Proof.
  revert acc. induction ws as [|w ws IH]; intros acc; simpl; [lia|].
  pose proof (IH (push_segment acc w)). pose proof (push_weight acc w). unfold weight in *. simpl in *. lia.
Qed.

Lemma split_weight (c : ascii) (s : string) : weight (split_on c s) = S (str_len s).
Proof.
  unfold weight. induction s as [|a s IH]; simpl; [done|].
  pose proof (split_on_nonempty c s). destruct (Ascii.eqb a c); simpl; [by rewrite IH|].
  destruct (split_on c s); simpl in *; [done|]. unfold str_len in *. simpl. lia.
Qed.

Lemma join_len (l : list string) : (str_len (join "/" l) <= weight l - 1)%nat.
Proof.
  induction l as [|w l IH]; [done|]. destruct l as [|v l].
  - unfold weight. simpl. lia.
  - change (join "/" (w :: v :: l)) with (w +:+ "/" +:+ join "/" (v :: l)).
    rewrite !str_len_app. unfold weight in *. simpl in *. lia.
Qed.

Lemma map_char_len (f : ascii -> ascii) (s : string) : str_len (map_char f s) = str_len s.
Proof. unfold str_len. induction s as [|c s IH]; simpl; [done|]. by f_equal. Qed.

(** Normalising never lengthens the stripped text. *)
Lemma normalize_len (path : string) : (str_len (normalize_owned_path path) <= str_len (strip path))%nat.
Proof.
  unfold normalize_owned_path, path_segments.
  pose proof (join_len (fold_left push_segment (split_on slash (backslash_to_slash (strip path))) [])).
  pose proof (fold_push_weight (split_on slash (backslash_to_slash (strip path))) []) as Hf.
  rewrite split_weight in Hf. unfold backslash_to_slash in *. rewrite map_char_len in Hf.
  unfold weight in *. simpl in *. lia.
Qed.

Lemma lstrip_len (s : string) : lstrip s = s \/ (str_len (lstrip s) < str_len s)%nat.
Proof.
  unfold str_len. induction s as [|c s IH]; simpl; [by left|].
  destruct (is_space c); [|by left]. right. destruct IH as [->|]; lia.
Qed.

Lemma rstrip_len (s : string) : rstrip s = s \/ (str_len (rstrip s) < str_len s)%nat.
Proof.
  unfold rstrip, str_len. induction s as [|c s IH]; simpl; [by left|].
  destruct (rstrip_by is_space s) as [|d t] eqn:E; simpl in *.
  - destruct IH as [<-|IH]; [destruct (is_space c); simpl; auto with lia|].
    destruct (is_space c); simpl; right; lia.
  - destruct IH as [<-|IH]; [by left|]. right. lia.
Qed.

Lemma strip_len (s : string) : strip s = s \/ (str_len (strip s) < str_len s)%nat.
Proof.
  unfold strip. destruct (lstrip_len s) as [->|Hl]; [apply rstrip_len|].
  destruct (rstrip_len (lstrip s)) as [->|Hr]; right; lia.
Qed.

(** A normalised path is a sequence of segments, none of them empty, a dot, a
    double dot or containing a slash or a backslash; and normalising it again
    gives the same path exactly when it neither begins nor ends with white space. *)
Theorem normalize_shape (path : string) :
  (exists l, Forall clean l /\ normalize_owned_path path = join "/" l) /\
  (normalize_owned_path (normalize_owned_path path) = normalize_owned_path path <->
   strip (normalize_owned_path path) = normalize_owned_path path).
Proof.
  pose proof (path_segments_clean path) as Hc. split; [eauto|].
  change (normalize_owned_path path) with (join "/" (path_segments path)).
  set (l := path_segments path) in *. split.
  - intros H. destruct (strip_len (join "/" l)) as [|Hlt]; [done|].
    pose proof (normalize_len (join "/" l)). rewrite H in *. lia.
  - intros H. unfold normalize_owned_path. by rewrite segments_of_clean.
Qed.
