(* ===== verification/OwnedPathConflicts.v ===== *)
(** * Active owned-path conflicts

    [find_active_owned_path_overlaps] and [find_active_owned_path_conflicts] of
    [db/repositories/workspace_repo_host_ports.py]: the check made before a
    workspace is created or retried. *)

From S2P Require Import Prelude PyStr Json Status OwnedPaths OwnedPathsFacts.
#[local] Open Scope Z_scope.

Definition ACTIVE_OWNED_PATH_OVERLAP_STATUSES : list string :=
  map status_value
    [requested; provisioning; ready; running; validating; pushing; monitoring_pr; blocked;
     recovering].

(** The columns of a workspace row the check reads. *)
Record OwnedRow : Type := {
  ow_id : string;
  ow_status : string;
  ow_repo_url : string;
  ow_branch_base : string;
  ow_created_at : Z;
  ow_owned_paths : list string;
  ow_resolved_profile : json
}.

Record OwnedPathOverlap : Type := {
  oo_workspace_id : string;
  oo_existing_path : string;
  oo_requested_path : string
}.

(** The owned paths of a row that take part in conflicts. *)
Definition effective_paths (owned : list string) (profile : json) (workspace_id : option string)
  : list string :=
  interworkspace_owned_paths owned
    (internal_plan_artifact_owned_paths_from_profile profile workspace_id).

(** [order_by(created_at.asc(), id.asc())] *)
Definition oldest_first (x y : OwnedRow) : bool :=
  (ow_created_at x <? ow_created_at y)
  || ((ow_created_at x =? ow_created_at y) && str_leb (ow_id x) (ow_id y)).

Definition find_active_owned_path_overlaps (table : list OwnedRow) (repo_url branch_base : string)
    (owned_paths : list string) (resolved_profile : json) (workspace_id : option string)
  : list OwnedPathOverlap :=
  let requested_paths := effective_paths owned_paths resolved_profile workspace_id in
  match requested_paths with
  | [] => []
  | _ :: _ =>
      let rows := sorted_by oldest_first
        (List.filter (fun w => eqb (ow_repo_url w) repo_url && eqb (ow_branch_base w) branch_base
                               && mem (ow_status w) ACTIVE_OWNED_PATH_OVERLAP_STATUSES) table) in
      flat_map (fun w =>
        flat_map (fun existing =>
          flat_map (fun requested =>
            if owned_paths_overlap existing requested
            then [{| oo_workspace_id := ow_id w; oo_existing_path := existing;
                     oo_requested_path := requested |}] else []) requested_paths)
          (effective_paths (ow_owned_paths w) (ow_resolved_profile w) (Some (ow_id w)))) rows
  end.

(** ** Which paths take part *)

Lemma interworkspace_from_sublist (internal seen paths : list string) :
  (interworkspace_from internal seen paths) `sublist_of` paths.
Proof.
  revert seen. induction paths as [|p paths IH]; intros seen; simpl; [constructor|].
  destruct (_ || _); [by apply sublist_cons|].
  destruct (mem _ _); [by apply sublist_cons|]. by apply sublist_skip.
Qed.

Lemma interworkspace_from_spec (internal seen paths : list string) (n : string) :
  n ∈ map normalize_owned_path (interworkspace_from internal seen paths) <->
  (n ∉ seen) /\ n <> "" /\ is_internal_plan_artifact_normalized n internal = false /\
  exists p, p ∈ paths /\ normalize_owned_path p = n.
Proof.
  revert seen. induction paths as [|p paths IH]; intros seen; simpl.
  - split; [by intros ?%elem_of_nil|]. by intros (_ & _ & _ & p & ?%elem_of_nil & _).
  - set (m := normalize_owned_path p).
    assert (Hp : (exists q, q ∈ p :: paths /\ normalize_owned_path q = n) <->
                 m = n \/ exists q, q ∈ paths /\ normalize_owned_path q = n).
    { setoid_rewrite elem_of_cons. split.
      - intros (q & [->|Hq] & Hn); eauto.
      - intros [Hn|(q & Hq & Hn)]; eauto. }
    destruct (eqb m "" || is_internal_plan_artifact_normalized m internal) eqn:E.
    + rewrite IH, Hp. split; [tauto|]. intros (Hs & Hn & Hi & [<-|Hq]); [|tauto].
      rewrite Hi, (proj2 (eqb_false m "") Hn) in E. done.
    + apply orb_false_iff in E as [E1 E2]. apply eqb_false in E1.
      destruct (mem m seen) eqn:Em; [rewrite mem_true in Em|apply mem_false in Em].
      * rewrite IH, Hp. split; [tauto|]. intros (Hs & Hn & Hi & [<-|Hq]); tauto.
      * cbn [map]. fold m. rewrite elem_of_cons, IH, Hp, not_elem_of_cons.
        destruct (base.decide (m = n)) as [<-|Hne]; [tauto|].
        split; [intros [Hn|H]; [by destruct Hne|tauto]|].
        intros (Hs & Hn & Hi & [Hm|Hq]); [done|]. right. split_and!; done.
Qed.

Lemma interworkspace_from_NoDup (internal seen paths : list string) :
  NoDup (map normalize_owned_path (interworkspace_from internal seen paths)).
Proof.
  revert seen. induction paths as [|p paths IH]; intros seen; simpl; [constructor|].
  destruct (_ || _); [apply IH|]. destruct (mem _ _); [apply IH|]. cbn [map].
  constructor; [|apply IH]. rewrite interworkspace_from_spec. intros [Hn _]. apply Hn. by left.
Qed.

(** A path takes part unless it is empty or a generated artifact. *)
Definition takes_part (path : string) (artifact_paths : list string) : Prop :=
  normalize_owned_path path <> "" /\ is_internal_plan_artifact_owned_path path artifact_paths = false.

Lemma effective_paths_spec (paths artifact_paths : list string) (n : string) :
  n ∈ map normalize_owned_path (interworkspace_owned_paths paths artifact_paths) <->
  exists p, p ∈ paths /\ normalize_owned_path p = n /\ takes_part p artifact_paths.
Proof.
  unfold interworkspace_owned_paths, takes_part, is_internal_plan_artifact_owned_path.
  rewrite interworkspace_from_spec. split.
  - intros (_ & Hn & Hi & p & Hp & <-). eauto.
  - intros (p & Hp & <- & Hn & Hi). split_and!; [apply not_elem_of_nil|done|done|eauto].
Qed.

(** ** Properties *)

(** The paths that take part in conflicts are a sublist of the declared ones,
    one for each normalised path that is neither empty nor a generated artifact. *)
Theorem interworkspace_owned_paths_exact (paths artifact_paths : list string) :
  let kept := interworkspace_owned_paths paths artifact_paths in
  kept `sublist_of` paths /\ NoDup (map normalize_owned_path kept) /\
  (forall n, n ∈ map normalize_owned_path kept <->
     exists p, p ∈ paths /\ normalize_owned_path p = n /\ takes_part p artifact_paths).
Proof.
  cbv zeta. split_and!.
  - apply interworkspace_from_sublist.
  - apply interworkspace_from_NoDup.
  - intros n. apply effective_paths_spec.
Qed.

Lemma overlaps_elem (table : list OwnedRow) (repo base : string) (owned : list string)
    (profile : json) (id : option string) (o : OwnedPathOverlap) :
  o ∈ find_active_owned_path_overlaps table repo base owned profile id <->
  exists w, w ∈ table /\ ow_repo_url w = repo /\ ow_branch_base w = base /\
    ow_status w ∈ ACTIVE_OWNED_PATH_OVERLAP_STATUSES /\ oo_workspace_id o = ow_id w /\
    oo_existing_path o ∈ effective_paths (ow_owned_paths w) (ow_resolved_profile w) (Some (ow_id w)) /\
    oo_requested_path o ∈ effective_paths owned profile id /\
    owned_paths_overlap (oo_existing_path o) (oo_requested_path o) = true.
Proof.
  unfold find_active_owned_path_overlaps.
  destruct (effective_paths owned profile id) as [|r rs].
  { split; [by intros ?%elem_of_nil|]. by intros (w & _ & _ & _ & _ & _ & _ & ?%elem_of_nil & _). }
  rewrite list_elem_of_In, in_flat_map. setoid_rewrite <- list_elem_of_In at 1.
  setoid_rewrite elem_of_sorted_by. setoid_rewrite elem_of_bfilter.
  setoid_rewrite andb_true_iff. setoid_rewrite andb_true_iff. setoid_rewrite mem_true.
  setoid_rewrite eqb_true. split.
  - intros (w & [[[Hr Hb] Hs] Hw] & (e & He & (q & Hq & Ho)%in_flat_map)%in_flat_map).
    destruct (owned_paths_overlap e q) eqn:E; [|done]. destruct Ho as [<-|[]].
    exists w. simpl. split_and!; try done; by apply list_elem_of_In.
  - intros (w & Hw & Hr & Hb & Hs & Hid & He & Hq & Ho). exists w. split; [done|].
    apply in_flat_map. exists (oo_existing_path o). split; [by apply list_elem_of_In|].
    apply in_flat_map. exists (oo_requested_path o). split; [by apply list_elem_of_In|].
    rewrite Ho. left. destruct o; simpl in *. by rewrite Hid.
Qed.

(** Creating or retrying a workspace never misses a live conflict: when an
    existing workspace of the same repository and base branch is not finished, and
    one of its declared paths and one of the requested paths can own a common
    file, that workspace is reported; and only such statuses are. *)
Theorem live_conflict_reported (table : list OwnedRow) (repo base : string) (owned : list string)
    (profile : json) (id : option string) (w : OwnedRow) (s : WorkspaceStatus)
    (existing requested x : string) :
  w ∈ table -> ow_repo_url w = repo -> ow_branch_base w = base ->
  ow_status w = status_value s -> is_callback_terminal s = false ->
  existing ∈ ow_owned_paths w ->
  takes_part existing (internal_plan_artifact_owned_paths_from_profile (ow_resolved_profile w)
                         (Some (ow_id w))) ->
  requested ∈ owned ->
  takes_part requested (internal_plan_artifact_owned_paths_from_profile profile id) ->
  owns (normalize_owned_path existing) x = true -> owns (normalize_owned_path requested) x = true ->
  (exists o, o ∈ find_active_owned_path_overlaps table repo base owned profile id /\
     oo_workspace_id o = ow_id w /\
     normalize_owned_path (oo_existing_path o) = normalize_owned_path existing /\
     normalize_owned_path (oo_requested_path o) = normalize_owned_path requested) /\
  (forall o, o ∈ find_active_owned_path_overlaps table repo base owned profile id ->
     exists w' s', w' ∈ table /\ oo_workspace_id o = ow_id w' /\ ow_status w' = status_value s' /\
                   is_callback_terminal s' = false).
Proof.
  intros Hw Hr Hb Hst Hs He Hte Hq Htq Hex Hqx.
  assert (Hact : forall s, mem (status_value s) ACTIVE_OWNED_PATH_OVERLAP_STATUSES
                           = negb (is_callback_terminal s)) by (intros []; vm_compute; reflexivity).
  split.
  - assert (Hrep : forall paths arts p, p ∈ paths -> takes_part p arts ->
      exists p', p' ∈ interworkspace_owned_paths paths arts /\
                 normalize_owned_path p' = normalize_owned_path p).
    { intros paths arts p Hp Ht.
      assert (Hin : normalize_owned_path p ∈ map normalize_owned_path (interworkspace_owned_paths paths arts))
        by (apply effective_paths_spec; eauto).
      apply list_elem_of_fmap in Hin as (p' & Hn & Hp'). eauto. }
    destruct (Hrep _ _ _ He Hte) as (e' & He' & Hne). destruct (Hrep _ _ _ Hq Htq) as (q' & Hq' & Hnq).
    exists {| oo_workspace_id := ow_id w; oo_existing_path := e'; oo_requested_path := q' |}.
    split; [|by split_and!]. apply overlaps_elem. exists w. simpl. split_and!; try done.
    + rewrite Hst. apply mem_true. by rewrite Hact, Hs.
    + rewrite overlap_spec. cbv zeta. rewrite Hne, Hnq. destruct Hte as [H1 _], Htq as [H2 _].
      by rewrite (proj2 (eqb_false _ _) H1), (proj2 (eqb_false _ _) H2), (common_file_overlap _ _ x).
  - intros o (w' & Hw' & _ & _ & Hs' & Hid & _)%overlaps_elem.
    pose proof Hs' as Hs''. apply list_elem_of_fmap in Hs'' as (s' & Hv & _).
    exists w', s'. split_and!; try done. rewrite Hv in Hs'. apply mem_true in Hs'.
    rewrite Hact in Hs'. by apply negb_true_iff in Hs'.
Qed.

Lemma live_conflict_reported_witness :
  exists o, o ∈ find_active_owned_path_overlaps
      [{| ow_id := "w1"; ow_status := "blocked"; ow_repo_url := "r"; ow_branch_base := "main";
          ow_created_at := 3; ow_owned_paths := ["src/db/**"]; ow_resolved_profile := JNull |}]
      "r" "main" ["docs"; "src/db/models.py"] JNull None /\ oo_workspace_id o = "w1".
Proof.
  destruct (live_conflict_reported
    [{| ow_id := "w1"; ow_status := "blocked"; ow_repo_url := "r"; ow_branch_base := "main";
        ow_created_at := 3; ow_owned_paths := ["src/db/**"]; ow_resolved_profile := JNull |}]
    "r" "main" ["docs"; "src/db/models.py"] JNull None
    {| ow_id := "w1"; ow_status := "blocked"; ow_repo_url := "r"; ow_branch_base := "main";
       ow_created_at := 3; ow_owned_paths := ["src/db/**"]; ow_resolved_profile := JNull |}
    blocked "src/db/**" "src/db/models.py" "src/db/models.py") as [(o & Ho & Hid & _) _];
    try (vm_compute; reflexivity).
  - by left.
  - by left.
  - split; [discriminate|vm_compute; reflexivity].
  - by right; left.
  - split; [discriminate|vm_compute; reflexivity].
  - exists o. split; [exact Ho|exact Hid].
Defined.
