(* ===== verification/OverlapGraph.v ===== *)
(** * The advisory overlap graph

    [service/overlap_graph.py]: the active workspaces of a page and the pairs of them
    that may own a common file.  Nothing is blocked by it. *)

From S2P Require Import Prelude PyStr Json Status OwnedPaths OwnedPathsFacts.
From S2P Require Import OwnedPathConflicts.
#[local] Open Scope Z_scope.

Inductive OverlapGraphQueueState : Type := filter_queued | filter_running | filter_all.
Inductive NodeQueueState : Type := node_queued | node_running.

#[export] Instance NodeQueueState_eq_dec : EqDecision NodeQueueState.
Proof. solve_decision. Defined.

Definition OVERLAP_GRAPH_REASON_CODE : string := "OWNED_PATH_OVERLAP_RISK".
Definition OVERLAP_GRAPH_SEVERITY : string := "advisory".
Definition OVERLAP_GRAPH_PATH_MATCH_LIMIT : nat := 8.

Definition QUEUED_WORKSPACE_STATUSES : list string := map status_value [requested; ready].
Definition RUNNING_WORKSPACE_STATUSES : list string :=
  map status_value [provisioning; running; validating; pushing; monitoring_pr; blocked; recovering].
Definition ACTIVE_OVERLAP_GRAPH_STATUSES : list string :=
  QUEUED_WORKSPACE_STATUSES ++ RUNNING_WORKSPACE_STATUSES.

(** The columns of a workspace row the graph reads: those of the conflict check and four
    more. *)
Record GraphRow : Type := {
  gr_owned : OwnedRow;
  gr_title : string;
  gr_task_class : option string;
  gr_updated_at : Z
}.

Definition gr_id (r : GraphRow) : string := ow_id (gr_owned r).

Record GraphWorkspace : Type := {
  gw_workspace_id : string;
  gw_title : string;
  gw_status : string;
  gw_queue_state : NodeQueueState;
  gw_repo_url : string;
  gw_branch_base : string;
  gw_task_class : option string;
  gw_owned_paths : list string;
  gw_internal_plan_artifact_paths : list string;
  gw_created_at : Z;
  gw_updated_at : Z
}.

Record WorkspaceOverlapNode : Type := {
  on_workspace_id : string;
  on_title : string;
  on_status : string;
  on_queue_state : NodeQueueState;
  on_repo_url : string;
  on_branch_base : string;
  on_task_class : option string;
  on_owned_paths : list string;
  on_created_at : Z;
  on_updated_at : Z
}.

Record WorkspaceOverlapPathMatch : Type := {
  pm_left_workspace_id : string;
  pm_left_owned_path : string;
  pm_right_workspace_id : string;
  pm_right_owned_path : string;
  pm_match_reason_code : string;
  pm_explanation : string
}.

Record WorkspaceOverlapEdge : Type := {
  oe_left_workspace_id : string;
  oe_right_workspace_id : string;
  oe_repo_url : string;
  oe_branch_base : string;
  oe_reason_code : string;
  oe_severity : string;
  oe_blocks_launch : bool;
  oe_affected_workspace_ids : string * string;
  oe_path_match_count : nat;
  oe_path_matches_truncated : bool;
  oe_path_matches : list WorkspaceOverlapPathMatch
}.

Record WorkspaceOverlapGraphSummary : Type := {
  gs_node_count : nat;
  gs_queued_count : nat;
  gs_running_count : nat;
  gs_edge_count : nat;
  gs_affected_workspace_count : nat;
  gs_has_more : bool
}.

Record WorkspaceOverlapGraph : Type := {
  og_nodes : list WorkspaceOverlapNode;
  og_edges : list WorkspaceOverlapEdge;
  og_summary : WorkspaceOverlapGraphSummary
}.

(** Python's order on tuples of strings. *)
Fixpoint strs_leb (x y : list string) : bool :=
  match x, y with
  | [], _ => true
  | _ :: _, [] => false
  | a :: x', b :: y' => str_ltb a b || (eqb a b && strs_leb x' y')
  end.

(** ** Matches and edges *)

Definition counted_paths (w : GraphWorkspace) : list string :=
  sorted_by str_leb
    (interworkspace_owned_paths (gw_owned_paths w) (gw_internal_plan_artifact_paths w)).

Definition path_match (left right : GraphWorkspace) (l r : string)
  : option WorkspaceOverlapPathMatch :=
  match owned_path_overlap_match l r with
  | Some overlap =>
      Some {| pm_left_workspace_id := gw_workspace_id left; pm_left_owned_path := l;
              pm_right_workspace_id := gw_workspace_id right; pm_right_owned_path := r;
              pm_match_reason_code := match_reason_code overlap;
              pm_explanation := explanation overlap |}
  | None => None
  end.

Definition match_key (m : WorkspaceOverlapPathMatch) : list string :=
  [pm_left_owned_path m; pm_right_owned_path m; pm_match_reason_code m].

(** [_workspace_overlap_path_matches]: the kept matches and the total count. *)
Definition workspace_overlap_path_matches (left right : GraphWorkspace)
  : list WorkspaceOverlapPathMatch * nat :=
  let found :=
    flat_map (fun l => omap (path_match left right l) (counted_paths right)) (counted_paths left) in
  (sorted_by (fun x y => strs_leb (match_key x) (match_key y))
     (take OVERLAP_GRAPH_PATH_MATCH_LIMIT found), length found).

Definition workspace_overlap_edge (left right : GraphWorkspace) : option WorkspaceOverlapEdge :=
  let '(matches, total_count) := workspace_overlap_path_matches left right in
  if (total_count =? 0)%nat then None
  else Some {| oe_left_workspace_id := gw_workspace_id left;
               oe_right_workspace_id := gw_workspace_id right;
               oe_repo_url := gw_repo_url left; oe_branch_base := gw_branch_base left;
               oe_reason_code := OVERLAP_GRAPH_REASON_CODE; oe_severity := OVERLAP_GRAPH_SEVERITY;
               oe_blocks_launch := false;
               oe_affected_workspace_ids := (gw_workspace_id left, gw_workspace_id right);
               oe_path_match_count := total_count;
               oe_path_matches_truncated := (length matches <? total_count)%nat;
               oe_path_matches := matches |}.

(** The loops over a workspace and those after it. *)
Fixpoint group_edges (group : list GraphWorkspace) : list WorkspaceOverlapEdge :=
  match group with
  | [] => []
  | w :: rest => omap (workspace_overlap_edge w) rest ++ group_edges rest
  end.

Definition group_key (w : GraphWorkspace) : string * string := (gw_repo_url w, gw_branch_base w).
Definition group_key_leb (x y : string * string) : bool := strs_leb [x.1; x.2] [y.1; y.2].
Definition id_leb (x y : GraphWorkspace) : bool := str_leb (gw_workspace_id x) (gw_workspace_id y).

Definition edge_key (e : WorkspaceOverlapEdge) : list string :=
  [oe_repo_url e; oe_branch_base e; (oe_affected_workspace_ids e).1;
   (oe_affected_workspace_ids e).2].

Definition workspace_overlap_edges (workspaces : list GraphWorkspace) : list WorkspaceOverlapEdge :=
  if (length workspaces <? 2)%nat then []
  else
    let groups := group_by group_key workspaces in
    sorted_by (fun x y => strs_leb (edge_key x) (edge_key y))
      (flat_map (fun key => group_edges (sorted_by id_leb (default [] (groups !! key))))
         (sorted_by group_key_leb (fromkeys (map group_key workspaces)))).

(** ** The graph *)

Definition queue_state_for_status (status : string) : option NodeQueueState :=
  if mem status QUEUED_WORKSPACE_STATUSES then Some node_queued
  else if mem status RUNNING_WORKSPACE_STATUSES then Some node_running
  else None.

Definition status_values_for_queue_state (queue_state : OverlapGraphQueueState) : list string :=
  match queue_state with
  | filter_queued => QUEUED_WORKSPACE_STATUSES
  | filter_running => RUNNING_WORKSPACE_STATUSES
  | filter_all => ACTIVE_OVERLAP_GRAPH_STATUSES
  end.

(** The value error of a status outside the graph is [None]. *)
Definition graph_workspace (r : GraphRow) : option GraphWorkspace :=
  let w := gr_owned r in
  match queue_state_for_status (ow_status w) with
  | None => None
  | Some queue_state =>
      Some {| gw_workspace_id := ow_id w; gw_title := gr_title r; gw_status := ow_status w;
              gw_queue_state := queue_state; gw_repo_url := ow_repo_url w;
              gw_branch_base := ow_branch_base w; gw_task_class := gr_task_class r;
              gw_owned_paths := ow_owned_paths w;
              gw_internal_plan_artifact_paths :=
                internal_plan_artifact_owned_paths_from_profile (ow_resolved_profile w)
                  (Some (ow_id w));
              gw_created_at := ow_created_at w; gw_updated_at := gr_updated_at r |}
  end.

Definition node_from_workspace (w : GraphWorkspace) : WorkspaceOverlapNode :=
  {| on_workspace_id := gw_workspace_id w; on_title := gw_title w; on_status := gw_status w;
     on_queue_state := gw_queue_state w; on_repo_url := gw_repo_url w;
     on_branch_base := gw_branch_base w; on_task_class := gw_task_class w;
     on_owned_paths := gw_owned_paths w; on_created_at := gw_created_at w;
     on_updated_at := gw_updated_at w |}.

Definition graph_summary (nodes : list WorkspaceOverlapNode) (edges : list WorkspaceOverlapEdge)
    (has_more : bool) : WorkspaceOverlapGraphSummary :=
  {| gs_node_count := length nodes;
     gs_queued_count := length (List.filter (fun n => eqb (on_queue_state n) node_queued) nodes);
     gs_running_count := length (List.filter (fun n => eqb (on_queue_state n) node_running) nodes);
     gs_edge_count := length edges;
     gs_affected_workspace_count :=
       length (fromkeys (flat_map (fun e => [(oe_affected_workspace_ids e).1;
                                             (oe_affected_workspace_ids e).2]) edges));
     gs_has_more := has_more |}.

(** [order_by(created_at.desc(), id.desc())] *)
Definition newest_first (x y : GraphRow) : bool := oldest_first (gr_owned y) (gr_owned x).

(** [column == value], when the filter is given; NULL equals nothing. *)
Definition column_is (value : option string) (filter : option string) : bool :=
  match filter with None => true | Some v => eqb value (Some v) end.

Definition graph_rows (table : list GraphRow) (repo_url base_branch task_class : option string)
    (queue_state : OverlapGraphQueueState) : list GraphRow :=
  sorted_by newest_first
    (List.filter (fun r =>
       mem (ow_status (gr_owned r)) (status_values_for_queue_state queue_state)
       && column_is (Some (ow_repo_url (gr_owned r))) repo_url
       && column_is (Some (ow_branch_base (gr_owned r))) base_branch
       && column_is (gr_task_class r) task_class) table).

Definition build_workspace_overlap_graph (table : list GraphRow)
    (repo_url base_branch task_class : option string) (queue_state : OverlapGraphQueueState)
    (limit : nat) : option WorkspaceOverlapGraph :=
  let rows := take (S limit) (graph_rows table repo_url base_branch task_class queue_state) in
  workspaces ← mapM graph_workspace (take limit rows);
  let nodes := map node_from_workspace workspaces in
  let edges := workspace_overlap_edges workspaces in
  Some {| og_nodes := nodes; og_edges := edges;
          og_summary := graph_summary nodes edges (limit <? length rows)%nat |}.

(** ** The overlap graph is well formed and complete

    Its edges are the pairs of nodes of one repository and base branch that the
    conflict check of [OwnedPathConflicts] would report. *)

(** ** The order of tuples *)

Lemma strs_leb_total (x y : list string) : strs_leb x y = true \/ strs_leb y x = true.
Proof.
  revert y. induction x as [|a x IH]; intros [|b y]; simpl; auto.
  destruct (base.decide (a = b)) as [<-|Hne].
  - rewrite !eqb_refl. destruct (IH y) as [-> | ->]; rewrite orb_true_r; auto.
  - destruct (str_leb_total a b) as [H|H].
    + left. by rewrite (proj2 (str_ltb_leb a b)).
    + right. by rewrite (proj2 (str_ltb_leb b a)).
Qed.

Lemma strs_leb_cons (a b : string) (x y : list string) :
  strs_leb (a :: x) (b :: y) = true <->
  str_leb a b = true /\ (a = b -> strs_leb x y = true).
Proof.
  simpl. rewrite orb_true_iff, andb_true_iff, str_ltb_leb, eqb_true. split.
  - intros [[H Hne]|[-> H]]; [done|]. split; [|done]. by destruct (str_leb_total b b).
  - intros [H Hi]. destruct (base.decide (a = b)) as [->|Hne]; auto.
Qed.

Lemma strs_leb_trans (x y z : list string) :
  strs_leb x y = true -> strs_leb y z = true -> strs_leb x z = true.
Proof.
  revert y z. induction x as [|a x IH]; intros [|b y] [|c z]; try done.
  rewrite !strs_leb_cons. intros [H1 H2] [H3 H4]. split; [by eapply str_leb_trans|].
  intros <-. assert (a = b) as <- by (by apply str_leb_antisym). eauto.
Qed.

(** ** Matches and edges *)

Definition overlapping (x y : GraphWorkspace) : Prop :=
  exists p q, p ∈ counted_paths x /\ q ∈ counted_paths y /\ owned_paths_overlap p q = true.

Definition found_matches (x y : GraphWorkspace) : list WorkspaceOverlapPathMatch :=
  flat_map (fun l => omap (path_match x y l) (counted_paths y)) (counted_paths x).

Lemma elem_found (x y : GraphWorkspace) (m : WorkspaceOverlapPathMatch) :
  m ∈ found_matches x y <->
  exists p q, p ∈ counted_paths x /\ q ∈ counted_paths y /\ path_match x y p q = Some m.
Proof.
  unfold found_matches. rewrite list_elem_of_In, in_flat_map. split.
  - intros (p & Hp & Hm). apply list_elem_of_In, list_elem_of_omap in Hm as (q & Hq & Hm).
    exists p, q. split; [by apply list_elem_of_In|done].
  - intros (p & q & Hp & Hq & Hm). exists p. split; [by apply list_elem_of_In|].
    apply list_elem_of_In, list_elem_of_omap. eauto.
Qed.

Lemma path_match_overlap (x y : GraphWorkspace) (p q : string) :
  is_Some (path_match x y p q) <-> owned_paths_overlap p q = true.
Proof.
  unfold path_match, owned_paths_overlap.
  destruct (owned_path_overlap_match p q); split; first [done|by eauto|by intros [? [=]]].
Qed.

Lemma found_overlapping (x y : GraphWorkspace) : found_matches x y <> [] <-> overlapping x y.
Proof.
  split.
  - intros H. destruct (found_matches x y) as [|m l] eqn:E; [done|].
    assert (m ∈ found_matches x y) as (p & q & Hp & Hq & Hm)%elem_found by (rewrite E; left).
    exists p, q. split_and!; [done..|]. apply (path_match_overlap x y). by exists m.
  - intros (p & q & Hp & Hq & [m Hm]%(path_match_overlap x y)) E.
    assert (m ∈ found_matches x y) by (apply elem_found; eauto). rewrite E in H.
    by apply elem_of_nil in H.
Qed.

(** What an edge between two workspaces says. *)
Record edge_between (x y : GraphWorkspace) (e : WorkspaceOverlapEdge) : Prop := {
  eb_ids : oe_left_workspace_id e = gw_workspace_id x /\ oe_right_workspace_id e = gw_workspace_id y;
  eb_affected : oe_affected_workspace_ids e = (gw_workspace_id x, gw_workspace_id y);
  eb_place : (oe_repo_url e, oe_branch_base e) = group_key x;
  eb_advisory : oe_severity e = OVERLAP_GRAPH_SEVERITY /\ oe_blocks_launch e = false;
  eb_count : (0 < oe_path_match_count e)%nat /\
    length (oe_path_matches e) = Nat.min OVERLAP_GRAPH_PATH_MATCH_LIMIT (oe_path_match_count e) /\
    (oe_path_matches_truncated e = true <->
     (OVERLAP_GRAPH_PATH_MATCH_LIMIT < oe_path_match_count e)%nat);
  eb_matches : Forall (fun m => pm_left_owned_path m ∈ gw_owned_paths x /\
    pm_right_owned_path m ∈ gw_owned_paths y /\
    owned_paths_overlap (pm_left_owned_path m) (pm_right_owned_path m) = true) (oe_path_matches e)
}.

Lemma counted_declared (w : GraphWorkspace) (p : string) :
  p ∈ counted_paths w -> p ∈ gw_owned_paths w.
Proof.
  unfold counted_paths. rewrite elem_of_sorted_by.
  apply sublist_subseteq, interworkspace_from_sublist.
Qed.

Lemma edge_spec (x y : GraphWorkspace) (e : WorkspaceOverlapEdge) :
  workspace_overlap_edge x y = Some e -> edge_between x y e.
Proof.
  unfold workspace_overlap_edge, workspace_overlap_path_matches. fold (found_matches x y).
  destruct (Nat.eqb_spec (length (found_matches x y)) 0) as [|Hne]; [done|]. intros [= <-].
  assert (Hl : forall l : list WorkspaceOverlapPathMatch,
    length (sorted_by (fun x y => strs_leb (match_key x) (match_key y)) l) = length l)
    by (intros l; by rewrite (sorted_by_perm _ l)).
  constructor;
    cbn [oe_left_workspace_id oe_right_workspace_id oe_affected_workspace_ids oe_repo_url
         oe_branch_base oe_severity oe_blocks_launch oe_path_match_count oe_path_matches
         oe_path_matches_truncated]; try done.
  - rewrite Hl, length_take. split_and!; [lia|done|]. rewrite Nat.ltb_lt. lia.
  - rewrite (sorted_by_perm _ _). apply Forall_take, Forall_forall.
    intros m (p & q & Hp & Hq & Hm)%elem_found.
    assert (owned_paths_overlap p q = true) by (apply (path_match_overlap x y); by exists m).
    unfold path_match in Hm. destruct (owned_path_overlap_match p q); [|done].
    injection Hm as <-. split_and!; [by apply counted_declared..|done].
Qed.

Lemma edge_exists (x y : GraphWorkspace) :
  is_Some (workspace_overlap_edge x y) <-> overlapping x y.
Proof.
  rewrite <- found_overlapping. unfold workspace_overlap_edge, workspace_overlap_path_matches.
  fold (found_matches x y). destruct (found_matches x y); simpl; split; first [done|by eauto|by intros [? [=]]].
Qed.

Lemma NoDup_flat_map {A B : Type} (f : A -> list B) (l : list A) :
  (forall x y b, x ∈ l -> y ∈ l -> b ∈ f x -> b ∈ f y -> x = y) ->
  (forall x, x ∈ l -> NoDup (f x)) -> NoDup l -> NoDup (flat_map f l).
Proof.
  intros Hi Hf Hl. replace (flat_map f l) with (l ≫= f); [by apply NoDup_bind|].
  clear. induction l as [|x l IH]; [done|]. simpl. by rewrite <- IH.
Qed.

Definition before (x y : GraphWorkspace) : Prop :=
  str_ltb (gw_workspace_id x) (gw_workspace_id y) = true.

Lemma elem_group_edges (g : list GraphWorkspace) (e : WorkspaceOverlapEdge) :
  StronglySorted before g ->
  (e ∈ group_edges g <->
   exists x y, x ∈ g /\ y ∈ g /\ before x y /\ workspace_overlap_edge x y = Some e).
Proof.
  assert (Hasym : forall x y, before x y -> before y x -> False).
  { intros x y. unfold before. rewrite !str_ltb_leb. intros [H1 Hne] [H2 _].
    by apply Hne, str_leb_antisym. }
  induction 1 as [|w g Hg IH Hw]; simpl.
  - split; [by intros ?%elem_of_nil|]. by intros (x & y & ?%elem_of_nil & _).
  - rewrite elem_of_app, list_elem_of_omap, IH. pose proof (proj1 (Forall_forall _ _) Hw) as Hw'. split.
    + intros [(y & Hy & He)|(x & y & Hx & Hy & Hb & He)].
      * exists w, y. split_and!; [left|by right|by apply Hw'|done].
      * exists x, y. split_and!; [by right|by right|done|done].
    + intros (x & y & Hx & Hy & Hb & He). apply elem_of_cons in Hx as [-> |Hx].
      * apply elem_of_cons in Hy as [-> |Hy]; [by destruct (Hasym w w Hb Hb)|]. left. by exists y.
      * apply elem_of_cons in Hy as [-> |Hy]; [by destruct (Hasym _ _ Hb (Hw' x Hx))|]. right. by exists x, y.
Qed.

Lemma group_edges_NoDup (g : list GraphWorkspace) :
  NoDup (map gw_workspace_id g) -> NoDup (map oe_affected_workspace_ids (group_edges g)).
Proof.
  induction g as [|w g IH]; intros Hn; simpl; [constructor|].
  apply NoDup_cons in Hn as [Hw Hn]. rewrite map_app. apply NoDup_app. split_and!; [|..|by apply IH].
  - clear IH Hw. induction g as [|y g IH]; simpl; [constructor|].
    apply NoDup_cons in Hn as [Hy Hn].
    destruct (workspace_overlap_edge w y) as [e|] eqn:E; [|by apply IH]. simpl.
    constructor; [|by apply IH]. intros (e' & He' & (z & Hz & E')%list_elem_of_omap)%list_elem_of_fmap.
    rewrite (eb_affected _ _ _ (edge_spec _ _ _ E)), (eb_affected _ _ _ (edge_spec _ _ _ E')) in He'.
    injection He' as He'. apply Hy. rewrite He'. by apply list_elem_of_fmap_2.
  - intros p (e & -> & (y & Hy & E)%list_elem_of_omap)%list_elem_of_fmap (e' & He & He')%list_elem_of_fmap.
    assert (Hin : forall g e, e ∈ group_edges g -> (oe_affected_workspace_ids e).1 ∈ map gw_workspace_id g).
    { clear. induction g as [|x g IH]; intros e; simpl; [by intros ?%elem_of_nil|].
      intros [(y & _ & E)%list_elem_of_omap|He]%elem_of_app; [|right; by apply IH].
      rewrite (eb_affected _ _ _ (edge_spec _ _ _ E)). left. }
    apply Hin in He'. rewrite <- He, (eb_affected _ _ _ (edge_spec _ _ _ E)) in He'. done.
Qed.

Section Edges.
Context (ws : list GraphWorkspace) (ids_unique : NoDup (map gw_workspace_id ws)).

Let group (key : string * string) : list GraphWorkspace :=
  sorted_by id_leb (default [] (group_by group_key ws !! key)).

Lemma elem_group (key : string * string) (w : GraphWorkspace) :
  w ∈ group key <-> w ∈ ws /\ group_key w = key.
Proof. unfold group. rewrite elem_of_sorted_by, group_by_lookup, elem_of_bfilter, eqb_true. tauto. Qed.

Lemma group_NoDup (key : string * string) : NoDup (map gw_workspace_id (group key)).
Proof.
  unfold group. rewrite (sorted_by_perm _ _), group_by_lookup.
  eapply sublist_NoDup; [exact ids_unique|]. apply sublist_map, bfilter_sublist.
Qed.

Lemma group_sorted (key : string * string) : StronglySorted before (group key).
Proof.
  pose proof (group_NoDup key) as Hn.
  assert (Hs : StronglySorted (fun x y => id_leb x y = true) (group key)).
  { apply sorted_by_sorted; unfold id_leb; eauto using str_leb_total, str_leb_trans. }
  induction Hs as [|w g Hg IH Hw]; [constructor|]. apply NoDup_cons in Hn as [Hw' Hn].
  constructor; [by apply IH|]. apply Forall_forall. intros y Hy. apply str_ltb_leb.
  split; [exact (proj1 (Forall_forall _ _) Hw y Hy)|]. intros E. apply Hw'. rewrite E.
  by apply list_elem_of_fmap_2.
Qed.

(** The edges join the workspaces of one group that overlap, in the order of their ids. *)
Lemma elem_edges (e : WorkspaceOverlapEdge) :
  e ∈ workspace_overlap_edges ws <->
  exists x y, x ∈ ws /\ y ∈ ws /\ group_key x = group_key y /\ before x y /\
              workspace_overlap_edge x y = Some e.
Proof.
  unfold workspace_overlap_edges. destruct (Nat.ltb_spec (length ws) 2) as [Hl|Hl].
  - split; [by intros ?%elem_of_nil|]. intros (x & y & Hx & Hy & _ & Hb & _).
    unfold before in Hb. apply str_ltb_leb in Hb as [_ Hne]. destruct Hne.
    destruct ws as [|a [|b l]]; [by apply elem_of_nil in Hx| |simpl in Hl; lia].
    apply list_elem_of_singleton in Hx as ->, Hy as ->. done.
  - cbv zeta. rewrite elem_of_sorted_by, list_elem_of_In, in_flat_map. split.
    + intros (key & _ & He). apply list_elem_of_In in He.
      apply (elem_group_edges _ _ (group_sorted key)) in He as (x & y & Hx & Hy & Hb & He).
      apply elem_group in Hx as [Hx Hkx], Hy as [Hy Hky]. exists x, y. by rewrite Hkx, Hky.
    + intros (x & y & Hx & Hy & Hk & Hb & He). exists (group_key x). split.
      * apply list_elem_of_In, elem_of_sorted_by, elem_of_fromkeys. by apply list_elem_of_fmap_2.
      * apply list_elem_of_In, (elem_group_edges _ _ (group_sorted (group_key x))).
        exists x, y. rewrite !elem_group. by split_and!.
Qed.

Lemma ws_unique (x y : GraphWorkspace) :
  x ∈ ws -> y ∈ ws -> gw_workspace_id x = gw_workspace_id y -> x = y.
Proof.
  intros Hx Hy E. apply list_elem_of_lookup in Hx as (i & Hi), Hy as (j & Hj).
  assert (i = j) as ->; [|congruence].
  apply (NoDup_lookup (map gw_workspace_id ws) _ _ (gw_workspace_id x)); [done|..];
    rewrite list_lookup_fmap; [by rewrite Hi|by rewrite Hj, E].
Qed.

Lemma edges_NoDup : NoDup (map oe_affected_workspace_ids (workspace_overlap_edges ws)).
Proof.
  unfold workspace_overlap_edges. destruct (_ <? _)%nat; [constructor|]. cbv zeta.
  rewrite (sorted_by_perm _ _). set (keys := sorted_by group_key_leb _).
  replace (map oe_affected_workspace_ids (flat_map _ keys))
    with (flat_map (fun key => map oe_affected_workspace_ids (group_edges (group key))) keys)
    by (induction keys as [|k ks IH]; simpl; [done|]; by rewrite IH, map_app).
  apply NoDup_flat_map.
  - intros k1 k2 p _ _ (e1 & -> & H1)%list_elem_of_fmap (e2 & E & H2)%list_elem_of_fmap.
    apply (elem_group_edges _ _ (group_sorted k1)) in H1 as (x1 & y1 & Hx1 & _ & _ & E1).
    apply (elem_group_edges _ _ (group_sorted k2)) in H2 as (x2 & y2 & Hx2 & _ & _ & E2).
    rewrite (eb_affected _ _ _ (edge_spec _ _ _ E1)), (eb_affected _ _ _ (edge_spec _ _ _ E2)) in E.
    injection E as E _. apply elem_group in Hx1 as [Hx1 <-], Hx2 as [Hx2 <-].
    by rewrite (ws_unique x1 x2).
  - intros key _. apply group_edges_NoDup, group_NoDup.
  - unfold keys. rewrite (sorted_by_perm _ _). apply NoDup_fromkeys.
Qed.

Lemma edges_sorted :
  StronglySorted (fun x y => strs_leb (edge_key x) (edge_key y) = true) (workspace_overlap_edges ws).
Proof.
  unfold workspace_overlap_edges. destruct (_ <? _)%nat; [constructor|].
  apply sorted_by_sorted; eauto using strs_leb_total, strs_leb_trans.
Qed.
End Edges.

(** ** The graph of a table *)

Lemma overlap_comm (p q : string) : owned_paths_overlap p q = owned_paths_overlap q p.
Proof.
  rewrite !overlap_spec. cbv zeta. by rewrite overlap_test_comm, (andb_comm (negb (eqb (normalize_owned_path p) ""))).
Qed.

Lemma overlapping_comm (x y : GraphWorkspace) : overlapping x y <-> overlapping y x.
Proof. split; intros (p & q & Hp & Hq & H); exists q, p; by rewrite overlap_comm. Qed.

Definition in_graph (r : GraphRow) (w : GraphWorkspace) : Prop := graph_workspace r = Some w.

Lemma in_graph_fields (r : GraphRow) (w : GraphWorkspace) :
  in_graph r w ->
  gw_workspace_id w = gr_id r /\ group_key w = (ow_repo_url (gr_owned r), ow_branch_base (gr_owned r)) /\
  ow_status (gr_owned r) ∈ ACTIVE_OVERLAP_GRAPH_STATUSES /\
  gw_owned_paths w = ow_owned_paths (gr_owned r) /\
  forall p, p ∈ counted_paths w <->
    p ∈ effective_paths (ow_owned_paths (gr_owned r)) (ow_resolved_profile (gr_owned r))
          (Some (gr_id r)).
Proof.
  unfold in_graph, graph_workspace, queue_state_for_status, ACTIVE_OVERLAP_GRAPH_STATUSES.
  destruct (mem (ow_status (gr_owned r)) QUEUED_WORKSPACE_STATUSES) eqn:E1; [|destruct (mem (ow_status (gr_owned r)) RUNNING_WORKSPACE_STATUSES) eqn:E2; [|intros H; discriminate H]];
    intros [= <-]; (split; [done|split; [done|split; [|split; [done|
      intros p; apply elem_of_sorted_by]]]]);
    apply elem_of_app; [left|right]; by apply mem_true.
Qed.

Section Graph.
Context (table : list GraphRow) (repo_url base_branch task_class : option string).
Context (queue_state : OverlapGraphQueueState) (limit : nat).
Context (ids_unique : NoDup (map gr_id table)).

Let page : list GraphRow :=
  take limit (graph_rows table repo_url base_branch task_class queue_state).

Lemma page_elem (r : GraphRow) :
  r ∈ page -> r ∈ table /\ ow_status (gr_owned r) ∈ ACTIVE_OVERLAP_GRAPH_STATUSES.
Proof.
  intros Hr. apply (sublist_subseteq _ _ (sublist_take _ _)) in Hr. unfold graph_rows in Hr.
  rewrite elem_of_sorted_by, elem_of_bfilter in Hr. destruct Hr as [Hr Ht]. split; [done|].
  bool_simpl. match goal with H : mem _ _ = true |- _ => apply mem_true in H; revert H end.
  destruct queue_state; cbn [status_values_for_queue_state]; unfold ACTIVE_OVERLAP_GRAPH_STATUSES;
    rewrite ?elem_of_app; tauto.
Qed.

Lemma page_workspaces : exists ws, mapM graph_workspace page = Some ws /\ Forall2 in_graph page ws.
Proof.
  assert (H : Forall (fun r => is_Some (graph_workspace r)) page).
  { apply Forall_forall. intros r [_ Hs]%page_elem. unfold graph_workspace, queue_state_for_status.
    unfold ACTIVE_OVERLAP_GRAPH_STATUSES in Hs. apply elem_of_app in Hs as [Hs|Hs];
      apply mem_true in Hs; rewrite Hs; [by eauto|]. case_goal; by eauto. }
  apply mapM_is_Some_2 in H as [ws Hws]. exists ws. split; [done|]. by apply mapM_Some_1.
Qed.

Lemma page_ids (ws : list GraphWorkspace) :
  Forall2 in_graph page ws -> map gw_workspace_id ws = map gr_id page.
Proof. induction 1 as [|r w l k H _ IH]; simpl; [done|]. by rewrite IH, (proj1 (in_graph_fields _ _ H)). Qed.

Lemma page_NoDup : NoDup (map gr_id page).
Proof.
  eapply sublist_NoDup; [|apply sublist_map, sublist_take]. unfold graph_rows.
  rewrite (sorted_by_perm _ _). eapply sublist_NoDup; [exact ids_unique|].
  apply sublist_map, bfilter_sublist.
Qed.

Lemma build_spec :
  exists ws, Forall2 in_graph page ws /\ NoDup (map gw_workspace_id ws) /\
    build_workspace_overlap_graph table repo_url base_branch task_class queue_state limit =
    Some {| og_nodes := map node_from_workspace ws; og_edges := workspace_overlap_edges ws;
            og_summary := graph_summary (map node_from_workspace ws) (workspace_overlap_edges ws)
              (limit <? length (take (S limit)
                 (graph_rows table repo_url base_branch task_class queue_state)))%nat |}.
Proof.
  destruct page_workspaces as (ws & Hm & Hf). exists ws. split; [done|]. split.
  - rewrite (page_ids ws Hf). apply page_NoDup.
  - unfold build_workspace_overlap_graph. rewrite take_take, Nat.min_l by lia.
    fold page. by rewrite Hm.
Qed.

(** A row of the table whose id is a node's is that node's row. *)
Lemma node_row (ws : list GraphWorkspace) (r : GraphRow) :
  Forall2 in_graph page ws -> r ∈ table -> gr_id r ∈ map gw_workspace_id ws ->
  exists w, w ∈ ws /\ in_graph r w.
Proof.
  intros Hf Hr Hid. rewrite (page_ids ws Hf) in Hid. apply list_elem_of_fmap in Hid as (r' & E & Hr').
  assert (r = r') as <-.
  { apply page_elem in Hr' as [Hr' _]. apply list_elem_of_lookup in Hr as (i & Hi), Hr' as (j & Hj).
    assert (i = j) as ->; [|congruence].
    apply (NoDup_lookup (map gr_id table) _ _ (gr_id r)); [done|..];
      rewrite list_lookup_fmap; [by rewrite Hi|by rewrite Hj, E]. }
  apply list_elem_of_lookup in Hr' as (i & Hi).
  destruct (Forall2_lookup_l _ _ _ _ _ Hf Hi) as (w & Hw & H). exists w.
  split; [by apply list_elem_of_lookup_2 in Hw|done].
Qed.

Lemma joined (ws : list GraphWorkspace) (x y : GraphWorkspace) :
  NoDup (map gw_workspace_id ws) -> x ∈ ws -> y ∈ ws -> gw_workspace_id x <> gw_workspace_id y ->
  ((exists e, e ∈ workspace_overlap_edges ws /\
      (oe_affected_workspace_ids e = (gw_workspace_id x, gw_workspace_id y) \/
       oe_affected_workspace_ids e = (gw_workspace_id y, gw_workspace_id x))) <->
   group_key x = group_key y /\ overlapping x y).
Proof.
  intros Hn Hx Hy Hne. split.
  - intros (e & (a & b & Ha & Hb & Hk & _ & He)%elem_edges & Hids); [|done].
    assert (Ho : overlapping a b) by (apply edge_exists; by exists e).
    rewrite (eb_affected _ _ _ (edge_spec _ _ _ He)) in Hids.
    destruct Hids as [[= E1 E2]|[= E1 E2]];
      apply (ws_unique ws Hn) in E1; try done; apply (ws_unique ws Hn) in E2; try done; subst a b.
    + done.
    + by rewrite overlapping_comm.
  - intros [Hk Ho]. destruct (str_leb_total (gw_workspace_id x) (gw_workspace_id y)) as [H|H].
    + destruct (proj2 (edge_exists x y) Ho) as [e He]. exists e. split.
      * apply elem_edges; [done|]. exists x, y. split_and!; try done. by apply str_ltb_leb.
      * left. exact (eb_affected _ _ _ (edge_spec _ _ _ He)).
    + apply overlapping_comm in Ho. destruct (proj2 (edge_exists y x) Ho) as [e He]. exists e. split.
      * apply elem_edges; [done|]. exists y, x. split_and!; try done. by apply str_ltb_leb.
      * right. exact (eb_affected _ _ _ (edge_spec _ _ _ He)).
Qed.
End Graph.

Lemma node_ids (ws : list GraphWorkspace) :
  map on_workspace_id (map node_from_workspace ws) = map gw_workspace_id ws.
Proof. induction ws as [|w ws IH]; [done|]. simpl. by rewrite IH. Qed.

(** ** Properties *)

(** C15: The graph is always built, and well formed: at most [limit] nodes of different
    workspaces; edges in order, one per pair at most, each from a smaller to a greater
    id between two nodes of the repository and base branch the edge names; an edge
    lists up to eight of its matches, says whether it left some out, and each match is
    a pair of declared paths that overlap; the counts of the summary add up. *)
Theorem overlap_graph_well_formed (table : list GraphRow)
    (repo_url base_branch task_class : option string) (queue_state : OverlapGraphQueueState)
    (limit : nat) :
  NoDup (map gr_id table) ->
  exists g, build_workspace_overlap_graph table repo_url base_branch task_class queue_state limit
            = Some g /\
    NoDup (map on_workspace_id (og_nodes g)) /\ (length (og_nodes g) <= limit)%nat /\
    StronglySorted (fun x y => strs_leb (edge_key x) (edge_key y) = true) (og_edges g) /\
    NoDup (map oe_affected_workspace_ids (og_edges g)) /\
    Forall (fun e => exists x y, node_from_workspace x ∈ og_nodes g /\
              node_from_workspace y ∈ og_nodes g /\ before x y /\ group_key x = group_key y /\
              edge_between x y e) (og_edges g) /\
    (gs_queued_count (og_summary g) + gs_running_count (og_summary g)
     = gs_node_count (og_summary g))%nat /\
    (gs_affected_workspace_count (og_summary g) <= gs_node_count (og_summary g))%nat /\
    gs_edge_count (og_summary g) = length (og_edges g).
Proof.
  intros Hn. destruct (build_spec table repo_url base_branch task_class queue_state limit Hn)
    as (ws & Hf & Hids & ->).
  eexists. split; [done|]. cbn [og_nodes og_edges og_summary].
  split; [by rewrite node_ids|]. split.
  { rewrite length_map, <- (Forall2_length _ _ _ Hf), length_take. lia. }
  split; [by apply edges_sorted|]. split; [by apply edges_NoDup|]. split; [|split; [|split; [|done]]].
  - apply Forall_forall. intros e (x & y & Hx & Hy & Hk & Hb & He)%elem_edges; [|done].
    exists x, y. split_and!; [by apply list_elem_of_fmap_2..|done|done|by apply edge_spec].
  - cbn [graph_summary gs_queued_count gs_running_count gs_node_count]. generalize ws.
    intros l. induction l as [|w l IH]; [done|]. simpl. destruct (gw_queue_state w); simpl; lia.
  - cbn [graph_summary gs_affected_workspace_count gs_node_count].
    rewrite length_map, <- (length_map gw_workspace_id ws).
    apply submseteq_length, NoDup_submseteq; [apply NoDup_fromkeys|].
    intros id. rewrite elem_of_fromkeys, list_elem_of_In, in_flat_map.
    intros (e & He & Hid). apply list_elem_of_In in He, Hid.
    apply elem_edges in He as (x & y & Hx & Hy & _ & _ & He); [|done].
    rewrite (eb_affected _ _ _ (edge_spec _ _ _ He)) in Hid. cbn [fst snd] in Hid.
    apply elem_of_cons in Hid as [-> |Hid]; [by apply list_elem_of_fmap_2|].
    apply list_elem_of_singleton in Hid as ->. by apply list_elem_of_fmap_2.
Qed.

(** The advisory graph and the launch check agree: two nodes are joined by an edge
    exactly when the check made before launching the second one's paths reports the
    first one, so no risk the check would see is missing from the graph and no edge
    is shown without one. *)
Theorem overlap_graph_agrees (table : list GraphRow)
    (repo_url base_branch task_class : option string) (queue_state : OverlapGraphQueueState)
    (limit : nat) :
  NoDup (map gr_id table) ->
  exists g, build_workspace_overlap_graph table repo_url base_branch task_class queue_state limit
            = Some g /\
  forall x y, x ∈ table -> y ∈ table -> gr_id x <> gr_id y ->
    gr_id x ∈ map on_workspace_id (og_nodes g) -> gr_id y ∈ map on_workspace_id (og_nodes g) ->
    let w := gr_owned y in
    ((exists e, e ∈ og_edges g /\ (oe_affected_workspace_ids e = (gr_id x, gr_id y) \/
                                   oe_affected_workspace_ids e = (gr_id y, gr_id x))) <->
     (exists o, o ∈ find_active_owned_path_overlaps (map gr_owned table) (ow_repo_url w)
                      (ow_branch_base w) (ow_owned_paths w) (ow_resolved_profile w) (Some (ow_id w)) /\
                oo_workspace_id o = gr_id x)).
Proof.
  intros Hn. destruct (build_spec table repo_url base_branch task_class queue_state limit Hn)
    as (ws & Hf & Hids & ->).
  eexists. split; [done|]. cbn [og_nodes og_edges]. rewrite node_ids.
  intros x y Hx Hy Hne Hix Hiy. cbv zeta.
  destruct (node_row table _ _ _ _ _ Hn ws x Hf Hx Hix) as (a & Ha & Hxa).
  destruct (node_row table _ _ _ _ _ Hn ws y Hf Hy Hiy) as (b & Hb & Hyb).
  destruct (in_graph_fields _ _ Hxa) as (Eia & Eka & Hsa & _ & Hpa).
  destruct (in_graph_fields _ _ Hyb) as (Eib & Ekb & _ & _ & Hpb).
  rewrite <- Eia, <- Eib in *. rewrite (joined ws a b Hids Ha Hb Hne), Eka, Ekb.
  assert (Hact : ACTIVE_OVERLAP_GRAPH_STATUSES ≡ₚ ACTIVE_OWNED_PATH_OVERLAP_STATUSES)
    by (apply (bool_decide_eq_true_1 _); vm_compute; reflexivity).
  rewrite Hact in Hsa. split.
  - intros [[= Er Eb] (p & q & Hp & Hq & Ho)].
    exists {| oo_workspace_id := gw_workspace_id a; oo_existing_path := p; oo_requested_path := q |}.
    split; [|done]. apply overlaps_elem. exists (gr_owned x). cbn.
    split_and!; [by apply list_elem_of_fmap_2|done..| | |done].
    + apply Hpa in Hp. by rewrite Eia in Hp.
    + apply Hpb in Hq. by rewrite Eib in Hq.
  - intros (o & (w & (x' & -> & Hx')%list_elem_of_fmap & Er & Eb & _ & Eid & Hp & Hq & Ho)%overlaps_elem & Eo).
    assert (x' = x) as ->.
    { rewrite Eid, Eia in Eo. apply list_elem_of_lookup in Hx as (i & Hi), Hx' as (j & Hj).
      assert (i = j) as ->; [|congruence].
      apply (NoDup_lookup (map gr_id table) _ _ (gr_id x)); [done|..];
        rewrite list_lookup_fmap; [by rewrite Hi|rewrite Hj; simpl; by rewrite <- Eo]. }
    split; [by rewrite Er, Eb|]. exists (oo_existing_path o), (oo_requested_path o).
    split_and!; [apply Hpa|apply Hpb|done].
    + by rewrite Eia.
    + by rewrite Eib.
Qed.

(** Three active workspaces of one repository, and one finished. *)
Definition sample_graph_row (id : string) (s : WorkspaceStatus) (created_at : Z) (paths : list string)
  : GraphRow :=
  {| gr_owned := {| ow_id := id; ow_status := status_value s; ow_repo_url := "r";
                    ow_branch_base := "main"; ow_created_at := created_at; ow_owned_paths := paths;
                    ow_resolved_profile := JNull |};
     gr_title := id; gr_task_class := None; gr_updated_at := created_at |}.

Definition sample_graph_table : list GraphRow :=
  [sample_graph_row "b" running 2 ["src/db/models.py"; "docs"];
   sample_graph_row "a" requested 1 ["./src/db/**"]; sample_graph_row "c" blocked 3 ["docs2"];
   sample_graph_row "d" completed 4 ["src"]].

Example sample_graph_edges :
  option_map (fun g => (map on_workspace_id (og_nodes g), map oe_affected_workspace_ids (og_edges g),
                        gs_queued_count (og_summary g), gs_has_more (og_summary g)))
    (build_workspace_overlap_graph sample_graph_table (Some "r") None None filter_all 3)
  = Some (["c"; "b"; "a"], [("a", "b")], 1%nat, false).
Proof. by vm_compute. Qed.

Lemma overlap_graph_well_formed_witness :
  exists g, build_workspace_overlap_graph sample_graph_table (Some "r") None None filter_all 3 = Some g /\
    NoDup (map oe_affected_workspace_ids (og_edges g)).
Proof.
  destruct (overlap_graph_well_formed sample_graph_table (Some "r") None None filter_all 3)
    as (g & Hg & _ & _ & _ & H & _).
  - apply (bool_decide_eq_true_1 _). vm_compute. reflexivity.
  - exists g. split; [exact Hg|exact H].
Defined.

Lemma overlap_graph_agrees_witness :
  exists o, o ∈ find_active_owned_path_overlaps (map gr_owned sample_graph_table) "r" "main"
                  ["src/db/models.py"; "docs"] JNull (Some "b") /\ oo_workspace_id o = "a".
Proof.
  destruct (overlap_graph_agrees sample_graph_table (Some "r") None None filter_all 3)
    as (g & Hg & H).
  - apply (bool_decide_eq_true_1 _). vm_compute. reflexivity.
  - vm_compute in Hg. injection Hg as <-.
    refine (proj1 (H (sample_graph_row "a" requested 1 ["./src/db/**"])
      (sample_graph_row "b" running 2 ["src/db/models.py"; "docs"]) _ _ _ _ _) _).
    + right. left.
    + left.
    + vm_compute. discriminate.
    + apply mem_true. vm_compute. reflexivity.
    + apply mem_true. vm_compute. reflexivity.
    + eexists. split; [left|by left].
Defined.
