(* ===== verification/ScopePolicy.v ===== *)
(** * The out-of-scope change policy

    [service/scope_policy.py]: which changed files lie outside the declared
    owned paths and the allowlist, and how a profile and a task policy combine. *)

From S2P Require Import Prelude PyStr Json OwnedPaths OwnedPathsFacts.
#[local] Open Scope Z_scope.

Definition OUT_OF_SCOPE_CHANGE_CODE : string := "OUT_OF_SCOPE_CHANGE".

Inductive OutOfScopeChangeMode : Type := mode_warn | mode_block.

#[export] Instance OutOfScopeChangeMode_eq_dec : EqDecision OutOfScopeChangeMode.
Proof. solve_decision. Defined.

Definition mode_value (m : OutOfScopeChangeMode) : string :=
  match m with mode_warn => "warn" | mode_block => "block" end.

Record OutOfScopeChangePolicy : Type := {
  op_mode : OutOfScopeChangeMode;
  op_allowlist_patterns : list string
}.

(** The validated constructor: at most 128 patterns. *)
Definition make_policy (mode : OutOfScopeChangeMode) (allowlist : list string)
  : result unit OutOfScopeChangePolicy :=
  if (128 <? Z.of_nat (length allowlist)) then Err tt
  else Ok {| op_mode := mode; op_allowlist_patterns := allowlist |}.

Inductive PolicySeverity : Type := severity_warning | severity_blocking.

(** The details repeat the inputs, with the mode by its value. *)
Record OutOfScopeChangeFinding : Type := {
  of_reason_code : string;
  of_path : string;
  of_severity : PolicySeverity;
  of_explanation : string;
  of_owned_paths : list string;
  of_allowlist_patterns : list string;
  of_mode : string
}.

Definition normalize_path (path : string) : string :=
  join "/" (fold_left push_segment (split_on slash (backslash_to_slash (strip path))) []).

Definition normalized_unique_paths (paths : list string) : list string :=
  fromkeys (List.filter (fun p => negb (eqb p "")) (map normalize_path paths)).

Definition matches_any (path : string) (patterns : list string) : bool :=
  existsb (fun pattern => owned_paths_overlap pattern path) patterns.

Definition evaluate_out_of_scope_changes (changed_paths owned_paths : list string)
    (policy : OutOfScopeChangePolicy) : list OutOfScopeChangeFinding :=
  let severity := match op_mode policy with mode_block => severity_blocking
                                          | mode_warn => severity_warning end in
  flat_map (fun path =>
    if matches_any path owned_paths then []
    else if matches_any path (op_allowlist_patterns policy) then []
    else [{| of_reason_code := OUT_OF_SCOPE_CHANGE_CODE; of_path := path; of_severity := severity;
             of_explanation := "Changed file '" +:+ path +:+ "' is outside declared owned_paths "
                               +:+ "and out-of-scope allowlist.";
             of_owned_paths := owned_paths;
             of_allowlist_patterns := op_allowlist_patterns policy;
             of_mode := mode_value (op_mode policy) |}])
    (normalized_unique_paths changed_paths).

(** ** Policy resolution *)

Definition is_object (v : json) : bool := match v with JObj _ => true | _ => false end.

(** [_nested_dict]; [None] also stands for a missing document. *)
Definition nested_dict (value : option json) (first : string) (second : option string)
  : option json :=
  let as_dict v := match v with Some d => if is_object d then Some d else None | None => None end in
  let first_value := match value with Some v => json_get v first | None => None end in
  match second with
  | None => as_dict first_value
  | Some second =>
      match as_dict first_value with
      | Some d => as_dict (json_get d second)
      | None => None
      end
  end.

Definition policy_from_profile_section (value : option json) : result unit OutOfScopeChangePolicy :=
  match value with
  | None => Ok {| op_mode := mode_warn; op_allowlist_patterns := [] |}
  | Some v =>
      make_policy
        (match json_get v "mode" with
         | Some (JStr m) => if eqb m "block" then mode_block else mode_warn
         | _ => mode_warn
         end)
        (match json_get v "allowlist_patterns" with
         | Some (JArr items) => omap (fun i => match i with JStr s => Some s | _ => None end) items
         | _ => []
         end)
  end.

(** [a or b] on dictionaries: an empty one is falsy. *)
Definition dict_or (a b : option json) : option json :=
  match a with Some (JObj []) => b | Some d => Some d | None => b end.

Definition out_of_scope_policy_for_workspace (resolved_profile task_policy : option json)
  : result unit OutOfScopeChangePolicy :=
  profile <-? policy_from_profile_section
                (nested_dict resolved_profile "quality" (Some "out_of_scope_changes")) ;;
  task <-? policy_from_profile_section
             (dict_or (nested_dict task_policy "out_of_scope_changes" None)
                      (nested_dict resolved_profile "task_policy" (Some "out_of_scope_changes"))) ;;
  make_policy
    (if eqb (op_mode profile) mode_block || eqb (op_mode task) mode_block
     then mode_block else mode_warn)
    (fromkeys (op_allowlist_patterns profile ++ op_allowlist_patterns task)).

(** ** Lemmas *)

Lemma matches_any_spec (path : string) (patterns : list string) :
  matches_any path patterns = true <-> exists p, p ∈ patterns /\ owned_paths_overlap p path = true.
Proof.
  unfold matches_any. rewrite existsb_exists. setoid_rewrite list_elem_of_In. done.
Qed.

Lemma findings_paths (changed owned : list string) (policy : OutOfScopeChangePolicy) :
  map of_path (evaluate_out_of_scope_changes changed owned policy) =
  List.filter (fun p => negb (matches_any p owned)
                        && negb (matches_any p (op_allowlist_patterns policy)))
    (normalized_unique_paths changed).
Proof.
  unfold evaluate_out_of_scope_changes. induction (normalized_unique_paths changed) as [|p l IH];
    [done|].
  cbn [flat_map]. rewrite map_app, IH. cbn [List.filter].
  by destruct (matches_any p owned), (matches_any p (op_allowlist_patterns policy)).
Qed.

Lemma elem_normalized (paths : list string) (p : string) :
  p ∈ normalized_unique_paths paths <-> p <> "" /\ exists raw, raw ∈ paths /\ normalize_path raw = p.
Proof.
  unfold normalized_unique_paths. rewrite elem_of_fromkeys, elem_of_bfilter, negb_true_iff, eqb_false.
  rewrite list_elem_of_fmap. naive_solver.
Qed.

(** ** Properties *)

(** The policy reports each changed file once, in the order of the changes,
    and exactly those whose normalised path overlaps neither an owned path nor an
    allowlist pattern; all findings carry the severity of the policy's mode. *)
Theorem scope_findings_exact (changed owned : list string) (policy : OutOfScopeChangePolicy) :
  let findings := evaluate_out_of_scope_changes changed owned policy in
  map of_path findings `sublist_of` normalized_unique_paths changed /\
  NoDup (map of_path findings) /\
  (forall p, p ∈ map of_path findings <->
     p <> "" /\ (exists raw, raw ∈ changed /\ normalize_path raw = p) /\
     forall pattern, pattern ∈ owned ++ op_allowlist_patterns policy ->
                     owned_paths_overlap pattern p = false) /\
  (forall f, f ∈ findings -> of_reason_code f = OUT_OF_SCOPE_CHANGE_CODE /\
     (of_severity f = severity_blocking <-> op_mode policy = mode_block)).
Proof.
  cbv zeta. rewrite findings_paths. split_and!.
  - apply bfilter_sublist.
  - apply NoDup_bfilter, NoDup_fromkeys.
  - intros p. rewrite elem_of_bfilter, elem_normalized, andb_true_iff, !negb_true_iff.
    assert (Hm : forall l, matches_any p l = false <->
                   forall q, q ∈ l -> owned_paths_overlap q p = false).
    { intros l. rewrite <- not_true_iff_false, matches_any_spec. split.
      - intros Hn q Hq. apply not_true_iff_false. eauto.
      - intros Hn (q & Hq & Ho). by rewrite (Hn q Hq) in Ho. }
    rewrite !Hm. setoid_rewrite elem_of_app. split.
    + intros ([Ho Ha] & Hp & Hr). split_and!; [done|done|]. intros q [Hq|Hq]; auto.
    + intros (Hp & Hr & Hn). auto.
  - intros f. unfold evaluate_out_of_scope_changes.
    rewrite list_elem_of_In, in_flat_map. intros (p & _ & Hf).
    destruct (matches_any p owned); [done|]. destruct (matches_any _ _); [done|].
    destruct Hf as [<-|[]]. simpl. split; [done|]. by destruct (op_mode policy).
Qed.

Lemma normalize_path_eq (path : string) : normalize_path path = normalize_owned_path path.
Proof. done. Qed.

Lemma not_reported (changed owned : list string) (policy : OutOfScopeChangePolicy) (o p : string) :
  o ∈ owned -> owned_paths_overlap o p = true ->
  p ∉ map of_path (evaluate_out_of_scope_changes changed owned policy).
Proof.
  intros Ho Hp. rewrite findings_paths, elem_of_bfilter, andb_true_iff, !negb_true_iff.
  intros [[Hn _] _]. apply not_true_iff_false in Hn. apply Hn, matches_any_spec. eauto.
Qed.

(** A stripped normalised path is its own normal form. *)
Lemma normalize_stripped (raw : string) :
  strip (normalize_path raw) = normalize_path raw ->
  normalize_owned_path (normalize_path raw) = normalize_path raw.
Proof.
  intros Hs. unfold normalize_owned_path. change (normalize_path raw) with
    (join "/" (path_segments raw)) in *. by rewrite segments_of_clean by
    (done || apply path_segments_clean).
Qed.

(** Work inside the declared scope is never reported: a changed file that some
    owned path owns (as itself, below it, or through its glob) gives no finding,
    whatever the policy. *)
Theorem owned_file_in_scope (changed owned : list string) (policy : OutOfScopeChangePolicy)
    (o raw : string) :
  o ∈ owned -> normalize_owned_path o <> "" -> normalize_path raw <> "" ->
  strip (normalize_path raw) = normalize_path raw ->
  owns (normalize_owned_path o) (normalize_path raw) = true ->
  normalize_path raw ∉ map of_path (evaluate_out_of_scope_changes changed owned policy).
Proof.
  intros Ho Hne Hp Hs Hown. apply (not_reported _ _ _ o); [done|]. rewrite overlap_spec. cbv zeta.
  rewrite (proj2 (eqb_false _ _) Hne).
  assert (Ht : overlap_test (normalize_owned_path o) (normalize_owned_path (normalize_path raw)) = true).
  { apply (common_file_overlap _ _ (normalize_path raw)); rewrite ?normalize_stripped by done; try done.
    unfold owns. by rewrite eqb_refl. }
  rewrite Ht, normalize_stripped by done. by rewrite (proj2 (eqb_false _ _) Hp).
Qed.

Lemma owned_file_in_scope_witness :
  "src/awf/db/models.py" ∉
  map of_path (evaluate_out_of_scope_changes ["./src/awf/db/models.py"; "docs/x.md"] ["src/**/*.py"]
                 {| op_mode := mode_block; op_allowlist_patterns := [] |}).
Proof.
  refine (owned_file_in_scope _ _ _ "src/**/*.py" "./src/awf/db/models.py" _ _ _ _ _);
    first [by left | vm_compute; (reflexivity || discriminate)].
Defined.

(** The name of a changed file is read as a pattern: a changed file whose
    path has a wildcard character is never reported once some owned path begins
    with what precedes that character, although no owned path owns the file. *)
Theorem wildcard_named_file_unreported (changed owned : list string)
    (policy : OutOfScopeChangePolicy) (o raw pre : string) :
  o ∈ owned -> normalize_owned_path o <> "" -> normalize_path raw <> "" ->
  strip (normalize_path raw) = normalize_path raw ->
  wildcard_prefix (normalize_path raw) = Some pre ->
  starts_with pre (normalize_owned_path o) = true ->
  normalize_path raw ∉ map of_path (evaluate_out_of_scope_changes changed owned policy).
Proof.
  intros Ho Hne Hp Hs Hpre Hst. apply (not_reported _ _ _ o); [done|]. rewrite overlap_spec. cbv zeta.
  rewrite wildcard_prefix_first_wild in Hpre.
  rewrite normalize_stripped, (proj2 (eqb_false _ _) Hne), (proj2 (eqb_false _ _) Hp) by done.
  unfold overlap_test. rewrite Hpre. unfold wildcard_prefix_overlaps at 2. rewrite Hst.
  simpl. destruct (eqb pre ""); by rewrite ?orb_true_r.
Qed.

(** A Next.js route file next to the owned one: not owned, and not reported. *)
Lemma wildcard_named_file_unreported_witness :
  owns (normalize_owned_path "app/other/data.ts") "app/[slug]/page.tsx" = false /\
  "app/[slug]/page.tsx" ∉
  map of_path (evaluate_out_of_scope_changes ["app/[slug]/page.tsx"] ["app/other/data.ts"]
                 {| op_mode := mode_block; op_allowlist_patterns := [] |}).
Proof.
  split; [vm_compute; reflexivity|].
  refine (wildcard_named_file_unreported _ _ _ "app/other/data.ts" "app/[slug]/page.tsx" "app/"
            _ _ _ _ _ _);
    first [by left | vm_compute; (reflexivity || discriminate)].
Defined.

(** The effective policy blocks exactly when the profile's or the task's own
    section does, its allowlist is the union of theirs without repetitions, and
    it exists unless one of the lists is over the limit of 128 patterns. *)
Theorem policy_combination (resolved_profile task_policy : option json) :
  match policy_from_profile_section
          (nested_dict resolved_profile "quality" (Some "out_of_scope_changes")),
        policy_from_profile_section
          (dict_or (nested_dict task_policy "out_of_scope_changes" None)
             (nested_dict resolved_profile "task_policy" (Some "out_of_scope_changes"))) with
  | Ok profile, Ok task =>
      match out_of_scope_policy_for_workspace resolved_profile task_policy with
      | Ok policy =>
          (op_mode policy = mode_block <-> op_mode profile = mode_block \/ op_mode task = mode_block)
          /\ NoDup (op_allowlist_patterns policy)
          /\ (forall p, p ∈ op_allowlist_patterns policy <->
                        p ∈ op_allowlist_patterns profile \/ p ∈ op_allowlist_patterns task)
      | Err _ =>
          128 < Z.of_nat (length (fromkeys (op_allowlist_patterns profile
                                             ++ op_allowlist_patterns task)))
      end
  | _, _ => out_of_scope_policy_for_workspace resolved_profile task_policy = Err tt
  end.
Proof.
  unfold out_of_scope_policy_for_workspace.
  destruct (policy_from_profile_section (nested_dict resolved_profile _ _)) as [profile|[]]; [|done].
  destruct (policy_from_profile_section _) as [task|[]]; [|done]. simpl. unfold make_policy.
  destruct (128 <? _) eqn:E; [by apply Z.ltb_lt|]. simpl. split_and!.
  - destruct (eqb (op_mode profile) mode_block) eqn:E1, (eqb (op_mode task) mode_block) eqn:E2;
      simpl; rewrite ?eqb_true, ?eqb_false in *; intuition congruence.
  - apply NoDup_fromkeys.
  - intros p. by rewrite elem_of_fromkeys, elem_of_app.
Qed.
