(* ===== verification/SupplyChain.v ===== *)
(** * The supply-chain guardrails

    [service/supply_chain_policy.py] with [supply_chain_policy_helpers.py]: the commands in
    the evidence an agent left, with what they hand to a shell; which of them install
    unpinned packages, run what they download or use another registry; and the changed
    lockfiles outside the owned paths.

    [urlsplit] raises on unbalanced brackets, and nothing catches it: the functions that
    read a URL are fallible, with the message of the ValueError. *)

From S2P Require Import Prelude PyStr PyPath Json PyRe PyNet OwnedPaths ScopePolicy.
#[local] Open Scope Z_scope.
#[local] Set Warnings "-register-all".

(** ** [shlex]

    [list(shlex.shlex(text, posix=True, punctuation_chars=...))] with [whitespace_split] and
    without comments: one pass over the text, with the token under construction, the
    state of [read_token] and whether a quote was seen.  A character that is pushed back is
    read again as the first of the next token. *)

Definition single_quote : ascii := char 39.

Inductive lex_state : Type :=
| Between
| Word
| Punct
| Quoted (q : ascii)
(** After a backslash, in a word or inside the quote. *)
| Escaped (inside : option ascii).

Definition lex_space (c : ascii) : bool := mem (code c) [32; 9; 13; 10].
Definition is_quote (c : ascii) : bool := Ascii.eqb c quote || Ascii.eqb c single_quote.
Definition is_backslash (c : ascii) : bool := Ascii.eqb c backslash.

Definition snoc (s : string) (c : ascii) : string := s +:+ String c "".

Section Lexer.
Context (punctuation : ascii -> bool).

(** The state and the token after the first character of a token. *)
Definition begin (c : ascii) : lex_state * string :=
  if lex_space c then (Between, "")
  else if is_backslash c then (Escaped None, "")
  else if punctuation c then (Punct, String c "")
  else if is_quote c then (Quoted c, "")
  else (Word, String c "").

(** A token without characters counts when it was quoted. *)
Definition emit (token : string) (quoted : bool) (rest : option (list string)) : option (list string) :=
  if eqb token "" && negb quoted then rest else l ← rest; Some (token :: l).

(** [None] is the ValueError of an open quote or escape. *)
Fixpoint lex (st : lex_state) (token : string) (quoted : bool) (s : string) : option (list string) :=
  match s with
  | "" =>
      match st with
      | Between => Some []
      | Word | Punct => emit token quoted (Some [])
      | Quoted _ | Escaped _ => None
      end
  | String c s' =>
      match st with
      | Between => let '(st', token') := begin c in lex st' token' false s'
      | Quoted q =>
          if Ascii.eqb c q then lex Word token true s'
          else if is_backslash c && Ascii.eqb q quote then lex (Escaped (Some q)) token true s'
          else lex (Quoted q) (snoc token c) true s'
      | Escaped None => lex Word (snoc token c) quoted s'
      | Escaped (Some q) =>
          lex (Quoted q)
            (snoc (if is_backslash c || Ascii.eqb c q then token else snoc token backslash) c) quoted s'
      | Punct =>
          if lex_space c then emit token quoted (lex Between "" false s')
          else if punctuation c then lex Punct (snoc token c) quoted s'
          else emit token quoted (let '(st', token') := begin c in lex st' token' false s')
      | Word =>
          if lex_space c then emit token quoted (lex Between "" false s')
          else if is_quote c then lex (Quoted c) token quoted s'
          else if is_backslash c then lex (Escaped None) token quoted s'
          else if punctuation c
          then emit token quoted (let '(st', token') := begin c in lex st' token' false s')
          else lex Word (snoc token c) quoted s'
      end
  end.

Definition shlex (s : string) : option (list string) := lex Between "" false s.
End Lexer.

Definition punctuation_of (chars : string) (c : ascii) : bool := has_char c chars.

Definition SUPPLY_CHAIN_UNPINNED_DEPENDENCY_INSTALL : string := "SUPPLY_CHAIN_UNPINNED_DEPENDENCY_INSTALL".
Definition SUPPLY_CHAIN_REMOTE_SCRIPT_EXECUTION : string := "SUPPLY_CHAIN_REMOTE_SCRIPT_EXECUTION".
Definition SUPPLY_CHAIN_UNEXPECTED_REGISTRY_HOST : string := "SUPPLY_CHAIN_UNEXPECTED_REGISTRY_HOST".
Definition SUPPLY_CHAIN_LOCKFILE_OUTSIDE_OWNED_PATHS : string :=
  "SUPPLY_CHAIN_LOCKFILE_OUTSIDE_OWNED_PATHS".
Definition SUPPLY_CHAIN_REASON_CODES : list string :=
  [SUPPLY_CHAIN_UNPINNED_DEPENDENCY_INSTALL; SUPPLY_CHAIN_REMOTE_SCRIPT_EXECUTION;
   SUPPLY_CHAIN_UNEXPECTED_REGISTRY_HOST; SUPPLY_CHAIN_LOCKFILE_OUTSIDE_OWNED_PATHS].

(** ** Vocabulary *)

Definition _LOCKFILE_NAMES : list string :=
  ["package-lock.json"; "npm-shrinkwrap.json"; "pnpm-lock.yaml"; "yarn.lock"; "bun.lock"; "bun.lockb";
   "poetry.lock"; "uv.lock"; "Pipfile.lock"; "Cargo.lock"; "go.sum"; "composer.lock"; "Gemfile.lock";
   "mix.lock"; "gradle.lockfile"; "packages.lock.json"].
Definition _KNOWN_COMMANDS : list string :=
  ["npm"; "pnpm"; "yarn"; "bun"; "pip"; "pip3"; "uv"; "python"; "python3"; "curl"; "wget"; "sh"; "bash";
   "zsh"; "dash"; "fish"; "ruby"; "perl"; "node"; "sudo"; "env"; "export"; "command"].
Definition _PYTHON_EXECUTABLE_PATTERN : regex := re_compile NOFLAG "^python(?:\d+(?:\.\d+)*)?$".
Definition _PIP_EXECUTABLE_PATTERN : regex := re_compile NOFLAG "^pip(?:\d+(?:\.\d+)*)?$".
Definition _REMOTE_SCRIPT_INTERPRETERS : list string :=
  ["sh"; "bash"; "zsh"; "dash"; "fish"; "python"; "python3"; "ruby"; "perl"; "node"].
Definition _REMOTE_SCRIPT_INTERPRETER_ENV_VARS : list string :=
  ["BASH"; "DASH"; "FISH"; "NODE"; "NODE_BINARY"; "NODE_BIN"; "PERL"; "PYTHON"; "PYTHON3";
   "PYTHON_BINARY"; "PYTHON_BIN"; "PYTHON_EXECUTABLE"; "RUBY"; "SHELL"; "SH"; "ZSH"].
Definition _SHELL_COMMAND_INTERPRETERS : list string := ["sh"; "bash"; "zsh"; "dash"; "fish"].
Definition _SHELL_COMMAND_PAYLOAD_MAX_DEPTH : nat := 4.
Definition _SHELL_COMMAND_VALUE_OPTIONS : list string := ["-o"; "+o"; "-O"; "+O"].
Definition _URL_CREDENTIAL_PATTERN : regex := re_compile NOFLAG "(https?://)[^/@\s]+(?::[^/@\s]+)?@".
Definition _SHELL_ASSIGNMENT_PATTERN : regex := re_compile NOFLAG "^[A-Za-z_][A-Za-z0-9_]*=".
Definition _PIP_VCS_SPEC_PREFIXES : list string := ["git+"; "hg+"; "svn+"; "bzr+"].
Definition _NODE_REMOTE_SPEC_PREFIXES : list string :=
  ["git+"; "git://"; "http://"; "https://"; "ssh://"; "github:"; "gitlab:"; "bitbucket:"].
Definition _NODE_LOCAL_SPEC_PREFIXES : list string := ["workspace:"; "link:"].
Definition _NODE_UNPINNED_VERSION_MARKERS : list string := [""; "*"; "latest"].
Definition _NODE_SEMVER_RANGE_PREFIXES : list string := ["^"; "~"; ">"; "<"].
Definition _NODE_PARTIAL_SEMVER_PATTERN : regex := re_compile NOFLAG "^v?\d+(?:\.\d+)?$".
Definition _NODE_SEMVER_WILDCARD_PATTERN : regex := re_compile IGNORECASE "(^|[.\-])(?:x|\*)($|[.\-])".
Definition _NODE_GIT_COMMIT_FRAGMENT_PATTERN : regex :=
  re_compile IGNORECASE "^(?:[0-9a-f]{40}|[0-9a-f]{64})$".
Definition _NODE_SCP_GIT_SPEC_PATTERN : regex := re_compile NOFLAG "^[^@\s]+@[^:\s]+:.+".
Definition _PIP_REGISTRY_ENV_VARS : list string := ["PIP_EXTRA_INDEX_URL"; "PIP_INDEX_URL"].
Definition _NODE_REGISTRY_ENV_VARS : list string :=
  ["BUN_CONFIG_REGISTRY"; "COREPACK_NPM_REGISTRY"; "NPM_CONFIG_REGISTRY"; "PNPM_CONFIG_REGISTRY";
   "YARN_NPM_REGISTRY_SERVER"; "bun_config_registry"; "corepack_npm_registry"; "npm_config_registry";
   "pnpm_config_registry"; "yarn_npm_registry_server"].
Definition _PIP_GLOBAL_VALUE_FLAGS : list string :=
  ["--cache-dir"; "--cert"; "--client-cert"; "--exists-action"; "--keyring-provider"; "--log"; "--proxy";
   "--python"; "--retries"; "--timeout"; "--trusted-host"; "--use-deprecated"; "--use-feature"].
Definition _PYTHON_INTERPRETER_VALUE_FLAGS : list string := ["--check-hash-based-pycs"; "-W"; "-X"].
Definition _PYTHON_INTERPRETER_ATTACHED_VALUE_PREFIXES : list string := ["-W"; "-X"].
Definition _SHELL_CONTROL_OPERATORS : list string := [";"; "&&"; "||"].
Definition _SHELL_PIPE_OPERATORS : list string := ["|"; "|&"].
Definition _SHELL_PACKAGE_BOUNDARIES : list string := _SHELL_CONTROL_OPERATORS ++ _SHELL_PIPE_OPERATORS.

Definition NODE_MANAGERS : list string := ["npm"; "pnpm"; "yarn"; "bun"].

(** The options with a value of [sudo] and [env]. *)
Definition SUDO_VALUE_FLAGS : list string :=
  ["-a"; "--auth-type"; "-C"; "--close-from"; "-c"; "--login-class"; "-g"; "--group"; "-h"; "--host";
   "-p"; "--prompt"; "-R"; "--chroot"; "-r"; "--role"; "-t"; "--type"; "-U"; "--other-user"; "-u";
   "--user"].
Definition ENV_VALUE_FLAGS : list string :=
  ["--argv0"; "-C"; "--chdir"; "-S"; "--split-string"; "-u"; "--unset"].

Definition _value_flags (manager : string) : list string :=
  if eqb manager "pip"
  then ["-r"; "--requirement"; "-c"; "--constraint"; "-i"; "--index-url"; "--extra-index-url"; "-C";
        "--config-settings"; "-f"; "--find-links"; "--abi"; "--build-option"; "--global-option";
        "--group"; "--implementation"; "--no-binary"; "--only-binary"; "--platform"; "--progress-bar";
        "--python-version"; "--report"; "--root"; "--src"; "--trusted-host"; "-t"; "--target";
        "--upgrade-strategy"; "--python"]
  else ["--registry"; "--cache"; "--prefix"; "--workspace"; "-w"; "--tag"; "--filter"; "--include";
        "--omit"; "--install-strategy"; "--save-prefix"; "--mode"; "--cache-folder"; "--modules-folder";
        "--cwd"; "--cpu"; "--os"; "--libc"].

(** ** Text *)

(** [value.startswith(prefixes)] *)
Definition starts_with_any (prefixes : list string) (s : string) : bool :=
  existsb (fun p => starts_with p s) prefixes.
Definition ends_with_any (suffixes : list string) (s : string) : bool :=
  existsb (fun p => ends_with p s) suffixes.

(** [any(arg.startswith(f"{flag}=") for flag in flags)] *)
Definition has_flag_value (flags : list string) (arg : string) : bool :=
  existsb (fun flag => starts_with (flag +:+ "=") arg) flags.

(** [s.split(maxsplit=1)[0]] of a stripped text *)
Definition first_word (s : string) : string := (span_str (fun c => negb (is_space c)) s).1.

(** [s.strip("()[]{};,")] *)
Definition is_shell_mark (c : ascii) : bool := has_char c "()[]{};,".
Definition strip_marks (s : string) : string := rstrip_by is_shell_mark (lstrip_by is_shell_mark s).

(** ** Tokens *)

Definition _shell_tokens (command : string) : list string :=
  default [] (shlex (punctuation_of ";&|") command).

(** [while word.startswith("$("): word = word[2:]] *)
Fixpoint drop_substitutions (word : string) : string :=
  match word with
  | String c (String d rest) =>
      if Ascii.eqb c (char 36) && Ascii.eqb d (char 40) then drop_substitutions rest else word
  | _ => word
  end.

Definition _shell_token_word (token : string) : string :=
  strip_marks (strip (drop_substitutions (strip token))).

(** [PurePosixPath(_shell_token_word(token)).name] *)
Definition command_name (token : string) : string := posix_name (_shell_token_word token).

Fixpoint segments_go (separators : list string) (current : list string) (tokens : list string)
  : list (list string) :=
  match tokens with
  | [] => match current with [] => [] | _ => [current] end
  | t :: rest =>
      if mem t separators
      then match current with
           | [] => segments_go separators [] rest
           | _ => current :: segments_go separators [] rest
           end
      else segments_go separators (current ++ [t]) rest
  end.

Definition _command_token_segments (tokens separators : list string) : list (list string) :=
  segments_go separators [] tokens.

Definition _is_shell_assignment (token : string) : bool :=
  found (re_match (r_pat _SHELL_ASSIGNMENT_PATTERN) token).

Definition _is_python_executable (command : string) : bool :=
  found (re_fullmatch (r_pat _PYTHON_EXECUTABLE_PATTERN) command).
Definition _is_pip_executable (command : string) : bool :=
  found (re_fullmatch (r_pat _PIP_EXECUTABLE_PATTERN) command).
Definition _is_known_evidence_command (command : string) : bool :=
  mem command _KNOWN_COMMANDS || _is_python_executable command || _is_pip_executable command.

(** ** Wrappers *)

(** The tokens from [index] on, and the assignments that were skipped. *)
Fixpoint _skip_wrapper_options (value_flags : list string) (skip_assignments : bool)
    (env_assignments : list string) (tokens : list string) : list string * list string :=
  match tokens with
  | [] => ([], env_assignments)
  | token :: rest =>
      if skip_assignments && _is_shell_assignment token
      then _skip_wrapper_options value_flags skip_assignments (env_assignments ++ [token]) rest
      else if eqb token "--" then (rest, env_assignments)
      else if mem token value_flags
      then match rest with
           | _ :: rest' => _skip_wrapper_options value_flags skip_assignments env_assignments rest'
           | [] => ([], env_assignments)
           end
      else if has_flag_value value_flags token
      then _skip_wrapper_options value_flags skip_assignments env_assignments rest
      else if starts_with "-" token
      then _skip_wrapper_options value_flags skip_assignments env_assignments rest
      else (tokens, env_assignments)
  end.

(** The fuel counts tokens: every turn of the loop consumes one at least. *)
Fixpoint strip_prefixes (fuel : nat) (env_assignments : list string) (tokens : list string)
  : list string * list string :=
  match fuel, tokens with
  | S fuel, token :: rest =>
      let command := command_name token in
      let skip value_flags skip_assignments :=
        let '(rest', env) := _skip_wrapper_options value_flags skip_assignments [] rest in
        strip_prefixes fuel (env_assignments ++ env) rest' in
      if _is_shell_assignment token then strip_prefixes fuel (env_assignments ++ [token]) rest
      else if eqb command "sudo" then skip SUDO_VALUE_FLAGS false
      else if eqb command "env" then skip ENV_VALUE_FLAGS true
      else if eqb command "export" then skip [] true
      else if eqb command "command" then skip [] false
      else (tokens, env_assignments)
  | _, _ => (tokens, env_assignments)
  end.

(** [_PackageCommandPrefixes]: the tokens and the assignments. *)
Definition _strip_package_command_prefixes (tokens : list string) : list string * list string :=
  strip_prefixes (length tokens) [] tokens.

Definition _export_env_assignments (tokens : list string) : list string :=
  match tokens with
  | [] => []
  | t :: rest => if eqb (command_name t) "export" then (_skip_wrapper_options [] true [] rest).2 else []
  end.

(** A dict of assignments by name keeps the place of the first and the text of the last. *)
Fixpoint set_assignment (target : list (string * string)) (name assignment : string)
  : list (string * string) :=
  match target with
  | [] => [(name, assignment)]
  | (k, v) :: rest => if eqb k name then (k, assignment) :: rest
                      else (k, v) :: set_assignment rest name assignment
  end.

Definition _remember_env_assignments (target : list (string * string)) (assignments : list string)
  : list (string * string) :=
  foldl (fun target assignment =>
    let '(name, separator, _) := partition (char 61) assignment in
    if separator : bool then set_assignment target name assignment else target) target assignments.

Definition _combined_env_assignments (groups : list (list string)) : list string :=
  map snd (foldl _remember_env_assignments [] groups).

(** ** URLs *)

(** [s.split(sep, maxsplit=1)[0]] for one character *)
Definition before_char (c : ascii) (s : string) : string := (partition c s).1.1.

Definition split_url (url : string) : result string SplitResult :=
  match urlsplit url with inr u => Ok u | inl message => Err message end.

Definition _host_from_url (value : string) : result string (option string) :=
  parsed <-? split_url (if contains "://" value then value else "https://" +:+ value) ;;
  Ok ((fun host => rstrip_by (Ascii.eqb dot) (lower host)) <$> hostname parsed).

(** ** Package specifiers *)

Definition _is_local_spec (spec : string) : bool :=
  mem spec ["."; "./"] || starts_with_any ["./"; "../"; "/"; "file:"] spec.

Definition _looks_like_pip_url_install_target (spec : string) : bool :=
  let normalized := lower (strip spec) in
  contains "://" normalized || starts_with_any _PIP_VCS_SPEC_PREFIXES normalized.

Definition _looks_like_requirements_file (spec : string) : bool :=
  if _looks_like_pip_url_install_target spec then false
  else ends_with_any [".txt"; ".in"; ".lock"] spec || contains "/" spec.

Definition _is_pinned_pip_vcs_spec (spec : string) : result string bool :=
  let target := default spec (after_first " @ " spec) in
  let normalized := strip target in
  match List.find (fun candidate => starts_with candidate normalized) _PIP_VCS_SPEC_PREFIXES with
  | None => Ok false
  | Some prefix =>
      parsed <-? split_url (before_char (char 35) (remove_prefix prefix normalized)) ;;
      match rpartition at_sign (u_path parsed) with
      | None => Ok false
      | Some (_, revision) => Ok (negb (eqb (strip revision) ""))
      end
  end.

Definition _is_pinned_pip_spec (spec : string) : result string bool :=
  if contains "==" spec || contains "===" spec
     || starts_with_any ["-r"; "--requirement"] spec
     || starts_with_any ["file:"; "git+file:"] spec
  then Ok true else _is_pinned_pip_vcs_spec spec.

Definition _node_spec_fragment (spec : string) : option string := snd <$> rpartition (char 35) spec.

Definition _looks_like_node_remote_spec (spec : string) : bool :=
  starts_with_any _NODE_REMOTE_SPEC_PREFIXES spec
  || found (re_match (r_pat _NODE_SCP_GIT_SPEC_PATTERN) spec).

(** Every alias that is opened shortens the text, which is the fuel. *)
Fixpoint node_package_version (fuel : nat) (spec : string) : option string :=
  match fuel, after_first "@npm:" spec with
  | S fuel, Some aliased => node_package_version fuel aliased
  | _, _ =>
      if starts_with "@" spec
      then snd <$> rpartition at_sign (partition slash spec).2
      else snd <$> rpartition at_sign spec
  end.
Definition _node_package_version (spec : string) : option string :=
  node_package_version (str_len spec) spec.

Definition _node_git_fragment_is_pinned (fragment : string) : bool :=
  found (re_fullmatch (r_pat _NODE_GIT_COMMIT_FRAGMENT_PATTERN) (strip fragment)).

Definition _node_pin_value_is_semver_range (value : string) : bool :=
  starts_with_any _NODE_SEMVER_RANGE_PREFIXES value
  || contains "||" value || contains " - " value
  || negb (all_chars (fun c => negb (is_space c)) value)
  || found (re_fullmatch (r_pat _NODE_PARTIAL_SEMVER_PATTERN) value)
  || found (re_search (r_pat _NODE_SEMVER_WILDCARD_PATTERN) value).

Definition _node_pin_value_is_pinned (value : string) : bool :=
  let normalized := lower (strip value) in
  let normalized := if starts_with "semver:" normalized
                    then strip (remove_prefix "semver:" normalized) else normalized in
  negb (mem normalized _NODE_UNPINNED_VERSION_MARKERS)
  && negb (_node_pin_value_is_semver_range normalized).

Definition _is_pinned_node_spec (spec : string) : bool :=
  if starts_with_any _NODE_LOCAL_SPEC_PREFIXES spec then true
  else match _node_spec_fragment spec with
       | Some fragment => _node_git_fragment_is_pinned fragment
       | None =>
           if _looks_like_node_remote_spec spec then false
           else match _node_package_version spec with
                | Some version => _node_pin_value_is_pinned version
                | None => false
                end
       end.

Definition _is_pinned_or_local_spec (manager spec : string) : result string bool :=
  if _is_local_spec spec then Ok true
  else if mem manager NODE_MANAGERS then Ok (_is_pinned_node_spec spec)
  else _is_pinned_pip_spec spec.

(** ** Package commands *)

Record _PackageCommand : Type := {
  pk_manager : string;
  pk_operation : string;
  pk_package_specs : list string;
  pk_registry_hosts : list string
}.

Definition _has_any_flag (args flags : list string) : bool :=
  existsb (fun arg => mem arg flags || has_flag_value flags arg) args.

(** The specifiers among the arguments; an option with a value takes the argument after it. *)
Fixpoint _package_args (manager : string) (args : list string) : list string :=
  match args with
  | [] => []
  | arg :: rest =>
      let value_flags := _value_flags manager in
      if eqb arg "--" then List.filter (fun item => negb (starts_with "-" item)) rest
      else if mem arg ["-e"; "--editable"] && eqb manager "pip" then
        match rest with
        | [] => []
        | next_arg :: rest' =>
            if _is_local_spec next_arg then _package_args manager rest'
            else if eqb next_arg "" then _package_args manager rest
            else next_arg :: _package_args manager rest'
        end
      else if mem arg value_flags then
        match rest with [] => [] | _ :: rest' => _package_args manager rest' end
      else if has_flag_value value_flags arg || starts_with "-" arg
              || (eqb manager "pip" && _looks_like_requirements_file arg)
      then _package_args manager rest
      else arg :: _package_args manager rest
  end.

(** [if host is not None and host not in hosts: hosts.append(host)] *)
Definition add_host (hosts : list string) (value : string) : result string (list string) :=
  host <-? _host_from_url value ;;
  Ok (match host with
      | Some h => if mem h hosts then hosts else hosts ++ [h]
      | None => hosts
      end).

Fixpoint add_hosts (hosts values : list string) : result string (list string) :=
  match values with
  | [] => Ok hosts
  | value :: rest => hosts <-? add_host hosts value ;; add_hosts hosts rest
  end.

(** The texts that [_pip_env_registry_hosts] and [_node_env_registry_hosts] read as URLs. *)
Definition env_registry_values (names env_assignments : list string) : list string :=
  flat_map (fun assignment =>
    let '(name, separator, value) := partition (char 61) assignment in
    if negb separator || negb (mem name names) then []
    else match _shell_tokens value with [] => [value] | values => values end) env_assignments.

Definition _pip_env_registry_hosts (env_assignments : list string) : result string (list string) :=
  add_hosts [] (env_registry_values _PIP_REGISTRY_ENV_VARS env_assignments).
Definition _node_env_registry_hosts (env_assignments : list string) : result string (list string) :=
  add_hosts [] (env_registry_values _NODE_REGISTRY_ENV_VARS env_assignments).

(** The part after [flag=], or after a short flag that takes its value attached. *)
Fixpoint attached_value (flags attached_short_flags : list string) (arg : string) : option string :=
  match flags with
  | [] => None
  | flag :: rest =>
      if starts_with (flag +:+ "=") arg then Some (drop_str (S (str_len flag)) arg)
      else if mem flag attached_short_flags && starts_with flag arg
      then Some (drop_str (str_len flag) arg)
      else attached_value rest attached_short_flags arg
  end.

Fixpoint registry_values (flags attached_short_flags args : list string) : list string :=
  match args with
  | [] => []
  | arg :: rest =>
      let value := match rest with
                   | next :: _ => if mem arg flags then Some next
                                  else attached_value flags attached_short_flags arg
                   | [] => attached_value flags attached_short_flags arg
                   end in
      option_list value ++ registry_values flags attached_short_flags rest
  end.

Definition _registry_hosts (manager : string) (env_assignments args : list string)
  : result string (list string) :=
  let node := mem manager NODE_MANAGERS in
  hosts <-? (if eqb manager "pip" then _pip_env_registry_hosts env_assignments
             else if node then _node_env_registry_hosts env_assignments else Ok []) ;;
  add_hosts hosts
    (registry_values (if node then ["--registry"] else ["--index-url"; "--extra-index-url"; "-i"])
       (if eqb manager "pip" then ["-i"] else []) args).

(** The arguments after [install], when that is the first word after the options. *)
Definition _pip_install_index (tokens : list string) : option (list string) :=
  match (_skip_wrapper_options _PIP_GLOBAL_VALUE_FLAGS false [] tokens).1 with
  | operation :: args => if eqb operation "install" then Some args else None
  | [] => None
  end.

Definition _pip_command (manager : string) (env_assignments tokens : list string)
  : result string (option _PackageCommand) :=
  match _pip_install_index tokens with
  | None => Ok None
  | Some args =>
      registries <-? _registry_hosts "pip" env_assignments args ;;
      Ok (Some {| pk_manager := manager; pk_operation := "install";
                  pk_package_specs := _package_args "pip" args; pk_registry_hosts := registries |})
  end.

Definition LOCKFILE_FLAGS : list string :=
  ["--frozen-lockfile"; "--frozen"; "--immutable"; "--pure-lockfile"; "--offline"].

Definition _node_package_command (manager : string) (env_assignments tokens : list string)
  : result string (option _PackageCommand) :=
  match tokens with
  | [] => Ok None
  | operation :: args =>
      let command packages :=
        registries <-? _registry_hosts manager env_assignments args ;;
        Ok (Some {| pk_manager := manager; pk_operation := operation; pk_package_specs := packages;
                    pk_registry_hosts := registries |}) in
      if eqb manager "npm" && eqb operation "ci" then command []
      else if negb (mem operation ["install"; "i"; "add"]) then Ok None
      else command (if mem operation ["install"; "i"] && _has_any_flag args LOCKFILE_FLAGS
                    then [] else _package_args manager args)
  end.

(** The arguments of pip in [python -m pip ...], without the interpreter itself. *)
Fixpoint python_m_args (tokens : list string) : option (list string) :=
  match tokens with
  | [] => None
  | token :: rest =>
      if eqb token "--" then None
      else if eqb token "-m" then
        match rest with
        | module :: args => if eqb (_shell_token_word module) "pip" then Some args else None
        | [] => None
        end
      else if starts_with "-m" token
      then if eqb (drop_str 2 token) "pip" then Some rest else None
      else if mem token _PYTHON_INTERPRETER_VALUE_FLAGS then
        match rest with _ :: rest' => python_m_args rest' | [] => None end
      else if has_flag_value _PYTHON_INTERPRETER_VALUE_FLAGS token
              || existsb (fun prefix => starts_with prefix token && negb (eqb token prefix))
                   _PYTHON_INTERPRETER_ATTACHED_VALUE_PREFIXES
              || starts_with "-" token
      then python_m_args rest
      else None
  end.
Definition _python_m_pip_args (tokens : list string) : option (list string) :=
  python_m_args (tail tokens).

Definition _package_command (env_assignments tokens : list string)
  : result string (option _PackageCommand) :=
  let '(tokens, prefix_env) := _strip_package_command_prefixes tokens in
  let env := _combined_env_assignments [env_assignments; prefix_env] in
  match tokens with
  | [] => Ok None
  | token :: args =>
      let first := command_name token in
      if _is_python_executable first then
        match _python_m_pip_args tokens with
        | None => Ok None
        | Some pip_args => _pip_command "pip" env pip_args
        end
      else if eqb first "uv" && eqb (head args) (Some "pip") then _pip_command "uv pip" env (tail args)
      else if _is_pip_executable first then _pip_command "pip" env args
      else if mem first NODE_MANAGERS then _node_package_command first env args
      else Ok None
  end.

(** ** Downloads and interpreters *)

Definition _remote_url_value (token : string) : option string :=
  let value := _shell_token_word token in
  if starts_with_any ["http://"; "https://"] value then Some value else None.

Definition _is_remote_url_token (token : string) : bool :=
  if _remote_url_value token is Some _ then true else false.

Definition DOWNLOADERS : list string := ["curl"; "wget"].

Definition _is_remote_fetch (tokens : list string) : bool :=
  match tokens with
  | [] => false
  | token :: args => mem (command_name token) DOWNLOADERS && existsb _is_remote_url_token args
  end.

Definition is_identifier (s : string) : bool :=
  found (re_fullmatch (r_pat (re_compile NOFLAG "[A-Za-z_][A-Za-z0-9_]*")) s).

Definition _shell_variable_name (value : string) : option string :=
  candidate ← (if starts_with "${" value then
                 let candidate := drop_str 2 value in
                 Some (if ends_with "}" candidate
                       then take_str (str_len candidate - 1) candidate else candidate)
               else if starts_with "$" value then Some (drop_str 1 value) else None);
  if is_identifier candidate then Some candidate else None.

Definition _is_remote_script_interpreter_env_var (command : string) : bool :=
  match _shell_variable_name command with
  | Some name => mem name _REMOTE_SCRIPT_INTERPRETER_ENV_VARS
  | None => false
  end.

Definition _is_remote_script_interpreter (command : string) : bool :=
  mem command _REMOTE_SCRIPT_INTERPRETERS || _is_python_executable command
  || _is_remote_script_interpreter_env_var command.

(** The tokens after the interpreter. *)
Fixpoint _interpreter_index (tokens : list string) : option (list string) :=
  match tokens with
  | [] => None
  | token :: rest =>
      if mem token ["env"; "sudo"; "command"] || contains "=" token then _interpreter_index rest
      else if _is_remote_script_interpreter (command_name token) then Some rest else None
  end.

Definition _pipe_target_is_interpreter (tokens : list string) : bool :=
  if _interpreter_index tokens is Some _ then true else false.

Definition _interpreter_script_target (tokens : list string) : option string :=
  args ← _interpreter_index tokens;
  List.find (fun token => negb (starts_with "-" token || mem token ["<"; ">"; ">>"; "2>"; "1>"])) args.

(** The file an option of [curl] or [wget] names; [next] is the argument after it. *)
Definition curl_output_target (arg : string) (next : option string) : option string :=
  if mem arg ["-o"; "--output"] && negb (eqb next None) then next
  else if starts_with "--output=" arg then Some (drop_str (str_len "--output=") arg)
  else if starts_with "-" arg && negb (starts_with "--" arg) then
    match rpartition (char 111) (drop_str 1 arg) with
    | None => None
    | Some (_, attached_value) => if eqb attached_value "" then next else Some attached_value
    end
  else None.

Definition wget_output_target (arg : string) (next : option string) : option string :=
  if mem arg ["-O"; "--output-document"] && negb (eqb next None) then next
  else if starts_with "--output-document=" arg then Some (drop_str (str_len "--output-document=") arg)
  else if starts_with "-" arg && negb (starts_with "--" arg) then
    match rpartition (char 79) arg with
    | None => None
    | Some (_, attached_value) => if eqb attached_value "" then next else Some attached_value
    end
  else None.

Fixpoint output_targets (target : string -> option string -> option string) (args : list string)
  : list string :=
  match args with
  | [] => []
  | arg :: rest => option_list (target arg (head rest)) ++ output_targets target rest
  end.

Definition _remote_fetch_output_targets (tokens : list string) : list string :=
  match tokens with
  | [] => []
  | token :: args =>
      let command := command_name token in
      List.filter (fun target => negb (eqb target "-"))
        (if eqb command "curl" then output_targets curl_output_target args
         else if eqb command "wget" then output_targets wget_output_target args else [])
  end.

(** The file names in the paths of the URLs among the tokens. *)
Fixpoint url_names (tokens : list string) : result string (list string) :=
  match tokens with
  | [] => Ok []
  | token :: rest =>
      match _remote_url_value token with
      | None => url_names rest
      | Some url =>
          parsed <-? split_url url ;;
          names <-? url_names rest ;;
          Ok (posix_name (u_path parsed) :: names)
      end
  end.

Definition _remote_fetch_artifact_names (tokens : list string) : result string (list string) :=
  if negb (_is_remote_fetch tokens) then Ok []
  else
    names <-? url_names (tail tokens) ;;
    Ok (List.filter (fun name => negb (eqb name ""))
          (names ++ map posix_name (_remote_fetch_output_targets tokens))).

(** ** Remote scripts *)

(** [seen] are the tokens before the rest of the segment. *)
Fixpoint piped_to_interpreter (seen tokens : list string) : bool :=
  match tokens with
  | [] => false
  | token :: rest =>
      (mem token _SHELL_PIPE_OPERATORS && _is_remote_fetch seen && _pipe_target_is_interpreter rest)
      || piped_to_interpreter (seen ++ [token]) rest
  end.

Definition _has_piped_remote_script_execution (tokens : list string) : bool :=
  existsb (piped_to_interpreter []) (_command_token_segments tokens _SHELL_CONTROL_OPERATORS).

Definition runs_artifact (artifact_names tokens : list string) : bool :=
  match _interpreter_script_target tokens with
  | Some target => mem (posix_name target) artifact_names
  | None => false
  end.

Fixpoint chained_execution (segments : list (list string)) : result string bool :=
  match segments with
  | [] | [_] => Ok false
  | fetch_tokens :: later =>
      artifact_names <-? _remote_fetch_artifact_names fetch_tokens ;;
      if existsb (runs_artifact artifact_names) later then Ok true else chained_execution later
  end.

Definition _has_chained_remote_script_execution (tokens : list string) : result string bool :=
  chained_execution (_command_token_segments tokens _SHELL_CONTROL_OPERATORS).

(** The arguments up to the one that closes the substitution. *)
Fixpoint _process_substitution_args (tokens : list string) : list string :=
  match tokens with
  | [] => []
  | token :: rest => token :: (if ends_with ")" token then [] else _process_substitution_args rest)
  end.

Definition substituted_fetch (fetch_tokens : list string) : bool :=
  match fetch_tokens with
  | [] => false
  | token :: args => mem (command_name token) DOWNLOADERS
                     && existsb _is_remote_url_token (_process_substitution_args args)
  end.

Fixpoint process_substitution (tokens : list string) : bool :=
  match tokens with
  | [] => false
  | token :: rest =>
      (if eqb token "<(" then substituted_fetch rest
       else if starts_with "<(" token then substituted_fetch (drop_str 2 token :: rest) else false)
      || process_substitution rest
  end.

Definition _has_process_substitution_remote_script_execution (tokens : list string) : bool :=
  existsb (fun segment => _pipe_target_is_interpreter segment && process_substitution segment)
    (_command_token_segments tokens _SHELL_CONTROL_OPERATORS).

Definition _has_command_substitution_remote_script_execution (tokens : list string) : bool :=
  existsb (fun segment =>
    starts_with "$(" (strip (default "" (head segment)))
    && existsb (fun token => ends_with ")" (rstrip token)) segment
    && _is_remote_fetch segment)
    (_command_token_segments tokens _SHELL_CONTROL_OPERATORS).

(** The four tests with their [or]: only the second can raise. *)
Definition remote_script_detected (tokens : list string) : result string bool :=
  if _has_piped_remote_script_execution tokens then Ok true
  else
    chained <-? _has_chained_remote_script_execution tokens ;;
    Ok (chained || _has_process_substitution_remote_script_execution tokens
        || _has_command_substitution_remote_script_execution tokens).

(** ** Commands in the evidence *)

Fixpoint shell_payload (command : string) (tokens : list string) : option string :=
  match tokens with
  | [] => None
  | token :: rest =>
      if eqb token "-c" || (eqb command "fish" && eqb token "--command") then head rest
      else if eqb command "fish" && starts_with "--command=" token
      then Some (drop_str (str_len "--command=") token)
      else if mem token _SHELL_COMMAND_VALUE_OPTIONS then
        match rest with _ :: rest' => shell_payload command rest' | [] => None end
      else if starts_with "-" token && negb (starts_with "--" token)
      then if contains "c" (drop_str 1 token) then head rest else shell_payload command rest
      else if starts_with "--" token || starts_with "+" token then shell_payload command rest
      else None
  end.

Definition _shell_command_payload (tokens : list string) : option string :=
  match tokens with
  | [] => None
  | token :: args =>
      let command := command_name token in
      if mem command _SHELL_COMMAND_INTERPRETERS then shell_payload command args else None
  end.

Definition _shell_command_payloads (tokens : list string) : list string :=
  flat_map (fun segment =>
    match _shell_command_payload (_strip_package_command_prefixes segment).1 with
    | Some payload => if eqb payload "" then [] else [payload]
    | None => []
    end) (_command_token_segments tokens _SHELL_PACKAGE_BOUNDARIES).

(** The nested commands a command hands to a shell, as stripped lines. *)
Definition nested_commands (command : string) : list string :=
  List.filter (fun nested => negb (eqb nested ""))
    (map strip (flat_map splitlines (_shell_command_payloads (_shell_tokens command)))).

(** [depth] counts down from [_SHELL_COMMAND_PAYLOAD_MAX_DEPTH]. *)
Fixpoint _command_with_shell_payloads (depth : nat) (command : string) : list string :=
  command :: match depth with
             | O => []
             | S depth => flat_map (_command_with_shell_payloads depth) (nested_commands command)
             end.

Definition _command_from_line (line : string) : option string :=
  let stripped := strip line in
  if eqb stripped "" then None
  else match List.find (fun prefix => starts_with prefix stripped) ["$ "; "> "; "+ "] with
  | Some prefix => Some (strip (drop_str (str_len prefix) stripped))
  | None =>
      match List.find (fun label => starts_with label (lower stripped))
              ["command:"; "executed:"; "shell:"; "run:"] with
      | Some label => Some (strip (drop_str (str_len label) stripped))
      | None =>
          if _is_known_evidence_command (posix_name (first_word stripped)) then Some stripped
          else match (_strip_package_command_prefixes (_shell_tokens stripped)).1 with
               | [] => None
               | token :: _ => if _is_known_evidence_command (command_name token)
                               then Some stripped else None
               end
      end
  end.

(** The evidence as the texts of its blobs; one text is a list of one. *)
Definition _command_lines (command_evidence : list string) : list string :=
  flat_map (fun line =>
    match _command_from_line line with
    | Some command =>
        if eqb command "" then []
        else _command_with_shell_payloads _SHELL_COMMAND_PAYLOAD_MAX_DEPTH command
    | None => []
    end) (flat_map splitlines command_evidence).
