(* ===== verification/Findings.v ===== *)
(** * Durable findings

    [StaleReasonRepository.replace_active_findings] and
    [PolicyFindingRepository.replace_active_findings] of
    [db/repositories/quality_repo.py].  Both tables keep history: the active rows
    of a subject are made to match a list of findings, rows that no longer apply
    are resolved, never deleted.  The two repositories run the same loop over
    different rows; the loop is written once against an interface, which each table
    implements. *)

From S2P Require Import Prelude PyStr Json PyFloat PyVal Readiness ScopePolicy.
#[local] Open Scope Z_scope.

(** ** The interface *)

(** A table of findings: how rows and findings are keyed, and what resolving and
    inserting do.  The laws are what the loop relies on. *)
Class FindingTable (Subject Row Finding Key : Type) `{EqDecision Key} := {
  row_key : Row -> Key;
  finding_key : Finding -> Key;
  (** The row is active and belongs to the subject. *)
  active_for : Subject -> Row -> bool;
  row_order : Row -> Row -> bool;
  resolve : Z -> Row -> Row;
  create : Subject -> string -> Z -> Finding -> Row;
  (** The finding is one the caller may report for the subject. *)
  suits : Subject -> Finding -> bool;
  resolve_inactive : forall s t r, active_for s (resolve t r) = false;
  create_active : forall s id t f, suits s f = true -> active_for s (create s id t f) = true;
  create_key : forall s id t f, row_key (create s id t f) = finding_key f
}.

(** ** Stale reasons *)

Record StaleReason : Type := {
  sr_id : string;
  sr_workspace_id : string;
  sr_candidate_id : option string;
  sr_attempt_id : option string;
  sr_task_id : option string;
  sr_trigger_type : string;
  sr_trigger_ref : option string;
  sr_reason_code : string;
  sr_explanation : string;
  sr_status : string;
  sr_detected_at : Z;
  sr_resolved_at : option Z
}.

Definition stale_row_blocks_merge (r : StaleReason) : bool :=
  stale_reason_blocks_merge (Some (sr_reason_code r)).

Record StaleReasonCreate : Type := {
  sc_reason_code : string;
  sc_trigger_type : string;
  sc_trigger_ref : option string;
  sc_explanation : string
}.

(** The identifiers a finding is recorded under. *)
Record CandidateRef : Type := {
  cr_workspace_id : string;
  cr_candidate_id : string;
  cr_attempt_id : option string;
  cr_task_id : option string
}.

Definition resolve_stale (now : Z) (r : StaleReason) : StaleReason :=
  {| sr_id := sr_id r; sr_workspace_id := sr_workspace_id r;
     sr_candidate_id := sr_candidate_id r; sr_attempt_id := sr_attempt_id r;
     sr_task_id := sr_task_id r; sr_trigger_type := sr_trigger_type r;
     sr_trigger_ref := sr_trigger_ref r; sr_reason_code := sr_reason_code r;
     sr_explanation := sr_explanation r; sr_status := "resolved";
     sr_detected_at := sr_detected_at r; sr_resolved_at := Some now |}.

Definition create_stale (s : CandidateRef) (id : string) (now : Z) (f : StaleReasonCreate)
  : StaleReason :=
  {| sr_id := id; sr_workspace_id := cr_workspace_id s;
     sr_candidate_id := Some (cr_candidate_id s); sr_attempt_id := cr_attempt_id s;
     sr_task_id := cr_task_id s; sr_trigger_type := sc_trigger_type f;
     sr_trigger_ref := sc_trigger_ref f; sr_reason_code := sc_reason_code f;
     sr_explanation := sc_explanation f; sr_status := "active"; sr_detected_at := now;
     sr_resolved_at := None |}.

Definition stale_active_for (s : CandidateRef) (r : StaleReason) : bool :=
  eqb (sr_candidate_id r) (Some (cr_candidate_id s)) && eqb (sr_status r) "active".

(** [order_by(detected_at.asc(), id.asc())] *)
Definition oldest_detected (at1 at2 : Z) (id1 id2 : string) : bool :=
  (at1 <? at2) || ((at1 =? at2) && str_leb id1 id2).

#[export] Program Instance stale_reason_table :
  FindingTable CandidateRef StaleReason StaleReasonCreate (string * string * option string) := {|
  row_key := fun r => (sr_reason_code r, sr_trigger_type r, sr_trigger_ref r);
  finding_key := fun f => (sc_reason_code f, sc_trigger_type f, sc_trigger_ref f);
  active_for := stale_active_for;
  row_order := fun x y =>
    oldest_detected (sr_detected_at x) (sr_detected_at y) (sr_id x) (sr_id y);
  resolve := resolve_stale;
  create := create_stale;
  suits := fun _ _ => true
|}.
Next Obligation. intros s t r. unfold stale_active_for. by rewrite andb_false_r. Qed.
Next Obligation. intros s id t f _. unfold stale_active_for. simpl. by rewrite !eqb_refl. Qed.
Next Obligation. done. Qed.

(** ** Policy findings *)

Record PolicyFinding : Type := {
  pf_id : string;
  pf_workspace_id : string;
  pf_candidate_id : option string;
  pf_attempt_id : option string;
  pf_task_id : option string;
  pf_reason_code : string;
  pf_severity : string;
  pf_subject_path : option string;
  pf_explanation : string;
  pf_details : json;
  pf_status : string;
  pf_detected_at : Z;
  pf_resolved_at : option Z
}.

Record PolicyFindingCreate : Type := {
  pc_reason_code : string;
  pc_severity : string;
  pc_subject_path : option string;
  pc_explanation : string;
  pc_details : json
}.

(** Policy findings are reconciled one reason code at a time. *)
Record PolicySubject : Type := {
  ps_workspace_id : string;
  ps_candidate_id : option string;
  ps_attempt_id : option string;
  ps_task_id : option string;
  ps_reason_code : string
}.

Definition resolve_policy (now : Z) (r : PolicyFinding) : PolicyFinding :=
  {| pf_id := pf_id r; pf_workspace_id := pf_workspace_id r;
     pf_candidate_id := pf_candidate_id r; pf_attempt_id := pf_attempt_id r;
     pf_task_id := pf_task_id r; pf_reason_code := pf_reason_code r;
     pf_severity := pf_severity r; pf_subject_path := pf_subject_path r;
     pf_explanation := pf_explanation r; pf_details := pf_details r; pf_status := "resolved";
     pf_detected_at := pf_detected_at r; pf_resolved_at := Some now |}.

Definition create_policy (s : PolicySubject) (id : string) (now : Z) (f : PolicyFindingCreate)
  : PolicyFinding :=
  {| pf_id := id; pf_workspace_id := ps_workspace_id s; pf_candidate_id := ps_candidate_id s;
     pf_attempt_id := ps_attempt_id s; pf_task_id := ps_task_id s;
     pf_reason_code := pc_reason_code f; pf_severity := pc_severity f;
     pf_subject_path := pc_subject_path f; pf_explanation := pc_explanation f;
     pf_details := pc_details f; pf_status := "active"; pf_detected_at := now;
     pf_resolved_at := None |}.

Definition policy_active_for (s : PolicySubject) (r : PolicyFinding) : bool :=
  eqb (pf_workspace_id r) (ps_workspace_id s) && eqb (pf_reason_code r) (ps_reason_code s)
  && eqb (pf_candidate_id r) (ps_candidate_id s) && eqb (pf_status r) "active".

(** [json.dumps(details, sort_keys=True, separators=(",", ":"))] *)
Definition details_text (details : json) : string := dumps (sort_keys details).

#[export] Program Instance policy_finding_table :
  FindingTable PolicySubject PolicyFinding PolicyFindingCreate
    (string * string * option string * string) := {|
  row_key := fun r =>
    (pf_reason_code r, pf_severity r, pf_subject_path r, details_text (pf_details r));
  finding_key := fun f =>
    (pc_reason_code f, pc_severity f, pc_subject_path f, details_text (pc_details f));
  active_for := policy_active_for;
  row_order := fun x y =>
    oldest_detected (pf_detected_at x) (pf_detected_at y) (pf_id x) (pf_id y);
  resolve := resolve_policy;
  create := create_policy;
  suits := fun s f => eqb (pc_reason_code f) (ps_reason_code s)
|}.
Next Obligation. intros s t r. unfold policy_active_for. by rewrite andb_false_r. Qed.
Next Obligation.
  intros s id t f H. cbv beta in H. rewrite eqb_true in H. unfold policy_active_for. simpl.
  by rewrite H, !eqb_refl.
Qed.
Next Obligation. done. Qed.

(** ** The loop *)

Section Reconcile.
Context {Subject Row Finding Key : Type} `{FT : FindingTable Subject Row Finding Key}.

(** [_list_for_...(status="active")] *)
Definition list_active (s : Subject) (table : list Row) : list Row :=
  sorted_by row_order (List.filter (active_for s) table).

Definition stays (finding_keys : list Key) (r : Row) : bool := mem (row_key r) finding_keys.

(** One row of the table after the first loop. *)
Definition keep_or_resolve (s : Subject) (now : Z) (finding_keys : list Key) (r : Row) : Row :=
  if active_for s r && negb (stays finding_keys r) then resolve now r else r.

Fixpoint insert_new (s : Subject) (new_id : nat -> string) (now : Z) (n : nat)
    (findings : list Finding) : list Row :=
  match findings with
  | [] => []
  | f :: rest => create s (new_id n) now f :: insert_new s new_id now (S n) rest
  end.

(** [replace_active_findings]: the new table, [newly_added] and [newly_resolved]. *)
Definition replace_active_findings (s : Subject) (new_id : nat -> string) (now : Z)
    (table : list Row) (findings : list Finding) : list Row * list Row * list Row :=
  let existing_active := list_active s table in
  let finding_keys := map finding_key findings in
  let newly_resolved :=
    map (resolve now) (List.filter (fun r => negb (stays finding_keys r)) existing_active) in
  let kept_keys := map row_key (List.filter (stays finding_keys) existing_active) in
  let newly_added :=
    insert_new s new_id now O
      (List.filter (fun f => negb (mem (finding_key f) kept_keys)) findings) in
  (map (keep_or_resolve s now finding_keys) table ++ newly_added, newly_added, newly_resolved).

(** ** The abstract state: the set of active keys of a subject *)

Definition active_keys (s : Subject) (table : list Row) : list Key :=
  map row_key (List.filter (active_for s) table).

Lemma elem_of_active_keys (s : Subject) (table : list Row) (k : Key) :
  k ∈ active_keys s table <-> exists r, r ∈ table /\ active_for s r = true /\ row_key r = k.
Proof.
  unfold active_keys. rewrite list_elem_of_fmap. setoid_rewrite elem_of_bfilter. naive_solver.
Qed.

Lemma insert_new_keys (s : Subject) (new_id : nat -> string) (now : Z) (n : nat)
    (findings : list Finding) :
  map row_key (insert_new s new_id now n findings) = map finding_key findings.
Proof.
  revert n. induction findings as [|f fs IH]; intros n; simpl; [done|].
  by rewrite create_key, IH.
Qed.

Lemma insert_new_active (s : Subject) (new_id : nat -> string) (now : Z) (n : nat)
    (findings : list Finding) :
  Forall (fun f => suits s f = true) findings ->
  Forall (fun r => active_for s r = true) (insert_new s new_id now n findings).
Proof.
  intros H. revert n. induction H as [|f fs Hf Hfs IH]; intros n; simpl; constructor; auto.
  by apply create_active.
Qed.

Lemma kept_keys_spec (s : Subject) (table : list Row) (keys : list Key) (k : Key) :
  k ∈ map row_key (List.filter (stays keys) (list_active s table)) <->
  k ∈ active_keys s table /\ k ∈ keys.
Proof.
  rewrite elem_of_active_keys, list_elem_of_fmap. unfold stays, list_active.
  setoid_rewrite elem_of_bfilter. setoid_rewrite elem_of_sorted_by.
  setoid_rewrite elem_of_bfilter. setoid_rewrite mem_true. naive_solver.
Qed.

Lemma elem_of_added (s : Subject) (new_id : nat -> string) (now : Z) (table : list Row)
    (findings : list Finding) (k : Key) :
  k ∈ map row_key (replace_active_findings s new_id now table findings).1.2 <->
  k ∈ map finding_key findings /\ k ∉ active_keys s table.
Proof.
  simpl. rewrite insert_new_keys, !list_elem_of_fmap.
  setoid_rewrite elem_of_bfilter. setoid_rewrite negb_true_iff. setoid_rewrite mem_false.
  setoid_rewrite kept_keys_spec. setoid_rewrite list_elem_of_fmap. split.
  - intros (f & -> & Hn & Hf). split; [eauto|]. intros Hk. apply Hn. eauto.
  - intros [(f & -> & Hf) Hn]. exists f. split_and!; [done| |done]. tauto.
Qed.

(** A row of the old table is unchanged, or was active and is resolved. *)
Lemma keep_or_resolve_cases (s : Subject) (now : Z) (keys : list Key) (r : Row) :
  (keep_or_resolve s now keys r = r /\ (active_for s r = true -> row_key r ∈ keys)) \/
  (keep_or_resolve s now keys r = resolve now r /\ active_for s r = true /\ row_key r ∉ keys).
Proof.
  unfold keep_or_resolve, stays. destruct (active_for s r); [|by left].
  destruct (mem (row_key r) keys) eqn:E; simpl.
  - left. by rewrite mem_true in E.
  - right. by apply mem_false in E.
Qed.

Lemma keep_or_resolve_id (s : Subject) (now : Z) (keys : list Key) (table : list Row) :
  (forall k, k ∈ active_keys s table -> k ∈ keys) ->
  map (keep_or_resolve s now keys) table = table.
Proof.
  intros H. rewrite <- (map_id table) at 2. apply map_ext_in. intros r Hr.
  destruct (keep_or_resolve_cases s now keys r) as [[E _]|(_ & Ha & Hk)]; [done|].
  destruct Hk. apply H, elem_of_active_keys. apply list_elem_of_In in Hr. eauto.
Qed.

Lemma active_keys_replaced (s : Subject) (new_id : nat -> string) (now : Z) (table : list Row)
    (findings : list Finding) (k : Key) :
  Forall (fun f => suits s f = true) findings ->
  k ∈ active_keys s (replace_active_findings s new_id now table findings).1.1 <->
  k ∈ map finding_key findings.
Proof.
  intros Hsuits. pose proof (elem_of_added s new_id now table findings k) as Hadd.
  set (res := replace_active_findings s new_id now table findings) in *.
  assert (Htab : res.1.1 = map (keep_or_resolve s now (map finding_key findings)) table ++ res.1.2)
    by done.
  assert (Hact : Forall (fun r => active_for s r = true) res.1.2).
  { apply insert_new_active. rewrite Forall_forall in Hsuits |- *. intros f Hf.
    apply Hsuits. by apply elem_of_bfilter in Hf as [_ Hf]. }
  rewrite elem_of_active_keys, Htab. setoid_rewrite elem_of_app. split.
  - intros (r & [Hr|Hr] & Ha & <-).
    + apply list_elem_of_fmap in Hr as (r0 & -> & Hr0).
      destruct (keep_or_resolve_cases s now (map finding_key findings) r0)
        as [[E Hk]|(E & _)]; rewrite E in *; [by apply Hk|].
      by rewrite resolve_inactive in Ha.
    + apply Hadd. by apply list_elem_of_fmap_2.
  - intros Hk. destruct (base.decide (k ∈ active_keys s table)) as [Hold|Hnew].
    + apply elem_of_active_keys in Hold as (r & Hr & Ha & <-). exists r.
      split; [|done]. left. apply list_elem_of_fmap. exists r. split; [|done].
      unfold keep_or_resolve, stays. by rewrite (proj2 (mem_true _ _) Hk), andb_false_r.
    + pose proof (proj2 Hadd (conj Hk Hnew)) as (r & -> & Hr)%list_elem_of_fmap.
      exists r. split; [by right|]. split; [|done]. rewrite Forall_forall in Hact. by apply Hact.
Qed.

Lemma insert_new_nil (s : Subject) (new_id : nat -> string) (now : Z) (n : nat)
    (findings : list Finding) :
  findings = [] -> insert_new s new_id now n findings = [].
Proof. by intros ->. Qed.

(** A second run with the same findings finds nothing to do. *)
Lemma replace_idempotent (s : Subject) (new_id : nat -> string) (now : Z) (table : list Row)
    (findings : list Finding) :
  (forall k, k ∈ active_keys s table <-> k ∈ map finding_key findings) ->
  replace_active_findings s new_id now table findings = (table, [], []).
Proof.
  intros H. unfold replace_active_findings. f_equal; [f_equal|].
  - rewrite keep_or_resolve_id by (intros k; apply H). rewrite insert_new_nil; [apply app_nil_r|].
    apply bfilter_nil. intros f Hf. apply negb_false_iff, mem_true, kept_keys_spec.
    rewrite H. by split; apply list_elem_of_fmap_2.
  - apply insert_new_nil, bfilter_nil. intros f Hf. apply negb_false_iff, mem_true, kept_keys_spec.
    rewrite H. by split; apply list_elem_of_fmap_2.
  - rewrite (proj2 (bfilter_nil _ _)); [done|]. intros r Hr. apply negb_false_iff.
    unfold stays, list_active in *. apply mem_true, H, elem_of_active_keys.
    rewrite elem_of_sorted_by, elem_of_bfilter in Hr. destruct Hr. eauto.
Qed.

Lemma replace_spec (s : Subject) (new_id : nat -> string) (now : Z) (table : list Row)
    (findings : list Finding) :
  Forall (fun f => suits s f = true) findings ->
  let keys := map finding_key findings in
  let '(table', added, resolved) := replace_active_findings s new_id now table findings in
  (forall k, k ∈ active_keys s table' <-> k ∈ keys) /\
  (forall k, k ∈ map row_key added <-> k ∈ keys /\ k ∉ active_keys s table) /\
  (forall r', r' ∈ resolved <->
     exists r, r ∈ table /\ active_for s r = true /\ (row_key r ∉ keys) /\ r' = resolve now r) /\
  (exists old, table' = old ++ added /\
     Forall2 (fun r r' => r' = r \/ (active_for s r = true /\ (row_key r ∉ keys) /\
                                     r' = resolve now r)) table old) /\
  (forall new_id' now',
     replace_active_findings s new_id' now' table' findings = (table', [], [])).
Proof.
  intros Hsuits keys. destruct (replace_active_findings s new_id now table findings)
    as [[table' added] resolved] eqn:E.
  assert (Hkeys : forall k, k ∈ active_keys s table' <-> k ∈ keys).
  { intros k. pose proof (active_keys_replaced s new_id now table findings k Hsuits) as H.
    by rewrite E in H. }
  split_and!.
  - exact Hkeys.
  - intros k. pose proof (elem_of_added s new_id now table findings k) as H. by rewrite E in H.
  - revert E. unfold replace_active_findings. intros [= _ _ <-] r'.
    rewrite list_elem_of_fmap. unfold list_active, stays. setoid_rewrite elem_of_bfilter.
    setoid_rewrite elem_of_sorted_by. setoid_rewrite elem_of_bfilter.
    setoid_rewrite negb_true_iff. setoid_rewrite mem_false. naive_solver.
  - revert E. unfold replace_active_findings. intros [= <- <- _]. eexists. split; [done|].
    apply Forall2_fmap_r, Forall_Forall2_diag, Forall_true. intros r.
    destruct (keep_or_resolve_cases s now keys r) as [[E _]|(E & Ha & Hk)]; auto.
  - intros new_id' now'. by apply replace_idempotent.
Qed.

(** C17: reconciling a table of findings refines assigning a set.  Abstractly a
    subject has a set of active keys; reconciling it with findings makes that set
    exactly the findings' keys, reports as added the keys that were not active and
    as resolved the rows whose key is gone, resolves rows instead of deleting them,
    leaves every other row as it was, and does nothing when repeated. *)
Theorem findings_refine_set (s : Subject) (new_id : nat -> string) (now : Z) (table : list Row)
    (findings : list Finding) :
  Forall (fun f => suits s f = true) findings ->
  let keys := map finding_key findings in
  let '(table', added, resolved) := replace_active_findings s new_id now table findings in
  (forall k, k ∈ active_keys s table' <-> k ∈ keys) /\
  (forall k, k ∈ map row_key added <-> k ∈ keys /\ k ∉ active_keys s table) /\
  (forall r', r' ∈ resolved <->
     exists r, r ∈ table /\ active_for s r = true /\ (row_key r ∉ keys) /\ r' = resolve now r) /\
  (exists old, table' = old ++ added /\
     Forall2 (fun r r' => r' = r \/ (active_for s r = true /\ (row_key r ∉ keys) /\
                                     r' = resolve now r)) table old) /\
  (forall new_id' now',
     replace_active_findings s new_id' now' table' findings = (table', [], [])).
Proof. exact (replace_spec s new_id now table findings). Qed.
End Reconcile.

Lemma findings_refine_set_witness :
  let s := {| cr_workspace_id := "ws_1"; cr_candidate_id := "mc_1"; cr_attempt_id := Some "att_1";
              cr_task_id := Some "task_1" |} in
  let f code := {| sc_reason_code := code; sc_trigger_type := "path_overlap";
                   sc_trigger_ref := Some "src/a.py"; sc_explanation := "changed" |} in
  let table := [create_stale s "sr_0" 5 (f "STALE_SCHEMA")] in
  let res := replace_active_findings s (fun n => "sr_" +:+ py_str (Z.of_nat (S n))) 9 table
               [f "STALE_OVERLAP"] in
  active_keys s res.1.1 = [("STALE_OVERLAP", "path_overlap", Some "src/a.py")] /\
  replace_active_findings s (fun _ => "") 10 res.1.1 [f "STALE_OVERLAP"] = (res.1.1, [], []).
Proof.
  intros s f table res. split; [vm_compute; reflexivity|].
  pose proof (findings_refine_set s (fun n => "sr_" +:+ py_str (Z.of_nat (S n))) 9 table
    [f "STALE_OVERLAP"] ltac:(repeat constructor)) as H.
  cbv zeta in H. fold res in H. destruct res as [[table' added] resolved].
  destruct H as (_ & _ & _ & _ & Hidem). apply Hidem.
Defined.
