(* ===== verification/Staleness.v ===== *)
(** * Staleness of merge candidates

    [service/staleness.py]: what the target branch's changes mean for a candidate,
    and the refresh that records it.  [evaluate_staleness] is pure; the refresh
    reconciles the [stale_reasons] table ([Findings]), sets the candidate's stale
    flag and re-derives its readiness ([Readiness]).  Fetching the target state from
    git, and the events the refresh emits, are not modelled. *)

From S2P Require Import Prelude PyStr Json OwnedPaths PyFloat PyVal Status Store Readiness.
From S2P Require Import OwnedPathsFacts Findings.
#[local] Open Scope Z_scope.

(** ** Inputs and findings *)

Record CandidateSnapshot : Type := {
  cs_owned_paths : list string;
  cs_task_class : option string;
  cs_base_sha : option string;
  cs_internal_plan_artifact_paths : list string
}.

Record TargetBranchState : Type := {
  tb_branch : string;
  tb_head_sha : string;
  tb_changed_paths : list string;
  tb_advanced_commits : Z
}.

Record StalenessFinding : Type := {
  sf_reason_code : string;
  sf_trigger_type : string;
  sf_trigger_ref : option string;
  sf_explanation : string;
  sf_blocks_merge : bool;
  sf_severity : string
}.

Record StalePolicy : Type := {
  sp_schema_paths : list string;
  sp_dependency_paths : list string;
  sp_build_config_paths : list string;
  sp_lenient_task_classes : list string;
  sp_schema_sensitive_task_classes : list string;
  sp_dependency_sensitive_task_classes : list string;
  sp_build_config_sensitive_task_classes : list string
}.

Definition REASON_TARGET_ADVANCED : string := "STALE_TARGET_ADVANCED".
Definition REASON_OVERLAP : string := "STALE_OVERLAP".
Definition REASON_SCHEMA : string := "STALE_SCHEMA".
Definition REASON_DEPENDENCY : string := "STALE_DEPENDENCY".
Definition REASON_BUILD_CONFIG : string := "STALE_BUILD_CONFIG".
Definition REASON_PLAN_ARTIFACT_OVERLAP : string := ADVISORY_PLAN_ARTIFACT_OVERLAP_REASON.

Definition BLOCKING_REASON_PRIORITY : list (string * Z) :=
  [(REASON_OVERLAP, 0); (REASON_SCHEMA, 1); (REASON_DEPENDENCY, 2); (REASON_BUILD_CONFIG, 3);
   (REASON_TARGET_ADVANCED, 4)].
Definition DEFAULT_BLOCKING_REASON_PRIORITY : Z := 5.

Definition VALIDATION_STALE_REASONS_TO_PRESERVE : list string :=
  [VALIDATION_INSUFFICIENT_TIER_STALE_REASON; VALIDATION_MISSING_FOR_CURRENT_HEAD_STALE_REASON].

Definition TRIGGER_TARGET_ADVANCED : string := "target_advanced".
Definition TRIGGER_PATH_OVERLAP : string := "path_overlap".
Definition TRIGGER_SCHEMA_CHANGED : string := "schema_changed".
Definition TRIGGER_DEPENDENCY_CHANGED : string := "dependency_changed".
Definition TRIGGER_BUILD_CONFIG_CHANGED : string := "build_config_changed".
Definition TRIGGER_PLAN_ARTIFACT_OVERLAP : string := "plan_artifact_overlap".

Definition DEFAULT_STALE_POLICY : StalePolicy :=
  {| sp_schema_paths :=
       ["migrations/"; "migration/"; "schema/"; "schemas/"; "models/"; "model/";
        "*/migrations/**"; "*/migration/**"; "*/schema/**"; "*/schemas/**"; "*/models/**";
        "*/model/**"; "*/models.py"; "*/model.py"; "db/schema.rb"; "prisma/schema.prisma";
        "alembic.ini"];
     sp_dependency_paths :=
       ["pyproject.toml"; "uv.lock"; "requirements.txt"; "requirements-dev.txt"; "poetry.lock";
        "Pipfile"; "Pipfile.lock"; "package.json"; "package-lock.json"; "pnpm-lock.yaml";
        "yarn.lock"];
     sp_build_config_paths :=
       ["Dockerfile"; "Dockerfile.*"; "*/Dockerfile"; "*/Dockerfile.*"; "docker/";
        "docker-compose.yml"; "docker-compose.yaml"; "compose.yml"; "compose.yaml";
        ".github/workflows/"; "Makefile"; "Taskfile.yml"; "taskfile.yml"];
     sp_lenient_task_classes := ["docs_task"; "test_task"];
     sp_schema_sensitive_task_classes := ["migration_task"];
     sp_dependency_sensitive_task_classes := ["dependency_task"; "migration_task"];
     sp_build_config_sensitive_task_classes := ["build_config_task"; "migration_task"] |}.

(** ** Path matching *)

(** [pattern[: -n]] *)
Definition drop_end (n : nat) (s : string) : string := take_str (str_len s - n) s.

Definition path_matches (path pattern : string) : bool :=
  if eqb pattern "" then false
  else if eqb path pattern then true
  else if ends_with "/**" pattern && negb (has_wildcard (drop_end 3 pattern)) then
    let prefix := drop_end 2 pattern in
    starts_with prefix path || eqb path (rstrip_slash prefix)
  else if ends_with "/*" pattern && negb (has_wildcard (drop_end 2 pattern)) then
    let prefix := drop_end 1 pattern in
    starts_with prefix path && negb (has_char slash (drop_str (str_len prefix) path))
  else if ends_with "/" pattern then starts_with pattern path
  else if has_wildcard pattern then fnmatchcase path pattern
  else starts_with (pattern +:+ "/") path.

Definition matched (changed_paths patterns : list string) : list string :=
  List.filter (fun path => existsb (path_matches path) patterns) changed_paths.

Definition is_sensitive_task_class (task_class : option string) (sensitive : list string) : bool :=
  match task_class with Some c => mem c sensitive | None => false end.

Definition target_changes_are_only_plan_artifacts (changed_paths artifact_paths : list string)
  : bool :=
  match changed_paths with
  | [] => false
  | _ => forallb (fun p => is_internal_plan_artifact_owned_path p artifact_paths) changed_paths
  end.

(** ** [evaluate_staleness] *)

Definition blocking_finding (code trigger : string) (path text : string) : StalenessFinding :=
  {| sf_reason_code := code; sf_trigger_type := trigger; sf_trigger_ref := Some path;
     sf_explanation := text; sf_blocks_merge := true; sf_severity := "blocking" |}.

(** The first of [paths], as a finding. *)
Definition first_finding (f : string -> StalenessFinding) (paths : list string)
  : list StalenessFinding :=
  match paths with [] => [] | path :: _ => [f path] end.

Definition sensitive_finding (candidate : CandidateSnapshot) (target : TargetBranchState)
    (sensitive patterns : list string) (code trigger : string) (text : string -> string)
  : list StalenessFinding :=
  if is_sensitive_task_class (cs_task_class candidate) sensitive
  then first_finding (fun path => blocking_finding code trigger path (text path))
         (matched (tb_changed_paths target) patterns)
  else [].

(** Owned paths the target changed, split into generated artifacts and the rest. *)
Definition plan_artifact_overlap (candidate : CandidateSnapshot) (target : TargetBranchState)
  : list string :=
  List.filter (fun p => is_internal_plan_artifact_owned_path p
                          (cs_internal_plan_artifact_paths candidate))
    (matched (tb_changed_paths target) (cs_owned_paths candidate)).

Definition blocking_overlap (candidate : CandidateSnapshot) (target : TargetBranchState)
  : list string :=
  List.filter (fun p => negb (is_internal_plan_artifact_owned_path p
                                (cs_internal_plan_artifact_paths candidate)))
    (matched (tb_changed_paths target) (cs_owned_paths candidate)).

(** The findings about changed paths, in the order the code appends them. *)
Definition path_findings (candidate : CandidateSnapshot) (target : TargetBranchState)
    (policy : StalePolicy) : list StalenessFinding :=
  let branch := tb_branch target in
  sensitive_finding candidate target (sp_schema_sensitive_task_classes policy)
    (sp_schema_paths policy) REASON_SCHEMA TRIGGER_SCHEMA_CHANGED
    (fun path => "Schema/migration path '" +:+ path +:+ "' changed on target branch '"
                 +:+ branch +:+ "'.")
  ++ sensitive_finding candidate target (sp_dependency_sensitive_task_classes policy)
       (sp_dependency_paths policy) REASON_DEPENDENCY TRIGGER_DEPENDENCY_CHANGED
       (fun path => "Dependency manifest '" +:+ path +:+ "' changed on target branch '"
                    +:+ branch +:+ "'.")
  ++ sensitive_finding candidate target (sp_build_config_sensitive_task_classes policy)
       (sp_build_config_paths policy) REASON_BUILD_CONFIG TRIGGER_BUILD_CONFIG_CHANGED
       (fun path => "Build config '" +:+ path +:+ "' changed on target branch '"
                    +:+ branch +:+ "'.")
  ++ first_finding
       (fun path =>
          {| sf_reason_code := REASON_PLAN_ARTIFACT_OVERLAP;
             sf_trigger_type := TRIGGER_PLAN_ARTIFACT_OVERLAP; sf_trigger_ref := Some path;
             sf_explanation := "AWF plan/conformance artifact '" +:+ path
                               +:+ "' changed on target branch '" +:+ branch +:+ "'.";
             sf_blocks_merge := false; sf_severity := "advisory" |})
       (plan_artifact_overlap candidate target)
  ++ first_finding
       (fun path =>
          blocking_finding REASON_OVERLAP TRIGGER_PATH_OVERLAP path
            ("Owned path '" +:+ path +:+ "' was changed on target branch '" +:+ branch +:+ "'."))
       (blocking_overlap candidate target).

(** [candidate.task_class not in policy.lenient_task_classes] *)
Definition lenient (candidate : CandidateSnapshot) (policy : StalePolicy) : bool :=
  is_sensitive_task_class (cs_task_class candidate) (sp_lenient_task_classes policy).

Definition advanced_finding (target : TargetBranchState) : StalenessFinding :=
  blocking_finding REASON_TARGET_ADVANCED TRIGGER_TARGET_ADVANCED (tb_head_sha target)
    ("Target branch '" +:+ tb_branch target +:+ "' advanced "
     +:+ py_str (tb_advanced_commits target) +:+ " commit(s) past validation base.").

Definition evaluate_staleness (candidate : CandidateSnapshot) (target : TargetBranchState)
    (policy : StalePolicy) : list StalenessFinding :=
  match cs_base_sha candidate with
  | None => []
  | Some base_sha =>
      if eqb (tb_head_sha target) base_sha && (tb_advanced_commits target =? 0) then []
      else
        let findings := path_findings candidate target policy in
        if negb (existsb sf_blocks_merge findings) && (0 <? tb_advanced_commits target)
           && negb (lenient candidate policy)
           && negb (target_changes_are_only_plan_artifacts (tb_changed_paths target)
                      (cs_internal_plan_artifact_paths candidate))
        then findings ++ [advanced_finding target] else findings
  end.

Definition reason_priority (code : string) : Z :=
  match List.find (fun p => eqb p.1 code) BLOCKING_REASON_PRIORITY with
  | Some p => p.2
  | None => DEFAULT_BLOCKING_REASON_PRIORITY
  end.

(** [min] by priority, the first of equals. *)
Fixpoint min_by_priority (best : StalenessFinding) (l : list StalenessFinding)
  : StalenessFinding :=
  match l with
  | [] => best
  | f :: rest =>
      min_by_priority
        (if reason_priority (sf_reason_code f) <? reason_priority (sf_reason_code best)
         then f else best) rest
  end.

Definition primary_blocking_reason (findings : list StalenessFinding) : option string :=
  match List.filter sf_blocks_merge findings with
  | [] => None
  | f :: rest => Some (sf_reason_code (min_by_priority f rest))
  end.

(** ** The candidate's side *)

Definition snapshot_artifact_paths (w : MergeWorkspace) : list string :=
  fromkeys
    (internal_plan_artifact_owned_paths_from_profile (mw_resolved_profile w) (Some (mw_id w))
     ++ internal_plan_artifact_owned_paths_from_profile (mw_resolved_profile w) None).

Definition nonempty_paths (paths : list string) : list string :=
  List.filter (fun p => negb (eqb p "")) paths.

Definition snapshot_owned_paths (w : MergeWorkspace) (a : MergeAttempt)
    (artifact_paths : list string) : list string :=
  let workspace_owned := nonempty_paths (mw_owned_paths w) in
  let attempt_owned := nonempty_paths (ma_owned_paths a) in
  match workspace_owned with
  | [] => attempt_owned
  | _ =>
      match interworkspace_owned_paths workspace_owned artifact_paths with
      | _ :: _ => workspace_owned
      | [] =>
          match attempt_owned with
          | [] => workspace_owned
          | _ =>
              match interworkspace_owned_paths attempt_owned artifact_paths with
              | [] => workspace_owned
              | paths => paths
              end
          end
      end
  end.

Definition snapshot_for (c : MergeCandidate) (w : MergeWorkspace) (a : MergeAttempt)
  : CandidateSnapshot :=
  {| cs_owned_paths := snapshot_owned_paths w a (snapshot_artifact_paths w);
     cs_task_class := or_str (mw_task_class w) (ma_task_class a);
     cs_base_sha := mc_base_sha c;
     cs_internal_plan_artifact_paths := snapshot_artifact_paths w |}.

(** ** [StalenessRefreshService] *)

Inductive RefreshError : Type :=
| StalenessRefreshError (message : string)
| RefreshDbError (e : DbError).

Record StalenessRefreshResult : Type := {
  rr_candidate_id : string;
  rr_target : TargetBranchState;
  rr_findings : list StalenessFinding;
  rr_newly_added : list StaleReason;
  rr_newly_resolved : list StaleReason;
  rr_stale : bool
}.

Definition mark_candidate_stale (c : MergeCandidate) (w : MergeWorkspace) (a : MergeAttempt)
    (stale : bool) (stale_reason : option string) : result DbError MergeCandidate :=
  let validation_reason := (compute_stale_reason w).1 in
  let existing_validation_reason :=
    match mc_stale_reason c with
    | Some r => if mem r VALIDATION_STALE_REASONS_TO_PRESERVE then Some r else None
    | None => None
    end in
  let when_stale (o : option string) := if stale then o else None in
  let next_stale := stale || negb (eqb validation_reason None) in
  let next_stale_reason :=
    or_str (or_str (or_str validation_reason (when_stale stale_reason))
              (when_stale existing_validation_reason)) (when_stale (Some "stale")) in
  sync_candidate_readiness (with_stale c next_stale next_stale_reason) w a false.

(** [TargetBranchStateProvider.fetch]: repository, branch and base to the state. *)
Definition fetch_target (provider : option (string -> string -> string -> TargetBranchState))
    (c : MergeCandidate) : result RefreshError TargetBranchState :=
  match provider with
  | None => Err (StalenessRefreshError "No target branch state supplied and no provider injected")
  | Some fetch =>
      match mc_base_sha c with
      | None => Err (StalenessRefreshError
                       ("Candidate '" +:+ mc_id c +:+ "' has no validation base_sha to compare"))
      | Some base_sha => Ok (fetch (mc_repo_url c) (mc_base_branch c) base_sha)
      end
  end.

Definition stale_create (f : StalenessFinding) : StaleReasonCreate :=
  {| sc_reason_code := sf_reason_code f; sc_trigger_type := sf_trigger_type f;
     sc_trigger_ref := sf_trigger_ref f; sc_explanation := sf_explanation f |}.

Definition candidate_ref (c : MergeCandidate) : CandidateRef :=
  {| cr_workspace_id := mc_workspace_id c; cr_candidate_id := mc_id c;
     cr_attempt_id := Some (mc_attempt_id c); cr_task_id := Some (mc_task_id c) |}.

(** The candidate is the loaded row with its workspace and attempt, when it exists.
    The result has the new [stale_reasons] table and the new candidate. *)
Definition refresh_candidate
    (provider : option (string -> string -> string -> TargetBranchState)) (policy : StalePolicy)
    (new_id : nat -> string) (now : Z) (table : list StaleReason) (candidate_id : string)
    (row : option (MergeCandidate * MergeWorkspace * MergeAttempt))
    (target : option TargetBranchState)
  : result RefreshError (list StaleReason * MergeCandidate * StalenessRefreshResult) :=
  match row with
  | None => Err (StalenessRefreshError ("Merge candidate '" +:+ candidate_id +:+ "' not found"))
  | Some (c, w, a) =>
      target_state <-? match target with Some t => Ok t | None => fetch_target provider c end ;;
      let findings := evaluate_staleness (snapshot_for c w a) target_state policy in
      let '(table', newly_added, newly_resolved) :=
        replace_active_findings (candidate_ref c) new_id now table (map stale_create findings) in
      let blocking_reason := primary_blocking_reason findings in
      let stale := negb (eqb blocking_reason None) in
      match mark_candidate_stale c w a stale blocking_reason with
      | Err e => Err (RefreshDbError e)
      | Ok c' =>
          Ok (table', c',
              {| rr_candidate_id := mc_id c; rr_target := target_state; rr_findings := findings;
                 rr_newly_added := newly_added; rr_newly_resolved := newly_resolved;
                 rr_stale := stale |})
      end
  end.
