(* ===== verification/StalenessFacts.v ===== *)
(** * What staleness detection guarantees

    [evaluate_staleness] blocks a merge exactly when the target changed something
    the policy or the ownership makes relevant; a refresh records exactly its
    findings and leaves the candidate's flags derived from them. *)

From S2P Require Import Prelude PyStr Json PyFloat PyVal Status Store Readiness OwnedPaths.
From S2P Require Import OwnedPathsFacts Findings Staleness.
#[local] Open Scope Z_scope.

Lemma elem_of_matched (changed patterns : list string) (p : string) :
  p ∈ matched changed patterns <->
  p ∈ changed /\ exists pattern, pattern ∈ patterns /\ path_matches p pattern = true.
Proof.
  unfold matched. rewrite elem_of_bfilter, existsb_elem. tauto.
Qed.

(** Some changed path matches one of the patterns and satisfies [P]. *)
Definition touches (target : TargetBranchState) (patterns : list string) (P : string -> Prop)
  : Prop :=
  exists p pattern, p ∈ tb_changed_paths target /\ pattern ∈ patterns /\
    path_matches p pattern = true /\ P p.

Lemma matched_nonempty (target : TargetBranchState) (patterns : list string) (f : string -> bool) :
  List.filter f (matched (tb_changed_paths target) patterns) <> [] <->
  touches target patterns (fun p => f p = true).
Proof.
  split.
  - intros H. destruct (List.filter f _) as [|p l] eqn:E; [done|].
    assert (Hp : p ∈ List.filter f (matched (tb_changed_paths target) patterns))
      by (rewrite E; left).
    apply elem_of_bfilter in Hp as [Hf (Hc & pat & Hpat & Hm)%elem_of_matched].
    exists p, pat. auto.
  - intros (p & pat & Hc & Hpat & Hm & Hf) Hnil.
    assert (Hp : p ∈ List.filter f (matched (tb_changed_paths target) patterns)).
    { apply elem_of_bfilter. split; [done|]. apply elem_of_matched. eauto. }
    rewrite Hnil in Hp. by apply elem_of_nil in Hp.
Qed.

Lemma first_finding_blocks (f : string -> StalenessFinding) (l : list string) (b : bool) :
  (forall p, sf_blocks_merge (f p) = b) ->
  existsb sf_blocks_merge (first_finding f l) = true <-> b = true /\ l <> [].
Proof.
  intros Hf. destruct l as [|p l]; simpl; [naive_solver|].
  rewrite Hf, orb_false_r. naive_solver.
Qed.

Lemma bfilter_all {A : Type} (l : list A) : List.filter (fun _ => true) l = l.
Proof. by apply bfilter_id. Qed.

Lemma sensitive_finding_blocks (c : CandidateSnapshot) (t : TargetBranchState)
    (sensitive patterns : list string) (code trigger : string) (text : string -> string) :
  existsb sf_blocks_merge (sensitive_finding c t sensitive patterns code trigger text) = true <->
  is_sensitive_task_class (cs_task_class c) sensitive = true /\
  touches t patterns (fun _ => True).
Proof.
  unfold sensitive_finding. destruct (is_sensitive_task_class _ _); [|naive_solver].
  rewrite (first_finding_blocks _ _ true) by done.
  rewrite <- (bfilter_all (matched _ _)), matched_nonempty. unfold touches. naive_solver.
Qed.

(** A path is one of the candidate's generated artifacts. *)
Definition artifact (c : CandidateSnapshot) (p : string) : bool :=
  is_internal_plan_artifact_owned_path p (cs_internal_plan_artifact_paths c).

(** The changed paths alone call for a new validation. *)
Definition relevant_change (c : CandidateSnapshot) (t : TargetBranchState) (p : StalePolicy)
  : Prop :=
  (is_sensitive_task_class (cs_task_class c) (sp_schema_sensitive_task_classes p) = true /\
   touches t (sp_schema_paths p) (fun _ => True)) \/
  (is_sensitive_task_class (cs_task_class c) (sp_dependency_sensitive_task_classes p) = true /\
   touches t (sp_dependency_paths p) (fun _ => True)) \/
  (is_sensitive_task_class (cs_task_class c) (sp_build_config_sensitive_task_classes p) = true /\
   touches t (sp_build_config_paths p) (fun _ => True)) \/
  touches t (cs_owned_paths c) (fun path => artifact c path = false).

(** The branch moved past the base, by more than generated artifacts, and the task
    class does not tolerate it. *)
Definition intolerable_advance (c : CandidateSnapshot) (t : TargetBranchState) (p : StalePolicy)
  : Prop :=
  0 < tb_advanced_commits t /\ lenient c p = false /\
  (tb_changed_paths t = [] \/ exists path, path ∈ tb_changed_paths t /\ artifact c path = false).

(** When a candidate has to be validated again. *)
Definition needs_revalidation (c : CandidateSnapshot) (t : TargetBranchState) (p : StalePolicy)
  : Prop :=
  exists base, cs_base_sha c = Some base /\
    (tb_head_sha t <> base \/ tb_advanced_commits t <> 0) /\
    (relevant_change c t p \/ intolerable_advance c t p).

Lemma path_findings_block (c : CandidateSnapshot) (t : TargetBranchState) (p : StalePolicy) :
  existsb sf_blocks_merge (path_findings c t p) = true <-> relevant_change c t p.
Proof.
  unfold path_findings, relevant_change.
  rewrite !existsb_app, !orb_true_iff, !sensitive_finding_blocks.
  rewrite (first_finding_blocks _ _ false) by done. rewrite (first_finding_blocks _ _ true) by done.
  unfold blocking_overlap. rewrite matched_nonempty. unfold touches, artifact.
  setoid_rewrite negb_true_iff. naive_solver.
Qed.

Lemma only_artifacts_false (c : CandidateSnapshot) (changed : list string) :
  target_changes_are_only_plan_artifacts changed (cs_internal_plan_artifact_paths c) = false <->
  changed = [] \/ exists path, path ∈ changed /\ artifact c path = false.
Proof.
  unfold target_changes_are_only_plan_artifacts. destruct changed as [|p l]; [naive_solver|].
  fold (artifact c). rewrite forallb_not. naive_solver.
Qed.

Lemma evaluate_blocks (c : CandidateSnapshot) (t : TargetBranchState) (p : StalePolicy) :
  existsb sf_blocks_merge (evaluate_staleness c t p) = true <-> needs_revalidation c t p.
Proof.
  unfold evaluate_staleness, needs_revalidation.
  destruct (cs_base_sha c) as [base|]; [|naive_solver].
  destruct (eqb (tb_head_sha t) base && (tb_advanced_commits t =? 0)) eqn:Efresh.
  { apply andb_true_iff in Efresh as [E1 E2]. rewrite eqb_true in E1. apply Z.eqb_eq in E2.
    split; [done|]. intros (b & [= ->] & [?|?] & _); congruence. }
  assert (Hmoved : tb_head_sha t <> base \/ tb_advanced_commits t <> 0).
  { apply andb_false_iff in Efresh. rewrite eqb_false, Z.eqb_neq in Efresh. done. }
  clear Efresh. pose proof (path_findings_block c t p) as Hpath.
  pose proof (only_artifacts_false c (tb_changed_paths t)) as Hart.
  assert (Hspec : (exists b, Some base = Some b /\
      (tb_head_sha t <> b \/ tb_advanced_commits t <> 0) /\
      (relevant_change c t p \/ intolerable_advance c t p)) <->
      relevant_change c t p \/ intolerable_advance c t p) by naive_solver.
  rewrite Hspec. clear Hspec. unfold intolerable_advance at 1. rewrite <- Hart, <- Z.ltb_lt.
  set (only := target_changes_are_only_plan_artifacts _ _).
  destruct (existsb sf_blocks_merge (path_findings c t p)) eqn:Eb; simpl.
  - rewrite Eb. split; [|done]. intros _. left. by apply Hpath.
  - destruct (0 <? tb_advanced_commits t), (lenient c p), only; simpl;
      rewrite ?existsb_app, Eb; simpl; split; intros H; try done;
      try (destruct H as [H|H]; [by apply Hpath in H|naive_solver]).
    right. done.
Qed.

(** *** Finding codes *)

Lemma first_finding_code (f : string -> StalenessFinding) (code : string) (l : list string) :
  (forall p, sf_reason_code (f p) = code) ->
  map sf_reason_code (first_finding f l) `sublist_of` [code].
Proof. intros H. destruct l as [|p l]; simpl; [apply sublist_nil_l|by rewrite H]. Qed.

Lemma sensitive_finding_code (c : CandidateSnapshot) (t : TargetBranchState)
    (sensitive patterns : list string) (code trigger : string) (text : string -> string) :
  map sf_reason_code (sensitive_finding c t sensitive patterns code trigger text)
  `sublist_of` [code].
Proof.
  unfold sensitive_finding. destruct (is_sensitive_task_class _ _).
  - by apply first_finding_code.
  - apply sublist_nil_l.
Qed.

Definition path_codes : list string :=
  [REASON_SCHEMA; REASON_DEPENDENCY; REASON_BUILD_CONFIG; REASON_PLAN_ARTIFACT_OVERLAP;
   REASON_OVERLAP].

Definition all_codes : list string := path_codes ++ [REASON_TARGET_ADVANCED].

Lemma path_findings_codes (c : CandidateSnapshot) (t : TargetBranchState) (p : StalePolicy) :
  map sf_reason_code (path_findings c t p) `sublist_of` path_codes.
Proof.
  unfold path_findings. rewrite !map_app.
  apply (sublist_app _ [REASON_SCHEMA]); [apply sensitive_finding_code|].
  apply (sublist_app _ [REASON_DEPENDENCY]); [apply sensitive_finding_code|].
  apply (sublist_app _ [REASON_BUILD_CONFIG]); [apply sensitive_finding_code|].
  apply (sublist_app _ [REASON_PLAN_ARTIFACT_OVERLAP]); by apply first_finding_code.
Qed.

Lemma evaluate_codes (c : CandidateSnapshot) (t : TargetBranchState) (p : StalePolicy) :
  map sf_reason_code (evaluate_staleness c t p) `sublist_of` all_codes.
Proof.
  unfold evaluate_staleness. destruct (cs_base_sha c); [|apply sublist_nil_l].
  destruct (_ && _); [apply sublist_nil_l|]. destruct (_ && _).
  - rewrite map_app. apply sublist_app; [apply path_findings_codes|done].
  - apply sublist_inserts_r, path_findings_codes.
Qed.

Lemma evaluate_codes_NoDup (c : CandidateSnapshot) (t : TargetBranchState) (p : StalePolicy) :
  NoDup (map sf_reason_code (evaluate_staleness c t p)).
Proof.
  eapply sublist_NoDup; [|apply evaluate_codes].
  apply (bool_decide_unpack (NoDup all_codes)). vm_compute. done.
Qed.

(** A finding blocks exactly when its code does. *)
Lemma evaluate_blocks_by_code (c : CandidateSnapshot) (t : TargetBranchState) (p : StalePolicy) :
  Forall (fun f => sf_blocks_merge f = stale_reason_blocks_merge (Some (sf_reason_code f)))
    (evaluate_staleness c t p).
Proof.
  assert (Hpath : Forall (fun f => sf_blocks_merge f
                     = stale_reason_blocks_merge (Some (sf_reason_code f))) (path_findings c t p)).
  { unfold path_findings, sensitive_finding. rewrite !Forall_app.
    split_and!; try (destruct (is_sensitive_task_class _ _); [|constructor]);
      match goal with |- Forall _ (first_finding _ ?l) => destruct l; repeat constructor end. }
  unfold evaluate_staleness. destruct (cs_base_sha c); [|constructor].
  destruct (_ && _); [constructor|]. destruct (_ && _); [|done].
  apply Forall_app. split; [done|]. by repeat constructor.
Qed.

(** *** The primary reason *)

Lemma min_by_priority_spec (best : StalenessFinding) (l : list StalenessFinding) :
  let m := min_by_priority best l in
  m ∈ best :: l /\ forall f, f ∈ best :: l ->
    reason_priority (sf_reason_code m) <= reason_priority (sf_reason_code f).
Proof.
  cbv zeta. revert best. induction l as [|g l IH]; intros best; cbn [min_by_priority].
  - split; [by left|]. intros f [->|H%elem_of_nil]%elem_of_cons; [lia|done].
  - destruct (Z.ltb_spec (reason_priority (sf_reason_code g))
                (reason_priority (sf_reason_code best))) as [Hlt|Hge].
    + destruct (IH g) as [IH1 IH2]. split; [by right|].
      intros f [->|Hf]%elem_of_cons; [|by apply IH2].
      specialize (IH2 g (list_elem_of_here _ _)). lia.
    + destruct (IH best) as [IH1 IH2]. split.
      * apply elem_of_cons in IH1 as [->|H]; [by left|]. right. by right.
      * intros f [->|[->|Hf]%elem_of_cons]%elem_of_cons.
        -- apply IH2. by left.
        -- specialize (IH2 best (list_elem_of_here _ _)). lia.
        -- apply IH2. by right.
Qed.

Lemma primary_blocking_reason_spec (findings : list StalenessFinding) :
  match primary_blocking_reason findings with
  | None => existsb sf_blocks_merge findings = false
  | Some code =>
      exists f, f ∈ findings /\ sf_blocks_merge f = true /\ sf_reason_code f = code /\
        forall g, g ∈ findings -> sf_blocks_merge g = true ->
          reason_priority code <= reason_priority (sf_reason_code g)
  end.
Proof.
  unfold primary_blocking_reason. destruct (List.filter _ _) as [|f rest] eqn:E.
  - apply existsb_none. by apply bfilter_nil.
  - destruct (min_by_priority_spec f rest) as [H1 H2]. rewrite <- E in H1.
    apply elem_of_bfilter in H1 as [Hb Hm]. exists (min_by_priority f rest). split_and!; try done.
    intros g Hg Hgb. apply H2. rewrite <- E. by apply elem_of_bfilter.
Qed.

Lemma primary_some (findings : list StalenessFinding) :
  negb (eqb (primary_blocking_reason findings) None) = existsb sf_blocks_merge findings.
Proof.
  pose proof (primary_blocking_reason_spec findings) as H.
  destruct (primary_blocking_reason findings) as [code|].
  - destruct H as (f & Hf & Hb & _). symmetry. apply existsb_elem. eauto.
  - rewrite H. by rewrite eqb_refl.
Qed.

(** ** Properties *)


(** *** Refreshing a candidate *)

Lemma compute_stale_reason_cases (w : MergeWorkspace) :
  compute_stale_reason w = (None, None) \/
  compute_stale_reason w = (Some VALIDATION_INSUFFICIENT_TIER_STALE_REASON, Some "validate").
Proof. unfold compute_stale_reason, stale_below. case_goal; auto. Qed.

Lemma primary_nonempty (c : CandidateSnapshot) (t : TargetBranchState) (p : StalePolicy)
    (code : string) :
  primary_blocking_reason (evaluate_staleness c t p) = Some code -> truthy_str (Some code) = Some code.
Proof.
  intros H. pose proof (primary_blocking_reason_spec (evaluate_staleness c t p)) as Hs.
  rewrite H in Hs. destruct Hs as (f & Hf & _ & Hc & _).
  assert (Hin : code ∈ all_codes).
  { eapply elem_of_submseteq; [|apply sublist_submseteq, (evaluate_codes c t p)].
    rewrite <- Hc. by apply list_elem_of_fmap_2. }
  assert (Hall : Forall (fun k => truthy_str (Some k) = Some k) all_codes) by (repeat constructor).
  rewrite Forall_forall in Hall. by apply Hall.
Qed.

(** The reason a refresh leaves: validation first, then the target. *)
Lemma mark_candidate_stale_eq (c : MergeCandidate) (w : MergeWorkspace) (a : MergeAttempt)
    (reason : option string) :
  (forall code, reason = Some code -> truthy_str (Some code) = Some code) ->
  mark_candidate_stale c w a (negb (eqb reason None)) reason =
  sync_candidate_readiness
    (with_stale c (negb (eqb reason None) || negb (eqb (compute_stale_reason w).1 None))
       (match (compute_stale_reason w).1 with Some r => Some r | None => reason end)) w a false.
Proof.
  intros Hr. unfold mark_candidate_stale. do 2 f_equal.
  destruct (compute_stale_reason_cases w) as [->| ->]; cbn [fst]; [|done].
  destruct reason as [code|].
  - rewrite (proj2 (eqb_false (Some code) None)) by done. cbn [negb].
    assert (Hor : forall y, or_str (Some code) y = Some code)
      by (intros y; unfold or_str; by rewrite (Hr code eq_refl)).
    change (or_str None (Some code)) with (Some code). by rewrite !Hor.
  - rewrite eqb_refl. cbn [negb]. done.
Qed.

Lemma sync_with_stale_again (c c' : MergeCandidate) (w : MergeWorkspace) (a : MergeAttempt)
    (stale : bool) (reason : option string) :
  sync_candidate_readiness (with_stale c stale reason) w a false = Ok c' ->
  sync_candidate_readiness (with_stale c' stale reason) w a false = Ok c'.
Proof.
  unfold sync_candidate_readiness. destruct (parse_status _) as [s|]; [|done].
  intros [= <-]. f_equal. unfold derive_flags. cbn [mc_status with_stale].
  destruct (eqb (mc_status c) "merged" || eqb s completed) eqn:E;
    cbn [mc_status with_stale with_flags]; by rewrite E.
Qed.

Lemma sync_keeps_identity (c c' : MergeCandidate) (w : MergeWorkspace) (a : MergeAttempt)
    (stale : bool) (reason : option string) :
  sync_candidate_readiness (with_stale c stale reason) w a false = Ok c' ->
  snapshot_for c' w a = snapshot_for c w a /\ candidate_ref c' = candidate_ref c /\
  mc_id c' = mc_id c /\ mc_status c' = mc_status c.
Proof.
  unfold sync_candidate_readiness. destruct (parse_status _) as [s|]; [|done].
  intros [= <-]. unfold derive_flags, snapshot_for. by case_goal.
Qed.

(** A staleness refresh.  When it succeeds the active rows of the candidate are
    the findings of [evaluate_staleness]; a candidate that is not completed is stale
    exactly when the target calls for a new validation or its validation tier is
    insufficient; its flags are those a sync derives; and refreshing again against
    the same target changes nothing and reports nothing new. *)
Theorem refresh_candidate_spec
    (provider : option (string -> string -> string -> TargetBranchState)) (policy : StalePolicy)
    (new_id : nat -> string) (now : Z) (table table' : list StaleReason) (candidate_id : string)
    (c c' : MergeCandidate) (w : MergeWorkspace) (a : MergeAttempt)
    (target : option TargetBranchState) (res : StalenessRefreshResult) :
  refresh_candidate provider policy new_id now table candidate_id (Some (c, w, a)) target
    = Ok (table', c', res) ->
  rr_findings res = evaluate_staleness (snapshot_for c w a) (rr_target res) policy /\
  (forall code trigger ref, (code, trigger, ref) ∈ active_keys (candidate_ref c) table' <->
     exists f, f ∈ rr_findings res /\ sf_reason_code f = code /\ sf_trigger_type f = trigger /\
       sf_trigger_ref f = ref) /\
  (mc_completed c' = false ->
     mc_stale c' = true <-> needs_revalidation (snapshot_for c w a) (rr_target res) policy \/
                            compute_stale_reason w <> (None, None)) /\
  sync_candidate_readiness c' w a false = Ok c' /\
  (forall new_id' now' id', exists res',
     refresh_candidate provider policy new_id' now' table' id' (Some (c', w, a))
       (Some (rr_target res)) = Ok (table', c', res') /\
     rr_newly_added res' = [] /\ rr_newly_resolved res' = []).
Proof.
  unfold refresh_candidate. intros H.
  destruct (match target with Some t => Ok t | None => fetch_target provider c end) as [t|] eqn:Et;
    [|done]. cbn [rbind] in *.
  set (findings := evaluate_staleness (snapshot_for c w a) t policy) in *.
  destruct (replace_active_findings (candidate_ref c) new_id now table (map stale_create findings))
    as [[tab added] resolved] eqn:Er.
  pose proof (replace_spec (candidate_ref c) new_id now table (map stale_create findings)
    ltac:(apply Forall_true; done)) as Href. cbv zeta in Href. rewrite Er in Href.
  destruct Href as (Hkeys & _ & _ & _ & Hidem).
  pose proof (primary_nonempty (snapshot_for c w a) t policy) as Hne. fold findings in Hne.
  rewrite (mark_candidate_stale_eq _ _ _ _ Hne) in H.
  destruct (sync_candidate_readiness _ w a false) as [d|] eqn:Es; [|done].
  injection H as <- <- <-. cbn [rr_findings rr_target rr_newly_added rr_newly_resolved].
  pose proof (sync_keeps_identity _ _ _ _ _ _ Es) as (Hsnap & Hcref & Hid & _).
  split_and!.
  - done.
  - intros code trigger ref. rewrite Hkeys, map_map, list_elem_of_fmap. split.
    + intros (f & [= -> -> ->] & Hf). exists f. auto.
    + intros (f & Hf & <- & <- & <-). exists f. auto.
  - intros Hnc. revert Es. unfold sync_candidate_readiness.
    destruct (parse_status _) as [s|]; [|done]. intros [= <-]. revert Hnc. unfold derive_flags.
    destruct (_ || eqb s completed); [done|]. intros _. cbn [mc_stale with_flags with_stale].
    rewrite orb_true_iff, primary_some. unfold findings. rewrite evaluate_blocks.
    destruct (compute_stale_reason_cases w) as [->| ->]; cbn [fst].
    + rewrite eqb_refl. cbn [negb]. naive_solver.
    + split; [by right|]. intros _. right. done.
  - eapply sync_readiness_idem, Es.
  - intros new_id' now' id'. rewrite Hsnap, Hcref. fold findings. rewrite Hidem.
    rewrite (mark_candidate_stale_eq _ _ _ _ Hne), (sync_with_stale_again _ _ _ _ _ _ Es).
    eexists. split; [done|]. done.
Qed.

(** ** Samples *)

Definition sample_target (head : string) (changed : list string) (commits : Z)
  : TargetBranchState :=
  {| tb_branch := "main"; tb_head_sha := head; tb_changed_paths := changed;
     tb_advanced_commits := commits |}.

(** A parser change on the target, seen by the owner of the parser. *)
Definition sample_refresh
  : result RefreshError (list StaleReason * MergeCandidate * StalenessRefreshResult) :=
  refresh_candidate None DEFAULT_STALE_POLICY (fun _ => "sr_1") 200 [] "mc_1"
    (Some (sample_ready_candidate, sample_merge_workspace "ws_1" "refactor_task" ["src/parser"],
           sample_merge_attempt))
    (Some (sample_target "head" ["src/parser/lex.py"; "docs/a.md"] 2)).

Lemma refresh_candidate_spec_witness :
  match sample_refresh with
  | Ok (table', c', res) =>
      sync_candidate_readiness c' (sample_merge_workspace "ws_1" "refactor_task" ["src/parser"])
        sample_merge_attempt false = Ok c' /\
      mc_stale c' = true /\ mc_ready c' = false /\
      active_keys (candidate_ref sample_ready_candidate) table'
        = [("STALE_OVERLAP", "path_overlap", Some "src/parser/lex.py")]
  | Err _ => False
  end.
Proof.
  destruct sample_refresh as [[[table' c'] res]|e] eqn:E; [|vm_compute in E; discriminate E].
  pose proof E as Eu. unfold sample_refresh in Eu.
  destruct (refresh_candidate_spec _ _ _ _ _ _ _ _ _ _ _ _ _ Eu) as (_ & _ & _ & Hs & _).
  split; [exact Hs|]. clear Eu Hs. vm_compute in E. injection E as <- <- <-. repeat split.
Defined.

(** A documentation task that claims source files is stale for that reason; a refresh
    against a target that has not moved drops the reason, and the candidate becomes
    ready to merge. *)
Theorem refresh_drops_scope_violation :
  let w := sample_merge_workspace "ws_1" "docs_task" ["src/parser"] in
  exists c table' c' res,
    sync_candidate_readiness (sample_merge_candidate "mc_1" "ws_1" 100) w sample_merge_attempt true
      = Ok c /\
    mc_stale_reason c = Some DOCS_TASK_SCOPE_VIOLATION_STALE_REASON /\ mc_ready c = false /\
    refresh_candidate None DEFAULT_STALE_POLICY (fun _ => "sr_1") 200 [] "mc_1"
      (Some (c, w, sample_merge_attempt)) (Some (sample_target "base" [] 0))
      = Ok (table', c', res) /\
    initial_scope_stale_reason w = Some DOCS_TASK_SCOPE_VIOLATION_STALE_REASON /\
    mc_stale_reason c' = None /\ mc_ready c' = true.
Proof.
  do 4 eexists. split; [vm_compute; reflexivity|]. split; [reflexivity|]. split; [reflexivity|].
  split; [vm_compute; reflexivity|]. repeat split.
Qed.
