(* ===== verification/MergeQueue.v ===== *)
(** * The merge queue

    [service/merge_queue.py]: which older candidates a candidate has to wait for,
    one candidate at a time or a page at once, and the blocker reason shown to
    operators.  A row of the table is a candidate with its workspace and attempt, as
    the queries load them; identifiers compare by code point. *)

From S2P Require Import Prelude PyStr Json PyFloat PyVal Status Readiness OwnedPaths OwnedPathsFacts.
From S2P Require Import OwnedPathConflicts Findings.
#[local] Open Scope Z_scope.

Definition MERGE_QUEUE_WAIT_REASON_CODE : string := "MERGE_QUEUE_WAITING_FOR_OLDER_CANDIDATE".
Definition RECOVERY_OPERATION_TYPES : list string := ["validate"; "rebase"].
Definition ACTIVE_OPERATION_STATUSES : list string :=
  [operation_status_value op_pending; operation_status_value op_running].
Definition MONITOR_RECOVERY_STATUSES : list WorkspaceStatus := [ready; running; validating; pushing].

Record QueueRow : Type := {
  q_candidate : MergeCandidate;
  q_workspace : MergeWorkspace;
  q_attempt : MergeAttempt
}.

Definition q_id (r : QueueRow) : string := mc_id (q_candidate r).
Definition q_created_at (r : QueueRow) : Z := mc_created_at (q_candidate r).
Definition q_repo_base (r : QueueRow) : string * string :=
  (mc_repo_url (q_candidate r), mc_base_branch (q_candidate r)).
Definition q_open (r : QueueRow) : bool := eqb (mc_status (q_candidate r)) "open".
Definition q_canonical (r : QueueRow) : bool := ma_is_canonical_for_merge (q_attempt r).

Record MergeQueueBlocker : Type := {
  mb_candidate_id : string;
  mb_workspace_id : string;
  mb_attempt_id : string;
  mb_task_id : string;
  mb_title : string;
  mb_pr_url : string;
  mb_pr_number : option Z;
  mb_status : string;
  mb_blocker_state : string;
  mb_reason_code : string
}.

(** ** Which rows can block *)

Definition workspace_status (w : MergeWorkspace) : option WorkspaceStatus :=
  match parse_status (mw_status w) with Ok s => Some s | Err _ => None end.

Definition is_merge_ready_candidate (r : QueueRow) : bool :=
  q_open r && q_canonical r && mw_auto_merge (q_workspace r)
  && eqb (workspace_status (q_workspace r)) (Some monitoring_pr)
  && negb (mc_stale (q_candidate r)).

Definition is_monitor_recovery_operation (op : Operation) : bool :=
  if negb (mem (op_type op) RECOVERY_OPERATION_TYPES) then false
  else if negb (mem (op_status op) ACTIVE_OPERATION_STATUSES) then false
  else match op_payload op with
       | VDict payload =>
           match get payload "source" with VStr s => eqb s "pr_monitor" | _ => false end
       | _ => false
       end.

Definition is_monitor_owned_recovery (r : QueueRow) : bool :=
  q_open r && q_canonical r && mw_auto_merge (q_workspace r)
  && match workspace_status (q_workspace r) with
     | Some s => mem s MONITOR_RECOVERY_STATUSES
     | None => false
     end
  && existsb is_monitor_recovery_operation (loaded (mw_operations (q_workspace r))).

Definition blocking_state (r : QueueRow) : option string :=
  if is_merge_ready_candidate r then Some "merge_eligible"
  else if is_monitor_owned_recovery r then Some "monitor_owned_recovery"
  else None.

(** ** Which rows compete *)

Definition nonempty_owned (paths : list string) : list string :=
  List.filter (fun p => negb (eqb p "")) paths.

Definition candidate_owned_paths (r : QueueRow) : list string :=
  let w := q_workspace r in
  let internal := internal_plan_artifact_owned_paths_from_profile (mw_resolved_profile w)
                    (Some (mw_id w)) in
  match interworkspace_owned_paths (nonempty_owned (mw_owned_paths w)) internal with
  | [] => interworkspace_owned_paths (nonempty_owned (ma_owned_paths (q_attempt r))) internal
  | paths => paths
  end.

Definition candidate_blocks_target (r target : QueueRow) : bool :=
  let candidate_paths := candidate_owned_paths r in
  let target_paths := candidate_owned_paths target in
  match candidate_paths, target_paths with
  | [], _ | _, [] => false
  | _, _ => existsb (fun p => existsb (owned_paths_overlap p) target_paths) candidate_paths
  end.

Definition is_older_candidate (r target : QueueRow) : bool :=
  (q_created_at r <? q_created_at target)
  || ((q_created_at r =? q_created_at target) && str_ltb (q_id r) (q_id target)).

Definition blocker_from_candidate (r : QueueRow) (state : string) : MergeQueueBlocker :=
  let c := q_candidate r in
  {| mb_candidate_id := mc_id c; mb_workspace_id := mc_workspace_id c;
     mb_attempt_id := mc_attempt_id c; mb_task_id := mc_task_id c;
     mb_title := mw_title (q_workspace r); mb_pr_url := mc_pr_url c;
     mb_pr_number := mc_pr_number c; mb_status := mw_status (q_workspace r);
     mb_blocker_state := state; mb_reason_code := MERGE_QUEUE_WAIT_REASON_CODE |}.

(** The loop over older rows, oldest first. *)
Definition blockers_among (rows : list QueueRow) (target : QueueRow) : list MergeQueueBlocker :=
  flat_map (fun r =>
    if candidate_blocks_target r target then
      match blocking_state r with
      | Some state => [blocker_from_candidate r state]
      | None => []
      end
    else []) rows.

(** ** Queries *)

(** [order_by(created_at.asc(), id.asc())] *)
Definition queue_order (x y : QueueRow) : bool :=
  (q_created_at x <? q_created_at y)
  || ((q_created_at x =? q_created_at y) && str_leb (q_id x) (q_id y)).

Definition load_candidate (table : list QueueRow) (candidate_id : string) : option QueueRow :=
  List.find (fun r => eqb (q_id r) candidate_id) table.

Definition load_candidates (table : list QueueRow) (candidate_ids : list string) : list QueueRow :=
  List.filter (fun r => mem (q_id r) candidate_ids) table.

Definition load_older_open_candidates (table : list QueueRow) (target : QueueRow) : list QueueRow :=
  sorted_by queue_order
    (List.filter (fun r =>
       q_open r && eqb (mc_repo_url (q_candidate r)) (mc_repo_url (q_candidate target))
       && eqb (mc_base_branch (q_candidate r)) (mc_base_branch (q_candidate target))
       && negb (eqb (q_id r) (q_id target)) && q_canonical r && is_older_candidate r target) table).

Definition list_merge_queue_blockers_for_candidate (table : list QueueRow) (candidate_id : string)
  : list MergeQueueBlocker :=
  match load_candidate table candidate_id with
  | None => []
  | Some candidate =>
      if negb (is_merge_ready_candidate candidate) then []
      else blockers_among (load_older_open_candidates table candidate) candidate
  end.

(** ** A page of candidates at once *)

(** The latest of the candidates of each repository and base branch. *)
Definition note_latest (m : gmap (string * string) QueueRow) (r : QueueRow)
  : gmap (string * string) QueueRow :=
  match m !! q_repo_base r with
  | None => <[q_repo_base r := r]> m
  | Some latest => if is_older_candidate latest r then <[q_repo_base r := r]> m else m
  end.

Definition latest_by_repo_base (candidates : list QueueRow) : gmap (string * string) QueueRow :=
  fold_left note_latest candidates ∅.

(** [order_by(repo_url.asc(), base_branch.asc(), created_at.asc(), id.asc())] *)
Definition pool_order (x y : QueueRow) : bool :=
  let '(xr, xb) := q_repo_base x in
  let '(yr, yb) := q_repo_base y in
  str_ltb xr yr
  || (eqb xr yr && (str_ltb xb yb || (eqb xb yb && queue_order x y))).

Definition load_older_open_candidate_pool (table candidates : list QueueRow) : list QueueRow :=
  let latest := latest_by_repo_base candidates in
  sorted_by pool_order
    (List.filter (fun r =>
       q_open r && q_canonical r
       && match latest !! q_repo_base r with
          | Some c => is_older_candidate r c
          | None => false
          end) table).

(** The rows the inner loop lets through. *)
Definition older_in_group (group : list QueueRow) (candidate : QueueRow) : list QueueRow :=
  List.filter (fun r => negb (eqb (q_id r) (q_id candidate) || negb (is_older_candidate r candidate)))
    group.

Definition list_merge_queue_blockers_for_candidates (table : list QueueRow)
    (candidate_ids : list string) : gmap string (list MergeQueueBlocker) :=
  let candidate_id_list := fromkeys candidate_ids in
  let empty : gmap string (list MergeQueueBlocker) :=
    fold_left (fun m id => <[id := []]> m) candidate_id_list ∅ in
  let merge_ready := List.filter is_merge_ready_candidate (load_candidates table candidate_id_list) in
  let groups := group_by q_repo_base (load_older_open_candidate_pool table merge_ready) in
  fold_left (fun m candidate =>
    <[q_id candidate :=
        default [] (m !! q_id candidate)
        ++ blockers_among (older_in_group (default [] (groups !! q_repo_base candidate)) candidate)
             candidate]> m) merge_ready empty.

(** ** The blocker reason of a candidate *)

Definition has_blocking_policy_finding (findings : list PolicyFinding) : bool :=
  existsb (fun f => eqb (pf_severity f) "blocking") findings.

Definition blocking_stale_reasons (reasons : list StaleReason) : list StaleReason :=
  List.filter stale_row_blocks_merge reasons.

Definition stale_reason_for_action (c : MergeCandidate) (reasons : list StaleReason) : string :=
  let legacy_reason := default "" (mc_stale_reason c) in
  if mem legacy_reason [VALIDATION_INSUFFICIENT_TIER_STALE_REASON;
                        VALIDATION_MISSING_FOR_CURRENT_HEAD_STALE_REASON;
                        DOCS_TASK_SCOPE_VIOLATION_STALE_REASON] then legacy_reason
  else match reasons with
       | r :: _ => sr_reason_code r
       | [] => if eqb legacy_reason "" then "stale" else legacy_reason
       end.

Definition required_stale_action (reason : string) : string :=
  default "rebase" (stale_reason_required_action (Some reason)).

Definition merge_blocker_reason (c : MergeCandidate) (stale_reasons : list StaleReason)
    (policy_findings : list PolicyFinding) (queue_blockers : list MergeQueueBlocker)
  : string * option string :=
  let blocking := blocking_stale_reasons stale_reasons in
  let reason := stale_reason_for_action c blocking in
  if mc_completed c then ("completed", None)
  else if mc_failed_or_cancelled c then ("failed_or_cancelled", None)
  else if mc_not_canonical c then ("not_canonical", None)
  else if mc_policy_blocked c || has_blocking_policy_finding policy_findings
       then ("policy_blocked", Some "resolve_policy_findings")
  else if (mc_stale c || negb (eqb (length blocking) 0%nat))
          && stale_reason_blocks_merge (Some reason)
       then ("stale", Some (required_stale_action reason))
  else if mc_manual_merge_required c then ("manual_merge_required", None)
  else if mc_waiting_for_monitor c then ("waiting_for_monitor", None)
  else if negb (eqb (length queue_blockers) 0%nat)
       then ("waiting_for_older_candidate", Some "wait_for_queue")
  else if mc_ready c then ("ready_to_merge_or_waiting_for_github", None)
  else ("workspace_not_terminal", None).

Definition merge_blocker_reason_from_workspace (status : WorkspaceStatus) (auto_merge : bool)
  : string * option string :=
  if eqb status monitoring_pr then
    if auto_merge then ("ready_to_merge_or_waiting_for_github", None)
    else ("manual_merge_required", None)
  else if eqb status pushing then ("waiting_for_monitor", None)
  else if mem (status_value status) MERGE_QUEUE_EXCLUDED_STATUSES
       then ("failed_or_cancelled", None)
  else ("workspace_not_terminal", None).

(** The [ready] field of the readiness response. *)
Definition response_ready (c : MergeCandidate) (policy_findings : list PolicyFinding) : bool :=
  mc_ready c && negb (mc_policy_blocked c || has_blocking_policy_finding policy_findings).
