(* ===== verification/MergeQueueFacts.v ===== *)
(** * What the merge queue guarantees

    The page query computes what the single query computes, candidates that can
    change a common file merge one after the other, and the queue always has a
    head. *)

From S2P Require Import Prelude PyStr Json PyFloat PyVal Status Store Readiness OwnedPaths.
From S2P Require Import OwnedPathsFacts OwnedPathConflicts Findings MergeQueue.
#[local] Open Scope Z_scope.

(** ** The order of the queue *)

Lemma queue_order_total (x y : QueueRow) : queue_order x y = true \/ queue_order y x = true.
Proof.
  unfold queue_order.
  destruct (Z.lt_trichotomy (q_created_at x) (q_created_at y)) as [H|[H|H]].
  - left. by rewrite (proj2 (Z.ltb_lt _ _) H).
  - rewrite H, Z.ltb_irrefl, Z.eqb_refl. apply str_leb_total.
  - right. by rewrite (proj2 (Z.ltb_lt _ _) H).
Qed.

Lemma queue_order_spec (x y : QueueRow) :
  queue_order x y = true <->
  q_created_at x < q_created_at y \/
  (q_created_at x = q_created_at y /\ str_leb (q_id x) (q_id y) = true).
Proof. unfold queue_order. rewrite orb_true_iff, andb_true_iff, Z.ltb_lt, Z.eqb_eq. done. Qed.

Lemma queue_order_trans (x y z : QueueRow) :
  queue_order x y = true -> queue_order y z = true -> queue_order x z = true.
Proof.
  rewrite !queue_order_spec. intros [H1|[H1 H1']] [H2|[H2 H2']]; [left; lia..|].
  right. split; [lia|]. eapply str_leb_trans; eassumption.
Qed.

Lemma queue_order_antisym (x y : QueueRow) :
  queue_order x y = true -> queue_order y x = true -> q_id x = q_id y.
Proof.
  rewrite !queue_order_spec. intros [H1|[H1 H1']] [H2|[H2 H2']]; try lia. by apply str_leb_antisym.
Qed.

(** A row is older exactly when the order does not put it after the target. *)
Lemma is_older_order (x y : QueueRow) : is_older_candidate x y = negb (queue_order y x).
Proof.
  unfold is_older_candidate, queue_order, str_ltb.
  destruct (Z.ltb_spec (q_created_at x) (q_created_at y)),
    (Z.ltb_spec (q_created_at y) (q_created_at x)),
    (Z.eqb_spec (q_created_at x) (q_created_at y)),
    (Z.eqb_spec (q_created_at y) (q_created_at x)); simpl; try lia; try done.
Qed.

Lemma is_older_true (x y : QueueRow) :
  is_older_candidate x y = true <-> queue_order y x = false.
Proof. by rewrite is_older_order, negb_true_iff. Qed.

Lemma older_le (x y z : QueueRow) :
  is_older_candidate x y = true -> is_older_candidate z y = false -> is_older_candidate x z = true.
Proof.
  rewrite !is_older_order, !negb_true_iff, negb_false_iff. intros H1 H2.
  apply not_true_iff_false. intros H3. rewrite (queue_order_trans y z x) in H1; done.
Qed.

Lemma older_irrefl (x : QueueRow) : is_older_candidate x x = false.
Proof. rewrite is_older_order. destruct (queue_order_total x x) as [-> | ->]; done. Qed.

(** ** The latest candidate of a group *)

Lemma latest_bound (l : list QueueRow) (m : gmap (string * string) QueueRow) (r : QueueRow) :
  (r ∈ l \/ exists c, m !! q_repo_base r = Some c /\ is_older_candidate c r = false) ->
  exists c, fold_left note_latest l m !! q_repo_base r = Some c /\ is_older_candidate c r = false.
Proof.
  revert m. induction l as [|x l IH]; intros m H; simpl.
  - destruct H as [H|H]; [by apply elem_of_nil in H|done].
  - apply IH. rewrite elem_of_cons in H. destruct H as [[->|H]|(c & Hc & Ho)].
    + right. unfold note_latest. destruct (m !! q_repo_base x) as [c|] eqn:E.
      * destruct (is_older_candidate c x) eqn:Ec; [|eauto].
        exists x. rewrite lookup_insert_eq. split; [done|apply older_irrefl].
      * exists x. rewrite lookup_insert_eq. split; [done|apply older_irrefl].
    + by left.
    + right. unfold note_latest.
      destruct (base.decide (q_repo_base x = q_repo_base r)) as [He|Hne].
      * rewrite He, Hc. destruct (is_older_candidate c x) eqn:Ec; [|eauto].
        exists x. rewrite lookup_insert_eq. split; [done|].
        rewrite is_older_order in Ho, Ec |- *. apply negb_false_iff in Ho. apply negb_true_iff in Ec.
        apply negb_false_iff. apply (queue_order_trans r c x); [done|].
        destruct (queue_order_total c x); congruence.
      * destruct (m !! q_repo_base x) as [d|]; [case_goal|]; rewrite ?lookup_insert_ne by done; eauto.
Qed.

(** ** One sorted list of competitors *)

Section StronglySorted.
Context {A : Type}.

Lemma StronglySorted_filter_impl (R S : A -> A -> Prop) (f : A -> bool) (l : list A) :
  StronglySorted R l -> (forall x y, f x = true -> f y = true -> R x y -> S x y) ->
  StronglySorted S (List.filter f l).
Proof.
  intros H Himp. induction H as [|x l Hl IH Hx]; simpl; [constructor|].
  destruct (f x) eqn:E; [|done]. constructor; [done|]. rewrite Forall_forall in Hx |- *.
  intros y Hy. apply elem_of_bfilter in Hy as [Hf Hy]. auto.
Qed.
End StronglySorted.

Lemma pool_order_same (x y : QueueRow) :
  q_repo_base x = q_repo_base y -> pool_order x y = queue_order x y.
Proof.
  unfold pool_order. destruct (q_repo_base x) as [r b]. intros <-.
  assert (Hirr : forall s, str_ltb s s = false).
  { intros s. unfold str_ltb. destruct (str_leb_total s s) as [-> | ->]; done. }
  by rewrite !Hirr, !eqb_refl.
Qed.

Lemma str_ltb_cases (x y : string) : str_ltb x y = true \/ x = y \/ str_ltb y x = true.
Proof.
  rewrite !str_ltb_leb. destruct (base.decide (x = y)) as [->|Hne]; [auto|].
  destruct (str_leb_total x y); auto.
Qed.

Lemma str_ltb_trans (x y z : string) : str_ltb x y = true -> str_ltb y z = true -> str_ltb x z = true.
Proof.
  rewrite !str_ltb_leb. intros [H1 N1] [H2 N2]. split; [by eapply str_leb_trans|].
  intros ->. apply N1. by apply str_leb_antisym.
Qed.

Lemma pool_order_total (x y : QueueRow) : pool_order x y = true \/ pool_order y x = true.
Proof.
  unfold pool_order. destruct (q_repo_base x) as [xr xb] eqn:Ex, (q_repo_base y) as [yr yb] eqn:Ey.
  destruct (str_ltb_cases xr yr) as [-> | [-> | ->]]; [by left| |by right].
  destruct (str_ltb_cases xb yb) as [-> | [-> | ->]]; rewrite !eqb_refl, ?orb_true_r; auto.
  destruct (queue_order_total x y) as [-> | ->]; rewrite !orb_true_r; auto.
Qed.

Lemma pool_order_trans (x y z : QueueRow) :
  pool_order x y = true -> pool_order y z = true -> pool_order x z = true.
Proof.
  unfold pool_order. destruct (q_repo_base x) as [xr xb], (q_repo_base y) as [yr yb],
    (q_repo_base z) as [zr zb].
  rewrite !orb_true_iff, !andb_true_iff, !orb_true_iff, !andb_true_iff, !eqb_true.
  intros [H1|[-> [H1|[-> H1]]]] [H2|[-> [H2|[-> H2]]]]; eauto 6 using str_ltb_trans, queue_order_trans.
Qed.

Section Table.
Context (table : list QueueRow) (Hids : NoDup (map q_id table)).

Lemma row_unique (x y : QueueRow) : x ∈ table -> y ∈ table -> q_id x = q_id y -> x = y.
Proof.
  clear -Hids. induction table as [|r l IH]; [by intros ?%elem_of_nil|].
  cbn [map] in Hids. apply NoDup_cons in Hids as [Hr Hl].
  rewrite !elem_of_cons. intros [->|Hx] [->|Hy] He; [done| | |by apply IH].
  - destruct Hr. rewrite He. by apply list_elem_of_fmap_2.
  - destruct Hr. rewrite <- He. by apply list_elem_of_fmap_2.
Qed.

Lemma table_NoDup : NoDup table.
Proof. by eapply NoDup_fmap_1. Qed.

Lemma load_candidate_spec (id : string) (r : QueueRow) :
  load_candidate table id = Some r <-> r ∈ table /\ q_id r = id.
Proof.
  unfold load_candidate. split.
  - intros [Hr He]%find_some. rewrite eqb_true in He. by apply list_elem_of_In in Hr.
  - intros [Hr <-]. destruct (List.find _ table) as [x|] eqn:E.
    + apply find_some in E as [Hx He]. rewrite eqb_true in He. apply list_elem_of_In in Hx.
      by rewrite (row_unique x r).
    + apply list_elem_of_In in Hr. by apply (find_none _ _ E) in Hr; rewrite eqb_refl in Hr.
Qed.

Lemma elem_of_older (target x : QueueRow) :
  target ∈ table ->
  x ∈ load_older_open_candidates table target <->
  x ∈ table /\ q_open x = true /\ q_canonical x = true /\ q_repo_base x = q_repo_base target /\
  is_older_candidate x target = true.
Proof.
  intros Ht. unfold load_older_open_candidates. rewrite elem_of_sorted_by, elem_of_bfilter.
  rewrite !andb_true_iff, !eqb_true, negb_true_iff, eqb_false. unfold q_repo_base. split.
  - intros ([[[[[Ho Hr] Hb] _] Hc] Hold] & Hx). rewrite Hr, Hb. auto.
  - intros (Hx & Ho & Hc & [= Hr Hb] & Hold). split_and!; try done.
    intros He. rewrite (row_unique x target Hx Ht He), older_irrefl in Hold. done.
Qed.

Lemma older_sorted (target : QueueRow) :
  StronglySorted (fun x y => queue_order x y = true) (load_older_open_candidates table target).
Proof. apply sorted_by_sorted; [apply queue_order_total|apply queue_order_trans]. Qed.

(** The group of the page query, cut at the candidate, is what the single query
    loads. *)
Lemma group_is_older (candidates : list QueueRow) (r : QueueRow) :
  r ∈ candidates -> r ∈ table ->
  older_in_group
    (default [] (group_by q_repo_base (load_older_open_candidate_pool table candidates)
                 !! q_repo_base r)) r
  = load_older_open_candidates table r.
Proof.
  intros Hr Ht. rewrite group_by_lookup.
  set (pool := load_older_open_candidate_pool table candidates).
  assert (Hpool : forall x, x ∈ pool <-> x ∈ table /\ q_open x = true /\ q_canonical x = true /\
            exists c, latest_by_repo_base candidates !! q_repo_base x = Some c /\
                      is_older_candidate x c = true).
  { intros x. unfold pool, load_older_open_candidate_pool.
    rewrite elem_of_sorted_by, elem_of_bfilter, !andb_true_iff.
    destruct (latest_by_repo_base candidates !! q_repo_base x); naive_solver. }
  assert (Hsorted : StronglySorted (fun x y => pool_order x y = true) pool)
    by (apply sorted_by_sorted; [apply pool_order_total|apply pool_order_trans]).
  apply (StronglySorted_unique_strong (fun x y => queue_order x y = true)).
  - intros x y Hx Hy H1 H2. apply row_unique; [| |by apply queue_order_antisym].
    + apply elem_of_bfilter in Hx as [_ [_ [Hx _]%Hpool]%elem_of_bfilter]. done.
    + by apply elem_of_older in Hy as [Hy _].
  - eapply StronglySorted_filter_impl; [|by intros x y _ _ H; exact H].
    eapply StronglySorted_filter_impl; [exact Hsorted|]. intros x y Hx Hy H.
    rewrite eqb_true in Hx. rewrite eqb_true in Hy. rewrite <- pool_order_same; [done|congruence].
  - apply older_sorted.
  - apply NoDup_Permutation.
    + apply NoDup_bfilter, NoDup_bfilter, NoDup_sorted_by, NoDup_bfilter, table_NoDup.
    + apply NoDup_sorted_by, NoDup_bfilter, table_NoDup.
    + intros x. rewrite elem_of_older by done. unfold older_in_group.
      rewrite !elem_of_bfilter, eqb_true, Hpool, negb_true_iff, orb_false_iff, negb_false_iff, eqb_false.
      split; [intros ([Hne Hold] & Hk & Hx & Ho & Hc & _); split_and!; done|].
      intros (Hx & Ho & Hc & Hk & Hold). split_and!; try done.
      * intros He. by rewrite (row_unique x r Hx Ht He), older_irrefl in Hold.
      * destruct (latest_bound candidates ∅ r (or_introl Hr)) as (c & Hl & Hc').
        exists c. rewrite Hk. split; [done|]. by eapply older_le.
Qed.

Lemma fold_insert_nil (l : list string) (m : gmap string (list MergeQueueBlocker)) (id : string) :
  fold_left (fun m id => <[id := []]> m) l m !! id = if mem id l then Some [] else m !! id.
Proof.
  revert m. induction l as [|x l IH]; intros m; simpl; [done|]. rewrite IH.
  destruct (base.decide (id = x)) as [->|Hne].
  - rewrite lookup_insert_eq. assert (mem x (x :: l) = true) as -> by (apply mem_true; left).
    by destruct (mem x l).
  - rewrite lookup_insert_ne by done. unfold mem. simpl.
    by rewrite (proj2 (eqb_false id x) Hne).
Qed.

(** A fold that extends the entry of each row of a duplicate-free list once. *)
Lemma fold_extend (f : QueueRow -> list MergeQueueBlocker) (l : list QueueRow)
    (m : gmap string (list MergeQueueBlocker)) (id : string) :
  NoDup (map q_id l) ->
  fold_left (fun m r => <[q_id r := default [] (m !! q_id r) ++ f r]> m) l m !! id
  = match List.find (fun r => eqb (q_id r) id) l with
    | Some r => Some (default [] (m !! id) ++ f r)
    | None => m !! id
    end.
Proof.
  revert m. induction l as [|x l IH]; intros m Hnd; cbn [fold_left List.find]; [done|].
  cbn [map] in Hnd. apply NoDup_cons in Hnd as [Hx Hl]. rewrite IH by done.
  destruct (eqb (q_id x) id) eqn:E.
  - rewrite eqb_true in E. subst id.
    destruct (List.find _ l) as [r|] eqn:Ef; [|by rewrite lookup_insert_eq].
    apply find_some in Ef as [Hr He]. rewrite eqb_true in He. destruct Hx. rewrite <- He.
    apply list_elem_of_fmap_2. by apply list_elem_of_In.
  - rewrite eqb_false in E. by rewrite lookup_insert_ne.
Qed.

Lemma page_lookup (ids : list string) (id : string) :
  list_merge_queue_blockers_for_candidates table ids !! id
  = if mem id ids then Some (list_merge_queue_blockers_for_candidate table id) else None.
Proof.
  assert (Hmem : forall i, mem i (fromkeys ids) = mem i ids).
  { intros i. apply eq_true_iff_eq. by rewrite !mem_true, elem_of_fromkeys. }
  unfold list_merge_queue_blockers_for_candidates.
  set (mr := List.filter is_merge_ready_candidate (load_candidates table (fromkeys ids))).
  assert (Hmr : forall r, r ∈ mr <-> r ∈ table /\ is_merge_ready_candidate r = true /\
                                     q_id r ∈ ids).
  { intros r. unfold mr, load_candidates. rewrite !elem_of_bfilter, mem_true, elem_of_fromkeys.
    tauto. }
  assert (Hnd : NoDup (map q_id mr)).
  { eapply sublist_NoDup; [exact Hids|]. apply sublist_map. unfold mr, load_candidates.
    etrans; apply bfilter_sublist. }
  rewrite (fold_extend (fun r => blockers_among (older_in_group
    (default [] (group_by q_repo_base (load_older_open_candidate_pool table mr) !! q_repo_base r)) r) r))
    by done.
  rewrite fold_insert_nil, lookup_empty, Hmem. unfold list_merge_queue_blockers_for_candidate.
  destruct (List.find (fun r => eqb (q_id r) id) mr) as [r|] eqn:Ef.
  - apply find_some in Ef as [Hr He]. rewrite eqb_true in He. apply list_elem_of_In in Hr.
    pose proof (proj1 (Hmr r) Hr) as (Ht & Hready & Hin). subst id.
    rewrite (proj2 (mem_true _ _) Hin), (proj2 (load_candidate_spec _ r) (conj Ht eq_refl)), Hready.
    cbn [negb default]. by rewrite group_is_older.
  - destruct (mem id ids) eqn:Em; [|done]. f_equal.
    destruct (load_candidate table id) as [r|] eqn:El; [|done].
    apply load_candidate_spec in El as [Ht He].
    destruct (is_merge_ready_candidate r) eqn:Hready; [|done].
    rewrite mem_true in Em. assert (Hr : r ∈ mr) by (apply Hmr; by subst id).
    apply list_elem_of_In in Hr. apply (find_none _ _ Ef) in Hr.
    by rewrite He, eqb_refl in Hr.
Qed.

Lemma candidate_paths_overlap (a b : QueueRow) (p q x : string) :
  p ∈ candidate_owned_paths a -> q ∈ candidate_owned_paths b ->
  normalize_owned_path p <> "" -> normalize_owned_path q <> "" ->
  owns (normalize_owned_path p) x = true -> owns (normalize_owned_path q) x = true ->
  candidate_blocks_target a b = true.
Proof.
  intros Hp Hq Np Nq Op Oq. unfold candidate_blocks_target.
  assert (Hex : existsb (fun p => existsb (owned_paths_overlap p) (candidate_owned_paths b))
                  (candidate_owned_paths a) = true).
  { apply existsb_elem. exists p. split; [done|]. apply existsb_elem. exists q. split; [done|].
    rewrite overlap_spec. cbv zeta. rewrite (common_file_overlap p q x) by done.
    by rewrite (proj2 (eqb_false _ _) Np), (proj2 (eqb_false _ _) Nq). }
  destruct (candidate_owned_paths a); [by apply elem_of_nil in Hp|].
  by destruct (candidate_owned_paths b); [apply elem_of_nil in Hq|].
Qed.

Lemma elem_of_blockers (r : QueueRow) (m : MergeQueueBlocker) :
  r ∈ table ->
  m ∈ list_merge_queue_blockers_for_candidate table (q_id r) <->
  is_merge_ready_candidate r = true /\
  exists b state, b ∈ table /\ q_open b = true /\ q_canonical b = true /\
    q_repo_base b = q_repo_base r /\ is_older_candidate b r = true /\
    candidate_blocks_target b r = true /\ blocking_state b = Some state /\
    m = blocker_from_candidate b state.
Proof.
  intros Hr. unfold list_merge_queue_blockers_for_candidate.
  rewrite (proj2 (load_candidate_spec _ r) (conj Hr eq_refl)).
  destruct (is_merge_ready_candidate r); cbn [negb].
  2:{ split; [by intros ?%elem_of_nil|]. by intros [? _]. }
  unfold blockers_among. rewrite list_elem_of_In, in_flat_map.
  setoid_rewrite <- list_elem_of_In at 1. setoid_rewrite (elem_of_older _ _ Hr). split.
  - intros (b & (Hb & Ho & Hc & Hk & Hold) & Hm). split; [done|].
    destruct (candidate_blocks_target b r) eqn:Et; [|done].
    destruct (blocking_state b) as [state|] eqn:Es; [|done]. destruct Hm as [<-|[]].
    exists b, state. split_and!; done.
  - intros (_ & b & state & Hb & Ho & Hc & Hk & Hold & Et & Es & ->). exists b.
    split; [done|]. rewrite Et, Es. by left.
Qed.
End Table.

Lemma merge_ready_parts (r : QueueRow) :
  is_merge_ready_candidate r = true ->
  q_open r = true /\ q_canonical r = true /\ blocking_state r = Some "merge_eligible".
Proof.
  intros H. unfold blocking_state. rewrite H. unfold is_merge_ready_candidate in H.
  by bool_simpl.
Qed.

(** The oldest of some rows. *)
Lemma oldest_exists (l : list QueueRow) (x : QueueRow) :
  x ∈ l -> exists m, m ∈ l /\ forall y, y ∈ l -> queue_order m y = true.
Proof.
  intros Hx. pose proof (sorted_by_sorted queue_order queue_order_total queue_order_trans l) as Hs.
  destruct (sorted_by queue_order l) as [|m rest] eqn:E.
  - apply (elem_of_sorted_by queue_order) in Hx. rewrite E in Hx. by apply elem_of_nil in Hx.
  - exists m. split; [apply (elem_of_sorted_by queue_order); rewrite E; left|].
    intros y Hy. apply (elem_of_sorted_by queue_order) in Hy. rewrite E in Hy.
    inversion Hs as [|? ? _ Hm]; subst. rewrite Forall_forall in Hm.
    apply elem_of_cons in Hy as [->|Hy]; [|by apply Hm].
    destruct (queue_order_total m m); done.
Qed.

(** ** Properties *)

(** The page query is the single query.  For a table with distinct candidate
    identifiers, the blockers computed for a page of candidates in one pass, from
    the pool of rows older than the latest candidate of each branch, are for every
    requested identifier those of the query for that candidate alone, in the same
    order, and nothing else is reported. *)
Theorem queue_page_agrees (table : list QueueRow) (ids : list string) :
  NoDup (map q_id table) ->
  forall id, list_merge_queue_blockers_for_candidates table ids !! id
             = if mem id ids then Some (list_merge_queue_blockers_for_candidate table id) else None.
Proof. intros Hids id. by apply page_lookup. Qed.

(** C5: candidates that can change a common file merge one after the other.  Of two
    different candidates of one repository and base branch that are both ready to
    merge and own a common file, exactly one is among the blockers of the other, and
    it is the older one. *)
Theorem queue_serializes (table : list QueueRow) (a b : QueueRow) (p q x : string) :
  NoDup (map q_id table) -> a ∈ table -> b ∈ table -> a <> b ->
  q_repo_base a = q_repo_base b ->
  is_merge_ready_candidate a = true -> is_merge_ready_candidate b = true ->
  p ∈ candidate_owned_paths a -> q ∈ candidate_owned_paths b ->
  normalize_owned_path p <> "" -> normalize_owned_path q <> "" ->
  owns (normalize_owned_path p) x = true -> owns (normalize_owned_path q) x = true ->
  let waits r s := exists m, m ∈ list_merge_queue_blockers_for_candidate table (q_id r) /\
                             mb_candidate_id m = q_id s in
  (waits a b <-> is_older_candidate b a = true) /\ (waits b a <-> is_older_candidate a b = true) /\
  (is_older_candidate a b = negb (is_older_candidate b a)).
Proof.
  intros Hids Ha Hb Hne Hk Hra Hrb Hp Hq Np Nq Op Oq waits.
  assert (Hwait : forall r s, r ∈ table -> s ∈ table -> q_repo_base s = q_repo_base r ->
            is_merge_ready_candidate r = true -> is_merge_ready_candidate s = true ->
            candidate_blocks_target s r = true -> (waits r s <-> is_older_candidate s r = true)).
  { intros r s Hr Hs Hrs Hmr Hms Hblock. unfold waits.
    setoid_rewrite (elem_of_blockers table Hids r _ Hr). split.
    - intros (m & (_ & c & state & Hc & _ & _ & _ & Hold & _ & _ & ->) & Hid). cbn in Hid.
      by rewrite <- (row_unique table Hids c s Hc Hs Hid).
    - intros Hold. destruct (merge_ready_parts s Hms) as (Ho & Hcan & Hstate).
      exists (blocker_from_candidate s "merge_eligible"). split; [|done].
      split; [done|]. exists s, "merge_eligible". split_and!; done. }
  split_and!.
  - apply Hwait; try done. by eapply (candidate_paths_overlap b a q p x).
  - apply Hwait; try done. by eapply (candidate_paths_overlap a b p q x).
  - rewrite !is_older_order, negb_involutive. destruct (queue_order_total b a) as [H|H]; rewrite H.
    + destruct (queue_order a b) eqn:E; [|done]. destruct Hne.
      apply (row_unique table Hids); try done. by apply queue_order_antisym.
    + destruct (queue_order b a) eqn:E; [|done]. destruct Hne.
      apply (row_unique table Hids); try done. by apply queue_order_antisym.
Qed.

(** The queue has a head.  When some candidate of a branch is ready to merge and
    no row of that branch is under monitor-owned recovery, one of the ready
    candidates of the branch has no blocker; so waiting is never circular. *)
Theorem queue_has_head (table : list QueueRow) (r : QueueRow) :
  NoDup (map q_id table) -> r ∈ table -> is_merge_ready_candidate r = true ->
  (forall b, b ∈ table -> q_repo_base b = q_repo_base r -> is_monitor_owned_recovery b = false) ->
  exists h, h ∈ table /\ q_repo_base h = q_repo_base r /\ is_merge_ready_candidate h = true /\
    list_merge_queue_blockers_for_candidate table (q_id h) = [].
Proof.
  intros Hids Hr Hready Hrec.
  set (rs := List.filter (fun b => eqb (q_repo_base b) (q_repo_base r)
                                   && is_merge_ready_candidate b) table).
  assert (Hrs : forall b, b ∈ rs <-> b ∈ table /\ q_repo_base b = q_repo_base r /\
                                     is_merge_ready_candidate b = true).
  { intros b. unfold rs. rewrite elem_of_bfilter, andb_true_iff, eqb_true. tauto. }
  destruct (oldest_exists rs r) as (h & Hh & Hmin); [by apply Hrs|].
  apply Hrs in Hh as (Ht & Hk & Hm). exists h. split_and!; try done.
  destruct (list_merge_queue_blockers_for_candidate table (q_id h)) as [|m ms] eqn:E; [done|].
  assert (Hin : m ∈ list_merge_queue_blockers_for_candidate table (q_id h)) by (rewrite E; left).
  apply elem_of_blockers in Hin as (_ & b & state & Hb & _ & _ & Hkb & Hold & _ & Hs & _); [|done..].
  unfold blocking_state in Hs. rewrite (Hrec b) in Hs by (done || congruence).
  destruct (is_merge_ready_candidate b) eqn:Hbr; [|done].
  rewrite is_older_order, negb_true_iff in Hold. rewrite Hmin in Hold; [done|].
  apply Hrs. split_and!; [done|congruence|done].
Qed.

Lemma blocking_nil (reasons : list StaleReason) :
  length (blocking_stale_reasons reasons) = 0%nat <->
  forall r, r ∈ reasons -> stale_row_blocks_merge r = false.
Proof.
  unfold blocking_stale_reasons. rewrite <- bfilter_nil. split; [|by intros ->].
  by destruct (List.filter _ _).
Qed.

(** The codes that make a candidate's own stale reason win block a merge. *)
Lemma action_reason_blocks (c : MergeCandidate) (reasons : list StaleReason) :
  length (blocking_stale_reasons reasons) <> 0%nat ->
  stale_reason_blocks_merge
    (Some (stale_reason_for_action c (blocking_stale_reasons reasons))) = true.
Proof.
  intros Hne. unfold stale_reason_for_action. destruct (mem _ _) eqn:E.
  - rewrite mem_true in E. rewrite !elem_of_cons, elem_of_nil in E.
    destruct E as [-> |[-> |[-> |[]]]]; reflexivity.
  - destruct (blocking_stale_reasons reasons) as [|r rest] eqn:Eb; [done|].
    assert (Hr : r ∈ blocking_stale_reasons reasons) by (rewrite Eb; left).
    by apply elem_of_bfilter in Hr as [Hr _].
Qed.

(** The reported blocker.  For a candidate whose flags are in sync, the operator
    is told that it is ready exactly when it is ready and nothing on record holds it
    back: no blocking stale reason, no blocking policy finding, no older candidate;
    and the reason is always one of the ten known ones. *)
Theorem ready_reason_exact (c d : MergeCandidate) (w : MergeWorkspace) (a : MergeAttempt)
    (sync : bool) (stale_reasons : list StaleReason) (findings : list PolicyFinding)
    (blockers : list MergeQueueBlocker) :
  sync_candidate_readiness d w a sync = Ok c ->
  let reason := (merge_blocker_reason c stale_reasons findings blockers).1 in
  (reason = "ready_to_merge_or_waiting_for_github" <->
   mc_ready c = true /\ (forall r, r ∈ stale_reasons -> stale_row_blocks_merge r = false) /\
   has_blocking_policy_finding findings = false /\ blockers = []) /\
  reason ∈ ["completed"; "failed_or_cancelled"; "not_canonical"; "policy_blocked"; "stale";
            "manual_merge_required"; "waiting_for_monitor"; "waiting_for_older_candidate";
            "ready_to_merge_or_waiting_for_github"; "workspace_not_terminal"].
Proof.
  intros Hsync reason. split.
  2:{ unfold reason, merge_blocker_reason. repeat case_goal; cbn [fst]; set_solver. }
  unfold sync_candidate_readiness in Hsync.
  destruct (parse_status (mw_status w)) as [s|] eqn:Es; [|done]. apply parse_status_ok in Es.
  injection Hsync as <-. set (e := if sync then _ else _) in *.
  set (c := derive_flags e s w a) in *.
  pose proof (derive_ready e s w a Es) as Hready. pose proof (derive_exclusive e s w a) as Hex.
  fold c in Hready, Hex.
  assert (Hcan : mc_not_canonical c = negb (ma_is_canonical_for_merge a))
    by (unfold c, derive_flags; by case_goal).
  rewrite <- blocking_nil. unfold reason, merge_blocker_reason.
  set (n := length (blocking_stale_reasons stale_reasons)).
  split.
  - destruct (mc_completed c) eqn:E1; [done|]. destruct (mc_failed_or_cancelled c); [done|].
    destruct (mc_not_canonical c); [done|].
    destruct (mc_policy_blocked c || has_blocking_policy_finding findings) eqn:E2; [done|].
    apply orb_false_iff in E2 as [_ E2].
    destruct ((mc_stale c || negb (eqb n 0%nat)) && _) eqn:E3; [done|].
    destruct (mc_manual_merge_required c); [done|]. destruct (mc_waiting_for_monitor c); [done|].
    destruct blockers as [|m ms]; [|done]. cbn [length]. rewrite eqb_refl. cbn [negb].
    destruct (mc_ready c); [|done]. intros _. split_and!; try done.
    apply andb_false_iff in E3. destruct (base.decide (n = 0%nat)) as [Hn|Hn]; [done|].
    destruct E3 as [E3|E3]; [|by rewrite action_reason_blocks in E3].
    apply orb_false_iff in E3 as [_ E3]. by rewrite (proj2 (eqb_false n 0%nat) Hn) in E3.
  - intros (Hr & Hn & Hf & ->). pose proof (proj1 Hready Hr) as [(_ & _ & Hca & Hpb & Hst) _].
    unfold outcome_flags in Hex. rewrite Hr in Hex. cbn [List.filter id length] in Hex.
    destruct (mc_completed c), (mc_failed_or_cancelled c), (mc_manual_merge_required c),
      (mc_waiting_for_monitor c); cbn [List.filter id length] in Hex; try lia.
    rewrite Hcan, Hca, Hpb, Hf, Hst, Hn, eqb_refl, Hr. done.
Qed.

(** ** Samples *)

Definition sample_row (id ws : string) (t : Z) (paths : list string) : QueueRow :=
  {| q_candidate := sample_merge_candidate id ws t;
     q_workspace := sample_merge_workspace ws "refactor_task" paths;
     q_attempt := sample_merge_attempt |}.

Definition row_old : QueueRow := sample_row "mc_1" "ws_1" 100 ["src/parser"].
Definition row_new : QueueRow := sample_row "mc_2" "ws_2" 200 ["src/parser/lex.py"].
Definition row_other : QueueRow := sample_row "mc_3" "ws_3" 150 ["docs/*.md"].
Definition sample_queue : list QueueRow := [row_new; row_other; row_old].

Lemma sample_queue_ids : NoDup (map q_id sample_queue).
Proof. apply (bool_decide_unpack (NoDup (map q_id sample_queue))). vm_compute. exact I. Qed.

Lemma queue_page_agrees_witness :
  NoDup (map q_id sample_queue) /\
  option_map (map mb_candidate_id)
    (list_merge_queue_blockers_for_candidates sample_queue ["mc_2"; "mc_1"; "mc_9"] !! "mc_2")
  = Some ["mc_1"].
Proof.
  split; [exact sample_queue_ids|].
  rewrite (queue_page_agrees sample_queue ["mc_2"; "mc_1"; "mc_9"] sample_queue_ids).
  vm_compute. reflexivity.
Defined.

Lemma queue_serializes_witness :
  (exists m, m ∈ list_merge_queue_blockers_for_candidate sample_queue "mc_2" /\
             mb_candidate_id m = "mc_1").
Proof.
  apply (queue_serializes sample_queue row_new row_old "src/parser/lex.py" "src/parser"
    "src/parser/lex.py"); try (vm_compute; reflexivity); try discriminate.
  - exact sample_queue_ids.
  - left.
  - right. right. left.
  - apply list_elem_of_In. vm_compute. auto.
  - apply list_elem_of_In. vm_compute. auto.
Defined.

Lemma queue_has_head_witness :
  exists h, h ∈ sample_queue /\ q_repo_base h = q_repo_base row_new /\
    is_merge_ready_candidate h = true /\
    list_merge_queue_blockers_for_candidate sample_queue (q_id h) = [].
Proof.
  apply (queue_has_head sample_queue row_new); [exact sample_queue_ids|left|reflexivity|].
  assert (Hall : forallb (fun b => negb (is_monitor_owned_recovery b)) sample_queue = true)
    by (vm_compute; reflexivity).
  rewrite forallb_elem in Hall. intros b Hb _. apply negb_true_iff. exact (Hall b Hb).
Defined.

Lemma ready_reason_exact_witness :
  (merge_blocker_reason sample_ready_candidate [] [] []).1 = "ready_to_merge_or_waiting_for_github".
Proof.
  apply (ready_reason_exact sample_ready_candidate (sample_merge_candidate "mc_1" "ws_1" 100)
    (sample_merge_workspace "ws_1" "refactor_task" ["src/parser"]) sample_merge_attempt true);
    [vm_compute; reflexivity|].
  split_and!; [reflexivity| |reflexivity|reflexivity].
  intros r Hr. by apply elem_of_nil in Hr.
Defined.
