(* ===== verification/MergeGate.v ===== *)
(** * The merge gate and the life of a candidate row

    [_merge_gate_for_workspace] of [runtime/pr_monitor_runner/gates.py]: the last
    check before the monitor merges.  With it the other writers of a candidate: the
    repository operations of [db/repositories/quality_repo.py], the scope-policy
    refresh of [service/scope_policy.py] and the refresh after a base sync of
    [runtime/pr_monitor_runner/sync_base_support.py]. *)

From S2P Require Import Prelude PyStr Json PyFloat PyVal Status Store Readiness OwnedPaths.
From S2P Require Import OwnedPathsFacts ScopePolicy Findings Staleness StalenessFacts.
From S2P Require Import MergeQueue.
#[local] Open Scope Z_scope.

(** ** The gate *)

Record MergeGateResult : Type := {
  gr_stale_reason : option string;
  gr_req_action : option string;
  gr_notify_message : option string
}.

Definition has_successful_validation_for_pr_head (w : MergeWorkspace) (attempt_id : string)
    (current_head_sha : option string) : bool :=
  match current_head_sha with
  | None => false
  | Some _ =>
      existsb (fun run =>
        eqb (vr_attempt_id run) attempt_id && eqb (vr_status run) "succeeded"
        && (eqb (vr_workspace_head_sha run) current_head_sha
            || eqb (vr_target_head_sha run) current_head_sha)) (loaded (mw_validation_runs w))
  end.

(** Validation staleness: the attempt's tier, then the pull request's head. *)
Definition gate_validation (c : MergeCandidate) (w : MergeWorkspace)
    (current_head_sha : option string) : option string * option string :=
  let '(reason, action) := compute_stale_reason_for_attempt w (mc_attempt_id c) in
  if eqb reason None && negb (eqb current_head_sha None)
     && negb (has_successful_validation_for_pr_head w (mc_attempt_id c) current_head_sha)
  then (Some VALIDATION_MISSING_FOR_CURRENT_HEAD_STALE_REASON, Some "validate")
  else (reason, action).

(** What the row itself says, unless validation has settled it. *)
Definition persisted_reason (c : MergeCandidate) (validation_reason : option string)
  : option string :=
  let persisted := if mc_stale c then or_str (mc_stale_reason c) (Some "stale") else None in
  let persisted := if stale_reason_blocks_merge persisted then persisted else None in
  if eqb validation_reason None
     && mem persisted [Some VALIDATION_INSUFFICIENT_TIER_STALE_REASON;
                       Some VALIDATION_MISSING_FOR_CURRENT_HEAD_STALE_REASON]
  then None else persisted.

Definition docs_scope_validated (c : MergeCandidate) (w : MergeWorkspace)
    (validation_reason persisted current_head_sha : option string) : bool :=
  eqb validation_reason None
  && eqb persisted (Some DOCS_TASK_SCOPE_VIOLATION_STALE_REASON)
  && has_successful_validation_for_pr_head w (mc_attempt_id c) current_head_sha.

Definition is_docs_scope (r : StaleReason) : bool :=
  eqb (sr_reason_code r) DOCS_TASK_SCOPE_VIOLATION_STALE_REASON.

Definition with_head_sha (c : MergeCandidate) (sha : option string) : MergeCandidate :=
  {| mc_id := mc_id c; mc_task_id := mc_task_id c; mc_attempt_id := mc_attempt_id c;
     mc_workspace_id := mc_workspace_id c; mc_pr_url := mc_pr_url c;
     mc_pr_number := mc_pr_number c; mc_repo_url := mc_repo_url c;
     mc_base_branch := mc_base_branch c; mc_head_sha := sha; mc_base_sha := mc_base_sha c;
     mc_status := mc_status c; mc_close_reason := mc_close_reason c;
     mc_created_at := mc_created_at c; mc_closed_at := mc_closed_at c;
     mc_merged_at := mc_merged_at c; mc_ready := mc_ready c;
     mc_manual_merge_required := mc_manual_merge_required c;
     mc_waiting_for_monitor := mc_waiting_for_monitor c;
     mc_failed_or_cancelled := mc_failed_or_cancelled c; mc_completed := mc_completed c;
     mc_not_canonical := mc_not_canonical c; mc_policy_blocked := mc_policy_blocked c;
     mc_stale := mc_stale c; mc_stale_reason := mc_stale_reason c |}.

Definition gate_notify (c : MergeCandidate) (w : MergeWorkspace) (a : MergeAttempt)
    (check_policy : bool) (findings : list PolicyFinding) : option string :=
  if negb (ma_is_canonical_for_merge a) then
    Some ("AWF blocked auto-merge because this PR is no longer the "
          +:+ "canonical attempt for its task.")
  else if negb (mw_auto_merge w) then
    Some "AWF blocked auto-merge because auto_merge is disabled."
  else if check_policy && (mc_policy_blocked c || has_blocking_policy_finding findings) then
    Some ("OUT_OF_SCOPE_CHANGE: changed files outside declared "
          +:+ "owned_paths require an operator scope decision.")
  else None.

Definition no_candidate_message : string :=
  "AWF could not find an open merge candidate for this workspace. Auto-merge is blocked until "
  +:+ "candidate provenance is repaired.".

(** The active stale rows of the candidate, which the gate reads in age order. *)
Definition active_stale (c : MergeCandidate) (table : list StaleReason) : list StaleReason :=
  list_active (candidate_ref c) table.

Definition active_policy (c : MergeCandidate) (table : list PolicyFinding) : list PolicyFinding :=
  List.filter (fun f => eqb (pf_candidate_id f) (Some (mc_id c)) && eqb (pf_status f) "active") table.

(** The row is [None] when the workspace has no open candidate.  The result has the
    gate's answer, the new [stale_reasons] table and the new candidate. *)
Definition merge_gate_for_workspace (row : option (MergeCandidate * MergeWorkspace * MergeAttempt))
    (stale_table : list StaleReason) (policy_table : list PolicyFinding) (now : Z)
    (check_policy : bool) (current_head_sha : option string)
  : result DbError (MergeGateResult * list StaleReason * option MergeCandidate) :=
  match row with
  | None =>
      Ok ({| gr_stale_reason := None; gr_req_action := None;
             gr_notify_message := Some no_candidate_message |}, stale_table, None)
  | Some (c, w, a) =>
      let '(validation_reason, validation_action) := gate_validation c w current_head_sha in
      let persisted := persisted_reason c validation_reason in
      let docs_ok := docs_scope_validated c w validation_reason persisted current_head_sha in
      let persisted := if docs_ok then None else persisted in
      let active := active_stale c stale_table in
      let stale_table' :=
        if docs_ok
        then map (fun r => if stale_active_for (candidate_ref c) r && is_docs_scope r
                           then resolve_stale now r else r) stale_table
        else stale_table in
      let c := if docs_ok then with_head_sha c current_head_sha else c in
      let blocking := List.filter (fun r => stale_row_blocks_merge r
                                            && negb (docs_ok && is_docs_scope r)) active in
      let active_reason := match blocking with r :: _ => Some (sr_reason_code r) | [] => None end in
      let stale_reason := or_str (or_str validation_reason active_reason) persisted in
      let req_action := match validation_reason with
                        | Some _ => validation_action
                        | None => stale_reason_required_action stale_reason
                        end in
      let notify := gate_notify c w a check_policy (active_policy c policy_table) in
      let c' :=
        match validation_reason, active_reason with
        | Some r, _ => with_stale c true (Some r)
        | None, Some r => with_stale c true (Some r)
        | None, None => with_stale c (negb (eqb stale_reason None)) stale_reason
        end in
      match sync_candidate_readiness c' w a false with
      | Err e => Err e
      | Ok c'' =>
          Ok ({| gr_stale_reason := stale_reason; gr_req_action := req_action;
                 gr_notify_message := notify |}, stale_table', Some c'')
      end
  end.

(** ** The other writers *)

(** [create_or_update_open_for_attempt], on the row of the attempt. *)
Definition reopen (c : MergeCandidate) (task_id workspace_id pr_url repo_url base_branch : string)
    (pr_number : option Z) (head_sha base_sha : option string) : MergeCandidate :=
  {| mc_id := mc_id c; mc_task_id := task_id; mc_attempt_id := mc_attempt_id c;
     mc_workspace_id := workspace_id; mc_pr_url := pr_url; mc_pr_number := pr_number;
     mc_repo_url := repo_url; mc_base_branch := base_branch;
     mc_head_sha := keep_or head_sha (mc_head_sha c);
     mc_base_sha := keep_or base_sha (mc_base_sha c); mc_status := "open"; mc_close_reason := None;
     mc_created_at := mc_created_at c; mc_closed_at := None; mc_merged_at := None;
     mc_ready := mc_ready c; mc_manual_merge_required := mc_manual_merge_required c;
     mc_waiting_for_monitor := mc_waiting_for_monitor c;
     mc_failed_or_cancelled := mc_failed_or_cancelled c; mc_completed := mc_completed c;
     mc_not_canonical := mc_not_canonical c; mc_policy_blocked := mc_policy_blocked c;
     mc_stale := mc_stale c; mc_stale_reason := mc_stale_reason c |}.

Definition with_candidate_status (c : MergeCandidate) (status : string)
    (reason : option string) (closed merged : option Z) : MergeCandidate :=
  {| mc_id := mc_id c; mc_task_id := mc_task_id c; mc_attempt_id := mc_attempt_id c;
     mc_workspace_id := mc_workspace_id c; mc_pr_url := mc_pr_url c;
     mc_pr_number := mc_pr_number c; mc_repo_url := mc_repo_url c;
     mc_base_branch := mc_base_branch c; mc_head_sha := mc_head_sha c;
     mc_base_sha := mc_base_sha c; mc_status := status; mc_close_reason := reason;
     mc_created_at := mc_created_at c; mc_closed_at := closed; mc_merged_at := merged;
     mc_ready := mc_ready c; mc_manual_merge_required := mc_manual_merge_required c;
     mc_waiting_for_monitor := mc_waiting_for_monitor c;
     mc_failed_or_cancelled := mc_failed_or_cancelled c; mc_completed := mc_completed c;
     mc_not_canonical := mc_not_canonical c; mc_policy_blocked := mc_policy_blocked c;
     mc_stale := mc_stale c; mc_stale_reason := mc_stale_reason c |}.

Definition close_candidate (c : MergeCandidate) (w : MergeWorkspace) (a : MergeAttempt)
    (close_reason : string) (now : Z) : result DbError MergeCandidate :=
  if negb (eqb (mc_status c) "open") then Ok c
  else sync_candidate_readiness
         (with_candidate_status c "closed" (Some close_reason) (Some now) (mc_merged_at c)) w a true.

Definition mark_merged (c : MergeCandidate) (w : MergeWorkspace) (a : MergeAttempt) (now : Z)
  : result DbError MergeCandidate :=
  sync_candidate_readiness (with_candidate_status c "merged" None None (Some now)) w a true.

Definition with_policy_blocked (c : MergeCandidate) (blocked : bool) : MergeCandidate :=
  {| mc_id := mc_id c; mc_task_id := mc_task_id c; mc_attempt_id := mc_attempt_id c;
     mc_workspace_id := mc_workspace_id c; mc_pr_url := mc_pr_url c;
     mc_pr_number := mc_pr_number c; mc_repo_url := mc_repo_url c;
     mc_base_branch := mc_base_branch c; mc_head_sha := mc_head_sha c;
     mc_base_sha := mc_base_sha c; mc_status := mc_status c;
     mc_close_reason := mc_close_reason c; mc_created_at := mc_created_at c;
     mc_closed_at := mc_closed_at c; mc_merged_at := mc_merged_at c; mc_ready := mc_ready c;
     mc_manual_merge_required := mc_manual_merge_required c;
     mc_waiting_for_monitor := mc_waiting_for_monitor c;
     mc_failed_or_cancelled := mc_failed_or_cancelled c; mc_completed := mc_completed c;
     mc_not_canonical := mc_not_canonical c; mc_policy_blocked := blocked;
     mc_stale := mc_stale c; mc_stale_reason := mc_stale_reason c |}.

Definition severity_text (s : PolicySeverity) : string :=
  match s with severity_warning => "warning" | severity_blocking => "blocking" end.

Definition policy_create (f : OutOfScopeChangeFinding) : PolicyFindingCreate :=
  {| pc_reason_code := of_reason_code f; pc_severity := severity_text (of_severity f);
     pc_subject_path := Some (of_path f); pc_explanation := of_explanation f;
     pc_details :=
       JObj [("owned_paths", JArr (map JStr (of_owned_paths f)));
             ("allowlist_patterns", JArr (map JStr (of_allowlist_patterns f)));
             ("mode", JStr (of_mode f))] |}.

Definition policy_subject (c : MergeCandidate) : PolicySubject :=
  {| ps_workspace_id := mc_workspace_id c; ps_candidate_id := Some (mc_id c);
     ps_attempt_id := Some (mc_attempt_id c); ps_task_id := Some (mc_task_id c);
     ps_reason_code := OUT_OF_SCOPE_CHANGE_CODE |}.

Inductive ScopeRefreshError : Type :=
| ScopeCandidateNotFound
| ScopePolicyInvalid
| ScopeDbError (e : DbError).

(** [ScopePolicyRefreshService.refresh_candidate]: the new findings table and the
    new candidate. *)
Definition refresh_scope_policy (row : option (MergeCandidate * MergeWorkspace * MergeAttempt))
    (task_policy : option json) (new_id : nat -> string) (now : Z) (table : list PolicyFinding)
    (changed_paths : list string)
  : result ScopeRefreshError (list PolicyFinding * MergeCandidate) :=
  match row with
  | None => Err ScopeCandidateNotFound
  | Some (c, w, a) =>
      let normalized := normalized_unique_paths changed_paths in
      match out_of_scope_policy_for_workspace (Some (mw_resolved_profile w)) task_policy with
      | Err _ => Err ScopePolicyInvalid
      | Ok policy =>
          let owned := match mw_owned_paths w with [] => ma_owned_paths a | l => l end in
          let findings := evaluate_out_of_scope_changes normalized owned policy in
          let '(table', _, _) :=
            replace_active_findings (policy_subject c) new_id now table (map policy_create findings) in
          let policy_blocked := has_blocking_policy_finding (active_policy c table') in
          match sync_candidate_readiness (with_policy_blocked c policy_blocked) w a true with
          | Err e => Err (ScopeDbError e)
          | Ok c' => Ok (table', c')
          end
      end
  end.

Definition SYNC_BASE_RESOLVABLE_STALE_REASONS : list string :=
  [REASON_TARGET_ADVANCED; REASON_OVERLAP; REASON_SCHEMA; REASON_DEPENDENCY; REASON_BUILD_CONFIG;
   REASON_PLAN_ARTIFACT_OVERLAP].

Definition with_base_sha (c : MergeCandidate) (sha : option string) : MergeCandidate :=
  {| mc_id := mc_id c; mc_task_id := mc_task_id c; mc_attempt_id := mc_attempt_id c;
     mc_workspace_id := mc_workspace_id c; mc_pr_url := mc_pr_url c;
     mc_pr_number := mc_pr_number c; mc_repo_url := mc_repo_url c;
     mc_base_branch := mc_base_branch c; mc_head_sha := mc_head_sha c; mc_base_sha := sha;
     mc_status := mc_status c; mc_close_reason := mc_close_reason c;
     mc_created_at := mc_created_at c; mc_closed_at := mc_closed_at c;
     mc_merged_at := mc_merged_at c; mc_ready := mc_ready c;
     mc_manual_merge_required := mc_manual_merge_required c;
     mc_waiting_for_monitor := mc_waiting_for_monitor c;
     mc_failed_or_cancelled := mc_failed_or_cancelled c; mc_completed := mc_completed c;
     mc_not_canonical := mc_not_canonical c; mc_policy_blocked := mc_policy_blocked c;
     mc_stale := mc_stale c; mc_stale_reason := mc_stale_reason c |}.

Definition restate (r : StaleReason) : StaleReasonCreate :=
  {| sc_reason_code := sr_reason_code r; sc_trigger_type := sr_trigger_type r;
     sc_trigger_ref := sr_trigger_ref r; sc_explanation := sr_explanation r |}.

(** [_refresh_staleness_after_sync_base] once [git rev-parse] answered [new_base]:
    a failure of the last sync is logged and nothing is committed. *)
Definition refresh_after_sync_base (c : MergeCandidate) (w : MergeWorkspace) (a : MergeAttempt)
    (new_id : nat -> string) (now : Z) (table : list StaleReason) (rev_parse : option string)
  : list StaleReason * MergeCandidate :=
  let active := active_stale c table in
  let resolvable := fun r => mem (sr_reason_code r) SYNC_BASE_RESOLVABLE_STALE_REASONS in
  match truthy_str (option_map strip rev_parse) with
  | None => (table, c)
  | Some new_base =>
      let c' := with_base_sha c (Some new_base) in
      if negb (existsb resolvable active) then (table, c')
      else
        let preserved := List.filter (fun r => negb (resolvable r)) active in
        let '(table', _, _) :=
          replace_active_findings (candidate_ref c) new_id now table (map restate preserved) in
        match sync_candidate_readiness (with_stale c' false None) w a true with
        | Err _ => (table, c)
        | Ok c'' => (table', c'')
        end
  end.
