(* ===== verification/SupplyPolicy.v ===== *)
(** * The supply-chain policy

    The guardrails a profile selects ([profiles/models.py]), their evaluation over the
    evidence of a workspace and the refresh of the stored findings
    ([service/supply_chain_policy.py], [service/supply_chain_policy_helpers.py]). *)

From S2P Require Import Prelude PyStr PyPath PyNet Json PyRe Store OwnedPaths ScopePolicy.
From S2P Require Import Readiness.
From S2P Require Import Findings MergeQueue MergeGate SupplyChain.
#[local] Open Scope Z_scope.

(** ** The guardrails of a profile *)

Inductive SupplyChainGuardrailMode : Type := guardrail_warn | guardrail_block.

#[export] Instance SupplyChainGuardrailMode_eq_dec : EqDecision SupplyChainGuardrailMode.
Proof. solve_decision. Defined.

Definition guardrail_value (m : SupplyChainGuardrailMode) : string :=
  match m with guardrail_warn => "warn" | guardrail_block => "block" end.

Record SupplyChainRegistryPolicy : Type := {
  rp_mode : SupplyChainGuardrailMode;
  rp_allowed_hosts : list string
}.

Record ProfileSupplyChainPolicy : Type := {
  unpinned_dependency_installs : SupplyChainGuardrailMode;
  remote_script_execution : SupplyChainGuardrailMode;
  unexpected_registry_hosts : SupplyChainRegistryPolicy;
  lockfile_changes_outside_owned_paths : SupplyChainGuardrailMode
}.

Definition default_registry_policy : SupplyChainRegistryPolicy :=
  {| rp_mode := guardrail_warn; rp_allowed_hosts := [] |}.
Definition default_supply_chain_policy : ProfileSupplyChainPolicy :=
  {| unpinned_dependency_installs := guardrail_warn; remote_script_execution := guardrail_warn;
     unexpected_registry_hosts := default_registry_policy;
     lockfile_changes_outside_owned_paths := guardrail_warn |}.

Definition REGISTRY_HOST_PATTERN : regex :=
  re_compile NOFLAG
    "(?=^.{1,253}$)[a-z0-9](?:[a-z0-9-]{0,61}[a-z0-9])?(?:\.[a-z0-9](?:[a-z0-9-]{0,61}[a-z0-9])?)*".

Definition truthy (s : option string) : bool :=
  match s with Some s => negb (eqb s "") | None => false end.

(** The host of an entry of [allowed_hosts]; [None] is the ValueError. *)
Definition registry_host (raw : string) : option string :=
  if contains "://" raw then
    match urlsplit raw with
    | inl _ => None
    | inr parsed =>
        if negb (mem (u_scheme parsed) ["http"; "https"]) || eqb (u_netloc parsed) "" then None
        else if truthy (username parsed) || truthy (password parsed) then None
        else hostname parsed
    end
  else if existsb (fun c => has_char c raw) [slash; char 63; char 35; at_sign] then None
  else Some (match rpartition colon raw with Some (host, _) => host | None => raw end).

Definition _normalize_registry_host (value : string) : option string :=
  let raw := strip value in
  if eqb raw "" then None
  else
    host ← registry_host raw;
    let normalized := rstrip_by (Ascii.eqb dot) (lower host) in
    if eqb normalized "localhost" then Some normalized
    else if found (re_fullmatch (r_pat REGISTRY_HOST_PATTERN) normalized) then Some normalized
    else None.

Definition _normalize_allowed_hosts (value : list string) : option (list string) :=
  hosts ← mapM _normalize_registry_host value; Some (fromkeys hosts).

(** *** Validation of a section

    [extra="forbid"]: a key that is not a field makes the whole section invalid. *)

Definition only_keys (fields : list string) (section : list (string * json)) : bool :=
  forallb (fun '(k, _) => mem k fields) section.

Definition mode_of_json (v : option json) : option SupplyChainGuardrailMode :=
  match v with
  | None => Some guardrail_warn
  | Some (JStr s) =>
      if eqb s "warn" then Some guardrail_warn
      else if eqb s "block" then Some guardrail_block else None
  | Some _ => None
  end.

Definition guardrail_of_json (v : option json) : option SupplyChainGuardrailMode :=
  match v with
  | None => Some guardrail_warn
  | Some (JObj section) =>
      if only_keys ["mode"] section then mode_of_json (json_get (JObj section) "mode") else None
  | Some _ => None
  end.

Definition text_of_json (v : json) : option string :=
  match v with JStr s => Some s | _ => None end.

Definition hosts_of_json (v : option json) : option (list string) :=
  match v with
  | None => Some []
  | Some (JArr items) =>
      texts ← mapM text_of_json items;
      if 128 <? Z.of_nat (length texts) then None else _normalize_allowed_hosts texts
  | Some _ => None
  end.

Definition registry_of_json (v : option json) : option SupplyChainRegistryPolicy :=
  match v with
  | None => Some default_registry_policy
  | Some (JObj section) =>
      if only_keys ["mode"; "allowed_hosts"] section then
        mode ← mode_of_json (json_get (JObj section) "mode");
        hosts ← hosts_of_json (json_get (JObj section) "allowed_hosts");
        Some {| rp_mode := mode; rp_allowed_hosts := hosts |}
      else None
  | Some _ => None
  end.

Definition SUPPLY_CHAIN_FIELDS : list string :=
  ["unpinned_dependency_installs"; "remote_script_execution"; "unexpected_registry_hosts";
   "lockfile_changes_outside_owned_paths"].

(** [ProfileSupplyChainPolicy.model_validate] of an object *)
Definition policy_of_json (section : json) : option ProfileSupplyChainPolicy :=
  match section with
  | JObj fields =>
      if only_keys SUPPLY_CHAIN_FIELDS fields then
        unpinned ← guardrail_of_json (json_get section "unpinned_dependency_installs");
        remote ← guardrail_of_json (json_get section "remote_script_execution");
        registry ← registry_of_json (json_get section "unexpected_registry_hosts");
        lockfile ← guardrail_of_json (json_get section "lockfile_changes_outside_owned_paths");
        Some {| unpinned_dependency_installs := unpinned; remote_script_execution := remote;
                unexpected_registry_hosts := registry;
                lockfile_changes_outside_owned_paths := lockfile |}
      else None
  | _ => None
  end.

Definition supply_chain_policy_for_workspace (resolved_profile : json) : ProfileSupplyChainPolicy :=
  match nested_dict (Some resolved_profile) "security" (Some "supply_chain") with
  | None => default_supply_chain_policy
  | Some section => default default_supply_chain_policy (policy_of_json section)
  end.

(** ** Findings *)

Record SupplyChainFinding : Type := {
  sf_reason_code : string;
  sf_severity : PolicySeverity;
  sf_subject_path : option string;
  sf_explanation : string;
  sf_details : json
}.

Definition _severity (mode : string) : PolicySeverity :=
  if eqb mode "block" then severity_blocking else severity_warning.

(** [_URL_CREDENTIAL_PATTERN.sub(r"\1[redacted]@", command)] *)
Definition redact_credentials (command : string) : string :=
  re_sub (r_pat _URL_CREDENTIAL_PATTERN)
    (fun m => default "" (m_group m 1) +:+ "[redacted]@") command.

Definition _redact_command_excerpt (command : string) : string :=
  take_str 300 (strip (redact_credentials command)).

Definition _is_lockfile_path (path : string) : bool :=
  let name := posix_name path in mem name _LOCKFILE_NAMES || ends_with ".lock" name.

Definition strings (l : list string) : json := JArr (map JStr l).

Definition remote_script_finding (policy : ProfileSupplyChainPolicy) (command : string)
  : SupplyChainFinding :=
  let mode := guardrail_value (remote_script_execution policy) in
  {| sf_reason_code := SUPPLY_CHAIN_REMOTE_SCRIPT_EXECUTION; sf_severity := _severity mode;
     sf_subject_path := None;
     sf_explanation := "Remote script execution through an interpreter was detected.";
     sf_details := JObj [
       ("guardrail", JStr "remote_script_execution");
       ("command_excerpt", JStr (_redact_command_excerpt command));
       ("mode", JStr mode);
       ("recovery_guidance",
         JStr ("Download the remote script, inspect and pin its source, then "
               +:+ "run a local checked-in script or documented installer step."))] |}.

Definition _remote_script_execution (policy : ProfileSupplyChainPolicy) (command : string)
    (tokens : list string) : result string (option SupplyChainFinding) :=
  detected <-? remote_script_detected tokens ;;
  Ok (if detected then Some (remote_script_finding policy command) else None).

(** The specifiers without a pin, in order. *)
Fixpoint unpinned_specs (manager : string) (specs : list string) : result string (list string) :=
  match specs with
  | [] => Ok []
  | spec :: rest =>
      pinned <-? _is_pinned_or_local_spec manager spec ;;
      unpinned <-? unpinned_specs manager rest ;;
      Ok (if pinned then unpinned else spec :: unpinned)
  end.

Definition unpinned_finding (policy : ProfileSupplyChainPolicy) (command : string)
    (package_command : _PackageCommand) (unpinned : list string) : SupplyChainFinding :=
  let mode := guardrail_value (unpinned_dependency_installs policy) in
  {| sf_reason_code := SUPPLY_CHAIN_UNPINNED_DEPENDENCY_INSTALL; sf_severity := _severity mode;
     sf_subject_path := None;
     sf_explanation := "Package installation command contains unpinned dependency specifier(s): "
                       +:+ join ", " unpinned +:+ ".";
     sf_details := JObj [
       ("guardrail", JStr "unpinned_dependency_installs");
       ("manager", JStr (pk_manager package_command));
       ("operation", JStr (pk_operation package_command));
       ("unpinned_specs", strings unpinned);
       ("command_excerpt", JStr (_redact_command_excerpt command));
       ("mode", JStr mode);
       ("recovery_guidance",
         JStr ("Pin the dependency version or use the repository lockfile-aware "
               +:+ "installer before retrying."))] |}.

Definition _unpinned_dependency_install_finding (policy : ProfileSupplyChainPolicy)
    (command : string) (package_command : _PackageCommand)
  : result string (option SupplyChainFinding) :=
  unpinned <-? unpinned_specs (pk_manager package_command) (pk_package_specs package_command) ;;
  Ok (match unpinned with
      | [] => None
      | _ => Some (unpinned_finding policy command package_command unpinned)
      end).

Definition unexpected_hosts (policy : ProfileSupplyChainPolicy) (package_command : _PackageCommand)
  : list string :=
  List.filter (fun host => negb (mem host (rp_allowed_hosts (unexpected_registry_hosts policy))))
    (pk_registry_hosts package_command).

Definition registry_finding (policy : ProfileSupplyChainPolicy) (command : string)
    (package_command : _PackageCommand) (unexpected : list string) : SupplyChainFinding :=
  let mode := guardrail_value (rp_mode (unexpected_registry_hosts policy)) in
  {| sf_reason_code := SUPPLY_CHAIN_UNEXPECTED_REGISTRY_HOST; sf_severity := _severity mode;
     sf_subject_path := None;
     sf_explanation := "Package installation command references unexpected registry host(s): "
                       +:+ join ", " unexpected +:+ ".";
     sf_details := JObj [
       ("guardrail", JStr "unexpected_registry_hosts");
       ("manager", JStr (pk_manager package_command));
       ("registry_hosts", strings unexpected);
       ("allowed_hosts", strings (rp_allowed_hosts (unexpected_registry_hosts policy)));
       ("command_excerpt", JStr (_redact_command_excerpt command));
       ("mode", JStr mode);
       ("recovery_guidance",
         JStr ("Use a declared registry host, add the intended host to the "
               +:+ "profile allowlist, or remove the registry override."))] |}.

Definition _unexpected_registry_finding (policy : ProfileSupplyChainPolicy) (command : string)
    (package_command : _PackageCommand) : option SupplyChainFinding :=
  match unexpected_hosts policy package_command with
  | [] => None
  | unexpected => Some (registry_finding policy command package_command unexpected)
  end.

Definition lockfile_finding (policy : ProfileSupplyChainPolicy) (owned_paths : list string)
    (path : string) : SupplyChainFinding :=
  let mode := guardrail_value (lockfile_changes_outside_owned_paths policy) in
  {| sf_reason_code := SUPPLY_CHAIN_LOCKFILE_OUTSIDE_OWNED_PATHS; sf_severity := _severity mode;
     sf_subject_path := Some path;
     sf_explanation := "Lockfile '" +:+ path +:+ "' changed outside declared owned_paths.";
     sf_details := JObj [
       ("guardrail", JStr "lockfile_changes_outside_owned_paths");
       ("owned_paths", strings owned_paths);
       ("mode", JStr mode);
       ("recovery_guidance",
         JStr ("Add the lockfile path to owned_paths for dependency work, "
               +:+ "or remove the lockfile change before retrying."))] |}.

(** ** Evaluation *)

Section Evaluate.
Context (policy : ProfileSupplyChainPolicy).

Definition package_findings (command : string) (package_command : _PackageCommand)
  : result string (list SupplyChainFinding) :=
  unpinned <-? _unpinned_dependency_install_finding policy command package_command ;;
  Ok (option_list unpinned
      ++ option_list (_unexpected_registry_finding policy command package_command)).

(** The segments of a command in order; [exported] are the exports so far. *)
Fixpoint segment_findings (command : string) (exported : list (string * string))
    (segments : list (list string)) : result string (list SupplyChainFinding) :=
  match segments with
  | [] => Ok []
  | package_tokens :: rest =>
      let exported := _remember_env_assignments exported (_export_env_assignments package_tokens) in
      package_command <-? _package_command (map snd exported) package_tokens ;;
      here <-? match package_command with
               | None => Ok []
               | Some package_command => package_findings command package_command
               end ;;
      later <-? segment_findings command exported rest ;;
      Ok (here ++ later)
  end.

Definition command_findings (command : string) : result string (list SupplyChainFinding) :=
  match _shell_tokens command with
  | [] => Ok []
  | tokens =>
      remote_script <-? _remote_script_execution policy command tokens ;;
      packages <-? segment_findings command []
                     (_command_token_segments tokens _SHELL_PACKAGE_BOUNDARIES) ;;
      Ok (option_list remote_script ++ packages)
  end.

Fixpoint commands_findings (commands : list string) : result string (list SupplyChainFinding) :=
  match commands with
  | [] => Ok []
  | command :: rest =>
      here <-? command_findings command ;;
      later <-? commands_findings rest ;;
      Ok (here ++ later)
  end.

Definition lockfile_findings (changed_paths owned_paths : list string) : list SupplyChainFinding :=
  flat_map (fun path =>
    if negb (_is_lockfile_path path) then []
    else if matches_any path owned_paths then []
    else [lockfile_finding policy owned_paths path]) (normalized_unique_paths changed_paths).

(** [Err] is the message of the ValueError that ends the evaluation. *)
Definition evaluate_supply_chain_policy (command_evidence changed_paths owned_paths : list string)
  : result string (list SupplyChainFinding) :=
  findings <-? commands_findings (_command_lines command_evidence) ;;
  Ok (findings ++ lockfile_findings changed_paths owned_paths).
End Evaluate.

(** ** Refresh *)

(** An attempt with its identifiers. *)
Record SupplyAttempt : Type := {
  at_id : string;
  at_task_id : string;
  at_attempt : MergeAttempt
}.

Inductive SupplyRefreshError : Type :=
| SupplyChainPolicyRefreshError (missing : string)
| SupplyValueError (message : string)
| SupplyDbError (e : DbError).

(** What a refresh leaves: the findings table, the candidate, the events it appends. *)
Record SupplyRefresh : Type := {
  rf_findings : list SupplyChainFinding;
  rf_newly_added : list PolicyFinding;
  rf_newly_resolved : list PolicyFinding;
  rf_policy_blocked : bool;
  rf_table : list PolicyFinding;
  rf_candidate : option MergeCandidate;
  rf_events : list (string * option string)
}.

Definition POLICY_FINDING_EVENT_TYPE : string := "workspace.policy_finding".

Definition supply_create (f : SupplyChainFinding) : PolicyFindingCreate :=
  {| pc_reason_code := sf_reason_code f; pc_severity := severity_text (sf_severity f);
     pc_subject_path := sf_subject_path f; pc_explanation := sf_explanation f;
     pc_details := sf_details f |}.

Definition supply_subject (w : MergeWorkspace) (c : option MergeCandidate)
    (a : option SupplyAttempt) (reason_code : string) : PolicySubject :=
  {| ps_workspace_id := mw_id w; ps_candidate_id := mc_id <$> c; ps_attempt_id := at_id <$> a;
     ps_task_id := at_task_id <$> a; ps_reason_code := reason_code |}.

Definition of_reason (reason_code : string) (findings : list SupplyChainFinding)
  : list SupplyChainFinding :=
  List.filter (fun f => eqb (sf_reason_code f) reason_code) findings.

(** One reason code after the other; [new_id] numbers the rows of each. *)
Fixpoint replace_by_reason (subject : string -> PolicySubject) (new_id : string -> nat -> string)
    (now : Z) (findings : list SupplyChainFinding) (reasons : list string)
    (table : list PolicyFinding) : list PolicyFinding * list PolicyFinding * list PolicyFinding :=
  match reasons with
  | [] => (table, [], [])
  | reason_code :: rest =>
      let '(table1, added, resolved) :=
        replace_active_findings (subject reason_code) (new_id reason_code) now table
          (map supply_create (of_reason reason_code findings)) in
      let '(table2, added', resolved') :=
        replace_by_reason subject new_id now findings rest table1 in
      (table2, added ++ added', resolved ++ resolved')
  end.

Definition is_blocking (f : SupplyChainFinding) : bool :=
  match sf_severity f with severity_blocking => true | severity_warning => false end.

Definition _emit_events (added : list PolicyFinding) : list (string * option string) :=
  map (fun row => (POLICY_FINDING_EVENT_TYPE, Some (pf_reason_code row))) added.

Definition refresh_owned_paths (w : MergeWorkspace) (a : option SupplyAttempt) : list string :=
  match mw_owned_paths w with
  | [] => match a with Some a => ma_owned_paths (at_attempt a) | None => [] end
  | paths => paths
  end.

(** The candidate, when there is one, comes with its attempt. *)
Definition _refresh (w : MergeWorkspace) (candidate : option (MergeCandidate * MergeAttempt))
    (a : option SupplyAttempt) (new_id : string -> nat -> string) (now : Z)
    (table : list PolicyFinding) (command_evidence changed_paths : list string)
  : result SupplyRefreshError SupplyRefresh :=
  let c := fst <$> candidate in
  let policy := supply_chain_policy_for_workspace (mw_resolved_profile w) in
  match evaluate_supply_chain_policy policy command_evidence
          (normalized_unique_paths changed_paths) (refresh_owned_paths w a) with
  | Err message => Err (SupplyValueError message)
  | Ok findings =>
      let '(table', added, resolved) :=
        replace_by_reason (supply_subject w c a) new_id now findings
          SUPPLY_CHAIN_REASON_CODES table in
      let done blocked c :=
        {| rf_findings := findings; rf_newly_added := added; rf_newly_resolved := resolved;
           rf_policy_blocked := blocked; rf_table := table'; rf_candidate := c;
           rf_events := _emit_events added |} in
      match candidate with
      | None => Ok (done (existsb is_blocking findings) None)
      | Some (c, attempt) =>
          let policy_blocked := has_blocking_policy_finding (active_policy c table') in
          match sync_candidate_readiness (with_policy_blocked c policy_blocked) w attempt true with
          | Err e => Err (SupplyDbError e)
          | Ok c' => Ok (done policy_blocked (Some c'))
          end
      end
  end.

Section Service.
Context (new_id : string -> nat -> string) (now : Z) (table : list PolicyFinding).
Context (command_evidence changed_paths : list string).

Definition refresh_workspace (workspace_id : string) (w : option MergeWorkspace)
    (a : option SupplyAttempt) : result SupplyRefreshError SupplyRefresh :=
  match w with
  | None => Err (SupplyChainPolicyRefreshError workspace_id)
  | Some w => _refresh w None a new_id now table command_evidence changed_paths
  end.

(** The row has the candidate, its workspace and its attempt. *)
Definition refresh_candidate (candidate_id : string)
    (row : option (MergeCandidate * MergeWorkspace * SupplyAttempt))
  : result SupplyRefreshError SupplyRefresh :=
  match row with
  | None => Err (SupplyChainPolicyRefreshError candidate_id)
  | Some (c, w, a) =>
      _refresh w (Some (c, at_attempt a)) (Some a) new_id now table command_evidence changed_paths
  end.

Definition refresh_workspace_open_candidate (workspace_id : string)
    (row : option (MergeCandidate * MergeWorkspace * SupplyAttempt))
    (w : option MergeWorkspace) (a : option SupplyAttempt)
  : result SupplyRefreshError SupplyRefresh :=
  match row with
  | None => refresh_workspace workspace_id w a
  | Some _ => refresh_candidate workspace_id row
  end.
End Service.
