(* ===== verification/SupplyFacts.v ===== *)
(** * What the supply-chain policy reports

    The findings of an evaluation are exactly the installs without a pin, the registries
    outside the allowlist, the remote scripts and the foreign lockfiles; what a shell is
    handed is evaluated like the command itself; wrappers hide nothing; and the evaluation
    fails on a URL that [urlsplit] rejects, and only then. *)

From stdpp Require Import relations.
From S2P Require Import Prelude Status PyStr PyPath Json PyVal PyNet Store Readiness OwnedPaths.
From S2P Require Import ScopePolicy SupplyChain Findings MergeQueue MergeGate.
From S2P Require Import SupplyPolicy.
#[local] Open Scope Z_scope.

(** ** Binding *)

Lemma rbind_ok {E A B : Type} (r : result E A) (k : A -> result E B) (b : B) :
  rbind r k = Ok b <-> exists a, r = Ok a /\ k a = Ok b.
Proof. destruct r; simpl; naive_solver. Qed.

Lemma elem_of_option_list {A : Type} (o : option A) (x : A) : x ∈ option_list o <-> o = Some x.
Proof. destruct o; simpl; rewrite ?list_elem_of_singleton, ?elem_of_nil; naive_solver. Qed.

(** ** Exactness *)

Section Exact.
Context (policy : ProfileSupplyChainPolicy).

(** The exports in force when a segment runs: those before it and its own. *)
Definition exports_of (exported : list (string * string)) (segments : list (list string))
  : list (string * string) :=
  foldl (fun e seg => _remember_env_assignments e (_export_env_assignments seg)) exported segments.

(** A segment of the command is the package command [pk]. *)
Definition installs (command : string) (pk : _PackageCommand) : Prop :=
  exists before seg after,
    _command_token_segments (_shell_tokens command) _SHELL_PACKAGE_BOUNDARIES
      = before ++ seg :: after /\
    _package_command (map snd (exports_of [] (before ++ [seg]))) seg = Ok (Some pk).

(** A cause of a finding in a command of the evidence or in a changed path. *)
Inductive reported (commands changed owned : list string) : SupplyChainFinding -> Prop :=
| reported_remote (command : string) :
    command ∈ commands -> remote_script_detected (_shell_tokens command) = Ok true ->
    reported commands changed owned (remote_script_finding policy command)
| reported_unpinned (command : string) (pk : _PackageCommand) (spec : string) (unpinned : list string) :
    command ∈ commands -> installs command pk -> spec ∈ pk_package_specs pk ->
    _is_pinned_or_local_spec (pk_manager pk) spec = Ok false ->
    unpinned_specs (pk_manager pk) (pk_package_specs pk) = Ok unpinned ->
    reported commands changed owned (unpinned_finding policy command pk unpinned)
| reported_registry (command : string) (pk : _PackageCommand) (host : string) :
    command ∈ commands -> installs command pk -> host ∈ pk_registry_hosts pk ->
    host ∉ rp_allowed_hosts (unexpected_registry_hosts policy) ->
    reported commands changed owned
      (registry_finding policy command pk (unexpected_hosts policy pk))
| reported_lockfile (raw : string) :
    raw ∈ changed -> normalize_path raw <> "" -> _is_lockfile_path (normalize_path raw) = true ->
    (forall pattern, pattern ∈ owned -> owned_paths_overlap pattern (normalize_path raw) = false) ->
    reported commands changed owned (lockfile_finding policy owned (normalize_path raw)).

Lemma elem_unpinned_specs (manager spec : string) (specs unpinned : list string) :
  unpinned_specs manager specs = Ok unpinned ->
  spec ∈ unpinned <-> spec ∈ specs /\ _is_pinned_or_local_spec manager spec = Ok false.
Proof.
  revert unpinned. induction specs as [|s specs IH]; intros unpinned; cbn [unpinned_specs].
  - intros [= <-]. rewrite elem_of_nil. tauto.
  - rewrite rbind_ok. intros (pinned & Hs & H). apply rbind_ok in H as (later & Hl & [= <-]).
    specialize (IH _ Hl). destruct pinned; rewrite !elem_of_cons, ?IH; split;
      intuition (subst; congruence).
Qed.

Lemma elem_unexpected (pk : _PackageCommand) (host : string) :
  host ∈ unexpected_hosts policy pk <->
  host ∈ pk_registry_hosts pk /\ host ∉ rp_allowed_hosts (unexpected_registry_hosts policy).
Proof. unfold unexpected_hosts. rewrite elem_of_bfilter, negb_true_iff, mem_false. tauto. Qed.

Lemma nonempty_elem {A : Type} (l : list A) : l <> [] <-> exists x, x ∈ l.
Proof.
  destruct l as [|x l]; split; [done| |eauto using list_elem_of_here|done].
  intros [x Hx]. by apply elem_of_nil in Hx.
Qed.

(** The findings about one package command. *)
Lemma elem_package_findings (command : string) (pk : _PackageCommand) l (f : SupplyChainFinding) :
  package_findings policy command pk = Ok l ->
  f ∈ l <->
  (exists unpinned spec, unpinned_specs (pk_manager pk) (pk_package_specs pk) = Ok unpinned /\
     spec ∈ unpinned /\ f = unpinned_finding policy command pk unpinned) \/
  (exists host, host ∈ unexpected_hosts policy pk /\
     f = registry_finding policy command pk (unexpected_hosts policy pk)).
Proof.
  unfold package_findings, _unpinned_dependency_install_finding. rewrite !rbind_ok.
  intros (o & Ho & [= <-]). apply rbind_ok in Ho as (unpinned & Hu & [= <-]).
  rewrite elem_of_app, !elem_of_option_list. f_equiv.
  - destruct unpinned as [|s u]; split.
    + done.
    + intros (u & spec & Hu' & Hspec & ->). rewrite Hu in Hu'. injection Hu' as <-.
      by apply elem_of_nil in Hspec.
    + intros [= <-]. exists (s :: u), s. eauto using list_elem_of_here.
    + intros (u' & spec & Hu' & Hspec & ->). rewrite Hu in Hu'. by injection Hu' as <-.
  - unfold _unexpected_registry_finding. destruct (unexpected_hosts policy pk) as [|h hs]; split.
    + done.
    + intros (host & Hh & _). by apply elem_of_nil in Hh.
    + intros [= <-]. eauto using list_elem_of_here.
    + by intros (host & _ & ->).
Qed.

Lemma elem_segment_findings (command : string) exported segments l (f : SupplyChainFinding) :
  segment_findings policy command exported segments = Ok l ->
  f ∈ l <->
  exists before seg after pk l', segments = before ++ seg :: after /\
    _package_command (map snd (exports_of exported (before ++ [seg]))) seg = Ok (Some pk) /\
    package_findings policy command pk = Ok l' /\ f ∈ l'.
Proof.
  revert exported l. induction segments as [|seg segments IH]; intros exported l;
    cbn [segment_findings].
  - intros [= <-]. rewrite elem_of_nil. split; [done|]. intros ([|] & ? & ? & ? & ? & ? & _); done.
  - rewrite rbind_ok. intros (o & Ho & H). apply rbind_ok in H as (here & Hh & H).
    apply rbind_ok in H as (later & Hl & [= <-]). specialize (IH _ _ Hl). rewrite elem_of_app, IH.
    split.
    + intros [Hf|(before & s & after & pk & l' & -> & Hp & Hf)].
      * destruct o as [pk|]; [|injection Hh as <-; by apply elem_of_nil in Hf].
        exists [], seg, segments, pk, here. done.
      * exists (seg :: before), s, after, pk, l'. done.
    + intros ([|s0 before] & s & after & pk & l' & [= -> ->] & Hp & Hl' & Hf).
      * left. cbn in Hp. rewrite Ho in Hp. injection Hp as ->. rewrite Hh in Hl'. by injection Hl' as ->.
      * right. eauto 10.
Qed.

Lemma remote_script_nil : remote_script_detected [] = Ok false.
Proof. reflexivity. Qed.

Lemma elem_command_findings (command : string) l (f : SupplyChainFinding) :
  command_findings policy command = Ok l ->
  f ∈ l <->
  (remote_script_detected (_shell_tokens command) = Ok true /\
   f = remote_script_finding policy command) \/
  (exists pk l', installs command pk /\ package_findings policy command pk = Ok l' /\ f ∈ l').
Proof.
  unfold command_findings, installs. destruct (_shell_tokens command) as [|t tokens].
  - intros [= <-]. rewrite elem_of_nil, remote_script_nil. split; [done|].
    by intros [[? _]|(pk & l' & ([|] & ? & ? & ? & _) & _)].
  - rewrite rbind_ok. intros (o & Ho & H). apply rbind_ok in H as (packages & Hp & [= <-]).
    unfold _remote_script_execution in Ho. apply rbind_ok in Ho as (detected & Hd & [= <-]).
    rewrite elem_of_app, elem_of_option_list, (elem_segment_findings _ _ _ _ _ Hp), Hd. f_equiv.
    + destruct detected; split; [by intros [= <-]|by intros [_ ->]|done|by intros [[=] _]].
    + split.
      * intros (before & seg & after & pk & l' & Hs & Hc & Hl & Hf). exists pk, l'. eauto 8.
      * intros (pk & l' & (before & seg & after & Hs & Hc) & Hl & Hf). eauto 12.
Qed.

Lemma elem_commands_findings (commands : list string) l (f : SupplyChainFinding) :
  commands_findings policy commands = Ok l ->
  f ∈ l <-> exists command l', command ∈ commands /\ command_findings policy command = Ok l' /\ f ∈ l'.
Proof.
  revert l. induction commands as [|c commands IH]; intros l; cbn [commands_findings].
  - intros [= <-]. setoid_rewrite elem_of_nil. split; [done|by intros (? & ? & [] & _)].
  - rewrite rbind_ok. intros (here & Hh & H). apply rbind_ok in H as (later & Hl & [= <-]).
    rewrite elem_of_app, (IH _ Hl). setoid_rewrite elem_of_cons. split.
    + intros [Hf|(command & l' & Hc & Hl' & Hf)]; eauto 8.
    + intros (command & l' & [->|Hc] & Hl' & Hf); [|eauto 8].
      left. rewrite Hh in Hl'. by injection Hl' as ->.
Qed.

Lemma command_ok (commands : list string) l (command : string) :
  commands_findings policy commands = Ok l -> command ∈ commands ->
  exists l', command_findings policy command = Ok l'.
Proof.
  revert l. induction commands as [|c cs IH]; intros l Hl Hc; [by apply elem_of_nil in Hc|].
  cbn [commands_findings] in Hl. apply rbind_ok in Hl as (here & Hh & Hl).
  apply rbind_ok in Hl as (later & Hl & _). apply elem_of_cons in Hc as [->|Hc]; eauto.
Qed.

Lemma segment_ok (command : string) exported before seg after l (pk : _PackageCommand) :
  segment_findings policy command exported (before ++ seg :: after) = Ok l ->
  _package_command (map snd (exports_of exported (before ++ [seg]))) seg = Ok (Some pk) ->
  exists l', package_findings policy command pk = Ok l'.
Proof.
  revert exported l. induction before as [|s before IH]; intros exported l; cbn [app segment_findings];
    rewrite rbind_ok; intros (o & Ho & H) Hp; apply rbind_ok in H as (here & Hh & H).
  - cbn in Hp. rewrite Ho in Hp. injection Hp as ->. eauto.
  - apply rbind_ok in H as (later & Hl & _). eauto.
Qed.

Lemma install_ok (command : string) l (pk : _PackageCommand) :
  command_findings policy command = Ok l -> installs command pk ->
  exists l', package_findings policy command pk = Ok l'.
Proof.
  unfold command_findings, installs. destruct (_shell_tokens command) as [|t tokens];
    [by intros _ ([|] & ? & ? & ? & _)|].
  rewrite rbind_ok. intros (o & _ & H) (before & seg & after & Hs & Hp).
  apply rbind_ok in H as (packages & H & _). rewrite Hs in H. by eapply segment_ok.
Qed.

(** What the findings of an install have is in those of an evaluation that ended. *)
Lemma install_reported (commands : list string) l tail (command : string) (pk : _PackageCommand) f :
  commands_findings policy commands = Ok l -> command ∈ commands -> installs command pk ->
  (forall l', package_findings policy command pk = Ok l' -> f ∈ l') ->
  (exists command l', command ∈ commands /\ command_findings policy command = Ok l' /\ f ∈ l') \/ tail.
Proof.
  intros Hl Hc Hi Hf. left. destruct (command_ok _ _ _ Hl Hc) as [l' Hl'].
  destruct (install_ok _ _ _ Hl' Hi) as [l2 Hl2]. exists command, l'. split_and!; [done..|].
  apply (elem_command_findings _ _ _ Hl'). right. exists pk, l2. eauto.
Qed.

Lemma elem_lockfile_findings (changed owned : list string) (f : SupplyChainFinding) :
  f ∈ lockfile_findings policy changed owned <->
  exists raw, raw ∈ changed /\ normalize_path raw <> "" /\
    _is_lockfile_path (normalize_path raw) = true /\
    (forall pattern, pattern ∈ owned -> owned_paths_overlap pattern (normalize_path raw) = false) /\
    f = lockfile_finding policy owned (normalize_path raw).
Proof.
  unfold lockfile_findings. rewrite list_elem_of_In, in_flat_map. setoid_rewrite <- list_elem_of_In.
  setoid_rewrite elem_normalized. split.
  - intros (p & (Hp & raw & Hraw & <-) & Hf). exists raw.
    destruct (_is_lockfile_path _) eqn:El; cbn in Hf; [|by apply elem_of_nil in Hf].
    destruct (matches_any _ owned) eqn:Em; [by apply elem_of_nil in Hf|].
    apply list_elem_of_singleton in Hf. split_and!; try done. intros pattern Hpat.
    apply not_true_iff_false. intros Ho. apply not_true_iff_false in Em. apply Em, matches_any_spec.
    eauto.
  - intros (raw & Hraw & Hp & El & Ho & ->). exists (normalize_path raw). split; [eauto|].
    rewrite El. cbn. destruct (matches_any _ owned) eqn:Em; [|by apply list_elem_of_singleton].
    apply matches_any_spec in Em as (p & Hpin & Hov). by rewrite (Ho p Hpin) in Hov.
Qed.

Lemma reported_package (commands changed owned : list string) (command : string)
    (pk : _PackageCommand) l (f : SupplyChainFinding) :
  command ∈ commands -> installs command pk -> package_findings policy command pk = Ok l -> f ∈ l ->
  reported commands changed owned f.
Proof.
  intros Hc Hi Hl Hf. apply (elem_package_findings _ _ _ _ Hl) in Hf
    as [(unpinned & spec & Hu & Hspec & ->)|(host & Hh & ->)].
  - apply (elem_unpinned_specs _ _ _ _ Hu) in Hspec as [??]. by eapply reported_unpinned.
  - apply elem_unexpected in Hh as [??]. by eapply reported_registry.
Qed.

End Exact.

Lemma elem_evaluation (policy : ProfileSupplyChainPolicy)
    (evidence changed owned : list string) (findings : list SupplyChainFinding) :
  evaluate_supply_chain_policy policy evidence changed owned = Ok findings ->
  forall f, f ∈ findings <-> reported policy (_command_lines evidence) changed owned f.
Proof.
  unfold evaluate_supply_chain_policy. rewrite rbind_ok. intros (l & Hl & [= <-]) f.
  rewrite elem_of_app, (elem_commands_findings _ _ _ _ Hl), elem_lockfile_findings. split.
  - intros [(command & l' & Hc & Hl' & Hf)|(raw & ? & ? & ? & ? & ->)]; [|by apply reported_lockfile].
    apply (elem_command_findings _ _ _ _ Hl') in Hf as [[? ->]|(pk & l2 & Hi & Hl2 & Hf)];
      [by apply reported_remote|by eapply reported_package].
  - intros [command Hc Hr|command pk spec unpinned Hc Hi Hs Hp Hu|command pk host Hc Hi Hh Ha|raw];
      [| | |by right; eauto 10].
    + left. destruct (command_ok _ _ _ _ Hl Hc) as [l' Hl']. exists command, l'. split_and!; [done..|].
      apply (elem_command_findings _ _ _ _ Hl'). by left.
    + eapply install_reported; [done..|]. intros l2 Hl2. apply (elem_package_findings _ _ _ _ _ Hl2).
      left. exists unpinned, spec. split_and!; [done| |done]. by apply (elem_unpinned_specs _ _ _ _ Hu).
    + eapply install_reported; [done..|]. intros l2 Hl2. apply (elem_package_findings _ _ _ _ _ Hl2).
      right. exists host. split; [|done]. by apply elem_unexpected.
Qed.

Lemma evaluation_reported policy evidence changed owned findings f :
  evaluate_supply_chain_policy policy evidence changed owned = Ok findings -> f ∈ findings ->
  reported policy (_command_lines evidence) changed owned f.
Proof. intros H. by apply elem_evaluation. Qed.

(** ** Properties *)



(** ** Failures *)

(** A call fails with the message of a URL that [urlsplit] rejects. *)
Definition fails_by_url {A : Type} (r : result string A) : Prop :=
  forall message, r = Err message -> exists url, urlsplit url = inl message.

Lemma by_url_ok {A : Type} (a : A) : fails_by_url (Ok a).
Proof. by intros message [=]. Qed.

Lemma by_url_bind {A B : Type} (r : result string A) (k : A -> result string B) :
  fails_by_url r -> (forall a, fails_by_url (k a)) -> fails_by_url (rbind r k).
Proof. intros Hr Hk message. destruct r as [a|e]; cbn; [apply Hk|]. intros [= ->]. by apply Hr. Qed.

Lemma by_url_split (url : string) : fails_by_url (split_url url).
Proof. unfold split_url. intros message. destruct (urlsplit url) eqn:E; [intros [= <-]; eauto|done]. Qed.

Create HintDb by_url discriminated.
#[local] Hint Resolve by_url_ok by_url_bind by_url_split : by_url.

(** Close a goal [fails_by_url] by its binds and branches. *)
Ltac by_url :=
  repeat first
    [ progress auto with by_url
    | apply by_url_bind; [|intros ?]
    | case_goal ].

Lemma by_url_pinned (manager spec : string) : fails_by_url (_is_pinned_or_local_spec manager spec).
Proof.
  unfold _is_pinned_or_local_spec, _is_pinned_pip_spec, _is_pinned_pip_vcs_spec. cbv zeta. by_url.
Qed.
#[local] Hint Resolve by_url_pinned : by_url.

Lemma by_url_unpinned (manager : string) (specs : list string) :
  fails_by_url (unpinned_specs manager specs).
Proof. induction specs; cbn [unpinned_specs]; by_url. Qed.

Lemma by_url_hosts (hosts values : list string) : fails_by_url (add_hosts hosts values).
Proof.
  revert hosts. induction values; intros hosts; cbn [add_hosts]; by_url.
Qed.

Lemma by_url_names (tokens : list string) : fails_by_url (url_names tokens).
Proof. induction tokens; cbn [url_names]; by_url. Qed.
#[local] Hint Resolve by_url_unpinned by_url_hosts by_url_names : by_url.

Lemma by_url_registry (manager : string) (env args : list string) :
  fails_by_url (_registry_hosts manager env args).
Proof. unfold _registry_hosts, _pip_env_registry_hosts, _node_env_registry_hosts. cbv zeta. by_url. Qed.
#[local] Hint Resolve by_url_registry : by_url.

Lemma by_url_package (env tokens : list string) : fails_by_url (_package_command env tokens).
Proof. unfold _package_command, _pip_command, _node_package_command. cbv zeta. by_url. Qed.

Lemma by_url_chained (segments : list (list string)) : fails_by_url (chained_execution segments).
Proof.
  induction segments as [|s [|s' segments] IH]; cbn [chained_execution]; by_url.
  unfold _remote_fetch_artifact_names. by_url.
Qed.
#[local] Hint Resolve by_url_package by_url_chained : by_url.

Lemma by_url_segments policy (command : string) exported segments :
  fails_by_url (segment_findings policy command exported segments).
Proof.
  revert exported. induction segments; intros exported; cbn [segment_findings]; cbv zeta; by_url.
Qed.
#[local] Hint Resolve by_url_segments : by_url.

Lemma by_url_commands policy (commands : list string) :
  fails_by_url (commands_findings policy commands).
Proof.
  induction commands; cbn [commands_findings]; by_url; unfold command_findings; by_url;
    unfold remote_script_detected, _has_chained_remote_script_execution; by_url.
Qed.

(** The only way an evaluation fails is a text that [urlsplit] rejects as a URL;
    without commands in the evidence it does not fail. *)
Theorem evaluation_fails_by_url (policy : ProfileSupplyChainPolicy)
    (evidence changed owned : list string) :
  match evaluate_supply_chain_policy policy evidence changed owned with
  | Ok _ => True
  | Err message => (exists url, urlsplit url = inl message) /\ _command_lines evidence <> []
  end.
Proof.
  unfold evaluate_supply_chain_policy. pose proof (by_url_commands policy (_command_lines evidence)) as H.
  destruct (commands_findings _ _) as [l|message] eqn:E; [done|]. split; [by apply H|].
  intros Hn. by rewrite Hn in E.
Qed.

(** ** A URL that aborts the evaluation *)

Lemma failing_command policy (commands : list string) (command message : string) :
  command ∈ commands -> command_findings policy command = Err message ->
  exists message', commands_findings policy commands = Err message'.
Proof.
  intros Hc He. induction commands as [|c cs IH]; [by apply elem_of_nil in Hc|].
  cbn [commands_findings]. apply elem_of_cons in Hc as [<-|Hc]; [rewrite He; cbn; eauto|].
  destruct (command_findings policy c) as [here|m]; cbn; [|eauto].
  destruct (IH Hc) as [m ->]. cbn. eauto.
Qed.

Lemma command_lines_app (a b : list string) :
  _command_lines (a ++ b) = _command_lines a ++ _command_lines b.
Proof. unfold _command_lines. by rewrite !flat_map_app. Qed.

(** C38: One malformed URL switches the whole policy off: with the line
    [pip install --index-url http://[mirror flask] anywhere in the evidence the evaluation
    raises, whatever the other commands and changed files are, and so does the refresh of
    the workspace: no finding is stored and no finding blocks. *)
Theorem malformed_url_hides_findings (policy : ProfileSupplyChainPolicy)
    (before after changed owned : list string) (w : MergeWorkspace) candidate a new_id now table :
  let evidence := before ++ ["$ pip install --index-url http://[mirror flask"] ++ after in
  (exists message, evaluate_supply_chain_policy policy evidence changed owned = Err message) /\
  (exists message, _refresh w candidate a new_id now table evidence changed
                   = Err (SupplyValueError message)).
Proof.
  intros evidence.
  assert (H : forall policy, exists message,
             commands_findings policy (_command_lines evidence) = Err message).
  { intros p. apply failing_command with (command := "pip install --index-url http://[mirror flask")
      (message := "Invalid IPv6 URL"); [|vm_compute; reflexivity].
    unfold evidence. rewrite !command_lines_app, !elem_of_app. right. left.
    replace (_command_lines ["$ pip install --index-url http://[mirror flask"])
      with ["pip install --index-url http://[mirror flask"] by (vm_compute; reflexivity).
    by left. }
  unfold _refresh, evaluate_supply_chain_policy. split.
  - destruct (H policy) as [m ->]. cbn. eauto.
  - destruct (H (supply_chain_policy_for_workspace (mw_resolved_profile w))) as [m ->]. cbn. eauto.
Qed.

(** ** Where a download goes *)

(** The file of [curl -o<file>] is misread when its name has an [o]: the target is
    what follows the last one, so that the script is not recognised when it is run. *)
Theorem attached_output_misread (before after : string) (next : option string) :
  after <> "" -> has_char (char 111) after = false ->
  curl_output_target ("-o" +:+ before +:+ "o" +:+ after) next = Some after.
Proof.
  intros Hne Ho. unfold curl_output_target.
  replace (mem ("-o" +:+ before +:+ "o" +:+ after) ["-o"; "--output"]) with false.
  - cbn [andb starts_with String.append Ascii.eqb Bool.eqb negb drop_str].
    change (String "o" (before +:+ String "o" after)) with (String "o" before +:+ String "o" after).
    change "o"%char with (char 111) at 2. rewrite rpartition_last by done.
    by rewrite (proj2 (eqb_false after "") Hne).
  - symmetry. apply mem_false. intros Hm. apply elem_of_cons in Hm as [Hm|Hm].
    + apply (f_equal str_len) in Hm. rewrite !str_len_app in Hm. cbn in Hm. lia.
    + apply list_elem_of_singleton in Hm. discriminate Hm.
Qed.

Lemma attached_output_misread_witness :
  curl_output_target "-ofoo.sh" None = Some ".sh" /\
  let verdict command := length <$> match evaluate_supply_chain_policy default_supply_chain_policy
                                            [command] [] [] with Ok l => Some l | Err _ => None end in
  verdict "$ curl -o foo.sh https://get.example/ && sh foo.sh" = Some 1%nat /\
  verdict "$ curl -ofoo.sh https://get.example/ && sh foo.sh" = Some 0%nat.
Proof.
  split; [|split; vm_compute; reflexivity].
  refine (attached_output_misread "fo" ".sh" None _ _); [discriminate|vm_compute; reflexivity].
Defined.

(** ** Wrappers *)

Lemma skip_suffix value_flags assignments env tokens :
  exists skipped added, tokens = skipped ++ (_skip_wrapper_options value_flags assignments env tokens).1 /\
    (_skip_wrapper_options value_flags assignments env tokens).2 = env ++ added /\
    added `sublist_of` skipped /\ Forall (fun a => _is_shell_assignment a = true) added.
Proof.
  revert env. induction tokens as [tokens IH] using (well_founded_induction (well_founded_ltof _ (@length string))).
  intros env. assert (Hstep : forall (x : list string) rest env',
    tokens = x ++ rest -> (0 < length x)%nat ->
    exists skipped added, tokens = skipped ++ (_skip_wrapper_options value_flags assignments env' rest).1 /\
      (_skip_wrapper_options value_flags assignments env' rest).2 = env' ++ added /\
      added `sublist_of` skipped /\ Forall (fun a => _is_shell_assignment a = true) added).
  { intros x rest env' -> Hx. destruct (IH rest) with (env := env') as (sk & ad & E & Ha & Hs & Hf).
    { unfold ltof. rewrite length_app. lia. }
    exists (x ++ sk), ad. split_and!; [rewrite <- app_assoc; by f_equal|done| |done].
    by apply sublist_inserts_l. }
  destruct tokens as [|token rest]; cbn [_skip_wrapper_options].
  { exists [], []. split_and!; [done|by rewrite app_nil_r|apply sublist_nil_l|by constructor]. }
  destruct (assignments && _is_shell_assignment token) eqn:Ea.
  { apply andb_true_iff in Ea as [_ Ea].
    destruct (IH rest) with (env := env ++ [token]) as (sk & ad & E & Ha & Hs & Hf); [unfold ltof; simpl; lia|].
    exists (token :: sk), (token :: ad). rewrite Ha, <- app_assoc. split_and!; [by rewrite E at 1|done| |].
    - by constructor.
    - by constructor. }
  assert (Hone : exists sk ad, token :: rest = sk ++ (rest, env).1 /\ (rest, env).2 = env ++ ad /\
            ad `sublist_of` sk /\ Forall (fun a => _is_shell_assignment a = true) ad).
  { exists [token], []. split_and!; [done|by rewrite app_nil_r|apply sublist_nil_l|by constructor]. }
  destruct (eqb token "--"); [done|].
  destruct (mem token value_flags).
  { destruct rest as [|v rest]; [|apply (Hstep [token; v]); [done|simpl; lia]]. exact Hone. }
  destruct (has_flag_value value_flags token); [apply (Hstep [token]); [done|simpl; lia]|].
  destruct (starts_with "-" token); [apply (Hstep [token]); [done|simpl; lia]|].
  exists [], []. split_and!; [done|by rewrite app_nil_r|apply sublist_nil_l|by constructor].
Qed.

Lemma skip_length value_flags assignments env tokens :
  (length (_skip_wrapper_options value_flags assignments env tokens).1 <= length tokens)%nat.
Proof.
  destruct (skip_suffix value_flags assignments env tokens) as (sk & _ & E & _).
  rewrite E at 2. rewrite length_app. lia.
Qed.

(** Neither the fuel, once it counts the tokens, nor the assignments seen so far
    change the command that is found. *)
Lemma strip_fuel (f1 f2 : nat) env1 env2 tokens :
  (length tokens <= f1)%nat -> (length tokens <= f2)%nat ->
  (strip_prefixes f1 env1 tokens).1 = (strip_prefixes f2 env2 tokens).1.
Proof.
  revert f2 env1 env2 tokens. induction f1 as [|f1 IH]; intros [|f2] env1 env2 [|t tokens] H1 H2;
    simpl in H1, H2; [done|lia|done|lia|done|lia|done|].
  assert (Hskip : forall vf sa,
    (let '(rest', env) := _skip_wrapper_options vf sa [] tokens in
     strip_prefixes f1 (env1 ++ env) rest').1 =
    (let '(rest', env) := _skip_wrapper_options vf sa [] tokens in
     strip_prefixes f2 (env2 ++ env) rest').1).
  { intros vf sa. pose proof (skip_length vf sa [] tokens) as Hl.
    destruct (_skip_wrapper_options vf sa [] tokens) as [rest' env]. simpl in Hl. apply IH; lia. }
  cbn [strip_prefixes]. cbv zeta.
  destruct (_is_shell_assignment t); [apply IH; lia|].
  destruct (eqb (command_name t) "sudo"); [apply Hskip|].
  destruct (eqb (command_name t) "env"); [apply Hskip|].
  destruct (eqb (command_name t) "export"); [apply Hskip|].
  by destruct (eqb (command_name t) "command"); [apply Hskip|].
Qed.

(** The command without its wrappers. *)
Definition unwrapped (tokens : list string) : list string :=
  (_strip_package_command_prefixes tokens).1.

(** The options of a wrapper: those with a value, those without, and assignments. *)
Definition wrapper_options (name : string) : option (list string * bool) :=
  if eqb name "sudo" then Some (SUDO_VALUE_FLAGS, false)
  else if eqb name "env" then Some (ENV_VALUE_FLAGS, true)
  else if eqb name "export" then Some ([], true)
  else if eqb name "command" then Some ([], false)
  else None.

Lemma unwrap_assignment (a : string) tokens :
  _is_shell_assignment a = true -> unwrapped (a :: tokens) = unwrapped tokens.
Proof.
  intros Ha. unfold unwrapped, _strip_package_command_prefixes. cbn [length strip_prefixes]. cbv zeta.
  rewrite Ha. by apply strip_fuel.
Qed.

Lemma unwrap_wrapper (w : string) vf sa tokens :
  _is_shell_assignment w = false -> wrapper_options (command_name w) = Some (vf, sa) ->
  unwrapped (w :: tokens) = unwrapped (_skip_wrapper_options vf sa [] tokens).1.
Proof.
  intros Ha. unfold wrapper_options, unwrapped, _strip_package_command_prefixes.
  cbn [length strip_prefixes]. cbv zeta. rewrite Ha. intros H.
  pose proof (skip_length vf sa [] tokens) as Hl.
  destruct (eqb (command_name w) "sudo"); [|destruct (eqb (command_name w) "env");
    [|destruct (eqb (command_name w) "export"); [|destruct (eqb (command_name w) "command")]]];
    simplify_eq; destruct (_skip_wrapper_options _ _ [] tokens) as [rest' env]; simpl in Hl;
    apply strip_fuel; simpl; lia.
Qed.

Inductive option_words (value_flags : list string) (assignments : bool) : list string -> Prop :=
| words_none : option_words value_flags assignments []
| words_value (flag value : string) (l : list string) :
    flag ∈ value_flags -> _is_shell_assignment flag = false -> flag <> "--" ->
    option_words value_flags assignments l ->
    option_words value_flags assignments (flag :: value :: l)
| words_flag (flag : string) (l : list string) :
    flag ∉ value_flags -> starts_with "-" flag = true -> _is_shell_assignment flag = false ->
    flag <> "--" ->
    option_words value_flags assignments l -> option_words value_flags assignments (flag :: l)
| words_assignment (a : string) (l : list string) :
    assignments = true -> _is_shell_assignment a = true ->
    option_words value_flags assignments l -> option_words value_flags assignments (a :: l).

(** The first word of a command that is no option of a wrapper. *)
Definition plain_word (value_flags : list string) (assignments : bool) (word : string) : Prop :=
  starts_with "-" word = false /\ has_flag_value value_flags word = false /\ (word ∉ value_flags) /\
  assignments && _is_shell_assignment word = false.

Lemma skip_words vf sa env opts (word : string) tokens :
  option_words vf sa opts -> plain_word vf sa word ->
  (_skip_wrapper_options vf sa env (opts ++ word :: tokens)).1 = word :: tokens.
Proof.
  intros Ho (Hd & Hv & Hm & Ha). revert env.
  induction Ho as [|flag value l Hf Hn Hdd _ IH|flag l Hf Hs Hn Hdd _ IH|a l -> Hs _ IH]; intros env;
    cbn [app _skip_wrapper_options].
  - rewrite Ha, Hd, Hv, (proj2 (mem_false _ _) Hm).
    destruct (eqb word "--") eqn:E; [|done]. rewrite eqb_true in E. by subst word.
  - rewrite Hn, andb_false_r, (proj2 (eqb_false _ _) Hdd), (proj2 (mem_true _ _) Hf). apply IH.
  - rewrite Hn, andb_false_r, (proj2 (eqb_false _ _) Hdd), (proj2 (mem_false _ _) Hf), Hs.
    destruct (has_flag_value vf flag); apply IH.
  - rewrite Hs. apply IH.
Qed.

(** [wrapped tokens command]: the command behind any number of assignments and of
    [sudo], [env], [export] and [command] with their options. *)
Inductive wrapped : list string -> list string -> Prop :=
| wrapped_none (command : list string) : wrapped command command
| wrapped_assignment (a : string) (tokens command : list string) :
    _is_shell_assignment a = true -> wrapped tokens command -> wrapped (a :: tokens) command
| wrapped_by (w : string) vf sa opts (word : string) (tokens command : list string) :
    _is_shell_assignment w = false -> wrapper_options (command_name w) = Some (vf, sa) ->
    option_words vf sa opts -> plain_word vf sa word ->
    wrapped (word :: tokens) command -> wrapped (w :: opts ++ word :: tokens) command.

Lemma unwrapped_wrapped (tokens command : list string) :
  wrapped tokens command -> unwrapped tokens = unwrapped command.
Proof.
  induction 1 as [|a tokens command Ha _ IH|w vf sa opts word tokens command Hw Ho Hopts Hword _ IH];
    [done|by rewrite unwrap_assignment|].
  by rewrite (unwrap_wrapper w vf sa), skip_words.
Qed.

(** What an install is, apart from the registries it uses. *)
Definition same_install (x y : option _PackageCommand) : Prop :=
  (fun pk => (pk_manager pk, pk_operation pk, pk_package_specs pk)) <$> x =
  (fun pk => (pk_manager pk, pk_operation pk, pk_package_specs pk)) <$> y.

Lemma registry_specs (r r' : result string (list string)) (mk : list string -> _PackageCommand)
    (x y : option _PackageCommand) :
  (forall a b, same_install (Some (mk a)) (Some (mk b))) ->
  rbind r (fun l => Ok (Some (mk l))) = Ok x -> rbind r' (fun l => Ok (Some (mk l))) = Ok y ->
  same_install x y.
Proof. intros H. destruct r, r'; cbn; try done. intros [= <-] [= <-]. apply H. Qed.



(** ** Quoting *)

(** A word in single quotes, as a shell's user writes it: a single quote inside is closed
    over, given in double quotes and opened again. *)
Fixpoint quoted_body (w : string) : string :=
  match w with
  | "" => ""
  | String c w' =>
      (if Ascii.eqb c single_quote
       then String c (String quote (String c (String quote (String c ""))))
       else String c "") +:+ quoted_body w'
  end.
Definition quoted_word (w : string) : string :=
  String single_quote (quoted_body w +:+ String single_quote "").

Lemma lex_body punctuation (w token rest : string) (q : bool) :
  lex punctuation (Quoted single_quote) token q (quoted_body w +:+ String single_quote rest)
  = lex punctuation Word (token +:+ w) true rest.
Proof.
  revert token q. induction w as [|c w IH]; intros token q.
  - cbn [quoted_body]. change ("" +:+ String single_quote rest) with (String single_quote rest).
    cbn [lex]. rewrite Ascii.eqb_refl, str_app_nil_r. done.
  - cbn [quoted_body]. rewrite str_app_assoc.
    replace (token +:+ String c w) with ((token +:+ String c "") +:+ w) by by rewrite str_app_assoc.
    destruct (Ascii.eqb c single_quote) eqn:E.
    + apply Ascii.eqb_eq in E. subst c. rewrite <- (IH _ true). reflexivity.
    + rewrite <- (IH _ true). change (String c "" +:+ ?x) with (String c x). cbn [lex]. rewrite E.
      by rewrite andb_false_r.
Qed.

Lemma lex_quoted punctuation (w rest : string) :
  punctuation single_quote = false ->
  lex punctuation Between "" false (quoted_word w +:+ rest)
  = lex punctuation Word w true rest.
Proof.
  intros Hp. unfold quoted_word.
  change (String single_quote (quoted_body w +:+ String single_quote "") +:+ rest)
    with (String single_quote ((quoted_body w +:+ String single_quote "") +:+ rest)).
  rewrite str_app_assoc. cbn [lex].
  replace (begin punctuation single_quote) with (Quoted single_quote, "")
    by (unfold begin; rewrite Hp; reflexivity).
  exact (lex_body punctuation w "" rest false).
Qed.

Lemma lex_quoted_words punctuation (words : list string) :
  punctuation single_quote = false ->
  lex punctuation Between "" false (join " " (map quoted_word words)) = Some words.
Proof.
  intros Hp. induction words as [|w words IH]; [done|]. destruct words as [|v words].
  - cbn [map join]. rewrite <- (str_app_nil_r (quoted_word w)), lex_quoted by done.
    cbn [lex]. unfold emit. by rewrite andb_false_r.
  - change (join " " (map quoted_word (w :: v :: words)))
      with (quoted_word w +:+ String " " (join " " (map quoted_word (v :: words)))).
    rewrite lex_quoted by done.
    change (lex punctuation Word w true (String " " ?s)) with
      (emit w true (lex punctuation Between "" false s)).
    rewrite IH. unfold emit. by rewrite andb_false_r.
Qed.

(** What is quoted is read back: the tokens of a command whose words are written in
    single quotes are those words, blanks, control operators, quotes and backslashes in
    them included, and no word is lost, not even an empty one. *)
Theorem quoted_words_read_back (words : list string) :
  _shell_tokens (join " " (map quoted_word words)) = words.
Proof. unfold _shell_tokens, shlex. by rewrite lex_quoted_words. Qed.

(** ** What a shell is handed *)

Definition hands_to_shell (command nested : string) : Prop := nested ∈ nested_commands command.

Lemma elem_with_payloads (depth : nat) (command c : string) :
  c ∈ _command_with_shell_payloads depth command <->
  exists n, (n <= depth)%nat /\ nsteps hands_to_shell n command c.
Proof.
  revert command. induction depth as [|depth IH]; intros command; cbn [_command_with_shell_payloads].
  - rewrite list_elem_of_singleton. split.
    + intros ->. exists 0%nat. split; [lia|constructor].
    + intros (n & Hn & Hs). assert (n = 0)%nat as -> by lia. by inversion Hs.
  - rewrite elem_of_cons, list_elem_of_In, in_flat_map. setoid_rewrite <- list_elem_of_In.
    setoid_rewrite IH. split.
    + intros [->|(x & Hx & n & Hn & Hs)]; [exists 0%nat; split; [lia|constructor]|].
      exists (S n). split; [lia|]. by apply nsteps_l with x.
    + intros ([|n] & Hn & Hs); inversion Hs as [|? ? x ? Hx Hs']; subst; [by left|right].
      exists x. split; [exact Hx|]. exists n. split; [lia|done].
Qed.

Lemma elem_nested (command nested : string) :
  hands_to_shell command nested <->
  exists payload line, payload ∈ _shell_command_payloads (_shell_tokens command) /\
    line ∈ splitlines payload /\ strip line = nested /\ nested <> "".
Proof.
  unfold hands_to_shell, nested_commands. generalize (_shell_command_payloads (_shell_tokens command)).
  intros payloads. rewrite elem_of_bfilter, negb_true_iff, eqb_false.
  rewrite list_elem_of_fmap. setoid_rewrite list_elem_of_In. setoid_rewrite in_flat_map. split.
  - intros (Hn & line & -> & payload & Hp & Hl). by exists payload, line.
  - intros (payload & line & Hp & Hl & <- & Hn). split; [done|]. exists line. split; [done|].
    by exists payload.
Qed.

(** A shell's name is read as itself: no operator, assignment or wrapper. *)
Lemma shell_name (shell : string) :
  shell ∈ _SHELL_COMMAND_INTERPRETERS ->
  command_name shell = shell /\ mem shell _SHELL_PACKAGE_BOUNDARIES = false /\
  _is_shell_assignment shell = false /\ wrapper_options shell = None.
Proof.
  revert shell. apply Forall_forall. repeat apply Forall_cons_2; [..|apply Forall_nil_2];
    split_and!; vm_compute; reflexivity.
Qed.

Lemma strip_plain (token : string) (rest : list string) :
  _is_shell_assignment token = false -> wrapper_options (command_name token) = None ->
  _strip_package_command_prefixes (token :: rest) = (token :: rest, []).
Proof.
  unfold wrapper_options, _strip_package_command_prefixes. cbn [length strip_prefixes]. cbv zeta.
  intros ->. destruct (eqb _ "sudo"); [done|]. destruct (eqb _ "env"); [done|].
  destruct (eqb _ "export"); [done|]. by destruct (eqb _ "command").
Qed.

Lemma quoted_shell_payload (shell payload : string) :
  shell ∈ _SHELL_COMMAND_INTERPRETERS -> payload <> "" ->
  mem payload _SHELL_PACKAGE_BOUNDARIES = false ->
  _shell_command_payloads (_shell_tokens (join " " (map quoted_word [shell; "-c"; payload])))
  = [payload].
Proof.
  intros Hs Hp Hb. destruct (shell_name _ Hs) as (Hn & Hm & Ha & Hw).
  unfold _shell_tokens, shlex. rewrite lex_quoted_words by done. cbn [default].
  unfold _shell_command_payloads, _command_token_segments. cbn [from_option id segments_go].
  rewrite Hm, Hb. change (mem "-c" _SHELL_PACKAGE_BOUNDARIES) with false. cbn [app flat_map].
  rewrite strip_plain by (rewrite ?Hn; done). cbn [fst]. unfold _shell_command_payload.
  cbv zeta. rewrite Hn, (proj2 (mem_true _ _) Hs). cbn [shell_payload].
  rewrite eqb_refl. cbn [orb head app]. by rewrite (proj2 (eqb_false _ _) Hp).
Qed.

(** C37: What a shell is handed is evaluated as well.  The commands of the evidence are
    each command with whatever is reached from it by four hand-overs at most, one step
    being a line of the text given to [sh -c] and its like; and a quoted text that any of the
    shells is handed gives all its lines, whatever they have in them. *)
Theorem handed_commands_evaluated (command nested : string) :
  (nested ∈ _command_with_shell_payloads _SHELL_COMMAND_PAYLOAD_MAX_DEPTH command <->
   exists n, (n <= 4)%nat /\ nsteps hands_to_shell n command nested) /\
  (forall shell payload line,
     shell ∈ _SHELL_COMMAND_INTERPRETERS -> mem payload _SHELL_PACKAGE_BOUNDARIES = false ->
     line ∈ splitlines payload -> strip line <> "" ->
     hands_to_shell (join " " (map quoted_word [shell; "-c"; payload])) (strip line)).
Proof.
  split; [exact (elem_with_payloads 4 command nested)|].
  intros shell payload line Hs Hb Hl Hn. apply elem_nested. exists payload, line.
  rewrite quoted_shell_payload; [by split_and!; [by left|..]|done| |done].
  intros ->. by apply elem_of_nil in Hl.
Qed.

Lemma handed_commands_evaluated_witness :
  let command := join " " (map quoted_word ["bash"; "-c"; "cd app; pip install 'flask'"]) in
  hands_to_shell command "cd app; pip install 'flask'" /\
  "cd app; pip install 'flask'"
    ∈ _command_with_shell_payloads _SHELL_COMMAND_PAYLOAD_MAX_DEPTH command.
Proof.
  intros command. assert (H : hands_to_shell command "cd app; pip install 'flask'").
  { refine (proj2 (handed_commands_evaluated "" "") "bash" "cd app; pip install 'flask'"
              "cd app; pip install 'flask'" _ _ _ _);
      [right; left|vm_compute; reflexivity|left|vm_compute; discriminate]. }
  split; [exact H|]. apply handed_commands_evaluated. exists 1%nat.
  split; [repeat constructor|]. by apply nsteps_once.
Defined.

(** ** The stored findings

    After a refresh the active findings of its subject are those of the evaluation, under
    every reason code; nothing else in the table changes. *)

(** ** One reason code at a time *)

Section Reasons.
Context (subject : string -> PolicySubject).
Context (Hreason : forall reason_code, ps_reason_code (subject reason_code) = reason_code).

Lemma active_reason (reason_code : string) (r : PolicyFinding) :
  policy_active_for (subject reason_code) r = true -> pf_reason_code r = reason_code.
Proof.
  unfold policy_active_for. intros H. bool_simpl. rewrite Hreason in *.
  by match goal with H : eqb (pf_reason_code r) _ = true |- _ => rewrite eqb_true in H end.
Qed.

Lemma inserted_reason (s : PolicySubject) new_id now n (creates : list PolicyFindingCreate) r :
  Forall (fun f => suits s f = true) creates -> r ∈ insert_new s new_id now n creates ->
  pf_reason_code r = ps_reason_code s.
Proof.
  intros Hf Hr. pose proof (insert_new_active s new_id now n creates Hf) as Ha.
  rewrite Forall_forall in Ha. apply Ha in Hr. cbn in Hr. unfold policy_active_for in Hr. bool_simpl.
  by match goal with H : eqb (pf_reason_code r) _ = true |- _ => rewrite eqb_true in H end.
Qed.

(** Replacing the findings of one reason code leaves the others as they are. *)
Lemma replace_other (s : PolicySubject) (reason_code : string) new_id now table creates :
  Forall (fun f => suits s f = true) creates -> ps_reason_code s <> reason_code ->
  List.filter (policy_active_for (subject reason_code))
    (replace_active_findings s new_id now table creates).1.1
  = List.filter (policy_active_for (subject reason_code)) table.
Proof.
  intros Hf Hne. unfold replace_active_findings. cbn [fst]. rewrite List.filter_app.
  rewrite (proj2 (bfilter_nil _ (insert_new _ _ _ _ _))), app_nil_r.
  - induction table as [|r table IH]; [done|]. cbn [map List.filter]. rewrite IH.
    unfold keep_or_resolve. cbn. destruct (policy_active_for s r) eqn:Es; [|done].
    assert (Hr : policy_active_for (subject reason_code) r = false).
    { apply not_true_iff_false. intros Ha. apply active_reason in Ha. unfold policy_active_for in Es.
      bool_simpl. match goal with H : eqb (pf_reason_code r) _ = true |- _ => rewrite eqb_true in H end.
      congruence. }
    pose proof (resolve_inactive (subject reason_code) now r) as Hi. cbn in Hi.
    cbn. by destruct (negb _); rewrite ?Hi, ?Hr.
  - intros r Hr. apply not_true_iff_false. intros Ha. apply active_reason in Ha.
    apply inserted_reason in Hr; [congruence|].
    rewrite Forall_forall in Hf |- *. intros f Hin. apply Hf. by apply elem_of_bfilter in Hin as [_ ?].
Qed.

Lemma of_reason_suits (reason_code : string) (findings : list SupplyChainFinding) :
  Forall (fun f => suits (subject reason_code) f = true)
    (map supply_create (of_reason reason_code findings)).
Proof.
  rewrite Forall_forall. intros f Hf. apply list_elem_of_fmap in Hf as (g & -> & Hg).
  apply elem_of_bfilter in Hg as [Hg _]. cbn. by rewrite Hreason.
Qed.

Lemma replace_by_reason_keeps new_id now findings reasons table (reason_code : string) :
  reason_code ∉ reasons ->
  List.filter (policy_active_for (subject reason_code))
    (replace_by_reason subject new_id now findings reasons table).1.1
  = List.filter (policy_active_for (subject reason_code)) table.
Proof.
  revert table. induction reasons as [|rc reasons IH]; intros table Hn; [done|].
  apply not_elem_of_cons in Hn as [Hne Hn]. cbn [replace_by_reason].
  pose proof (replace_other (subject rc) reason_code (new_id rc) now table _ (of_reason_suits rc findings)) as H.
  rewrite Hreason in H. specialize (H (not_eq_sym Hne)).
  destruct (replace_active_findings _ _ _ _ _) as [[table1 added] resolved].
  specialize (IH table1 Hn).
  destruct (replace_by_reason _ _ _ _ reasons table1) as [[table2 added'] resolved']. cbn in *.
  by rewrite IH.
Qed.

Lemma replace_by_reason_keys new_id now findings reasons table (reason_code : string) :
  NoDup reasons -> reason_code ∈ reasons -> forall k,
  k ∈ active_keys (subject reason_code)
        (replace_by_reason subject new_id now findings reasons table).1.1 <->
  k ∈ map finding_key (map supply_create (of_reason reason_code findings)).
Proof.
  revert table. induction reasons as [|rc reasons IH]; intros table Hd Hin k; [by apply elem_of_nil in Hin|].
  apply NoDup_cons in Hd as [Hnot Hd]. cbn [replace_by_reason].
  pose proof (active_keys_replaced (subject rc) (new_id rc) now table _ k (of_reason_suits rc findings)) as Hk.
  destruct (replace_active_findings _ _ _ _ _) as [[table1 added] resolved]. cbn [fst] in Hk.
  apply elem_of_cons in Hin as [->|Hin].
  - pose proof (replace_by_reason_keeps new_id now findings reasons table1 rc Hnot) as Hf.
    destruct (replace_by_reason _ _ _ _ reasons table1) as [[table2 added'] resolved']. cbn in Hf.
    rewrite <- Hk. unfold active_keys. cbn. by rewrite Hf.
  - specialize (IH table1 Hd Hin k).
    destruct (replace_by_reason _ _ _ _ reasons table1) as [[table2 added'] resolved']. exact IH.
Qed.

(** A row that is of no subject's concern stays. *)
Lemma replace_by_reason_rows new_id now findings reasons table (r : PolicyFinding) :
  (forall reason_code, reason_code ∈ reasons -> policy_active_for (subject reason_code) r = false) ->
  r ∈ table -> r ∈ (replace_by_reason subject new_id now findings reasons table).1.1.
Proof.
  revert table. induction reasons as [|rc reasons IH]; intros table Hn Hr; [done|].
  cbn [replace_by_reason].
  assert (H1 : r ∈ (replace_active_findings (subject rc) (new_id rc) now table
                      (map supply_create (of_reason rc findings))).1.1).
  { cbn. apply elem_of_app. left. apply list_elem_of_fmap. exists r. split; [|done].
    unfold keep_or_resolve. cbn. by rewrite Hn by by left. }
  destruct (replace_active_findings _ _ _ _ _) as [[table1 added] resolved].
  specialize (IH table1 (fun x Hx => Hn x (proj2 (elem_of_cons _ _ _) (or_intror Hx))) H1).
  destruct (replace_by_reason _ _ _ _ reasons table1) as [[table2 added'] resolved']. exact IH.
Qed.
End Reasons.

(** ** The refresh *)

Lemma finding_reason policy commands changed owned f :
  reported policy commands changed owned f -> sf_reason_code f ∈ SUPPLY_CHAIN_REASON_CODES.
Proof. destruct 1; apply mem_true; reflexivity. Qed.

Lemma reason_codes_NoDup : NoDup SUPPLY_CHAIN_REASON_CODES.
Proof. vm_compute. repeat constructor; rewrite ?elem_of_cons, ?elem_of_nil; intuition discriminate. Qed.

(** What a refresh computed before it decides about the candidate. *)
Lemma refresh_parts w candidate a new_id now table evidence changed r :
  _refresh w candidate a new_id now table evidence changed = Ok r ->
  evaluate_supply_chain_policy (supply_chain_policy_for_workspace (mw_resolved_profile w)) evidence
    (normalized_unique_paths changed) (refresh_owned_paths w a) = Ok (rf_findings r) /\
  rf_table r = (replace_by_reason (supply_subject w (fst <$> candidate) a) new_id now (rf_findings r)
                  SUPPLY_CHAIN_REASON_CODES table).1.1 /\
  match candidate with
  | None => rf_candidate r = None /\ rf_policy_blocked r = existsb is_blocking (rf_findings r)
  | Some (c, attempt) =>
      rf_policy_blocked r = has_blocking_policy_finding (active_policy c (rf_table r)) /\
      exists c', rf_candidate r = Some c' /\
        sync_candidate_readiness (with_policy_blocked c (rf_policy_blocked r)) w attempt true = Ok c'
  end.
Proof.
  unfold _refresh. destruct (evaluate_supply_chain_policy _ _ _ _) as [findings|]; [|done].
  destruct (replace_by_reason _ _ _ _ _ _) as [[table' added] resolved] eqn:E.
  destruct candidate as [[c attempt]|]; cbn [fmap option_fmap option_map fst] in E.
  - destruct (sync_candidate_readiness _ _ _ _) as [c'|] eqn:Es; [|done]. intros [= <-].
    split_and!; [done|exact (f_equal (fun x => x.1.1) (eq_sym E))|done|]. by exists c'.
  - intros [= <-]. split_and!; [done|exact (f_equal (fun x => x.1.1) (eq_sym E))|done|done].
Qed.

Lemma synced_policy_blocked c w a sync c' :
  sync_candidate_readiness c w a sync = Ok c' -> mc_policy_blocked c' = mc_policy_blocked c.
Proof.
  unfold sync_candidate_readiness. destruct (parse_status _); [|done]. intros [= <-].
  assert (H : mc_policy_blocked (if sync then sync_validation_reasons c w else c)
    = mc_policy_blocked c) by (destruct sync; [|done]; unfold sync_validation_reasons; by repeat case_goal).
  revert H. generalize (if sync then sync_validation_reasons c w else c). intros d <-.
  unfold derive_flags. cbv zeta. by match goal with |- context [if ?b then _ else _] => destruct b end.
Qed.

(** The table after a refresh is the verdict of the evaluation.  Under each of the
    four reason codes the active findings of the subject are those of the evaluation, so
    that no finding is lost and none of an earlier run is left; findings of another policy, workspace
    or candidate stay; and the policy blocks the candidate exactly when an active
    finding of the candidate is blocking, whichever policy it is from. *)
Theorem refresh_stores_verdict w candidate a new_id now table evidence changed r :
  _refresh w candidate a new_id now table evidence changed = Ok r ->
  let subject := supply_subject w (fst <$> candidate) a in
  (forall reason_code, reason_code ∈ SUPPLY_CHAIN_REASON_CODES -> forall k,
     k ∈ active_keys (subject reason_code) (rf_table r) <->
     k ∈ map finding_key (map supply_create (of_reason reason_code (rf_findings r)))) /\
  (forall f, f ∈ rf_findings r ->
     finding_key (supply_create f) ∈ active_keys (subject (sf_reason_code f)) (rf_table r)) /\
  (forall row, row ∈ table ->
     pf_reason_code row ∉ SUPPLY_CHAIN_REASON_CODES \/ pf_workspace_id row <> mw_id w \/
     pf_candidate_id row <> mc_id <$> (fst <$> candidate) -> row ∈ rf_table r) /\
  match candidate, rf_candidate r with
  | Some (c, _), Some c' =>
      mc_policy_blocked c' = true <->
      exists row, row ∈ rf_table r /\ pf_candidate_id row = Some (mc_id c) /\
        pf_status row = "active" /\ pf_severity row = "blocking"
  | None, None => rf_policy_blocked r = true <-> exists f, f ∈ rf_findings r /\ is_blocking f = true
  | _, _ => False
  end.
Proof.
  intros H. destruct (refresh_parts _ _ _ _ _ _ _ _ _ H) as (He & Ht & Hc). intros subject.
  assert (Hkeys : forall reason_code, reason_code ∈ SUPPLY_CHAIN_REASON_CODES -> forall k,
     k ∈ active_keys (subject reason_code) (rf_table r) <->
     k ∈ map finding_key (map supply_create (of_reason reason_code (rf_findings r)))).
  { intros rc Hrc k. rewrite Ht. by apply replace_by_reason_keys; [..|apply reason_codes_NoDup|]. }
  split_and!; [exact Hkeys| | |].
  - intros f Hf. apply Hkeys.
    + eapply finding_reason. by eapply evaluation_reported.
    + apply list_elem_of_fmap_2, list_elem_of_fmap_2, elem_of_bfilter. by rewrite eqb_refl.
  - intros row Hrow Hother. rewrite Ht. apply replace_by_reason_rows; [|done].
    intros rc Hrc. cbn. unfold policy_active_for. apply not_true_iff_false. intros Ha. bool_simpl.
    cbn [supply_subject ps_workspace_id ps_reason_code ps_candidate_id] in *. rewrite !eqb_true in *.
    destruct Hother as [Ho|[Ho|Ho]]; congruence.
  - destruct candidate as [[c attempt]|]; [|destruct Hc as [-> ->]; apply existsb_elem].
    destruct Hc as (Hb & c' & -> & Hs). apply synced_policy_blocked in Hs. rewrite Hs.
    cbn [with_policy_blocked mc_policy_blocked]. rewrite Hb. unfold has_blocking_policy_finding, active_policy.
    rewrite existsb_elem. setoid_rewrite elem_of_bfilter. split.
    + intros (row & (Hr & Hin) & Hsev). bool_simpl. exists row.
      repeat match goal with H : eqb _ _ = true |- _ => rewrite eqb_true in H end. done.
    + intros (row & Hin & Hcid & Hst & Hsev). exists row. by rewrite Hcid, Hst, Hsev, !eqb_refl.
Qed.

Lemma refresh_stores_verdict_witness :
  let w := sample_merge_workspace "ws_1" "refactor_task" ["src/parser"] in
  let c := sample_merge_candidate "mc_1" "ws_1" 100 in
  exists r f,
    _refresh w (Some (c, sample_merge_attempt)) None (fun _ _ => "pf_1") 200 []
      ["$ pip install flask"] ["src/parser/x.py"] = Ok r /\
    rf_findings r = [f] /\
    finding_key (supply_create f)
      ∈ active_keys (supply_subject w (Some c) None (sf_reason_code f)) (rf_table r).
Proof.
  intros w c.
  destruct (_refresh w (Some (c, sample_merge_attempt)) None (fun _ _ => "pf_1") 200 []
      ["$ pip install flask"] ["src/parser/x.py"]) as [r|e] eqn:E; [|vm_compute in E; discriminate E].
  assert (Hf : exists f, rf_findings r = [f]) by (vm_compute in E; injection E as <-; eexists; reflexivity).
  destruct Hf as [f Hf]. exists r, f. split; [reflexivity|]. split; [exact Hf|].
  destruct (refresh_stores_verdict _ _ _ _ _ _ _ _ _ E) as (_ & H & _). apply H. rewrite Hf. by left.
Defined.
