(* ===== verification/MergeGateFacts.v ===== *)
(** * What the merge gate guarantees

    The gate lets a merge through exactly when nothing on record is against it; every
    writer of a candidate leaves its flags derived from the facts; and a base sync
    resolves only what a moved base can have caused. *)

From S2P Require Import SupplyChain SupplyPolicy.
From S2P Require Import Prelude PyStr Json PyFloat PyVal Status Store Readiness OwnedPaths.
From S2P Require Import OwnedPathsFacts ScopePolicy Findings Staleness StalenessFacts.
From S2P Require Import MergeQueue MergeGate.
#[local] Open Scope Z_scope.

(** ** The gate *)

Definition gate_passes (g : MergeGateResult) : Prop :=
  gr_stale_reason g = None /\ gr_notify_message g = None.

(** A reason column that is set is not the empty string. *)
Definition truthy_or_none (o : option string) : Prop := o <> Some "".

Lemma truthy_str_id (o : option string) : truthy_or_none o -> truthy_str o = o.
Proof.
  unfold truthy_or_none, truthy_str. destruct o as [s|]; [|done]. intros H.
  destruct (eqb s "") eqn:E; [|done]. rewrite eqb_true in E. by subst.
Qed.

Lemma or_str_none (x y : option string) :
  truthy_or_none x -> (or_str x y = None <-> x = None /\ y = None).
Proof. intros H. unfold or_str. rewrite (truthy_str_id x H). destruct x; naive_solver. Qed.

Lemma compute_attempt_cases (w : MergeWorkspace) (id : string) :
  compute_stale_reason_for_attempt w id = (None, None) \/
  compute_stale_reason_for_attempt w id
  = (Some VALIDATION_INSUFFICIENT_TIER_STALE_REASON, Some "validate").
Proof. unfold compute_stale_reason_for_attempt, stale_below. case_goal; auto. Qed.

Lemma gate_validation_none (c : MergeCandidate) (w : MergeWorkspace) (head : option string) :
  (gate_validation c w head).1 = None <->
  compute_stale_reason_for_attempt w (mc_attempt_id c) = (None, None) /\
  (head <> None -> has_successful_validation_for_pr_head w (mc_attempt_id c) head = true).
Proof.
  unfold gate_validation.
  destruct (compute_attempt_cases w (mc_attempt_id c)) as [-> | ->].
  - rewrite eqb_refl. cbn [andb]. destruct head as [h|].
    + rewrite (proj2 (eqb_false (Some h) None)) by done. cbn [negb andb].
      destruct (has_successful_validation_for_pr_head _ _ _); cbn [negb fst]; split; try done.
      intros [_ H]. by specialize (H ltac:(done)).
    + rewrite eqb_refl. cbn. split; [|done]. intros _. split; [done|]. by intros [].
  - rewrite (proj2 (eqb_false (Some _) None)) by done. cbn. split; [done|]. by intros [? _].
Qed.

Lemma gate_validation_truthy (c : MergeCandidate) (w : MergeWorkspace) (head : option string) :
  truthy_or_none (gate_validation c w head).1.
Proof.
  unfold gate_validation.
  destruct (compute_attempt_cases w (mc_attempt_id c)) as [-> | ->]; case_goal; done.
Qed.

Lemma gate_notify_none (c : MergeCandidate) (w : MergeWorkspace) (a : MergeAttempt) (chk : bool)
    (findings : list PolicyFinding) :
  gate_notify c w a chk findings = None <->
  ma_is_canonical_for_merge a = true /\ mw_auto_merge w = true /\
  (chk = true -> mc_policy_blocked c = false /\ has_blocking_policy_finding findings = false).
Proof.
  unfold gate_notify.
  destruct (ma_is_canonical_for_merge a); cbn [negb]; [|naive_solver].
  destruct (mw_auto_merge w); cbn [negb]; [|naive_solver].
  destruct chk; cbn [andb]; [|naive_solver].
  destruct (mc_policy_blocked c); cbn [orb]; [naive_solver|].
  destruct (has_blocking_policy_finding findings); naive_solver.
Qed.

(** The documentation-scope reason is forgiven once the head is validated. *)
Definition docs_scope_forgiven (c : MergeCandidate) (w : MergeWorkspace) (head : option string)
  : Prop :=
  mc_stale c = true /\ mc_stale_reason c = Some DOCS_TASK_SCOPE_VIOLATION_STALE_REASON /\
  has_successful_validation_for_pr_head w (mc_attempt_id c) head = true.

(** The row's own stale flag does not block: its reason is advisory, one that
    validation settles, or a forgiven one. *)
Definition stale_flag_settled (c : MergeCandidate) (w : MergeWorkspace) (head : option string)
  : Prop :=
  mc_stale c = true ->
  stale_reason_blocks_merge (or_str (mc_stale_reason c) (Some "stale")) = false \/
  mc_stale_reason c = Some VALIDATION_INSUFFICIENT_TIER_STALE_REASON \/
  mc_stale_reason c = Some VALIDATION_MISSING_FOR_CURRENT_HEAD_STALE_REASON \/
  docs_scope_forgiven c w head.

Lemma or_stale_some (o : option string) (s : string) :
  s <> "" -> s <> "stale" -> (or_str o (Some "stale") = Some s <-> o = Some s).
Proof.
  intros H1 H2. unfold or_str, truthy_str. destruct o as [t|].
  - destruct (eqb t "") eqn:E; [rewrite eqb_true in E; subst|]; naive_solver.
  - naive_solver.
Qed.

Section Fresh.
Context (c : MergeCandidate) (w : MergeWorkspace) (head : option string).

Lemma persisted_fresh (reason : option string) :
  mc_stale c = true -> or_str (mc_stale_reason c) (Some "stale") = reason ->
  persisted_reason c None =
  if stale_reason_blocks_merge reason
     && negb (mem reason [Some VALIDATION_INSUFFICIENT_TIER_STALE_REASON;
                          Some VALIDATION_MISSING_FOR_CURRENT_HEAD_STALE_REASON])
  then reason else None.
Proof.
  intros Hs Hr. unfold persisted_reason. rewrite Hs, Hr, eqb_refl. cbn [andb].
  destruct (stale_reason_blocks_merge reason); [|done]. cbn [andb]. by destruct (mem _ _).
Qed.

Lemma docs_scope_validated_iff :
  docs_scope_validated c w None (persisted_reason c None) head = true <->
  docs_scope_forgiven c w head.
Proof.
  unfold docs_scope_validated, docs_scope_forgiven. rewrite eqb_refl. cbn [andb].
  rewrite andb_true_iff, eqb_true. destruct (mc_stale c) eqn:Es.
  - rewrite (persisted_fresh _ Es eq_refl).
    rewrite <- (or_stale_some (mc_stale_reason c) DOCS_TASK_SCOPE_VIOLATION_STALE_REASON) by done.
    destruct (base.decide (or_str (mc_stale_reason c) (Some "stale")
                           = Some DOCS_TASK_SCOPE_VIOLATION_STALE_REASON)) as [Hd|Hd].
    + rewrite Hd. split; [intros [_ H]|intros (_ & _ & H)]; split_and!; done.
    + split; [|by intros (_ & ? & _)]. intros [H _]. revert H. case_goal; done.
  - unfold persisted_reason. rewrite Es. cbn. split; [by intros [? _]|by intros [? _]].
Qed.

Lemma stale_flag_settled_iff :
  (if docs_scope_validated c w None (persisted_reason c None) head then None
   else persisted_reason c None) = None <-> stale_flag_settled c w head.
Proof.
  pose proof docs_scope_validated_iff as Hdocs. unfold stale_flag_settled.
  destruct (docs_scope_validated _ _ _ _ _); [split; [|done]; intros _ _; right; right; right; by apply Hdocs|].
  assert (Hno : ~ docs_scope_forgiven c w head) by (intros H; by apply Hdocs in H).
  destruct (mc_stale c) eqn:Es.
  - rewrite (persisted_fresh _ Es eq_refl).
    rewrite <- (or_stale_some _ VALIDATION_INSUFFICIENT_TIER_STALE_REASON) by done.
    rewrite <- (or_stale_some _ VALIDATION_MISSING_FOR_CURRENT_HEAD_STALE_REASON) by done.
    set (r := or_str (mc_stale_reason c) (Some "stale")).
    assert (Hr : r <> None).
    { unfold r, or_str. by destruct (truthy_str (mc_stale_reason c)). }
    destruct (stale_reason_blocks_merge r); cbn [andb]; [|split; [intros _ _; by left|done]].
    destruct (mem r _) eqn:Em; cbn [negb].
    + split; [intros _ _|done]. right. rewrite mem_true in Em.
      rewrite !elem_of_cons, elem_of_nil in Em. tauto.
    + apply mem_false in Em. rewrite !not_elem_of_cons in Em. split; [done|].
      intros H. destruct (H eq_refl) as [H'|[H'|[H'|H']]]; [done|tauto..].
  - unfold persisted_reason. rewrite Es. cbn. split; done.
Qed.
End Fresh.

Lemma first_code_none (l : list StaleReason) :
  match l with r :: _ => Some (sr_reason_code r) | [] => None end = None <-> l = [].
Proof. by destruct l. Qed.

(** The active rows that block, the forgiven ones aside. *)
Lemma blocking_rows_nil (c : MergeCandidate) (table : list StaleReason) (docs : bool) :
  List.filter (fun r => stale_row_blocks_merge r && negb (docs && is_docs_scope r))
    (active_stale c table) = [] <->
  forall r, r ∈ table -> stale_active_for (candidate_ref c) r = true ->
    stale_row_blocks_merge r = true -> docs = true /\ is_docs_scope r = true.
Proof.
  rewrite bfilter_nil. unfold active_stale, list_active. setoid_rewrite elem_of_sorted_by.
  setoid_rewrite elem_of_bfilter. cbn [active_for stale_reason_table]. split.
  - intros H r Hr Ha Hb. specialize (H r (conj Ha Hr)). rewrite Hb in H. cbn [andb] in H.
    by apply negb_false_iff, andb_true_iff in H.
  - intros H r [Ha Hr]. destruct (stale_row_blocks_merge r) eqn:Hb; [|done].
    destruct (H r Hr Ha Hb) as [-> ->]. done.
Qed.

Lemma sync_false_stale (c c' : MergeCandidate) (w : MergeWorkspace) (a : MergeAttempt) :
  sync_candidate_readiness c w a false = Ok c' -> mc_stale c = false -> mc_stale c' = false.
Proof.
  unfold sync_candidate_readiness. destruct (parse_status _); [|done]. intros [= <-] H.
  unfold derive_flags. by case_goal.
Qed.

(** ** Properties *)


(** ** The writers of a candidate *)

(** The flags are those the facts imply. *)
Definition flags_derived (c : MergeCandidate) (w : MergeWorkspace) (a : MergeAttempt) : Prop :=
  sync_candidate_readiness c w a false = Ok c.

(** One committed write to a candidate, while its workspace and attempt are [w], [a]. *)
Inductive candidate_write (w : MergeWorkspace) (a : MergeAttempt)
  : MergeCandidate -> MergeCandidate -> Prop :=
| write_open (c c' : MergeCandidate) (task ws url repo base : string) (number : option Z)
    (head base_sha : option string) :
    sync_candidate_readiness (reopen c task ws url repo base number head base_sha) w a true = Ok c' ->
    candidate_write w a c c'
| write_close (c c' : MergeCandidate) (reason : string) (now : Z) :
    close_candidate c w a reason now = Ok c' -> candidate_write w a c c'
| write_merged (c c' : MergeCandidate) (now : Z) :
    mark_merged c w a now = Ok c' -> candidate_write w a c c'
| write_staleness (c c' : MergeCandidate) provider policy new_id now table id target table' res :
    refresh_candidate provider policy new_id now table id (Some (c, w, a)) target
      = Ok (table', c', res) ->
    candidate_write w a c c'
| write_gate (c c' : MergeCandidate) stale_table policy_table now chk head g table' :
    merge_gate_for_workspace (Some (c, w, a)) stale_table policy_table now chk head
      = Ok (g, table', Some c') ->
    candidate_write w a c c'
| write_scope (c c' : MergeCandidate) task_policy new_id now table changed table' :
    refresh_scope_policy (Some (c, w, a)) task_policy new_id now table changed = Ok (table', c') ->
    candidate_write w a c c'
| write_supply_chain (c c' : MergeCandidate) sa new_id now table evidence changed r :
    SupplyPolicy._refresh w (Some (c, a)) sa new_id now table evidence changed = Ok r ->
    rf_candidate r = Some c' ->
    candidate_write w a c c'
| write_sync_base (c c' : MergeCandidate) new_id now table rev_parse table' :
    refresh_after_sync_base c w a new_id now table rev_parse = (table', c') ->
    candidate_write w a c c'.

Lemma synced_derived (d c' : MergeCandidate) (w : MergeWorkspace) (a : MergeAttempt) (sync : bool) :
  sync_candidate_readiness d w a sync = Ok c' -> flags_derived c' w a.
Proof.
  unfold flags_derived, sync_candidate_readiness. destruct (parse_status _); [|done].
  intros [= <-]. f_equal. apply derive_idem.
Qed.

Lemma base_sha_flags (c : MergeCandidate) (w : MergeWorkspace) (a : MergeAttempt)
    (sha : option string) : flags_derived c w a -> flags_derived (with_base_sha c sha) w a.
Proof.
  unfold flags_derived, sync_candidate_readiness. destruct (parse_status _) as [s|]; [|done].
  intros [= H]. f_equal. rewrite <- H at 2. unfold derive_flags. cbn [with_base_sha mc_status].
  by destruct (_ || _).
Qed.

(** A write derives the flags, or touches none of the columns they depend on. *)
Lemma write_cases (w : MergeWorkspace) (a : MergeAttempt) (c c' : MergeCandidate) :
  candidate_write w a c c' ->
  flags_derived c' w a \/ c' = c \/ exists sha, c' = with_base_sha c sha.
Proof.
  intros H. destruct H as [c c' task ws url repo base number head base_sha H
    |c c' reason now H|c c' now H|c c' provider policy new_id now table id target table' res H
    |c c' st pt now chk head g table' H|c c' tp new_id now table changed table' H
    |c c' sa new_id now table evidence changed r H Hc
    |c c' new_id now table rp table' H].
  - left. by eapply synced_derived.
  - unfold close_candidate in H. destruct (negb _); [injection H as <-; auto|].
    left. by eapply synced_derived.
  - left. by eapply synced_derived.
  - left. unfold refresh_candidate in H.
    destruct (match target with Some t => Ok t | None => fetch_target provider c end); [|done].
    cbn [rbind] in H. destruct (replace_active_findings _ _ _ _ _) as [[? ?] ?].
    destruct (mark_candidate_stale _ _ _ _ _) as [d|] eqn:E; [|done]. injection H as <- <- <-.
    unfold mark_candidate_stale in E. by eapply synced_derived.
  - left. unfold merge_gate_for_workspace in H. destruct (gate_validation c w head) as [vr va].
    destruct (sync_candidate_readiness _ w a false) as [d|] eqn:E; [|done].
    injection H as <- <- <-. by eapply synced_derived.
  - left. unfold refresh_scope_policy in H.
    destruct (out_of_scope_policy_for_workspace _ _); [|done].
    destruct (replace_active_findings _ _ _ _ _) as [[? ?] ?].
    destruct (sync_candidate_readiness _ w a true) as [d|] eqn:E; [|done].
    injection H as <- <-. by eapply synced_derived.
  - left. unfold SupplyPolicy._refresh in H. destruct (evaluate_supply_chain_policy _ _ _ _); [|done].
    destruct (replace_by_reason _ _ _ _ _ _) as [[? ?] ?].
    destruct (sync_candidate_readiness _ w a true) as [d|] eqn:E; [|done].
    injection H as <-. injection Hc as <-. by eapply synced_derived.
  - unfold refresh_after_sync_base in H. destruct (truthy_str _) as [b|]; [|injection H as <- <-; auto].
    destruct (negb _); [injection H as <- <-; eauto|].
    destruct (replace_active_findings _ _ _ _ _) as [[? ?] ?].
    destruct (sync_candidate_readiness _ w a true) as [d|] eqn:E; injection H as <- <-; auto.
    left. by eapply synced_derived.
Qed.

(** A run of writes, during which the workspace and the attempt stay as they are. *)
Inductive candidate_writes (w : MergeWorkspace) (a : MergeAttempt)
  : MergeCandidate -> MergeCandidate -> Prop :=
| writes_none (c : MergeCandidate) : candidate_writes w a c c
| writes_more (c d e : MergeCandidate) :
    candidate_writes w a c d -> candidate_write w a d e -> candidate_writes w a c e.

(** No writer of a candidate leaves a wrong flag.  Starting from a row whose flags
    agree with its workspace and attempt, after any sequence of openings, closings,
    merges, staleness refreshes, gate checks, refreshes of either policy and base syncs
    the row is ready exactly when it is open, canonical, unblocked and fresh in a
    monitored workspace that merges by itself. *)
Theorem candidate_writes_keep_flags (w : MergeWorkspace) (a : MergeAttempt)
    (c c' : MergeCandidate) :
  flags_derived c w a -> candidate_writes w a c c' ->
  flags_derived c' w a /\
  (mc_ready c' = true <-> mergeable c' w a /\ mw_auto_merge w = true) /\
  (mc_manual_merge_required c' = true <-> mergeable c' w a /\ mw_auto_merge w = false).
Proof.
  intros Hc Hw. assert (Hd : flags_derived c' w a).
  { induction Hw as [c|c d e Hw IH He]; [done|]. specialize (IH Hc).
    destruct (write_cases _ _ _ _ He) as [H|[->|[sha ->]]]; [done|done|].
    by apply base_sha_flags. }
  split; [done|]. unfold flags_derived, sync_candidate_readiness in Hd.
  destruct (parse_status (mw_status w)) as [s|] eqn:Es; [|done]. apply parse_status_ok in Es.
  injection Hd as Hd. rewrite <- Hd. split; [by apply derive_ready|by apply derive_manual].
Qed.

Lemma candidate_writes_keep_flags_witness :
  let w := sample_merge_workspace "ws_1" "refactor_task" ["src/parser"] in
  exists c', candidate_writes w sample_merge_attempt sample_ready_candidate c' /\
    mc_status c' = "closed" /\ ~ mc_ready c' = true /\ flags_derived c' w sample_merge_attempt.
Proof.
  intros w.
  destruct (close_candidate sample_ready_candidate w sample_merge_attempt "CANONICAL_CHANGED" 300)
    as [c'|e] eqn:E; [|vm_compute in E; discriminate E].
  assert (Hw : candidate_writes w sample_merge_attempt sample_ready_candidate c').
  { eapply writes_more; [apply writes_none|]. eapply write_close. exact E. }
  exists c'. split; [exact Hw|].
  destruct (candidate_writes_keep_flags w sample_merge_attempt sample_ready_candidate c')
    as (Hd & _); [vm_compute; reflexivity|exact Hw|].
  split; [|split; [|exact Hd]]; clear Hw Hd; vm_compute in E; injection E as <-; [reflexivity|].
  discriminate.
Defined.

(** *** Syncing the base *)

Definition target_derived (r : StaleReason) : bool :=
  mem (sr_reason_code r) SYNC_BASE_RESOLVABLE_STALE_REASONS.

(** A base sync resolves what the target caused and nothing else.  After it, in a
    workspace with a known status, the candidate's base is the synced commit, no
    active row has a target-derived code, every other active row is still there
    unchanged, and no row is deleted. *)
Theorem sync_base_resolves (c c' : MergeCandidate) (w : MergeWorkspace) (a : MergeAttempt)
    (s : WorkspaceStatus) (new_id : nat -> string) (now : Z) (table table' : list StaleReason)
    (rev_parse : string) :
  mw_status w = status_value s -> strip rev_parse <> "" ->
  refresh_after_sync_base c w a new_id now table (Some rev_parse) = (table', c') ->
  mc_base_sha c' = Some (strip rev_parse) /\
  (forall r, r ∈ table' -> stale_active_for (candidate_ref c) r = true -> target_derived r = false) /\
  (forall r, r ∈ table -> stale_active_for (candidate_ref c) r = true -> target_derived r = false ->
     r ∈ table') /\
  (exists old added, table' = old ++ added /\
     Forall2 (fun r r' => r' = r \/ r' = resolve_stale now r) table old).
Proof.
  intros Hs Hne H. unfold refresh_after_sync_base in H. fold target_derived in H.
  assert (Ht : truthy_str (option_map strip (Some rev_parse)) = Some (strip rev_parse)).
  { apply truthy_str_id. unfold truthy_or_none. cbn. congruence. }
  rewrite Ht in H.
  assert (Hact : forall r, r ∈ active_stale c table <->
                   stale_active_for (candidate_ref c) r = true /\ r ∈ table).
  { intros r. unfold active_stale, list_active. by rewrite elem_of_sorted_by, elem_of_bfilter. }
  destruct (negb (existsb target_derived (active_stale c table))) eqn:Er.
  - apply negb_true_iff in Er. rewrite existsb_none in Er. injection H as <- <-. split_and!.
    + done.
    + intros r Hr Ha. apply Er, Hact. done.
    + done.
    + exists table, []. rewrite app_nil_r. split; [done|].
      apply Forall_Forall2_diag, Forall_true. auto.
  - clear Er. set (preserved := List.filter _ (active_stale c table)) in H.
    pose proof (replace_spec (candidate_ref c) new_id now table (map restate preserved)
      ltac:(apply Forall_true; done)) as Hspec. cbv zeta in Hspec.
    destruct (replace_active_findings _ _ _ _ _) as [[tab added] resolved].
    unfold sync_candidate_readiness in H. rewrite Hs, parse_status_value in H.
    injection H as <- <-. destruct Hspec as (Hkeys & _ & _ & (old & -> & Hold) & _).
    split_and!.
    + unfold derive_flags, sync_validation_reasons. repeat case_goal; done.
    + intros r Hr Ha.
      assert (Hk : row_key r ∈ active_keys (candidate_ref c) (old ++ added))
        by (apply elem_of_active_keys; eauto).
      apply Hkeys in Hk. rewrite map_map in Hk. apply list_elem_of_fmap in Hk as (q & Hq & Hin).
      unfold preserved in Hin. apply elem_of_bfilter in Hin as [Hin _].
      apply negb_true_iff in Hin. injection Hq as Hcode _ _.
      unfold target_derived in *. by rewrite Hcode.
    + intros r Hr Ha Htd. apply elem_of_app. left.
      apply list_elem_of_lookup in Hr as [i Hi].
      destruct (Forall2_lookup_l _ _ _ _ _ Hold Hi) as (r' & Hi' & [->|(_ & Hk & _)]).
      * by eapply list_elem_of_lookup_2.
      * destruct Hk. rewrite map_map. apply list_elem_of_fmap. exists r. split; [done|].
        unfold preserved. apply elem_of_bfilter. unfold target_derived in Htd.
        split; [by rewrite Htd|]. apply Hact.
        split; [done|]. by eapply list_elem_of_lookup_2.
    + exists old, added. split; [done|]. eapply Forall2_impl; [exact Hold|].
      intros r r' [->|(_ & _ & ->)]; auto.
Qed.

Definition sample_stale_rows : list StaleReason :=
  [create_stale (candidate_ref sample_ready_candidate) "sr_1" 110
     {| sc_reason_code := "STALE_OVERLAP"; sc_trigger_type := "path_overlap";
        sc_trigger_ref := Some "src/parser/lex.py"; sc_explanation := "changed" |};
   create_stale (candidate_ref sample_ready_candidate) "sr_2" 120
     {| sc_reason_code := "docs_task_scope_violation"; sc_trigger_type := "scope";
        sc_trigger_ref := None; sc_explanation := "scope" |}].

Lemma sync_base_resolves_witness :
  let w := sample_merge_workspace "ws_1" "refactor_task" ["src/parser"] in
  let '(table', c') := refresh_after_sync_base sample_ready_candidate w sample_merge_attempt
                         (fun _ => "sr_9") 200 sample_stale_rows (Some "def456") in
  mc_base_sha c' = Some "def456" /\ map sr_status table' = ["resolved"; "active"].
Proof.
  intros w.
  destruct (refresh_after_sync_base sample_ready_candidate w sample_merge_attempt
    (fun _ => "sr_9") 200 sample_stale_rows (Some "def456")) as [table' c'] eqn:E.
  destruct (sync_base_resolves sample_ready_candidate c' w sample_merge_attempt monitoring_pr
    (fun _ => "sr_9") 200 sample_stale_rows table' "def456") as (Hb & _);
    [reflexivity|discriminate|exact E|].
  split; [exact Hb|]. clear Hb. vm_compute in E. injection E as <- <-. reflexivity.
Defined.

