(* ===== verification/Breaker.v ===== *)
(** * Provider/model circuit breakers

    [ProviderModelCircuitBreakerRepository] of [db/repositories/system_repo.py]:
    repeated failures of a provider/model pair open its breaker for a cooldown (in seconds),
    and every read closes a breaker whose cooldown is over.  Instants are microseconds
    on one UTC scale; the row a pair has is the value of a map, which is the
    unique constraint of the table. *)

From S2P Require Import Prelude PyStr.
#[local] Open Scope Z_scope.

Inductive BreakerState : Type := breaker_closed | breaker_open.

#[export] Instance BreakerState_eq_dec : EqDecision BreakerState.
Proof. solve_decision. Defined.

Record Breaker : Type := {
  cb_state : BreakerState;
  cb_failure_count : Z;
  cb_opened_at : option Z;
  cb_cooldown_until : option Z;
  cb_last_reason_code : option string;
  cb_last_failure_fingerprint : option string;
  cb_last_workspace_id : option string;
  cb_last_attempt_id : option string
}.

Notation "'Breakers'" := (gmap (string * string) Breaker).

Definition new_breaker : Breaker :=
  {| cb_state := breaker_closed; cb_failure_count := 0; cb_opened_at := None;
     cb_cooldown_until := None; cb_last_reason_code := None; cb_last_failure_fingerprint := None;
     cb_last_workspace_id := None; cb_last_attempt_id := None |}.

Definition circuit_breaker_expired (b : Breaker) (now : Z) : bool :=
  match cb_state b, cb_cooldown_until b with
  | breaker_open, Some until => until <=? now
  | _, _ => false
  end.

(** The reset every operation applies to an expired breaker. *)
Definition close_breaker (b : Breaker) : Breaker :=
  {| cb_state := breaker_closed; cb_failure_count := 0; cb_opened_at := None;
     cb_cooldown_until := None; cb_last_reason_code := cb_last_reason_code b;
     cb_last_failure_fingerprint := cb_last_failure_fingerprint b;
     cb_last_workspace_id := cb_last_workspace_id b;
     cb_last_attempt_id := cb_last_attempt_id b |}.

Definition close_expired (b : Breaker) (now : Z) : Breaker :=
  if circuit_breaker_expired b now then close_breaker b else b.

(** What a failure is recorded with. *)
Record Failure : Type := {
  f_reason_code : string;
  f_fingerprint : string;
  f_workspace_id : option string;
  f_attempt_id : option string
}.

Definition count_failure (b : Breaker) (f : Failure) (now threshold cooldown : Z) : Breaker :=
  let count := cb_failure_count b + 1 in
  let opens := Z.max 1 threshold <=? count in
  {| cb_state := if opens then breaker_open else cb_state b;
     cb_failure_count := count;
     cb_opened_at := if opens then Some now else cb_opened_at b;
     cb_cooldown_until := if opens then Some (now + 1000000 * Z.max 0 cooldown) else cb_cooldown_until b;
     cb_last_reason_code := Some (f_reason_code f);
     cb_last_failure_fingerprint := Some (take_str 512 (f_fingerprint f));
     cb_last_workspace_id := f_workspace_id f;
     cb_last_attempt_id := f_attempt_id f |}.

(** [record_failure]: a missing row is inserted closed, in either dialect. *)
Definition record_failure (t : Breakers) (provider model : string) (f : Failure)
    (now threshold cooldown : Z) : Breakers :=
  let key := (strip provider, strip model) in
  let b := default new_breaker (t !! key) in
  <[key := count_failure (close_expired b now) f now threshold cooldown]> t.

Definition is_suppressed (t : Breakers) (provider model : string) (now : Z) : Breakers * bool :=
  match t !! (provider, model) with
  | None => (t, false)
  | Some b =>
      if circuit_breaker_expired b now then (<[(provider, model) := close_breaker b]> t, false)
      else (t, eqb (cb_state b) breaker_open)
  end.

Definition open_breaker (t : Breakers) (provider model : string) (now : Z)
  : Breakers * option Breaker :=
  match t !! (provider, model) with
  | None => (t, None)
  | Some b =>
      if circuit_breaker_expired b now then (<[(provider, model) := close_breaker b]> t, None)
      else (t, if eqb (cb_state b) breaker_open then Some b else None)
  end.

(** The rows a bulk read selects, closed where expired, and the open ones. *)
Definition sweep (t : Breakers) (selected : string * string -> bool) (now : Z)
  : Breakers * gmap (string * string) Breaker :=
  (map_imap (fun k b => Some (if selected k && eqb (cb_state b) breaker_open
                              then close_expired b now else b)) t,
   map_imap (fun k b => if selected k && eqb (cb_state b) breaker_open
                           && negb (circuit_breaker_expired b now) then Some b else None) t).

Definition open_breakers_for_pairs (t : Breakers) (pairs : list (string * string)) (now : Z)
  : Breakers * gmap (string * string) Breaker :=
  let normalized := List.filter (fun p => negb (eqb p.1 "") && negb (eqb p.2 ""))
                      (map (fun p => (strip p.1, strip p.2)) pairs) in
  match normalized with
  | [] => (t, ∅)
  | _ :: _ => sweep t (fun k => mem k normalized) now
  end.

Definition list_open (t : Breakers) (now : Z) : Breakers * gmap (string * string) Breaker :=
  sweep t (fun _ => true) now.

(** ** Lemmas *)

Lemma sweep_rows (t : Breakers) (selected : string * string -> bool) (now : Z) (k : string * string) :
  (sweep t selected now).1 !! k =
  (fun b => if selected k && eqb (cb_state b) breaker_open then close_expired b now else b)
    <$> t !! k.
Proof. unfold sweep. cbn [fst snd]. rewrite map_lookup_imap. by destruct (t !! k). Qed.

Lemma sweep_open (t : Breakers) (selected : string * string -> bool) (now : Z) (k : string * string) :
  (sweep t selected now).2 !! k =
  match t !! k with
  | Some b => if selected k && eqb (cb_state b) breaker_open
                 && negb (circuit_breaker_expired b now) then Some b else None
  | None => None
  end.
Proof. unfold sweep. cbn [fst snd]. rewrite map_lookup_imap. by destruct (t !! k). Qed.

(** The breaker a pair has at [now], with the reset already applied. *)
Definition current (t : Breakers) (k : string * string) (now : Z) : option Breaker :=
  (fun b => close_expired b now) <$> t !! k.

(** Whether the pair is cooling down at [now]. *)
Definition cooling (t : Breakers) (k : string * string) (now : Z) : bool :=
  match t !! k with
  | Some b => eqb (cb_state b) breaker_open && negb (circuit_breaker_expired b now)
  | None => false
  end.

Lemma closed_not_expired (b : Breaker) (now : Z) :
  cb_state b <> breaker_open -> circuit_breaker_expired b now = false.
Proof. unfold circuit_breaker_expired. by destruct (cb_state b). Qed.

Lemma expired_open (b : Breaker) (now : Z) :
  circuit_breaker_expired b now = true -> cb_state b = breaker_open.
Proof. unfold circuit_breaker_expired. by destruct (cb_state b). Qed.

(** A table in which every row is the old one or its reset, and [k]'s is reset. *)
Definition refreshed (t t' : Breakers) (k : string * string) (now : Z) : Prop :=
  t' !! k = current t k now /\ forall k', t' !! k' = t !! k' \/ t' !! k' = current t k' now.

Lemma refreshed_self (t : Breakers) (k : string * string) (now : Z) :
  t !! k = current t k now -> refreshed t t k now.
Proof. split; [done|by left]. Qed.

Lemma refreshed_insert (t : Breakers) (k : string * string) (b : Breaker) (now : Z) :
  t !! k = Some b -> circuit_breaker_expired b now = true ->
  refreshed t (<[k := close_breaker b]> t) k now.
Proof.
  intros Hb He. assert (Hc : current t k now = Some (close_breaker b)).
  { unfold current, close_expired. rewrite Hb. simpl. by rewrite He. }
  split; [by rewrite Hc, lookup_insert_eq|]. intros k'. destruct (decide (k = k')) as [<-|Hne].
  - right. by rewrite Hc, lookup_insert_eq.
  - left. by rewrite lookup_insert_ne.
Qed.

Lemma current_fresh (t : Breakers) (k : string * string) (now : Z) :
  (forall b, t !! k = Some b -> circuit_breaker_expired b now = false) -> t !! k = current t k now.
Proof.
  intros H. unfold current, close_expired. destruct (t !! k) as [b|]; [|done]. simpl.
  by rewrite (H b eq_refl).
Qed.

Lemma is_suppressed_spec (t : Breakers) (provider model : string) (now : Z) :
  (is_suppressed t provider model now).2 = cooling t (provider, model) now /\
  refreshed t (is_suppressed t provider model now).1 (provider, model) now.
Proof.
  unfold is_suppressed, cooling. destruct (t !! (provider, model)) as [b|] eqn:Hb.
  - destruct (circuit_breaker_expired b now) eqn:E; cbn [fst snd].
    + rewrite andb_false_r. split; [done|]. by apply refreshed_insert.
    + rewrite andb_true_r. split; [done|]. apply refreshed_self, current_fresh. intros b' Hb'. cbn in Hb'. congruence.
  - split; [done|]. apply refreshed_self, current_fresh. intros b' Hb'. cbn in Hb'. congruence.
Qed.

Lemma open_breaker_spec (t : Breakers) (provider model : string) (now : Z) :
  (is_Some (open_breaker t provider model now).2 <-> cooling t (provider, model) now = true) /\
  refreshed t (open_breaker t provider model now).1 (provider, model) now.
Proof.
  unfold open_breaker, cooling. destruct (t !! (provider, model)) as [b|] eqn:Hb.
  - destruct (circuit_breaker_expired b now) eqn:E; cbn [fst snd].
    + rewrite andb_false_r. split; [by split; [intros [? ?]|]|]. by apply refreshed_insert.
    + rewrite andb_true_r. split.
      * destruct (eqb (cb_state b) breaker_open); split; try done; try (by eauto); by intros [? ?].
      * apply refreshed_self, current_fresh. intros b' Hb'. cbn in Hb'. congruence.
  - split; [by split; [intros [? ?]|]|]. apply refreshed_self, current_fresh. intros b' Hb'. cbn in Hb'. congruence.
Qed.

Lemma sweep_spec (t : Breakers) (selected : string * string -> bool) (now : Z)
    (k : string * string) :
  selected k = true ->
  (is_Some ((sweep t selected now).2 !! k) <-> cooling t k now = true) /\
  refreshed t (sweep t selected now).1 k now.
Proof.
  intros Hk. assert (Hrow : forall k', selected k' = true ->
    (sweep t selected now).1 !! k' = current t k' now).
  { intros k' Hs. rewrite sweep_rows, Hs. unfold current. destruct (t !! k') as [b|]; [|done].
    simpl. destruct (eqb (cb_state b) breaker_open) eqn:E; [done|].
    apply eqb_false in E. unfold close_expired. by rewrite closed_not_expired. }
  split.
  - rewrite sweep_open, Hk. unfold cooling. destruct (t !! k) as [b|]; simpl.
    + destruct (_ && _); split; try done; try (by eauto); by intros [? ?].
    + by split; [intros [? ?]|].
  - split; [by apply Hrow|]. intros k'. destruct (selected k') eqn:E; [right; by apply Hrow|left].
    rewrite sweep_rows, E. by destruct (t !! k').
Qed.

(** The pairs a read for several pairs asks about. *)
Lemma pairs_spec (t : Breakers) (pairs : list (string * string)) (now : Z) (p m : string) :
  strip p <> "" -> strip m <> "" -> (p, m) ∈ pairs ->
  exists selected, open_breakers_for_pairs t pairs now = sweep t selected now /\
                   selected (strip p, strip m) = true.
Proof.
  intros Hp Hm Hin. unfold open_breakers_for_pairs.
  assert (Hk : (strip p, strip m) ∈ List.filter (fun p => negb (eqb p.1 "") && negb (eqb p.2 ""))
    (map (fun p => (strip p.1, strip p.2)) pairs)).
  { apply elem_of_bfilter. split.
    - cbn [fst snd]. by rewrite (proj2 (eqb_false _ _) Hp), (proj2 (eqb_false _ _) Hm).
    - apply list_elem_of_fmap. by exists (p, m). }
  destruct (List.filter _ _) as [|n ns]; [by apply elem_of_nil in Hk|].
  eexists. split; [done|]. cbv beta. by apply mem_true.
Qed.

(** ** Properties *)

(** The reads agree: at any instant the suppression test, the row read, the
    read for several pairs and the listing all answer whether the pair's breaker
    is open with a cooldown that is not over; each leaves the pair's row as the
    reset makes it and every other row as it was or reset. *)
Theorem breaker_reads_agree (t : Breakers) (now : Z) (pairs : list (string * string))
    (p m : string) :
  strip p <> "" -> strip m <> "" -> (p, m) ∈ pairs ->
  let k := (strip p, strip m) in
  (cooling t k now = true <-> exists b, t !! k = Some b /\ cb_state b = breaker_open /\
     forall until, cb_cooldown_until b = Some until -> now < until) /\
  (is_suppressed t k.1 k.2 now).2 = cooling t k now /\
  (is_Some (open_breaker t k.1 k.2 now).2 <-> cooling t k now = true) /\
  (is_Some ((open_breakers_for_pairs t pairs now).2 !! k) <-> cooling t k now = true) /\
  (is_Some ((list_open t now).2 !! k) <-> cooling t k now = true) /\
  Forall (fun t' => refreshed t t' k now)
    [(is_suppressed t k.1 k.2 now).1; (open_breaker t k.1 k.2 now).1;
     (open_breakers_for_pairs t pairs now).1; (list_open t now).1].
Proof.
  intros Hp Hm Hin. cbv zeta. destruct (pairs_spec t pairs now p m Hp Hm Hin) as (sel & -> & Hsel).
  destruct (is_suppressed_spec t (strip p) (strip m) now) as [H1 R1].
  destruct (open_breaker_spec t (strip p) (strip m) now) as [H2 R2].
  destruct (sweep_spec t sel now _ Hsel) as [H3 R3].
  destruct (sweep_spec t (fun _ => true) now (strip p, strip m) eq_refl) as [H4 R4].
  split_and!; try done; [|do 4 (constructor; [done|]); constructor].
  unfold cooling. destruct (t !! (strip p, strip m)) as [b|]; [|by split; [|intros (? & ? & _)]].
  rewrite andb_true_iff, negb_true_iff, eqb_true. split.
  - intros [Ho He]. exists b. split_and!; try done. intros u Hu.
    unfold circuit_breaker_expired in He. rewrite Ho, Hu in He. by apply Z.leb_gt.
  - intros (b' & [= <-] & Ho & Hu). split; [done|]. unfold circuit_breaker_expired. rewrite Ho.
    destruct (cb_cooldown_until b); [|done]. apply Z.leb_gt. by apply Hu.
Qed.

(** Failures of one pair in a row, oldest first. *)
Definition record_failures (t : Breakers) (provider model : string) (f : Failure)
    (threshold cooldown : Z) (times : list Z) : Breakers :=
  fold_left (fun t now => record_failure t provider model f now threshold cooldown) times t.

Lemma record_counts (t : Breakers) (provider model : string) (f : Failure)
    (threshold cooldown : Z) (times : list Z) (b : Breaker) :
  t !! (strip provider, strip model) = Some b -> cb_state b = breaker_closed ->
  cb_cooldown_until b = None ->
  cb_failure_count b + Z.of_nat (length times) < Z.max 1 threshold ->
  exists b', record_failures t provider model f threshold cooldown times
               !! (strip provider, strip model) = Some b' /\
    cb_state b' = breaker_closed /\ cb_cooldown_until b' = None /\
    cb_failure_count b' = cb_failure_count b + Z.of_nat (length times).
Proof.
  revert t b. induction times as [|now times IH]; intros t b Hb Hs Hc Hlt; simpl.
  - exists b. split_and!; try done. lia.
  - simpl in Hlt.
    assert (He : close_expired b now = b).
    { unfold close_expired. rewrite closed_not_expired; [done|by rewrite Hs]. }
    set (b1 := count_failure b f now threshold cooldown).
    assert (Hr : record_failure t provider model f now threshold cooldown
                 !! (strip provider, strip model) = Some b1).
    { unfold record_failure. rewrite Hb. simpl. by rewrite He, lookup_insert_eq. }
    assert (Ho : (Z.max 1 threshold <=? cb_failure_count b + 1) = false) by (apply Z.leb_gt; lia).
    destruct (IH _ b1 Hr) as (b' & Hb' & Hs' & Hc' & Hn).
    + subst b1. unfold count_failure. cbv zeta. by rewrite Ho.
    + subst b1. unfold count_failure. cbv zeta. by rewrite Ho.
    + subst b1. simpl. lia.
    + exists b'. split_and!; try done. rewrite Hn. subst b1. simpl. lia.
Qed.

(** A breaker trips exactly at its threshold: after fewer consecutive failures
    than the threshold (at least one) the pair is never suppressed, the failure
    that reaches it suppresses the pair from then on until the cooldown is over,
    and from then on the pair is free again. *)
Theorem breaker_trips (t : Breakers) (provider model : string) (f : Failure)
    (threshold cooldown : Z) (times : list Z) (now later : Z) :
  t !! (strip provider, strip model) = None ->
  Z.of_nat (length times) < Z.max 1 threshold ->
  let t1 := record_failures t provider model f threshold cooldown times in
  let t2 := record_failure t1 provider model f now threshold cooldown in
  cooling t1 (strip provider, strip model) later = false /\
  cooling t2 (strip provider, strip model) later =
    ((Z.of_nat (length times) + 1 =? Z.max 1 threshold) && (later <? now + 1000000 * Z.max 0 cooldown)).
Proof.
  intros Hn Hlt. cbv zeta. set (k := (strip provider, strip model)).
  assert (H1 : let b := default new_breaker (record_failures t provider model f threshold cooldown times !! k) in
    cb_state b = breaker_closed /\ cb_cooldown_until b = None /\
    cb_failure_count b = Z.of_nat (length times)).
  { cbv zeta. destruct times as [|now0 times]; [simpl; unfold k; rewrite Hn; done|].
    simpl in Hlt. set (b1 := count_failure new_breaker f now0 threshold cooldown).
    assert (Ho : (Z.max 1 threshold <=? 0 + 1) = false) by (apply Z.leb_gt; lia).
    destruct (record_counts (record_failure t provider model f now0 threshold cooldown) provider model f
      threshold cooldown times b1) as (b' & Hb' & Hs & Hc & Hcount).
    - unfold record_failure. rewrite Hn, lookup_insert_eq. done.
    - subst b1. unfold count_failure. cbv zeta. simpl cb_failure_count. by rewrite Ho.
    - subst b1. unfold count_failure. cbv zeta. simpl cb_failure_count. by rewrite Ho.
    - subst b1. simpl. lia.
    - unfold record_failures in *. simpl. fold k in Hb'. rewrite Hb'. simpl. split_and!; try done.
      rewrite Hcount. subst b1. simpl. lia. }
  set (t1 := record_failures _ _ _ _ _ _ _) in *. destruct H1 as (Hs & Hc & Hcount). split.
  - unfold cooling. destruct (t1 !! k) as [b|]; [|done]. simpl in Hs. by rewrite Hs.
  - unfold cooling, record_failure. fold k. rewrite lookup_insert_eq.
    assert (He : close_expired (default new_breaker (t1 !! k)) now = default new_breaker (t1 !! k)).
    { unfold close_expired. rewrite closed_not_expired; [done|by rewrite Hs]. }
    rewrite He. unfold count_failure. cbv zeta. rewrite Hs, Hc, Hcount. unfold circuit_breaker_expired.
    simpl. destruct (Z.leb_spec (Z.max 1 threshold) (Z.of_nat (length times) + 1)).
    + rewrite (proj2 (Z.eqb_eq _ _)) by lia. simpl. by rewrite Z.ltb_antisym.
    + by rewrite (proj2 (Z.eqb_neq _ _)) by lia.
Qed.

(** ** Instances *)

Definition sample_failure_report : Failure :=
  {| f_reason_code := "RATE_LIMIT"; f_fingerprint := "429"; f_workspace_id := Some "w";
     f_attempt_id := None |}.

Lemma breaker_trips_witness :
  cooling (record_failure
      (record_failures ∅ " openai" "o3" sample_failure_report 3 60 [10; 20])
      " openai" "o3" sample_failure_report 30 3 60) ("openai", "o3") 89 = true.
Proof.
  destruct (breaker_trips (∅ : Breakers) " openai" "o3" sample_failure_report 3 60 [10; 20] 30 89)
    as [_ H]; [vm_compute; reflexivity|vm_compute; reflexivity|].
  change ("openai", "o3")%string with (strip " openai", strip "o3"). rewrite H. vm_compute. reflexivity.
Defined.

Lemma breaker_reads_agree_witness :
  (is_suppressed (record_failure ∅ "openai" "o3" sample_failure_report 30 1 60) "openai" "o3" 80).2
  = cooling (record_failure ∅ "openai" "o3" sample_failure_report 30 1 60) ("openai", "o3") 80.
Proof.
  refine (proj1 (proj2 (breaker_reads_agree _ 80 [("openai", " o3 ")] "openai" " o3 " _ _ _)));
    first [by left | vm_compute; discriminate].
Defined.
