(* ===== verification/Recovery.v ===== *)
(** * Provider recovery

    [service/provider_recovery.py]: what to do when a model provider fails.  The
    budgets are read from the task policy, a JSON document, and every decision
    writes the state the next one reads back into it.  The metadata of a failure is
    that of [ProviderFailures]. *)

From S2P Require Import Prelude PyStr PyTime PyFloat PyVal Status ProviderFailures.
#[local] Open Scope Z_scope.
#[local] Set Warnings "-register-all".

Definition mapping_str (d : dict) (key : string) : option string :=
  match get d key with
  | VStr s => if eqb (strip s) "" then None else Some (strip s)
  | _ => None
  end.

Definition nonnegative_int (v : pyval) (default : Z) : Z :=
  match v with
  | VInt n => Z.max 0 n
  | VFloat x => match float_int x with Some n => Z.max 0 n | None => default end
  | _ => default
  end.

Definition positive_int (v : pyval) (default : Z) : Z :=
  let parsed := nonnegative_int v default in if 0 <? parsed then parsed else default.

Definition optional_positive_int (v : pyval) : option Z :=
  let parsed := nonnegative_int v 0 in if 0 <? parsed then Some parsed else None.

Definition nested_value (d : dict) (key nested_key : string) : pyval :=
  match get d key with VDict d' => get d' nested_key | _ => VNone end.

(** ** Agents and providers *)

Definition LAUNCH_AGENTS : list AgentRuntime :=
  [codex; claude_code; cursor; antigravity; opencode; grok].

Definition is_launchable_agent (agent : string) : bool :=
  match parse_agent_runtime agent with inl r => mem r LAUNCH_AGENTS | inr _ => false end.

Definition provider_for_agent_model (agent : string) (model : option string) : option string :=
  if mem agent ["cursor"; "antigravity"] then Some agent
  else match infer_provider model None with
       | Some p => Some p
       | None =>
           if eqb agent "codex" then Some "openai"
           else if eqb agent "claude_code" then Some "anthropic"
           else if eqb agent "opencode" then Some "opencode"
           else if eqb agent "grok" then Some "xai"
           else None
       end.

(** [DEFAULT_AGENT_DEFAULTS[AgentRuntime.codex].model] *)
Definition CODEX_DEFAULT_MODEL : string := "gpt-6.1-sol".

(** ** Policy and state *)

Definition PROVIDER_RECOVERY_POLICY_KEY : string := "provider_recovery".
Definition PROVIDER_RECOVERY_STATE_KEY : string := "provider_recovery_state".
Definition CURSOR_AUTO_MODE_POLICY_KEY : string := "cursor_auto_mode".
Definition PROVIDER_RETRY_DELAYED_REASON : string := "PROVIDER_RETRY_DELAYED".
Definition PROVIDER_FALLBACK_SELECTED_REASON : string := "PROVIDER_FALLBACK_SELECTED".
Definition PROVIDER_AUTH_FAILED : string := "PROVIDER_AUTH_FAILED".
Definition PROVIDER_RECOVERY_NO_LOOP_REASON : string := "REPEATED_PROVIDER_FAILURE_FINGERPRINT".
Definition NON_RETRYABLE_PROVIDER_FAILURE : string := "NON_RETRYABLE_PROVIDER_FAILURE".
Definition PROVIDER_RECOVERY_ATTEMPTS_EXHAUSTED : string := "PROVIDER_RECOVERY_ATTEMPTS_EXHAUSTED".
Definition UNSUPPORTED_AGENT_RUNTIME : string := "UNSUPPORTED_AGENT_RUNTIME".

Record FallbackTarget : Type := {
  ft_agent : string;
  ft_provider : option string;
  ft_model : string
}.

Record ProviderRecoveryPolicy : Type := {
  rp_fallbacks : list (option FallbackTarget);
  rp_has_explicit_fallbacks : bool;
  rp_max_fallback_attempts : Z;
  rp_max_same_provider_retries : Z;
  rp_cooldown_seconds : Z;
  rp_backoff_seconds : option Z;
  rp_retry_after_cap_seconds : Z;
  rp_circuit_breaker_failure_threshold : Z;
  rp_circuit_breaker_cooldown_seconds : Z
}.

Record ProviderRecoveryState : Type := {
  rs_failure_fingerprints : list string;
  rs_fallback_attempt_number : Z;
  rs_retry_attempt_number : Z;
  rs_launched_fallback_attempts : Z
}.

Definition fallback_target (item : pyval) : option FallbackTarget :=
  match item with
  | VDict d =>
      match mapping_str d "agent", mapping_str d "model" with
      | Some agent, Some model =>
          if is_launchable_agent agent then
            Some {| ft_agent := agent;
                    ft_provider := match mapping_str d "provider" with
                                   | Some p => Some p
                                   | None => provider_for_agent_model agent (Some model)
                                   end;
                    ft_model := model |}
          else None
      | _, _ => None
      end
  | _ => None
  end.

Definition fallback_targets (raw : pyval) : list (option FallbackTarget) :=
  match raw with VList l => map fallback_target l | _ => [] end.

(** [has_explicit_fallbacks] also holds, by [__post_init__], for a policy with
    fallbacks; here they only come from an explicit list. *)
Definition parse_provider_recovery_policy (task_policy : dict) : ProviderRecoveryPolicy :=
  let policy := as_mapping (get task_policy PROVIDER_RECOVERY_POLICY_KEY) in
  let raw_fallbacks := get policy "fallbacks" in
  let fallbacks := fallback_targets raw_fallbacks in
  {| rp_fallbacks := fallbacks;
     rp_has_explicit_fallbacks :=
       (has_key policy "fallbacks" && match raw_fallbacks with VList _ => true | _ => false end)
       || match fallbacks with [] => false | _ => true end;
     rp_max_fallback_attempts :=
       nonnegative_int (get policy "max_fallback_attempts") (Z.of_nat (length fallbacks));
     rp_max_same_provider_retries := nonnegative_int (get policy "max_same_provider_retries") 1;
     rp_cooldown_seconds := positive_int (get policy "cooldown_seconds") 300;
     rp_backoff_seconds := optional_positive_int (get policy "backoff_seconds");
     rp_retry_after_cap_seconds := positive_int (get policy "retry_after_cap_seconds") 3600;
     rp_circuit_breaker_failure_threshold :=
       positive_int (nested_value policy "circuit_breaker" "failure_threshold") 2;
     rp_circuit_breaker_cooldown_seconds :=
       positive_int (nested_value policy "circuit_breaker" "cooldown_seconds") 900 |}.

Definition parse_provider_recovery_state (task_policy : dict) : ProviderRecoveryState :=
  let state := as_mapping (get task_policy PROVIDER_RECOVERY_STATE_KEY) in
  let fallback_attempt_number := nonnegative_int (get state "fallback_attempt_number") 0 in
  {| rs_failure_fingerprints :=
       match get state "failure_fingerprints" with
       | VList l => omap (fun v => match v with VStr s => Some s | _ => None end) l
       | _ => []
       end;
     rs_fallback_attempt_number := fallback_attempt_number;
     rs_retry_attempt_number := nonnegative_int (get state "retry_attempt_number") 0;
     rs_launched_fallback_attempts :=
       match get state "launched_fallback_attempts" with
       | VNone => fallback_attempt_number
       | v => nonnegative_int v 0
       end |}.

(** ** The decision *)

Inductive RecoveryAction : Type := act_retry | act_fallback | act_terminal.

#[export] Instance RecoveryAction_eq_dec : EqDecision RecoveryAction.
Proof. solve_decision. Defined.

Definition action_value (a : RecoveryAction) : string :=
  match a with act_retry => "retry" | act_fallback => "fallback" | act_terminal => "terminal" end.

Record ProviderRecoveryDecision : Type := {
  rd_action : RecoveryAction;
  rd_retryable : bool;
  rd_not_before : option datetime;
  rd_target_agent : option string;
  rd_target_provider : option string;
  rd_target_model : option string;
  rd_reason_code : string;
  rd_terminal_reason : option string;
  rd_fallback_attempt_number : Z;
  rd_retry_attempt_number : Z;
  rd_launched_fallback_attempts : Z
}.

Definition is_auth_failure_metadata (metadata : dict) : bool :=
  eqb (mapping_str metadata "failure_type") (Some "auth")
  || eqb (mapping_str metadata "reason_code") (Some "AGENT_AUTH_FAILED").

Definition is_capacity_failure_metadata (metadata : dict) : bool :=
  eqb (mapping_str metadata "reason_code") (Some "AGENT_PROVIDER_CAPACITY_EXHAUSTED")
  || match mapping_str metadata "failure_type" with
     | Some t => mem t ["capacity"; "quota"; "usage_limit"]
     | None => false
     end.

Definition capacity_default_model (policy_model effective_default_model : option string)
  : option string :=
  match effective_default_model with
  | Some m => if eqb (strip m) "" then option_map (fun _ => CODEX_DEFAULT_MODEL) policy_model
              else Some (strip m)
  | None => option_map (fun _ => CODEX_DEFAULT_MODEL) policy_model
  end.

Definition default_capacity_fallback_target (metadata : dict) (policy : ProviderRecoveryPolicy)
    (state : ProviderRecoveryState) (current_agent : string)
    (current_model default_model : option string) : option FallbackTarget :=
  if rp_has_explicit_fallbacks policy then None
  else if 0 <? rs_launched_fallback_attempts state then None
  else if negb (eqb current_agent "codex") then None
  else if negb (is_capacity_failure_metadata metadata) then None
  else match default_model, current_model with
       | Some d, Some c =>
           if eqb c d then None
           else Some {| ft_agent := "codex"; ft_provider := provider_for_agent_model "codex" (Some d);
                        ft_model := d |}
       | _, _ => None
       end.

(** The loop from [index] on, over the rest of the list. *)
Fixpoint first_target (index : Z) (l : list (option FallbackTarget)) : option (FallbackTarget * Z) :=
  match l with
  | [] => None
  | Some t :: _ => Some (t, index)
  | None :: l' => first_target (index + 1) l'
  end.

(** [None] is the target; the index that comes with it is not used by the callers. *)
Definition select_fallback_target_with_index (policy : ProviderRecoveryPolicy)
    (state : ProviderRecoveryState) : option (FallbackTarget * Z) :=
  if rp_max_fallback_attempts policy <=? rs_launched_fallback_attempts state then None
  else first_target (rs_fallback_attempt_number state)
         (drop (Z.to_nat (rs_fallback_attempt_number state)) (rp_fallbacks policy)).

Definition retry_delay_seconds (metadata : dict) (policy : ProviderRecoveryPolicy)
    (state : ProviderRecoveryState) : Z :=
  let retry_after := Z.min (nonnegative_int (get metadata "retry_after_seconds") 0)
                       (rp_retry_after_cap_seconds policy) in
  let base := default (rp_cooldown_seconds policy) (rp_backoff_seconds policy) in
  let backoff := base * 2 ^ rs_retry_attempt_number state in
  Z.min (Z.max (rp_cooldown_seconds policy) (Z.max retry_after backoff))
    (rp_retry_after_cap_seconds policy).

Definition terminal_decision (reason : string) (state : ProviderRecoveryState)
  : ProviderRecoveryDecision :=
  {| rd_action := act_terminal; rd_retryable := false; rd_not_before := None;
     rd_target_agent := None; rd_target_provider := None; rd_target_model := None;
     rd_reason_code := reason; rd_terminal_reason := Some reason;
     rd_fallback_attempt_number := rs_fallback_attempt_number state;
     rd_retry_attempt_number := rs_retry_attempt_number state;
     rd_launched_fallback_attempts := rs_launched_fallback_attempts state |}.

Definition fallback_decision (t : FallbackTarget) (number launched : Z) : ProviderRecoveryDecision :=
  {| rd_action := act_fallback; rd_retryable := true; rd_not_before := None;
     rd_target_agent := Some (ft_agent t); rd_target_provider := ft_provider t;
     rd_target_model := Some (ft_model t); rd_reason_code := PROVIDER_FALLBACK_SELECTED_REASON;
     rd_terminal_reason := None; rd_fallback_attempt_number := number;
     rd_retry_attempt_number := 0; rd_launched_fallback_attempts := launched |}.

(** [now + timedelta(seconds=n)] *)
Definition plus_seconds (d : datetime) (n : Z) : datetime :=
  {| dt_us := dt_us d + us_per_second * n; dt_offset := dt_offset d |}.

Definition decide_provider_recovery (metadata task_policy : dict) (current_agent : string)
    (current_model : option string) (now : datetime) (effective_default_model : option string)
  : ProviderRecoveryDecision :=
  let policy := parse_provider_recovery_policy task_policy in
  let state := parse_provider_recovery_state task_policy in
  let policy_model := mapping_str task_policy "agent_model" in
  let fingerprint := mapping_str metadata "failure_fingerprint" in
  let provider := match mapping_str metadata "provider" with
                  | Some p => Some p
                  | None => provider_for_agent_model current_agent current_model
                  end in
  let model := match mapping_str metadata "model" with Some m => Some m | None => current_model end in
  let is_launchable := is_launchable_agent current_agent in
  let stop reason :=
    terminal_decision (if is_launchable then reason else UNSUPPORTED_AGENT_RUNTIME) state in
  if is_auth_failure_metadata metadata then stop PROVIDER_AUTH_FAILED
  else if negb (truthy (get metadata "retryable")) then stop NON_RETRYABLE_PROVIDER_FAILURE
  else if match fingerprint with
          | Some f => mem f (rs_failure_fingerprints state)
          | None => false
          end then stop PROVIDER_RECOVERY_NO_LOOP_REASON
  else
    match default_capacity_fallback_target metadata policy state current_agent model
            (capacity_default_model policy_model effective_default_model) with
    | Some t => fallback_decision t (rs_fallback_attempt_number state + 1)
                  (rs_launched_fallback_attempts state + 1)
    | None =>
        if is_launchable
           && (rs_retry_attempt_number state <? rp_max_same_provider_retries policy) then
          {| rd_action := act_retry; rd_retryable := true;
             rd_not_before := Some (plus_seconds now (retry_delay_seconds metadata policy state));
             rd_target_agent := Some current_agent; rd_target_provider := provider;
             rd_target_model := model; rd_reason_code := PROVIDER_RETRY_DELAYED_REASON;
             rd_terminal_reason := None;
             rd_fallback_attempt_number := rs_fallback_attempt_number state;
             rd_retry_attempt_number := rs_retry_attempt_number state + 1;
             rd_launched_fallback_attempts := rs_launched_fallback_attempts state |}
        else
          match select_fallback_target_with_index policy state with
          | Some (t, index) =>
              fallback_decision t (index + 1) (rs_launched_fallback_attempts state + 1)
          | None => stop PROVIDER_RECOVERY_ATTEMPTS_EXHAUSTED
          end
    end.

Definition has_approved_launchable_fallback (task_policy : dict) : bool :=
  match select_fallback_target_with_index (parse_provider_recovery_policy task_policy)
          (parse_provider_recovery_state task_policy) with
  | Some (t, _) => if eqb (ft_agent t) "" then false else is_launchable_agent (ft_agent t)
  | None => false
  end.

(** ** What a decision writes back *)

Definition updated_fingerprints (state : ProviderRecoveryState) (metadata : dict) : list string :=
  match mapping_str metadata "failure_fingerprint" with
  | Some f => if mem f (rs_failure_fingerprints state) then rs_failure_fingerprints state
              else rs_failure_fingerprints state ++ [f]
  | None => rs_failure_fingerprints state
  end.

(** The items whose value is not [None]. *)
Definition present (d : dict) : dict :=
  List.filter (fun p => match p.2 with VNone => false | _ => true end) d.

(** [should_recover_in_place]'s decision part and [in_place_recovery_task_policy]:
    the policy a retried workspace keeps. *)
Definition in_place_recovery_task_policy (task_policy metadata : dict)
    (decision : ProviderRecoveryDecision) (not_before : datetime) : dict :=
  let state := parse_provider_recovery_state task_policy in
  set_key task_policy PROVIDER_RECOVERY_STATE_KEY (VDict (present
    [("action", VStr "retry");
     ("recovery_scope", VStr "agent_run_in_place");
     ("decision_reason_code", VStr (rd_reason_code decision));
     ("source_reason_code", opt_str (mapping_str metadata "reason_code"));
     ("source_provider", opt_str (mapping_str metadata "provider"));
     ("source_model", opt_str (mapping_str metadata "model"));
     ("failure_fingerprints", VList (map VStr (updated_fingerprints state metadata)));
     ("fallback_attempt_number", VInt (rs_fallback_attempt_number state));
     ("retry_attempt_number", VInt (rd_retry_attempt_number decision));
     ("launched_fallback_attempts", VInt (rs_launched_fallback_attempts state));
     ("not_before", VStr (isoformat not_before));
     ("recommended_action", opt_str (mapping_str metadata "recommended_action"))])).

(** The attempt a recovery starts from: its id and task. *)
Record SourceAttempt : Type := { sa_id : string; sa_task_id : string }.

Definition recovery_task_policy (source_policy : dict) (source_workspace_id : string)
    (source_attempt : option SourceAttempt) (source_canonical_attempt : option string)
    (metadata : dict) (decision : ProviderRecoveryDecision) (not_before : option datetime) : dict :=
  let state := parse_provider_recovery_state source_policy in
  let state_not_before :=
    match not_before with Some d => Some d | None => rd_not_before decision end in
  set_key source_policy PROVIDER_RECOVERY_STATE_KEY (VDict (present (
    [("source_workspace_id", VStr source_workspace_id);
     ("source_attempt_id", opt_str (option_map sa_id source_attempt));
     ("source_task_id", opt_str (option_map sa_task_id source_attempt));
     ("source_canonical_attempt_id", opt_str source_canonical_attempt);
     ("source_reason_code", opt_str (mapping_str metadata "reason_code"));
     ("decision_reason_code", VStr (rd_reason_code decision));
     ("source_provider", opt_str (mapping_str metadata "provider"));
     ("source_model", opt_str (mapping_str metadata "model"));
     ("failure_fingerprints", VList (map VStr (updated_fingerprints state metadata)));
     ("fallback_attempt_number", VInt (rd_fallback_attempt_number decision));
     ("retry_attempt_number", VInt (rd_retry_attempt_number decision));
     ("launched_fallback_attempts", VInt (rd_launched_fallback_attempts decision));
     ("action", VStr (action_value (rd_action decision)));
     ("target_agent", opt_str (rd_target_agent decision));
     ("target_provider", opt_str (rd_target_provider decision));
     ("target_model", opt_str (rd_target_model decision));
     ("recommended_action",
        if eqb (rd_reason_code decision) UNSUPPORTED_AGENT_RUNTIME then VNone
        else opt_str (mapping_str metadata "recommended_action"))]
    ++ match state_not_before with
       | Some d => [("not_before", VStr (isoformat d))]
       | None => []
       end))).

Definition install_fixed_recovery_model (task_policy : dict) (target_model : string) : dict :=
  pop_key (set_key task_policy "agent_model" (VStr target_model)) CURSOR_AUTO_MODE_POLICY_KEY.
