(* ===== verification/Dispatch.v ===== *)
(** * Dispatching scheduler candidates

    [control/worker/scheduler_methods.py] with the decision rows of
    [control/worker/scheduling.py]: candidates whose provider is cooling down or whose
    circuit breaker is open are left out, and pages are read until the free slots
    are filled or the queue is exhausted.

    The clock is read once per page, so it is a function of the page number.  The
    rows do not change during a call, which runs in one session; the table holds the
    rows no other transaction has locked, and the claim cutoff of the monitoring
    status, which the code reads again for each page, is fixed with the query. *)

From S2P Require Import Prelude PyStr PyTime PyFloat PyVal Status Store Breaker Recovery.
From S2P Require Import Scheduler SchedulerQuery Capacity Admission.
#[local] Open Scope Z_scope.
#[local] Set Warnings "-register-all".

Definition PROVIDER_RECOVERY_NOT_BEFORE_REASON : string := "PROVIDER_RECOVERY_NOT_BEFORE".
Definition PROVIDER_MODEL_CIRCUIT_OPEN_REASON : string := "PROVIDER_MODEL_CIRCUIT_OPEN".
Definition SCHEDULER_PRIORITY_REFILL_PAGES_AFTER_FILL : nat := 1.

(** ** The model of a workspace *)

Inductive CursorAutoMode : Type := auto_cost | auto_balance | auto_intelligence.

Definition parse_cursor_auto_mode (value : string) : option CursorAutoMode :=
  if eqb value "cost" then Some auto_cost
  else if eqb value "balance" then Some auto_balance
  else if eqb value "intelligence" then Some auto_intelligence
  else None.

Definition CURSOR_AUTO_MODE_WIRE_VALUES (mode : CursorAutoMode) : string :=
  match mode with
  | auto_cost => "cost"
  | auto_balance => "balanced"
  | auto_intelligence => "intelligence"
  end.

Definition cursor_auto_mode_from_task_policy (task_policy : pyval) : option CursorAutoMode :=
  match task_policy with
  | VDict d =>
      match get d CURSOR_AUTO_MODE_POLICY_KEY with
      | VStr value => parse_cursor_auto_mode (strip value)
      | _ => None
      end
  | _ => None
  end.

Definition cursor_auto_model_selector (mode : CursorAutoMode) : string :=
  "auto-smart[optimize_for=" +:+ CURSOR_AUTO_MODE_WIRE_VALUES mode +:+ "]".

Definition agent_model_from_task_policy (task_policy : pyval) : option string :=
  match task_policy with
  | VDict d =>
      match cursor_auto_mode_from_task_policy task_policy with
      | Some mode => Some (cursor_auto_model_selector mode)
      | None =>
          match get d "agent_model" with
          | VStr value => if eqb (strip value) "" then None else Some (strip value)
          | _ => None
          end
      end
  | _ => None
  end.

(** The provider and model whose breaker a workspace depends on. *)
Definition circuit_pair (w : ScoredWorkspace) : option (string * string) :=
  let model := agent_model_from_task_policy (sw_task_policy w) in
  match provider_for_agent_model (sw_agent w) model, model with
  | Some p, Some m => Some (p, m)
  | _, _ => None
  end.

Section Dispatch.
Context (float_repr : float -> string) (fromisoformat : string -> option datetime).

Definition provider_cooldown_not_before (task_policy : pyval) : option datetime :=
  match get (as_mapping task_policy) PROVIDER_RECOVERY_STATE_KEY with
  | VDict raw =>
      match get raw "not_before" with
      | VStr text => option_map as_utc (fromisoformat text)
      | _ => None
      end
  | _ => None
  end.

(** The cooldown of a workspace, while it lasts. *)
Definition cooling_down (now : Z) (w : ScoredWorkspace) : option datetime :=
  match provider_cooldown_not_before (sw_task_policy w) with
  | Some not_before => if now <? instant not_before then Some not_before else None
  | None => None
  end.

Definition earliest_future_datetime (current candidate : option Z) (now : Z) : option Z :=
  match candidate with
  | None => current
  | Some t =>
      if t <=? now then current
      else match current with
           | Some c => if t <? c then Some t else Some c
           | None => Some t
           end
  end.

(** [_record_scheduler_queue_decision] with a suppression detail. *)
Definition record_scheduler_queue_decision (w : ScoredWorkspace) (reason_code : string)
    (decided_at : Z) (suppression_detail : dict) (context : CapacityQueueDecisionContext)
  : option QueueDecision :=
  match cx_attempt context with
  | None => None
  | Some (task_id, attempt_id) =>
      let latest := cx_latest_decision context in
      let score := scheduler_score_from_workspace fromisoformat w (utc decided_at) in
      Some {| qd_workspace_id := sw_id w; qd_task_id := task_id; qd_attempt_id := attempt_id;
              qd_decision := QUEUE_DECISION_DEFERRED; qd_reason_code := reason_code;
              qd_class_priority := ss_class_priority score;
              qd_computed_priority := ss_effective_score score;
              qd_age_boost := ss_age_boost score; qd_retry_bonus := ss_retry_bonus score;
              qd_resource_summary :=
                match latest with Some d => qd_resource_summary d | None => [] end;
              qd_overlap_risk_summary :=
                match latest with Some d => qd_overlap_risk_summary d | None => [] end;
              qd_score_summary := score_summary_with_suppression score reason_code suppression_detail;
              qd_decided_at := decided_at |}
  end.

(** ** The provider filter *)

Record FilterResult : Type := {
  fr_allowed : list WorkspaceRow;
  fr_resume_expires_at : option Z;
  fr_breakers : Breakers;
  fr_decisions : list QueueDecision
}.

Definition recorded (decision_candidate_limit : option nat) (index : nat) : bool :=
  match decision_candidate_limit with None => true | Some n => (index <? n)%nat end.

(** The circuit candidates: the rows that are not cooling down and have a pair. *)
Definition circuit_candidate (now : Z) (r : WorkspaceRow) : option (string * string) :=
  match cooling_down now (wr_scored r) with
  | Some _ => None
  | None => circuit_pair (wr_scored r)
  end.

Definition suppressed (now : Z) (open : gmap (string * string) Breaker) (r : WorkspaceRow) : bool :=
  match cooling_down now (wr_scored r) with
  | Some _ => true
  | None =>
      match circuit_pair (wr_scored r) with
      | Some pm => bool_decide (is_Some (open !! pm))
      | None => false
      end
  end.

Definition cooldown_decision (now : Z) (context : string -> CapacityQueueDecisionContext)
    (r : WorkspaceRow) : option QueueDecision :=
  match cooling_down now (wr_scored r) with
  | Some not_before =>
      record_scheduler_queue_decision (wr_scored r) PROVIDER_RECOVERY_NOT_BEFORE_REASON now
        [("not_before", VStr (isoformat not_before))] (context (wr_id r))
  | None => None
  end.

Definition json_datetime (value : option Z) : pyval :=
  match value with Some t => VStr (isoformat (utc t)) | None => VNone end.

Definition circuit_decision (now : Z) (open : gmap (string * string) Breaker)
    (context : string -> CapacityQueueDecisionContext) (r : WorkspaceRow)
  : option QueueDecision :=
  match circuit_candidate now r with
  | Some pm =>
      match open !! pm with
      | Some breaker =>
          record_scheduler_queue_decision (wr_scored r) PROVIDER_MODEL_CIRCUIT_OPEN_REASON now
            [("provider", VStr pm.1); ("model", VStr pm.2);
             ("cooldown_until", json_datetime (cb_cooldown_until breaker))] (context (wr_id r))
      | None => None
      end
  | None => None
  end.

(** The decisions of one pass over the rows, for the first [limit] of them. *)
Definition decisions_of (decision : WorkspaceRow -> option QueueDecision) (limit : option nat)
    (rows : list WorkspaceRow) : list QueueDecision :=
  omap id (imap (fun i r => if recorded limit i then decision r else None) rows).

Definition filter_provider_recovery_suppressed (breakers : Breakers) (now : Z)
    (context : string -> CapacityQueueDecisionContext) (limit : option nat)
    (rows : list WorkspaceRow) : FilterResult :=
  match rows with
  | [] => {| fr_allowed := []; fr_resume_expires_at := None; fr_breakers := breakers;
             fr_decisions := [] |}
  | _ :: _ =>
      let '(breakers', open) :=
        open_breakers_for_pairs breakers (omap (circuit_candidate now) rows) now in
      let expiry :=
        fold_left (fun e r => earliest_future_datetime e (instant <$> cooling_down now (wr_scored r)) now)
          rows None in
      let expiry :=
        fold_left (fun e r =>
                     earliest_future_datetime e
                       (b ← (p ← circuit_candidate now r; open !! p); cb_cooldown_until b) now)
          rows expiry in
      {| fr_allowed := List.filter (fun r => negb (suppressed now open r)) rows;
         fr_resume_expires_at := expiry; fr_breakers := breakers';
         fr_decisions := decisions_of (cooldown_decision now context) limit rows
                         ++ decisions_of (circuit_decision now open context) limit rows |}
  end.

(** [_filter_scheduler_candidate_workspaces_with_result] *)
Definition filter_scheduler_candidate_workspaces (breakers : Breakers) (now : Z)
    (context : string -> CapacityQueueDecisionContext) (decision_limit : option nat)
    (scoring_at : Z) (limit : nat) (rows : list WorkspaceRow) : FilterResult :=
  let result := filter_provider_recovery_suppressed breakers now context decision_limit rows in
  {| fr_allowed := take limit (order_scheduler_workspaces fromisoformat scoring_at
                                 (fr_allowed result));
     fr_resume_expires_at := fr_resume_expires_at result; fr_breakers := fr_breakers result;
     fr_decisions := fr_decisions result |}.

(** ** The pages *)

Record DispatchState : Type := {
  ds_found : list WorkspaceRow;
  ds_breakers : Breakers;
  ds_decisions : list QueueDecision
}.

(** [setdefault]: a workspace found on an earlier page keeps its place. *)
Definition set_default (found : list WorkspaceRow) (r : WorkspaceRow) : list WorkspaceRow :=
  if existsb (fun x => eqb (wr_id x) (wr_id r)) found then found else found ++ [r].

Context (db : Db) (table : list WorkspaceRow) (q : ScheduleQuery) (limit : nat).
Context (scoring_at : Z) (clock : nat -> Z) (context : string -> CapacityQueueDecisionContext).

Definition page_after (after : option SchedulerOrderCursor) : list WorkspaceRow :=
  list_schedulable_workspaces float_repr fromisoformat db table q
    (scheduler_candidate_fetch_limit limit) after scoring_at.

(** What one page adds. *)
Definition dispatch_page (page : nat) (st : DispatchState) (workspaces : list WorkspaceRow)
  : DispatchState :=
  let remaining := (limit - length (ds_found st))%nat in
  let result :=
    filter_scheduler_candidate_workspaces (ds_breakers st) (clock page) context None scoring_at
      (if (0 <? remaining)%nat then remaining else limit) workspaces in
  {| ds_found := fold_left set_default (fr_allowed result) (ds_found st);
     ds_breakers := fr_breakers result;
     ds_decisions := ds_decisions st ++ fr_decisions result |}.

(** [priority_refill_pages_remaining] after a page, or the end of the loop. *)
Definition refill_after (found : nat) (refill : option nat) : option (option nat) :=
  if (limit <=? found)%nat then
    match default SCHEDULER_PRIORITY_REFILL_PAGES_AFTER_FILL refill with
    | O => None
    | S n => Some (Some n)
    end
  else Some refill.

(** [_list_scheduler_dispatchable_ids_from_pages]; [None] is out of fuel. *)
Fixpoint dispatch_from (fuel page : nat) (after : option SchedulerOrderCursor)
    (refill : option nat) (st : DispatchState) : option DispatchState :=
  match fuel with
  | O => None
  | S fuel' =>
      let workspaces := page_after after in
      match workspaces with
      | [] => Some st
      | _ :: _ =>
          let st' := dispatch_page page st workspaces in
          if (length workspaces <? scheduler_candidate_fetch_limit limit)%nat then Some st'
          else
            match refill_after (length (ds_found st')) refill with
            | None => Some st'
            | Some refill' =>
                dispatch_from fuel' (S page)
                  (scheduler_candidate_cursor fromisoformat workspaces scoring_at) refill' st'
            end
      end
  end.

Definition list_scheduler_dispatchable_ids (fuel : nat) (breakers : Breakers)
  : option (list string * DispatchState) :=
  match dispatch_from fuel O None None {| ds_found := []; ds_breakers := breakers;
                                          ds_decisions := [] |} with
  | None => None
  | Some st =>
      Some (map wr_id (take limit (order_scheduler_workspaces fromisoformat scoring_at
                                     (ds_found st))), st)
  end.
End Dispatch.
