(* ===== verification/DispatchFacts.v ===== *)
(** * The candidates a dispatch finds

    The pages of the candidate query cut the sorted queue into consecutive pieces;
    the loop of [Dispatch] over them returns the first candidates of the queue that
    are not suppressed. *)

From S2P Require Import Prelude PyStr PyTime PyFloat PyVal Status Store Claims Breaker.
From S2P Require Import ProviderFailures Recovery Scheduler SchedulerQuery SchedulerAgree.
From S2P Require Import Capacity Admission.
From S2P Require Import Dispatch.
#[local] Open Scope Z_scope.

(** ** Lists *)

Lemma bfilter_app {A : Type} (p : A -> bool) (l k : list A) :
  List.filter p (l ++ k) = List.filter p l ++ List.filter p k.
Proof. apply List.filter_app. Qed.

Section Queue.
Context (float_repr : float -> string) (fromisoformat : string -> option datetime).
Context (db : Db) (table : list WorkspaceRow) (q : ScheduleQuery) (scoring_at : Z).
Context (ids_unique : NoDup (map wr_id table)).

Let key (r : WorkspaceRow) : OrderKey := sql_order_key float_repr scoring_at r.

Lemma workspace_row_unique (x y : WorkspaceRow) : x ∈ table -> y ∈ table -> wr_id x = wr_id y -> x = y.
Proof.
  intros Hx Hy E. apply list_elem_of_lookup in Hx as (i & Hi), Hy as (j & Hj).
  assert (i = j) as ->; [|congruence].
  apply (NoDup_lookup (map wr_id table) _ _ (wr_id x)); [done|..]; rewrite list_lookup_fmap.
  - by rewrite Hi.
  - by rewrite Hj, E.
Qed.

Lemma sql_leb_total (x y : WorkspaceRow) :
  sql_leb float_repr scoring_at x y = true \/ sql_leb float_repr scoring_at y x = true.
Proof. apply order_key_leb_total. Qed.

Lemma sql_leb_trans (x y z : WorkspaceRow) :
  sql_leb float_repr scoring_at x y = true -> sql_leb float_repr scoring_at y z = true ->
  sql_leb float_repr scoring_at x z = true.
Proof. apply order_key_leb_trans. Qed.

Lemma sql_leb_antisym (x y : WorkspaceRow) :
  x ∈ table -> y ∈ table -> sql_leb float_repr scoring_at x y = true ->
  sql_leb float_repr scoring_at y x = true -> x = y.
Proof.
  intros Hx Hy H1 H2. apply workspace_row_unique; [done..|].
  pose proof (order_key_leb_antisym _ _ H1 H2) as E. by injection E.
Qed.

(** All candidates of the query, in order. *)
Definition queue : list WorkspaceRow :=
  sorted_by (sql_leb float_repr scoring_at) (List.filter (schedulable db q) table).

Lemma elem_of_queue (r : WorkspaceRow) : r ∈ queue <-> r ∈ table /\ schedulable db q r = true.
Proof. unfold queue. rewrite elem_of_sorted_by, elem_of_bfilter. tauto. Qed.

Lemma queue_sorted :
  StronglySorted (fun x y => sql_leb float_repr scoring_at x y = true) queue.
Proof. apply sorted_by_sorted; [apply sql_leb_total|apply sql_leb_trans]. Qed.

Lemma queue_NoDup : NoDup (map wr_id queue).
Proof.
  unfold queue. rewrite (sorted_by_perm _ _).
  eapply sublist_NoDup; [exact ids_unique|]. apply sublist_map, bfilter_sublist.
Qed.

(** ** Pages *)

(** A cursor made from a row, whatever the two scores it carries. *)
Definition cursor_of (c : WorkspaceRow) (cur : SchedulerOrderCursor) : Prop :=
  sc_workspace_id cur = wr_id c /\ instant (sc_queued_at cur) = wr_created_at c /\
  instant (sc_scoring_at cur) = scoring_at.

Lemma candidate_cursor (l : list WorkspaceRow) (c : WorkspaceRow) :
  last l = Some c ->
  exists cur, scheduler_candidate_cursor fromisoformat l scoring_at = Some cur /\ cursor_of c cur.
Proof.
  intros Hl. unfold scheduler_candidate_cursor. rewrite Hl. eexists. split; [done|].
  assert (Hu : forall t, instant (utc t) = t)
    by (intros t; unfold instant, utc; cbn [dt_us dt_offset from_option id default]; lia).
  split_and!; [done| |apply Hu].
  cbn -[instant]. unfold wr_created_at. rewrite <- (Hu (sw_created_at (wr_scored c))) at 2.
  unfold as_utc, instant, astimezone_utc, utc. cbn. lia.
Qed.

Lemma find_row (c : WorkspaceRow) :
  c ∈ table -> List.find (fun r => eqb (wr_id r) (wr_id c)) table = Some c.
Proof.
  intros Hc. destruct (List.find _ table) as [d|] eqn:E.
  - apply List.find_some in E as [Hd E]. rewrite eqb_true in E. f_equal.
    apply workspace_row_unique; [by apply list_elem_of_In|done..].
  - apply list_elem_of_In in Hc. pose proof (List.find_none _ _ E c Hc) as H. cbv beta in H.
    by rewrite eqb_refl in H.
Qed.

(** The cursor's condition is: strictly after the row in the order of the query. *)
Lemma after_cursor_key (c r : WorkspaceRow) (cur : SchedulerOrderCursor) :
  c ∈ table -> cursor_of c cur ->
  after_cursor float_repr table scoring_at cur r = order_key_ltb (key c) (key r).
Proof.
  intros Hc (Hid & Hq & Hs). unfold after_cursor, cursor_order_expressions.
  rewrite Hid, Hq, Hs, (find_row c Hc). unfold key, sql_order_key, order_key_ltb, str_ltb.
  cbn [order_key_leb].
  destruct (scheduler_order_expressions float_repr scoring_at (wr_scored c)) as [p e].
  destruct (scheduler_order_expressions float_repr scoring_at (wr_scored r)) as [p' e'].
  cbn [oe_class_priority oe_effective_score]. destruct (str_leb (wr_id r) (wr_id c)); lia.
Qed.

(** What follows a row in the queue is what comes after its cursor. *)
Lemma queue_after (pre post : list WorkspaceRow) (c : WorkspaceRow) :
  queue = pre ++ c :: post ->
  List.filter (fun r => order_key_ltb (key c) (key r)) queue = post.
Proof.
  intros E. pose proof queue_sorted as Hs. pose proof queue_NoDup as Hn. rewrite E in *.
  assert (Hdist : forall r, r ∈ pre ++ post -> key r <> key c).
  { intros r Hr Ek. assert (wr_id r = wr_id c) as Eid by (by injection Ek).
    rewrite map_app in Hn. simpl in Hn. rewrite <- Permutation_middle in Hn.
    apply NoDup_cons in Hn as [Hn _]. apply Hn. rewrite <- Eid, <- map_app.
    by apply list_elem_of_fmap_2. }
  rewrite bfilter_app. simpl.
  replace (order_key_ltb (key c) (key c)) with false
    by (symmetry; apply not_true_iff_false; rewrite order_key_ltb_spec; tauto).
  apply StronglySorted_app in Hs as (Hord & _ & Hs). apply StronglySorted_inv in Hs as [_ Hpost].
  rewrite (proj2 (bfilter_nil _ _)), bfilter_id; [done| |].
  - intros r Hr. apply order_key_ltb_spec. split.
    + exact (proj1 (Forall_forall _ _) Hpost r Hr).
    + intros Ek. eapply Hdist; [|symmetry; exact Ek]. rewrite elem_of_app. tauto.
  - intros r Hr. apply not_true_iff_false. rewrite order_key_ltb_spec. intros [H1 H2].
    apply H2. apply order_key_leb_antisym; [done|]. apply (Hord r c Hr), list_elem_of_here.
Qed.

(** Where the reading of the queue stands: at the start, or after a row's cursor. *)
Definition reading_at (after : option SchedulerOrderCursor) (pre : list WorkspaceRow) : Prop :=
  match after with
  | None => pre = []
  | Some cur => exists c pre', cursor_of c cur /\ pre = pre' ++ [c]
  end.

Lemma candidates_at (pre post : list WorkspaceRow) (after : option SchedulerOrderCursor) (n : nat) :
  queue = pre ++ post -> reading_at after pre ->
  list_schedulable_candidates float_repr db table q n after scoring_at = take n post.
Proof.
  intros Hq Hat. unfold list_schedulable_candidates. f_equal. destruct after as [cur|]; simpl in Hat.
  - destruct Hat as (c & pre' & Hc & ->). rewrite <- app_assoc in Hq. simpl in Hq.
    rewrite <- (queue_after _ _ _ Hq). unfold queue. rewrite <- sorted_by_filter.
    + f_equal. rewrite bfilter_twice. apply List.filter_ext. intros r. f_equal.
      assert (c ∈ queue) as Hin by (rewrite Hq, elem_of_app; right; apply list_elem_of_here).
      apply after_cursor_key; [by apply elem_of_queue in Hin as [? _]|done].
    + apply sql_leb_total.
    + apply sql_leb_trans.
    + intros x y Hx Hy. apply elem_of_bfilter in Hx as [_ Hx], Hy as [_ Hy]. by apply sql_leb_antisym.
  - subst pre. simpl in Hq. rewrite <- Hq. unfold queue. f_equal. apply List.filter_ext.
    intros r. apply andb_true_r.
Qed.

Lemma page_perm (pre post : list WorkspaceRow) (after : option SchedulerOrderCursor) (n : nat) :
  queue = pre ++ post -> reading_at after pre ->
  list_schedulable_workspaces float_repr fromisoformat db table q n after scoring_at
  ≡ₚ take n post.
Proof.
  intros Hq Hat. unfold list_schedulable_workspaces. destruct (Nat.eqb_spec n 0) as [->|Hn]; [done|].
  unfold sort_schedulable_workspaces. rewrite (candidates_at _ _ _ _ Hq Hat), take_ge.
  - apply sorted_by_perm.
  - rewrite (sorted_by_perm _ _), length_take. lia.
Qed.

(** After a page the reading stands behind its last row, and further on. *)
Lemma page_advances (pre post : list WorkspaceRow) (after : option SchedulerOrderCursor) (n : nat) :
  let page := list_schedulable_workspaces float_repr fromisoformat db table q n after scoring_at in
  queue = pre ++ post -> reading_at after pre -> page <> [] ->
  exists pre' post', queue = pre' ++ post' /\ (length post' < length post)%nat /\
    reading_at (scheduler_candidate_cursor fromisoformat page scoring_at) pre'.
Proof.
  cbv zeta. intros Hq Hat Hne. pose proof (page_perm pre post after n Hq Hat) as Hp.
  destruct (last (list_schedulable_workspaces float_repr fromisoformat db table q n after
                    scoring_at)) as [c|] eqn:El; [|by apply last_None in El].
  destruct (candidate_cursor _ _ El) as (cur & -> & Hcur).
  assert (Hc : c ∈ post).
  { apply (sublist_subseteq (take n post)); [apply sublist_take|]. rewrite <- Hp.
    by apply last_Some_elem_of. }
  apply list_elem_of_split in Hc as (p1 & p2 & ->).
  exists (pre ++ p1 ++ [c]), p2. split_and!.
  - by rewrite Hq, <- !app_assoc.
  - rewrite length_app. simpl. lia.
  - exists c, (pre ++ p1). by rewrite app_assoc.
Qed.
End Queue.

(** ** Suppression *)

(** What keeps a row from being dispatched at [now]: its cooldown, or the breaker of
    its provider and model. *)
Definition held_back (fromisoformat : string -> option datetime) (breakers : Breakers) (now : Z)
    (r : WorkspaceRow) : bool :=
  match cooling_down fromisoformat now (wr_scored r) with
  | Some _ => true
  | None =>
      match circuit_pair (wr_scored r) with
      | Some pm => Breaker.cooling breakers pm now
      | None => false
      end
  end.

Definition PROVIDERS : list string :=
  ["cursor"; "antigravity"; "google"; "anthropic"; "ollama"; "opencode"; "xai"; "openai"].

Lemma provider_known (agent : string) (model : option string) (p : string) :
  provider_for_agent_model agent model = Some p -> p ∈ PROVIDERS.
Proof.
  unfold provider_for_agent_model, infer_provider. intros H.
  repeat case_in H; try discriminate H; simplify_eq; try (apply mem_true; reflexivity).
  match goal with H : mem p _ = true |- _ => apply mem_true in H end. set_solver.
Qed.

Lemma agent_model_plain (policy : pyval) (m : string) :
  agent_model_from_task_policy policy = Some m -> strip m = m /\ m <> "".
Proof.
  unfold agent_model_from_task_policy. intros H.
  destruct policy; try discriminate H. destruct (cursor_auto_mode_from_task_policy _) as [[]|];
    [injection H as <-; by vm_compute..|].
  destruct (get _ _) as [|?|?|?|text|?|?]; try discriminate H.
  destruct (eqb (strip text) "") eqn:E; [done|]. injection H as <-. apply eqb_false in E.
  split; [apply strip_twice|done].
Qed.

Lemma circuit_pair_plain (w : ScoredWorkspace) (p m : string) :
  circuit_pair w = Some (p, m) -> strip p = p /\ strip m = m /\ p <> "" /\ m <> "".
Proof.
  unfold circuit_pair. destruct (agent_model_from_task_policy (sw_task_policy w)) as [m'|] eqn:Em;
    [|by destruct (provider_for_agent_model _ _)].
  destruct (provider_for_agent_model _ _) as [p'|] eqn:Ep; [|done]. intros [= -> ->].
  destruct (agent_model_plain _ _ Em) as [Hm Hm0]. apply provider_known in Ep.
  assert (H : forallb (fun p => eqb (strip p) p && negb (eqb p "")) PROVIDERS = true) by done.
  pose proof (proj1 (forallb_elem _ _) H p Ep) as Hp. cbv beta in Hp. bool_simpl.
  rewrite eqb_true in *. by apply eqb_false in H1.
Qed.

Lemma expired_later (b : Breaker) (now later : Z) :
  now <= later -> circuit_breaker_expired b now = true -> circuit_breaker_expired b later = true.
Proof.
  intros Hle. unfold circuit_breaker_expired. destruct (cb_state b); try done.
  destruct (cb_cooldown_until b); [|done]. lia.
Qed.

(** Closing the expired breakers does not change what cools down later. *)
Lemma sweep_keeps_cooling (t : Breakers) (selected : string * string -> bool) (now later : Z)
    (k : string * string) :
  now <= later -> Breaker.cooling (sweep t selected now).1 k later = Breaker.cooling t k later.
Proof.
  intros Hle. unfold Breaker.cooling. rewrite sweep_rows. destruct (t !! k) as [b|]; [|done]. simpl.
  destruct (selected k && eqb (cb_state b) breaker_open) eqn:Es; [|done]. unfold close_expired.
  destruct (circuit_breaker_expired b now) eqn:E; [|done].
  rewrite (expired_later b now later Hle E), andb_false_r. done.
Qed.

Lemma read_keeps_cooling (t : Breakers) (pairs : list (string * string)) (now later : Z)
    (k : string * string) :
  now <= later ->
  Breaker.cooling (open_breakers_for_pairs t pairs now).1 k later = Breaker.cooling t k later.
Proof.
  intros Hle. unfold open_breakers_for_pairs. destruct (List.filter _ _); [done|].
  by apply sweep_keeps_cooling.
Qed.

Lemma held_back_cooling (fromisoformat : string -> option datetime) (t t' : Breakers) (now : Z)
    (r : WorkspaceRow) :
  (forall k, Breaker.cooling t' k now = Breaker.cooling t k now) ->
  held_back fromisoformat t' now r = held_back fromisoformat t now r.
Proof. intros H. unfold held_back. by repeat case_goal. Qed.

Section Filter.
Context (fromisoformat : string -> option datetime).

Lemma suppressed_held (t : Breakers) (now : Z) (rows : list WorkspaceRow) (r : WorkspaceRow) :
  r ∈ rows ->
  suppressed fromisoformat now
    (open_breakers_for_pairs t (omap (circuit_candidate fromisoformat now) rows) now).2 r =
  held_back fromisoformat t now r.
Proof.
  intros Hr. unfold suppressed, held_back.
  destruct (cooling_down fromisoformat now (wr_scored r)) eqn:Ec; [done|].
  destruct (circuit_pair (wr_scored r)) as [[p m]|] eqn:Ep; [|done].
  destruct (circuit_pair_plain _ _ _ Ep) as (Hp & Hm & Hp0 & Hm0).
  assert (Hin : (p, m) ∈ omap (circuit_candidate fromisoformat now) rows).
  { apply list_elem_of_omap. exists r. split; [done|]. unfold circuit_candidate. by rewrite Ec. }
  destruct (pairs_spec t _ now p m ltac:(by rewrite Hp) ltac:(by rewrite Hm) Hin) as (sel & -> & Hsel).
  rewrite Hp, Hm in Hsel. destruct (sweep_spec t sel now _ Hsel) as [H _].
  destruct (Breaker.cooling t (p, m) now).
  - apply bool_decide_eq_true. by apply H.
  - apply bool_decide_eq_false. by rewrite H.
Qed.

(** The filter keeps the rows not held back, in order, within the limit. *)
Lemma filter_allowed (t : Breakers) (now : Z) (context : string -> CapacityQueueDecisionContext)
    (decisions : option nat) (scoring_at : Z) (limit : nat) (rows : list WorkspaceRow) :
  fr_allowed (filter_scheduler_candidate_workspaces fromisoformat t now context decisions
                scoring_at limit rows) =
  take limit (order_scheduler_workspaces fromisoformat scoring_at
                (List.filter (fun r => negb (held_back fromisoformat t now r)) rows)).
Proof.
  unfold filter_scheduler_candidate_workspaces. cbn [fr_allowed]. do 2 f_equal.
  destruct rows as [|r0 rows]; [done|]. unfold filter_provider_recovery_suppressed.
  pose proof (suppressed_held t now (r0 :: rows)) as Hs.
  destruct (open_breakers_for_pairs t _ now) as [t' open] eqn:E. cbn [fr_allowed snd] in *.
  apply List.filter_ext_in. intros r Hr. f_equal. apply Hs, list_elem_of_In, Hr.
Qed.

Lemma filter_breakers (t : Breakers) (now later : Z)
    (context : string -> CapacityQueueDecisionContext) (decisions : option nat) (scoring_at : Z)
    (limit : nat) (rows : list WorkspaceRow) (k : string * string) :
  now <= later ->
  Breaker.cooling (fr_breakers (filter_scheduler_candidate_workspaces fromisoformat t now context
                                  decisions scoring_at limit rows)) k later =
  Breaker.cooling t k later.
Proof.
  intros Hle. unfold filter_scheduler_candidate_workspaces. cbn [fr_breakers].
  destruct rows as [|r0 rows]; [done|]. unfold filter_provider_recovery_suppressed.
  pose proof (read_keeps_cooling t (omap (circuit_candidate fromisoformat now) (r0 :: rows)) now
                later k Hle) as H.
  destruct (open_breakers_for_pairs t _ now) as [t' open] eqn:E. exact H.
Qed.
End Filter.

(** ** The loop *)

Section Loop.
Context (float_repr : float -> string) (fromisoformat : string -> option datetime).
Context (db : Db) (table : list WorkspaceRow) (q : ScheduleQuery) (limit : nat).
Context (scoring_at : Z) (clock : nat -> Z) (context : string -> CapacityQueueDecisionContext).
Context (breakers : Breakers).
Context (ids_unique : NoDup (map wr_id table)).

Let rows : list WorkspaceRow := queue float_repr db table q scoring_at.
Let page_of (after : option SchedulerOrderCursor) : list WorkspaceRow :=
  page_after float_repr fromisoformat db table q limit scoring_at after.
Let held (now : Z) (r : WorkspaceRow) : bool := held_back fromisoformat breakers now r.

(** What the loop may return: rows of the queue that some page found free. *)
Definition dispatchable (r : WorkspaceRow) : Prop :=
  r ∈ table /\ schedulable db q r = true /\ exists page, held (clock page) r = false.

Lemma set_default_spec (l found : list WorkspaceRow) (P : WorkspaceRow -> Prop) :
  Forall P l -> Forall P found -> NoDup (map wr_id found) ->
  Forall P (fold_left set_default l found) /\ NoDup (map wr_id (fold_left set_default l found)).
Proof.
  revert found. induction l as [|r l IH]; intros found Hl Hf Hn; simpl; [done|].
  apply Forall_cons in Hl as [Hr Hl]. unfold set_default at 2 4.
  destruct (existsb _ found) eqn:E; [by apply IH|]. apply IH; [done| |].
  - apply Forall_app. split; [done|by constructor].
  - rewrite map_app. apply NoDup_app. split_and!; [done| |by apply NoDup_singleton].
    intros id Hid Hin. apply list_elem_of_singleton in Hin as ->.
    apply list_elem_of_fmap in Hid as (x & Ex & Hx).
    pose proof (proj1 (existsb_none _ _) E x Hx) as H. cbv beta in H.
    by rewrite <- Ex, eqb_refl in H.
Qed.

Lemma set_default_fresh (l found : list WorkspaceRow) :
  NoDup (map wr_id (found ++ l)) -> fold_left set_default l found = found ++ l.
Proof.
  revert found. induction l as [|r l IH]; intros found Hn; simpl; [by rewrite app_nil_r|].
  assert (E : set_default found r = found ++ [r]).
  { unfold set_default. rewrite (proj2 (existsb_none _ _)); [done|]. intros x Hx.
    apply eqb_false. intros Ex. rewrite map_app in Hn. apply NoDup_app in Hn as (_ & Hn & _).
    apply (Hn (wr_id x)); [by apply list_elem_of_fmap_2|]. rewrite Ex. left. }
  rewrite E, IH; rewrite <- app_assoc; done.
Qed.

Lemma page_rows (pre post : list WorkspaceRow) (after : option SchedulerOrderCursor) :
  rows = pre ++ post -> reading_at scoring_at after pre ->
  Forall (fun r => r ∈ table /\ schedulable db q r = true) (page_of after).
Proof.
  intros Hq Hat. apply Forall_forall. intros r Hr. unfold page_of, page_after in Hr.
  rewrite (page_perm _ _ _ _ _ _ ids_unique pre post _ _ Hq Hat) in Hr.
  apply (elem_of_queue float_repr db table q scoring_at). fold rows. rewrite Hq, elem_of_app. right.
  by apply (sublist_subseteq _ post) in Hr; [|apply sublist_take].
Qed.

(** The state before page [page]. *)
Record sound_state (page : nat) (st : DispatchState) : Prop := {
  ss_rows : Forall dispatchable (ds_found st);
  ss_ids : NoDup (map wr_id (ds_found st));
  ss_breakers : forall k now, clock page <= now ->
    Breaker.cooling (ds_breakers st) k now = Breaker.cooling breakers k now
}.

Context (clock_forward : forall i j, (i <= j)%nat -> clock i <= clock j).

Let next (page : nat) (st : DispatchState) (ws : list WorkspaceRow) : DispatchState :=
  dispatch_page fromisoformat limit scoring_at clock context page st ws.

Lemma page_allowed (page : nat) (st : DispatchState) (n : nat) (ws : list WorkspaceRow) :
  sound_state page st ->
  fr_allowed (filter_scheduler_candidate_workspaces fromisoformat (ds_breakers st) (clock page)
                context None scoring_at n ws) =
  take n (order_scheduler_workspaces fromisoformat scoring_at
            (List.filter (fun r => negb (held (clock page) r)) ws)).
Proof.
  intros [_ _ Hb]. rewrite filter_allowed. do 2 f_equal. apply List.filter_ext. intros r.
  f_equal. apply held_back_cooling. intros k. apply Hb. lia.
Qed.

Lemma page_sound (page : nat) (st : DispatchState) (ws : list WorkspaceRow) :
  sound_state page st -> Forall (fun r => r ∈ table /\ schedulable db q r = true) ws ->
  sound_state (S page) (next page st ws).
Proof.
  intros Hst Hws. pose proof Hst as [Hr Hi Hb]. unfold next, dispatch_page.
  match goal with |- context [fr_allowed (filter_scheduler_candidate_workspaces _ _ _ _ _ _ ?n _)] =>
    set (k := n) end.
  pose proof (page_allowed page st k ws Hst) as Ha.
  destruct (set_default_spec
    (fr_allowed (filter_scheduler_candidate_workspaces fromisoformat (ds_breakers st) (clock page)
       context None scoring_at k ws)) (ds_found st) dispatchable) as [H1 H2]; [|done..|].
  - rewrite Ha. apply Forall_take. unfold order_scheduler_workspaces.
    rewrite (sorted_by_perm _ _). apply Forall_forall. intros r Hin.
    apply elem_of_bfilter in Hin as [Hh Hin]. apply negb_true_iff in Hh.
    destruct (proj1 (Forall_forall _ _) Hws r Hin). split_and!; [done..|by exists page].
  - constructor; [exact H1|exact H2|]. intros key now Hnow. cbn [ds_breakers].
    assert (clock page <= now) by (etrans; [apply clock_forward|exact Hnow]; lia).
    rewrite filter_breakers by done. by apply Hb.
Qed.

Lemma dispatch_from_ends (fuel page : nat) (after : option SchedulerOrderCursor)
    (refill : option nat) (st : DispatchState) (pre post : list WorkspaceRow) :
  rows = pre ++ post -> reading_at scoring_at after pre -> (length post < fuel)%nat ->
  sound_state page st ->
  exists st' page', dispatch_from float_repr fromisoformat db table q limit scoring_at clock context
    fuel page after refill st = Some st' /\ sound_state page' st'.
Proof.
  revert page after refill st pre post.
  induction fuel as [|fuel IH]; intros page after refill st pre post Hq Hat Hf Hst; [lia|].
  simpl. fold (page_of after).
  pose proof (page_rows pre post after Hq Hat) as Hrows.
  pose proof (page_advances float_repr fromisoformat _ _ _ _ ids_unique pre post after
    (scheduler_candidate_fetch_limit limit) Hq Hat) as Hadv. cbv zeta in Hadv.
  change (list_schedulable_workspaces _ _ _ _ _ _ _ _) with (page_of after) in Hadv.
  destruct (page_of after) as [|r0 ws] eqn:Ep; [by exists st, page|].
  pose proof (page_sound page st _ Hst Hrows) as Hnext. unfold next in Hnext.
  destruct (_ <? _)%nat; [by eexists _, _|]. destruct (refill_after _ _ _); [|by eexists _, _].
  destruct (Hadv ltac:(done)) as (pre' & post' & Hq' & Hlt & Hat').
  eapply IH; [exact Hq'|exact Hat'|lia|exact Hnext].
Qed.
End Loop.

(** Dispatching always ends, with fuel for one page per row of the table: each page
    continues strictly further in the queue, whatever the scores.  It returns
    at most [limit] different workspaces, each of them a row that matches the query and
    that, when its page was read, was neither cooling down nor behind an open
    breaker, although reading breakers also closes the expired ones. *)
Theorem dispatch_ends_soundly (float_repr : float -> string)
    (fromisoformat : string -> option datetime) (db : Db) (table : list WorkspaceRow)
    (q : ScheduleQuery) (limit : nat) (scoring_at : Z) (clock : nat -> Z)
    (context : string -> CapacityQueueDecisionContext) (breakers : Breakers) :
  NoDup (map wr_id table) -> (forall i j, (i <= j)%nat -> clock i <= clock j) ->
  exists ids st,
    list_scheduler_dispatchable_ids float_repr fromisoformat db table q limit scoring_at clock
      context (S (length table)) breakers = Some (ids, st) /\
    NoDup ids /\ (length ids <= limit)%nat /\
    Forall (fun id => exists r page, r ∈ table /\ wr_id r = id /\ schedulable db q r = true /\
              held_back fromisoformat breakers (clock page) r = false) ids.
Proof.
  intros Hn Hc. unfold list_scheduler_dispatchable_ids.
  destruct (dispatch_from_ends float_repr fromisoformat db table q limit scoring_at clock context
    breakers Hn Hc (S (length table)) O None None {| ds_found := []; ds_breakers := breakers;
      ds_decisions := [] |} [] (queue float_repr db table q scoring_at)) as (st & page & -> & Hst).
  - done.
  - done.
  - unfold queue. rewrite (sorted_by_perm _ _). pose proof (List.filter_length_le (schedulable db q) table). lia.
  - constructor; cbn; [constructor|constructor|done].
  - destruct Hst as [Hr Hi _]. eexists _, _. split; [done|]. unfold order_scheduler_workspaces.
    split_and!.
    + eapply sublist_NoDup; [|apply sublist_map, sublist_take]. by rewrite (sorted_by_perm _ _).
    + rewrite length_map, length_take. lia.
    + apply Forall_map, Forall_take. rewrite (sorted_by_perm _ _).
      eapply Forall_impl; [exact Hr|]. intros r (H1 & H2 & page' & H3). by exists r, page'.
Qed.

(** ** The exact outcome *)

(** When the two scores agree the pages are consecutive pieces of the queue. *)
Section Exact.
Context (float_repr : float -> string) (fromisoformat : string -> option datetime).
Context (db : Db) (table : list WorkspaceRow) (q : ScheduleQuery) (limit : nat).
Context (scoring_at now : Z) (context : string -> CapacityQueueDecisionContext).
Context (breakers : Breakers).
Context (ids_unique : NoDup (map wr_id table)).
Context (plain : Forall (fun r => plain_policy (sw_task_policy (wr_scored r)) = true) table).

Let rows : list WorkspaceRow := queue float_repr db table q scoring_at.
Let free (r : WorkspaceRow) : bool := negb (held_back fromisoformat breakers now r).
Let sorted (l : list WorkspaceRow) : Prop :=
  StronglySorted (fun x y => row_leb fromisoformat scoring_at x y = true) l.

Lemma row_key (r : WorkspaceRow) :
  r ∈ table ->
  scheduler_order_key (row_score fromisoformat scoring_at r) = sql_order_key float_repr scoring_at r.
Proof.
  intros Hr. pose proof (proj1 (Forall_forall _ _) plain r Hr) as Hp. unfold sql_order_key.
  rewrite (sql_scores float_repr fromisoformat scoring_at (wr_scored r) Hp).
  unfold scheduler_order_key, row_score.
  cbn [oe_class_priority oe_effective_score]. repeat f_equal.
  cbn -[instant]. unfold instant, as_utc, astimezone_utc, utc, wr_created_at. cbn. lia.
Qed.

Lemma rows_sorted : sorted rows.
Proof.
  pose proof (queue_sorted float_repr db table q scoring_at) as Hs. fold rows in Hs.
  assert (Ht : forall r, r ∈ rows -> r ∈ table) by (intros r Hr; by apply elem_of_queue in Hr as [? _]).
  unfold sorted. revert Hs Ht. generalize rows as l. induction l as [|x l IH]; intros Hs Ht; [constructor|].
  apply StronglySorted_inv in Hs as [Hs Hx]. constructor.
  - apply IH; [done|]. intros r Hr. apply Ht. by right.
  - apply Forall_forall. intros y Hy. pose proof (proj1 (Forall_forall _ _) Hx y Hy) as H.
    unfold row_leb. rewrite !row_key; [exact H| |]; apply Ht; [by right|left].
Qed.

(** Parts of the queue are in the order of the worker already. *)
Lemma order_part (l : list WorkspaceRow) :
  l `sublist_of` rows -> order_scheduler_workspaces fromisoformat scoring_at l = l.
Proof. intros H. apply sorted_by_id. by apply (sorted_by_sublist _ l rows rows_sorted). Qed.

Lemma spec_queue :
  sorted_by (row_leb fromisoformat scoring_at) (List.filter (schedulable db q) table) = rows.
Proof.
  rewrite <- (sorted_by_id (row_leb fromisoformat scoring_at) rows rows_sorted).
  apply sorted_by_canonical.
  - intros x y. apply order_key_leb_total.
  - intros x y z. apply order_key_leb_trans.
  - intros x y Hx Hy H1 H2. apply elem_of_bfilter in Hx as [_ Hx], Hy as [_ Hy].
    apply (workspace_row_unique table ids_unique); [done..|].
    pose proof (order_key_leb_antisym _ _ H1 H2) as E. by injection E.
  - symmetry. apply sorted_by_perm.
Qed.

Lemma page_exact (pre post : list WorkspaceRow) (after : option SchedulerOrderCursor) (n : nat) :
  rows = pre ++ post -> reading_at scoring_at after pre ->
  list_schedulable_workspaces float_repr fromisoformat db table q n after scoring_at = take n post.
Proof.
  intros Hq Hat. unfold list_schedulable_workspaces. destruct (Nat.eqb_spec n 0) as [->|Hn]; [done|].
  unfold sort_schedulable_workspaces.
  rewrite (candidates_at _ _ _ _ _ ids_unique _ _ _ _ Hq Hat).
  change (sorted_by _ ?l) with (order_scheduler_workspaces fromisoformat scoring_at l).
  rewrite order_part.
  - rewrite take_take. f_equal. lia.
  - rewrite Hq. etrans; [apply sublist_take|]. by apply sublist_inserts_l.
Qed.

Lemma next_reading (pre page : list WorkspaceRow) :
  page <> [] -> reading_at scoring_at (scheduler_candidate_cursor fromisoformat page scoring_at)
                  (pre ++ page).
Proof.
  intros Hne. destruct (last page) as [c|] eqn:El; [|by apply last_None in El].
  destruct (candidate_cursor fromisoformat scoring_at _ _ El) as (cur & -> & Hcur).
  apply last_Some in El as (l & ->). exists c, (pre ++ l). by rewrite app_assoc.
Qed.

(** The workspaces found after the pages of [pre]: at the front the first free rows, and
    any further ones in their order. *)
Record found_after (pre : list WorkspaceRow) (st : DispatchState) : Prop := {
  fa_front : take limit (ds_found st) = take limit (List.filter free pre);
  fa_part : ds_found st `sublist_of` List.filter free pre;
  fa_breakers : forall k, Breaker.cooling (ds_breakers st) k now = Breaker.cooling breakers k now
}.

Lemma page_found (page : nat) (pre ws post : list WorkspaceRow) (st : DispatchState) :
  rows = pre ++ ws ++ post -> found_after pre st ->
  found_after (pre ++ ws)
    (dispatch_page fromisoformat limit scoring_at (fun _ => now) context page st ws).
Proof.
  intros Hq [Hf Hp Hb]. unfold dispatch_page.
  set (n := if (0 <? limit - length (ds_found st))%nat then _ else _).
  assert (Hws : List.filter free ws `sublist_of` rows).
  { rewrite Hq. etrans; [apply bfilter_sublist|]. apply sublist_inserts_l, sublist_inserts_r. done. }
  assert (Ha : fr_allowed (filter_scheduler_candidate_workspaces fromisoformat (ds_breakers st) now
    context None scoring_at n ws) = take n (List.filter free ws)).
  { rewrite filter_allowed. rewrite (List.filter_ext _ free).
    - by rewrite order_part.
    - intros r. unfold free. f_equal. by apply held_back_cooling. }
  assert (Hall : List.filter free (pre ++ ws) `sublist_of` rows).
  { rewrite Hq, app_assoc. etrans; [apply bfilter_sublist|]. by apply sublist_inserts_r. }
  assert (Hpart : ds_found st ++ take n (List.filter free ws)
                  `sublist_of` List.filter free (pre ++ ws)).
  { rewrite bfilter_app. apply sublist_app; [done|apply sublist_take]. }
  rewrite set_default_fresh, Ha by (rewrite ?Ha; eapply sublist_NoDup;
    [exact (queue_NoDup float_repr db table q scoring_at ids_unique)|];
    apply sublist_map; by etrans).
  constructor; cbn [ds_found ds_breakers].
  - rewrite bfilter_app, !take_app, Hf. unfold n.
    destruct (Nat.ltb_spec 0 (limit - length (ds_found st))) as [Hl|Hl].
    + assert (E : ds_found st = List.filter free pre).
      { rewrite (take_ge (ds_found st)) in Hf by lia. rewrite Hf. symmetry.
        assert (length (take limit (List.filter free pre)) < limit)%nat by (rewrite <- Hf; lia).
        rewrite length_take in H. rewrite take_ge; [done|lia]. }
      f_equal. rewrite take_take, <- E. f_equal. lia.
    + assert (limit <= length (List.filter free pre))%nat.
      { apply sublist_length in Hp. lia. }
      rewrite !(proj2 (Nat.sub_0_le _ _)) by lia. by rewrite !take_0.
  - exact Hpart.
  - intros k. rewrite filter_breakers by lia. apply Hb.
Qed.

(** What the loop returns once it stops. *)
Lemma found_final (pre post : list WorkspaceRow) (st : DispatchState) :
  rows = pre ++ post -> found_after pre st ->
  post = [] \/ (limit <= length (ds_found st))%nat ->
  take limit (order_scheduler_workspaces fromisoformat scoring_at (ds_found st)) =
  take limit (List.filter free rows).
Proof.
  intros Hq [Hf Hp _] Hend. rewrite order_part.
  - rewrite Hf, Hq, bfilter_app, take_app. destruct Hend as [-> |Hl].
    + cbn [List.filter]. by rewrite take_nil, app_nil_r.
    + apply sublist_length in Hp. rewrite (proj2 (Nat.sub_0_le _ _)) by lia.
      by rewrite take_0, app_nil_r.
  - etrans; [exact Hp|]. rewrite Hq. etrans; [apply bfilter_sublist|]. by apply sublist_inserts_r.
Qed.

Lemma refill_full (found : nat) (refill : option nat) :
  refill_after limit found refill = None -> (limit <= found)%nat.
Proof. unfold refill_after. by destruct (Nat.leb_spec limit found). Qed.

Lemma fetch_enough : (limit <= scheduler_candidate_fetch_limit limit)%nat.
Proof. unfold scheduler_candidate_fetch_limit. destruct limit; lia. Qed.

Lemma dispatch_from_exact (fuel page : nat) (after : option SchedulerOrderCursor)
    (refill : option nat) (st : DispatchState) (pre post : list WorkspaceRow) :
  rows = pre ++ post -> reading_at scoring_at after pre -> (length post < fuel)%nat ->
  found_after pre st ->
  exists st', dispatch_from float_repr fromisoformat db table q limit scoring_at (fun _ => now) context
      fuel page after refill st = Some st' /\
    take limit (order_scheduler_workspaces fromisoformat scoring_at (ds_found st')) =
    take limit (List.filter free rows).
Proof.
  revert page after refill st pre post.
  induction fuel as [|fuel IH]; intros page after refill st pre post Hq Hat Hfu Hst; [lia|].
  simpl. unfold page_after. rewrite (page_exact pre post after _ Hq Hat).
  set (n := scheduler_candidate_fetch_limit limit).
  pose proof fetch_enough as Hn. fold n in Hn. destruct (take n post) as [|r0 ws] eqn:Ew.
  - exists st. split; [done|]. apply (found_final pre post st Hq Hst).
    destruct post as [|r post]; [by left|]. destruct n; [|done]. right. lia.
  - rewrite <- Ew. pose proof (take_drop n post) as Etd.
    assert (Hq' : rows = pre ++ take n post ++ drop n post) by (by rewrite Etd).
    pose proof (page_found page pre _ _ st Hq' Hst) as Hnext. rewrite app_assoc in Hq'.
    destruct (Nat.ltb_spec (length (take n post)) n) as [Hl|Hl].
    { eexists. split; [done|]. eapply found_final; [exact Hq'|exact Hnext|]. left.
      rewrite length_take in Hl. apply drop_ge. lia. }
    destruct (refill_after limit _ refill) as [refill'|] eqn:Er.
    + eapply IH; [exact Hq'| |rewrite length_drop|exact Hnext].
      * apply next_reading. by rewrite Ew.
      * assert (length (take n post) = S (length ws)) by (by rewrite Ew).
        rewrite length_take in *. lia.
    + eexists. split; [done|]. eapply found_final; [exact Hq'|exact Hnext|]. right.
      by eapply refill_full.
Qed.
End Exact.

(** C6: The loop over pages refines its specification.  When the stored policies are plain,
    so that SQL and the worker score alike, and the clock stands still during the call,
    dispatching returns exactly the first [limit] free workspaces of the whole queue in
    the worker's order: pages, cursors, refill and the filter's per-page limit do not show. *)
Theorem dispatch_takes_the_first (float_repr : float -> string)
    (fromisoformat : string -> option datetime) (db : Db) (table : list WorkspaceRow)
    (q : ScheduleQuery) (limit : nat) (scoring_at now : Z)
    (context : string -> CapacityQueueDecisionContext) (breakers : Breakers) :
  NoDup (map wr_id table) ->
  Forall (fun r => plain_policy (sw_task_policy (wr_scored r)) = true) table ->
  exists st,
    list_scheduler_dispatchable_ids float_repr fromisoformat db table q limit scoring_at
      (fun _ => now) context (S (length table)) breakers =
    Some (map wr_id (take limit
            (List.filter (fun r => negb (held_back fromisoformat breakers now r))
               (sorted_by (row_leb fromisoformat scoring_at)
                  (List.filter (schedulable db q) table)))), st).
Proof.
  intros Hn Hp. unfold list_scheduler_dispatchable_ids.
  destruct (dispatch_from_exact float_repr fromisoformat db table q limit scoring_at now context
    breakers Hn Hp (S (length table)) O None None {| ds_found := []; ds_breakers := breakers;
      ds_decisions := [] |} [] (queue float_repr db table q scoring_at)) as (st & -> & Hst).
  - done.
  - done.
  - unfold queue. rewrite (sorted_by_perm _ _).
    pose proof (List.filter_length_le (schedulable db q) table). lia.
  - by constructor.
  - exists st. rewrite Hst. by rewrite (spec_queue float_repr fromisoformat db table q scoring_at Hn Hp).
Qed.

(** ** A queue on a concrete table

    One slot to fill, so pages of four.  The four oldest workspaces wait for a model
    whose breaker is open; the fifth is on the second page. *)

Definition sample_row (id model : string) (created_at : Z) : WorkspaceRow :=
  {| wr_scored := {| sw_id := id; sw_agent := "codex"; sw_task_class := Some "test_task";
                     sw_task_policy := VDict [("agent_model", VStr model)];
                     sw_created_at := created_at |};
     wr_row := sample_workspace requested None None; wr_reservation_node := None |}.

Definition sample_table : list WorkspaceRow :=
  [sample_row "e" "gpt-free" 5; sample_row "d" "gpt-held" 4; sample_row "c" "gpt-held" 3;
   sample_row "b" "gpt-held" 2; sample_row "a" "gpt-held" 1; sample_row "f" "gpt-free" 6].

Definition sample_query : ScheduleQuery :=
  {| sq_status := requested; sq_exclude_ids := []; sq_node_id := None; sq_claim_cutoff := None;
     sq_execution_claim_owner_id := None; sq_fresh_execution_claim_owner_ids := None |}.

Definition sample_breakers : Breakers :=
  record_failures ∅ "openai" "gpt-held"
    {| f_reason_code := "PROVIDER_RATE_LIMITED"; f_fingerprint := "x"; f_workspace_id := None;
       f_attempt_id := None |} 1 900 [0].

Definition sample_context (id : string) : CapacityQueueDecisionContext :=
  {| cx_attempt := Some ("t", id); cx_latest_decision := None |}.

Definition sample_dispatch (limit : nat) (clock : nat -> Z) : option (list string * DispatchState) :=
  list_scheduler_dispatchable_ids (fun _ => "") (fun _ => None) (sample_db requested None None)
    sample_table sample_query limit 10 clock sample_context (S (length sample_table)) sample_breakers.

(** While the breaker is open, after it expired between the pages, and after it expired. *)
Example sample_dispatches :
  (option_map fst (sample_dispatch 1 (fun _ => 10)) = Some ["e"]) /\
  (option_map fst (sample_dispatch 2 (fun _ => 10)) = Some ["e"; "f"]) /\
  (option_map fst (sample_dispatch 2 (fun _ => 2000000000)) = Some ["a"; "b"]).
Proof. by vm_compute. Qed.

Lemma dispatch_ends_soundly_witness :
  exists ids st, sample_dispatch 2 (fun page => 10 + Z.of_nat page) = Some (ids, st) /\
    NoDup ids /\ (length ids <= 2)%nat.
Proof.
  destruct (dispatch_ends_soundly (fun _ => "") (fun _ => None) (sample_db requested None None)
    sample_table sample_query 2 10 (fun page => 10 + Z.of_nat page) sample_context sample_breakers)
    as (ids & st & H & Hn & Hl & _).
  - apply (bool_decide_eq_true_1 _). vm_compute. reflexivity.
  - intros i j Hij. lia.
  - exists ids, st. split; [exact H|]. split; [exact Hn|exact Hl].
Defined.

Lemma dispatch_takes_the_first_witness :
  exists st, sample_dispatch 2 (fun _ => 10) = Some (["e"; "f"], st).
Proof.
  destruct (dispatch_takes_the_first (fun _ => "") (fun _ => None) (sample_db requested None None)
    sample_table sample_query 2 10 10 sample_context sample_breakers) as (st & H).
  - apply (bool_decide_eq_true_1 _). vm_compute. reflexivity.
  - apply (bool_decide_eq_true_1 _). vm_compute. reflexivity.
  - exists st. etransitivity; [exact H|]. vm_compute. reflexivity.
Defined.
