(* ===== verification/RecoveryFacts.v ===== *)
(** * Provider recovery ends

    The state a decision writes is the state the next decision reads, the targets
    it picks are approved and launchable, and a chain of failures is recovered a
    bounded number of times. *)

From S2P Require Import Prelude PyStr PyTime PyFloat PyVal Status Recovery.
#[local] Open Scope Z_scope.

(** ** Documents *)

Lemma get_present_ne (k key : string) (v : pyval) (d : dict) :
  k <> key -> get (present ((k, v) :: d)) key = get (present d) key.
Proof.
  intros Hne. unfold get, present. cbn [List.filter snd].
  destruct v; cbn [List.find fst]; rewrite ?(proj2 (eqb_false k key) Hne); done.
Qed.

Lemma get_present_eq (key : string) (v : pyval) (d : dict) :
  v <> VNone -> get (present ((key, v) :: d)) key = v.
Proof.
  intros Hv. unfold get, present. cbn [List.filter snd].
  destruct v; cbn [List.find fst]; rewrite ?eqb_refl; done.
Qed.

(** Reads one key of a document written with [present]. *)
Ltac read_key := rewrite ?get_present_ne by discriminate; rewrite get_present_eq by discriminate.

Lemma nonnegative_int_nonneg (v : pyval) (n : Z) : 0 <= n -> 0 <= nonnegative_int v n.
Proof. intros Hn. destruct v; simpl; try lia. destruct (float_int x); lia. Qed.

Lemma positive_int_pos (v : pyval) (n : Z) : 0 < n -> 0 < positive_int v n.
Proof. intros Hn. unfold positive_int. destruct (Z.ltb_spec 0 (nonnegative_int v n)); lia. Qed.

Lemma state_nonneg (tp : dict) :
  let s := parse_provider_recovery_state tp in
  0 <= rs_fallback_attempt_number s /\ 0 <= rs_retry_attempt_number s /\
  0 <= rs_launched_fallback_attempts s.
Proof.
  unfold parse_provider_recovery_state. cbv zeta. cbn -[nonnegative_int get].
  split_and!; try by apply nonnegative_int_nonneg.
  destruct (get _ "launched_fallback_attempts"); by apply nonnegative_int_nonneg.
Qed.

Lemma omap_strings (l : list string) :
  omap (fun v => match v with VStr s => Some s | _ => None end) (map VStr l) = l.
Proof. induction l as [|s l IH]; simpl; [done|]. f_equal. exact IH. Qed.

(** ** Reading back what was written *)

Lemma policy_of_state_update (tp : dict) (v : pyval) :
  parse_provider_recovery_policy (set_key tp PROVIDER_RECOVERY_STATE_KEY v)
  = parse_provider_recovery_policy tp.
Proof. unfold parse_provider_recovery_policy. by rewrite get_set_ne. Qed.

Lemma policy_of_model_update (tp : dict) (m : string) :
  parse_provider_recovery_policy (install_fixed_recovery_model tp m)
  = parse_provider_recovery_policy tp /\
  parse_provider_recovery_state (install_fixed_recovery_model tp m)
  = parse_provider_recovery_state tp.
Proof.
  unfold parse_provider_recovery_policy, parse_provider_recovery_state,
    install_fixed_recovery_model. by rewrite !get_pop_ne, !get_set_ne.
Qed.

(** The state a decision announces, with the new fingerprint. *)
Definition announced_state (s : ProviderRecoveryState) (metadata : dict)
    (d : ProviderRecoveryDecision) : ProviderRecoveryState :=
  {| rs_failure_fingerprints := updated_fingerprints s metadata;
     rs_fallback_attempt_number := rd_fallback_attempt_number d;
     rs_retry_attempt_number := rd_retry_attempt_number d;
     rs_launched_fallback_attempts := rd_launched_fallback_attempts d |}.

Definition nonneg_decision (d : ProviderRecoveryDecision) : Prop :=
  0 <= rd_fallback_attempt_number d /\ 0 <= rd_retry_attempt_number d /\
  0 <= rd_launched_fallback_attempts d.

Lemma read_recovery_policy (tp : dict) (ws : string) (sa : option SourceAttempt)
    (sc : option string) (metadata : dict) (d : ProviderRecoveryDecision) (nb : option datetime) :
  nonneg_decision d ->
  parse_provider_recovery_state (recovery_task_policy tp ws sa sc metadata d nb)
  = announced_state (parse_provider_recovery_state tp) metadata d.
Proof.
  intros (H1 & H2 & H3). unfold recovery_task_policy, announced_state.
  set (s := parse_provider_recovery_state tp).
  unfold parse_provider_recovery_state at 1. rewrite get_set_eq. cbn [as_mapping app].
  f_equal; read_key; [apply omap_strings| | |]; cbn [nonnegative_int]; lia.
Qed.

Lemma read_in_place_policy (tp metadata : dict) (d : ProviderRecoveryDecision) (nb : datetime) :
  nonneg_decision d ->
  rd_fallback_attempt_number d = rs_fallback_attempt_number (parse_provider_recovery_state tp) ->
  rd_launched_fallback_attempts d = rs_launched_fallback_attempts (parse_provider_recovery_state tp) ->
  parse_provider_recovery_state (in_place_recovery_task_policy tp metadata d nb)
  = announced_state (parse_provider_recovery_state tp) metadata d.
Proof.
  intros (H1 & H2 & H3) Hf Hl. unfold in_place_recovery_task_policy, announced_state.
  rewrite Hf, Hl in *.
  set (s := parse_provider_recovery_state tp) in *.
  unfold parse_provider_recovery_state. rewrite get_set_eq. cbn [as_mapping app].
  f_equal; read_key; [apply omap_strings| | |]; cbn [nonnegative_int]; lia.
Qed.

(** ** The outcomes of a decision *)

Lemma first_target_spec (i : Z) (l : list (option FallbackTarget)) (t : FallbackTarget) (j : Z) :
  first_target i l = Some (t, j) ->
  i <= j < i + Z.of_nat (length l) /\ l !! Z.to_nat (j - i) = Some (Some t).
Proof.
  revert i. induction l as [|[u|] l IH]; intros i; cbn [first_target length]; [done| |].
  - intros [= -> ->]. split; [lia|]. by replace (Z.to_nat (j - j)) with 0%nat by lia.
  - intros (Hj & Hl)%IH. split; [lia|].
    replace (Z.to_nat (j - i)) with (S (Z.to_nat (j - (i + 1)))) by lia. exact Hl.
Qed.

Lemma select_spec (p : ProviderRecoveryPolicy) (s : ProviderRecoveryState) (t : FallbackTarget)
    (j : Z) :
  0 <= rs_fallback_attempt_number s ->
  select_fallback_target_with_index p s = Some (t, j) ->
  rs_launched_fallback_attempts s < rp_max_fallback_attempts p /\
  rs_fallback_attempt_number s <= j < Z.of_nat (length (rp_fallbacks p)) /\
  rp_fallbacks p !! Z.to_nat j = Some (Some t).
Proof.
  intros Hn. unfold select_fallback_target_with_index.
  destruct (Z.leb_spec (rp_max_fallback_attempts p) (rs_launched_fallback_attempts s)); [done|].
  intros (Hj & Hl)%first_target_spec. rewrite length_drop in Hj. rewrite lookup_drop in Hl.
  split; [lia|]. split; [lia|]. rewrite <- Hl. f_equal. lia.
Qed.

Lemma fallback_target_launchable (v : pyval) (t : FallbackTarget) :
  fallback_target v = Some t -> is_launchable_agent (ft_agent t) = true.
Proof.
  unfold fallback_target. destruct v as [| | | | | |d]; try done.
  destruct (mapping_str d "agent") as [agent|], (mapping_str d "model") as [model|]; try done.
  destruct (is_launchable_agent agent) eqn:E; [|done]. by intros [= <-].
Qed.

Lemma policy_fallback_launchable (tp : dict) (k : nat) (t : FallbackTarget) :
  rp_fallbacks (parse_provider_recovery_policy tp) !! k = Some (Some t) ->
  is_launchable_agent (ft_agent t) = true.
Proof.
  cbn. unfold fallback_targets. destruct (get _ "fallbacks"); try done.
  rewrite list_lookup_fmap. destruct (l !! k); [|done]. cbn. intros [= Hv].
  by eapply fallback_target_launchable.
Qed.

Lemma implicit_no_fallbacks (tp : dict) :
  rp_has_explicit_fallbacks (parse_provider_recovery_policy tp) = false ->
  rp_fallbacks (parse_provider_recovery_policy tp) = [].
Proof. cbn. intros [_ H]%orb_false_iff. by destruct (fallback_targets _). Qed.

(** Every outcome of [decide_provider_recovery], with the reasons it needs. *)
Inductive outcome (tp : dict) (agent : string) (d : ProviderRecoveryDecision) : Prop :=
| out_terminal :
    rd_action d = act_terminal ->
    announced_state (parse_provider_recovery_state tp) [] d = parse_provider_recovery_state tp ->
    outcome tp agent d
| out_retry :
    rd_action d = act_retry -> is_launchable_agent agent = true ->
    rd_target_agent d = Some agent ->
    rs_retry_attempt_number (parse_provider_recovery_state tp)
      < rp_max_same_provider_retries (parse_provider_recovery_policy tp) ->
    rd_retry_attempt_number d = rs_retry_attempt_number (parse_provider_recovery_state tp) + 1 ->
    rd_fallback_attempt_number d = rs_fallback_attempt_number (parse_provider_recovery_state tp) ->
    rd_launched_fallback_attempts d
      = rs_launched_fallback_attempts (parse_provider_recovery_state tp) ->
    outcome tp agent d
| out_default t :
    rd_action d = act_fallback ->
    rp_has_explicit_fallbacks (parse_provider_recovery_policy tp) = false ->
    rs_launched_fallback_attempts (parse_provider_recovery_state tp) <= 0 ->
    agent = "codex" -> ft_agent t = "codex" ->
    d = fallback_decision t (rs_fallback_attempt_number (parse_provider_recovery_state tp) + 1)
          (rs_launched_fallback_attempts (parse_provider_recovery_state tp) + 1) ->
    outcome tp agent d
| out_fallback t j :
    rd_action d = act_fallback ->
    select_fallback_target_with_index (parse_provider_recovery_policy tp)
      (parse_provider_recovery_state tp) = Some (t, j) ->
    d = fallback_decision t (j + 1)
          (rs_launched_fallback_attempts (parse_provider_recovery_state tp) + 1) ->
    outcome tp agent d.

Lemma terminal_outcome (tp : dict) (agent reason : string) :
  outcome tp agent (terminal_decision reason (parse_provider_recovery_state tp)).
Proof. apply out_terminal; [done|]. by destruct (parse_provider_recovery_state tp). Qed.

Lemma decide_outcome (metadata tp : dict) (agent : string) (model : option string) (now : datetime)
    (dm : option string) :
  outcome tp agent (decide_provider_recovery metadata tp agent model now dm).
Proof.
  unfold decide_provider_recovery. cbv zeta.
  destruct (is_auth_failure_metadata metadata); [apply terminal_outcome|].
  destruct (negb _); [apply terminal_outcome|].
  destruct (match mapping_str metadata "failure_fingerprint" with Some f => _ | None => _ end);
    [apply terminal_outcome|].
  destruct (default_capacity_fallback_target _ _ _ _ _ _) as [t|] eqn:Ed.
  - unfold default_capacity_fallback_target in Ed.
    destruct (rp_has_explicit_fallbacks _) eqn:Ex; [done|].
    destruct (Z.ltb_spec 0 (rs_launched_fallback_attempts (parse_provider_recovery_state tp)));
      [done|].
    destruct (eqb agent "codex") eqn:Ea; [rewrite eqb_true in Ea|done].
    destruct (is_capacity_failure_metadata _); [|done].
    destruct (capacity_default_model _ _) as [dm'|]; [|done].
    destruct (match mapping_str metadata "model" with Some m => _ | None => _ end) as [c|]; [|done].
    destruct (eqb c dm'); [done|]. injection Ed as Ed.
    eapply out_default; try done. by rewrite <- Ed.
  - destruct (is_launchable_agent agent) eqn:El; cbn [andb].
    + destruct (Z.ltb_spec (rs_retry_attempt_number (parse_provider_recovery_state tp))
        (rp_max_same_provider_retries (parse_provider_recovery_policy tp))); [by apply out_retry|].
      destruct (select_fallback_target_with_index _ _) as [[t j]|] eqn:Es;
        [by eapply out_fallback|apply terminal_outcome].
    + destruct (select_fallback_target_with_index _ _) as [[t j]|] eqn:Es;
        [by eapply out_fallback|apply terminal_outcome].
Qed.

Lemma decide_nonneg (metadata tp : dict) (agent : string) (model : option string) (now : datetime)
    (dm : option string) :
  nonneg_decision (decide_provider_recovery metadata tp agent model now dm).
Proof.
  destruct (state_nonneg tp) as (H1 & H2 & H3).
  destruct (decide_outcome metadata tp agent model now dm) as [_ Ha|_ _ _ _ Hr Hf Hl|t _ _ _ _ _ ->|t j _ Hs ->].
  - unfold nonneg_decision. rewrite <- Ha in H1, H2, H3. done.
  - unfold nonneg_decision. rewrite Hr, Hf, Hl. lia.
  - unfold nonneg_decision. destruct (parse_provider_recovery_state tp). cbn in *. lia.
  - apply select_spec in Hs as (_ & Hj & _); [|done]. unfold nonneg_decision.
    destruct (parse_provider_recovery_state tp). cbn in *. lia.
Qed.

(** ** The budget of a policy *)

Definition fallbacks_left (p : ProviderRecoveryPolicy) (s : ProviderRecoveryState) : Z :=
  if rp_has_explicit_fallbacks p then
    Z.max 0 (Z.min (rp_max_fallback_attempts p - rs_launched_fallback_attempts s)
               (Z.of_nat (length (rp_fallbacks p)) - rs_fallback_attempt_number s))
  else if 0 <? rs_launched_fallback_attempts s then 0 else 1.

(** Each fallback may be retried as often as the first provider. *)
Definition recovery_budget (tp : dict) : Z :=
  let p := parse_provider_recovery_policy tp in
  let s := parse_provider_recovery_state tp in
  fallbacks_left p s * (rp_max_same_provider_retries p + 1)
  + Z.max 0 (rp_max_same_provider_retries p - rs_retry_attempt_number s).

(** One recovered failure: the policy the next failure is decided with. *)
Inductive recovers : dict -> dict -> Prop :=
| recovers_in_place tp metadata agent model now dm nb :
    let d := decide_provider_recovery metadata tp agent model now dm in
    rd_action d = act_retry -> recovers tp (in_place_recovery_task_policy tp metadata d nb)
| recovers_attempt tp metadata agent model now dm ws sa sc nb :
    let d := decide_provider_recovery metadata tp agent model now dm in
    rd_action d <> act_terminal -> recovers tp (recovery_task_policy tp ws sa sc metadata d nb)
| recovers_fallback tp metadata agent model now dm ws sa sc nb m :
    let d := decide_provider_recovery metadata tp agent model now dm in
    rd_action d = act_fallback -> rd_target_model d = Some m ->
    recovers tp (install_fixed_recovery_model (recovery_task_policy tp ws sa sc metadata d nb) m).

(** The policy a retry in place leaves announces the retry. *)
Lemma in_place_announced (tp metadata : dict) (agent : string) (model : option string)
    (now : datetime) (dm : option string) (nb : datetime) :
  let d := decide_provider_recovery metadata tp agent model now dm in
  rd_action d = act_retry ->
  parse_provider_recovery_state (in_place_recovery_task_policy tp metadata d nb)
  = announced_state (parse_provider_recovery_state tp) metadata d.
Proof.
  cbv zeta. intros Hd. pose proof (decide_nonneg metadata tp agent model now dm) as Hn.
  destruct (decide_outcome metadata tp agent model now dm) as [Ha _| |t Ha _ _ _ _ _|t j Ha _ _];
    try congruence.
  by apply read_in_place_policy.
Qed.

(** The next policy has the same limits and the announced state. *)
Lemma recovers_announced (tp tp' : dict) :
  recovers tp tp' ->
  exists metadata agent model now dm,
    let d := decide_provider_recovery metadata tp agent model now dm in
    rd_action d <> act_terminal /\
    parse_provider_recovery_policy tp' = parse_provider_recovery_policy tp /\
    parse_provider_recovery_state tp' = announced_state (parse_provider_recovery_state tp) metadata d.
Proof.
  destruct 1 as [tp metadata agent model now dm nb d Hd|tp metadata agent model now dm ws sa sc nb d Hd
    |tp metadata agent model now dm ws sa sc nb m d Hd Hm];
    exists metadata, agent, model, now, dm; cbv zeta; fold d;
    pose proof (decide_nonneg metadata tp agent model now dm) as Hn; fold d in Hn.
  - split_and!; [by rewrite Hd|apply policy_of_state_update|by apply in_place_announced].
  - split_and!; [done|apply policy_of_state_update|by apply read_recovery_policy].
  - destruct (policy_of_model_update (recovery_task_policy tp ws sa sc metadata d nb) m) as [-> ->].
    split_and!; [by rewrite Hd|apply policy_of_state_update|by apply read_recovery_policy].
Qed.

Lemma recovers_budget (tp tp' : dict) :
  recovers tp tp' -> 0 <= recovery_budget tp' /\ recovery_budget tp' + 1 <= recovery_budget tp.
Proof.
  intros (metadata & agent & model & now & dm & Hna & Hp & Hs)%recovers_announced.
  destruct (state_nonneg tp) as (N1 & N2 & N3).
  assert (NR : 0 <= rp_max_same_provider_retries (parse_provider_recovery_policy tp))
    by by apply nonnegative_int_nonneg.
  unfold recovery_budget. rewrite Hp, Hs. cbv zeta. unfold fallbacks_left, announced_state.
  cbn [rs_fallback_attempt_number rs_retry_attempt_number rs_launched_fallback_attempts].
  pose proof (implicit_no_fallbacks tp) as Himp.
  destruct (decide_outcome metadata tp agent model now dm) as [Ha _|_ _ _ Hlt Hr Hf Hl
    |t _ Hx Hl0 _ _ Hd|t j _ Hsel Hd];
    set (p := parse_provider_recovery_policy tp) in *;
    set (s := parse_provider_recovery_state tp) in *; clearbody p s.
  - done.
  - rewrite Hr, Hf, Hl. destruct (rp_has_explicit_fallbacks p); [nia|]. destruct (0 <? _); nia.
  - rewrite Hd, Hx. cbn. destruct (Z.ltb_spec 0 (rs_launched_fallback_attempts s)); [lia|].
    rewrite (proj2 (Z.ltb_lt _ _)) by lia. lia.
  - apply select_spec in Hsel as (Hmax & Hj & _); [|done]. rewrite Hd. cbn.
    destruct (rp_has_explicit_fallbacks p); [nia|]. rewrite Himp in Hj by done. simpl in Hj. lia.
Qed.

Lemma retry_not_before (metadata tp : dict) (agent : string) (model : option string) (now : datetime)
    (dm : option string) :
  let d := decide_provider_recovery metadata tp agent model now dm in
  rd_action d = act_retry ->
  rd_not_before d = Some (plus_seconds now (retry_delay_seconds metadata
    (parse_provider_recovery_policy tp) (parse_provider_recovery_state tp))).
Proof.
  cbv zeta. unfold decide_provider_recovery. cbv zeta.
  destruct (is_auth_failure_metadata metadata); [done|]. destruct (negb _); [done|].
  destruct (match mapping_str metadata "failure_fingerprint" with Some f => _ | None => _ end);
    [done|].
  destruct (default_capacity_fallback_target _ _ _ _ _ _); [done|]. destruct (_ && _); [done|].
  by destruct (select_fallback_target_with_index _ _) as [[t j]|].
Qed.

Lemma retry_delay_bounds (metadata tp : dict) :
  let p := parse_provider_recovery_policy tp in
  let s := parse_provider_recovery_state tp in
  Z.min (rp_cooldown_seconds p) (rp_retry_after_cap_seconds p) <= retry_delay_seconds metadata p s
    <= rp_retry_after_cap_seconds p /\ 0 < retry_delay_seconds metadata p s.
Proof.
  cbv zeta.
  assert (Hc : 0 < rp_cooldown_seconds (parse_provider_recovery_policy tp))
    by by apply positive_int_pos.
  assert (Hr : 0 < rp_retry_after_cap_seconds (parse_provider_recovery_policy tp))
    by by apply positive_int_pos.
  unfold retry_delay_seconds. lia.
Qed.

(** ** Properties *)

(** C22: provider recovery ends: however the provider, the model and the failures
    change from one attempt to the next, a task policy is recovered from at most
    as many failures as its budget of fallbacks and retries allows. *)
Theorem recovery_terminates (n : nat) (tp tp' : dict) :
  nsteps recovers n tp tp' -> Z.of_nat n <= recovery_budget tp.
Proof.
  assert (H0 : forall tp, 0 <= recovery_budget tp).
  { intros t. unfold recovery_budget, fallbacks_left. cbv zeta.
    assert (0 <= rp_max_same_provider_retries (parse_provider_recovery_policy t))
      by by apply nonnegative_int_nonneg.
    destruct (rp_has_explicit_fallbacks _); [nia|]. destruct (0 <? _); lia. }
  induction 1 as [tp|n tp tp1 tp' Hstep _ IH]; [apply H0|].
  apply recovers_budget in Hstep. lia.
Qed.

(** A fingerprint seen before stops the recovery, and so does a credential failure. *)
Lemma seen_stops (metadata tp : dict) (agent : string) (model : option string)
    (now : datetime) (dm : option string) (f : string) :
  mapping_str metadata "failure_fingerprint" = Some f ->
  f ∈ rs_failure_fingerprints (parse_provider_recovery_state tp) ->
  rd_action (decide_provider_recovery metadata tp agent model now dm) = act_terminal.
Proof.
  intros Hf Hin. unfold decide_provider_recovery. cbv zeta. rewrite Hf.
  rewrite (proj2 (mem_true _ _) Hin). destruct (is_auth_failure_metadata metadata); [done|].
  by destruct (negb _).
Qed.

Lemma auth_stops (metadata tp : dict) (agent : string) (model : option string)
    (now : datetime) (dm : option string) :
  is_auth_failure_metadata metadata = true ->
  rd_action (decide_provider_recovery metadata tp agent model now dm) = act_terminal.
Proof. intros Ha. unfold decide_provider_recovery. cbv zeta. by rewrite Ha. Qed.

(** A recovery never goes where it was not allowed: a retry stays with the
    current, launchable agent and waits a positive delay between the cooldown and
    the cap; a fallback goes to the approved list entry its counter names, or, when
    the policy lists none, to Codex on its default model; and a failure whose
    fingerprint was already recovered from, or an authentication failure, ends it. *)
Theorem recovery_targets (metadata tp : dict) (agent : string) (model : option string)
    (now : datetime) (dm : option string) :
  let p := parse_provider_recovery_policy tp in
  let s := parse_provider_recovery_state tp in
  let d := decide_provider_recovery metadata tp agent model now dm in
  (rd_action d = act_retry ->
     rd_target_agent d = Some agent /\ is_launchable_agent agent = true /\
     exists delay, rd_not_before d = Some (plus_seconds now delay) /\ 0 < delay /\
       Z.min (rp_cooldown_seconds p) (rp_retry_after_cap_seconds p) <= delay
         <= rp_retry_after_cap_seconds p) /\
  (rd_action d = act_fallback ->
     exists t, rd_target_agent d = Some (ft_agent t) /\ rd_target_model d = Some (ft_model t) /\
       is_launchable_agent (ft_agent t) = true /\
       (rp_fallbacks p !! Z.to_nat (rd_fallback_attempt_number d - 1) = Some (Some t) /\
        rs_fallback_attempt_number s < rd_fallback_attempt_number d \/
        rp_fallbacks p = [] /\ agent = "codex" /\ ft_agent t = "codex")) /\
  (forall f, mapping_str metadata "failure_fingerprint" = Some f ->
     f ∈ rs_failure_fingerprints s -> rd_action d = act_terminal) /\
  (is_auth_failure_metadata metadata = true -> rd_action d = act_terminal).
Proof.
  cbv zeta. pose proof (decide_outcome metadata tp agent model now dm) as Ho.
  pose proof (retry_not_before metadata tp agent model now dm) as Hnb.
  pose proof (retry_delay_bounds metadata tp) as Hd. cbv zeta in Hnb, Hd.
  destruct (state_nonneg tp) as (N1 & _ & _). split_and!.
  - intros Ha. destruct Ho as [Ht _|_ Hl Hag _ _ _ _|t Ht _ _ _ _ _|t j Ht _ _]; try congruence.
    split_and!; try done. eexists. split; [by apply Hnb|]. lia.
  - intros Ha. destruct Ho as [Ht _|Ht _ _ _ _ _ _|t _ Hx _ Hag Hft ->|t j _ Hs ->]; try congruence.
    + exists t. split_and!; try done; [by rewrite Hft|]. right. by rewrite implicit_no_fallbacks.
    + apply select_spec in Hs as (_ & Hj & Hl); [|done]. exists t.
      cbn [fallback_decision rd_target_agent rd_target_model rd_fallback_attempt_number].
      replace (j + 1 - 1) with j by lia. split_and!; try done.
      * by eapply policy_fallback_launchable.
      * left. split; [done|lia].
  - intros f. apply seen_stops.
  - apply auth_stops.
Qed.

(** ** Instances *)

(** Two approved fallbacks and one retry each. *)
Definition sample_task_policy : dict :=
  [("provider_recovery", VDict
      [("fallbacks", VList [VDict [("agent", VStr "claude_code"); ("model", VStr "claude-opus-5-5")];
                            VNone;
                            VDict [("agent", VStr "grok"); ("model", VStr "grok-build")]])])].

Example sample_budget : recovery_budget sample_task_policy = 7.
Proof. vm_compute. reflexivity. Qed.

Definition sample_failure_metadata (fingerprint : string) : dict :=
  [("retryable", VBool true); ("failure_type", VStr "capacity");
   ("failure_fingerprint", VStr fingerprint)].

Definition sample_now : datetime := {| dt_us := 0; dt_offset := Some 0 |}.

Definition sample_decision (fingerprint : string) (tp : dict) : ProviderRecoveryDecision :=
  decide_provider_recovery (sample_failure_metadata fingerprint) tp "codex" None sample_now None.

(** A retry in place, then the first fallback. *)
Lemma recovery_terminates_witness :
  exists tp1 tp2, recovers sample_task_policy tp1 /\ recovers tp1 tp2 /\ (2 <= recovery_budget sample_task_policy).
Proof.
  set (tp1 := in_place_recovery_task_policy sample_task_policy (sample_failure_metadata "f1")
                (sample_decision "f1" sample_task_policy) sample_now).
  set (tp2 := recovery_task_policy tp1 "w" None None (sample_failure_metadata "f2")
                (sample_decision "f2" tp1) None).
  assert (H1 : recovers sample_task_policy tp1)
    by (apply (recovers_in_place _ _ "codex" None sample_now None sample_now); vm_compute; reflexivity).
  assert (H2 : recovers tp1 tp2)
    by (apply (recovers_attempt _ _ "codex" None sample_now None "w" None None None);
        vm_compute; discriminate).
  exists tp1, tp2. split; [exact H1|]. split; [exact H2|].
  exact (recovery_terminates 2 sample_task_policy tp2
           (nsteps_l _ _ _ _ _ H1 (nsteps_l _ _ _ _ _ H2 (nsteps_O _ _)))).
Defined.
