(* ===== verification/FailureRecovery.v ===== *)
(** * From a provider failure to its recovery

    The part of [service/provider_recovery.py] that classifies a persisted failure and
    decides whether the workspace recovers in place, and what the composition with
    [ProviderFailures] and [Recovery] guarantees: a failure that repeats itself is not
    retried again. *)

From S2P Require Import Prelude PyStr PyTime PyVal Status Redaction ProviderFailures Recovery.
From S2P Require Import RecoveryFacts.
#[local] Open Scope Z_scope.
#[local] Set Warnings "-register-all".

(** ** The metadata of a failure *)

Definition _classification_metadata (reason_code message : option string) (details : dict)
  : option dict :=
  classification ← classify_provider_failure reason_code None message
                     (mapping_str details "provider") (mapping_str details "model") None;
  let metadata := to_metadata classification in
  Some (match mapping_str details "recommended_action" with
        | Some action => set_key metadata "recommended_action" (VStr action)
        | None => metadata
        end).

Definition _metadata_recommended_action (metadata : dict) : string :=
  if is_auth_failure_metadata metadata then
    "Refresh provider credentials before retrying this workspace."
  else match mapping_str metadata "recommended_action" with
       | Some action => action
       | None => "Retry after provider cooldown or dispatch an approved fallback model."
       end.

Definition _is_infra_failure_metadata (metadata : dict) : bool :=
  eqb (mapping_str metadata "failure_scope") (Some "infra")
  || eqb (mapping_str metadata "reason_code") (Some AGENT_SERVICE_UNHEALTHY).

Definition set_default (d : dict) (key : string) (v : pyval) : dict :=
  if has_key d key then d else set_key d key v.

(** What is added to the metadata before it is stored. *)
Definition annotated (metadata task_policy : dict) (message : option string) : dict :=
  let policy := parse_provider_recovery_policy task_policy in
  let state := parse_provider_recovery_state task_policy in
  let auth_failure := is_auth_failure_metadata metadata in
  let metadata := if auth_failure then set_key metadata "retryable" (VBool false) else metadata in
  let metadata :=
    set_key metadata "fallback_allowed"
      (VBool (negb auth_failure
              && bool_decide (select_fallback_target_with_index policy state <> None)
              && truthy (get metadata "retryable"))) in
  let metadata :=
    set_key metadata "recommended_action" (VStr (_metadata_recommended_action metadata)) in
  match message with
  | Some m => if eqb m "" then metadata
              else set_default metadata "evidence" (VStr (redact_secrets (take_str 1000 m) []))
  | None => metadata
  end.

Definition provider_recovery_metadata_from_failure (reason_code message : option string)
    (details task_policy : dict) : option dict :=
  metadata ← match get details "provider_recovery" with
             | VDict existing => Some existing
             | _ => _classification_metadata reason_code message details
             end;
  if _is_infra_failure_metadata metadata then None
  else Some (annotated metadata task_policy message).

(** ** Recovering in place *)

Record InPlaceDecision : Type := {
  ip_not_before : datetime;
  ip_decision : ProviderRecoveryDecision;
  ip_metadata : dict
}.

Definition should_recover_in_place (reason_code message : option string)
    (details task_policy : dict) (agent : string) (current_model : option string)
    (now : datetime) (effective_default_model : option string) : option InPlaceDecision :=
  metadata ← provider_recovery_metadata_from_failure reason_code message details task_policy;
  let resolved_model :=
    match current_model with
    | Some m => if eqb m "" then mapping_str metadata "model" else Some m
    | None => mapping_str metadata "model"
    end in
  let decision :=
    decide_provider_recovery metadata task_policy agent resolved_model now
      effective_default_model in
  if negb (eqb (rd_action decision) act_retry) then None
  else
    not_before ← rd_not_before decision;
    Some {| ip_not_before := not_before; ip_decision := decision; ip_metadata := metadata |}.

(** The policy a workspace that recovers in place keeps. *)
Definition recovering_policy (task_policy : dict) (d : InPlaceDecision) : dict :=
  in_place_recovery_task_policy task_policy (ip_metadata d) (ip_decision d) (ip_not_before d).

(** ** Lemmas *)

Lemma strip_ne_head (c : ascii) (s : string) : is_space c = false -> strip (String c s) <> "".
Proof.
  intros Hc. unfold strip. simpl. rewrite Hc. unfold rstrip. simpl.
  destruct (rstrip_by is_space s); [by rewrite Hc|done].
Qed.

Lemma fingerprint_nonblank (t : ProviderFailureType) (ty : string) (provider model : option string)
    (output : string) (n : nat) :
  strip (failure_fingerprint (_reason_code_for_type t) ty provider model output n) <> "".
Proof. unfold failure_fingerprint. destruct t; by apply strip_ne_head. Qed.

(** Every classification made from an agent's output has a fingerprint. *)
Lemma classified_fingerprint (rc out err provider model : option string)
    (c : ProviderFailureClassification) :
  classify_provider_failure rc out err provider model None = Some c ->
  mapping_str (to_metadata c) "failure_fingerprint" = Some (strip (pf_failure_fingerprint c)).
Proof.
  unfold classify_provider_failure. cbv zeta. destruct (failure_type_of _ _) as [t|]; [|done].
  cbn [andb]. rewrite (proj2 (eqb_false None (Some false))) by done. cbn [andb].
  destruct (is_timeout t && _ && _); [done|]. intros [= <-]. unfold mapping_str.
  match goal with |- match get (to_metadata ?c) _ with _ => _ end = _ =>
    change (to_metadata c) with (present
    [("reason_code", VStr (pf_reason_code c));
     ("failure_type", VStr (failure_type_value (pf_failure_type c)));
     ("failure_scope", VStr (pf_failure_scope c));
     ("provider", opt_str (pf_provider c));
     ("model", opt_str (pf_model c));
     ("retryable", VBool (pf_retryable c));
     ("retry_after_seconds", opt_z (pf_retry_after_seconds c));
     ("cooldown_seconds", opt_z (pf_cooldown_seconds c));
     ("failure_fingerprint", VStr (pf_failure_fingerprint c));
     ("recommended_action", VStr (pf_recommended_action c));
     ("fallback_allowed", VBool (pf_fallback_allowed c))])
  end.
  read_key. cbn [pf_failure_fingerprint].
  by rewrite (proj2 (eqb_false _ _) (fingerprint_nonblank _ _ _ _ _ _)).
Qed.

(** The fields the recovery is decided by stay as they were classified. *)
Lemma annotated_keeps (metadata tp : dict) (message : option string) (key : string) :
  mem key ["retryable"; "fallback_allowed"; "recommended_action"; "evidence"] = false ->
  get (annotated metadata tp message) key = get metadata key.
Proof.
  rewrite mem_false, !not_elem_of_cons. intros (H1 & H2 & H3 & H4 & _).
  assert (Hset : forall k d v, key <> k -> get (set_key d k v) key = get d key)
    by (intros; by apply get_set_ne).
  assert (Hbase : forall d v w, get (set_key (set_key d "fallback_allowed" v) "recommended_action" w)
                                  key = get d key) by (intros; by rewrite !Hset).
  unfold annotated, set_default. cbv zeta.
  destruct message as [m|]; [destruct (eqb m ""); [|case_match]|]; rewrite ?(Hset "evidence") by done;
    rewrite Hbase; by destruct (is_auth_failure_metadata metadata); rewrite ?Hset.
Qed.

(** Details without metadata of an earlier failure. *)
Definition first_seen (details : dict) : Prop :=
  match get details "provider_recovery" with VDict _ => False | _ => True end.

(** Such a failure is what its output is classified as, whatever the policy. *)
Lemma metadata_classified (rc message : option string) (details tp metadata : dict) :
  first_seen details ->
  provider_recovery_metadata_from_failure rc message details tp = Some metadata ->
  exists c, classify_provider_failure rc None message (mapping_str details "provider")
              (mapping_str details "model") None = Some c /\
    mapping_str metadata "failure_fingerprint" = Some (strip (pf_failure_fingerprint c)).
Proof.
  unfold first_seen, provider_recovery_metadata_from_failure. intros Hd H.
  assert (Hc : exists md, _classification_metadata rc message details = Some md /\
                 metadata = annotated md tp message).
  { destruct (get details "provider_recovery"); try done;
      (destruct (_classification_metadata rc message details) as [md|]; [|done]);
      cbn [mbind option_bind] in H; (destruct (_is_infra_failure_metadata md); [done|]);
      injection H as <-; by exists md. }
  destruct Hc as (md & Hmd & ->). unfold _classification_metadata in Hmd.
  destruct (classify_provider_failure _ _ _ _ _ _) as [c|] eqn:Ec; [|done].
  exists c. split; [done|]. rewrite <- (classified_fingerprint _ _ _ _ _ _ Ec).
  cbn [mbind option_bind] in Hmd. apply (inj Some) in Hmd as <-.
  destruct (mapping_str details "recommended_action") as [a|]; unfold mapping_str;
    (rewrite annotated_keeps; [|by vm_compute]); by rewrite ?get_set_ne.
Qed.

Lemma recover_in_place_spec (rc message : option string) (details tp : dict) (agent : string)
    (model : option string) (now : datetime) (dm : option string) (d : InPlaceDecision) :
  should_recover_in_place rc message details tp agent model now dm = Some d ->
  provider_recovery_metadata_from_failure rc message details tp = Some (ip_metadata d) /\
  exists m, ip_decision d = decide_provider_recovery (ip_metadata d) tp agent m now dm /\
    rd_action (ip_decision d) = act_retry /\ rd_not_before (ip_decision d) = Some (ip_not_before d).
Proof.
  unfold should_recover_in_place. intros H.
  destruct (provider_recovery_metadata_from_failure _ _ _ _) as [md|]; [|done].
  cbn [mbind option_bind] in H. cbv zeta in H.
  match type of H with context [decide_provider_recovery md tp agent ?m now dm] =>
    remember m as model' eqn:Em; clear Em end.
  destruct (eqb (rd_action _) act_retry) eqn:Ea; [|done]. rewrite eqb_true in Ea. cbn [negb] in H.
  destruct (rd_not_before _) as [nb|] eqn:En; [|done]. injection H as <-. cbn. eauto.
Qed.

(** A failure recovered in place is a non-credential failure of a launchable agent; the
    workspace waits at least the provider's own retry-after, up to the policy's cap; and once
    the retry is recorded the same failure does not recover in place again, whatever agent,
    model and time it is met with. *)
Theorem repeated_failure_stops (rc message : option string) (details tp : dict) (agent : string)
    (model : option string) (now : datetime) (dm : option string) (d : InPlaceDecision) :
  first_seen details ->
  should_recover_in_place rc message details tp agent model now dm = Some d ->
  is_auth_failure_metadata (ip_metadata d) = false /\
  is_launchable_agent agent = true /\
  (exists delay, ip_not_before d = plus_seconds now delay /\
     let cap := rp_retry_after_cap_seconds (parse_provider_recovery_policy tp) in
     (forall n, get (ip_metadata d) "retry_after_seconds" = VInt n -> Z.min n cap <= delay) /\
     delay <= cap) /\
  (forall agent' model' now' dm',
     should_recover_in_place rc message details (recovering_policy tp d) agent' model' now' dm' = None).
Proof.
  intros Hd H. apply recover_in_place_spec in H as (Hm & m & Hdec & Ha & Hnb).
  rewrite Hdec in Ha, Hnb. split_and!.
  - destruct (is_auth_failure_metadata (ip_metadata d)) eqn:E; [|done].
    rewrite (auth_stops _ tp agent m now dm E) in Ha. done.
  - destruct (decide_outcome (ip_metadata d) tp agent m now dm) as [Ht _|_ Hl _ _ _ _ _|t Ht|t j Ht];
      congruence.
  - rewrite (retry_not_before _ _ _ _ _ _ Ha) in Hnb. injection Hnb as <-. eexists. split; [done|].
    pose proof (retry_delay_bounds (ip_metadata d) tp) as [Hb _]. cbv zeta in Hb |- *. split; [|lia].
    intros n Hn. unfold retry_delay_seconds. rewrite Hn. cbn [nonnegative_int]. lia.
  - intros agent' model' now' dm'. destruct (should_recover_in_place _ _ _ (recovering_policy tp d)
      _ _ _ _) as [d'|] eqn:E; [exfalso|done].
    apply recover_in_place_spec in E as (Hm' & m' & Hdec' & Ha' & _).
    destruct (metadata_classified _ _ _ _ _ Hd Hm) as (c & Hc & Hf).
    destruct (metadata_classified _ _ _ _ _ Hd Hm') as (c' & Hc' & Hf').
    rewrite Hc in Hc'. injection Hc' as <-. rewrite Hdec' in Ha'.
    rewrite (seen_stops _ _ _ _ _ _ _ Hf') in Ha'; [done|].
    unfold recovering_policy. rewrite Hdec, in_place_announced by done.
    unfold announced_state, updated_fingerprints. rewrite Hf. cbn [rs_failure_fingerprints].
    destruct (mem _ _) eqn:Em; [by apply mem_true|]. set_solver.
Qed.

(** A quota failure with a retry-after header, met by codex without fallbacks. *)
Definition quota_message : string := "HTTP 429 from gpt-5, retry-after: 45".

Definition quota_policy : dict :=
  [("provider_recovery", VDict [("max_same_provider_retries", VInt 3)])].

Lemma repeated_failure_stops_witness :
  exists d, should_recover_in_place None (Some quota_message) [] quota_policy "codex" None
              sample_now None = Some d /\
    should_recover_in_place None (Some quota_message) [] (recovering_policy quota_policy d) "codex"
      None sample_now None = None.
Proof.
  destruct (should_recover_in_place None (Some quota_message) [] quota_policy "codex" None
              sample_now None) as [d|] eqn:E.
  - exists d. split; [reflexivity|].
    exact (proj2 (proj2 (proj2 (repeated_failure_stops None (Some quota_message) [] quota_policy
      "codex" None sample_now None d I E))) "codex" None sample_now None).
  - exfalso. revert E. vm_compute. discriminate.
Defined.
