(* ===== verification/CallbackTargets.v ===== *)
(** * Where callbacks may go

    [common/callback_targets.py] and the target validation of [service/callbacks.py]: the
    static policy of a URL, the addresses its host resolves to, and the URL and headers of a
    request pinned to one of those addresses.  [socket.getaddrinfo] is an argument: the
    addresses of a host in order, or [None] for its OSError. *)

From S2P Require Import Prelude PyStr PyNet.
#[local] Open Scope Z_scope.
#[local] Set Warnings "-register-all".

(** ** Public addresses *)

Definition _NAT64_WELL_KNOWN_PREFIX : Z * Z := net_of "64:ff9b::" 96.
Definition _NAT64_LOCAL_USE_PREFIX : Z * Z := net_of "64:ff9b:1::" 48.
Definition _NAT64_TRANSLATION_PREFIXES : list (Z * Z) := [_NAT64_WELL_KNOWN_PREFIX].
Definition _SIX_TO_FOUR_PREFIX : Z * Z := net_of "2002::" 16.
Definition _IPV4_COMPATIBLE_PREFIX : Z * Z := net_of "::" 96.
Definition _IPV4_TRANSLATED_PREFIX : Z * Z := net_of "::ffff:0:0:0" 96.

(** [address.packed]: 16 bytes, most significant first. *)
Definition packed (n : Z) : list Z :=
  map (fun i => (n / 2 ^ (8 * Z.of_nat i)) mod 256) (rev (seq 0 16)).
Definition from_bytes (l : list Z) : Z := fold_left (fun acc b => 256 * acc + b) l 0.

(** [None] is the ValueError of a prefix length RFC 6052 does not define. *)
Definition _extract_nat64_embedded_ipv4_address (n prefix_length : Z) : option Z :=
  if prefix_length =? 96 then Some (from_bytes (drop 12 (packed n)))
  else if negb (mem prefix_length [32; 40; 48; 56; 64]) then None
  else
    let address_without_reserved_octet := take 8 (packed n) ++ drop 9 (packed n) in
    let ipv4_start := Z.to_nat (prefix_length / 8) in
    Some (from_bytes (take 4 (drop ipv4_start address_without_reserved_octet))).

Definition _nat64_embedded_ipv4_address (n : Z) : option Z :=
  match List.find (in_net6 n) _NAT64_TRANSLATION_PREFIXES with
  | Some prefix => _extract_nat64_embedded_ipv4_address n prefix.2
  | None => None
  end.

Definition _callback_target_public_address (address : ip_addr) : ip_addr :=
  match address with
  | IPv4Address _ => address
  | IPv6Address n _ =>
      match ipv4_mapped n with
      | Some m => IPv4Address m
      | None => match _nat64_embedded_ipv4_address n with
                | Some m => IPv4Address m
                | None => address
                end
      end
  end.

Definition _is_blocked_callback_target_address (address : ip_addr) : bool :=
  match address with
  | IPv4Address _ => false
  | IPv6Address n _ =>
      in_net6 n _SIX_TO_FOUR_PREFIX || in_net6 n _NAT64_LOCAL_USE_PREFIX
      || in_net6 n _IPV4_COMPATIBLE_PREFIX || in_net6 n _IPV4_TRANSLATED_PREFIX
  end.

Definition _is_public_callback_target_address (address : ip_addr) : bool :=
  if _is_blocked_callback_target_address address then false
  else
    let public_address := _callback_target_public_address address in
    is_global public_address && negb (is_multicast public_address).

(** ** Hosts *)

Definition is_lower_hex (c : ascii) : bool :=
  is_digit c || ((97 <=? code c) && (code c <=? 102)).

(** One label of a numeric literal. *)
Definition legacy_label (label : string) : bool :=
  if eqb label "" then false
  else
    let lower_label := lower label in
    if starts_with "0x" lower_label then
      let hex_digits := drop_str 2 lower_label in
      negb (eqb hex_digits "") && all_chars is_lower_hex hex_digits
    else isdigit lower_label.

Definition looks_like_legacy_ipv4_literal (hostname : string) : bool :=
  forallb legacy_label (split_on dot hostname).

Definition normalize_host (hostname : string) : string :=
  lower (rstrip_by (Ascii.eqb dot) hostname).

Definition is_public_callback_target_host (hostname : string) : bool :=
  let normalized := normalize_host hostname in
  match ip_address normalized with
  | Some address => _is_public_callback_target_address address
  | None =>
      if eqb normalized "localhost"
         || existsb (fun suffix => ends_with suffix normalized) [".localhost"; ".local"; ".localdomain"]
      then false
      else if negb (has_char dot normalized) then false
      else negb (looks_like_legacy_ipv4_literal normalized)
  end.

(** [None] is the ValueError of a text that is no address. *)
Definition is_public_callback_target_ip (address : string) : option bool :=
  _is_public_callback_target_address <$> ip_address address.

(** ** The policy of a URL *)

Record CallbackSettings : Type := {
  callbacks_require_https : bool;
  callbacks_allowed_hosts : list string
}.

(** The ValueErrors of a validation, by the class that decides how they are recorded. *)
Inductive TargetError : Type :=
| CallbackTargetPolicyError (message : string)
| CallbackTargetPolicyViolationError (message : string)
| TargetValueError (message : string).

Definition target_error_message (e : TargetError) : string :=
  match e with
  | CallbackTargetPolicyError m | CallbackTargetPolicyViolationError m | TargetValueError m => m
  end.

Definition validate_callback_target_url_port (parsed : SplitResult) : option string :=
  match port parsed with
  | inl _ => Some "target_url must include a valid port"
  | inr _ => None
  end.

Definition _validate_callback_target_static_policy (target_url : string)
    (settings : CallbackSettings) : TargetError + string :=
  match urlsplit target_url with
  | inl message => inl (TargetValueError message)
  | inr parsed =>
      if negb (mem (u_scheme parsed) ["http"; "https"])
      then inl (CallbackTargetPolicyError "target_url must use http or https")
      else match hostname parsed with
           | None => inl (CallbackTargetPolicyError "target_url must include a host")
           | Some hostname =>
               match validate_callback_target_url_port parsed with
               | Some message => inl (CallbackTargetPolicyError message)
               | None =>
                   if negb (eqb (username parsed) None) || negb (eqb (password parsed) None)
                   then inl (CallbackTargetPolicyError
                               "target_url must not include userinfo credentials")
                   else if negb (eqb (u_fragment parsed) "")
                   then inl (CallbackTargetPolicyError "target_url must not include a fragment")
                   else
                     let host := normalize_host hostname in
                     if callbacks_require_https settings && negb (eqb (u_scheme parsed) "https")
                     then inl (CallbackTargetPolicyViolationError "target_url must use https")
                     else if negb (eqb (callbacks_allowed_hosts settings) [])
                             && negb (mem host (callbacks_allowed_hosts settings))
                     then inl (CallbackTargetPolicyViolationError
                                 "target_url host is not allowlisted")
                     else if negb (is_public_callback_target_host hostname)
                     then inl (CallbackTargetPolicyError "target_url must use a public host")
                     else inr hostname
               end
           end
  end.

(** ** Resolution *)

Section Resolution.
Variable getaddrinfo : string -> option (list string).

Definition _resolve_callback_target_ip_addresses (hostname : string) : string + list string :=
  match getaddrinfo hostname with
  | None => inl "target_url host resolution failed"
  | Some records => inr (fromkeys records)
  end.

(** The first address that is not public, with the error it gives. *)
Definition address_error (address : string) : option string :=
  match is_public_callback_target_ip address with
  | None => Some (ip_address_error address)
  | Some true => None
  | Some false => Some ("target_url resolved host is not public: " +:+ address)
  end.

Definition is_ip_v4 (address : string) : bool :=
  match ip_address address with Some (IPv4Address _) => true | _ => false end.

(** IPv4 addresses first, otherwise in the order of the resolver. *)
Definition _callback_address_family_leb (x y : string) : bool := is_ip_v4 x || negb (is_ip_v4 y).

Definition _validate_callback_target_dns (hostname : string) : TargetError + list string :=
  match _resolve_callback_target_ip_addresses hostname with
  | inl message => inl (TargetValueError message)
  | inr [] => inl (TargetValueError "target_url host could not be resolved")
  | inr addresses =>
      match omap address_error addresses with
      | message :: _ => inl (TargetValueError message)
      | [] => inr (sorted_by _callback_address_family_leb addresses)
      end
  end.

Definition _validate_callback_target (target_url : string) (settings : CallbackSettings)
  : TargetError + list string :=
  match _validate_callback_target_static_policy target_url settings with
  | inl e => inl e
  | inr hostname => _validate_callback_target_dns hostname
  end.
End Resolution.

(** ** The request *)

Definition _url_host_literal (hostname : string) : string :=
  match ip_address hostname with
  | None => hostname
  | Some (IPv4Address n) => ip_str (IPv4Address n)
  | Some a => "[" +:+ ip_str a +:+ "]"
  end.

Definition _default_callback_port (scheme : string) : option Z :=
  if eqb scheme "http" then Some 80 else if eqb scheme "https" then Some 443 else None.

(** Both are reached with a URL that the policy accepted; [None] is a ValueError. *)
Definition _callback_url_with_connect_ip (target_url connect_ip_address : string) : option string :=
  match urlsplit target_url with
  | inl _ => None
  | inr parsed =>
      match port parsed with
      | inl _ => None
      | inr p =>
          let netloc := _url_host_literal connect_ip_address in
          let netloc := match p with Some n => netloc +:+ ":" +:+ py_str n | None => netloc end in
          Some (urlunsplit (u_scheme parsed) netloc (u_path parsed) (u_query parsed))
      end
  end.

Definition _callback_host_header (target_url : string) : option string :=
  match urlsplit target_url with
  | inl _ => None
  | inr parsed =>
      match hostname parsed, port parsed with
      | Some h, inr p =>
          let host := _url_host_literal h in
          match p with
          | Some n => if eqb (Some n) (_default_callback_port (u_scheme parsed)) then Some host
                      else Some (host +:+ ":" +:+ py_str n)
          | None => Some host
          end
      | _, _ => None
      end
  end.

(** ** Callbacks reach public addresses only

    Whatever form an internal IPv4 address takes inside an IPv6 one, and whatever the
    resolver answers, the addresses a validated target is posted to are public. *)

(** ** Bits *)

Lemma shiftr_field (a n k : Z) : 0 <= k -> 0 <= n < 2 ^ k -> Z.shiftr (a * 2 ^ k + n) k = a.
Proof.
  intros Hk Hn. rewrite Z.shiftr_div_pow2 by done. rewrite Z.add_comm, Z_div_plus_full by lia.
  by rewrite Z.div_small.
Qed.

(** A network inside another, and two networks without a common address. *)
Definition subnet (width : Z) (net net' : Z * Z) : bool :=
  (0 <=? net'.2) && (net'.2 <=? net.2) && (net.2 <=? width) && in_net width net.1 net'.

Definition disjoint_nets (width : Z) (net net' : Z * Z) : bool :=
  let len := Z.min net.2 net'.2 in
  (0 <=? len) && (net.2 <=? width) && (net'.2 <=? width)
  && negb (Z.shiftr net.1 (width - len) =? Z.shiftr net'.1 (width - len)).

Lemma in_net_prefix (width n len : Z) (net : Z * Z) :
  0 <= len <= net.2 -> net.2 <= width -> in_net width n net = true ->
  Z.shiftr n (width - len) = Z.shiftr net.1 (width - len).
Proof.
  unfold in_net. intros Hl Hw H%Z.eqb_eq.
  replace (width - len) with ((width - net.2) + (net.2 - len)) by lia.
  rewrite <- !Z.shiftr_shiftr by lia. by rewrite H.
Qed.

Lemma in_subnet (width n : Z) (net net' : Z * Z) :
  subnet width net net' = true -> in_net width n net = true -> in_net width n net' = true.
Proof.
  unfold subnet. rewrite !andb_true_iff, !Z.leb_le. intros [[[H1 H2] H3] H4] Hn.
  unfold in_net in *. apply Z.eqb_eq in H4. apply Z.eqb_eq. rewrite <- H4.
  by apply in_net_prefix.
Qed.

Lemma in_disjoint (width n : Z) (net net' : Z * Z) :
  disjoint_nets width net net' = true -> in_net width n net = true -> in_net width n net' = false.
Proof.
  unfold disjoint_nets. rewrite !andb_true_iff, !Z.leb_le, negb_true_iff, Z.eqb_neq.
  intros [[[H1 H2] H3] H4] Hn. apply not_true_iff_false. intros Hn'. apply H4.
  rewrite <- (in_net_prefix width n _ net) by (done || lia).
  by rewrite <- (in_net_prefix width n _ net') by (done || lia).
Qed.

(** Inside one of some networks and outside all of others, for a whole network. *)
Definition within (width : Z) (net : Z * Z) (inside outside : list (Z * Z)) : bool :=
  existsb (subnet width net) inside && forallb (disjoint_nets width net) outside.

Lemma in_within (width n : Z) (net : Z * Z) (inside outside : list (Z * Z)) :
  within width net inside outside = true -> in_net width n net = true ->
  existsb (in_net width n) inside = true /\ existsb (in_net width n) outside = false.
Proof.
  unfold within. rewrite andb_true_iff. intros [Hi Ho] Hn. split.
  - apply existsb_exists in Hi as (x & Hx & Hs). apply existsb_exists. exists x. split; [done|].
    by apply (in_subnet _ _ net).
  - apply not_true_iff_false. intros (x & Hx & Hs)%existsb_exists. rewrite forallb_forall in Ho.
    by rewrite (in_disjoint _ _ net x (Ho x Hx) Hn) in Hs.
Qed.

(** ** IPv4 addresses inside others *)

(** The registered ways to write an IPv4 address as an IPv6 one, and the address itself. *)
Inductive embeds (n : Z) : ip_addr -> Prop :=
| embeds_plain : embeds n (IPv4Address n)
| embeds_mapped scope : embeds n (IPv6Address (65535 * 2 ^ 32 + n) scope)
| embeds_nat64 scope : embeds n (IPv6Address (6619035 * 2 ^ 96 + n) scope)
| embeds_nat64_local low scope :
    0 <= low < 2 ^ 80 -> embeds n (IPv6Address (433785077761 * 2 ^ 80 + low) scope)
| embeds_6to4 low scope :
    0 <= low < 2 ^ 80 -> embeds n (IPv6Address (8194 * 2 ^ 112 + (n * 2 ^ 80 + low)) scope)
| embeds_compatible scope : embeds n (IPv6Address n scope)
| embeds_translated scope : embeds n (IPv6Address (65535 * 2 ^ 48 + n) scope).

(** Not the address of a host on the public internet. *)
Definition internal4_networks : list (Z * Z) :=
    [net_of "0.0.0.0" 8; net_of "10.0.0.0" 8; net_of "100.64.0.0" 10; net_of "127.0.0.0" 8;
     net_of "169.254.0.0" 16; net_of "172.16.0.0" 12; net_of "192.168.0.0" 16;
     net_of "198.18.0.0" 15; net_of "224.0.0.0" 4; net_of "240.0.0.0" 4].
Definition internal4 (n : Z) : bool := existsb (in_net4 n) internal4_networks.

Definition internal6_networks : list (Z * Z) :=
    [net_of "::" 128; net_of "::1" 128; net_of "fc00::" 7; net_of "fe80::" 10; net_of "ff00::" 8;
     net_of "2001:db8::" 32; net_of "100::" 64].
Definition internal6 (n : Z) : bool := existsb (in_net6 n) internal6_networks.


Lemma internal4_refused (n : Z) :
  internal4 n = true -> ip4_is_global n && negb (in_net4 n ip4_multicast_network) = false.
Proof.
  intros (net & Hnet & Hn)%existsb_exists.
  assert (Hall : forallb (fun net =>
      within 32 net ip4_private_networks ip4_private_exceptions
      || subnet 32 net ip4_shared_network || subnet 32 net ip4_multicast_network)
      internal4_networks = true) by (vm_compute; reflexivity).
  rewrite forallb_forall in Hall. specialize (Hall net Hnet). rewrite !orb_true_iff in Hall.
  unfold ip4_is_global, ip4_is_private, in_net4 in *. destruct Hall as [[Hw|Hs]|Hs].
  - destruct (in_within _ _ _ _ _ Hw Hn) as [-> ->]. cbn. by rewrite andb_false_r.
  - by rewrite (in_subnet _ _ _ _ Hs Hn).
  - rewrite (in_subnet _ _ _ _ Hs Hn). apply andb_false_r.
Qed.

Lemma internal6_refused (n : Z) (scope : option string) :
  internal6 n = true -> _is_public_callback_target_address (IPv6Address n scope) = false.
Proof.
  intros (net & Hnet & Hn)%existsb_exists.
  assert (Hall : forallb (fun net =>
      subnet 128 net _IPV4_COMPATIBLE_PREFIX
      || disjoint_nets 128 net (net_of "::ffff:0:0" 96)
         && disjoint_nets 128 net _NAT64_WELL_KNOWN_PREFIX
         && (within 128 net ip6_private_networks ip6_private_exceptions
             || subnet 128 net ip6_multicast_network))
      internal6_networks = true) by (vm_compute; reflexivity).
  rewrite forallb_forall in Hall. specialize (Hall net Hnet).
  rewrite orb_true_iff, !andb_true_iff in Hall.
  unfold _is_public_callback_target_address, _is_blocked_callback_target_address.
  unfold in_net6 in *. destruct Hall as [Hs|[[Hm Ht] Hp]].
  - rewrite (in_subnet _ _ _ _ Hs Hn). by rewrite orb_true_r.
  - case_match; [done|].
    assert (Hmap : ipv4_mapped n = None).
    { apply (in_disjoint _ _ _ _ Hm) in Hn. unfold ipv4_mapped.
      change (Z.shiftr n 32 =? 65535) with (in_net 128 n (net_of "::ffff:0:0" 96)). by rewrite Hn. }
    cbn [_callback_target_public_address]. rewrite Hmap.
    unfold _nat64_embedded_ipv4_address. cbn [List.find _NAT64_TRANSLATION_PREFIXES].
    unfold in_net6. rewrite (in_disjoint _ _ _ _ Ht Hn).
    cbn [is_global is_multicast]. unfold ip6_is_private. rewrite Hmap. unfold in_net6.
    apply orb_true_iff in Hp as [Hw|Hs].
    + by destruct (in_within _ _ _ _ _ Hw Hn) as [-> ->].
    + rewrite (in_subnet _ _ _ _ Hs Hn). apply andb_false_r.
Qed.

(** ** Embedded addresses *)

Lemma mapped_field (n : Z) : 0 <= n < 2 ^ 32 -> ipv4_mapped (65535 * 2 ^ 32 + n) = Some n.
Proof.
  intros Hn. unfold ipv4_mapped. rewrite shiftr_field by lia. cbn [Z.eqb Pos.eqb].
  change 4294967295 with (Z.ones 32). rewrite Z.land_ones by lia.
  rewrite Z.add_comm, Z_mod_plus_full. by rewrite Z.mod_small.
Qed.

Lemma last_bytes (n : Z) : from_bytes (drop 12 (packed n)) = n mod 2 ^ 32.
Proof.
  unfold from_bytes. cbn [packed rev seq map drop fold_left app].
  change (Z.of_nat 3) with 3. change (Z.of_nat 2) with 2. change (Z.of_nat 1) with 1.
  change (Z.of_nat 0) with 0. change (2 ^ (8 * 3)) with 16777216. change (2 ^ (8 * 2)) with 65536.
  change (2 ^ (8 * 1)) with 256. change (2 ^ (8 * 0)) with 1. change (2 ^ 32) with 4294967296.
  Z.to_euclidean_division_equations. lia.
Qed.

Lemma nat64_field (n : Z) (scope : option string) :
  0 <= n < 2 ^ 32 ->
  _callback_target_public_address (IPv6Address (6619035 * 2 ^ 96 + n) scope) = IPv4Address n.
Proof.
  intros Hn. replace (6619035 * 2 ^ 96 + n) with ((6619035 * 2 ^ 64) * 2 ^ 32 + n) by lia.
  cbn [_callback_target_public_address]. unfold ipv4_mapped. rewrite shiftr_field by lia.
  replace (6619035 * 2 ^ 64 =? 65535) with false by (vm_compute; reflexivity).
  unfold _nat64_embedded_ipv4_address. cbn [List.find _NAT64_TRANSLATION_PREFIXES].
  unfold in_net6, in_net. change _NAT64_WELL_KNOWN_PREFIX with (6619035 * 2 ^ 96, 96).
  cbn [fst snd]. change (128 - 96) with 32. rewrite shiftr_field by lia.
  replace (6619035 * 2 ^ 64 =? Z.shiftr (6619035 * 2 ^ 96) 32) with true by (vm_compute; reflexivity).
  unfold _extract_nat64_embedded_ipv4_address. cbn [Z.eqb Pos.eqb]. rewrite last_bytes.
  rewrite Z.add_comm, Z_mod_plus_full. by rewrite Z.mod_small.
Qed.

Lemma blocked_field (a k low : Z) (scope : option string) (net : Z * Z) :
  net ∈ [_SIX_TO_FOUR_PREFIX; _NAT64_LOCAL_USE_PREFIX; _IPV4_COMPATIBLE_PREFIX;
         _IPV4_TRANSLATED_PREFIX] ->
  128 - net.2 = k -> 0 <= k -> 0 <= low < 2 ^ k -> Z.shiftr net.1 k = a ->
  _is_public_callback_target_address (IPv6Address (a * 2 ^ k + low) scope) = false.
Proof.
  intros Hnet Hk H0 Hlow Ha. unfold _is_public_callback_target_address,
    _is_blocked_callback_target_address.
  assert (Hin : in_net6 (a * 2 ^ k + low) net = true).
  { unfold in_net6, in_net. rewrite Hk, shiftr_field by done. by apply Z.eqb_eq. }
  rewrite !elem_of_cons in Hnet.
  destruct Hnet as [->|[->|[->|[->|[]%elem_of_nil]]]]; rewrite Hin; by rewrite ?orb_true_r.
Qed.

Ltac solve_blocked := first [discriminate | set_solver | lia | by vm_compute].

Lemma embedded_public (n : Z) (a : ip_addr) :
  0 <= n < 2 ^ 32 -> embeds n a -> _is_public_callback_target_address a = true ->
  ip4_is_global n && negb (in_net4 n ip4_multicast_network) = true.
Proof.
  intros Hn [|scope|scope|low scope Hl|low scope Hl|scope|scope] Ha.
  - exact Ha.
  - unfold _is_public_callback_target_address in Ha. case_match; [done|].
    cbn [_callback_target_public_address] in Ha. rewrite mapped_field in Ha by done. exact Ha.
  - unfold _is_public_callback_target_address in Ha. case_match; [done|].
    rewrite nat64_field in Ha by done. exact Ha.
  - rewrite (blocked_field _ 80 low scope _NAT64_LOCAL_USE_PREFIX) in Ha; solve_blocked.
  - rewrite (blocked_field _ 112 _ scope _SIX_TO_FOUR_PREFIX) in Ha; solve_blocked.
  - replace n with (0 * 2 ^ 32 + n) in Ha by lia.
    rewrite (blocked_field _ 32 _ scope _IPV4_COMPATIBLE_PREFIX) in Ha; solve_blocked.
  - replace (65535 * 2 ^ 48 + n) with ((65535 * 2 ^ 16) * 2 ^ 32 + n) in Ha by lia.
    rewrite (blocked_field _ 32 _ scope _IPV4_TRANSLATED_PREFIX) in Ha; solve_blocked.
Qed.

(** ** Validation *)

(** What the static policy accepts. *)
Record acceptable (settings : CallbackSettings) (parsed : SplitResult) (host : string) : Prop := {
  ac_scheme : u_scheme parsed ∈ ["http"; "https"];
  ac_https : callbacks_require_https settings = true -> u_scheme parsed = "https";
  ac_host : hostname parsed = Some host;
  ac_allowed : callbacks_allowed_hosts settings <> [] ->
               normalize_host host ∈ callbacks_allowed_hosts settings;
  ac_port : exists p, port parsed = inr p;
  ac_userinfo : username parsed = None /\ password parsed = None;
  ac_fragment : u_fragment parsed = "";
  ac_public : is_public_callback_target_host host = true
}.

Lemma static_policy_spec (target_url host : string) (settings : CallbackSettings) :
  _validate_callback_target_static_policy target_url settings = inr host <->
  exists parsed, urlsplit target_url = inr parsed /\ acceptable settings parsed host.
Proof.
  unfold _validate_callback_target_static_policy. split.
  - destruct (urlsplit target_url) as [m|parsed]; [done|]. intros H. exists parsed. split; [done|].
    revert H. destruct (mem (u_scheme parsed) _) eqn:Es; [cbn [negb]|done].
    destruct (hostname parsed) as [h|] eqn:Eh; [|done].
    unfold validate_callback_target_url_port. destruct (port parsed) as [|p] eqn:Ep; [done|].
    destruct (eqb (username parsed) None) eqn:Eu; [cbn [negb orb]|done].
    destruct (eqb (password parsed) None) eqn:Ew; [cbn [negb]|done].
    destruct (eqb (u_fragment parsed) "") eqn:Ef; [cbn [negb]|done].
    destruct (callbacks_require_https settings && _) eqn:Eq; [done|].
    destruct (negb (eqb (callbacks_allowed_hosts settings) []) && _) eqn:Ea; [done|].
    destruct (is_public_callback_target_host h) eqn:Ei; [cbn [negb]|done]. intros [= <-].
    rewrite mem_true in Es. rewrite eqb_true in Eu, Ew. rewrite eqb_true in Ef. split; [done| |done| |by exists p|done|done|done].
    + intros Hq. rewrite Hq in Eq. apply negb_false_iff in Eq. by rewrite eqb_true in Eq.
    + intros Hne. rewrite (proj2 (eqb_false _ _) Hne) in Ea. apply negb_false_iff in Ea.
      by rewrite mem_true in Ea.
  - intros (parsed & -> & [Hs Hq Hh Ha [p Hp] [Hu Hw] Hf Hi]).
    rewrite (proj2 (mem_true _ _) Hs), Hh. cbn [negb].
    unfold validate_callback_target_url_port. rewrite Hp, Hu, Hw, Hf, !eqb_refl. cbn [negb orb].
    destruct (callbacks_require_https settings) eqn:E.
    + rewrite Hq, eqb_refl by done. cbn [negb andb].
      destruct (eqb (callbacks_allowed_hosts settings) []) eqn:Ea; cbn [negb andb].
      * by rewrite Hi.
      * rewrite eqb_false in Ea. by rewrite (proj2 (mem_true _ _) (Ha Ea)), Hi.
    + cbn [andb]. destruct (eqb (callbacks_allowed_hosts settings) []) eqn:Ea; cbn [negb andb].
      * by rewrite Hi.
      * rewrite eqb_false in Ea. by rewrite (proj2 (mem_true _ _) (Ha Ea)), Hi.
Qed.

(** An address no request may reach, in any of its forms. *)
Definition internal (a : ip_addr) : Prop :=
  (exists n, 0 <= n < 2 ^ 32 /\ embeds n a /\ internal4 n = true) \/
  (exists n scope, a = IPv6Address n scope /\ internal6 n = true).

Lemma public_not_internal (a : ip_addr) :
  _is_public_callback_target_address a = true -> ~ internal a.
Proof.
  intros Ha [(n & Hn & He & Hi)|(n & scope & -> & Hi)].
  - apply internal4_refused in Hi. rewrite (embedded_public n a Hn He Ha) in Hi. done.
  - by rewrite (internal6_refused n scope Hi) in Ha.
Qed.

Lemma no_address_error (address : string) :
  address_error address = None <->
  exists ip, ip_address address = Some ip /\ _is_public_callback_target_address ip = true.
Proof.
  unfold address_error, is_public_callback_target_ip. destruct (ip_address address) as [ip|]; simpl.
  - destruct (_is_public_callback_target_address ip) eqn:E; [naive_solver|].
    split; [done|]. intros (? & [= <-] & ?). congruence.
  - split; [done|]. by intros (? & ? & ?).
Qed.

(** The addresses of a validated target are all the addresses its host resolves to, each
    once, and none of them is internal: not a private, shared, loopback, link-local,
    benchmarking, multicast or reserved IPv4 address, neither as it is nor inside an IPv6
    address in a mapped, NAT64, 6to4, compatible or translated form, nor an internal IPv6
    address.  One such answer refuses the whole host.  The URL itself is http or https, https
    where required, on an allowed host, without credentials or fragment. *)
Theorem validated_targets_public (getaddrinfo : string -> option (list string))
    (target_url : string) (settings : CallbackSettings) (addresses : list string)
    (Hv : _validate_callback_target getaddrinfo target_url settings = inr addresses) :
  exists parsed host records,
    urlsplit target_url = inr parsed /\ acceptable settings parsed host /\
    getaddrinfo host = Some records /\ addresses <> [] /\ NoDup addresses /\
    (forall a, a ∈ addresses <-> a ∈ records) /\
    forall a, a ∈ records -> exists ip, ip_address a = Some ip /\ ~ internal ip.
Proof.
  unfold _validate_callback_target in Hv.
  destruct (_validate_callback_target_static_policy target_url settings) as [e|host] eqn:Ep; [done|].
  apply static_policy_spec in Ep as (parsed & Hu & Ha). exists parsed, host.
  unfold _validate_callback_target_dns, _resolve_callback_target_ip_addresses in Hv.
  destruct (getaddrinfo host) as [records|]; [|done]. exists records.
  destruct (fromkeys records) as [|a l] eqn:Ek; [done|]. rewrite <- Ek in Hv.
  destruct (omap address_error (fromkeys records)) as [|m ms] eqn:Eo; [|done].
  injection Hv as <-.
  assert (Hin : forall x, x ∈ sorted_by _callback_address_family_leb (fromkeys records)
                          <-> x ∈ records) by (intros x; by rewrite elem_of_sorted_by, elem_of_fromkeys).
  split_and!; try done.
  - intros Hn. assert (Hx : a ∈ @nil string).
    { rewrite <- Hn, elem_of_sorted_by, Ek. left. } by apply elem_of_nil in Hx.
  - apply NoDup_sorted_by, NoDup_fromkeys.
  - intros x Hx. apply elem_of_fromkeys in Hx. apply (proj1 (omap_nil _ _) Eo) in Hx.
    apply no_address_error in Hx as (ip & Hip & Hpub). exists ip. split; [done|].
    by apply public_not_internal.
Qed.

Definition sample_resolver (host : string) : option (list string) :=
  if eqb host "hooks.example.com" then Some ["2606:4700::1111"; "93.184.216.34"] else None.
Definition sample_settings : CallbackSettings :=
  {| callbacks_require_https := true; callbacks_allowed_hosts := ["hooks.example.com"] |}.

Lemma validated_targets_public_witness :
  _validate_callback_target sample_resolver "https://Hooks.Example.com/awf?x=1" sample_settings
  = inr ["93.184.216.34"; "2606:4700::1111"] /\
  exists ip, ip_address "93.184.216.34" = Some ip /\ ~ internal ip.
Proof.
  assert (Hv : _validate_callback_target sample_resolver "https://Hooks.Example.com/awf?x=1"
                 sample_settings = inr ["93.184.216.34"; "2606:4700::1111"])
    by (vm_compute; reflexivity).
  split; [exact Hv|].
  destruct (validated_targets_public _ _ _ _ Hv) as (parsed & host & records & _ & _ & _ & _ & _ & Hin & Hall).
  apply Hall, Hin. left.
Defined.
