(* ===== verification/Callbacks.v ===== *)
(** * Callbacks

    [common/callback_events.py], the callback repositories of
    [db/repositories/workspace_repo_callbacks.py] and [service/callbacks.py]: subscriptions
    created once for an idempotency key, deliveries queued once for an event, and the drain
    that attempts what is due.  The state is the two callback tables; what other parts write
    and the drain only reads (the restore holds and the workspaces) is a record beside them.

    What a drain meets is an argument: for each delivery the readings of the clock, the
    answers of the resolver and of the receiver.  An exception is its class and its text. *)

From S2P Require Import Prelude PyStr PyTime PyVal Json Sha256 SchedulerQuery AuditPayload.
From S2P Require Import PyNet CallbackTargets.
#[local] Open Scope Z_scope.
#[local] Set Warnings "-register-all".

(** ** Event types *)

Definition CALLBACK_EVENT_WILDCARDS : list string := ["workspace.*"; "merge.*"; "operation.*"].
Definition PUBLIC_CALLBACK_EVENT_TYPES : list string :=
  ["workspace.created"; "workspace.state_changed"; "workspace.secondary_failure_recorded";
   "workspace.attention_required"; "workspace.attention_cleared"; "operation.state_changed";
   "merge.candidate_updated"].

Definition is_valid_callback_subscription_event_type (event_type : string) : bool :=
  mem event_type CALLBACK_EVENT_WILDCARDS || mem event_type PUBLIC_CALLBACK_EVENT_TYPES.

Definition callback_subscription_matches_event_type (subscription_event_type event_type : string)
  : bool :=
  if negb (mem event_type PUBLIC_CALLBACK_EVENT_TYPES) then false
  else if mem subscription_event_type CALLBACK_EVENT_WILDCARDS
  then starts_with (take_str (str_len subscription_event_type - 1) subscription_event_type) event_type
  else eqb subscription_event_type event_type.

Definition _callback_subscription_event_type_candidates (event_type : string) : list string :=
  if negb (mem event_type PUBLIC_CALLBACK_EVENT_TYPES) then []
  else
    let '(namespace, separator, _) := partition dot event_type in
    let wildcard := namespace +:+ ".*" in
    event_type
    :: (if separator && mem wildcard CALLBACK_EVENT_WILDCARDS then [wildcard] else []).

(** EXISTS over the elements of the stored list. *)
Definition _callback_subscription_event_type_filter (event_type_candidates event_types : list string)
  : bool := existsb (fun value => mem value event_type_candidates) event_types.

(** The event types of a request: [None] is the validation error. *)
Definition validate_event_types (value : list string) : option (list string) :=
  let stripped := map strip value in
  if forallb is_valid_callback_subscription_event_type stripped then Some (fromkeys stripped)
  else None.

(** ** Rows *)

Definition CALLBACK_PENDING : string := "pending".
Definition CALLBACK_RUNNING : string := "running".
Definition CALLBACK_SUCCEEDED : string := "succeeded".
Definition CALLBACK_FAILED : string := "failed".
Definition CALLBACK_SKIPPED : string := "skipped".

Record CallbackSubscription : Type := {
  cs_name : string;
  cs_target_url : string;
  cs_event_types : list string;
  cs_enabled : bool;
  cs_timeout_seconds : Z;
  cs_max_attempts : Z;
  cs_initial_backoff_seconds : Z;
  cs_idempotency_key : string;
  cs_request_hash : string;
  cs_created_at : datetime;
  cs_updated_at : datetime;
  cs_disabled_at : option datetime
}.

(** The columns an attempt writes. *)
Record DeliveryState : Type := {
  ds_status : string;
  ds_attempt_count : Z;
  ds_next_attempt_at : option datetime;
  ds_last_attempt_at : option datetime;
  ds_delivered_at : option datetime;
  ds_response_status_code : option Z;
  ds_error_code : option string;
  ds_error_message : option string
}.

Record CallbackDelivery : Type := {
  cd_subscription_id : string;
  cd_event_kind : string;
  cd_event_type : string;
  cd_source_id : string;
  cd_dedupe_key : string;
  cd_workspace_id : option string;
  cd_operation_id : option string;
  cd_merge_candidate_id : option string;
  cd_envelope : dict;
  cd_idempotency_key : string;
  cd_max_attempts : Z;
  cd_created_at : datetime;
  cd_state : DeliveryState
}.

Record CallbackDb : Type := {
  subscriptions : gmap string CallbackSubscription;
  deliveries : gmap string CallbackDelivery
}.

Definition set_subscription (db : CallbackDb) (id : string) (s : CallbackSubscription) : CallbackDb :=
  {| subscriptions := <[id := s]> (subscriptions db); deliveries := deliveries db |}.
Definition set_delivery (db : CallbackDb) (id : string) (d : CallbackDelivery) : CallbackDb :=
  {| subscriptions := subscriptions db; deliveries := <[id := d]> (deliveries db) |}.

(** Nothing is written outside the state and the envelope of a delivery. *)
Definition with_state (d : CallbackDelivery) (envelope : dict) (s : DeliveryState)
  : CallbackDelivery :=
  {| cd_subscription_id := cd_subscription_id d; cd_event_kind := cd_event_kind d;
     cd_event_type := cd_event_type d; cd_source_id := cd_source_id d;
     cd_dedupe_key := cd_dedupe_key d; cd_workspace_id := cd_workspace_id d;
     cd_operation_id := cd_operation_id d; cd_merge_candidate_id := cd_merge_candidate_id d;
     cd_envelope := envelope; cd_idempotency_key := cd_idempotency_key d;
     cd_max_attempts := cd_max_attempts d; cd_created_at := cd_created_at d; cd_state := s |}.

(** ** What a restore of the node holds back *)

Record WorkGuards : Type := {
  wg_restore_quarantine : bool;
  wg_held : list (string * string);                (* family, row *)
  wg_task_policies : gmap string pyval;            (* the workspaces *)
  wg_workspace_tasks : list (string * string);     (* workspace, task of its attempts *)
  wg_operation_workspaces : gmap string string;
  wg_candidate_workspaces : gmap string string;
  wg_event_workspaces : gmap string string
}.

Definition restore_row_allows_work (g : WorkGuards) (family row_id : string) : bool :=
  negb (wg_restore_quarantine g) && negb (mem (family, row_id) (wg_held g)).

(** Of the texts of JSON values only that of a string is [attention]. *)
Definition needs_attention (policy : pyval) : bool :=
  match json_path policy ["hosted_recovery"; "disposition"] with
  | VStr s => eqb s "attention"
  | _ => false
  end.

Definition restored_for_attention (policy : pyval) : bool :=
  negb (is_none (json_path policy ["hosted_recovery"; "restore_id"])) && needs_attention policy.

(** The workspaces a delivery is about. *)
Definition delivery_workspaces (g : WorkGuards) (d : CallbackDelivery) : list string :=
  omap id
    [cd_workspace_id d;
     cd_operation_id d ≫= (fun id => wg_operation_workspaces g !! id);
     cd_merge_candidate_id d ≫= (fun id => wg_candidate_workspaces g !! id);
     wg_event_workspaces g !! cd_source_id d].

Definition restore_callback_allows_work (g : WorkGuards) (id : string) (d : CallbackDelivery) : bool :=
  restore_row_allows_work g "callback_deliveries" id
  && restore_row_allows_work g "callback_subscriptions" (cd_subscription_id d)
  && negb (existsb (fun ws => match wg_task_policies g !! ws with
                              | Some policy => restored_for_attention policy
                              | None => false
                              end) (delivery_workspaces g d)).

Definition recovery_allows_work (g : WorkGuards) (ws : string) (policy : pyval) : bool :=
  negb (wg_restore_quarantine g)
  && negb (existsb (fun p => eqb p.1 ws && mem ("tasks", p.2) (wg_held g)) (wg_workspace_tasks g))
  && ((is_none (json_path policy ["hosted_node"])
       && is_none (json_path policy ["hosted_recovery"; "restore_id"]))
      || negb (needs_attention policy)).

(** ** Subscriptions *)

Record CallbackRequest : Type := {
  cr_name : string;
  cr_target_url : string;
  cr_event_types : list string;
  cr_enabled : bool;
  cr_timeout_seconds : Z;
  cr_max_attempts : Z;
  cr_initial_backoff_seconds : Z
}.

(** [json.dumps] of the request, with sorted keys and without spaces. *)
Definition callback_request_body (r : CallbackRequest) : string :=
  let field (k v : string) := dumps_str k +:+ ":" +:+ v in
  "{" +:+ join ","
    [field "enabled" (if cr_enabled r then "true" else "false");
     field "event_types" ("[" +:+ join "," (map dumps_str (cr_event_types r)) +:+ "]");
     field "initial_backoff_seconds" (py_str (cr_initial_backoff_seconds r));
     field "max_attempts" (py_str (cr_max_attempts r));
     field "name" (dumps_str (cr_name r));
     field "target_url" (dumps_str (cr_target_url r));
     field "timeout_seconds" (py_str (cr_timeout_seconds r))] +:+ "}".

Definition callback_request_hash (r : CallbackRequest) : string :=
  sha256_hex (callback_request_body r).

Definition sub_by_key (db : CallbackDb) (key : string) : option (string * CallbackSubscription) :=
  head (List.filter (fun p => eqb (cs_idempotency_key p.2) key) (map_to_list (subscriptions db))).

Definition new_subscription (r : CallbackRequest) (key request_hash : string) (now : datetime)
  : CallbackSubscription :=
  {| cs_name := cr_name r; cs_target_url := cr_target_url r; cs_event_types := cr_event_types r;
     cs_enabled := cr_enabled r; cs_timeout_seconds := cr_timeout_seconds r;
     cs_max_attempts := cr_max_attempts r;
     cs_initial_backoff_seconds := cr_initial_backoff_seconds r; cs_idempotency_key := key;
     cs_request_hash := request_hash; cs_created_at := now; cs_updated_at := now;
     cs_disabled_at := if cr_enabled r then None else Some now |}.

Inductive CallbackError : Type :=
| CallbackIdempotencyConflictError
| RejectedTarget (e : TargetError).

(** [new_id] is what [new_callback_subscription_id()] returns.  The key's lock, or the
    insert that does nothing on a conflict, makes the lookup and the insert one step. *)
Definition create_idempotent (db : CallbackDb) (r : CallbackRequest)
    (key request_hash new_id : string) (now : datetime)
  : CallbackError + (CallbackDb * string * bool) :=
  match sub_by_key db key with
  | Some (id, existing) =>
      if negb (eqb (cs_request_hash existing) request_hash)
      then inl CallbackIdempotencyConflictError
      else inr (db, id, false)
  | None => inr (set_subscription db new_id (new_subscription r key request_hash now), new_id, true)
  end.

Definition register (db : CallbackDb) (settings : CallbackSettings) (r : CallbackRequest)
    (key new_id : string) (now : datetime) : CallbackError + (CallbackDb * string) :=
  match _validate_callback_target_static_policy (cr_target_url r) settings with
  | inl e => inl (RejectedTarget e)
  | inr _ =>
      match create_idempotent db r key (callback_request_hash r) new_id now with
      | inl e => inl e
      | inr (db', id, _) => inr (db', id)
      end
  end.

Definition replay_existing (db : CallbackDb) (r : CallbackRequest) (key : string)
  : CallbackError + option string :=
  match sub_by_key db key with
  | None => inr None
  | Some (id, existing) =>
      if negb (eqb (cs_request_hash existing) (callback_request_hash r))
      then inl CallbackIdempotencyConflictError
      else inr (Some id)
  end.

(** [order_by(created_at, id)] *)
Definition by_created {A : Type} (created_at : A -> datetime) (x y : string * A) : bool :=
  (instant (created_at x.2) <? instant (created_at y.2))
  || ((instant (created_at x.2) =? instant (created_at y.2)) && str_leb x.1 y.1).

Definition list_enabled_for_event_type (db : CallbackDb) (g : WorkGuards) (event_type : string)
  : list (string * CallbackSubscription) :=
  match _callback_subscription_event_type_candidates event_type with
  | [] => []
  | candidates =>
      sorted_by (by_created cs_created_at)
        (List.filter (fun p => cs_enabled p.2
                               && restore_row_allows_work g "callback_subscriptions" p.1
                               && _callback_subscription_event_type_filter candidates
                                    (cs_event_types p.2))
           (map_to_list (subscriptions db)))
  end.

(** ** Queueing *)

Inductive CallbackEventKind : Type := event_workspace | event_merge | event_operation.

Definition event_kind_value (k : CallbackEventKind) : string :=
  match k with
  | event_workspace => "workspace"
  | event_merge => "merge"
  | event_operation => "operation"
  end.

(** What an event becomes for each of its subscriptions. *)
Record CallbackEvent : Type := {
  ce_kind : CallbackEventKind;
  ce_type : string;
  ce_source_id : string;
  ce_dedupe_key : string;
  ce_workspace_id : option string;
  ce_operation_id : option string;
  ce_merge_candidate_id : option string;
  ce_envelope : dict
}.

Definition delivery_metadata (id subscription_id idempotency_key dedupe_key : string)
    (attempt_count max_attempts : Z) : dict :=
  [("id", VStr id); ("subscription_id", VStr subscription_id);
   ("idempotency_key", VStr idempotency_key); ("dedupe_key", VStr dedupe_key);
   ("attempt_count", VInt attempt_count); ("max_attempts", VInt max_attempts)].

Definition delivery_by_dedupe_key (db : CallbackDb) (subscription_id dedupe_key : string)
  : option (string * CallbackDelivery) :=
  head (List.filter (fun p => eqb (cd_subscription_id p.2) subscription_id
                              && eqb (cd_dedupe_key p.2) dedupe_key)
          (map_to_list (deliveries db))).

Definition new_delivery (id subscription_id : string) (s : CallbackSubscription) (e : CallbackEvent)
    (now created_at : datetime) : CallbackDelivery :=
  let idempotency_key := "callback-delivery:" +:+ subscription_id +:+ ":" +:+ ce_dedupe_key e in
  {| cd_subscription_id := subscription_id; cd_event_kind := event_kind_value (ce_kind e);
     cd_event_type := ce_type e; cd_source_id := ce_source_id e;
     cd_dedupe_key := ce_dedupe_key e; cd_workspace_id := ce_workspace_id e;
     cd_operation_id := ce_operation_id e; cd_merge_candidate_id := ce_merge_candidate_id e;
     cd_envelope :=
       set_key (ce_envelope e) "delivery"
         (VDict (delivery_metadata id subscription_id idempotency_key (ce_dedupe_key e) 0
                   (cs_max_attempts s)));
     cd_idempotency_key := idempotency_key; cd_max_attempts := cs_max_attempts s;
     cd_created_at := created_at;
     cd_state := {| ds_status := CALLBACK_PENDING; ds_attempt_count := 0;
                    ds_next_attempt_at := Some now; ds_last_attempt_at := None;
                    ds_delivered_at := None; ds_response_status_code := None;
                    ds_error_code := None; ds_error_message := None |} |}.

(** [fresh] is the id a new row would take, with the clock of the caller and of the row. *)
Definition enqueue_once (db : CallbackDb) (subscription_id : string) (s : CallbackSubscription)
    (e : CallbackEvent) (fresh : string * datetime * datetime) : CallbackDb * string * bool :=
  match delivery_by_dedupe_key db subscription_id (ce_dedupe_key e) with
  | Some (id, _) => (db, id, false)
  | None =>
      let '(new_id, now, created_at) := fresh in
      (set_delivery db new_id (new_delivery new_id subscription_id s e now created_at), new_id, true)
  end.

(** One delivery a subscription; [fresh] gives the new ids by subscription. *)
Fixpoint enqueue_each (db : CallbackDb) (e : CallbackEvent)
    (fresh : string -> string * datetime * datetime) (subs : list (string * CallbackSubscription))
  : CallbackDb * list string :=
  match subs with
  | [] => (db, [])
  | (sid, s) :: subs' =>
      let '(db1, id, _) := enqueue_once db sid s e (fresh sid) in
      let '(db2, ids) := enqueue_each db1 e fresh subs' in
      (db2, id :: ids)
  end.

Definition enqueue_event (db : CallbackDb) (g : WorkGuards) (e : CallbackEvent)
    (fresh : string -> string * datetime * datetime) : CallbackDb * list string :=
  enqueue_each db e fresh (list_enabled_for_event_type db g (ce_type e)).

(** *** The sources of events *)

Record EventRow : Type := {
  er_id : string; er_workspace_id : string; er_event_type : string;
  er_old_state : option string; er_new_state : option string; er_reason_code : option string;
  er_occurred_at : datetime
}.

Record OperationRow : Type := {
  or_id : string; or_workspace_id : string; or_type : string; or_status : string;
  or_error_code : option string; or_error_message : option string;
  or_created_at : datetime; or_started_at : option datetime; or_finished_at : option datetime
}.

Record CandidateRow : Type := {
  kr_id : string; kr_workspace_id : string; kr_task_id : string; kr_attempt_id : string;
  kr_status : string; kr_ready : bool; kr_manual_merge_required : bool;
  kr_waiting_for_monitor : bool; kr_failed_or_cancelled : bool; kr_completed : bool;
  kr_not_canonical : bool; kr_policy_blocked : bool; kr_stale : bool;
  kr_stale_reason : option string; kr_updated_at : datetime
}.

Definition _isoformat (value : option datetime) : pyval :=
  match value with None => VNone | Some t => VStr (isoformat t) end.

Definition event_header (kind : CallbackEventKind) (event_type source_id : string)
    (occurred_at : option datetime) : pyval :=
  VDict [("kind", VStr (event_kind_value kind)); ("type", VStr event_type);
         ("source_id", VStr source_id); ("occurred_at", _isoformat occurred_at)].

Definition _workspace_event_envelope (e : EventRow) : dict :=
  [("event", event_header event_workspace (er_event_type e) (er_id e) (Some (er_occurred_at e)));
   ("workspace", VDict [("id", VStr (er_workspace_id e)); ("old_state", opt_str (er_old_state e));
                        ("new_state", opt_str (er_new_state e));
                        ("reason_code", opt_str (er_reason_code e))])].

(** [finished_at or started_at or created_at] *)
Definition operation_occurred_at (o : OperationRow) : option datetime :=
  match or_finished_at o, or_started_at o with
  | Some t, _ => Some t
  | None, Some t => Some t
  | None, None => Some (or_created_at o)
  end.

Definition _operation_envelope (o : OperationRow) (event_type : string) : dict :=
  [("event", event_header event_operation event_type (or_id o) (operation_occurred_at o));
   ("operation", VDict [("id", VStr (or_id o)); ("workspace_id", VStr (or_workspace_id o));
                        ("type", VStr (or_type o)); ("status", VStr (or_status o));
                        ("error_code", opt_str (or_error_code o));
                        ("error_message", opt_str (or_error_message o));
                        ("created_at", _isoformat (Some (or_created_at o)));
                        ("started_at", _isoformat (or_started_at o));
                        ("finished_at", _isoformat (or_finished_at o))])].

Definition _merge_envelope (k : CandidateRow) (event_type : string) : dict :=
  [("event", event_header event_merge event_type (kr_id k) (Some (kr_updated_at k)));
   ("merge", VDict [("candidate_id", VStr (kr_id k)); ("workspace_id", VStr (kr_workspace_id k));
                    ("task_id", VStr (kr_task_id k)); ("attempt_id", VStr (kr_attempt_id k));
                    ("status", VStr (kr_status k)); ("ready", VBool (kr_ready k));
                    ("manual_merge_required", VBool (kr_manual_merge_required k));
                    ("waiting_for_monitor", VBool (kr_waiting_for_monitor k));
                    ("failed_or_cancelled", VBool (kr_failed_or_cancelled k));
                    ("completed", VBool (kr_completed k));
                    ("not_canonical", VBool (kr_not_canonical k));
                    ("policy_blocked", VBool (kr_policy_blocked k)); ("stale", VBool (kr_stale k));
                    ("stale_reason", opt_str (kr_stale_reason k));
                    ("updated_at", _isoformat (Some (kr_updated_at k)))])].

Definition workspace_callback (e : EventRow) : CallbackEvent :=
  {| ce_kind := event_workspace; ce_type := er_event_type e; ce_source_id := er_id e;
     ce_dedupe_key := "workspace:" +:+ er_id e; ce_workspace_id := Some (er_workspace_id e);
     ce_operation_id := None; ce_merge_candidate_id := None;
     ce_envelope := _workspace_event_envelope e |}.

Definition operation_callback (o : OperationRow) (event_type : string) : CallbackEvent :=
  {| ce_kind := event_operation; ce_type := event_type; ce_source_id := or_id o;
     ce_dedupe_key := "operation:" +:+ event_type +:+ ":" +:+ or_id o;
     ce_workspace_id := Some (or_workspace_id o); ce_operation_id := Some (or_id o);
     ce_merge_candidate_id := None; ce_envelope := _operation_envelope o event_type |}.

Definition merge_callback (k : CandidateRow) (event_type : string) : CallbackEvent :=
  {| ce_kind := event_merge; ce_type := event_type; ce_source_id := kr_id k;
     ce_dedupe_key := "merge:" +:+ event_type +:+ ":" +:+ kr_id k;
     ce_workspace_id := Some (kr_workspace_id k); ce_operation_id := None;
     ce_merge_candidate_id := Some (kr_id k); ce_envelope := _merge_envelope k event_type |}.

(** A row that is gone queues nothing. *)
Definition enqueue_workspace_event (db : CallbackDb) (g : WorkGuards) (event : option EventRow)
    (fresh : string -> string * datetime * datetime) : CallbackDb * list string :=
  match event with
  | None => (db, [])
  | Some e => enqueue_event db g (workspace_callback e) fresh
  end.

Definition enqueue_operation_event (db : CallbackDb) (g : WorkGuards)
    (operation : option OperationRow) (event_type : string)
    (fresh : string -> string * datetime * datetime) : CallbackDb * list string :=
  match operation with
  | None => (db, [])
  | Some o => enqueue_event db g (operation_callback o event_type) fresh
  end.

Definition enqueue_merge_event (db : CallbackDb) (g : WorkGuards) (candidate : option CandidateRow)
    (event_type : string) (fresh : string -> string * datetime * datetime)
  : CallbackDb * list string :=
  match candidate with
  | None => (db, [])
  | Some k => enqueue_event db g (merge_callback k event_type) fresh
  end.
