(* ===== verification/CallbackDrain.v ===== *)
(** * Delivering callbacks

    The drain of [service/callbacks.py]: what is due, the attempt of one delivery with its
    validation, its pinned requests and their errors, and how each outcome is recorded. *)

From S2P Require Import Prelude PyStr PyTime PyVal AuditPayload PyNet CallbackTargets.
From S2P Require Import Callbacks.
#[local] Open Scope Z_scope.
#[local] Set Warnings "-register-all".

(** ** What is due *)

Definition is_due (g : WorkGuards) (due_at : datetime) (p : string * CallbackDelivery) : bool :=
  let d := p.2 in
  eqb (ds_status (cd_state d)) CALLBACK_PENDING
  && restore_callback_allows_work g p.1 d
  && match cd_workspace_id d with
     | None => true
     | Some ws => match wg_task_policies g !! ws with
                  | Some policy => recovery_allows_work g ws policy
                  | None => false
                  end
     end
  && match ds_next_attempt_at (cd_state d) with
     | None => true
     | Some t => instant t <=? instant due_at
     end.

Definition list_due (db : CallbackDb) (g : WorkGuards) (due_at : datetime) (limit : nat)
  : list (string * CallbackDelivery) :=
  take limit (sorted_by (by_created cd_created_at)
                (List.filter (is_due g due_at) (map_to_list (deliveries db)))).

(** ** Writes of one delivery *)

Definition set_state (d : CallbackDelivery) (s : DeliveryState) : CallbackDelivery :=
  with_state d (cd_envelope d) s.

Definition mark_attempt_started (d : CallbackDelivery) (now : datetime) : CallbackDelivery :=
  let s := cd_state d in
  set_state d
    {| ds_status := CALLBACK_RUNNING; ds_attempt_count := ds_attempt_count s + 1;
       ds_next_attempt_at := None; ds_last_attempt_at := Some now;
       ds_delivered_at := ds_delivered_at s; ds_response_status_code := None;
       ds_error_code := None; ds_error_message := None |}.

Definition sync_envelope_delivery_metadata (id : string) (d : CallbackDelivery) : CallbackDelivery :=
  let metadata :=
    dict_update (as_mapping (get (cd_envelope d) "delivery"))
      (delivery_metadata id (cd_subscription_id d) (cd_idempotency_key d) (cd_dedupe_key d)
         (ds_attempt_count (cd_state d)) (cd_max_attempts d)) in
  with_state d (set_key (cd_envelope d) "delivery" (VDict metadata)) (cd_state d).

Definition mark_succeeded (d : CallbackDelivery) (response_status_code : Z) (now : datetime)
  : CallbackDelivery :=
  let s := cd_state d in
  set_state d
    {| ds_status := CALLBACK_SUCCEEDED; ds_attempt_count := ds_attempt_count s;
       ds_next_attempt_at := None; ds_last_attempt_at := ds_last_attempt_at s;
       ds_delivered_at := Some now; ds_response_status_code := Some response_status_code;
       ds_error_code := None; ds_error_message := None |}.

Definition plus_seconds (t : datetime) (n : Z) : datetime :=
  {| dt_us := dt_us t + us_per_second * n; dt_offset := dt_offset t |}.

Definition mark_failed_or_retry (d : CallbackDelivery) (error_code error_message : string)
    (response_status_code : option Z) (backoff_seconds : Z) (now : datetime) : CallbackDelivery :=
  let s := cd_state d in
  let exhausted := cd_max_attempts d <=? ds_attempt_count s in
  set_state d
    {| ds_status := if exhausted then CALLBACK_FAILED else CALLBACK_PENDING;
       ds_attempt_count := ds_attempt_count s;
       ds_next_attempt_at := if exhausted then None else Some (plus_seconds now backoff_seconds);
       ds_last_attempt_at := ds_last_attempt_at s; ds_delivered_at := ds_delivered_at s;
       ds_response_status_code := response_status_code; ds_error_code := Some error_code;
       ds_error_message := Some (take_str 512 error_message) |}.

Definition mark_skipped (d : CallbackDelivery) (error_code error_message : string) (now : datetime)
  : CallbackDelivery :=
  let s := cd_state d in
  set_state d
    {| ds_status := CALLBACK_SKIPPED; ds_attempt_count := ds_attempt_count s;
       ds_next_attempt_at := None; ds_last_attempt_at := Some now;
       ds_delivered_at := ds_delivered_at s;
       ds_response_status_code := ds_response_status_code s; ds_error_code := Some error_code;
       ds_error_message := Some (take_str 512 error_message) |}.

(** ** Posting to the validated addresses *)

Record PyException : Type := { ex_class : string; ex_text : string }.

(** What one request comes to: a response, the timeout that wraps it, or an exception. *)
Inductive PostResult : Type :=
| post_response (status_code : Z)
| post_timeout
| post_raises (e : PyException).

Inductive PostOutcome : Type :=
| posted (status_code : Z)
| budget_exceeded (message : string)
| post_failed (e : PyException).

Definition _callback_address_failure_summary (failures : list (string * PyException)) : string :=
  join ", " (map (fun f => f.1 +:+ " (" +:+ ex_class f.2 +:+ ")") failures).

(** [str(ExceptionGroup(message, exceptions))], of two exceptions at least. *)
Definition exception_group (message : string) (failures : list (string * PyException)) : PyException :=
  {| ex_class := "ExceptionGroup";
     ex_text := message +:+ " (" +:+ py_str (Z.of_nat (length failures)) +:+ " sub-exceptions)" |}.

(** After the last address, or when the time was over before one. *)
Definition post_end (timed_out_before_attempt : bool) (failures : list (string * PyException))
  : PostOutcome :=
  if timed_out_before_attempt then
    match failures with
    | _ :: _ =>
        budget_exceeded ("Callback delivery timeout expired before remaining validated target "
                         +:+ "addresses could be attempted")
    | [] => budget_exceeded ("Callback delivery timeout expired before any validated target "
                             +:+ "address could be attempted")
    end
  else
    match failures with
    | [f] => post_failed f.2
    | _ :: _ =>
        post_failed (exception_group
          ("callback request failed for all validated target addresses: "
           +:+ _callback_address_failure_summary failures) failures)
    | [] => post_failed {| ex_class := "RuntimeError";
                           ex_text := "validated callback target has no connect IP addresses" |}
    end.

(** [remaining] and [result] give the time left before the request to an address and what
    the request comes to. *)
Fixpoint post_loop (remaining : string -> Z) (result : string -> PostResult)
    (connect_ip_addresses : list string) (failures : list (string * PyException)) : PostOutcome :=
  match connect_ip_addresses with
  | [] => post_end false failures
  | address :: rest =>
      if remaining address <=? 0 then post_end true failures
      else match result address with
           | post_response status_code => posted status_code
           | post_timeout =>
               budget_exceeded ("Callback delivery timeout expired while posting to validated "
                                +:+ "target address " +:+ address +:+ ".")
           | post_raises e => post_loop remaining result rest (failures ++ [(address, e)])
           end
  end.

Definition _post_to_validated_callback_addresses (remaining : string -> Z)
    (result : string -> PostResult) (connect_ip_addresses : list string) : PostOutcome :=
  post_loop remaining result connect_ip_addresses [].

(** The addresses a request was made to. *)
Fixpoint contacted (remaining : string -> Z) (result : string -> PostResult)
    (connect_ip_addresses : list string) : list string :=
  match connect_ip_addresses with
  | [] => []
  | address :: rest =>
      if remaining address <=? 0 then []
      else address :: match result address with
                      | post_raises _ => contacted remaining result rest
                      | _ => []
                      end
  end.

(** ** One attempt *)

(** The worker that validates: its resolver, or a timeout, or an exception of the pool. *)
Inductive ValidationRun : Type :=
| validation_completes (getaddrinfo : string -> option (list string))
| validation_times_out
| validation_raises (e : PyException).

(** What one delivery meets in a drain. *)
Record Attempt : Type := {
  at_started : datetime;
  at_finished : datetime;
  at_validation : ValidationRun;
  at_remaining : Z;                 (* of the delivery's time, after the validation *)
  at_address_remaining : string -> Z;
  at_result : string -> PostResult
}.

Inductive DeliveryOutcome : Type :=
| delivered (status_code : Z)
| undelivered (error_code message : string).

Definition validated_outcome (a : Attempt) (addresses : list string) : DeliveryOutcome :=
  if at_remaining a <=? 0 then
    undelivered "CALLBACK_DELIVERY_BUDGET_EXCEEDED"
      ("Callback delivery budget exceeded: "
       +:+ "Callback delivery timeout expired after target validation.")
  else match _post_to_validated_callback_addresses (at_address_remaining a) (at_result a) addresses with
       | posted status_code => delivered status_code
       | budget_exceeded message =>
           undelivered "CALLBACK_DELIVERY_BUDGET_EXCEEDED"
             ("Callback delivery budget exceeded: " +:+ message)
       | post_failed e => undelivered "CALLBACK_REQUEST_FAILED" (ex_text e)
       end.

Definition rejected (e : TargetError) : DeliveryOutcome :=
  undelivered (match e with
               | CallbackTargetPolicyViolationError _ => "CALLBACK_TARGET_POLICY_VIOLATION"
               | _ => "CALLBACK_TARGET_INVALID"
               end) ("Callback target rejected: " +:+ target_error_message e).

(** The validation with its timeout, then the requests.  [f"{timeout:g}"] is the decimal
    numeral: a timeout is at most 120. *)
Definition attempt_outcome (s : CallbackSubscription) (settings : CallbackSettings) (a : Attempt)
  : DeliveryOutcome :=
  let timed_out (message : string) :=
    undelivered "CALLBACK_TARGET_VALIDATION_TIMEOUT"
      ("Callback target validation timed out: " +:+ message) in
  if cs_timeout_seconds s <=? 0
  then timed_out "Callback target validation timed out before it started."
  else match at_validation a with
       | validation_times_out =>
           timed_out ("Callback target validation timed out after "
                      +:+ py_str (cs_timeout_seconds s) +:+ "s.")
       | validation_raises e => undelivered "CALLBACK_REQUEST_FAILED" (ex_text e)
       | validation_completes getaddrinfo =>
           match _validate_callback_target getaddrinfo (cs_target_url s) settings with
           | inl e => rejected e
           | inr addresses => validated_outcome a addresses
           end
       end.

Definition is_success (status_code : Z) : bool := (200 <=? status_code) && (status_code <? 300).

Definition record_outcome (d : CallbackDelivery) (s : CallbackSubscription) (o : DeliveryOutcome)
    (now : datetime) : CallbackDelivery :=
  match o with
  | delivered status_code =>
      if is_success status_code then mark_succeeded d status_code now
      else mark_failed_or_retry d ("CALLBACK_HTTP_" +:+ py_str status_code)
             ("Callback returned HTTP " +:+ py_str status_code +:+ ".") (Some status_code)
             (cs_initial_backoff_seconds s) now
  | undelivered error_code message =>
      mark_failed_or_retry d error_code (take_str 512 message) None
        (cs_initial_backoff_seconds s) now
  end.

Definition deliver (id : string) (d : CallbackDelivery) (s : CallbackSubscription)
    (settings : CallbackSettings) (a : Attempt) : CallbackDelivery :=
  if negb (cs_enabled s) then
    mark_skipped d "CALLBACK_DISABLED" "Callback subscription is disabled." (at_started a)
  else
    let d := sync_envelope_delivery_metadata id (mark_attempt_started d (at_started a)) in
    record_outcome d s (attempt_outcome s settings a) (at_finished a).

(** ** The drain *)

(** A delivery without subscription cannot be: the column is a foreign key. *)
Definition drain_one (settings : CallbackSettings) (attempt : string -> Attempt)
    (db : CallbackDb) (p : string * CallbackDelivery) : CallbackDb :=
  match subscriptions db !! cd_subscription_id p.2 with
  | Some s => set_delivery db p.1 (deliver p.1 p.2 s settings (attempt p.1))
  | None => db
  end.

Definition drain_due (db : CallbackDb) (g : WorkGuards) (settings : CallbackSettings)
    (now : datetime) (limit : nat) (attempt : string -> Attempt) : CallbackDb * list string :=
  let due := list_due db g now limit in
  (fold_left (drain_one settings attempt) due db, map fst due).
