(* ===== verification/CallbackFacts.v ===== *)
(** * Callbacks are queued once, attempted boundedly and sent to public hosts

    Invariants of every sequence of registrations, queued events and drains, the exact
    recipients of an event, and a bound on the attempts of a delivery. *)

From S2P Require Import Prelude PyStr PyTime PyVal AuditPayload PyNet CallbackTargets.
From S2P Require Import Callbacks CallbackDrain.
#[local] Open Scope Z_scope.
#[local] Set Warnings "-register-all".

(** ** Event types *)

Lemma public_not_wildcard (t : string) :
  t ∈ PUBLIC_CALLBACK_EVENT_TYPES -> t ∉ CALLBACK_EVENT_WILDCARDS.
Proof.
  assert (H : forallb (fun t => negb (mem t CALLBACK_EVENT_WILDCARDS)) PUBLIC_CALLBACK_EVENT_TYPES
              = true) by (vm_compute; reflexivity).
  rewrite forallb_forall in H. intros Ht%list_elem_of_In%H. by rewrite negb_true_iff, mem_false in Ht.
Qed.

(** The candidates of an event are the patterns that match it. *)
Lemma candidate_matches (event_type t : string) :
  mem t (_callback_subscription_event_type_candidates event_type)
  = callback_subscription_matches_event_type t event_type.
Proof.
  unfold callback_subscription_matches_event_type.
  destruct (mem event_type PUBLIC_CALLBACK_EVENT_TYPES) eqn:E; cbn [negb];
    [|unfold _callback_subscription_event_type_candidates; by rewrite E].
  rewrite mem_true in E. pose proof (public_not_wildcard _ E) as Hn.
  destruct (mem t CALLBACK_EVENT_WILDCARDS) eqn:Et.
  - rewrite mem_true in Et.
    assert (H : forallb (fun e => forallb (fun t =>
        eqb (mem t (_callback_subscription_event_type_candidates e))
            (starts_with (take_str (str_len t - 1) t) e)) CALLBACK_EVENT_WILDCARDS)
        PUBLIC_CALLBACK_EVENT_TYPES = true) by (vm_compute; reflexivity).
    rewrite forallb_forall in H. apply list_elem_of_In in E, Et.
    specialize (H _ E). rewrite forallb_forall in H. specialize (H _ Et). by rewrite eqb_true in H.
  - rewrite mem_false in Et. unfold _callback_subscription_event_type_candidates.
    rewrite (proj2 (mem_true _ _) E). cbn [negb].
    destruct (partition dot event_type) as [[namespace sep] rest].
    destruct (eqb t event_type) eqn:Eq.
    + rewrite eqb_true in Eq. subst t. apply mem_true. left.
    + rewrite eqb_false in Eq. apply mem_false. intros [->|Hin]%elem_of_cons; [done|].
      destruct (sep && mem (namespace +:+ ".*") CALLBACK_EVENT_WILDCARDS) eqn:Ew.
      * apply list_elem_of_singleton in Hin as ->. apply andb_true_iff in Ew as [_ Ew].
        by rewrite mem_true in Ew.
      * by apply elem_of_nil in Hin.
Qed.

(** The filter of the query is the published matching policy. *)
Lemma filter_agrees (event_type : string) (event_types : list string) :
  _callback_subscription_event_type_filter
    (_callback_subscription_event_type_candidates event_type) event_types
  = existsb (fun t => callback_subscription_matches_event_type t event_type) event_types.
Proof.
  unfold _callback_subscription_event_type_filter. induction event_types as [|t l IH]; [done|].
  cbn [existsb]. by rewrite candidate_matches, IH.
Qed.

(** ** Well-formed deliveries *)

Definition envelope_count (d : CallbackDelivery) : pyval :=
  get (as_mapping (get (cd_envelope d) "delivery")) "attempt_count".

(** What the columns of a delivery that no transaction holds agree on. *)
Inductive settled_delivery (d : CallbackDelivery) : Prop :=
| delivery_pending t :
    ds_status (cd_state d) = CALLBACK_PENDING -> ds_next_attempt_at (cd_state d) = Some t ->
    (ds_attempt_count (cd_state d) = 0 \/
     0 < ds_attempt_count (cd_state d) < cd_max_attempts d) -> settled_delivery d
| delivery_succeeded t code :
    ds_status (cd_state d) = CALLBACK_SUCCEEDED -> ds_delivered_at (cd_state d) = Some t ->
    ds_response_status_code (cd_state d) = Some code -> is_success code = true ->
    ds_error_code (cd_state d) = None -> ds_next_attempt_at (cd_state d) = None ->
    1 <= ds_attempt_count (cd_state d) <= Z.max 1 (cd_max_attempts d) -> settled_delivery d
| delivery_failed code :
    ds_status (cd_state d) = CALLBACK_FAILED -> ds_error_code (cd_state d) = Some code ->
    ds_next_attempt_at (cd_state d) = None ->
    ds_attempt_count (cd_state d) = Z.max 1 (cd_max_attempts d) -> settled_delivery d
| delivery_skipped code :
    ds_status (cd_state d) = CALLBACK_SKIPPED -> ds_error_code (cd_state d) = Some code ->
    ds_next_attempt_at (cd_state d) = None ->
    0 <= ds_attempt_count (cd_state d) <= Z.max 1 (cd_max_attempts d) -> settled_delivery d.

Definition delivery_wf (d : CallbackDelivery) : Prop :=
  settled_delivery d /\ envelope_count d = VInt (ds_attempt_count (cd_state d)).

Definition terminal (d : CallbackDelivery) : Prop := ds_status (cd_state d) <> CALLBACK_PENDING.

Record callback_inv (db : CallbackDb) : Prop := {
  ci_keys : forall i j s t, subscriptions db !! i = Some s -> subscriptions db !! j = Some t ->
            cs_idempotency_key s = cs_idempotency_key t -> i = j;
  ci_dedupe : forall i j d e, deliveries db !! i = Some d -> deliveries db !! j = Some e ->
              cd_subscription_id d = cd_subscription_id e -> cd_dedupe_key d = cd_dedupe_key e ->
              i = j;
  ci_parent : forall i d, deliveries db !! i = Some d ->
              is_Some (subscriptions db !! cd_subscription_id d);
  ci_wf : forall i d, deliveries db !! i = Some d -> delivery_wf d
}.

(** ** Lookups by key *)

Lemma head_filter_spec {A : Type} (m : gmap string A) (f : A -> bool) :
  match head (List.filter (fun p => f p.2) (map_to_list m)) with
  | Some (i, a) => m !! i = Some a /\ f a = true
  | None => forall i a, m !! i = Some a -> f a = false
  end.
Proof.
  destruct (List.filter _ _) as [|[i a] l] eqn:E; cbn [head].
  - intros i a Hi. pose proof (proj1 (bfilter_nil _ _) E (i, a)) as H. apply H.
    by apply elem_of_map_to_list.
  - assert (H : (i, a) ∈ List.filter (fun p => f p.2) (map_to_list m)) by (rewrite E; left).
    apply elem_of_bfilter in H as [Hf Hi]. by apply elem_of_map_to_list in Hi.
Qed.

Lemma sub_by_key_spec (db : CallbackDb) (key : string) :
  match sub_by_key db key with
  | Some (i, s) => subscriptions db !! i = Some s /\ cs_idempotency_key s = key
  | None => forall i s, subscriptions db !! i = Some s -> cs_idempotency_key s <> key
  end.
Proof.
  pose proof (head_filter_spec (subscriptions db) (fun s => eqb (cs_idempotency_key s) key)) as H.
  unfold sub_by_key. destruct (head _) as [[i s]|].
  - by rewrite eqb_true in H.
  - intros i s Hi. apply H in Hi. by rewrite eqb_false in Hi.
Qed.

Lemma dedupe_spec (db : CallbackDb) (sid key : string) :
  match delivery_by_dedupe_key db sid key with
  | Some (i, d) => deliveries db !! i = Some d /\ cd_subscription_id d = sid /\ cd_dedupe_key d = key
  | None => forall i d, deliveries db !! i = Some d ->
            cd_subscription_id d = sid -> cd_dedupe_key d <> key
  end.
Proof.
  pose proof (head_filter_spec (deliveries db)
    (fun d => eqb (cd_subscription_id d) sid && eqb (cd_dedupe_key d) key)) as H.
  unfold delivery_by_dedupe_key. destruct (head _) as [[i d]|].
  - rewrite andb_true_iff, !eqb_true in H. tauto.
  - intros i d Hi Hs. apply H in Hi. rewrite andb_false_iff, !eqb_false in Hi. tauto.
Qed.

(** ** One delivery *)

Definition fixed_columns (d d' : CallbackDelivery) : Prop :=
  cd_subscription_id d' = cd_subscription_id d /\ cd_dedupe_key d' = cd_dedupe_key d /\
  cd_max_attempts d' = cd_max_attempts d /\ cd_source_id d' = cd_source_id d /\
  cd_idempotency_key d' = cd_idempotency_key d.

Lemma sync_count (id : string) (d : CallbackDelivery) :
  envelope_count (sync_envelope_delivery_metadata id d) = VInt (ds_attempt_count (cd_state d)).
Proof.
  unfold envelope_count, sync_envelope_delivery_metadata. cbn [cd_envelope with_state].
  rewrite get_set_eq. cbn [as_mapping]. unfold dict_update, delivery_metadata. cbn [fold_left fst snd].
  rewrite get_set_ne by done. by rewrite get_set_eq.
Qed.

Lemma record_outcome_fixed (d : CallbackDelivery) (s : CallbackSubscription) (o : DeliveryOutcome)
    (now : datetime) :
  fixed_columns d (record_outcome d s o now) /\
  cd_envelope (record_outcome d s o now) = cd_envelope d /\
  ds_attempt_count (cd_state (record_outcome d s o now)) = ds_attempt_count (cd_state d).
Proof. destruct o as [c|c m]; cbn [record_outcome]; [case_match|]; done. Qed.

Lemma failed_or_retry_settled (d : CallbackDelivery) (code message : string) (status : option Z)
    (backoff : Z) (now : datetime) :
  ds_attempt_count (cd_state d) = 1 \/
  1 <= ds_attempt_count (cd_state d) <= cd_max_attempts d ->
  settled_delivery (mark_failed_or_retry d code message status backoff now).
Proof.
  intros Hc. unfold mark_failed_or_retry.
  destruct (Z.leb_spec (cd_max_attempts d) (ds_attempt_count (cd_state d))).
  - eapply delivery_failed; [done..|]. cbn. lia.
  - eapply delivery_pending; [done..|]. cbn. lia.
Qed.

Lemma record_outcome_settled (d : CallbackDelivery) (s : CallbackSubscription) (o : DeliveryOutcome)
    (now : datetime) :
  ds_attempt_count (cd_state d) = 1 \/
  1 <= ds_attempt_count (cd_state d) <= cd_max_attempts d ->
  settled_delivery (record_outcome d s o now).
Proof.
  intros Hc. destruct o as [c|c m]; cbn [record_outcome]; [|by apply failed_or_retry_settled].
  destruct (is_success c) eqn:E; [|by apply failed_or_retry_settled].
  eapply delivery_succeeded; try done. cbn. lia.
Qed.

Lemma pending_count (d : CallbackDelivery) :
  settled_delivery d -> ds_status (cd_state d) = CALLBACK_PENDING ->
  ds_attempt_count (cd_state d) = 0 \/ 0 < ds_attempt_count (cd_state d) < cd_max_attempts d.
Proof. by intros [t Hs _ Hc|t c Hs|c Hs|c Hs]; [|rewrite Hs..]. Qed.

(** An attempt leaves a well-formed delivery: ended, or counted. *)
Lemma deliver_wf (id : string) (d : CallbackDelivery) (s : CallbackSubscription)
    (settings : CallbackSettings) (a : Attempt) :
  delivery_wf d -> ds_status (cd_state d) = CALLBACK_PENDING ->
  delivery_wf (deliver id d s settings a) /\ fixed_columns d (deliver id d s settings a) /\
  (terminal (deliver id d s settings a) \/
   ds_attempt_count (cd_state (deliver id d s settings a)) = ds_attempt_count (cd_state d) + 1).
Proof.
  intros [Hs He] Hp. pose proof (pending_count d Hs Hp) as Hc. unfold deliver.
  destruct (cs_enabled s); cbn [negb].
  - set (d1 := sync_envelope_delivery_metadata id (mark_attempt_started d (at_started a))).
    assert (Hn : ds_attempt_count (cd_state d1) = ds_attempt_count (cd_state d) + 1) by done.
    destruct (record_outcome_fixed d1 s (attempt_outcome s settings a) (at_finished a))
      as (Hf & Henv & Hcnt).
    split_and!; [|exact Hf|right; congruence]. split.
    + apply record_outcome_settled. rewrite Hn. change (cd_max_attempts d1) with (cd_max_attempts d).
      lia.
    + unfold envelope_count. rewrite Henv, Hcnt.
      exact (sync_count id (mark_attempt_started d (at_started a))).
  - split_and!; [|done|left; discriminate]. split; [|exact He].
    eapply delivery_skipped; [done..|]. cbn. lia.
Qed.

(** ** A drain *)

Section Drain.
Context (g : WorkGuards) (settings : CallbackSettings) (attempt : string -> Attempt).

Lemma list_due_spec (db : CallbackDb) (now : datetime) (limit : nat) :
  NoDup (map fst (list_due db g now limit)) /\
  forall id d, (id, d) ∈ list_due db g now limit ->
    deliveries db !! id = Some d /\ is_due g now (id, d) = true.
Proof.
  unfold list_due. split.
  - eapply sublist_NoDup; [|apply sublist_map, sublist_take].
    rewrite (sorted_by_perm (by_created cd_created_at)).
    eapply sublist_NoDup; [apply (NoDup_fst_map_to_list (deliveries db))|].
    apply sublist_map, bfilter_sublist.
  - intros id d Hd. set (l := sorted_by _ _) in Hd.
    assert (Hl : (id, d) ∈ l) by (rewrite <- (take_drop limit l), elem_of_app; by left).
    unfold l in Hl. rewrite elem_of_sorted_by in Hl. apply elem_of_bfilter in Hl as [Hdue Hl].
    by apply elem_of_map_to_list in Hl.
Qed.

(** The rows after attempting some of them. *)
Lemma drain_rows (due : list (string * CallbackDelivery)) (db : CallbackDb) :
  NoDup (map fst due) ->
  (forall id d, (id, d) ∈ due -> deliveries db !! id = Some d /\
                                 is_Some (subscriptions db !! cd_subscription_id d)) ->
  subscriptions (fold_left (drain_one settings attempt) due db) = subscriptions db /\
  (forall id, id ∉ map fst due ->
     deliveries (fold_left (drain_one settings attempt) due db) !! id = deliveries db !! id) /\
  (forall id d s, (id, d) ∈ due -> subscriptions db !! cd_subscription_id d = Some s ->
     deliveries (fold_left (drain_one settings attempt) due db) !! id
     = Some (deliver id d s settings (attempt id))).
Proof.
  revert db. induction due as [|[id0 d0] due IH]; intros db Hn Hdue; cbn [fold_left].
  { split_and!; [done..|]. by intros id d s ?%elem_of_nil. }
  cbn [map fst] in Hn. apply NoDup_cons in Hn as [Hid0 Hn].
  destruct (Hdue id0 d0) as [Hd0 [s0 Hs0]]; [left|].
  assert (Hone : drain_one settings attempt db (id0, d0)
                 = set_delivery db id0 (deliver id0 d0 s0 settings (attempt id0))).
  { unfold drain_one. cbn [fst snd]. by rewrite Hs0. }
  rewrite Hone. destruct (IH (set_delivery db id0 (deliver id0 d0 s0 settings (attempt id0))))
    as (Hsub & Hout & Hin); [done| |].
  { intros id d Hd. destruct (Hdue id d) as [Hl Hs]; [by right|]. split; [|done].
    cbn [deliveries set_delivery]. rewrite lookup_insert_ne; [done|]. intros <-. apply Hid0.
    apply list_elem_of_fmap. by exists (id0, d). }
  split_and!; [done| |].
  - intros id [Hne Hid]%not_elem_of_cons. rewrite Hout by done. cbn [deliveries set_delivery].
    by rewrite lookup_insert_ne.
  - intros id d s [[= -> ->]|Hd]%elem_of_cons Hs; [|by eapply Hin].
    rewrite Hout by done. cbn [deliveries set_delivery]. rewrite lookup_insert_eq. congruence.
Qed.

Lemma drain_spec (db : CallbackDb) (now : datetime) (limit : nat) :
  callback_inv db ->
  let '(db', ids) := drain_due db g settings now limit attempt in
  subscriptions db' = subscriptions db /\
  (forall id, id ∉ ids -> deliveries db' !! id = deliveries db !! id) /\
  (forall id, id ∈ ids -> exists d s,
     deliveries db !! id = Some d /\ ds_status (cd_state d) = CALLBACK_PENDING /\
     subscriptions db !! cd_subscription_id d = Some s /\
     deliveries db' !! id = Some (deliver id d s settings (attempt id))).
Proof.
  intros Hi. unfold drain_due. destruct (list_due_spec db now limit) as [Hn Hdue].
  destruct (drain_rows (list_due db g now limit) db Hn) as (Hs & Hout & Hin).
  { intros id d Hd. apply Hdue in Hd as [Hd _]. split; [done|]. by eapply ci_parent. }
  split_and!; [done..|]. intros id ([id' d] & -> & Hd)%list_elem_of_fmap.
  destruct (Hdue _ _ Hd) as [Hl Hx]. destruct (ci_parent _ Hi _ _ Hl) as [s Hsub].
  exists d, s. split_and!; [done| |done|by apply Hin].
  unfold is_due in Hx. cbn [fst snd] in Hx. bool_simpl.
  match goal with H : eqb (ds_status _) _ = true |- _ => by rewrite eqb_true in H end.
Qed.

Lemma drain_inv (db : CallbackDb) (now : datetime) (limit : nat) :
  callback_inv db -> callback_inv (drain_due db g settings now limit attempt).1.
Proof.
  intros Hi. pose proof (drain_spec db now limit Hi) as Hsp.
  destruct (drain_due db g settings now limit attempt) as [db' ids]. cbn [fst].
  destruct Hsp as (Hs & Hout & Hin).
  assert (Hold : forall i d', deliveries db' !! i = Some d' ->
    delivery_wf d' /\ exists d, deliveries db !! i = Some d /\ fixed_columns d d').
  { intros i d' Hd'. destruct (decide (i ∈ ids)) as [Hii|Hio].
    - destruct (Hin i Hii) as (d & s & Hd & Hp & _ & Hd2). rewrite Hd2 in Hd'. injection Hd' as <-.
      destruct (deliver_wf i d s settings (attempt i) (ci_wf _ Hi _ _ Hd) Hp) as (Hw & Hf & _).
      eauto.
    - rewrite Hout in Hd' by done. split; [by eapply ci_wf|]. by exists d'. }
  destruct Hi as [H1 H2 H3 H4]. split.
  - by rewrite Hs.
  - intros i j d e Hd He Hsub Hkey.
    destruct (Hold _ _ Hd) as (_ & d0 & Hd0 & E1 & E2 & _), (Hold _ _ He) as (_ & e0 & He0 & E3 & E4 & _).
    apply (H2 i j d0 e0); congruence.
  - intros i d Hd. destruct (Hold _ _ Hd) as (_ & d0 & Hd0 & -> & _). rewrite Hs. by eapply H3.
  - intros i d Hd. by apply (Hold i d).
Qed.
End Drain.

(** ** Queueing *)

Definition queued (db : CallbackDb) (e : CallbackEvent) (sid id : string) : Prop :=
  exists d, deliveries db !! id = Some d /\ cd_subscription_id d = sid /\
            cd_dedupe_key d = ce_dedupe_key e.

(** New ids are new. *)
Definition fresh_for (db : CallbackDb) (fresh : string -> string * datetime * datetime)
    (subs : list (string * CallbackSubscription)) : Prop :=
  NoDup (map (fun p => (fresh p.1).1.1) subs) /\
  Forall (fun p => deliveries db !! (fresh p.1).1.1 = None) subs.

Lemma queued_lookup (db : CallbackDb) (e : CallbackEvent) (sid id : string)
    (s : CallbackSubscription) (fresh : string * datetime * datetime) :
  callback_inv db -> queued db e sid id -> enqueue_once db sid s e fresh = (db, id, false).
Proof.
  intros Hi (d & Hd & Hs & Hk). unfold enqueue_once.
  pose proof (dedupe_spec db sid (ce_dedupe_key e)) as H.
  destruct (delivery_by_dedupe_key db sid (ce_dedupe_key e)) as [[j d']|].
  - destruct H as (Hd' & Hs' & Hk'). rewrite (ci_dedupe _ Hi id j d d'); congruence.
  - by destruct (H id d Hd Hs).
Qed.

(** What queueing for one subscription adds. *)
Record queue_spec (db db' : CallbackDb) (e : CallbackEvent)
    (subs : list (string * CallbackSubscription)) : Prop := {
  qs_inv : callback_inv db';
  qs_subscriptions : subscriptions db' = subscriptions db;
  qs_kept : deliveries db ⊆ deliveries db';
  qs_new : forall id d, deliveries db' !! id = Some d -> deliveries db !! id = None ->
    exists sid s now created, (sid, s) ∈ subs /\ d = new_delivery id sid s e now created
}.

Lemma new_delivery_wf (id sid : string) (s : CallbackSubscription) (e : CallbackEvent)
    (now created : datetime) : delivery_wf (new_delivery id sid s e now created).
Proof.
  split; [eapply delivery_pending; [done..|by left]|].
  unfold envelope_count. cbn [cd_envelope new_delivery]. by rewrite get_set_eq.
Qed.

Lemma enqueue_once_spec (db : CallbackDb) (sid : string) (s : CallbackSubscription)
    (e : CallbackEvent) (fresh : string * datetime * datetime) (db' : CallbackDb) (id : string)
    (created : bool) :
  callback_inv db -> is_Some (subscriptions db !! sid) -> deliveries db !! fresh.1.1 = None ->
  enqueue_once db sid s e fresh = (db', id, created) ->
  queue_spec db db' e [(sid, s)] /\ queued db' e sid id /\
  (forall i, i <> fresh.1.1 -> deliveries db' !! i = deliveries db !! i).
Proof.
  intros Hi Hsub Hfresh. unfold enqueue_once.
  pose proof (dedupe_spec db sid (ce_dedupe_key e)) as H.
  destruct (delivery_by_dedupe_key db sid (ce_dedupe_key e)) as [[j d]|].
  { intros [= <- <- <-]. destruct H as (Hd & Hs & Hk). split_and!; [|by exists d|done].
    split; [done..|]. congruence. }
  destruct fresh as [[new_id now] made]. cbn [fst] in Hfresh |- *. intros [= <- <- <-].
  set (d := new_delivery new_id sid s e now made). split_and!.
  - destruct Hi as [H1 H2 H3 H4]. split; cbn [subscriptions deliveries set_delivery].
    + split; [done| | |]; cbn [subscriptions deliveries set_delivery].
      * intros i j a b. rewrite !lookup_insert_Some.
        intros [[<- <-]|[_ Ha]] [[<- <-]|[_ Hb]] Hs Hk; [done| | |by eapply H2].
        -- by destruct (H _ _ Hb (eq_sym Hs)).
        -- by destruct (H _ _ Ha Hs).
      * intros i a. rewrite lookup_insert_Some. intros [[<- <-]|[_ Ha]]; [done|by eapply H3].
      * intros i a. rewrite lookup_insert_Some.
        intros [[<- <-]|[_ Ha]]; [apply new_delivery_wf|by eapply H4].
    + done.
    + by apply insert_subseteq.
    + intros i a. rewrite lookup_insert_Some. intros [[<- <-]|[_ Ha]]; [|congruence].
      intros _. exists sid, s, now, made. split; [left|done].
  - exists d. cbn [deliveries set_delivery]. by rewrite lookup_insert_eq.
  - intros i Hne. cbn [deliveries set_delivery]. by rewrite lookup_insert_ne.
Qed.

Lemma queued_kept (db db' : CallbackDb) (e : CallbackEvent) (sid id : string) :
  deliveries db ⊆ deliveries db' -> queued db e sid id -> queued db' e sid id.
Proof. intros Hs (d & Hd & ?). exists d. split; [by eapply lookup_weaken|done]. Qed.

Lemma enqueue_each_spec (e : CallbackEvent) (fresh : string -> string * datetime * datetime)
    (subs : list (string * CallbackSubscription)) (db db' : CallbackDb) (ids : list string) :
  callback_inv db -> (forall p, p ∈ subs -> is_Some (subscriptions db !! p.1)) ->
  fresh_for db fresh subs -> enqueue_each db e fresh subs = (db', ids) ->
  queue_spec db db' e subs /\ Forall2 (fun p => queued db' e p.1) subs ids.
Proof.
  revert db ids. induction subs as [|[sid s] subs IH]; intros db ids Hi Hsub [Hn Hf];
    cbn [enqueue_each].
  { intros [= -> <-]. split; [|constructor]. split; [done..|]. congruence. }
  destruct (enqueue_once db sid s e (fresh sid)) as [[db1 id] made] eqn:E1.
  destruct (enqueue_each db1 e fresh subs) as [db2 ids2] eqn:E2. intros [= -> <-].
  cbn [map fst] in Hn. apply NoDup_cons in Hn as [Hx Hn]. apply Forall_cons in Hf as [Hf0 Hf].
  destruct (enqueue_once_spec db sid s e (fresh sid) db1 id made) as ([Q1 Q2 Q3 Q4] & Hq & Ho);
    [done|apply (Hsub (sid, s)); left|done|done|].
  destruct (IH db1 ids2) as [[R1 R2 R3 R4] Hall]; [done| | |done|].
  { intros p Hp. rewrite Q2. apply Hsub. by right. }
  { split; [done|]. rewrite Forall_forall in Hf |- *. intros p Hp. rewrite Ho; [by apply Hf|].
    intros Heq. apply Hx. rewrite <- Heq. apply list_elem_of_fmap. by exists p. }
  split; [|constructor; [by apply (queued_kept db1)|done]]. split.
  - done.
  - by rewrite R2.
  - by etrans.
  - intros i d Hd Hnone. destruct (deliveries db1 !! i) as [d1|] eqn:E.
    + assert (d = d1) as -> by (apply (lookup_weaken _ _ _ _ E) in R3; congruence).
      destruct (Q4 _ _ E Hnone) as (sid' & s' & now & c & Hin%list_elem_of_singleton & ->).
      injection Hin as -> ->. exists sid, s, now, c. split; [left|done].
    + destruct (R4 _ _ Hd E) as (sid' & s' & now & c & Hin & ->).
      exists sid', s', now, c. split; [by right|done].
Qed.

Lemma enqueue_again (e : CallbackEvent) (fresh : string -> string * datetime * datetime)
    (subs : list (string * CallbackSubscription)) (db : CallbackDb) (ids : list string) :
  callback_inv db -> Forall2 (fun p => queued db e p.1) subs ids ->
  enqueue_each db e fresh subs = (db, ids).
Proof.
  intros Hi. induction 1 as [|[sid s] id subs ids Hq _ IH]; [done|]. cbn [enqueue_each].
  rewrite (queued_lookup db e sid id s (fresh sid)) by done. by rewrite IH.
Qed.

(** ** Recipients *)

Lemma candidates_nil (event_type t : string) :
  _callback_subscription_event_type_candidates event_type = [] ->
  callback_subscription_matches_event_type t event_type = false.
Proof. intros H. rewrite <- candidate_matches, H. done. Qed.

Lemma recipients_spec (db : CallbackDb) (g : WorkGuards) (event_type : string) :
  NoDup (map fst (list_enabled_for_event_type db g event_type)) /\
  forall sid s, (sid, s) ∈ list_enabled_for_event_type db g event_type <->
    subscriptions db !! sid = Some s /\ cs_enabled s = true /\
    restore_row_allows_work g "callback_subscriptions" sid = true /\
    existsb (fun t => callback_subscription_matches_event_type t event_type) (cs_event_types s) = true.
Proof.
  unfold list_enabled_for_event_type.
  destruct (_callback_subscription_event_type_candidates event_type) as [|c cs] eqn:E.
  - split; [constructor|]. intros sid s. split; [by intros ?%elem_of_nil|].
    intros (_ & _ & _ & (t & _ & Ht)%existsb_exists).
    by rewrite (candidates_nil _ t E) in Ht.
  - rewrite <- E. split.
    + rewrite (sorted_by_perm (by_created cs_created_at)).
      eapply sublist_NoDup; [apply (NoDup_fst_map_to_list (subscriptions db))|].
      apply sublist_map, bfilter_sublist.
    + intros sid s. rewrite elem_of_sorted_by, elem_of_bfilter, elem_of_map_to_list. cbn [fst snd].
      rewrite !andb_true_iff, filter_agrees. tauto.
Qed.

(** ** Steps *)

Lemma create_idempotent_inv (db db' : CallbackDb) (r : CallbackRequest)
    (key request_hash new_id id : string) (now : datetime) (created : bool) :
  callback_inv db -> subscriptions db !! new_id = None ->
  create_idempotent db r key request_hash new_id now = inr (db', id, created) ->
  callback_inv db' /\ deliveries db' = deliveries db /\ subscriptions db ⊆ subscriptions db'.
Proof.
  intros Hi Hfresh. unfold create_idempotent. pose proof (sub_by_key_spec db key) as H.
  destruct (sub_by_key db key) as [[i s]|].
  { destruct (negb _); [done|]. by intros [= <- _ _]. }
  intros [= <- _ _]. destruct Hi as [H1 H2 H3 H4]. split_and!; [|done|by apply insert_subseteq].
  split; cbn [subscriptions deliveries set_subscription]; [|exact H2| |exact H4].
  - intros i j s t. rewrite !lookup_insert_Some.
    intros [[<- <-]|[_ Hs]] [[<- <-]|[_ Ht]] Hk; [done| | |by eapply H1].
    + by destruct (H _ _ Ht).
    + by destruct (H _ _ Hs).
  - intros i d Hd. destruct (H3 i d Hd) as [s Hs].
    destruct (decide (cd_subscription_id d = new_id)) as [Heq|Hne];
      [rewrite Heq in Hs; congruence|].
    rewrite lookup_insert_ne by done. eauto.
Qed.

(** Registering, queueing and draining, with the deliveries attempted. *)
Inductive callback_step (db : CallbackDb) : list string -> CallbackDb -> Prop :=
| step_register settings r key new_id now db' id :
    subscriptions db !! new_id = None ->
    register db settings r key new_id now = inr (db', id) -> callback_step db [] db'
| step_enqueue g e fresh :
    fresh_for db fresh (list_enabled_for_event_type db g (ce_type e)) ->
    callback_step db [] (enqueue_event db g e fresh).1
| step_drain g settings now limit attempt :
    callback_step db (drain_due db g settings now limit attempt).2
      (drain_due db g settings now limit attempt).1.

Lemma register_created (db db' : CallbackDb) (settings : CallbackSettings) (r : CallbackRequest)
    (key new_id id : string) (now : datetime) :
  register db settings r key new_id now = inr (db', id) ->
  exists created,
    create_idempotent db r key (callback_request_hash r) new_id now = inr (db', id, created).
Proof.
  unfold register. destruct (_validate_callback_target_static_policy _ _); [done|].
  destruct (create_idempotent _ _ _ _ _ _) as [|[[d i] c]]; [done|]. intros [= <- <-]. eauto.
Qed.

Lemma enqueue_event_spec (db : CallbackDb) (g : WorkGuards) (e : CallbackEvent)
    (fresh : string -> string * datetime * datetime) (db' : CallbackDb) (ids : list string) :
  callback_inv db -> fresh_for db fresh (list_enabled_for_event_type db g (ce_type e)) ->
  enqueue_event db g e fresh = (db', ids) ->
  queue_spec db db' e (list_enabled_for_event_type db g (ce_type e)) /\
  Forall2 (fun p => queued db' e p.1) (list_enabled_for_event_type db g (ce_type e)) ids.
Proof.
  intros Hi Hf. apply enqueue_each_spec; [done| |done].
  intros [sid s] Hp. apply recipients_spec in Hp as (Hs & _). cbn [fst]. by rewrite Hs.
Qed.

(** What becomes of a delivery in a step. *)
Definition delivery_after (attempted : bool) (d d' : CallbackDelivery) : Prop :=
  if attempted then
    ds_status (cd_state d) = CALLBACK_PENDING /\ fixed_columns d d' /\
    (terminal d' \/ ds_attempt_count (cd_state d') = ds_attempt_count (cd_state d) + 1)
  else d' = d.

Lemma step_spec (db db' : CallbackDb) (ids : list string) :
  callback_inv db -> callback_step db ids db' ->
  callback_inv db' /\
  (forall id d, deliveries db !! id = Some d -> exists d',
     deliveries db' !! id = Some d' /\ delivery_after (bool_decide (id ∈ ids)) d d') /\
  (forall id, id ∈ ids -> is_Some (deliveries db !! id)).
Proof.
  intros Hi [settings r key new_id now db1 id Hn Hr|g e fresh Hf|g settings now limit attempt].
  - apply register_created in Hr as [created Hr].
    apply create_idempotent_inv in Hr as (Hi' & Hd & _); [|done..].
    split_and!; [done| |by intros id' ?%elem_of_nil]. intros i d Hd0. exists d.
    rewrite Hd, bool_decide_false by (intros ?%elem_of_nil; done). done.
  - destruct (enqueue_event db g e fresh) as [db1 ids1] eqn:E. cbn [fst].
    destruct (enqueue_event_spec db g e fresh db1 ids1 Hi Hf E) as [[Q1 Q2 Q3 Q4] _].
    split_and!; [done| |by intros id' ?%elem_of_nil]. intros i d Hd. exists d.
    rewrite bool_decide_false by (intros ?%elem_of_nil; done). split; [|done].
    by eapply lookup_weaken.
  - split; [by apply drain_inv|].
    pose proof (drain_spec g settings attempt db now limit Hi) as Hsp.
    destruct (drain_due db g settings now limit attempt) as [db1 ids1]. cbn [fst snd].
    destruct Hsp as (Hs & Hout & Hin). split.
    + intros i d Hd. case_bool_decide as Hii.
      * destruct (Hin i Hii) as (d0 & s & Hd0 & Hp & _ & Hd2). simplify_eq.
        exists (deliver i d s settings (attempt i)). split; [done|].
        destruct (deliver_wf i d s settings (attempt i) (ci_wf _ Hi _ _ Hd) Hp) as (_ & Hf & Hx).
        done.
      * exists d. rewrite Hout by done. done.
    + intros i Hii. destruct (Hin i Hii) as (d0 & s & Hd0 & _). by rewrite Hd0.
Qed.

(** A sequence of steps that attempts a delivery [n] times. *)
Inductive callback_run (id : string) : nat -> CallbackDb -> CallbackDb -> Prop :=
| run_done db : callback_run id 0 db db
| run_step db db1 db' ids n :
    callback_step db ids db1 -> callback_run id n db1 db' ->
    callback_run id (if bool_decide (id ∈ ids) then S n else n) db db'.

Definition no_callbacks : CallbackDb := {| subscriptions := ∅; deliveries := ∅ |}.

Lemma no_callbacks_inv : callback_inv no_callbacks.
Proof. by split. Qed.

(** The attempts a delivery has left. *)
Definition attempts_left (d : CallbackDelivery) : Z :=
  if bool_decide (ds_status (cd_state d) = CALLBACK_PENDING)
  then Z.max 1 (cd_max_attempts d) - ds_attempt_count (cd_state d) else 0.

Lemma attempts_left_nonneg (d : CallbackDelivery) : delivery_wf d -> 0 <= attempts_left d.
Proof.
  intros [Hs _]. unfold attempts_left. case_bool_decide as Hp; [|done].
  pose proof (pending_count d Hs Hp). lia.
Qed.

Lemma run_spec (id : string) (n : nat) (db db' : CallbackDb) :
  callback_run id n db db' -> callback_inv db ->
  callback_inv db' /\
  forall d, deliveries db !! id = Some d -> exists d',
    deliveries db' !! id = Some d' /\ fixed_columns d d' /\
    Z.of_nat n + attempts_left d' <= attempts_left d /\ (terminal d -> d' = d).
Proof.
  induction 1 as [db|db db1 db' ids n Hst _ IH]; intros Hi.
  { split; [done|]. intros d Hd. exists d. by repeat split. }
  destruct (step_spec _ _ _ Hi Hst) as (Hi1 & Hrows & _). destruct (IH Hi1) as [Hi' Hlater].
  split; [done|]. intros d Hd. destruct (Hrows id d Hd) as (d1 & Hd1 & Ha).
  destruct (Hlater d1 Hd1) as (d' & Hd' & Hf & Hle & Ht). exists d'.
  case_bool_decide as Hid; cbn [delivery_after] in Ha.
  - destruct Ha as (Hp & Hf1 & Hx). split_and!; [done| | |by intros []].
    + unfold fixed_columns in *. destruct Hf as (-> & -> & -> & -> & ->). done.
    + enough (attempts_left d1 + 1 <= attempts_left d) by lia.
      pose proof (ci_wf _ Hi _ _ Hd) as [Hs _]. pose proof (pending_count d Hs Hp).
      destruct Hf1 as (_ & _ & Hm & _). unfold attempts_left at 2. rewrite bool_decide_true by done.
      unfold attempts_left. case_bool_decide; [|lia].
      destruct Hx as [[]|Hx]; [done|]. rewrite Hm. lia.
  - subst d1. done.
Qed.

Lemma attempts_left_bound (d : CallbackDelivery) :
  delivery_wf d -> attempts_left d <= Z.max 1 (cd_max_attempts d).
Proof.
  intros [Hs _]. unfold attempts_left. case_bool_decide as Hp; [|lia].
  pose proof (pending_count d Hs Hp). lia.
Qed.

(** A delivery that is queued on the way. *)
Lemma run_from_none (id : string) (n : nat) (db db' : CallbackDb) (d' : CallbackDelivery) :
  callback_run id n db db' -> callback_inv db -> deliveries db !! id = None ->
  deliveries db' !! id = Some d' ->
  Z.of_nat n + attempts_left d' <= Z.max 1 (cd_max_attempts d').
Proof.
  induction 1 as [db|db db1 db' ids n Hst Hrun IH]; intros Hi Hn Hd'; [congruence|].
  destruct (step_spec _ _ _ Hi Hst) as (Hi1 & _ & Hex).
  rewrite bool_decide_false.
  2: { intros Hid. destruct (Hex id Hid) as [? ?]. congruence. }
  destruct (deliveries db1 !! id) as [d1|] eqn:E; [|by apply IH].
  destruct (run_spec _ _ _ _ Hrun Hi1) as [_ Hl]. destruct (Hl d1 E) as (d2 & Hd2 & Hf & Hle & _).
  simplify_eq. destruct Hf as (_ & _ & Hm & _). rewrite Hm.
  pose proof (attempts_left_bound d1 (ci_wf _ Hi1 _ _ E)). lia.
Qed.

(** ** Requests *)

(** The addresses an attempt makes a request to. *)
Definition requests (s : CallbackSubscription) (settings : CallbackSettings) (a : Attempt)
  : list string :=
  if negb (cs_enabled s) || (cs_timeout_seconds s <=? 0) then []
  else match at_validation a with
       | validation_completes getaddrinfo =>
           match _validate_callback_target getaddrinfo (cs_target_url s) settings with
           | inr addresses =>
               if at_remaining a <=? 0 then []
               else contacted (at_address_remaining a) (at_result a) addresses
           | inl _ => []
           end
       | _ => []
       end.

Lemma contacted_in (remaining : string -> Z) (result : string -> PostResult) (l : list string) :
  contacted remaining result l ⊆ l.
Proof.
  induction l as [|x l IH]; cbn [contacted]; [done|]. destruct (remaining x <=? 0); [set_solver|].
  destruct (result x); set_solver.
Qed.

(** Only the receivers a request is made to matter. *)
Lemma post_loop_contacted (remaining : string -> Z) (r r' : string -> PostResult)
    (l : list string) (failures : list (string * PyException)) :
  (forall x, x ∈ contacted remaining r l -> r' x = r x) ->
  post_loop remaining r' l failures = post_loop remaining r l failures.
Proof.
  revert failures. induction l as [|x l IH]; intros failures H; cbn [post_loop contacted] in *; [done|].
  destruct (remaining x <=? 0); [done|]. rewrite H by left.
  destruct (r x) eqn:E; [done..|]. apply IH. intros y Hy. apply H. by right.
Qed.

Definition with_result (a : Attempt) (r : string -> PostResult) : Attempt :=
  {| at_started := at_started a; at_finished := at_finished a; at_validation := at_validation a;
     at_remaining := at_remaining a; at_address_remaining := at_address_remaining a;
     at_result := r |}.

Lemma requests_matter (id : string) (d : CallbackDelivery) (s : CallbackSubscription)
    (settings : CallbackSettings) (a : Attempt) (r : string -> PostResult) :
  (forall x, x ∈ requests s settings a -> r x = at_result a x) ->
  deliver id d s settings (with_result a r) = deliver id d s settings a.
Proof.
  intros H. unfold deliver. destruct (cs_enabled s) eqn:Ee; [|done]. cbn [negb].
  assert (Ho : attempt_outcome s settings (with_result a r) = attempt_outcome s settings a).
  { unfold attempt_outcome, requests in *. rewrite Ee in H. cbn [negb orb] in H.
    destruct (cs_timeout_seconds s <=? 0); [done|]. cbn [at_validation with_result].
    destruct (at_validation a) as [ga| |]; [|done..].
    destruct (_validate_callback_target ga (cs_target_url s) settings) as [|addresses]; [done|].
    unfold validated_outcome. cbn [at_remaining at_address_remaining at_result with_result].
    destruct (at_remaining a <=? 0); [done|].
    unfold _post_to_validated_callback_addresses. by rewrite (post_loop_contacted _ (at_result a)). }
  by rewrite Ho.
Qed.

(** ** The properties *)

(** C34: whatever is registered, queued and drained, in any order, an idempotency key has one
    subscription, a subscription has one delivery of an event and every delivery its
    subscription; each delivery is pending with a time for its next attempt, succeeded with a
    2xx response, failed with an error after exactly its attempts, or skipped, never left
    running; and the envelope that is sent names the number of the attempt. *)
Theorem callbacks_sound (id : string) (n : nat) (db : CallbackDb)
    (Hrun : callback_run id n no_callbacks db) :
  (forall i j s t, subscriptions db !! i = Some s -> subscriptions db !! j = Some t ->
     cs_idempotency_key s = cs_idempotency_key t -> i = j) /\
  (forall i j d e, deliveries db !! i = Some d -> deliveries db !! j = Some e ->
     cd_subscription_id d = cd_subscription_id e -> cd_dedupe_key d = cd_dedupe_key e -> i = j) /\
  (forall i d, deliveries db !! i = Some d ->
     is_Some (subscriptions db !! cd_subscription_id d) /\ settled_delivery d /\
     envelope_count d = VInt (ds_attempt_count (cd_state d))).
Proof.
  destruct (run_spec _ _ _ _ Hrun no_callbacks_inv) as [[H1 H2 H3 H4] _].
  split_and!; [done..|]. intros i d Hd. split; [by eapply H3|by apply (H4 i)].
Qed.

(** A delivery is attempted a bounded number of times: in any sequence of steps no more
    often than its [max_attempts], counting the attempts it has left, and never without end;
    once it has succeeded, failed or been skipped no later step changes or attempts it. *)
Theorem attempts_bounded (id : string) (n : nat) (db : CallbackDb) (d : CallbackDelivery)
    (Hrun : callback_run id n no_callbacks db) (Hd : deliveries db !! id = Some d) :
  Z.of_nat n + attempts_left d <= Z.max 1 (cd_max_attempts d) /\ 0 <= attempts_left d /\
  forall n' db', callback_run id n' db db' ->
    exists d', deliveries db' !! id = Some d' /\ Z.of_nat n' + attempts_left d' <= attempts_left d /\
      (terminal d -> d' = d /\ n' = 0%nat).
Proof.
  destruct (run_spec _ _ _ _ Hrun no_callbacks_inv) as [Hi _].
  pose proof (attempts_left_nonneg d (ci_wf _ Hi _ _ Hd)) as H0. split_and!; [|done|].
  - by eapply run_from_none; [exact Hrun|exact no_callbacks_inv| |].
  - intros n' db' Hrun'. destruct (run_spec _ _ _ _ Hrun' Hi) as [Hi' Hl].
    destruct (Hl d Hd) as (d' & Hd' & _ & Hle & Ht). exists d'. split_and!; [done|done|].
    intros Htm. specialize (Ht Htm). subst d'. split; [done|].
    unfold attempts_left in Hle. rewrite bool_decide_false in Hle by done. lia.
Qed.

(** An event is queued exactly once for each subscription it is for: the enabled ones,
    not held back by a restore, with a stored pattern that matches the event's type by the
    published policy.  Deliveries there already are kept as they are, every new one is a
    pending delivery of this event, and queueing the event again changes nothing and returns
    the same deliveries. *)
Theorem queued_exactly_once (id : string) (n : nat) (db : CallbackDb) (g : WorkGuards)
    (e : CallbackEvent) (fresh fresh' : string -> string * datetime * datetime)
    (Hrun : callback_run id n no_callbacks db)
    (Hf : fresh_for db fresh (list_enabled_for_event_type db g (ce_type e))) :
  let '(db', ids) := enqueue_event db g e fresh in
  exists recipients,
    NoDup (map fst recipients) /\
    (forall sid s, (sid, s) ∈ recipients <->
       subscriptions db !! sid = Some s /\ cs_enabled s = true /\
       restore_row_allows_work g "callback_subscriptions" sid = true /\
       existsb (fun t => callback_subscription_matches_event_type t (ce_type e)) (cs_event_types s)
       = true) /\
    Forall2 (fun p i => exists d, deliveries db' !! i = Some d /\ cd_subscription_id d = p.1 /\
                                  cd_dedupe_key d = ce_dedupe_key e) recipients ids /\
    deliveries db ⊆ deliveries db' /\
    (forall i d, deliveries db' !! i = Some d -> deliveries db !! i = None ->
       exists sid s now created, (sid, s) ∈ recipients /\ d = new_delivery i sid s e now created) /\
    enqueue_event db' g e fresh' = (db', ids).
Proof.
  destruct (run_spec _ _ _ _ Hrun no_callbacks_inv) as [Hi _].
  destruct (enqueue_event db g e fresh) as [db' ids] eqn:E.
  destruct (enqueue_event_spec db g e fresh db' ids Hi Hf E) as [[Q1 Q2 Q3 Q4] Hq].
  destruct (recipients_spec db g (ce_type e)) as [Hn Hr].
  exists (list_enabled_for_event_type db g (ce_type e)). split_and!; try done.
  unfold enqueue_event. replace (list_enabled_for_event_type db' g (ce_type e))
    with (list_enabled_for_event_type db g (ce_type e)).
  - by apply enqueue_again.
  - unfold list_enabled_for_event_type. by rewrite Q2.
Qed.


(** ** Witnesses *)

Definition sample_request : CallbackRequest :=
  {| cr_name := "ops"; cr_target_url := "https://hooks.example.com/awf";
     cr_event_types := ["workspace.*"]; cr_enabled := true; cr_timeout_seconds := 10;
     cr_max_attempts := 2; cr_initial_backoff_seconds := 5 |}.
Definition sample_time (seconds : Z) : datetime :=
  {| dt_us := us_per_second * seconds; dt_offset := Some 0 |}.
Definition sample_guards : WorkGuards :=
  {| wg_restore_quarantine := false; wg_held := []; wg_task_policies := {["w1" := VDict []]};
     wg_workspace_tasks := []; wg_operation_workspaces := ∅; wg_candidate_workspaces := ∅;
     wg_event_workspaces := ∅ |}.
Definition sample_event : CallbackEvent :=
  workspace_callback
    {| er_id := "e1"; er_workspace_id := "w1"; er_event_type := "workspace.state_changed";
       er_old_state := Some "running"; er_new_state := Some "completed"; er_reason_code := None;
       er_occurred_at := sample_time 0 |}.
Definition sample_new (id : string) (sid : string) : string * datetime * datetime :=
  (id, sample_time 1, sample_time 1).

(** The first address refuses and the second answers 503. *)
Definition sample_attempt (_ : string) : Attempt :=
  {| at_started := sample_time 2; at_finished := sample_time 3;
     at_validation := validation_completes sample_resolver; at_remaining := 1;
     at_address_remaining := fun _ => 1;
     at_result := fun x => if eqb x "93.184.216.34"
                           then post_raises {| ex_class := "ConnectError"; ex_text := "refused" |}
                           else post_response 503 |}.

Definition sample_registered : CallbackDb :=
  set_subscription no_callbacks "s1"
    (new_subscription sample_request "k1" (callback_request_hash sample_request) (sample_time 0)).
Definition sample_queued : CallbackDb :=
  (enqueue_event sample_registered sample_guards sample_event (sample_new "d1")).1.
Definition sample_drained : CallbackDb :=
  (drain_due sample_queued sample_guards sample_settings (sample_time 2) 50 sample_attempt).1.

Lemma sample_register : callback_step no_callbacks [] sample_registered.
Proof.
  apply (step_register no_callbacks sample_settings sample_request "k1" "s1" (sample_time 0)
           sample_registered "s1"); [done|].
  unfold register. change (_validate_callback_target_static_policy _ _) with
    (_validate_callback_target_static_policy "https://hooks.example.com/awf" sample_settings).
  replace (_validate_callback_target_static_policy "https://hooks.example.com/awf" sample_settings)
    with (inr "hooks.example.com" : TargetError + string) by (vm_compute; reflexivity).
  done.
Qed.

Lemma sample_id_unused (id : string) (db : CallbackDb) :
  deliveries db !! id = None ->
  map fst (list_enabled_for_event_type db sample_guards (ce_type sample_event)) = ["s1"] ->
  fresh_for db (sample_new id) (list_enabled_for_event_type db sample_guards (ce_type sample_event)).
Proof.
  intros Hd. destruct (list_enabled_for_event_type _ _ _) as [|[sid s] [|]]; [done| |done].
  intros _. split; [apply NoDup_singleton|by constructor].
Qed.

Lemma sample_queue : callback_step sample_registered [] sample_queued.
Proof. apply step_enqueue, sample_id_unused; [done|by vm_compute]. Qed.

Lemma sample_run : callback_run "d1" 1 no_callbacks sample_drained.
Proof.
  eapply (run_step "d1" _ _ _ [] 1); [exact sample_register|].
  eapply (run_step "d1" _ _ _ [] 1); [exact sample_queue|].
  apply (run_step "d1" _ sample_drained sample_drained ["d1"] 0); [|constructor].
  replace ["d1"] with
    (drain_due sample_queued sample_guards sample_settings (sample_time 2) 50 sample_attempt).2
    by (vm_compute; reflexivity).
  apply step_drain.
Qed.

Lemma callbacks_sound_witness :
  is_Some (subscriptions sample_drained !! "s1") /\
  ds_error_code <$> (cd_state <$> deliveries sample_drained !! "d1")
  = Some (Some "CALLBACK_HTTP_503") /\
  forall i d, deliveries sample_drained !! i = Some d -> settled_delivery d.
Proof.
  destruct (callbacks_sound "d1" 1 sample_drained sample_run) as (_ & _ & H).
  split_and!; [vm_compute; by eexists|vm_compute; reflexivity|].
  intros i d Hd. apply (H i d Hd).
Defined.

Lemma attempts_bounded_witness :
  exists d, deliveries sample_drained !! "d1" = Some d /\ ds_attempt_count (cd_state d) = 1 /\
    forall n' db', callback_run "d1" n' sample_drained db' -> (n' <= 1)%nat.
Proof.
  destruct (deliveries sample_drained !! "d1") as [d|] eqn:E.
  - exists d. split; [reflexivity|].
    assert (Hd : Some d = deliveries sample_drained !! "d1") by (by rewrite E).
    assert (Hc : (fun d => (ds_attempt_count (cd_state d), attempts_left d)) <$> Some d = Some (1, 1)).
    { rewrite Hd. vm_compute. reflexivity. }
    cbn in Hc. injection Hc as Hc Hl. split; [exact Hc|]. intros n' db' Hrun.
    destruct (attempts_bounded "d1" 1 sample_drained d sample_run E) as (_ & _ & H).
    destruct (H n' db' Hrun) as (d' & Hd' & Hle & _).
    assert (Hw : 0 <= attempts_left d').
    { destruct (run_spec _ _ _ _ sample_run no_callbacks_inv) as [Hi _].
      destruct (run_spec _ _ _ _ Hrun Hi) as [Hi' _].
      by apply attempts_left_nonneg, (ci_wf _ Hi' "d1"). }
    lia.
  - exfalso. revert E. vm_compute. discriminate.
Defined.

Lemma queued_exactly_once_witness :
  let '(db', ids) := enqueue_event sample_drained sample_guards
                       (workspace_callback
                          {| er_id := "e2"; er_workspace_id := "w1";
                             er_event_type := "workspace.attention_required"; er_old_state := None;
                             er_new_state := None; er_reason_code := None;
                             er_occurred_at := sample_time 4 |}) (sample_new "d2") in
  ids = ["d2"] /\ deliveries sample_drained ⊆ deliveries db'.
Proof.
  set (e := workspace_callback _).
  assert (Hf : fresh_for sample_drained (sample_new "d2")
                 (list_enabled_for_event_type sample_drained sample_guards (ce_type e))).
  { destruct (list_enabled_for_event_type sample_drained sample_guards (ce_type e))
      as [|[sid s] [|]] eqn:E.
    - split; constructor.
    - split; [apply NoDup_singleton|]. constructor; [vm_compute; reflexivity|constructor].
    - exfalso. assert (H : (length (list_enabled_for_event_type sample_drained sample_guards
        (ce_type e)) <= 1)%nat) by (vm_compute; lia). rewrite E in H. simpl in H. lia. }
  pose proof (queued_exactly_once "d1" 1 sample_drained sample_guards e (sample_new "d2")
                (sample_new "d3") sample_run Hf) as H.
  assert (Hids : (enqueue_event sample_drained sample_guards e (sample_new "d2")).2 = ["d2"])
    by (vm_compute; reflexivity).
  destruct (enqueue_event sample_drained sample_guards e (sample_new "d2")) as [db' ids].
  split; [exact Hids|]. destruct H as (r & _ & _ & _ & Hs & _). exact Hs.
Defined.

