(* ===== verification/WriterLock.v ===== *)
(** * The lock of a worktree's writers

    [runtime/worktree_writer_lock.py]: a lock file with a gate next to it, taken with
    [flock] by threads of several processes, removed by collectors and probed; and, above
    it, the frames in which the tasks of one process hold it.  The first part is a step
    relation over the system calls of all the threads, each of which may fail, and any of
    which may be the last before its process dies; the second over the frames. *)

From stdpp Require Import relations gmap sets.
From S2P Require Import Prelude PyStr PyPath PyNet.
#[local] Open Scope nat_scope.

(** ** Paths *)

Definition WORKTREE_WRITER_LOCK_DIR : string := ".awf-worktree-writer-locks".

Definition worktree_writer_lock_path (worktree_path : path) : path :=
  parent worktree_path ++ [WORKTREE_WRITER_LOCK_DIR; path_name worktree_path +:+ ".lock"].

Definition _worktree_writer_lock_gate_path (lock_path : path) : path :=
  parent lock_path ++ [path_name lock_path +:+ ".gate"].

(** ** Which git commands write *)

Definition _MUTATING_GIT_SUBCOMMANDS : list string :=
  ["add"; "am"; "checkout"; "cherry-pick"; "clean"; "commit"; "merge"; "pull"; "rebase";
   "reset"; "restore"; "revert"; "stash"].
Definition LONG_OPTIONS_WITH_VALUE : list string :=
  ["--exec-path"; "--git-dir"; "--work-tree"; "--namespace"; "--attr-source"; "--config-env"].

(** The first [index] past the value of an option skips two words. *)
Fixpoint _git_subcommand_from_args (skip : bool) (args : list string) : option string :=
  match args with
  | [] => None
  | token :: rest =>
      if skip then _git_subcommand_from_args false rest
      else if eqb token "--" then head rest
      else if starts_with "--" token then
        let '(name, _, inline_value) := partition (char 61) token in
        if negb (eqb inline_value "") then _git_subcommand_from_args false rest
        else _git_subcommand_from_args (mem name LONG_OPTIONS_WITH_VALUE) rest
      else if starts_with "-" token && (1 <? str_len token) then
        _git_subcommand_from_args (mem token ["-C"; "-c"]) rest
      else Some token
  end.

Definition git_args_mutate_worktree (args : list string) : bool :=
  match _git_subcommand_from_args false args with
  | None => false
  | Some subcommand => mem subcommand _MUTATING_GIT_SUBCOMMANDS
  end.

Example git_mutates :
  map git_args_mutate_worktree
    [["--git-dir"; "/tmp/repo.git"; "reset"; "--hard"]; ["--"; "reset"]; ["-p"; "status"]; [];
     ["--config-env=core.editor=EDITOR"; "stash"]; ["-C"; "reset"; "log"]; ["rm"; "a.py"]]
  = [true; true; false; false; true; false; false].
Proof. vm_compute. reflexivity. Qed.

(** ** Reaping *)

Definition removesuffix (suffix name : string) : string :=
  if ends_with suffix name then take_str (str_len name - str_len suffix) name else name.

(** The worktrees whose lock files a reap removes, given the [*.lock] names of the
    directory, if it can be listed, and what the file system and the probe answer. *)
Definition reap_stale_worktree_writer_locks (is_file is_symlink exists_ : path -> bool)
    (is_held : path -> bool) (worktrees_dir : path)
    (lock_names : option (list string)) : list path :=
  List.filter (fun worktree_path => negb (is_held worktree_path))
    (omap (fun name =>
       let lock_path := worktrees_dir ++ [WORKTREE_WRITER_LOCK_DIR; name] in
       let worktree_path := div worktrees_dir (removesuffix ".lock" name) in
       if negb (is_file lock_path) || is_symlink lock_path || exists_ worktree_path then None
       else Some worktree_path) (default [] lock_names)).

(** ** Threads and files *)

Inductive Mode : Type := LOCK_SH | LOCK_EX.

(** Where a thread is in [acquire] and [release], in [remove_worktree_writer_lock] or in
    [is_worktree_writer_lock_held], with the files it has open, as inodes. *)
Inductive Pc : Type :=
| Returned (answer : option bool)
| Raised
| AcquireStart
| AcquireGate (gate : nat)
| AcquireShared (gate : nat)
| AcquireLock (gate lock : nat)
| Held (gate lock : nat)
| ReleaseGate (gate : nat) (failed : bool)
| RemoveStart
| RemoveGate (gate : nat)
| RemoveExclusive (gate : nat)
| RemoveLock (gate lock : nat)
| RemoveLocked (gate lock : nat)
| RemoveUnlinked (gate lock : nat)
| RemoveClosing (gate : nat)
| ProbeStart
| ProbeOpen (lock : nat)
| ProbeLocked (lock : nat).

Record Thread : Type := { t_lock_path : path; t_pc : Pc }.

Record World : Type := {
  w_files : gmap path nat;      (* the inode that a path names *)
  w_next : nat;                 (* the next inode *)
  w_threads : gmap nat Thread
}.

(** The locks of the open files of a thread. *)
Definition flocks (pc : Pc) : list (nat * Mode) :=
  match pc with
  | AcquireShared g | AcquireLock g _ | ReleaseGate g _ => [(g, LOCK_SH)]
  | Held g l => [(g, LOCK_SH); (l, LOCK_EX)]
  | RemoveExclusive g | RemoveLock g _ | RemoveClosing g => [(g, LOCK_EX)]
  | RemoveLocked g l | RemoveUnlinked g l => [(g, LOCK_EX); (l, LOCK_EX)]
  | ProbeLocked l => [(l, LOCK_EX)]
  | _ => []
  end.

Definition compatible (m m' : Mode) : bool :=
  match m, m' with LOCK_SH, LOCK_SH => true | _, _ => false end.

(** No other open file has a lock on the inode that excludes this one. *)
Definition grantable (w : World) (me inode : nat) (mode : Mode) : bool :=
  forallb (fun '(other, t) =>
    Nat.eqb other me
    || forallb (fun '(i, m) => negb (Nat.eqb i inode) || compatible mode m) (flocks (t_pc t)))
    (map_to_list (w_threads w)).

Definition set_thread (me : nat) (lock_path : path) (pc : Pc) (w : World) : World :=
  {| w_files := w_files w; w_next := w_next w;
     w_threads := <[me := {| t_lock_path := lock_path; t_pc := pc |}]> (w_threads w) |}.

(** [os.open(path, O_CREAT | O_RDWR)] *)
Definition open_create (p : path) (w : World) : World * nat :=
  match w_files w !! p with
  | Some inode => (w, inode)
  | None => ({| w_files := <[p := w_next w]> (w_files w); w_next := S (w_next w);
                w_threads := w_threads w |}, w_next w)
  end.

Definition unlink (p : path) (w : World) : World :=
  {| w_files := delete p (w_files w); w_next := w_next w; w_threads := w_threads w |}.

(** The next system call of a thread succeeds; [None] when it waits for a lock, or has
    nothing to do.  A call that must not wait is refused instead. *)
Section Calls.
Context (me : nat) (lock_path : path).

Let goto (pc : Pc) (w : World) : World := set_thread me lock_path pc w.

(** [_WorktreeWriterLockHandle.acquire] *)
Definition acquire_call (pc : Pc) (w : World) : option World :=
  match pc with
  | AcquireStart =>
      let '(w, gate) := open_create (_worktree_writer_lock_gate_path lock_path) w in
      Some (goto (AcquireGate gate) w)
  | AcquireGate gate =>
      if grantable w me gate LOCK_SH then Some (goto (AcquireShared gate) w) else None
  | AcquireShared gate =>
      let '(w, lock) := open_create lock_path w in Some (goto (AcquireLock gate lock) w)
  | AcquireLock gate lock =>
      if grantable w me lock LOCK_EX then Some (goto (Held gate lock) w) else None
  | _ => None
  end.

(** [_WorktreeWriterLockHandle.release]: unlocking and closing a file is one call. *)
Definition release_call (pc : Pc) (w : World) : option World :=
  match pc with
  | Held gate _ => Some (goto (ReleaseGate gate false) w)
  | ReleaseGate _ failed => Some (goto (if failed then Raised else Returned None) w)
  | _ => None
  end.

Definition remove_worktree_writer_lock (pc : Pc) (w : World) : option World :=
  match pc with
  | RemoveStart =>
      let '(w, gate) := open_create (_worktree_writer_lock_gate_path lock_path) w in
      Some (goto (RemoveGate gate) w)
  | RemoveGate gate =>
      Some (goto (if grantable w me gate LOCK_EX then RemoveExclusive gate else Returned None) w)
  | RemoveExclusive gate =>
      Some (goto match w_files w !! lock_path with
                 | Some lock => RemoveLock gate lock
                 | None => Returned None
                 end w)
  | RemoveLock gate lock =>
      Some (goto (if grantable w me lock LOCK_EX then RemoveLocked gate lock
                  else RemoveClosing gate) w)
  | RemoveLocked gate lock => Some (goto (RemoveUnlinked gate lock) (unlink lock_path w))
  | RemoveUnlinked gate _ => Some (goto (RemoveClosing gate) w)
  | RemoveClosing _ => Some (goto (Returned None) w)
  | _ => None
  end.

Definition is_worktree_writer_lock_held (pc : Pc) (w : World) : option World :=
  match pc with
  | ProbeStart =>
      Some (goto match w_files w !! lock_path with
                 | Some lock => ProbeOpen lock
                 | None => Returned (Some false)
                 end w)
  | ProbeOpen lock =>
      Some (goto (if grantable w me lock LOCK_EX then ProbeLocked lock
                  else Returned (Some true)) w)
  | ProbeLocked _ => Some (goto (Returned (Some false)) w)
  | _ => None
  end.
End Calls.

Definition proceed (me : nat) (w : World) : option World :=
  t ← w_threads w !! me;
  let pc := t_pc t in
  match pc with
  | Returned _ | Raised => None
  | AcquireStart | AcquireGate _ | AcquireShared _ | AcquireLock _ _ =>
      acquire_call me (t_lock_path t) pc w
  | Held _ _ | ReleaseGate _ _ => release_call me (t_lock_path t) pc w
  | RemoveStart | RemoveGate _ | RemoveExclusive _ | RemoveLock _ _ | RemoveLocked _ _
  | RemoveUnlinked _ _ | RemoveClosing _ => remove_worktree_writer_lock me (t_lock_path t) pc w
  | ProbeStart | ProbeOpen _ | ProbeLocked _ =>
      is_worktree_writer_lock_held me (t_lock_path t) pc w
  end.

(** The next system call raises [OSError]. *)
Definition fail_call (me : nat) (w : World) : option World :=
  t ← w_threads w !! me;
  let goto pc := Some (set_thread me (t_lock_path t) pc w) in
  match t_pc t with
  | AcquireStart | AcquireGate _ | AcquireShared _ | AcquireLock _ _ => goto Raised
  | Held gate _ => goto (ReleaseGate gate true)
  | ReleaseGate _ _ => goto Raised
  | RemoveStart | RemoveGate _ | RemoveExclusive _ => goto (Returned None)
  | RemoveLock gate _ => goto (RemoveClosing gate)
  | RemoveLocked gate lock => goto (RemoveUnlinked gate lock)
  | ProbeStart | ProbeOpen _ => goto (Returned (Some true))
  | _ => None
  end.

(** A thread calls [acquire] (to [release] after its critical section), removes the lock
    or probes it. *)
Inductive Call : Type := Acquire | Remove | Probe.
Definition start_of (c : Call) : Pc :=
  match c with Acquire => AcquireStart | Remove => RemoveStart | Probe => ProbeStart end.

Inductive step : World -> World -> Prop :=
| step_start (w : World) (me : nat) (c : Call) (worktree_path : path) :
    w_threads w !! me = None ->
    step w (set_thread me (worktree_writer_lock_path worktree_path) (start_of c) w)
| step_proceed (w w' : World) (me : nat) : proceed me w = Some w' -> step w w'
| step_fail (w w' : World) (me : nat) : fail_call me w = Some w' -> step w w'
| step_exit (w : World) (me : nat) :
    (* the thread ends, or its process dies: its files are closed *)
    step w {| w_files := w_files w; w_next := w_next w; w_threads := delete me (w_threads w) |}.

Definition initial : World := {| w_files := ∅; w_next := 0; w_threads := ∅ |}.
Definition reachable (w : World) : Prop := rtc step initial w.

(** ** The invariant of the lock *)

Lemma last_two {A : Type} (l : list A) (x y : A) : last (l ++ [x; y]) = Some y.
Proof. change [x; y] with ([x] ++ [y]). by rewrite app_assoc, last_snoc. Qed.

Lemma suffixes_differ (a b : string) : (a +:+ ".gate") <> (b +:+ ".lock").
Proof.
  intros H. apply (f_equal String.list_ascii_of_string), (f_equal (@rev ascii)) in H.
  assert (Ha : forall s t, String.list_ascii_of_string (s +:+ t)
    = String.list_ascii_of_string s ++ String.list_ascii_of_string t)
    by (intros s t; induction s as [|c s IH]; simpl; [done|by rewrite IH]).
  rewrite !Ha, !rev_app_distr in H. simpl in H. discriminate.
Qed.

(** A gate is never a lock. *)
Lemma gate_not_lock (p q : path) :
  _worktree_writer_lock_gate_path (worktree_writer_lock_path p) <> worktree_writer_lock_path q.
Proof.
  unfold _worktree_writer_lock_gate_path. intros H. apply (f_equal last) in H.
  unfold worktree_writer_lock_path in H at 3. rewrite last_snoc, last_two in H.
  injection H as H. by apply suffixes_differ in H.
Qed.

(** The open files of a thread are those that its paths name, as long as it holds the
    gate. *)
Definition files_ok (w : World) (t : Thread) : Prop :=
  let gate g := w_files w !! _worktree_writer_lock_gate_path (t_lock_path t) = Some g in
  let lock l := w_files w !! t_lock_path t = Some l in
  match t_pc t with
  | AcquireGate g | AcquireShared g | ReleaseGate g _ | RemoveGate g | RemoveExclusive g
  | RemoveUnlinked g _ | RemoveClosing g => gate g
  | AcquireLock g l | Held g l | RemoveLock g l | RemoveLocked g l => gate g /\ lock l
  | _ => True
  end.

Definition locks_ok (threads : gmap nat Thread) : Prop :=
  forall a b ta tb i m m',
    threads !! a = Some ta -> threads !! b = Some tb -> a <> b ->
    (i, m) ∈ flocks (t_pc ta) -> (i, m') ∈ flocks (t_pc tb) -> compatible m m' = true.

Record Inv (w : World) : Prop := {
  inv_fresh : forall p i, w_files w !! p = Some i -> i < w_next w;
  inv_names : forall p q i, w_files w !! p = Some i -> w_files w !! q = Some i -> p = q;
  inv_paths : forall a t, w_threads w !! a = Some t ->
    exists worktree_path, t_lock_path t = worktree_writer_lock_path worktree_path;
  inv_files : forall a t, w_threads w !! a = Some t -> files_ok w t;
  inv_locks : locks_ok (w_threads w)
}.

Lemma compatible_sym (m m' : Mode) : compatible m m' = compatible m' m.
Proof. by destruct m, m'. Qed.

Lemma grantable_spec (w : World) (me i : nat) (mode : Mode) :
  grantable w me i mode = true <->
  forall b tb m, w_threads w !! b = Some tb -> b <> me -> (i, m) ∈ flocks (t_pc tb) ->
    compatible mode m = true.
Proof.
  unfold grantable. rewrite forallb_elem. split.
  - intros H b tb m Hb Hne Hm. specialize (H (b, tb)). cbn in H.
    rewrite elem_of_map_to_list in H. specialize (H Hb).
    rewrite (proj2 (Nat.eqb_neq b me) Hne) in H. cbn in H.
    apply (proj1 (forallb_elem _ _)) with (x := (i, m)) in H; [|done]. cbn in H.
    by rewrite Nat.eqb_refl in H.
  - intros H [b tb] Hb%elem_of_map_to_list. destruct (Nat.eqb_spec b me) as [->|Hne]; [done|].
    cbn. apply forallb_elem. intros [i' m] Hm. destruct (Nat.eqb_spec i' i) as [->|]; [|done].
    cbn. by eapply H.
Qed.

(** A refused lock is held by somebody else. *)
Lemma not_grantable (w : World) (me i : nat) (mode : Mode) :
  grantable w me i mode = false ->
  exists b tb m, w_threads w !! b = Some tb /\ b <> me /\ (i, m) ∈ flocks (t_pc tb) /\
                 compatible mode m = false.
Proof.
  unfold grantable. intros H. apply forallb_not in H as ([b tb] & Hb%elem_of_map_to_list & H).
  apply orb_false_iff in H as [Hne H]. apply forallb_not in H as ([i' m] & Hm & H).
  apply orb_false_iff in H as [Hi Hc]. apply negb_false_iff, Nat.eqb_eq in Hi as ->.
  apply Nat.eqb_neq in Hne. by exists b, tb, m.
Qed.

(** The locks of the thread after a call are those it had, or were granted. *)
Lemma set_thread_locks (w : World) (me : nat) (p : path) (pc : Pc) :
  locks_ok (w_threads w) ->
  (forall i m, (i, m) ∈ flocks pc ->
     (exists t, w_threads w !! me = Some t /\ (i, m) ∈ flocks (t_pc t)) \/
     grantable w me i m = true) ->
  locks_ok (w_threads (set_thread me p pc w)).
Proof.
  intros Hl Hnew.
  assert (Hme : forall b tb i m m', w_threads w !! b = Some tb -> b <> me ->
            (i, m) ∈ flocks pc -> (i, m') ∈ flocks (t_pc tb) -> compatible m m' = true).
  { intros b tb i m m' Hb Hne Hm Hm'. destruct (Hnew i m Hm) as [(t & Ht & Hi)|Hg].
    - exact (Hl me b t tb i m m' Ht Hb (not_eq_sym Hne) Hi Hm').
    - exact (proj1 (grantable_spec w me i m) Hg b tb m' Hb Hne Hm'). }
  intros a b ta tb i m m' Ha Hb Hne Hia Hib. cbn in Ha, Hb.
  destruct (decide (a = me)) as [->|Ham], (decide (b = me)) as [->|Hbm]; [done| | |].
  - rewrite lookup_insert_eq in Ha. rewrite lookup_insert_ne in Hb by done. simplify_eq. eauto.
  - rewrite lookup_insert_eq in Hb. rewrite lookup_insert_ne in Ha by done. simplify_eq.
    rewrite compatible_sym. eauto.
  - rewrite !lookup_insert_ne in Ha, Hb by done. eauto.
Qed.

(** A call that leaves the files alone. *)
Lemma set_thread_inv (w : World) (me : nat) (t : Thread) (pc : Pc) :
  Inv w -> w_threads w !! me = Some t ->
  files_ok w {| t_lock_path := t_lock_path t; t_pc := pc |} ->
  (forall i m, (i, m) ∈ flocks pc -> (i, m) ∈ flocks (t_pc t) \/ grantable w me i m = true) ->
  Inv (set_thread me (t_lock_path t) pc w).
Proof.
  intros HI Ht Hf Hl. split.
  - apply (inv_fresh w HI).
  - apply (inv_names w HI).
  - intros a ta Ha. cbn in Ha. apply lookup_insert_Some in Ha as [[<- <-]|[_ Ha]];
      [exact (inv_paths w HI me t Ht)|exact (inv_paths w HI a ta Ha)].
  - intros a ta Ha. cbn in Ha. apply lookup_insert_Some in Ha as [[<- <-]|[_ Ha]];
      [exact Hf|exact (inv_files w HI a ta Ha)].
  - apply set_thread_locks; [apply (inv_locks w HI)|]. intros i m Hm.
    destruct (Hl i m Hm); [left; by exists t|by right].
Qed.

Lemma open_create_spec (p : path) (w : World) :
  let '(w', i) := open_create p w in
  w_threads w' = w_threads w /\ w_files w' !! p = Some i /\
  (forall q j, w_files w !! q = Some j -> w_files w' !! q = Some j) /\ (Inv w -> Inv w').
Proof.
  unfold open_create. destruct (w_files w !! p) as [i|] eqn:E; [by auto|]. cbn.
  assert (Hk : forall q j, w_files w !! q = Some j -> <[p:=w_next w]> (w_files w) !! q = Some j).
  { intros q j Hq. rewrite lookup_insert_ne; [done|]. by intros ->; rewrite Hq in E. }
  split_and!; [done|apply lookup_insert_eq|done|]. intros HI. split; cbn.
  - intros q i [[<- <-]|[_ Hq]]%lookup_insert_Some; [lia|].
    pose proof (inv_fresh w HI q i Hq). lia.
  - intros q r i Hq Hr. apply lookup_insert_Some in Hq, Hr.
    destruct Hq as [[<- <-]|[_ Hq]], Hr as [[<- Hi]|[_ Hr]]; [done| | |by eapply (inv_names w HI)].
    + pose proof (inv_fresh w HI r _ Hr). lia.
    + subst. pose proof (inv_fresh w HI q _ Hq). lia.
  - apply (inv_paths w HI).
  - intros a t Ha. pose proof (inv_files w HI a t Ha) as Hf. unfold files_ok in *. cbn.
    destruct (t_pc t); naive_solver.
  - apply (inv_locks w HI).
Qed.

(** Whoever has the lock open to take it, or has taken it, has a lock on the gate. *)
Lemma unlink_inv (w : World) (me : nat) (t : Thread) (g l : nat) :
  Inv w -> w_threads w !! me = Some t -> t_pc t = RemoveUnlinked g l ->
  Inv (unlink (t_lock_path t) w).
Proof.
  intros HI Ht Hpc. pose proof (inv_files w HI me t Ht) as Hg. unfold files_ok in Hg.
  rewrite Hpc in Hg. destruct (inv_paths w HI me t Ht) as [wt Hwt].
  assert (Hdel : forall p i, delete (t_lock_path t) (w_files w) !! p = Some i ->
            w_files w !! p = Some i) by (intros p i [_ Hp]%lookup_delete_Some; done).
  split; cbn.
  - intros p i Hp%Hdel. exact (inv_fresh w HI p i Hp).
  - intros p q i Hp%Hdel Hq%Hdel. exact (inv_names w HI p q i Hp Hq).
  - apply (inv_paths w HI).
  - intros b tb Hb. pose proof (inv_files w HI b tb Hb) as Hfb.
    destruct (inv_paths w HI b tb Hb) as [wb Hwb].
    assert (Hgate : t_lock_path t <> _worktree_writer_lock_gate_path (t_lock_path tb))
      by (rewrite Hwb, Hwt; intros He; symmetry in He; by apply gate_not_lock in He).
    unfold files_ok in *. cbn. rewrite (lookup_delete_ne _ _ _ Hgate).
    destruct (decide (t_lock_path t = t_lock_path tb)) as [He|Hne];
      [|by rewrite (lookup_delete_ne _ _ _ Hne)].
    assert (Hex : forall m, (g, m) ∉ flocks (t_pc tb) \/ b = me).
    { intros m. destruct (decide (b = me)) as [|Hbm]; [by right|left]. intros Hm.
      pose proof (inv_locks w HI me b t tb g LOCK_EX m Ht Hb (not_eq_sym Hbm)) as Hc.
      rewrite Hpc in Hc. cbn in Hc. specialize (Hc (list_elem_of_here _ _) Hm). by destruct m. }
    rewrite <- He in Hfb |- *.
    assert (Hb' : b = me -> t_pc tb = RemoveUnlinked g l) by (intros ->; congruence).
    destruct (t_pc tb); try exact Hfb; destruct Hfb as [Hfb _]; rewrite Hg in Hfb; simplify_eq;
      (destruct (Hex LOCK_SH) as [Hn|Heq]; [|by specialize (Hb' Heq)]);
      (destruct (Hex LOCK_EX) as [Hn'|Heq]; [|by specialize (Hb' Heq)]);
      exfalso; set_solver.
  - apply (inv_locks w HI).
Qed.

Lemma create_inv (w : World) (me : nat) (t : Thread) (p : path) (pc : nat -> Pc) :
  Inv w -> w_threads w !! me = Some t ->
  (forall w' i, w_files w' !! p = Some i ->
     (forall q j, w_files w !! q = Some j -> w_files w' !! q = Some j) ->
     files_ok w' {| t_lock_path := t_lock_path t; t_pc := pc i |}) ->
  (forall i, flocks (pc i) = flocks (t_pc t)) ->
  Inv (let '(w', i) := open_create p w in set_thread me (t_lock_path t) (pc i) w').
Proof.
  intros HI Ht Hf Hl. pose proof (open_create_spec p w) as Hc.
  destruct (open_create p w) as [w' i]. destruct Hc as (Hth & Hp & Hk & HI').
  apply set_thread_inv; [by apply HI'|by rewrite Hth|by apply Hf|].
  intros j m. rewrite Hl. by left.
Qed.

Ltac flock_cases :=
  let i := fresh "i" in let m := fresh "m" in let H := fresh "H" in
  intros i m H; cbn in H |- *; repeat rewrite elem_of_cons in H;
  rewrite ?elem_of_nil in H; repeat rewrite elem_of_cons;
  destruct_or?; simplify_eq; try done; tauto.

Ltac unfold_calls H :=
  unfold proceed, acquire_call, release_call, remove_worktree_writer_lock,
    is_worktree_writer_lock_held in H.

(** The call opened a file, creating it if need be. *)
Ltac created H pc :=
  match type of H with
  | (let '(_, _) := open_create ?p ?w in _) = _ =>
      match goal with
      | HI : Inv w, Ht : w_threads w !! ?me = Some ?t, Hpc : t_pc ?t = _ |- _ =>
          let HC := fresh "HC" in
          assert (HC := create_inv w me t p pc HI Ht);
          destruct (open_create p w); injection H as <-; apply HC;
          [unfold files_ok; cbn; naive_solver|intros ?; by rewrite Hpc]
      end
  end.

Lemma proceed_inv (w w' : World) (me : nat) : Inv w -> proceed me w = Some w' -> Inv w'.
Proof.
  intros HI H. unfold_calls H. destruct (w_threads w !! me) as [t|] eqn:Ht; [|done]. cbn in H.
  pose proof (inv_files w HI me t Ht) as Hf. unfold files_ok in Hf.
  assert (Hset : forall pc, files_ok w {| t_lock_path := t_lock_path t; t_pc := pc |} ->
    (forall i m, (i, m) ∈ flocks pc -> (i, m) ∈ flocks (t_pc t) \/ grantable w me i m = true) ->
    Inv (set_thread me (t_lock_path t) pc w)) by (intros; by apply set_thread_inv).
  destruct (t_pc t) eqn:Hpc; try done; unfold files_ok in Hset; cbn in Hset.
  - (* AcquireStart *)
    created H (fun i => AcquireGate i).
  - destruct (grantable w me gate LOCK_SH) eqn:G; [|done]. injection H as <-. apply Hset; [done|flock_cases].
  - (* AcquireShared *)
    created H (fun i => AcquireLock gate i).
  - destruct (grantable w me lock LOCK_EX) eqn:G; [|done]. injection H as <-. apply Hset; [done|flock_cases].
  - injection H as <-. apply Hset; [tauto|flock_cases].
  - injection H as <-. apply Hset; [by destruct failed|destruct failed; flock_cases].
  - (* RemoveStart *)
    created H (fun i => RemoveGate i).
  - injection H as <-. destruct (grantable w me gate LOCK_EX) eqn:G; apply Hset; try done; flock_cases.
  - injection H as <-. destruct (w_files w !! t_lock_path t) eqn:E; apply Hset; try done; flock_cases.
  - injection H as <-. destruct (grantable w me lock LOCK_EX) eqn:G; apply Hset; try tauto; flock_cases.
  - (* RemoveLocked *)
    injection H as <-.
    assert (HI' : Inv (set_thread me (t_lock_path t) (RemoveUnlinked gate lock) w))
      by (apply Hset; [tauto|flock_cases]).
    apply (unlink_inv _ me {| t_lock_path := t_lock_path t; t_pc := RemoveUnlinked gate lock |} gate lock)
      in HI'; [exact HI'|by cbn; rewrite lookup_insert_eq|done].
  - injection H as <-. apply Hset; [tauto|flock_cases].
  - injection H as <-. apply Hset; [tauto|flock_cases].
  - injection H as <-. destruct (w_files w !! t_lock_path t) eqn:E; apply Hset; try done; flock_cases.
  - injection H as <-. destruct (grantable w me lock LOCK_EX) eqn:G; apply Hset; try done; flock_cases.
  - injection H as <-. apply Hset; [tauto|flock_cases].
Qed.

Lemma fail_inv (w w' : World) (me : nat) : Inv w -> fail_call me w = Some w' -> Inv w'.
Proof.
  intros HI H. unfold fail_call in H. destruct (w_threads w !! me) as [t|] eqn:Ht; [|done]. cbn in H.
  pose proof (inv_files w HI me t Ht) as Hf. unfold files_ok in Hf.
  destruct (t_pc t) eqn:Hpc; try done; injection H as <-;
    (apply set_thread_inv; [done|done|unfold files_ok; cbn; tauto|rewrite Hpc; flock_cases]).
Qed.

Lemma lock_step_inv (w w' : World) : Inv w -> step w w' -> Inv w'.
Proof.
  intros HI Hs. inversion Hs as [w0 me c wt Hn|w0 w1 me H|w0 w1 me H|w0 me]; subst.
  - assert (Hno : flocks (start_of c) = []) by by destruct c.
    assert (Hok : forall t, t_pc t = start_of c -> files_ok w t)
      by (intros t Ht; unfold files_ok; rewrite Ht; by destruct c).
    split.
    + apply (inv_fresh w HI).
    + apply (inv_names w HI).
    + intros a t Ha. cbn in Ha. apply lookup_insert_Some in Ha as [[<- <-]|[_ Ha]];
        [by exists wt|exact (inv_paths w HI a t Ha)].
    + intros a t Ha. cbn in Ha. apply lookup_insert_Some in Ha as [[<- <-]|[_ Ha]];
        [by apply Hok|exact (inv_files w HI a t Ha)].
    + apply set_thread_locks; [apply (inv_locks w HI)|]. intros i m Hm. rewrite Hno in Hm. set_solver.
  - by eapply proceed_inv.
  - by eapply fail_inv.
  - assert (Hd : forall a t, delete me (w_threads w) !! a = Some t -> w_threads w !! a = Some t)
      by (intros a t [_ Ha]%lookup_delete_Some; done).
    split; cbn.
    + apply (inv_fresh w HI).
    + apply (inv_names w HI).
    + intros a t Ha%Hd. exact (inv_paths w HI a t Ha).
    + intros a t Ha%Hd. exact (inv_files w HI a t Ha).
    + intros a b ta tb i m m' Ha%Hd Hb%Hd. exact (inv_locks w HI a b ta tb i m m' Ha Hb).
Qed.

Lemma lock_reachable_inv (w : World) : reachable w -> Inv w.
Proof.
  intros H. unfold reachable in H. apply rtc_ind_r with (P := Inv) in H; [done| |].
  - split; cbn; try (intros *; by rewrite lookup_empty).
    intros a b ta tb i m m' Ha. by rewrite lookup_empty in Ha.
  - intros x y _ Hs HI. by eapply lock_step_inv.
Qed.

(** ** Progress *)

Definition finished (pc : Pc) : bool :=
  match pc with Returned _ | Raised => true | _ => false end.

(** How many calls a thread has left. *)
Definition calls_left (pc : Pc) : nat :=
  match pc with
  | Returned _ | Raised => 0
  | AcquireStart => 6 | AcquireGate _ => 5 | AcquireShared _ => 4 | AcquireLock _ _ => 3
  | Held _ _ => 2 | ReleaseGate _ _ => 1
  | RemoveStart => 7 | RemoveGate _ => 6 | RemoveExclusive _ => 5 | RemoveLock _ _ => 4
  | RemoveLocked _ _ => 3 | RemoveUnlinked _ _ => 2 | RemoveClosing _ => 1
  | ProbeStart => 3 | ProbeOpen _ => 2 | ProbeLocked _ => 1
  end.

Definition all_calls_left (w : World) : nat :=
  sum_list (map (fun '(_, t) => calls_left (t_pc t)) (map_to_list (w_threads w))).

Definition proceeds (w w' : World) : Prop := exists me, proceed me w = Some w'.

Lemma calls_left_set (w : World) (me : nat) (t : Thread) (p : path) (pc : Pc) :
  w_threads w !! me = Some t ->
  all_calls_left (set_thread me p pc w) + calls_left (t_pc t) = all_calls_left w + calls_left pc.
Proof.
  intros Ht. unfold all_calls_left. cbn [set_thread w_threads].
  set (m := delete me (w_threads w)).
  assert (Hm : m !! me = None) by apply lookup_delete_eq.
  rewrite <- (insert_delete_id _ _ _ Ht). fold m. rewrite insert_insert_eq.
  rewrite !map_to_list_insert by done. cbn. lia.
Qed.

Lemma calls_left_create (w w' : World) (p : path) (i : nat) :
  open_create p w = (w', i) -> all_calls_left w' = all_calls_left w /\ w_threads w' = w_threads w.
Proof. unfold open_create. case_match; intros [= <- <-]; done. Qed.

Lemma proceed_calls (w w' : World) (me : nat) :
  proceed me w = Some w' -> all_calls_left w' < all_calls_left w.
Proof.
  intros H. unfold_calls H. destruct (w_threads w !! me) as [t|] eqn:Ht; [|done]. cbn in H.
  assert (Hset : forall v pc, w_threads v = w_threads w -> all_calls_left v = all_calls_left w ->
    calls_left pc < calls_left (t_pc t) ->
    all_calls_left (set_thread me (t_lock_path t) pc v) < all_calls_left w).
  { intros v pc Hv Hc Hlt. rewrite <- Hv in Ht.
    pose proof (calls_left_set v me t (t_lock_path t) pc Ht). lia. }
  destruct (t_pc t) eqn:Hpc; try done;
    repeat match type of H with
    | context [open_create ?p ?v] =>
        let E := fresh in destruct (open_create p v) eqn:E; apply calls_left_create in E as [? ?]
    | context [if ?c then _ else _] => destruct c
    | context [match ?o with Some _ => _ | None => _ end] => destruct o
    end; simplify_eq; apply Hset; (done || (cbn; lia)).
Qed.

Lemma calls_left_bound (w : World) : all_calls_left w <= 7 * size (w_threads w).
Proof.
  unfold all_calls_left. rewrite <- length_map_to_list.
  induction (map_to_list (w_threads w)) as [|[a t] l IH]; cbn; [lia|].
  assert (calls_left (t_pc t) <= 7) by (destruct (t_pc t); cbn; lia). lia.
Qed.

(** Whoever excludes others does not wait. *)
Lemma exclusive_proceeds (w : World) (b : nat) (t : Thread) (i : nat) :
  w_threads w !! b = Some t -> (i, LOCK_EX) ∈ flocks (t_pc t) -> exists w', proceed b w = Some w'.
Proof.
  intros Ht Hi. unfold proceed. rewrite Ht. cbn.
  destruct (t_pc t); cbn in Hi; try (by eexists); set_solver.
Qed.

Lemma no_deadlock (w : World) (a : nat) (t : Thread) :
  Inv w -> w_threads w !! a = Some t -> finished (t_pc t) = false -> exists w', proceeds w w'.
Proof.
  intros HI Ht Hf. destruct (proceed a w) as [w'|] eqn:E; [by exists w', a|].
  pose proof (inv_files w HI a t Ht) as Hfa. destruct (inv_paths w HI a t Ht) as [wa Hwa].
  unfold_calls E. rewrite Ht in E. cbn in E. unfold files_ok in Hfa.
  destruct (t_pc t) eqn:Hpc; try done; try (by destruct (open_create _ _)).
  - destruct (grantable w a gate LOCK_SH) eqn:G; [done|].
    apply not_grantable in G as (b & tb & m & Hb & _ & Hm & Hc). destruct m; [done|].
    destruct (exclusive_proceeds w b tb gate Hb Hm) as [w' Hw]. by exists w', b.
  - destruct (grantable w a lock LOCK_EX) eqn:G; [done|].
    apply not_grantable in G as (b & tb & m & Hb & _ & Hm & _). destruct m.
    + exfalso. pose proof (inv_files w HI b tb Hb) as Hfb. destruct (inv_paths w HI b tb Hb) as [wb Hwb].
      assert (Hg : w_files w !! _worktree_writer_lock_gate_path (t_lock_path tb) = Some lock).
      { unfold files_ok in Hfb. destruct (t_pc tb); cbn in Hm; set_solver. }
      destruct Hfa as [_ Hl]. pose proof (inv_names w HI _ _ _ Hg Hl) as He.
      rewrite Hwa, Hwb in He. by apply gate_not_lock in He.
    + destruct (exclusive_proceeds w b tb lock Hb Hm) as [w' Hw]. by exists w', b.
Qed.

Lemma proceeds_inv (w w' : World) : Inv w -> rtc proceeds w w' -> Inv w'.
Proof.
  intros HI H. induction H as [w|w v w' [me Hp] _ IH]; [done|]. apply IH. by eapply proceed_inv.
Qed.

Lemma proceeds_bounded (n : nat) (w w' : World) :
  nsteps proceeds n w w' -> n + all_calls_left w' <= all_calls_left w.
Proof.
  induction 1 as [w|n w v w' [me Hp] _ IH]; [lia|]. pose proof (proceed_calls _ _ _ Hp). lia.
Qed.

(** ** Properties of the lock *)

(** C23: The lock of a worktree has one writer.  However the calls of the threads interleave,
    whichever fail, and whichever threads die, two threads in the critical section of one
    worktree are the same thread; the lock file that the worktree's path names is the one
    it has locked, so that whoever comes next waits for it; and no collector is about to
    unlink that file. *)
Theorem writer_lock_exclusive (w : World) (a b : nat) (ta tb : Thread) (g l : nat) :
  reachable w -> w_threads w !! a = Some ta -> w_threads w !! b = Some tb ->
  t_pc ta = Held g l -> t_lock_path ta = t_lock_path tb ->
  w_files w !! t_lock_path ta = Some l /\
  match t_pc tb with
  | Held _ _ => a = b
  | RemoveExclusive _ | RemoveLock _ _ | RemoveLocked _ _ | RemoveUnlinked _ _ => False
  | _ => True
  end.
Proof.
  intros Hr Ha Hb Hpa Hpath. pose proof (lock_reachable_inv w Hr) as HI.
  pose proof (inv_files w HI a ta Ha) as Hfa. pose proof (inv_files w HI b tb Hb) as Hfb.
  unfold files_ok in Hfa, Hfb. rewrite Hpa in Hfa. destruct Hfa as [Hg Hl]. split; [done|].
  rewrite <- Hpath, Hg in Hfb.
  destruct (decide (a = b)) as [->|Hne]; [rewrite Hb in Ha; simplify_eq; by rewrite Hpa|].
  pose proof (inv_locks w HI a b ta tb) as Hk. rewrite Hpa in Hk.
  assert (Hsh : (g, LOCK_EX) ∉ flocks (t_pc tb)).
  { intros Hm. specialize (Hk g LOCK_SH LOCK_EX Ha Hb Hne). cbn in Hk.
    enough (false = true) by done. apply Hk; [set_solver|done]. }
  destruct (t_pc tb) as [| | | | | |g' l'| | | |g'|g' l'|g' l'|g' l'| | | |]; try done; cbn in Hsh;
    [|set_solver|destruct_and?; set_solver|destruct_and?; set_solver|set_solver].
  rewrite Hl in Hfb. destruct Hfb as [_ Hl']. simplify_eq. exfalso.
  specialize (Hk l' LOCK_EX LOCK_EX Ha Hb Hne). cbn in Hk.
  enough (false = true) by done. apply Hk; set_solver.
Qed.

(** The threads that proceed, in order. *)
Fixpoint run (schedule : list nat) (w : World) : option World :=
  match schedule with
  | [] => Some w
  | me :: rest => w' ← proceed me w; run rest w'
  end.

Fixpoint start_all (calls : list (nat * Call)) (worktree_path : path) (w : World) : World :=
  match calls with
  | [] => w
  | (me, c) :: rest =>
      set_thread me (worktree_writer_lock_path worktree_path) (start_of c)
        (start_all rest worktree_path w)
  end.

Lemma start_all_none (calls : list (nat * Call)) (worktree_path : path) (me : nat) :
  me ∉ calls.*1 -> w_threads (start_all calls worktree_path initial) !! me = None.
Proof.
  induction calls as [|[a c] calls IH]; intros Hn; cbn in *; [apply lookup_empty|].
  apply not_elem_of_cons in Hn as [Hne Hn]. rewrite lookup_insert_ne by done. by apply IH.
Qed.

Lemma run_reachable (calls : list (nat * Call)) (worktree_path : path) (schedule : list nat) (w : World) :
  NoDup calls.*1 -> run schedule (start_all calls worktree_path initial) = Some w -> reachable w.
Proof.
  intros Hnd Hr. unfold reachable. trans (start_all calls worktree_path initial).
  - clear Hr. induction calls as [|[a c] calls IH]; [done|]. inversion Hnd as [|? ? Hn Hnd']; subst.
    eapply rtc_r; [by apply IH|]. by apply step_start, start_all_none.
  - revert Hr. generalize (start_all calls worktree_path initial) as v.
    induction schedule as [|me rest IH]; intros v Hr; cbn in Hr; [by simplify_eq|].
    destruct (proceed me v) as [v'|] eqn:E; [|done]. eapply rtc_l; [by eapply step_proceed|by apply IH].
Qed.

(** A writer that holds the lock, a second one that waits for it, a collector that was
    refused, and a probe. *)
Definition sample_calls : list (nat * Call) := [(0, Acquire); (1, Acquire); (2, Remove); (3, Probe)].
Definition sample_schedule : list nat := [0; 1; 2; 0; 0; 0; 1; 1; 3; 3; 2].
Definition sample_worktree : path := ["/"; "srv"; "worktrees"; "ws_1"].
Definition sample_world : World :=
  default initial (run sample_schedule (start_all sample_calls sample_worktree initial)).

Example sample_threads :
  map (fun me => t_pc <$> w_threads sample_world !! me) [0; 1; 2; 3]
  = [Some (Held 0 1); Some (AcquireLock 0 1); Some (Returned None); Some (Returned (Some true))]
  /\ proceed 1 sample_world = None.
Proof. vm_compute. split; reflexivity. Qed.

Lemma sample_reachable : reachable sample_world.
Proof.
  apply (run_reachable sample_calls sample_worktree sample_schedule).
  - vm_compute. repeat constructor; set_solver.
  - vm_compute. reflexivity.
Qed.

Lemma writer_lock_exclusive_witness :
  exists t0 t1, w_threads sample_world !! 0 = Some t0 /\ w_threads sample_world !! 1 = Some t1 /\
    w_files sample_world !! t_lock_path t0 = Some 1 /\
    match t_pc t1 with Held _ _ => 0 = 1 | RemoveLocked _ _ => False | _ => True end.
Proof.
  eexists _, _. split; [vm_compute; reflexivity|]. split; [vm_compute; reflexivity|].
  edestruct (writer_lock_exclusive sample_world 0 1) as [H1 H2];
    [exact sample_reachable|vm_compute; reflexivity|vm_compute; reflexivity|reflexivity|reflexivity|].
  split; [exact H1|exact H2].
Defined.

(** C24: The threads cannot block each other for good.  From every state that calls,
    failures and deaths can lead to, the threads that go on take at most seven calls each,
    and wherever they are before all of them have finished, one of them can go on: nobody
    waits for a thread that waits. *)
Theorem writers_finish (w : World) :
  reachable w ->
  (forall n w', nsteps proceeds n w w' -> n <= 7 * size (w_threads w)) /\
  (forall w', rtc proceeds w w' ->
     (forall a t, w_threads w' !! a = Some t -> finished (t_pc t) = true) \/
     exists w'', proceeds w' w'').
Proof.
  intros Hr. pose proof (lock_reachable_inv w Hr) as HI. split.
  - intros n w' Hn. pose proof (proceeds_bounded n w w' Hn). pose proof (calls_left_bound w). lia.
  - intros w' Hw. pose proof (proceeds_inv w w' HI Hw) as HI'.
    destruct (existsb (fun '(_, t) => negb (finished (t_pc t))) (map_to_list (w_threads w'))) eqn:E.
    + apply existsb_elem in E as ([a t] & Ha%elem_of_map_to_list & Hf). apply negb_true_iff in Hf.
      right. by eapply no_deadlock.
    + left. intros a t Ha. apply (proj1 (existsb_none _ _)) with (x := (a, t)) in E.
      * by apply negb_false_iff.
      * by apply elem_of_map_to_list.
Qed.

Lemma writers_finish_witness :
  exists w', rtc proceeds sample_world w' /\
    ((forall a t, w_threads w' !! a = Some t -> finished (t_pc t) = true) \/ exists w'', proceeds w' w'').
Proof.
  exists sample_world. split; [apply rtc_refl|].
  destruct (writers_finish sample_world sample_reachable) as [_ H]. apply H, rtc_refl.
Defined.

(** ** The frames of the tasks

    [hold_exclusive_worktree_writer_lock] and [worktree_writer_locks_borrowed_from], in one
    process.  A key names a lock; a frame says whether it took the lock itself. *)
Module Frames.

Record Loan : Type := { l_helper : nat; l_lender : nat; l_keys : list path }.

Record Process : Type := {
  _ASYNC_WRITER_LOCK_OWNERS : gmap path (gset nat);
  p_frames : gmap nat (list (path * bool));   (* of each task, the innermost first *)
  p_waiting : gmap nat path;                  (* tasks whose thread calls [acquire] *)
  p_loans : list Loan
}.

Definition owners (p : Process) (key : path) : gset nat :=
  default ∅ (_ASYNC_WRITER_LOCK_OWNERS p !! key).
Definition frames (p : Process) (task : nat) : list (path * bool) := default [] (p_frames p !! task).

(** Nested frames do not touch the lock; others wait for it. *)
Definition enter (task : nat) (key : path) (p : Process) : Process :=
  if bool_decide (task ∈ owners p key) then
    {| _ASYNC_WRITER_LOCK_OWNERS := _ASYNC_WRITER_LOCK_OWNERS p;
       p_frames := <[task := (key, false) :: frames p task]> (p_frames p);
       p_waiting := p_waiting p; p_loans := p_loans p |}
  else
    {| _ASYNC_WRITER_LOCK_OWNERS := _ASYNC_WRITER_LOCK_OWNERS p; p_frames := p_frames p;
       p_waiting := <[task := key]> (p_waiting p); p_loans := p_loans p |}.

(** The thread returned with the lock. *)
Definition acquired (task : nat) (key : path) (p : Process) : Process :=
  {| _ASYNC_WRITER_LOCK_OWNERS := <[key := {[task]} ∪ owners p key]> (_ASYNC_WRITER_LOCK_OWNERS p);
     p_frames := <[task := (key, true) :: frames p task]> (p_frames p);
     p_waiting := delete task (p_waiting p); p_loans := p_loans p |}.

(** The task was cancelled, or the call raised: a lock its thread got is released. *)
Definition gave_up (task : nat) (p : Process) : Process :=
  {| _ASYNC_WRITER_LOCK_OWNERS := _ASYNC_WRITER_LOCK_OWNERS p; p_frames := p_frames p;
     p_waiting := delete task (p_waiting p); p_loans := p_loans p |}.

(** The innermost frame of the task ends. *)
Definition leave (task : nat) (p : Process) : Process :=
  match frames p task with
  | [] => p
  | (key, took) :: rest =>
      {| _ASYNC_WRITER_LOCK_OWNERS :=
           if took then
             match _ASYNC_WRITER_LOCK_OWNERS p !! key with
             | None => _ASYNC_WRITER_LOCK_OWNERS p
             | Some s =>
                 let s := s ∖ {[task]} in
                 if bool_decide (s = ∅) then delete key (_ASYNC_WRITER_LOCK_OWNERS p)
                 else <[key := s]> (_ASYNC_WRITER_LOCK_OWNERS p)
             end
           else _ASYNC_WRITER_LOCK_OWNERS p;
         p_frames := <[task := rest]> (p_frames p);
         p_waiting := p_waiting p; p_loans := p_loans p |}
  end.

Definition borrowed_keys (lender : nat) (p : Process) : list path :=
  map fst (List.filter (fun ks : path * gset nat => bool_decide (lender ∈ ks.2))
             (map_to_list (_ASYNC_WRITER_LOCK_OWNERS p))).

Definition borrow (helper lender : nat) (p : Process) : Process :=
  let keys := borrowed_keys lender p in
  {| _ASYNC_WRITER_LOCK_OWNERS :=
       map_imap (fun key (s : gset nat) => Some (if mem key keys then {[helper]} ∪ s else s))
         (_ASYNC_WRITER_LOCK_OWNERS p);
     p_frames := p_frames p; p_waiting := p_waiting p;
     p_loans := {| l_helper := helper; l_lender := lender; l_keys := keys |} :: p_loans p |}.

Definition give_back (loan : Loan) (p : Process) : Process :=
  {| _ASYNC_WRITER_LOCK_OWNERS :=
       map_imap (fun key (s : gset nat) => Some (if mem key (l_keys loan) then s ∖ {[l_helper loan]} else s))
         (_ASYNC_WRITER_LOCK_OWNERS p);
     p_frames := p_frames p; p_waiting := p_waiting p;
     p_loans := List.filter (fun l => negb (Nat.eqb (l_helper l) (l_helper loan))) (p_loans p) |}.

Definition took (p : Process) (task : nat) (key : path) : Prop := (key, true) ∈ frames p task.
Definition borrowed (p : Process) (task : nat) (key : path) : Prop :=
  exists loan, loan ∈ p_loans p /\ l_helper loan = task /\ key ∈ l_keys loan.

(** The steps of the tasks.  A task that waits does nothing else; the lock goes to one frame
    ([writer_lock_exclusive]); a helper is a new task, which gives back what it borrowed after its
    last frame, and which the lender awaits before the frame that holds the lock ends. *)
Inductive step : Process -> Process -> Prop :=
| step_enter (p : Process) (task : nat) (key : path) :
    p_waiting p !! task = None -> step p (enter task key p)
| step_acquired (p : Process) (task : nat) (key : path) :
    p_waiting p !! task = Some key -> (forall other, ~ took p other key) ->
    step p (acquired task key p)
| step_gave_up (p : Process) (task : nat) : step p (gave_up task p)
| step_leave (p : Process) (task : nat) :
    p_waiting p !! task = None ->
    (forall key rest, frames p task = (key, true) :: rest -> forall other, ~ borrowed p other key) ->
    step p (leave task p)
| step_borrow (p : Process) (helper lender : nat) :
    helper <> lender -> p_waiting p !! helper = None -> frames p helper = [] ->
    helper ∉ map l_helper (p_loans p) -> step p (borrow helper lender p)
| step_give_back (p : Process) (loan : Loan) :
    loan ∈ p_loans p -> frames p (l_helper loan) = [] -> p_waiting p !! l_helper loan = None ->
    step p (give_back loan p).

Definition initial : Process :=
  {| _ASYNC_WRITER_LOCK_OWNERS := ∅; p_frames := ∅; p_waiting := ∅; p_loans := [] |}.
Definition reachable (p : Process) : Prop := rtc step initial p.

(** *** The invariant *)

(** A frame that took the lock is the outermost of its key. *)
Fixpoint stack_ok (stack : list (path * bool)) : Prop :=
  match stack with
  | [] => True
  | (key, took) :: rest => (took = true -> key ∉ rest.*1) /\ stack_ok rest
  end.

Record Inv (p : Process) : Prop := {
  inv_took : forall t k, took p t k -> t ∈ owners p k;
  inv_owner : forall t k, t ∈ owners p k -> took p t k \/ borrowed p t k;
  inv_loan : forall t k, borrowed p t k -> t ∈ owners p k /\ exists h, took p h k;
  inv_once : forall t t' k, took p t k -> took p t' k -> t = t';
  inv_stack : forall t, stack_ok (frames p t);
  inv_nested : forall t k, (k, false) ∈ frames p t -> t ∈ owners p k;
  inv_waiting : forall t k, p_waiting p !! t = Some k -> t ∉ owners p k;
  inv_entry : forall k, _ASYNC_WRITER_LOCK_OWNERS p !! k <> Some ∅;
  inv_helpers : NoDup (map l_helper (p_loans p))
}.

Lemma borrowed_keys_spec (o : nat) (p : Process) (k : path) :
  k ∈ borrowed_keys o p <-> o ∈ owners p k.
Proof.
  unfold borrowed_keys, owners. rewrite list_elem_of_fmap. split.
  - intros ([k' s'] & -> & [Hb Hi%elem_of_map_to_list]%elem_of_bfilter). cbn.
    apply bool_decide_eq_true in Hb. by rewrite Hi.
  - intros Ho. destruct (_ASYNC_WRITER_LOCK_OWNERS p !! k) as [s|] eqn:E; [|by apply elem_of_empty in Ho].
    change (o ∈ s) in Ho. exists (k, s). split; [done|]. apply (proj2 (elem_of_bfilter _ _ _)).
    split; [exact (bool_decide_eq_true_2 _ Ho)|by apply elem_of_map_to_list].
Qed.

Lemma owners_borrow (h o : nat) (p : Process) (k : path) :
  owners (borrow h o p) k
  = if decide (o ∈ owners p k) then {[h]} ∪ owners p k else owners p k.
Proof.
  unfold owners, borrow. cbn [_ASYNC_WRITER_LOCK_OWNERS]. rewrite map_lookup_imap.
  destruct (_ASYNC_WRITER_LOCK_OWNERS p !! k) as [s|] eqn:E; cbn; [|by case_decide].
  pose proof (borrowed_keys_spec o p k) as Hk. unfold owners in Hk. rewrite E in Hk. cbn in Hk.
  destruct (decide (o ∈ s)) as [Ho|Ho].
  - by rewrite (proj2 (mem_true k _)) by by apply Hk.
  - rewrite (proj2 (mem_false k _)); [done|]. by rewrite Hk.
Qed.

Lemma owners_give_back (l : Loan) (p : Process) (k : path) :
  owners (give_back l p) k
  = if decide (k ∈ l_keys l) then owners p k ∖ {[l_helper l]} else owners p k.
Proof.
  unfold owners, give_back. cbn [_ASYNC_WRITER_LOCK_OWNERS]. rewrite map_lookup_imap.
  destruct (_ASYNC_WRITER_LOCK_OWNERS p !! k) as [s|] eqn:E; cbn; [|case_decide; set_solver].
  case_decide as H; [by rewrite (proj2 (mem_true k _) H)|by rewrite (proj2 (mem_false k _) H)].
Qed.

Lemma frames_insert (m : gmap nat (list (path * bool))) (t u : nat) (s : list (path * bool)) :
  default [] (<[t := s]> m !! u) = if decide (t = u) then s else default [] (m !! u).
Proof. case_decide as H; [subst; by rewrite lookup_insert_eq|by rewrite lookup_insert_ne]. Qed.

(** The innermost frame of a task is one more. *)
Lemma frames_push (p p' : Process) (task : nat) (f : path * bool) :
  p_frames p' = <[task := f :: frames p task]> (p_frames p) ->
  forall t g, g ∈ frames p' t <-> g ∈ frames p t \/ t = task /\ g = f.
Proof.
  intros Hp t g. unfold frames at 1. rewrite Hp, frames_insert. case_decide; subst.
  - rewrite elem_of_cons. naive_solver.
  - naive_solver.
Qed.

Lemma enter_inv (p : Process) (task : nat) (key : path) :
  Inv p -> p_waiting p !! task = None -> Inv (enter task key p).
Proof.
  intros HI Hw. unfold enter. case_bool_decide as Ho.
  - set (p' := {| _ASYNC_WRITER_LOCK_OWNERS := _ |}).
    pose proof (frames_push p p' task (key, false) eq_refl) as Hf.
    assert (Ht : forall t k, took p' t k <-> took p t k)
      by (intros t k; unfold took; rewrite Hf; naive_solver).
    split; try apply HI.
    + intros t k Hk. apply (inv_took p HI), Ht, Hk.
    + intros t k Hk. rewrite Ht. by apply (inv_owner p HI).
    + intros t k Hk. setoid_rewrite Ht. by apply (inv_loan p HI).
    + intros t t' k Hk Hk'. eapply (inv_once p HI); by apply Ht.
    + intros t. unfold frames. cbn. rewrite frames_insert. case_decide; [|apply (inv_stack p HI)].
      subst. split; [done|apply (inv_stack p HI)].
    + intros t k Hk. apply Hf in Hk as [Hk|[-> [= ->]]]; [by apply (inv_nested p HI)|done].
  - split; try apply HI. intros t k Hk. cbn in Hk.
    apply lookup_insert_Some in Hk as [[<- <-]|[_ Hk]]; [done|by apply (inv_waiting p HI)].
Qed.

Lemma owners_insert (m : gmap path (gset nat)) (key k : path) (s : gset nat) :
  default ∅ (<[key := s]> m !! k) = if decide (key = k) then s else default ∅ (m !! k).
Proof. case_decide; [subst; by rewrite lookup_insert_eq|by rewrite lookup_insert_ne]. Qed.

Lemma acquired_inv (p : Process) (task : nat) (key : path) :
  Inv p -> p_waiting p !! task = Some key -> (forall other, ~ took p other key) ->
  Inv (acquired task key p).
Proof.
  intros HI Hw Hfree. pose proof (inv_waiting p HI task key Hw) as Hno.
  pose proof (frames_push p (acquired task key p) task (key, true) eq_refl) as Hf.
  assert (Ho : forall k, owners (acquired task key p) k
    = if decide (key = k) then {[task]} ∪ owners p key else owners p k)
    by (intros k; apply owners_insert).
  assert (Hsub : forall t k, t ∈ owners p k -> t ∈ owners (acquired task key p) k)
    by (intros t k Hk; rewrite Ho; case_decide; subst; set_solver).
  assert (Ht : forall t k, took (acquired task key p) t k <-> took p t k \/ t = task /\ k = key)
    by (intros t k; unfold took; rewrite Hf; naive_solver).
  split.
  - intros t k [Hk|[-> ->]]%Ht; [by apply Hsub, (inv_took p HI)|].
    rewrite Ho, decide_True by done. set_solver.
  - intros t k Hk. rewrite Ht. rewrite Ho in Hk. case_decide; [subst|destruct (inv_owner p HI t k Hk); auto].
    apply elem_of_union in Hk as [Hk%elem_of_singleton|Hk]; [auto|].
    destruct (inv_owner p HI t k Hk); auto.
  - intros t k Hk. destruct (inv_loan p HI t k Hk) as [H1 [h H2]]. split; [by apply Hsub|].
    exists h. apply Ht. by left.
  - intros t t' k [Hk|[-> ->]]%Ht [Hk'|[-> Hk']]%Ht; subst; try done; try by edestruct Hfree.
    by eapply (inv_once p HI).
  - intros t. unfold frames. cbn. rewrite frames_insert. case_decide; [|apply (inv_stack p HI)].
    subst. split; [|apply (inv_stack p HI)]. intros _ ([k [|]] & Hk & Hin)%list_elem_of_fmap; cbn in Hk; subst.
    + by eapply Hfree.
    + by apply Hno, (inv_nested p HI).
  - intros t k [Hk|[_ [=]]]%Hf. by apply Hsub, (inv_nested p HI).
  - intros t k Hk. cbn in Hk. apply lookup_delete_Some in Hk as [Hne Hk].
    pose proof (inv_waiting p HI t k Hk). rewrite Ho. case_decide; [subst; set_solver|done].
  - intros k Hk. cbn in Hk. apply lookup_insert_Some in Hk as [[<- Hk]|[_ Hk]]; [set_solver|].
    by apply (inv_entry p HI k).
  - apply (inv_helpers p HI).
Qed.

Lemma gave_up_inv (p : Process) (task : nat) : Inv p -> Inv (gave_up task p).
Proof.
  intros HI. split; try apply HI. intros t k Hk. cbn in Hk.
  apply lookup_delete_Some in Hk as [_ Hk]. by apply (inv_waiting p HI).
Qed.

(** When the frame that holds a lock ends, its task was the only owner. *)
Lemma last_owner (p : Process) (task : nat) (key : path) :
  Inv p -> took p task key -> (forall other, ~ borrowed p other key) ->
  _ASYNC_WRITER_LOCK_OWNERS p !! key = Some {[task]}.
Proof.
  intros HI Ht Hb. pose proof (inv_took p HI _ _ Ht) as Ho.
  assert (Heq : owners p key = {[task]}).
  { apply set_eq. intros t. rewrite elem_of_singleton. split; [|by intros ->].
    intros [Hk|Hk]%(inv_owner p HI); [by eapply (inv_once p HI)|by edestruct Hb]. }
  unfold owners in Ho, Heq. destruct (_ASYNC_WRITER_LOCK_OWNERS p !! key); cbn in *; [by subst|set_solver].
Qed.

(** The frame that holds a lock ends. *)
Lemma leave_held_inv (p : Process) (task : nat) (key : path) (rest : list (path * bool)) :
  Inv p -> frames p task = (key, true) :: rest -> (forall other, ~ borrowed p other key) ->
  Inv (leave task p).
Proof.
  intros HI Hfr Hb.
  assert (Htk : took p task key) by (unfold took; rewrite Hfr; left).
  pose proof (last_owner p task key HI Htk Hb) as Hlast.
  pose proof (inv_stack p HI task) as Hst. rewrite Hfr in Hst. destruct Hst as [Hrest Hst].
  specialize (Hrest eq_refl).
  unfold leave. rewrite Hfr, Hlast. rewrite (bool_decide_eq_true_2 (_ = ∅)) by set_solver.
  set (p' := {| _ASYNC_WRITER_LOCK_OWNERS := _ |}).
  assert (Ho : forall k, owners p' k = if decide (key = k) then ∅ else owners p k).
  { intros k. unfold owners, p'. cbn. case_decide; [subst; by rewrite lookup_delete_eq|].
    by rewrite lookup_delete_ne. }
  assert (Hf : forall t, frames p' t = if decide (task = t) then rest else frames p t)
    by (intros t; apply frames_insert).
  assert (Hsub : forall t g, g ∈ frames p' t -> g ∈ frames p t /\ (g.1 = key -> t <> task)).
  { intros t g Hg. rewrite Hf in Hg. case_decide as Ht; [subst|].
    - rewrite Hfr. split; [by right|]. intros <- _. apply Hrest. apply list_elem_of_fmap. eauto.
    - split; [done|]. intros _ ->. done. }
  assert (Ht : forall t k, took p' t k <-> took p t k /\ k <> key).
  { intros t k. unfold took. split.
    - intros Hk. pose proof (Hsub _ _ Hk) as [H1 H2]. split; [done|]. intros ->.
      apply (H2 eq_refl). by apply (inv_once p HI t task key).
    - intros [Hk Hne]. rewrite Hf. case_decide as E; [subst|done]. rewrite Hfr in Hk.
      apply elem_of_cons in Hk as [[=]|Hk]; done. }
  assert (Hbk : forall t k, borrowed p' t k -> borrowed p t k /\ k <> key)
    by (intros t k Hk; split; [exact Hk|]; intros ->; by eapply Hb).
  split.
  - intros t k [Hk Hne]%Ht. rewrite Ho, decide_False by done. by apply (inv_took p HI).
  - intros t k Hk. rewrite Ho in Hk. case_decide as E; [set_solver|]. rewrite Ht.
    destruct (inv_owner p HI t k Hk); [left; by split|by right].
  - intros t k [Hk Hne]%Hbk. destruct (inv_loan p HI t k Hk) as [H1 [h H2]].
    rewrite Ho, decide_False by done. split; [done|]. exists h. by apply Ht.
  - intros t t' k [Hk _]%Ht [Hk' _]%Ht. by eapply (inv_once p HI).
  - intros t. rewrite Hf. case_decide; [done|apply (inv_stack p HI)].
  - intros t k Hk. apply Hsub in Hk as [Hk Hne]. pose proof (inv_nested p HI t k Hk) as Hown.
    rewrite Ho. case_decide as E; [|done]. subst k. exfalso. apply Hne; [done|].
    unfold owners in Hown. rewrite Hlast in Hown. change (t ∈ ({[task]} : gset nat)) in Hown.
    by apply elem_of_singleton in Hown.
  - intros t k Hk. rewrite Ho. case_decide; [set_solver|]. by apply (inv_waiting p HI).
  - intros k Hk. unfold p' in Hk. cbn in Hk. apply lookup_delete_Some in Hk as [_ Hk].
    by apply (inv_entry p HI k).
  - apply (inv_helpers p HI).
Qed.

Lemma leave_inv (p : Process) (task : nat) :
  Inv p ->
  (forall key rest, frames p task = (key, true) :: rest -> forall other, ~ borrowed p other key) ->
  Inv (leave task p).
Proof.
  intros HI Hb. destruct (frames p task) as [|[key [|]] rest] eqn:Hfr.
  - unfold leave. by rewrite Hfr.
  - by eapply leave_held_inv, Hb.
  - unfold leave. rewrite Hfr. set (p' := {| _ASYNC_WRITER_LOCK_OWNERS := _ |}).
    assert (Hf : forall t, frames p' t = if decide (task = t) then rest else frames p t)
      by (intros t; apply frames_insert).
    assert (Hsub : forall t g, g ∈ frames p' t -> g ∈ frames p t).
    { intros t g. rewrite Hf. case_decide; [subst; rewrite Hfr; by right|done]. }
    assert (Ht : forall t k, took p' t k <-> took p t k).
    { intros t k. split; [apply Hsub|]. unfold took. rewrite Hf. case_decide; [subst|done].
      rewrite Hfr. by intros [[=]|?]%elem_of_cons. }
    split; try apply HI.
    + intros t k Hk. by apply (inv_took p HI), Ht.
    + intros t k Hk. rewrite Ht. by apply (inv_owner p HI).
    + intros t k Hk. setoid_rewrite Ht. by apply (inv_loan p HI).
    + intros t t' k Hk Hk'. eapply (inv_once p HI); by apply Ht.
    + intros t. pose proof (inv_stack p HI t) as Hs. rewrite Hf. case_decide; [subst|done].
      rewrite Hfr in Hs. apply Hs.
    + intros t k Hk. by apply (inv_nested p HI), Hsub.
Qed.

Lemma borrow_inv (p : Process) (helper lender : nat) :
  Inv p -> helper <> lender -> p_waiting p !! helper = None -> frames p helper = [] ->
  helper ∉ map l_helper (p_loans p) -> Inv (borrow helper lender p).
Proof.
  intros HI Hne Hw Hfr Hnew.
  assert (Hsub : forall t k, t ∈ owners p k -> t ∈ owners (borrow helper lender p) k)
    by (intros t k Hk; rewrite owners_borrow; case_decide; set_solver).
  assert (Hbk : forall t k, borrowed (borrow helper lender p) t k <->
            borrowed p t k \/ t = helper /\ lender ∈ owners p k).
  { intros t k. unfold borrowed. cbn [p_loans borrow]. setoid_rewrite elem_of_cons.
    rewrite <- borrowed_keys_spec. split.
    - intros (l & [->|Hl] & <- & Hk); [right; by split|left; eauto].
    - intros [(l & Hl & Ht & Hk)|[-> Hk]]; [eauto|]. eexists. split; [by left|]. by split. }
  split.
  - intros t k Hk. by apply Hsub, (inv_took p HI).
  - intros t k Hk. rewrite Hbk. rewrite owners_borrow in Hk. case_decide as Hl.
    + apply elem_of_union in Hk as [Hk%elem_of_singleton|Hk]; [auto|].
      destruct (inv_owner p HI t k Hk); [by left|by right; left].
    + destruct (inv_owner p HI t k Hk); [by left|by right; left].
  - intros t k [Hk|[-> Hk]]%Hbk.
    + destruct (inv_loan p HI t k Hk) as [H1 H2]. split; [by apply Hsub|exact H2].
    + split; [rewrite owners_borrow, decide_True by done; set_solver|].
      destruct (inv_owner p HI lender k Hk) as [Ht|Ht]; [by exists lender|by apply (inv_loan p HI) in Ht as [_ ?]].
  - intros t t' k. apply (inv_once p HI).
  - apply (inv_stack p HI).
  - intros t k Hk. by apply Hsub, (inv_nested p HI).
  - intros t k Hk. cbn in Hk. rewrite owners_borrow. pose proof (inv_waiting p HI t k Hk) as Ht.
    case_decide; [|done]. rewrite not_elem_of_union, not_elem_of_singleton. split; [|done].
    intros ->. by rewrite Hw in Hk.
  - intros k Hk. cbn in Hk. rewrite map_lookup_imap in Hk.
    destruct (_ASYNC_WRITER_LOCK_OWNERS p !! k) as [s|] eqn:E; cbn in Hk; [|done].
    destruct (mem k _); simplify_eq; [set_solver|]. by apply (inv_entry p HI k).
  - cbn. constructor; [done|apply (inv_helpers p HI)].
Qed.

Lemma loan_unique (ls : list Loan) (l l' : Loan) :
  NoDup (map l_helper ls) -> l ∈ ls -> l' ∈ ls -> l_helper l = l_helper l' -> l = l'.
Proof.
  induction ls as [|x ls IH]; intros Hn Hl Hl' He; [by apply elem_of_nil in Hl|].
  cbn in Hn. apply NoDup_cons in Hn as [Hx Hn].
  apply elem_of_cons in Hl as [->|Hl], Hl' as [->|Hl']; [done| | |by apply IH].
  - exfalso. apply Hx. rewrite He. by apply list_elem_of_fmap_2.
  - exfalso. apply Hx. rewrite <- He. by apply list_elem_of_fmap_2.
Qed.

Lemma give_back_inv (p : Process) (loan : Loan) :
  Inv p -> loan ∈ p_loans p -> frames p (l_helper loan) = [] -> Inv (give_back loan p).
Proof.
  intros HI Hl Hfr. set (h := l_helper loan) in *.
  assert (Hother : forall t k, t ∈ owners p k -> t <> h -> t ∈ owners (give_back loan p) k)
    by (intros t k Hk Hne; rewrite owners_give_back; case_decide; set_solver).
  assert (Htk : forall t k, took p t k -> t <> h)
    by (intros t k Hk ->; unfold took in Hk; rewrite Hfr in Hk; by apply elem_of_nil in Hk).
  assert (Hbk : forall t k, borrowed (give_back loan p) t k <-> borrowed p t k /\ t <> h).
  { intros t k. unfold borrowed. cbn [p_loans give_back]. setoid_rewrite elem_of_bfilter.
    split.
    - intros (l & [Hb Hin] & <- & Hk). apply negb_true_iff, Nat.eqb_neq in Hb. split; [eauto|done].
    - intros [(l & Hin & <- & Hk) Hne]. exists l. split_and!; try done.
      by apply negb_true_iff, Nat.eqb_neq. }
  split.
  - intros t k Hk. apply Hother; [by apply (inv_took p HI)|by eapply Htk].
  - intros t k Hk. rewrite Hbk. rewrite owners_give_back in Hk. case_decide as Hin.
    + apply elem_of_difference in Hk as [Hk Hne%not_elem_of_singleton].
      destruct (inv_owner p HI t k Hk); [by left|by right].
    + destruct (inv_owner p HI t k Hk) as [|Hb]; [by left|right]. split; [done|]. intros ->.
      destruct Hb as (l & Hl' & He & Hk'). by rewrite (loan_unique _ l loan (inv_helpers p HI)) in Hk'.
  - intros t k [Hk Hne]%Hbk. destruct (inv_loan p HI t k Hk) as [H1 H2].
    split; [by apply Hother|exact H2].
  - intros t t' k. apply (inv_once p HI).
  - apply (inv_stack p HI).
  - intros t k Hk. apply Hother; [by apply (inv_nested p HI)|]. intros ->.
    change (frames (give_back loan p)) with (frames p) in Hk. rewrite Hfr in Hk. by apply elem_of_nil in Hk.
  - intros t k Hk. pose proof (inv_waiting p HI t k Hk). rewrite owners_give_back. case_decide; set_solver.
  - intros k Hk. cbn in Hk. rewrite map_lookup_imap in Hk.
    destruct (_ASYNC_WRITER_LOCK_OWNERS p !! k) as [s|] eqn:E; cbn in Hk; [|done].
    destruct (mem k _) eqn:Hm; simplify_eq; [|by apply (inv_entry p HI k)].
    apply mem_true in Hm. assert (Hb : borrowed p h k) by (by exists loan).
    destruct (inv_loan p HI h k Hb) as [_ [o Ho]]. pose proof (inv_took p HI o k Ho) as Hin.
    unfold owners in Hin. rewrite E in Hin. cbn in Hin. specialize (Htk o k Ho). fold h in Hk. set_solver.
  - cbn. pose proof (inv_helpers p HI) as Hn. clear -Hn. induction (p_loans p) as [|x ls IH]; cbn in *; [done|].
    apply NoDup_cons in Hn as [Hx Hn]. destruct (negb _); [|by apply IH]. cbn. constructor; [|by apply IH].
    intros (l & Hl & Hin)%list_elem_of_fmap. apply Hx. rewrite Hl.
    apply list_elem_of_fmap_2. by apply elem_of_bfilter in Hin as [_ ?].
Qed.

Lemma frames_step_inv (p p' : Process) : Inv p -> step p p' -> Inv p'.
Proof.
  intros HI Hs. destruct Hs.
  - by apply enter_inv.
  - by apply acquired_inv.
  - by apply gave_up_inv.
  - by apply leave_inv.
  - by apply borrow_inv.
  - by apply give_back_inv.
Qed.

Lemma frames_reachable_inv (p : Process) : reachable p -> Inv p.
Proof.
  intros H. unfold reachable in H. apply rtc_ind_r with (P := Inv) in H; [done| |].
  - assert (Hf : forall t, frames initial t = []) by done.
    assert (Ho : forall k, owners initial k = ∅) by done.
    split; unfold took; try (intros t k); rewrite ?Hf, ?Ho; try set_solver; try done.
    constructor.
  - intros x y _ Hs HI. by eapply frames_step_inv.
Qed.

(** *** Properties of the frames *)

Definition in_section (p : Process) (task : nat) (key : path) : Prop :=
  exists flag, (key, flag) ∈ frames p task.

(** C25: Nested frames are as exclusive as the lock, and do not block.  Whatever tasks enter,
    wait, leave, lend and give back, as long as helpers end before the frame they borrow
    from: the table has an entry for a lock exactly while a frame holds it; all tasks with
    an open frame on it are the one that holds it or have borrowed it from the holder; and no
    task waits for a lock on which it has a frame, which it would never get. *)
Theorem sections_exclusive (p : Process) :
  reachable p ->
  (forall key, is_Some (_ASYNC_WRITER_LOCK_OWNERS p !! key) <-> exists holder, took p holder key) /\
  (forall key task1 task2, in_section p task1 key -> in_section p task2 key ->
     exists holder, took p holder key /\
       (task1 = holder \/ borrowed p task1 key) /\ (task2 = holder \/ borrowed p task2 key)) /\
  (forall task key, p_waiting p !! task = Some key -> ~ in_section p task key).
Proof.
  intros Hr. pose proof (frames_reachable_inv p Hr) as HI.
  assert (Hin : forall t k, in_section p t k -> t ∈ owners p k).
  { intros t k [[|] Hk]; [by apply (inv_took p HI)|by apply (inv_nested p HI)]. }
  assert (Hh : forall t k, t ∈ owners p k -> exists h, took p h k).
  { intros t k [Hk|Hk]%(inv_owner p HI); [by exists t|by apply (inv_loan p HI) in Hk as [_ ?]]. }
  split_and!.
  - intros k. split.
    + intros [s Hs]. destruct (decide (s = ∅)) as [->|Hne]; [by apply (inv_entry p HI) in Hs|].
      apply set_choose_L in Hne as [t Ht]. apply (Hh t). unfold owners. by rewrite Hs.
    + intros [h Hk%(inv_took p HI)]. unfold owners in Hk.
      destruct (_ASYNC_WRITER_LOCK_OWNERS p !! k); [by eexists|by apply elem_of_empty in Hk].
  - intros k t1 t2 H1%Hin H2%Hin. destruct (Hh t1 k H1) as [h Hk]. exists h. split; [done|].
    assert (Hcase : forall t, t ∈ owners p k -> t = h \/ borrowed p t k).
    { intros t [Ht|Ht]%(inv_owner p HI); [left; by eapply (inv_once p HI)|by right]. }
    split; by apply Hcase.
  - intros t k Hk Hs%Hin. by apply (inv_waiting p HI t k Hk).
Qed.

Definition sample_key : path := worktree_writer_lock_path sample_worktree.

(** Task 1 holds the lock and lends it to task 2, which enters again; task 3 waits. *)
Definition sample_process : Process :=
  enter 3 sample_key (enter 2 sample_key (borrow 2 1
    (acquired 1 sample_key (enter 1 sample_key initial)))).

Lemma sample_process_reachable : reachable sample_process.
Proof.
  unfold reachable, sample_process. eapply rtc_r.
  - eapply rtc_r; [eapply rtc_r; [eapply rtc_r; [apply rtc_once|]|]|].
    + by apply (step_enter initial 1 sample_key).
    + apply (step_acquired _ 1 sample_key); [vm_compute; reflexivity|]. intros other.
      change (~ (sample_key, true) ∈ @nil (path * bool)). by intros Hn%elem_of_nil.
    + apply (step_borrow _ 2 1); [done|vm_compute; reflexivity|vm_compute; reflexivity|].
      by intros Hn%elem_of_nil.
    + apply (step_enter _ 2). vm_compute. reflexivity.
  - apply (step_enter _ 3). vm_compute. reflexivity.
Qed.

Lemma sections_exclusive_witness :
  p_waiting sample_process !! 3 = Some sample_key /\ in_section sample_process 2 sample_key /\
  exists holder, took sample_process holder sample_key.
Proof.
  destruct (sections_exclusive sample_process sample_process_reachable) as [_ [H _]].
  split; [vm_compute; reflexivity|].
  assert (H2 : in_section sample_process 2 sample_key)
    by (exists false; apply list_elem_of_In; vm_compute; left; reflexivity).
  split; [exact H2|]. destruct (H sample_key 2 2 H2 H2) as (h & Hh & _). by exists h.
Defined.

End Frames.
