(* ===== verification/QualityGates.v ===== *)
(** * The gate of protected files

    [control/quality_gates.py] with [quality_gates_common.py]: which changed files an agent
    may not touch without owning them, and [service/conformance_salvage.py]: which of them a
    retry leaves behind.  The classifiers of pyproject and workflow changes, which parse TOML
    and YAML, are an interface. *)

From S2P Require Import Prelude PyStr OwnedPaths.
#[local] Open Scope Z_scope.

(** ** Paths and findings *)

Record ProtectedFileDiff : Type := {
  pd_path : string;
  pd_old_text : option string;
  pd_new_text : option string
}.

Record QualityGateViolation : Type := {
  qv_path : string;
  qv_protected_pattern : string;
  qv_section : option string;
  qv_line : option Z;
  qv_reason : string
}.

(** [while normalized.startswith("./"): normalized = normalized[2:]] *)
Fixpoint drop_dot_slash (s : string) : string :=
  match s with
  | String "." (String "/" rest) => drop_dot_slash rest
  | _ => s
  end.
Definition _normalize_path (path : string) : string :=
  drop_dot_slash (backslash_to_slash (strip path)).

Definition _violation (path protected_pattern section : string) (line : option Z) (reason : string)
  : QualityGateViolation :=
  {| qv_path := path; qv_protected_pattern := protected_pattern; qv_section := Some section;
     qv_line := line; qv_reason := reason |}.

(** A path an operator lets the workspace change. *)
Record GrantSpec : Type := { grant_path : string; approve_policy_downgrade : bool }.

Definition AWF_WORKSPACE_CONFIG_PATH : string := ".awf/workspace.yml".
Definition PROTECTED_QUALITY_GATE_PATHS : list string :=
  [AWF_WORKSPACE_CONFIG_PATH; ".coveragerc"; ".github/workflows/"; "pyproject.toml"; "pytest.ini";
   "setup.cfg"; "setup.py"; "tox.ini"].
Definition INTERNAL_PLAN_ARTIFACT_PREFIX : string := "docs/awf-plans/".
Definition _WORKFLOW_PREFIX : string := ".github/workflows/".

Definition _matched_protected_pattern (path : string) : option string :=
  List.find (fun pattern =>
    let normalized_pattern := _normalize_path pattern in
    if ends_with "/" normalized_pattern then starts_with normalized_pattern path
    else eqb path normalized_pattern) PROTECTED_QUALITY_GATE_PATHS.

Definition _is_workflow_yaml_path (path : string) : bool :=
  starts_with _WORKFLOW_PREFIX path && (ends_with ".yml" path || ends_with ".yaml" path).

Definition _is_owned (path : string) (owned_paths : list string) : bool :=
  existsb (fun owned_path => owned_paths_overlap path owned_path) owned_paths.

Definition protected_quality_gate_pattern (path : string) : option string :=
  _matched_protected_pattern (_normalize_path path).

Definition requires_protected_file_diff (path : string) : bool :=
  let normalized := _normalize_path path in
  eqb normalized "pyproject.toml" || _is_workflow_yaml_path normalized.

Definition diff_classified_protected_paths (changed_paths owned_paths : list string) : list string :=
  fromkeys (List.filter (fun path =>
    negb (eqb path "") && requires_protected_file_diff path && negb (_is_owned path owned_paths))
    (map _normalize_path changed_paths)).

Definition unowned_protected_paths (changed_paths owned_paths : list string) : list string :=
  fromkeys (List.filter (fun path =>
    negb (eqb path "") && negb (eqb (_matched_protected_pattern path) None)
    && negb (_is_owned path owned_paths))
    (map _normalize_path changed_paths)).

(** ** Grants *)

Definition _grant_matches (path grant : string) : bool :=
  let normalized_grant := _normalize_path grant in
  if eqb normalized_grant "" then false
  else if has_char "*" normalized_grant || has_char "?" normalized_grant
          || has_char "[" normalized_grant then fnmatchcase path normalized_grant
  else
    let grant_dir := rstrip_slash normalized_grant in
    eqb path grant_dir || starts_with (grant_dir +:+ "/") path.

Definition _grant_with_policy_downgrade_matches (path : string) (operator_granted_paths : list GrantSpec)
  : bool :=
  existsb (fun grant => approve_policy_downgrade grant && _grant_matches path (grant_path grant))
    operator_granted_paths.

(** ** The gate *)

(** What the gate asks of the two classifiers: the findings of a diff, which is no edit the
    classifier knows to be safe, all about the diff's file. *)
Class Classifiers : Type := {
  _classify_pyproject_change : ProtectedFileDiff -> string -> list QualityGateViolation;
  _classify_workflow_change : ProtectedFileDiff -> string -> list QualityGateViolation;
  classified_path : forall diff protected v,
    v ∈ _classify_pyproject_change diff protected \/ v ∈ _classify_workflow_change diff protected ->
    qv_path v = _normalize_path (pd_path diff)
}.

Section Gate.
Context `{Classifiers}.

Definition _protected_path_violations (path protected : string)
    (diff_by_path : gmap string ProtectedFileDiff) : list QualityGateViolation :=
  if eqb path "pyproject.toml" then
    match diff_by_path !! path with
    | None => [_violation path protected path None
                 "diff unavailable for protected pyproject.toml change"]
    | Some diff => _classify_pyproject_change diff protected
    end
  else if _is_workflow_yaml_path path then
    match diff_by_path !! path with
    | None => [_violation path protected path None
                 "diff unavailable for protected workflow change"]
    | Some diff => _classify_workflow_change diff protected
    end
  else [_violation path protected path None
          "protected quality-gate file changed outside declared owned_paths"].

(** The diffs by normalized path; of two for one path, the later. *)
Definition diffs_by_path (protected_file_diffs : list (string * ProtectedFileDiff))
  : gmap string ProtectedFileDiff :=
  fold_left (fun m '(path, diff) => <[_normalize_path path := diff]> m) protected_file_diffs ∅.

Definition changed_path_violations (owned_paths : list string)
    (diff_by_path : gmap string ProtectedFileDiff) (operator_granted_paths : list GrantSpec)
    (raw_path : string) : list QualityGateViolation :=
  let path := _normalize_path raw_path in
  if eqb path "" then []
  else match _matched_protected_pattern path with
  | None => []
  | Some protected =>
      if _is_owned path owned_paths then []
      else match _protected_path_violations path protected diff_by_path with
           | [] => []
           | path_violations =>
               if _grant_with_policy_downgrade_matches path operator_granted_paths then []
               else path_violations
           end
  end.

Definition find_protected_quality_gate_changes (changed_paths owned_paths : list string)
    (protected_file_diffs : list (string * ProtectedFileDiff))
    (operator_granted_paths : list GrantSpec) : list QualityGateViolation :=
  flat_map (changed_path_violations owned_paths (diffs_by_path protected_file_diffs)
              operator_granted_paths) changed_paths.
End Gate.

(** ** Messages *)

Definition _format_violation_detail (violation : QualityGateViolation) : string :=
  let section := match qv_section violation with
                 | Some s => if eqb s "" then qv_protected_pattern violation else s
                 | None => qv_protected_pattern violation
                 end in
  let line := match qv_line violation with
              | Some n => "line " +:+ py_str n
              | None => "line unknown"
              end in
  qv_path violation +:+ " :: " +:+ section +:+ " :: " +:+ line +:+ " :: " +:+ qv_reason violation.

Definition quality_gate_violation_message (violations : list QualityGateViolation) : string :=
  let details := join (String (char 10) "") (map (fun v => "- " +:+ _format_violation_detail v) (take 8 violations)) in
  let count := Z.of_nat (length violations) in
  let suffix := if count <=? 8 then "" else (String (char 10) "") +:+ "- ... and " +:+ py_str (count - 8) +:+ " more" in
  let message :=
    "agent changed protected quality-gate file(s) outside declared owned_paths:" +:+ (String (char 10) "")
    +:+ details +:+ suffix +:+ (String (char 10) "")
    +:+ "AWF only allows narrowly classified safe protected-file edits without "
    +:+ "explicit ownership. Add meaningful tests or declare explicit ownership "
    +:+ "of the policy file when an operator-approved policy change is required." in
  if existsb (fun v => eqb (_normalize_path (qv_path v)) AWF_WORKSPACE_CONFIG_PATH) violations then
    message +:+ (String (char 10) "") +:+ "Note: editing AWF validation config in " +:+ AWF_WORKSPACE_CONFIG_PATH +:+ " "
    +:+ "has no effect mid-run — `requested_tier` is set at dispatch "
    +:+ "(validation.requested_tier) and `final_gate` is fixed at provision "
    +:+ "time. Do not edit the file to raise the AWF validation level; a "
    +:+ "validation command the repo delegates to CI is gated by CI, not AWF."
  else message.

Definition changed_paths_are_only_internal_plan_artifacts (changed_paths : list string) : bool :=
  let paths := List.filter (fun path => negb (eqb path "")) (map _normalize_path changed_paths) in
  negb (eqb paths []) && forallb (starts_with INTERNAL_PLAN_ARTIFACT_PREFIX) paths.

Definition plan_only_output_message (changed_paths : list string) : string :=
  let paths := List.filter (fun path => negb (eqb path "")) (map _normalize_path changed_paths) in
  let preview := join ", " (take 8 paths) in
  let count := Z.of_nat (length paths) in
  let suffix := if count <=? 8 then "" else ", and " +:+ py_str (count - 8) +:+ " more" in
  "agent produced only AWF plan/conformance artifact changes (" +:+ preview +:+ suffix
  +:+ "). AWF will not open a PR until the branch contains "
  +:+ "implementation, test, or user-facing documentation output for the task.".

(** ** Salvage *)

Section Salvage.
Context `{Classifiers}.

(** [load] reads the old and new text of a file from the worktree of the failed attempt. *)
Definition _quarantine_blocking_protected_paths (load : string -> ProtectedFileDiff)
    (candidate_paths : list string) : list string :=
  let classified_paths := List.filter requires_protected_file_diff candidate_paths in
  let protected_file_diffs := map (fun path => (path, load path)) (fromkeys classified_paths) in
  let violation_paths :=
    if eqb classified_paths [] then []
    else map qv_path (find_protected_quality_gate_changes (map fst protected_file_diffs) []
                        protected_file_diffs []) in
  List.filter (fun path => negb (requires_protected_file_diff path) || mem path violation_paths)
    candidate_paths.
End Salvage.

(** ** Normalized paths *)

Lemma rstrip_by_tail (f : ascii -> bool) (c : ascii) (s : string) :
  rstrip_by f (String c s) = String c s -> rstrip_by f s = s.
Proof.
  cbn [rstrip_by]. destruct s as [|d s]; [done|].
  destruct (rstrip_by f (String d s)) as [|e t]; [by destruct (f c)|congruence].
Qed.

Lemma drop_dot_slash_cases (s : string) :
  drop_dot_slash s = s \/
  exists c d t, s = String c (String d t) /\ drop_dot_slash s = drop_dot_slash t.
Proof.
  destruct s as [|c [|d t]]; [by left|left; by destruct c as [[] [] [] [] [] [] [] []]|].
  destruct c as [[] [] [] [] [] [] [] []]; try (left; reflexivity).
  destruct d as [[] [] [] [] [] [] [] []]; try (left; reflexivity).
  right. by eexists _, _, t.
Qed.

Lemma drop_dot_slash_suffix (P : string -> Prop) (s : string) :
  (forall c t, P (String c t) -> P t) -> P s -> P (drop_dot_slash s).
Proof.
  intros Htail. assert (Hn : forall n s, (str_len s <= n)%nat -> P s -> P (drop_dot_slash s)).
  { clear s. induction n as [|n IH]; intros s Hlen Hs;
      (destruct (drop_dot_slash_cases s) as [->|(c & d & t & -> & ->)]; [done|]);
      unfold str_len in *; cbn in Hlen; [lia|].
    apply IH; [lia|]. by apply Htail with d, Htail with c. }
  by apply (Hn (str_len s)).
Qed.

Lemma backslash_to_slash_rstrip (s : string) :
  rstrip s = s -> rstrip (backslash_to_slash s) = backslash_to_slash s.
Proof.
  unfold rstrip, backslash_to_slash. set (f := fun c => if Ascii.eqb c backslash then slash else c).
  assert (Hf : forall c, is_space (f c) = is_space c).
  { intros c. unfold f. destruct (Ascii.eqb_spec c backslash) as [->|]; [|done]. by vm_compute. }
  induction s as [|c s IH]; [done|]. intros H. pose proof (rstrip_by_tail _ _ _ H) as Hs.
  cbn [map_char rstrip_by] in *. rewrite (IH Hs). rewrite Hs in H.
  destruct s as [|d s]; cbn [map_char]; [|done]. rewrite Hf. by destruct (is_space c).
Qed.

Definition no_backslash (s : string) : Prop := backslash_to_slash s = s.

Lemma no_backslash_tail (c : ascii) (s : string) : no_backslash (String c s) -> no_backslash s.
Proof. unfold no_backslash, backslash_to_slash. cbn. by intros [= _ H]. Qed.

Lemma backslash_to_slash_twice (s : string) : no_backslash (backslash_to_slash s).
Proof.
  unfold no_backslash, backslash_to_slash. set (f := fun c => if Ascii.eqb c backslash then slash else c).
  assert (Hf : forall c, f (f c) = f c).
  { intros c. unfold f. destruct (Ascii.eqb c backslash) eqn:E; [by vm_compute|by rewrite E]. }
  induction s as [|c s IH]; [done|]. cbn [map_char]. by rewrite Hf, IH.
Qed.

(** A normalized path that starts with something else than a blank or ["./"] stays. *)
Lemma normalize_again (raw : string) (c : ascii) (rest : string) :
  _normalize_path raw = String c rest -> is_space c = false ->
  drop_dot_slash (String c rest) = String c rest ->
  _normalize_path (String c rest) = String c rest.
Proof.
  intros Hp Hc Hd. unfold _normalize_path in Hp.
  assert (Hr : rstrip (String c rest) = String c rest).
  { rewrite <- Hp. apply (drop_dot_slash_suffix (fun t => rstrip t = t)).
    - intros d t. apply rstrip_by_tail.
    - apply backslash_to_slash_rstrip. unfold strip, rstrip. apply rstrip_by_twice. }
  assert (Hb : no_backslash (String c rest)).
  { rewrite <- Hp. apply (drop_dot_slash_suffix no_backslash); [apply no_backslash_tail|].
    apply backslash_to_slash_twice. }
  unfold _normalize_path, strip. cbn [lstrip]. rewrite Hc, Hr, Hb. done.
Qed.

Lemma protected_shape (path pattern : string) :
  _matched_protected_pattern path = Some pattern ->
  path ∈ PROTECTED_QUALITY_GATE_PATHS \/ starts_with _WORKFLOW_PREFIX path = true.
Proof.
  unfold _matched_protected_pattern. intros H. apply List.find_some in H as [Hin Hm]. cbv beta zeta in Hm.
  assert (Hall : forallb (fun pattern =>
    let normalized := _normalize_path pattern in
    if ends_with "/" normalized then eqb normalized _WORKFLOW_PREFIX else eqb normalized pattern)
    PROTECTED_QUALITY_GATE_PATHS = true) by (vm_compute; reflexivity).
  pose proof (proj1 (forallb_forall _ _) Hall pattern Hin) as Hp. cbv beta zeta in Hp.
  destruct (ends_with "/" (_normalize_path pattern)).
  - right. by rewrite (proj1 (eqb_true _ _) Hp) in Hm.
  - left. rewrite (proj1 (eqb_true _ _) Hp) in Hm. apply (eqb_true path pattern) in Hm as ->.
    by apply list_elem_of_In.
Qed.

(** Normalizing a protected path again changes nothing. *)
Lemma protected_normal (raw pattern : string) :
  _matched_protected_pattern (_normalize_path raw) = Some pattern ->
  _normalize_path (_normalize_path raw) = _normalize_path raw.
Proof.
  intros [Hin|Hp]%protected_shape.
  - assert (Hall : forallb (fun p => eqb (_normalize_path p) p) PROTECTED_QUALITY_GATE_PATHS = true)
      by (vm_compute; reflexivity).
    apply (proj1 (eqb_true _ _)). exact (proj1 (forallb_elem _ _) Hall _ Hin).
  - apply starts_with_spec in Hp as [rest E]. unfold _WORKFLOW_PREFIX in E. cbn [String.append] in E.
    rewrite E. by apply (normalize_again raw).
Qed.

(** ** The diffs *)

Lemma diffs_lookup (load : string -> ProtectedFileDiff)
    (paths : list string) (p : string) :
  (forall q, q ∈ paths -> _normalize_path q = q) -> p ∈ paths ->
  diffs_by_path (map (fun path => (path, load path)) paths) !! p = Some (load p).
Proof.
  intros Hn Hp. unfold diffs_by_path.
  assert (Hgen : forall m : gmap string ProtectedFileDiff, fold_left (fun m '(path, diff) => <[_normalize_path path := diff]> m)
    (map (fun path => (path, load path)) paths) m !! p
    = if mem p paths then Some (load p) else m !! p).
  { clear Hp. induction paths as [|q paths IH]; intros m; [done|]. cbn [map fold_left].
    rewrite IH by (intros r Hr; apply Hn; by right). rewrite Hn by left.
    change (mem p (q :: paths)) with (eqb p q || mem p paths).
    destruct (mem p paths); [by rewrite orb_true_r|]. rewrite orb_false_r.
    destruct (eqb p q) eqn:E.
    - apply (eqb_true p q) in E as ->. by rewrite lookup_insert_eq.
    - apply (eqb_false p q) in E. by rewrite lookup_insert_ne. }
  rewrite Hgen. by rewrite (proj2 (mem_true p paths) Hp).
Qed.

Lemma elem_of_unowned (changed owned : list string) (p : string) :
  p ∈ unowned_protected_paths changed owned <->
  exists raw pattern, raw ∈ changed /\ p = _normalize_path raw /\ p <> "" /\
    _matched_protected_pattern p = Some pattern /\ _is_owned p owned = false.
Proof.
  unfold unowned_protected_paths. rewrite elem_of_fromkeys, elem_of_bfilter, list_elem_of_fmap.
  rewrite !andb_true_iff, !negb_true_iff, !eqb_false. split.
  - intros [[[H1 H2] H3] (raw & -> & Hr)].
    destruct (_matched_protected_pattern _) as [pattern|] eqn:E; [|done]. by exists raw, pattern.
  - intros (raw & pattern & Hr & -> & Hp & Hm & Ho). rewrite Hm. split_and!; try done. by exists raw.
Qed.

Lemma elem_of_classified (changed owned : list string) (p : string) :
  p ∈ diff_classified_protected_paths changed owned <->
  exists raw, raw ∈ changed /\ p = _normalize_path raw /\ p <> "" /\
    requires_protected_file_diff p = true /\ _is_owned p owned = false.
Proof.
  unfold diff_classified_protected_paths. rewrite elem_of_fromkeys, elem_of_bfilter, list_elem_of_fmap.
  rewrite !andb_true_iff, !negb_true_iff, !eqb_false. naive_solver.
Qed.

Section Facts.
Context `{Classifiers}.

Lemma elem_of_find (changed owned : list string) (diffs : list (string * ProtectedFileDiff))
    (grants : list GrantSpec) (v : QualityGateViolation) :
  v ∈ find_protected_quality_gate_changes changed owned diffs grants <->
  exists raw pattern, raw ∈ changed /\ _normalize_path raw <> "" /\
    _matched_protected_pattern (_normalize_path raw) = Some pattern /\
    _is_owned (_normalize_path raw) owned = false /\
    _grant_with_policy_downgrade_matches (_normalize_path raw) grants = false /\
    v ∈ _protected_path_violations (_normalize_path raw) pattern (diffs_by_path diffs).
Proof.
  unfold find_protected_quality_gate_changes. rewrite list_elem_of_In, in_flat_map.
  setoid_rewrite <- list_elem_of_In. unfold changed_path_violations. cbv zeta. split.
  - intros (raw & Hr & Hv). exists raw.
    destruct (eqb (_normalize_path raw) "") eqn:E; [by apply elem_of_nil in Hv|].
    apply eqb_false in E.
    destruct (_matched_protected_pattern _) as [pattern|] eqn:Em; [|by apply elem_of_nil in Hv].
    exists pattern. destruct (_is_owned _ _) eqn:Eo; [by apply elem_of_nil in Hv|].
    destruct (_protected_path_violations _ _ _) as [|x l] eqn:Ev; [by apply elem_of_nil in Hv|].
    by destruct (_grant_with_policy_downgrade_matches _ _); [apply elem_of_nil in Hv|].
  - intros (raw & pattern & Hr & Hne & Hm & Ho & Hg & Hv). exists raw. split; [done|].
    rewrite (proj2 (eqb_false _ _) Hne), Hm, Ho, Hg.
    destruct (_protected_path_violations _ _ _); [by apply elem_of_nil in Hv|done].
Qed.

(** The findings about a protected path name that path, when its diff is its own. *)
Lemma violation_path (raw pattern : string) (diffs : gmap string ProtectedFileDiff) (v : QualityGateViolation) :
  let p := _normalize_path raw in
  _matched_protected_pattern p = Some pattern ->
  (forall d, diffs !! p = Some d -> _normalize_path (pd_path d) = p) ->
  v ∈ _protected_path_violations p pattern diffs -> qv_path v = p.
Proof.
  intros p Hm Hd Hv. unfold _protected_path_violations in Hv.
  assert (Hone : forall l reason, v ∈ [_violation p pattern p l reason] -> qv_path v = p)
    by (intros l reason Hx; apply list_elem_of_singleton in Hx; by subst).
  destruct (eqb p "pyproject.toml"); [|destruct (_is_workflow_yaml_path p); [|by eapply Hone]];
    (destruct (diffs !! p) as [d|] eqn:E; [|by eapply Hone]);
    rewrite <- (Hd d eq_refl); apply (classified_path d pattern); auto.
Qed.

Lemma unclassified_violation (p pattern : string) (diffs : gmap string ProtectedFileDiff) :
  _normalize_path p = p -> requires_protected_file_diff p = false \/ diffs !! p = None ->
  exists v, _protected_path_violations p pattern diffs = [v].
Proof.
  intros Hn Hp. unfold _protected_path_violations, requires_protected_file_diff in *. rewrite Hn in Hp.
  destruct (eqb p "pyproject.toml"); [|destruct (_is_workflow_yaml_path p); [|by eexists]];
    (destruct Hp as [Hp|Hp]; [done|]); rewrite Hp; by eexists.
Qed.

(** ** Properties of the gate *)

(** The gate fails closed.  A file is reported exactly when it is a changed protected
    file that no owned path overlaps and no acknowledged grant covers, and its change is
    not known to be safe: it is of a kind that is not classified, its diff is missing, or
    the classifier has a finding about its diff. *)
Theorem gate_exact (changed owned : list string) (diffs : list (string * ProtectedFileDiff))
    (grants : list GrantSpec) (p : string) :
  (forall q d, diffs_by_path diffs !! q = Some d -> _normalize_path (pd_path d) = q) ->
  (exists v, v ∈ find_protected_quality_gate_changes changed owned diffs grants /\ qv_path v = p) <->
  p ∈ unowned_protected_paths changed owned /\
  (forall grant, grant ∈ grants -> _grant_matches p (grant_path grant) = true ->
     approve_policy_downgrade grant = false) /\
  (requires_protected_file_diff p = false \/ diffs_by_path diffs !! p = None \/
   exists pattern v, _matched_protected_pattern p = Some pattern /\
     v ∈ _protected_path_violations p pattern (diffs_by_path diffs)).
Proof.
  intros Hd.
  assert (Hg : forall q, _grant_with_policy_downgrade_matches q grants = false <->
    forall grant, grant ∈ grants -> _grant_matches q (grant_path grant) = true ->
      approve_policy_downgrade grant = false).
  { intros q. unfold _grant_with_policy_downgrade_matches. rewrite existsb_none. split.
    - intros Hx g Hin Hm. specialize (Hx g Hin). rewrite Hm, andb_true_r in Hx. done.
    - intros Hx g Hin. destruct (_grant_matches q _) eqn:E; [by rewrite (Hx g Hin E)|by apply andb_false_r]. }
  rewrite elem_of_unowned, <- Hg. split.
  - intros (v & Hv & <-). apply elem_of_find in Hv as (raw & pattern & Hr & Hne & Hm & Ho & Hgr & Hv).
    rewrite (violation_path raw pattern _ v Hm (Hd _) Hv). split_and!; [by exists raw, pattern|done|].
    right. right. by exists pattern, v.
  - intros ((raw & pattern & Hr & -> & Hne & Hm & Ho) & Hgr & Hc).
    assert (Hv : exists v, v ∈ _protected_path_violations (_normalize_path raw) pattern (diffs_by_path diffs)).
    { pose proof (protected_normal raw pattern Hm) as Hn.
      destruct Hc as [Hc|[Hc|(pattern' & v & Hm' & Hv)]]; [| |by simplify_eq; exists v];
        (destruct (unclassified_violation _ pattern (diffs_by_path diffs) Hn) as [v ->]; [by auto|];
         exists v; by left). }
    destruct Hv as [v Hv]. exists v. split; [|by apply (violation_path raw pattern _ v Hm (Hd _))].
    apply elem_of_find. by exists raw, pattern.
Qed.

(** ** Salvage *)

Context (load : string -> ProtectedFileDiff) (load_path : forall p, pd_path (load p) = p).

(** The diffs the gate reads at the commit: those of the paths it classifies. *)
Definition loaded_diffs (changed owned : list string) : list (string * ProtectedFileDiff) :=
  map (fun path => (path, load path)) (diff_classified_protected_paths changed owned).

Lemma workflow_protected (p : string) :
  requires_protected_file_diff p = true -> _normalize_path p = p ->
  exists pattern, _matched_protected_pattern p = Some pattern.
Proof.
  unfold requires_protected_file_diff. intros Hr Hn. rewrite Hn in Hr.
  apply orb_true_iff in Hr as [Hr|Hr].
  - apply (eqb_true p "pyproject.toml") in Hr as ->. exists "pyproject.toml". by vm_compute.
  - apply andb_true_iff in Hr as [Hr _]. apply starts_with_spec in Hr as [rest ->].
    exists _WORKFLOW_PREFIX. unfold _matched_protected_pattern, PROTECTED_QUALITY_GATE_PATHS. reflexivity.
Qed.

Context (changed owned : list string).
Context (changed_normal : forall raw, raw ∈ changed ->
  _normalize_path (_normalize_path raw) = _normalize_path raw).

Let candidates : list string := unowned_protected_paths changed owned.
Let diffs : list (string * ProtectedFileDiff) := loaded_diffs changed owned.
Let quarantine : list string := _quarantine_blocking_protected_paths load candidates.

Lemma candidate_normal (p : string) : p ∈ candidates -> _normalize_path p = p.
Proof. intros (raw & pattern & Hr & -> & _)%elem_of_unowned. by apply changed_normal. Qed.

Lemma commit_diff (p : string) :
  p ∈ candidates -> requires_protected_file_diff p = true -> diffs_by_path diffs !! p = Some (load p).
Proof.
  intros Hp Hr. apply diffs_lookup.
  - intros q (raw & Hin & -> & _)%elem_of_classified. by apply changed_normal.
  - apply elem_of_unowned in Hp as (raw & pattern & Hin & -> & Hne & _ & Ho).
    apply elem_of_classified. by exists raw.
Qed.

(** What the gate says of a candidate by itself. *)
Lemma find_candidate (p : string) :
  p ∈ candidates ->
  exists pattern, _matched_protected_pattern p = Some pattern /\
    find_protected_quality_gate_changes [p] owned diffs []
    = _protected_path_violations p pattern (diffs_by_path diffs).
Proof.
  intros Hp. pose proof (candidate_normal p Hp) as Hn.
  apply elem_of_unowned in Hp as (raw & pattern & _ & _ & Hne & Hm & Ho). exists pattern.
  split; [done|]. cbn [find_protected_quality_gate_changes flat_map]. rewrite app_nil_r.
  unfold changed_path_violations. cbv zeta.
  rewrite Hn, (proj2 (eqb_false _ _) Hne), Hm, Ho. by destruct (_protected_path_violations _ _ _).
Qed.

(** The salvage runs the gate on the classified candidates alone, and reads its findings
    back by their path. *)
Lemma quarantined_classified (p pattern : string) :
  p ∈ candidates -> requires_protected_file_diff p = true ->
  _matched_protected_pattern p = Some pattern ->
  p ∈ quarantine <-> _protected_path_violations p pattern (diffs_by_path diffs) <> [].
Proof.
  intros Hp Hr Hm. pose proof (candidate_normal p Hp) as Hnp.
  set (classified := List.filter requires_protected_file_diff candidates).
  assert (Hcl : forall q, q ∈ classified -> q ∈ candidates /\ requires_protected_file_diff q = true)
    by (intros q [? ?]%elem_of_bfilter; done).
  assert (Hpc : p ∈ classified) by by apply elem_of_bfilter.
  set (salvage := map (fun path => (path, load path)) (fromkeys classified)).
  assert (Hlook : forall q, q ∈ classified -> diffs_by_path salvage !! q = Some (load q)).
  { intros q Hq. apply diffs_lookup; [|by apply (proj2 (elem_of_fromkeys _ _))].
    intros r Hr'. apply (proj1 (elem_of_fromkeys _ _)) in Hr'. destruct (Hcl r Hr') as [Hrc _]. exact (candidate_normal r Hrc). }
  assert (Hsame : forall q pat, q ∈ classified ->
    _protected_path_violations q pat (diffs_by_path salvage)
    = _protected_path_violations q pat (diffs_by_path diffs)).
  { intros q pat Hq. destruct (Hcl q Hq) as [Hc Hrq]. unfold _protected_path_violations.
    by rewrite (Hlook q Hq), (commit_diff q Hc Hrq). }
  assert (Hkeys : map fst salvage = fromkeys classified)
    by (unfold salvage; rewrite map_map; apply map_id).
  assert (Hne0 : eqb classified [] = false) by (apply eqb_false; intros He; rewrite He in Hpc; set_solver).
  unfold quarantine, _quarantine_blocking_protected_paths. fold classified. fold salvage.
  rewrite elem_of_bfilter, Hr, Hne0, Hkeys. cbn [negb orb]. rewrite mem_true, list_elem_of_fmap. split.
  - intros [(v & He & Hv) _]. apply elem_of_find in Hv as (q & pat & Hq & _ & Hmq & _ & _ & Hv).
    apply (proj1 (elem_of_fromkeys _ _)) in Hq. pose proof (candidate_normal q (proj1 (Hcl q Hq))) as Hnq.
    assert (Hpath : qv_path v = q).
    { trans (_normalize_path q); [|exact Hnq]. apply (violation_path q pat (diffs_by_path salvage) v Hmq); [|exact Hv].
      rewrite Hnq. intros d Hd. rewrite (Hlook q Hq) in Hd. simplify_eq. by rewrite load_path. }
    rewrite Hnq in Hmq, Hv. rewrite Hpath in He. rewrite <- He in Hmq, Hv.
    rewrite Hm in Hmq. injection Hmq as <-.
    rewrite <- (Hsame p pattern Hpc). intros Hnil. rewrite Hnil in Hv. by apply elem_of_nil in Hv.
  - intros Hvs. split; [|done]. rewrite <- (Hsame p pattern Hpc) in Hvs.
    destruct (_protected_path_violations p pattern (diffs_by_path salvage)) as [|v vs] eqn:E; [done|].
    exists v. assert (Hv : v ∈ _protected_path_violations p pattern (diffs_by_path salvage))
      by (rewrite E; left). split.
    + symmetry. trans (_normalize_path p); [|exact Hnp]. apply (violation_path p pattern (diffs_by_path salvage)).
      * by rewrite Hnp.
      * rewrite Hnp. intros d Hd. rewrite (Hlook p Hpc) in Hd. simplify_eq. by rewrite load_path.
      * by rewrite Hnp.
    + apply elem_of_find. exists p, pattern. rewrite Hnp.
      apply elem_of_unowned in Hp as (raw & pat & _ & _ & Hne & _ & _).
      split_and!; try done. by apply (proj2 (elem_of_fromkeys _ _)).
Qed.

Lemma quarantined (p : string) :
  p ∈ quarantine <->
  p ∈ candidates /\ find_protected_quality_gate_changes [p] owned diffs [] <> [].
Proof.
  assert (Hsub : p ∈ quarantine -> p ∈ candidates)
    by (unfold quarantine, _quarantine_blocking_protected_paths; by intros [_ ?]%elem_of_bfilter).
  destruct (decide (p ∈ candidates)) as [Hp|Hp]; [|naive_solver].
  destruct (find_candidate p Hp) as (pattern & Hm & ->).
  destruct (requires_protected_file_diff p) eqn:Hr.
  - rewrite (quarantined_classified p pattern Hp Hr Hm). naive_solver.
  - destruct (unclassified_violation p pattern (diffs_by_path diffs) (candidate_normal p Hp) (or_introl Hr))
      as [v ->]. split; [done|]. intros _.
    unfold quarantine, _quarantine_blocking_protected_paths. apply elem_of_bfilter. by rewrite Hr.
Qed.

(** C26: A retry leaves behind what the gate blocks, and nothing else.  Of the changed
    files of a failed attempt, the salvage quarantines exactly the protected and unowned
    ones that the gate reports when it sees the same texts, and the gate has nothing to
    report about the others, whatever an operator granted. *)
Theorem quarantine_exact :
  (forall p, p ∈ quarantine <->
     p ∈ candidates /\ find_protected_quality_gate_changes [p] owned diffs [] <> []) /\
  (forall grants,
     find_protected_quality_gate_changes
       (List.filter (fun raw => negb (mem (_normalize_path raw) quarantine)) changed)
       owned diffs grants = []).
Proof.
  split; [exact quarantined|]. intros grants. apply elem_of_nil_inv. intros v Hv.
  apply elem_of_find in Hv as (raw & pattern & Hr & Hne & Hm & Ho & _ & Hv).
  apply elem_of_bfilter in Hr as [Hq Hr]. apply negb_true_iff, mem_false in Hq. apply Hq, quarantined.
  assert (Hc : _normalize_path raw ∈ candidates) by (apply elem_of_unowned; by exists raw, pattern).
  split; [done|]. destruct (find_candidate _ Hc) as (pattern' & Hm' & ->). simplify_eq.
  intros Hnil. rewrite Hnil in Hv. by apply elem_of_nil in Hv.
Qed.
End Facts.

(** A classifier that knows no safe edit. *)
Definition strict_classifier (section : string) (diff : ProtectedFileDiff) (protected : string)
  : list QualityGateViolation :=
  if eqb (pd_old_text diff) (pd_new_text diff) then []
  else [_violation (_normalize_path (pd_path diff)) protected section None "changed"].

Lemma strict_classifier_path (section : string) (diff : ProtectedFileDiff) (protected : string)
    (v : QualityGateViolation) :
  v ∈ strict_classifier section diff protected -> qv_path v = _normalize_path (pd_path diff).
Proof.
  unfold strict_classifier. destruct (eqb _ _); [by intros ?%elem_of_nil|].
  by intros ->%list_elem_of_singleton.
Qed.

#[local] Instance strict_classifiers : Classifiers := {|
  _classify_pyproject_change := strict_classifier "pyproject.toml";
  _classify_workflow_change := strict_classifier "workflow";
  classified_path diff protected v H :=
    match H with
    | or_introl H => strict_classifier_path _ diff protected v H
    | or_intror H => strict_classifier_path _ diff protected v H
    end
|}.

Definition sample_load (path : string) : ProtectedFileDiff :=
  {| pd_path := path; pd_old_text := Some "a";
     pd_new_text := Some (if eqb path "pyproject.toml" then "a" else "b") |}.
Definition sample_changes : list string :=
  ["src/app.py"; "pyproject.toml"; ".github/workflows/ci.yml"; "tox.ini"; ".github/workflows/docs.yml"].

Example sample_quarantine :
  _quarantine_blocking_protected_paths sample_load
    (unowned_protected_paths sample_changes [".github/workflows/docs.yml"])
  = [".github/workflows/ci.yml"; "tox.ini"].
Proof. vm_compute. reflexivity. Qed.

Lemma quarantine_exact_witness :
  find_protected_quality_gate_changes
    (List.filter (fun raw => negb (mem (_normalize_path raw) (_quarantine_blocking_protected_paths
       sample_load (unowned_protected_paths sample_changes ["docs"])))) sample_changes)
    ["docs"] (loaded_diffs sample_load sample_changes ["docs"]) [] = [].
Proof.
  refine (proj2 (quarantine_exact sample_load _ sample_changes ["docs"] _) []).
  - reflexivity.
  - intros raw Hraw.
    assert (Hall : forallb (fun p => eqb (_normalize_path (_normalize_path p)) (_normalize_path p))
      sample_changes = true) by (vm_compute; reflexivity).
    apply (proj1 (eqb_true _ _)). exact (proj1 (forallb_elem _ _) Hall raw Hraw).
Defined.

Lemma gate_exact_witness :
  exists v, v ∈ find_protected_quality_gate_changes sample_changes ["docs/**"] [] [] /\
    qv_path v = "tox.ini".
Proof.
  apply (gate_exact sample_changes ["docs/**"] [] [] "tox.ini").
  - intros q d Hd. discriminate Hd.
  - split; [|split].
    + apply elem_of_unowned. exists "tox.ini", "tox.ini".
      split; [apply list_elem_of_In; cbn; tauto|]. split_and!; vm_compute; try reflexivity; discriminate.
    + intros grant Hg. by apply elem_of_nil in Hg.
    + left. vm_compute. reflexivity.
Defined.

(** ** A pattern owns too much *)

Lemma find_char_head (c : ascii) (s : string) : find_char c (String c s) = Some O.
Proof. cbn [find_char]. by rewrite Ascii.eqb_refl. Qed.

Lemma least_zero (i : nat) (l : list nat) : O ∈ i :: l -> foldr Nat.min i l = O.
Proof.
  induction l as [|j l IH]; intros H; [by apply list_elem_of_singleton in H|]. cbn.
  apply elem_of_cons in H as [<-|H]; [rewrite IH by left; lia|].
  apply elem_of_cons in H as [<-|H]; [lia|]. rewrite IH by by right. lia.
Qed.

Lemma leading_wildcard_prefix (c : ascii) (s : string) :
  c ∈ ["*"; "?"; "["]%char -> wildcard_prefix (String c s) = Some "".
Proof.
  intros Hc. unfold wildcard_prefix.
  assert (Hz : O ∈ omap (fun d => find_char d (String c s)) ["*"; "?"; "["]%char)
    by (apply list_elem_of_omap; exists c; split; [done|apply find_char_head]).
  destruct (omap _ _) as [|i l]; [by apply elem_of_nil in Hz|]. by rewrite least_zero.
Qed.

Lemma leading_wildcard_owns (path owned : string) (c : ascii) (s : string) :
  normalize_owned_path owned = String c s -> c ∈ ["*"; "?"; "["]%char ->
  normalize_owned_path path <> "" -> owned_paths_overlap path owned = true.
Proof.
  intros Ho Hc Hp. unfold owned_paths_overlap, owned_path_overlap_match. cbv zeta.
  rewrite Ho, (leading_wildcard_prefix c s Hc), (proj2 (eqb_false _ _) Hp).
  replace (eqb (String c s) "") with false by (symmetry; by apply eqb_false). cbn [orb].
  destruct (eqb _ _); [done|]. destruct (literal_paths_overlap _ _); [by destruct (is_descendant _ _)|].
  replace (wildcard_prefix_overlaps "" (normalize_owned_path path)) with true by done.
  by rewrite orb_true_r.
Qed.

(** C27: The gate is open to a task that owns a pattern with a leading wildcard.  A declared
    path such as [**/*.md] is taken to own every protected file, so that no change of the
    validation, coverage or workflow policy is reported, whatever it is, where a grant of
    the same pattern covers only what it matches. *)
Theorem leading_wildcard_opens_gate `{Classifiers} (changed owned : list string)
    (diffs : list (string * ProtectedFileDiff)) (grants : list GrantSpec) (pattern s : string) (c : ascii) :
  pattern ∈ owned -> normalize_owned_path pattern = String c s -> c ∈ ["*"; "?"; "["]%char ->
  (forall raw, raw ∈ changed -> normalize_owned_path (_normalize_path raw) <> "") ->
  find_protected_quality_gate_changes changed owned diffs grants = [].
Proof.
  intros Hin Hn Hc Hch. apply elem_of_nil_inv. intros v Hv.
  apply elem_of_find in Hv as (raw & pat & Hr & _ & _ & Ho & _).
  unfold _is_owned in Ho. rewrite existsb_none in Ho. specialize (Ho pattern Hin).
  by rewrite (leading_wildcard_owns _ pattern c s Hn Hc (Hch raw Hr)) in Ho.
Qed.

Lemma leading_wildcard_opens_gate_witness :
  find_protected_quality_gate_changes
    ["pyproject.toml"; ".awf/workspace.yml"; ".github/workflows/ci.yml"] ["**/*.md"] [] [] = [] /\
  _grant_matches "pyproject.toml" "**/*.md" = false.
Proof.
  split; [|vm_compute; reflexivity].
  apply leading_wildcard_opens_gate with "**/*.md" "*/*.md" "*"%char;
    [by left|vm_compute; reflexivity|by left|].
  intros raw Hraw He.
  assert (Hall : forallb (fun p => negb (eqb (normalize_owned_path (_normalize_path p)) ""))
    ["pyproject.toml"; ".awf/workspace.yml"; ".github/workflows/ci.yml"] = true) by (vm_compute; reflexivity).
  pose proof (proj1 (forallb_elem _ _) Hall raw Hraw) as Hne. cbv beta in Hne.
  rewrite He in Hne. discriminate Hne.
Defined.
