(* ===== verification/Commands.v ===== *)
(** * Commands under a watchdog

    [AsyncioSubprocessRunner.run_streaming] of [common/commands.py]: the watchdog that ends a
    child which ran too long or went silent, as a step relation over a clock, and how the
    runner settles a run when its teardown fails or is cancelled.  Times are ticks of the
    event loop's clock; the loop serves a timer at most [late] ticks after it is due. *)

From stdpp Require Import relations.
From S2P Require Import Prelude PyStr.
#[local] Open Scope Z_scope.

Definition COMMAND_TIMEOUT_REASON : string := "COMMAND_TIMEOUT".
Definition COMMAND_IDLE_TIMEOUT_REASON : string := "COMMAND_IDLE_TIMEOUT".
Definition _TIMEOUT_RETURN_CODE : Z := 124.

Record Limits : Type := {
  wall_timeout_seconds : option Z;
  idle_timeout_seconds : option Z;
  activity_probe : bool
}.

(** The message of the [ValueError]. *)
Definition _validate_timeout (name : string) (value : option Z) : result string unit :=
  match value with
  | Some v => if v <=? 0 then Err (name +:+ " must be positive") else Ok tt
  | None => Ok tt
  end.

Definition validate_limits (l : Limits) : result string unit :=
  _ <-? _validate_timeout "wall_timeout_seconds" (wall_timeout_seconds l) ;;
  _validate_timeout "idle_timeout_seconds" (idle_timeout_seconds l).

(** ** The watchdog *)

(** What the task of the watchdog does: the head of its loop since a time, a wait for the
    child's exit until a time, a wait for the probe, begun with an output clock, until a
    time, the termination of the child, or nothing any more. *)
Inductive Watchdog : Type :=
| Head (since : Z)
| Sleeping (until : Z)
| Probing (output_at until : Z)
| Terminating
| Returned.

Record Run : Type := {
  now : Z;
  started_at : Z;
  last_output_at : Z;
  returncode : option Z;            (* of the task that waits for the child *)
  timeout_reason : option string;
  activity_extensions : nat;
  watchdog : Watchdog
}.

Definition with_watchdog (w : Watchdog) (r : Run) : Run :=
  {| now := now r; started_at := started_at r; last_output_at := last_output_at r;
     returncode := returncode r; timeout_reason := timeout_reason r;
     activity_extensions := activity_extensions r; watchdog := w |}.

(** [timeout_reason = reason; break] *)
Definition time_out (reason : string) (r : Run) : Run :=
  {| now := now r; started_at := started_at r; last_output_at := last_output_at r;
     returncode := returncode r; timeout_reason := Some reason;
     activity_extensions := activity_extensions r; watchdog := Terminating |}.

Definition extend_activity (r : Run) : Run :=
  {| now := now r; started_at := started_at r; last_output_at := now r;
     returncode := returncode r; timeout_reason := timeout_reason r;
     activity_extensions := S (activity_extensions r); watchdog := Head (now r) |}.

Definition wall_deadline (l : Limits) (r : Run) : option Z :=
  (fun wall => started_at r + wall) <$> wall_timeout_seconds l.
Definition idle_deadline (l : Limits) (r : Run) : option Z :=
  (fun idle => last_output_at r + idle) <$> idle_timeout_seconds l.
Definition passed (deadline : option Z) (time : Z) : bool :=
  match deadline with Some d => d <=? time | None => false end.

(** After the probe, or without one, with the output clock of before. *)
Definition probe_answered (observed : option bool) (output_at : Z) (r : Run) : Run :=
  match returncode r with
  | Some _ => with_watchdog Returned r
  | None =>
      if output_at <? last_output_at r then with_watchdog (Head (now r)) r
      else if eqb observed (Some false) then time_out COMMAND_IDLE_TIMEOUT_REASON r
      else extend_activity r
  end.

(** One turn of [while not wait_task.done()]. *)
Definition watchdog_turn (l : Limits) (r : Run) : Run :=
  match returncode r with
  | Some _ => with_watchdog Returned r
  | None =>
      if passed (wall_deadline l r) (now r) then time_out COMMAND_TIMEOUT_REASON r
      else if passed (idle_deadline l r) (now r) then
        let output_at := last_output_at r in
        if activity_probe l then
          let budget := match wall_deadline l r with
                        | Some wall => Z.max (wall - now r) 0
                        | None => default output_at (idle_deadline l r) - output_at
                        end in
          with_watchdog (Probing output_at (now r + budget)) r
        else probe_answered (Some false) output_at r
      else
        match option_list (wall_deadline l r) ++ option_list (idle_deadline l r) with
        | [] => with_watchdog Returned r
        | d :: rest =>
            with_watchdog (Sleeping (now r + Z.max (foldr Z.min d rest - now r) 0)) r
        end
  end.

(** ** Runs *)

Definition pass_time (d : Z) (r : Run) : Run :=
  {| now := now r + d; started_at := started_at r; last_output_at := last_output_at r;
     returncode := returncode r; timeout_reason := timeout_reason r;
     activity_extensions := activity_extensions r; watchdog := watchdog r |}.

Definition emit_output (r : Run) : Run :=
  {| now := now r; started_at := started_at r; last_output_at := now r;
     returncode := returncode r; timeout_reason := timeout_reason r;
     activity_extensions := activity_extensions r; watchdog := watchdog r |}.

Definition child_exit (code : Z) (r : Run) : Run :=
  {| now := now r; started_at := started_at r; last_output_at := last_output_at r;
     returncode := Some code; timeout_reason := timeout_reason r;
     activity_extensions := activity_extensions r; watchdog := watchdog r |}.

(** When the watchdog's task is due, if it waits for nothing else. *)
Definition due (w : Watchdog) : option Z :=
  match w with
  | Head since => Some since
  | Sleeping until | Probing _ until => Some until
  | Terminating | Returned => None
  end.

Section Steps.
Context (l : Limits) (late : Z).

Inductive step : Run -> Run -> Prop :=
| step_time (r : Run) (d : Z) :
    0 <= d -> (forall t, due (watchdog r) = Some t -> now r + d <= t + late) -> step r (pass_time d r)
| step_output (r : Run) : step r (emit_output r)
| step_exit (r : Run) (code : Z) : returncode r = None -> step r (child_exit code r)
| step_turn (r : Run) (since : Z) : watchdog r = Head since -> step r (watchdog_turn l r)
| step_wake (r : Run) (until : Z) :
    watchdog r = Sleeping until -> until <= now r \/ returncode r <> None ->
    step r (with_watchdog (if returncode r is Some _ then Returned else Head (now r)) r)
| step_probe (r : Run) (output_at until : Z) (observed : option bool) :
    (* an answer, none because the probe failed, the budget is spent or the child exited *)
    watchdog r = Probing output_at until -> step r (probe_answered observed output_at r)
| step_terminated (r : Run) :
    watchdog r = Terminating -> returncode r <> None -> step r (with_watchdog Returned r).

Definition start (time : Z) : Run :=
  {| now := time; started_at := time; last_output_at := time; returncode := None;
     timeout_reason := None; activity_extensions := 0;
     watchdog := match wall_timeout_seconds l, idle_timeout_seconds l with
                 | None, None => Returned
                 | _, _ => Head time
                 end |}.
Definition reachable (r : Run) : Prop := exists time, rtc step (start time) r.
End Steps.

(** ** Settling a run *)

Record CommandResult : Type := {
  cr_returncode : Z;
  cr_stdout : string;
  cr_stderr : string;
  cr_reason_code : option string
}.

(** What escapes an [await]: a cancellation or an ordinary exception, with its
    [command_reason_code]. *)
Inductive Escape : Type := CancelledError | OrdinaryException (message : string).
Record Raised : Type := { escaping_exc : Escape; command_reason_code : option string }.

Definition mark_masked_command_reason_code (exc : Escape) (reason : option string) : Raised :=
  {| escaping_exc := exc; command_reason_code := reason |}.

Section Settle.
Context (format_seconds : Z -> string).

Definition _format_seconds (value : option Z) : string :=
  match value with None => "unknown" | Some v => format_seconds v end.

Definition _timeout_diagnostic (l : Limits) (reason_code : string) : string :=
  if eqb reason_code COMMAND_IDLE_TIMEOUT_REASON then
    let suffix := if activity_probe l then " or worktree activity" else "" in
    "command idle timeout after " +:+ _format_seconds (idle_timeout_seconds l)
    +:+ "s without output" +:+ suffix +:+ String (char 10) ""
  else
    "command wall timeout after " +:+ _format_seconds (wall_timeout_seconds l)
    +:+ "s" +:+ String (char 10) "".

(** From [await asyncio.gather( *tasks )] on: how it ended and the verdict at that time, how
    the cleanup of the [finally] ended and the verdict after it, the child's code, what
    was read, and how the sink took the diagnostic. *)
Definition settle (l : Limits) (gathered : option Escape) (verdict : option string)
    (cleanup : option Escape) (reason : option string) (child_code : Z)
    (stdout_text stderr_text : string) (emitted : option Escape) : Raised + CommandResult :=
  let escape exc := inl (mark_masked_command_reason_code exc reason) in
  let torn_down :=
    match gathered with
    | None => inr false
    | Some CancelledError => inl CancelledError
    | Some exc => if verdict is Some _ then inr true else inl exc
    end in
  match cleanup, torn_down with
  | Some exc, _ => escape exc
  | None, inl exc => escape exc
  | None, inr teardown_failed =>
      let code := if teardown_failed : bool then _TIMEOUT_RETURN_CODE else child_code in
      match reason with
      | None => inr {| cr_returncode := code; cr_stdout := stdout_text; cr_stderr := stderr_text;
                       cr_reason_code := None |}
      | Some reason_code =>
          match emitted with
          | Some CancelledError => escape CancelledError
          | _ => inr {| cr_returncode := _TIMEOUT_RETURN_CODE; cr_stdout := stdout_text;
                        cr_stderr := stderr_text +:+ _timeout_diagnostic l reason_code;
                        cr_reason_code := Some reason_code |}
          end
      end
  end.
End Settle.

(** ** Facts of the watchdog *)

Section Watch.
Context (l : Limits) (late : Z) (late_pos : 0 <= late).
Context (wall_pos : forall w, wall_timeout_seconds l = Some w -> 0 < w).
Context (idle_pos : forall i, idle_timeout_seconds l = Some i -> 0 < i).

(** The clocks, and what the watchdog waits for. *)
Record Inv (r : Run) : Prop := {
  inv_clocks : started_at r <= last_output_at r <= now r;
  inv_due : forall t, due (watchdog r) = Some t -> now r <= t + late;
  inv_head : forall since, watchdog r = Head since -> since <= now r;
  inv_probing : forall output_at until, watchdog r = Probing output_at until ->
    activity_probe l = true /\ output_at <= last_output_at r /\
    exists idle, idle_timeout_seconds l = Some idle /\ output_at + idle <= now r;
  inv_verdict : forall reason, timeout_reason r = Some reason ->
    watchdog r = Terminating \/ watchdog r = Returned
}.

(** A turn ends the loop, settles the run, asks the probe or sleeps until a deadline. *)
Inductive Turn (r : Run) : Run -> Prop :=
| turn_returned : returncode r <> None \/ wall_timeout_seconds l = None /\ idle_timeout_seconds l = None ->
    Turn r (with_watchdog Returned r)
| turn_wall (w : Z) : returncode r = None -> wall_timeout_seconds l = Some w ->
    started_at r + w <= now r -> Turn r (time_out COMMAND_TIMEOUT_REASON r)
| turn_idle (i : Z) : returncode r = None -> idle_timeout_seconds l = Some i ->
    last_output_at r + i <= now r -> activity_probe l = false ->
    (forall w, wall_timeout_seconds l = Some w -> now r < started_at r + w) ->
    Turn r (time_out COMMAND_IDLE_TIMEOUT_REASON r)
| turn_probe (i until : Z) : returncode r = None -> idle_timeout_seconds l = Some i ->
    last_output_at r + i <= now r -> activity_probe l = true -> now r <= until ->
    (forall w, wall_timeout_seconds l = Some w -> now r < started_at r + w /\ until = started_at r + w) ->
    (wall_timeout_seconds l = None -> until = now r + i) ->
    Turn r (with_watchdog (Probing (last_output_at r) until) r)
| turn_sleep (until : Z) : returncode r = None -> now r <= until ->
    (forall w, wall_timeout_seconds l = Some w -> now r < started_at r + w /\ until <= started_at r + w) ->
    (forall i, idle_timeout_seconds l = Some i -> now r < last_output_at r + i /\ until <= last_output_at r + i) ->
    Turn r (with_watchdog (Sleeping until) r).

Lemma watchdog_turn_spec (r : Run) : Turn r (watchdog_turn l r).
Proof.
  unfold watchdog_turn, probe_answered. destruct (returncode r) as [c|] eqn:Hc; [apply turn_returned; left; by rewrite Hc|].
  unfold wall_deadline, idle_deadline.
  destruct (wall_timeout_seconds l) as [w|] eqn:Hw, (idle_timeout_seconds l) as [i|] eqn:Hi;
    cbn [passed fmap option_fmap option_map option_list app];
    repeat match goal with |- context [(?a <=? ?b)%Z] => destruct (Z.leb_spec a b) end;
    try (by eapply turn_wall); rewrite ?Z.ltb_irrefl, ?eqb_refl;
    try (destruct (activity_probe l) eqn:Hp; [eapply (turn_probe r i)|eapply (turn_idle r i)]);
    try (apply turn_returned; by right); try apply turn_sleep; try done; cbn [default];
    try (intros ? [= <-]); try lia; intros; simplify_eq; cbn; try lia.
  pose proof (idle_pos i eq_refl). lia.
Qed.

Lemma start_inv (time : Z) : Inv (start l time).
Proof.
  split; cbn; [lia| | | |done].
  - intros t. destruct (wall_timeout_seconds l), (idle_timeout_seconds l); cbn; intros [= <-]; lia.
  - intros s. destruct (wall_timeout_seconds l), (idle_timeout_seconds l); intros [= <-]; lia.
  - intros o u. by destruct (wall_timeout_seconds l), (idle_timeout_seconds l).
Qed.

Lemma no_verdict (r : Run) : Inv r -> due (watchdog r) <> None -> timeout_reason r = None.
Proof.
  intros HI Hd. destruct (timeout_reason r) as [reason|] eqn:E; [|done].
  by destruct (inv_verdict r HI reason E) as [Hw|Hw]; rewrite Hw in Hd.
Qed.

Lemma probe_answered_inv (observed : option bool) (o u : Z) (r : Run) :
  Inv r -> watchdog r = Probing o u -> Inv (probe_answered observed o r).
Proof.
  intros HI Hw. pose proof (inv_clocks r HI). pose proof (no_verdict r HI ltac:(by rewrite Hw)) as Hno.
  unfold probe_answered. repeat case_match; split; cbn; rewrite ?Hno; intros; simplify_eq; auto with lia.
Qed.

Lemma step_keeps_inv (r r' : Run) : Inv r -> step l late r r' -> Inv r'.
Proof.
  intros HI Hs. pose proof (inv_clocks r HI) as Hc. pose proof (inv_verdict r HI) as Hv.
  destruct Hs as [r d Hd Hdue|r|r code Hr|r since Hw|r until Hw Hu|r o u observed Hw|r Hw Hr].
  - split; cbn; [lia|done| | |done].
    + intros s Hs. pose proof (inv_head r HI s Hs). lia.
    + intros o u Hp. destruct (inv_probing r HI o u Hp) as (? & ? & i & ? & ?). split_and!; [done|lia|].
      exists i. split; [done|lia].
  - split; cbn; [lia|apply (inv_due r HI)|apply (inv_head r HI)| |done].
    intros o u Hp. destruct (inv_probing r HI o u Hp) as (? & ? & i & ? & ?). split_and!; [done|lia|].
    exists i. by split.
  - split; cbn; [lia|apply (inv_due r HI)|apply (inv_head r HI)|apply (inv_probing r HI)|done].
  - pose proof (no_verdict r HI ltac:(by rewrite Hw)) as Hno.
    destruct (watchdog_turn_spec r); split; cbn; rewrite ?Hno; intros; simplify_eq; auto with lia.
    split_and!; [done|lia|]. exists i. by split.
  - pose proof (no_verdict r HI ltac:(by rewrite Hw)) as Hno.
    destruct (returncode r); split; cbn; rewrite ?Hno; intros; simplify_eq; auto with lia.
  - by apply (probe_answered_inv observed o u).
  - split; cbn; intros; simplify_eq; auto with lia.
Qed.

Lemma reachable_keeps_inv (r : Run) : reachable l late r -> Inv r.
Proof.
  intros [time H]. apply rtc_ind_r with (P := Inv) in H; [done|apply start_inv|].
  intros x y _ Hs HI. by apply (step_keeps_inv x y).
Qed.

(** How late the watchdog can be, by what it waits for. *)
Record InTime (r : Run) : Prop := {
  in_time_wall : forall w, wall_timeout_seconds l = Some w ->
    match watchdog r with
    | Head since => since <= started_at r + w + late
    | Sleeping until | Probing _ until => until <= started_at r + w
    | _ => True
    end;
  in_time_idle : forall i, wall_timeout_seconds l = None -> idle_timeout_seconds l = Some i ->
    match watchdog r with
    | Head since => since <= last_output_at r + i + late
    | Sleeping until => until <= last_output_at r + i
    | Probing o until => until <= o + 2 * i + 2 * late /\ until <= now r + i /\
                         (last_output_at r = o \/ until <= last_output_at r + i)
    | _ => True
    end
}.

Lemma start_in_time (time : Z) : InTime (start l time).
Proof.
  split; cbn.
  - intros w Hw. pose proof (wall_pos w Hw). rewrite Hw. lia.
  - intros i Hw Hi. pose proof (idle_pos i Hi). rewrite Hw, Hi. lia.
Qed.

Lemma step_in_time (r r' : Run) : Inv r -> InTime r -> step l late r r' -> InTime r'.
Proof.
  intros HI [HW HD] Hs. pose proof (inv_clocks r HI) as Hc. pose proof (inv_due r HI) as Hdue.
  destruct Hs as [r d Hd _|r|r code Hr|r since Hw|r until Hw Hu|r o u observed Hw|r Hw Hr].
  - split; cbn; [exact HW|]. intros i Hwn Hi. specialize (HD i Hwn Hi). destruct (watchdog r); lia.
  - split; cbn; [exact HW|]. intros i Hwn Hi. specialize (HD i Hwn Hi). destruct (watchdog r); lia.
  - by split.
  - rewrite Hw in HW, HD. specialize (Hdue since ltac:(by rewrite Hw)).
    destruct (watchdog_turn_spec r) as [| | |i u _ Hi Hlast _ _ Hwall Hnone|u _ _ Hwall Hidle]; split; cbn; try done.
    + intros w Hw'. destruct (Hwall w Hw'). lia.
    + intros j Hn Hj. specialize (HD j Hn Hj). rewrite Hi in Hj. injection Hj as <-.
      rewrite (Hnone Hn). lia.
    + intros w Hw'. by destruct (Hwall w Hw').
    + intros i Hn Hi. by destruct (Hidle i Hi).
  - rewrite Hw in HW, HD. specialize (Hdue until ltac:(by rewrite Hw)).
    destruct (returncode r); split; cbn; try done.
    + intros w Hw'. specialize (HW w Hw'). lia.
    + intros i Hn Hi. specialize (HD i Hn Hi). lia.
  - rewrite Hw in HW, HD. specialize (Hdue u ltac:(by rewrite Hw)).
    unfold probe_answered. destruct (returncode r); [by split|].
    destruct (Z.ltb_spec o (last_output_at r)).
    + split; cbn; [intros w Hw'; specialize (HW w Hw'); lia|]. intros i Hn Hi. specialize (HD i Hn Hi). lia.
    + destruct (eqb observed (Some false)); split; cbn; try done.
      * intros w Hw'. specialize (HW w Hw'). lia.
      * intros i Hn Hi. pose proof (idle_pos i Hi). lia.
  - by split.
Qed.

Lemma reachable_in_time (r : Run) : reachable l late r -> Inv r /\ InTime r.
Proof.
  intros [time H]. apply rtc_ind_r with (P := fun r => Inv r /\ InTime r) in H; [done| |].
  - split; [apply start_inv|apply start_in_time].
  - intros x y _ Hs [HI HT]. split; [by apply (step_keeps_inv x y)|by apply (step_in_time x y)].
Qed.

(** ** Properties *)

(** C28: A command is only timed out for cause.  A step that gives the verdict finds the
    child running, and the clock at the wall limit from the start, or at the idle limit
    from the last output or observed activity; with a probe, the probe was asked since
    that output, answered that nothing moved, and nothing was printed meanwhile.  A child
    that has exited is never given a verdict. *)
Theorem timeout_justified (r r' : Run) (reason : string) :
  reachable l late r -> step l late r r' -> timeout_reason r = None -> timeout_reason r' = Some reason ->
  returncode r = None /\ watchdog r' = Terminating /\
  ((reason = COMMAND_TIMEOUT_REASON /\
    exists w, wall_timeout_seconds l = Some w /\ started_at r + w <= now r) \/
   (reason = COMMAND_IDLE_TIMEOUT_REASON /\
    (exists i, idle_timeout_seconds l = Some i /\ last_output_at r + i <= now r) /\
    (activity_probe l = true -> exists until,
       watchdog r = Probing (last_output_at r) until /\
       r' = probe_answered (Some false) (last_output_at r) r))).
Proof.
  intros Hr Hs Hno Hv. pose proof (reachable_keeps_inv r Hr) as HI.
  destruct Hs as [r d Hd _|r|r code Hrc|r since Hw|r until Hw Hu|r o u observed Hw|r Hw Hrc];
    cbn in Hv; try congruence.
  - destruct (watchdog_turn_spec r) as [|w Hrc Hwall Hle|i Hrc Hi Hle Hp _| |]; cbn in Hv; try congruence;
      injection Hv as <-.
    + split_and!; [done|done|left]. split; [done|by exists w].
    + split_and!; [done|done|right]. split; [done|]. split; [by exists i|congruence].
  - destruct (inv_probing r HI o u Hw) as (_ & Ho & i & Hi & Hle).
    unfold probe_answered in *. destruct (returncode r) eqn:Hrc; [cbn in Hv; congruence|].
    destruct (Z.ltb_spec o (last_output_at r)); [cbn in Hv; congruence|].
    destruct (eqb observed (Some false)) eqn:He; [|cbn in Hv; congruence].
    apply (eqb_true observed (Some false)) in He as ->. assert (o = last_output_at r) as -> by lia.
    cbn in Hv. injection Hv as <-. split_and!; [done|done|right]. split; [done|].
    split; [by exists i|]. intros _. exists u. split; [done|]. by rewrite Z.ltb_irrefl, eqb_refl.
Qed.

(** C29: The watchdog is in time.  As long as it has not begun to terminate the child and the
    child runs, the wall limit from the start is passed by no more than twice the lateness
    of the loop, whatever the child prints and however the probe answers or stalls;
    without a wall limit the watchdog is back within an idle window of the last output
    or activity, and with a probe within two. *)
Theorem watchdog_in_time (r : Run) :
  reachable l late r -> due (watchdog r) <> None ->
  (forall w, wall_timeout_seconds l = Some w -> now r <= started_at r + w + 2 * late) /\
  (forall i, wall_timeout_seconds l = None -> idle_timeout_seconds l = Some i ->
     now r <= last_output_at r + (if activity_probe l then 2 * i + 3 * late else i + 2 * late)).
Proof.
  intros Hr Hd. destruct (reachable_in_time r Hr) as [HI [HW HD]].
  pose proof (inv_due r HI) as Hdue. pose proof (inv_probing r HI) as Hp.
  destruct (watchdog r) as [since|until|o until| |] eqn:Ew; try done; cbn in Hdue;
    specialize (Hdue _ eq_refl); (split; [intros w Hw; specialize (HW w Hw); lia|]);
    intros i Hn Hi; specialize (HD i Hn Hi); pose proof (idle_pos i Hi);
    try (destruct (activity_probe l); lia).
  destruct (Hp o until eq_refl) as (-> & Ho & _). lia.
Qed.
End Watch.

(** A run with both limits and a probe: the idle window passes, the probe sees activity
    twice, then the wall limit is reached. *)
Definition sample_limits : Limits :=
  {| wall_timeout_seconds := Some 100; idle_timeout_seconds := Some 40; activity_probe := true |}.

Definition sample_run : Run :=
  {| now := 40; started_at := 0; last_output_at := 0; returncode := None; timeout_reason := None;
     activity_extensions := 0; watchdog := Probing 0 100 |}.

Lemma sample_run_reachable : reachable sample_limits 1 sample_run.
Proof.
  exists 0. eapply rtc_l; [by apply (step_turn _ _ _ 0)|].
  eapply rtc_l; [apply (step_time _ _ _ 40); [lia|intros t Ht; injection Ht as <-; vm_compute; discriminate]|].
  eapply rtc_l; [apply (step_wake _ _ _ 40); [done|left; vm_compute; discriminate]|].
  eapply rtc_l; [by apply (step_turn _ _ _ 40)|]. apply rtc_refl.
Qed.

Example sample_turns :
  watchdog_turn sample_limits (probe_answered None 0 sample_run)
  = {| now := 40; started_at := 0; last_output_at := 40; returncode := None; timeout_reason := None;
       activity_extensions := 1; watchdog := Sleeping 80 |} /\
  timeout_reason (watchdog_turn sample_limits (pass_time 60 (probe_answered (Some true) 0 sample_run)))
  = Some COMMAND_TIMEOUT_REASON.
Proof. vm_compute. split; reflexivity. Qed.

Lemma sample_limits_pos :
  (forall w, wall_timeout_seconds sample_limits = Some w -> 0 < w) /\
  (forall i, idle_timeout_seconds sample_limits = Some i -> 0 < i).
Proof. split; intros ? [= <-]; lia. Qed.

Lemma timeout_justified_witness :
  exists i, idle_timeout_seconds sample_limits = Some i /\ last_output_at sample_run + i <= now sample_run.
Proof.
  destruct (timeout_justified sample_limits 1 ltac:(lia) (proj1 sample_limits_pos) (proj2 sample_limits_pos) sample_run
    (probe_answered (Some false) 0 sample_run) COMMAND_IDLE_TIMEOUT_REASON)
    as (_ & _ & [[H _]|(_ & H & _)]).
  - exact sample_run_reachable.
  - by apply (step_probe _ _ _ 0 100).
  - reflexivity.
  - vm_compute. reflexivity.
  - discriminate H.
  - exact H.
Defined.

Lemma watchdog_in_time_witness : now sample_run <= started_at sample_run + 100 + 2 * 1.
Proof.
  apply (watchdog_in_time sample_limits 1 ltac:(lia) (proj1 sample_limits_pos) (proj2 sample_limits_pos)
    sample_run sample_run_reachable); [discriminate|reflexivity].
Defined.

(** C30: A verdict is never lost.  Once the watchdog has given its verdict, whatever becomes
    of the teardown, the cleanup and the diagnostic, the caller gets either a result with the
    verdict, the code of a timeout and the diagnostic, or an exception that carries the
    verdict; and only a cancellation or a failed cleanup escapes.  Without a verdict no
    exception carries one and the result has the child's own code. *)
Theorem verdict_survives (format_seconds : Z -> string) (l : Limits) (gathered : option Escape)
    (verdict : option string) (cleanup : option Escape) (child_code : Z) (out err : string)
    (emitted : option Escape) :
  match settle format_seconds l gathered verdict cleanup verdict child_code out err emitted with
  | inl raised =>
      command_reason_code raised = verdict /\
      match verdict with
      | Some _ => escaping_exc raised = CancelledError \/ cleanup = Some (escaping_exc raised)
      | None => True
      end
  | inr result =>
      cr_reason_code result = verdict /\
      match verdict with
      | Some reason => cr_returncode result = 124 /\
                       cr_stderr result = err +:+ _timeout_diagnostic format_seconds l reason
      | None => cr_returncode result = child_code /\ cr_stderr result = err /\ gathered = None
      end
  end.
Proof.
  unfold settle.
  destruct cleanup as [e|], gathered as [[|m]|], verdict as [v|], emitted as [[|m']|]; cbn;
    split_and?; try done; intros; try by left. all: try by right. all: by intros [].
Qed.
